(* ===== verification/_CoqProject ===== *)
-Q . S2P
Prelude.v
Loops.v
MaTypes.v
Ring.v
RingSpsc.v
BlockRing.v
FrameRing.v
PcmRing.v
CFloat.v
CFloatBounds.v
FrameCopy.v
Adapter.v
AdapterProps.v
AdapterOpen.v
PcmFormat.v
PcmFormatProps.v
ChannelMap.v
DeviceData.v
DeviceDataProps.v
AdapterDevice.v
DeviceState.v
Biquad.v
LowPass.v
LowPassProps.v
LinearResampler.v
LinearResamplerProps.v
ChannelConverter.v
ChannelConverterProps.v
ChannelWeights.v
Resampler.v
DataConverter.v
Stages.v
ChannelFrames.v
DataConverterProps.v
ResamplerStream.v
DataConverterStream.v
ConverterStream.v
DeviceIO.v
DeviceIOProps.v
DeviceClients.v
DeviceLoop.v
DeviceStreams.v
Ledger.v
Context.v
ContextProps.v
DeviceSetup.v
DeviceSetupProps.v
DeviceInit.v
FloatBlocks.v
SpeexArith.v
FloatDeps.v
SmallFt.v
SmallFtFactors.v
SmallFtSafe.v
SmallFtRun.v
SmallFtDeps.v
SmallFtPure.v
EchoState.v
EchoCancel.v
EchoProps.v
EchoRuns.v
EchoReset.v
EchoInit.v
EchoFifo.v
Filterbank.v
Preprocess.v
PreprocessRun.v
PreprocessProps.v
PreprocessLaws.v
PreprocessGain.v
SpeexWitness.v
