(* ===== verification/Prelude.v ===== *)
(** * Verification of Resona's native audio layer

    The C part of the voice application: the device adapter
    ([src/native/client-audio/device.c]) and the parts of the audio library it is built on
    ([src/native/client-audio/miniaudio.h], version 0.11.25), and SpeexDSP
    ([src/native/speexdsp]), the library that removes the echo of the loudspeakers and the
    noise from what is recorded.

    ** The program

    A device opened by the adapter plays and records 960-frame periods of 32-bit float
    stereo at 48 kHz.  The audio thread calls [data_callback], which takes the frames to
    play from the playback ring and the monitor ring, mixes them, writes what it played to
    the reference ring and cuts the captured samples into frames with a time and an epoch,
    which go into a byte ring.  The client's thread reads and writes the other ends of the
    rings through [ra_device_read], [ra_device_write] and [ra_device_discard].  Between the
    callback and the operating system lies miniaudio: the start/stop protocol with its
    worker thread, the intermediary buffers that make callbacks a fixed size, volume and
    clipping, the loops that exchange frames with a backend, and the data converter (format,
    channel map, rate) between the client's format and the device's.

    The client gives every recorded frame with the frame that was played to
    [speex_echo_cancellation] and then to [speex_preprocess_run], which asks the echo
    canceller for the echo that is left.  Both keep their signals in arrays of [float] that
    are allocated once.

    ** Files, from the bottom up

    - Language and memory.  [Prelude]: machine integers as [Z] with their wrap-around
      ([u32], [s32], ...), buffers as lists of bytes ([rd], [wr]), nullable pointers.
      [Loops]: counted loops and arrays of samples.  [CFloat], [CFloatBounds]: [float] and
      [double] as [spec_float], their bit patterns, and that rounding respects bounds.
      [MaTypes]: result codes, formats, macros.
    - Rings.  [Ring]: every [ma_rb_*] operation; the abstract state is the bytes between the
      cursors.  [RingSpsc]: the same operations cut at every shared access, one producer and
      one consumer interleaved, against a bounded queue.  [BlockRing]: rings used in whole
      blocks.  [FrameRing]: the interface of a ring of frames ([FrameRing], [FrameRingLaws]);
      [PcmRing]: [ma_pcm_rb_*], its data source and [ma_duplex_rb_init], which discharge it.
    - The adapter.  [FrameCopy]: its copy loops over any frame ring.  [Adapter]:
      [data_callback], [output_read], [ra_device_*]; [AdapterProps] what they guarantee.
      [AdapterOpen]: [ra_device_open] and [ra_device_close] with every failure, [id_string].
    - Samples.  [PcmFormat], [PcmFormatProps]: [ma_pcm_*_to_*] with dithering, clipping, volume,
      the SSE2 conversion.  [ChannelMap]: [ma_channel_map_*].
    - Conversion.  [Biquad], [LowPass], [LowPassProps]: [ma_biquad], [ma_lpf1], [ma_lpf2],
      [ma_lpf].  [LinearResampler], [LinearResamplerProps]: [ma_linear_resampler].
      [ChannelConverter], [ChannelConverterProps], [ChannelWeights]: [ma_channel_converter].
      [Resampler]: [ma_resampler] with its table of backends.  [DataConverter]:
      [ma_data_converter], its six execution paths through 4096-byte temporary buffers.
    - Streams of frames.  [Stages] ([FrameStage]), [ChannelFrames], [DataConverterProps],
      [ResamplerStream] ([StreamResampler]), [DataConverterStream], [ConverterStream]
      ([StreamConverter]): what lets conversion be done piece by piece.
    - The device.  [DeviceData], [DeviceDataProps]: [ma_device__on_data],
      [ma_device__handle_data_callback].  [DeviceState]: [ma_device_start],
      [ma_device_stop], [ma_worker_thread] as threads.  [DeviceIO], [DeviceIOProps],
      [DeviceLoop]: [ma_device__read_frames_from_client],
      [ma_device__send_frames_to_client], the duplex callbacks,
      [ma_device_handle_backend_data_callback],
      [ma_device_audio_thread__default_read_write].  [AdapterDevice], [DeviceClients],
      [DeviceStreams]: the adapter and other clients behind a device, end to end.
    - Contexts and devices, from creation to release.  [Ledger]: the resources a function
      acquires and releases, as a ledger of events, and rules for proving it balanced.
      [Context], [ContextProps]: [ma_context_init] and its list of backends,
      [ma_context_get_devices] and its callback, [ma_log].  [DeviceSetup],
      [DeviceSetupProps], [DeviceInit]: [ma_device_init], [ma_device_init_ex],
      [ma_device_post_init], [ma_device__post_init_setup] (which a backend calls when the
      system reroutes a device) and [ma_device_uninit].
    - SpeexDSP.  [FloatBlocks]: code on arrays of floats ([sigM]: reads and writes with
      their ranges) and rules for its safety; [FloatDeps]: what such code depends on.
      [SpeexArith]: its arithmetic and the wrapper of the transform.  [SmallFt]: the
      mixed-radix transform of [smallft.c], pass by pass; [SmallFtFactors]: its factors;
      [SmallFtSafe], [SmallFtRun]: its passes, alone and in turn, are in range;
      [SmallFtDeps], [SmallFtPure]: they depend on the data only.
      [EchoState]: [SpeexEchoState], its creation, reset and requests;
      [EchoCancel]: [speex_echo_cancellation] stage by stage, [speex_echo_playback] and
      [speex_echo_capture].  [EchoProps]: every stage is safe; [EchoRuns]: a frame;
      [EchoReset], [EchoInit]: what creation and reset leave in the arrays; [EchoFifo]: the
      play buffer as a queue.  [Filterbank]: [filterbank_*].  [Preprocess]:
      [SpeexPreprocessState], its creation and [speex_preprocess_ctl]; [PreprocessRun]:
      [speex_preprocess_run] stage by stage; [PreprocessProps]: its safety;
      [PreprocessLaws]: creation and requests; [PreprocessGain]: gain control and voice
      detection.  [SpeexWitness]: these theorems at concrete inputs.

    A C structure is a record with the source's member names, a function a definition with
    the source's name; a part of a function that is a definition of its own (the body of a
    loop, a branch) has a descriptive name.  A pointer that may be NULL is an [option].

    ** Interfaces

    [FrameRing] is what the adapter asks of a ring; [ma_pcm_rb] discharges it.
    [PlaybackClient], [CaptureClient] and [DuplexClient] are what the intermediary buffers
    ask of a client; the adapter discharges the first.  [FrameStage] is what the data
    converter asks of format and channel conversion, [StreamResampler] what it asks of a
    resampler (the linear resampler discharges it; an application's own backend is a
    parameter that may), [StreamConverter] what a device asks of a data converter (discharged
    with and without a resampler).  [PlaybackSource] and [CaptureSink] are what the loops of
    a device ask of the client side, discharged for fixed-size callbacks and for the adapter;
    [BackendWriter] is what the read-write loop asks of a backend.  [SpeexLibm] is what
    SpeexDSP asks of the C library, [Drft] what it asks of its transform, which
    [SmallFtPure.smallft] discharges.

    ** What the theorems show

    - End to end: the thread of a playback device hands its backend whole periods that are
      the conversion of the client's stream, across all buffers and turns; a capture device
      hands its client the conversion of all frames, once and in order; with the adapter
      behind it, a playback device plays the adapter's periods sample for sample.
    - Rings: every interleaving of producer and consumer is a run of a bounded queue, nothing
      is lost, no byte is accessed by both sides at once, and both sides make progress.
    - Adapter: the exact contents of the output, of the captured frames and of the rings
      after a callback; the output stays in [-1, 1]; discarding drops exactly the old frames
      of a route; opening releases what it acquired on every failure.
    - Start and stop: the states stay consistent with what backend and threads do, calls
      complete, and the run in which a stale event makes a stop return too early.
    - Creation and release: a context is made from the first backend of the list that
      starts; enumeration gives the devices the system reports, playback first; a device
      that is created is consistent and stopped, its creation and release acquire and
      release the same resources in a proper order, and a creation that fails keeps none.
    - Conversion: the data converter computes its pipeline on the whole input on every path;
      the linear resampler's outputs, positions and frame counts in closed form; weights,
      shuffles and averages of channels; filters in place and out of place agree; round trips
      and bounds of the sample conversions.
    - Transforms: the factorisation of a length stops and is one; with one table, any
      sequence of transforms is in range, and each gives what it would give with a fresh
      table, so that the scratch space they share carries nothing over.
    - Echo canceller and preprocessor: every access of a frame's processing is in range, for
      all sizes, channels and samples and whatever NaNs are in the filters, and the states
      stay consistent; a frame with impossible energies is silenced and resets the canceller;
      what a reset restores; the play buffer refines a queue of three frames; what is set by
      a request is got; the limits of the gain control.

    Some theorems state behaviour that is not what the code means to do; their comments
    say so.

    ** Fuel and bounds

    A loop whose end is not structural takes fuel, and out of fuel is [None], so that a
    theorem with a result includes termination: [gcf_loop] has 64 rounds (shown enough for
    32-bit operands), [on_data_loop] the number of frames and two, the loops of the data
    converter [rounds_fuel], the loops of a device fuel from the caller, with the bound in
    the theorem; [factor_loop] has [2 * n + 8] trial divisions for a length of
    [n].  The stream theorems are for calls of at most [max_frames] (2^22) frames, so that no
    byte count leaves 32 bits; those on transforms for lengths whose table an [int] indexes.

    ** Assumptions

    Little-endian memory, two's complement with wrapping signed arithmetic and arithmetic
    right shift, as the compilers the project supports; IEEE arithmetic rounding to nearest,
    without fused multiply-add and flushing of denormals, NaN without payload; [exp],
    [sin] and the like are parameters, and so is what the conversion of a number that is out
    of the range of an integer type gives, where SpeexDSP does it.  The allocations of SpeexDSP
    succeed; the signals its functions are given do not overlap.  Atomics are sequentially
    consistent, and one scheduler step is one shared access.  Pointers that the code
    asserts or requires are valid and distinct.  What the operating system, a backend or an
    application's table of functions answers is a parameter.

    ** Not modelled

    The operating-system backends (system calls; what they answer to [ma_device_init] and to
    the context is a parameter); decoders, encoders, the resource manager, the
    node graph and the engine, which the adapter compiles out; the filters other than
    low-pass; the fixed-point build of SpeexDSP and the transforms it is not built with; the
    test and measurement programs; code in other languages. *)
From Stdlib Require Import ZArith Lia Bool.
From stdpp Require Import base numbers list option.

Local Open Scope Z_scope.

(** ** Machine integers

    A C integer of width [w] is a [Z]; every conversion to an unsigned or signed
    width writes its wrap-around with one of these functions. *)

Definition wrapu (w z : Z) : Z := z mod 2 ^ w.
Definition wraps (w z : Z) : Z := (z + 2 ^ (w - 1)) mod 2 ^ w - 2 ^ (w - 1).

Definition u8 := wrapu 8.
Definition u16 := wrapu 16.
Definition u32 := wrapu 32.
Definition u64 := wrapu 64.
Definition s8 := wraps 8.
Definition s16 := wraps 16.
Definition s32 := wraps 32.
Definition s64 := wraps 64.

Definition in_u (w z : Z) : Prop := 0 <= z < 2 ^ w.
Definition in_s (w z : Z) : Prop := - 2 ^ (w - 1) <= z < 2 ^ (w - 1).

(** The same ranges as booleans, for the executable definitions. *)
Definition in_ub (w z : Z) : bool := (0 <=? z) && (z <? 2 ^ w).
Definition in_sb (w z : Z) : bool := (- 2 ^ (w - 1) <=? z) && (z <? 2 ^ (w - 1)).

Create HintDb cint discriminated.
Create HintDb cmem discriminated.
Create Rewrite HintDb ring.
Create Rewrite HintDb cmem.

Lemma wrapu_range w z : 0 <= w -> in_u w (wrapu w z).
Proof. intros Hw. apply Z.mod_pos_bound, Z.pow_pos_nonneg; lia. Qed.

Lemma wrapu_id w z : in_u w z -> wrapu w z = z.
Proof. intros H. by apply Z.mod_small. Qed.

Lemma pow2_half w : 0 < w -> 2 ^ w = 2 * 2 ^ (w - 1).
Proof. intros Hw. rewrite <- Z.pow_succ_r by lia. f_equal; lia. Qed.

Lemma wraps_range w z : 0 < w -> in_s w (wraps w z).
Proof.
  intros Hw. unfold in_s, wraps.
  pose proof (pow2_half w Hw) as E.
  pose proof (Z.mod_pos_bound (z + 2 ^ (w - 1)) (2 ^ w)
                (Z.pow_pos_nonneg 2 w ltac:(lia) ltac:(lia))). lia.
Qed.

Lemma wraps_id w z : 0 < w -> in_s w z -> wraps w z = z.
Proof.
  unfold in_s, wraps. intros Hw H. pose proof (pow2_half w Hw) as E.
  rewrite Z.mod_small; lia.
Qed.

Lemma wrapu_add_mod w k z : 0 <= w -> wrapu w (z + k * 2 ^ w) = wrapu w z.
Proof. intros Hw. unfold wrapu. by rewrite Z_mod_plus_full. Qed.

#[export] Hint Resolve wrapu_range wrapu_id wraps_range wraps_id : cint.

(** [cint] evaluates the ranges of the concrete widths and calls [lia]. *)
Ltac cint_unfold :=
  repeat match goal with
  | H : in_u _ _ |- _ => unfold in_u in H
  | H : in_s _ _ |- _ => unfold in_s in H
  | H : context [2 ^ (?w - 1)] |- _ =>
      let v := eval cbv in (2 ^ (w - 1)) in change (2 ^ (w - 1)) with v in H
  | H : context [2 ^ ?w] |- _ =>
      is_ground w; let v := eval cbv in (2 ^ w) in change (2 ^ w) with v in H
  | |- in_u _ _ => unfold in_u
  | |- in_s _ _ => unfold in_s
  | |- context [2 ^ (?w - 1)] =>
      is_ground w; let v := eval cbv in (2 ^ (w - 1)) in change (2 ^ (w - 1)) with v
  | |- context [2 ^ ?w] =>
      is_ground w; let v := eval cbv in (2 ^ w) in change (2 ^ w) with v
  end.

Ltac cint := cint_unfold; lia.

(** Closed conjunctions of comparisons, for concrete instances. *)
Ltac vm_decide :=
  vm_compute; repeat split; try reflexivity;
  let H := fresh in intro H; discriminate H.

(** Arithmetic with [/] and [mod]. *)
Ltac zdm := Z.div_mod_to_equations; nia.

(** ** Byte memory

    A buffer is the list of its cells.  Pointers into it are [Z] offsets;
    [rd m off n] is the block of [n] cells at [off], [wr m off d] is
    [memcpy(m + off, d, length d)]. *)

Definition zlen {A} (l : list A) : Z := Z.of_nat (length l).

Definition rd {A} (m : list A) (off n : Z) : list A :=
  take (Z.to_nat n) (drop (Z.to_nat off) m).

Definition wr {A} (m : list A) (off : Z) (d : list A) : list A :=
  take (Z.to_nat off) m ++ d ++ drop (Z.to_nat off + length d) m.

(** [zrep n x] is the block [memset] writes. *)
Definition zrep {A} (n : Z) (x : A) : list A := replicate (Z.to_nat n) x.

Section memory.
Context {A : Type}.
Implicit Types m d : list A.

Lemma zlen_nonneg m : 0 <= zlen m.
Proof. unfold zlen; lia. Qed.

Lemma zlen_nil : zlen (@nil A) = 0.
Proof. done. Qed.

Lemma zlen_cons (x : A) m : zlen (x :: m) = 1 + zlen m.
Proof. unfold zlen; simpl; lia. Qed.

Lemma zlen_app m d : zlen (m ++ d) = zlen m + zlen d.
Proof. unfold zlen; rewrite length_app; lia. Qed.

Lemma zlen_zrep n (x : A) : 0 <= n -> zlen (zrep n x) = n.
Proof. unfold zlen, zrep; rewrite length_replicate; lia. Qed.

Lemma zlen_rd m off n :
  0 <= off -> 0 <= n -> off + n <= zlen m -> zlen (rd m off n) = n.
Proof. unfold zlen, rd; rewrite length_take, length_drop; lia. Qed.

Lemma zlen_wr m off d :
  0 <= off -> off + zlen d <= zlen m -> zlen (wr m off d) = zlen m.
Proof.
  unfold zlen, wr; rewrite !length_app, length_take, length_drop; lia.
Qed.

Lemma rd_0 m off : rd m off 0 = [].
Proof. unfold rd. by rewrite take_0. Qed.

Lemma rd_all m : rd m 0 (zlen m) = m.
Proof. unfold rd, zlen. rewrite Nat2Z.id, drop_0. apply firstn_all. Qed.

Lemma rd_split m off a b :
  0 <= off -> 0 <= a -> 0 <= b ->
  rd m off (a + b) = rd m off a ++ rd m (off + a) b.
Proof.
  intros. unfold rd. rewrite !Z2Nat.inj_add, <- drop_drop by lia.
  set (l := drop (Z.to_nat off) m).
  rewrite <- (take_drop (Z.to_nat a) (take (Z.to_nat a + Z.to_nat b) l)).
  rewrite take_take, Nat.min_l, skipn_firstn_comm by lia.
  do 2 f_equal. lia.
Qed.

Lemma take_rd m off n k :
  0 <= n -> 0 <= k -> take (Z.to_nat k) (rd m off n) = rd m off (Z.min k n).
Proof. intros. unfold rd. rewrite take_take. f_equal; lia. Qed.

Lemma drop_rd m off n k :
  0 <= off -> 0 <= k <= n -> drop (Z.to_nat k) (rd m off n) = rd m (off + k) (n - k).
Proof.
  intros. unfold rd. rewrite skipn_firstn_comm, drop_drop. f_equal; [lia|f_equal; lia].
Qed.

Lemma rd_rd m off n off' n' :
  0 <= off -> 0 <= off' -> 0 <= n' -> off' + n' <= n ->
  rd (rd m off n) off' n' = rd m (off + off') n'.
Proof.
  intros. unfold rd. rewrite skipn_firstn_comm, take_take, drop_drop.
  f_equal; [lia|f_equal; lia].
Qed.

Lemma rd_wr_same m off d :
  0 <= off -> off <= zlen m -> rd (wr m off d) off (zlen d) = d.
Proof.
  unfold zlen, rd, wr. intros.
  rewrite drop_app_length' by (rewrite length_take; lia).
  rewrite Nat2Z.id. by rewrite take_app_length.
Qed.

Lemma rd_wr_before m off d off' n :
  0 <= off' -> 0 <= n -> off' + n <= off -> off <= zlen m ->
  rd (wr m off d) off' n = rd m off' n.
Proof.
  unfold zlen, rd, wr. intros.
  rewrite skipn_app, take_app_le by (rewrite length_drop, length_take; lia).
  rewrite skipn_firstn_comm, take_take. f_equal; lia.
Qed.

Lemma rd_wr_after m off d off' n :
  0 <= off -> off + zlen d <= off' -> off + zlen d <= zlen m ->
  rd (wr m off d) off' n = rd m off' n.
Proof.
  unfold zlen, rd, wr. intros.
  rewrite !skipn_app, !length_take.
  rewrite (drop_ge (take _ _)), (drop_ge d) by (rewrite ?length_take; lia).
  simpl. rewrite drop_drop. f_equal. f_equal. lia.
Qed.

Lemma rd_app_l m d off n :
  0 <= off -> off + n <= zlen m -> rd (m ++ d) off n = rd m off n.
Proof.
  unfold zlen, rd. intros. rewrite skipn_app.
  destruct (decide (Z.to_nat off <= length m)%nat).
  - rewrite take_app_le; [done|]. rewrite length_drop; lia.
  - replace (Z.to_nat n) with 0%nat by lia. by rewrite !take_0.
Qed.

Lemma wr_app_l m d e off :
  0 <= off -> off + zlen d <= zlen m -> wr (m ++ e) off d = wr m off d ++ e.
Proof.
  unfold zlen, wr. intros.
  rewrite take_app_le by lia. rewrite skipn_app.
  replace (Z.to_nat off + length d - length m)%nat with 0%nat by lia.
  rewrite drop_0. by rewrite <- !app_assoc.
Qed.

Lemma wr_wr_adj m off d e :
  0 <= off -> off + zlen d + zlen e <= zlen m ->
  wr (wr m off d) (off + zlen d) e = wr m off (d ++ e).
Proof.
  unfold zlen, wr. intros.
  replace (Z.to_nat (off + Z.of_nat (length d)))
    with (length (take (Z.to_nat off) m ++ d)) by (rewrite length_app, length_take; lia).
  rewrite (app_assoc (take (Z.to_nat off) m)), take_app_length.
  rewrite skipn_app, (drop_ge (take _ m ++ d)), drop_drop by lia.
  rewrite <- !app_assoc. simpl. do 3 f_equal.
  rewrite !length_app, length_take. f_equal. lia.
Qed.

Lemma drop_wr m off d k :
  0 <= off -> off + zlen d <= k -> off + zlen d <= zlen m ->
  drop (Z.to_nat k) (wr m off d) = drop (Z.to_nat k) m.
Proof.
  unfold zlen, wr. intros. rewrite !skipn_app, !length_take.
  rewrite (drop_ge (take _ _)), (drop_ge d) by (rewrite ?length_take; lia).
  simpl. rewrite drop_drop. f_equal. lia.
Qed.

Lemma rd_wr_inside m off d o n :
  0 <= off -> off <= zlen m -> 0 <= o -> o + n <= zlen d ->
  rd (wr m off d) (off + o) n = rd d o n.
Proof.
  unfold zlen, rd, wr. intros. rewrite Z2Nat.inj_add, <- drop_drop by lia.
  rewrite drop_app_length' by (rewrite length_take; lia).
  rewrite skipn_app, take_app_le; [done|]. rewrite length_drop. lia.
Qed.

Lemma rd_drop m k off n :
  0 <= k -> 0 <= off -> rd (drop (Z.to_nat k) m) off n = rd m (k + off) n.
Proof. intros. unfold rd. rewrite drop_drop. do 2 f_equal. lia. Qed.

Lemma take_wr m off d :
  0 <= off <= zlen m ->
  take (Z.to_nat (off + zlen d)) (wr m off d) = take (Z.to_nat off) m ++ d.
Proof.
  unfold zlen, wr. intros. rewrite app_assoc. rewrite take_app_le.
  - rewrite take_ge; [done|]. rewrite length_app, length_take. lia.
  - rewrite length_app, length_take. lia.
Qed.

Lemma rd_app_r m d off n :
  zlen m <= off -> 0 <= n -> rd (m ++ d) off n = rd d (off - zlen m) n.
Proof.
  unfold zlen, rd. intros. rewrite skipn_app, drop_ge by lia. simpl. do 2 f_equal. lia.
Qed.

Lemma rd_zrep k off n (x : A) :
  0 <= off -> 0 <= n -> off + n <= k -> rd (zrep k x) off n = zrep n x.
Proof.
  intros. unfold rd, zrep. rewrite drop_replicate, take_replicate. f_equal. lia.
Qed.

Lemma wr_nil m off : wr m off [] = m.
Proof. unfold wr. simpl. rewrite Nat.add_0_r. apply take_drop. Qed.

Lemma wr_full m d : zlen d = zlen m -> wr m 0 d = d.
Proof.
  unfold zlen, wr. intros E. simpl. rewrite (drop_ge m) by lia. apply app_nil_r.
Qed.

Lemma zlen_take m n : 0 <= n -> zlen (take (Z.to_nat n) m) = Z.min n (zlen m).
Proof. unfold zlen. rewrite length_take. lia. Qed.

Lemma zlen_drop m n : 0 <= n <= zlen m -> zlen (drop (Z.to_nat n) m) = zlen m - n.
Proof. unfold zlen. rewrite length_drop. lia. Qed.

Lemma take_take_drop m a b :
  0 <= a -> 0 <= b ->
  take (Z.to_nat a) m ++ take (Z.to_nat b) (drop (Z.to_nat a) m) = take (Z.to_nat (a + b)) m.
Proof. intros. rewrite Z2Nat.inj_add by lia. by rewrite take_take_drop. Qed.

Lemma drop_drop_Z m a b :
  0 <= a -> 0 <= b -> drop (Z.to_nat b) (drop (Z.to_nat a) m) = drop (Z.to_nat (a + b)) m.
Proof. intros. rewrite drop_drop. f_equal. lia. Qed.
End memory.

#[export] Hint Rewrite @zlen_nil @zlen_cons @zlen_app : cmem.
#[export] Hint Resolve zlen_nonneg : cmem.

(** [zl] normalises lengths of blocks and calls [lia]. *)
Ltac zl :=
  repeat match goal with
  | |- context [zlen ?l] => learn_nonneg l
  | H : context [zlen ?l] |- _ => learn_nonneg l
  end;
  autorewrite with cmem in *; lia
with learn_nonneg l :=
  match goal with
  | H : 0 <= zlen l |- _ => fail 1
  | _ => pose proof (zlen_nonneg l)
  end.

(** ** Nullable pointers

    An entry point that takes a pointer checks it for NULL first.  Bodies are
    written over the pointed-to record; [on_ptr] adds the guard, with the value
    the code returns for NULL. *)

Definition on_ptr {S A} (on_null : A) (body : S -> A * S) (p : option S) : A * option S :=
  match p with
  | None => (on_null, None)
  | Some s => let '(a, s') := body s in (a, Some s')
  end.

Definition get_ptr {S A} (on_null : A) (body : S -> A) (p : option S) : A :=
  match p with None => on_null | Some s => body s end.

Lemma on_ptr_some {S A} (n : A) (body : S -> A * S) s :
  on_ptr n body (Some s) = (fst (body s), Some (snd (body s))).
Proof. unfold on_ptr. by destruct (body s). Qed.
