(* ===== verification/Loops.v ===== *)
(** * Counted loops and arrays of samples

    What the components that walk over interleaved buffers share: the [for] loops of the
    C code as combinators with an invariant rule each, and the view of a byte buffer as
    an array of samples of [w] bytes, the [k]-th of which is [cell w m k]. *)
From Stdlib Require Import ZArith Lia Bool.
From stdpp Require Import base numbers list option.
From S2P Require Import Prelude.

Local Open Scope Z_scope.

(** ** Loops *)

(** [for (i = i0; i < i0 + n; i += 1) s = body(i, s);] *)
Fixpoint for_loop {S} (n : nat) (i : Z) (body : Z -> S -> S) (s : S) : S :=
  match n with
  | O => s
  | Datatypes.S n => for_loop n (i + 1) body (body i s)
  end.

(** The same with a body that may have no defined result. *)
Fixpoint for_opt {S} (n : nat) (i : Z) (body : Z -> S -> option S) (s : S) : option S :=
  match n with
  | O => Some s
  | Datatypes.S n =>
      match body i s with
      | Some s => for_opt n (i + 1) body s
      | None => None
      end
  end.

Section loops.
Context {S : Type}.
Implicit Types (P : Z -> S -> Prop) (s : S).

Lemma for_loop_ind P n i body s :
  P i s ->
  (forall k s, i <= k < i + Z.of_nat n -> P k s -> P (k + 1) (body k s)) ->
  P (i + Z.of_nat n) (for_loop n i body s).
Proof.
  revert i s. induction n as [|n IH]; intros i s H0 HS; cbn [for_loop].
  - by rewrite Z.add_0_r.
  - replace (i + Z.of_nat (Datatypes.S n)) with (i + 1 + Z.of_nat n) by lia.
    apply IH; [apply HS; [lia|done]|]. intros k t Hk. apply HS. lia.
Qed.

(** The rule for loops that start at 0. *)
Lemma for_loop_inv P n body s :
  0 <= n -> P 0 s -> (forall k s, 0 <= k < n -> P k s -> P (k + 1) (body k s)) ->
  P n (for_loop (Z.to_nat n) 0 body s).
Proof.
  intros Hn H0 HS. rewrite <- (Z2Nat.id n) at 1 by done.
  rewrite <- (Z.add_0_l (Z.of_nat _)). apply for_loop_ind; [done|].
  intros k t Hk. apply HS. lia.
Qed.

Lemma for_opt_inv P n body s :
  0 <= n -> P 0 s ->
  (forall k s, 0 <= k < n -> P k s -> exists s', body k s = Some s' /\ P (k + 1) s') ->
  exists s', for_opt (Z.to_nat n) 0 body s = Some s' /\ P n s'.
Proof.
  intros Hn H0 HS.
  cut (forall m i s, 0 <= i -> i + Z.of_nat m = n -> P i s ->
         exists s', for_opt m i body s = Some s' /\ P n s').
  { intros H. apply H; [lia|lia|done]. }
  clear s H0. intros m. induction m as [|m IH]; intros i s Hi Hm H; cbn [for_opt].
  - exists s. split; [done|]. by replace n with i by lia.
  - destruct (HS i s ltac:(lia) H) as (s' & -> & H'). apply IH; [lia|lia|done].
Qed.

Lemma for_loop_ext n i (f g : Z -> S -> S) s :
  (forall k s, i <= k < i + Z.of_nat n -> f k s = g k s) ->
  for_loop n i f s = for_loop n i g s.
Proof.
  revert i s. induction n as [|n IH]; intros i s H; cbn [for_loop]; [done|].
  rewrite (H i) by lia. apply IH. intros k t Hk. apply H. lia.
Qed.

Lemma for_loop_snoc n i (f : Z -> S -> S) s :
  for_loop (Datatypes.S n) i f s = f (i + Z.of_nat n) (for_loop n i f s).
Proof.
  revert i s. induction n as [|n IH]; intros i s.
  - cbn [for_loop]. by rewrite Z.add_0_r.
  - change (for_loop (Datatypes.S n) i f s) with (for_loop n (i + 1) f (f i s)).
    change (for_loop (Datatypes.S (Datatypes.S n)) i f s)
      with (for_loop (Datatypes.S n) (i + 1) f (f i s)).
    rewrite IH. f_equal. lia.
Qed.

(** One more round, in [Z]. *)
Lemma for_loop_next k (f : Z -> S -> S) s :
  0 <= k -> for_loop (Z.to_nat (k + 1)) 0 f s = f k (for_loop (Z.to_nat k) 0 f s).
Proof.
  intros Hk. replace (Z.to_nat (k + 1)) with (Datatypes.S (Z.to_nat k)) by lia.
  rewrite for_loop_snoc. f_equal. lia.
Qed.

Lemma for_loop_0 (f : Z -> S -> S) s : for_loop (Z.to_nat 0) 0 f s = s.
Proof. done. Qed.
End loops.

(** ** Arrays of samples *)

Definition cell {A} (w : Z) (m : list A) (k : Z) : list A := rd m (k * w) w.

Section cells.
Context {A : Type} (w : Z) (Hw : 0 < w).
Implicit Types m d : list A.

Lemma zlen_wr_cell m k d n :
  0 <= k < n -> n * w <= zlen m -> zlen d = w -> zlen (wr m (k * w) d) = zlen m.
Proof. intros Hk Hm Hd. apply zlen_wr; nia. Qed.

Lemma zlen_cell m k n : 0 <= k < n -> n * w <= zlen m -> zlen (cell w m k) = w.
Proof. intros Hk Hm. apply zlen_rd; nia. Qed.

Lemma cell_wr_eq m k d n :
  0 <= k < n -> n * w <= zlen m -> zlen d = w -> cell w (wr m (k * w) d) k = d.
Proof.
  intros Hk Hm Hd. unfold cell. transitivity (rd (wr m (k * w) d) (k * w) (zlen d)).
  - by rewrite Hd.
  - apply rd_wr_same; nia.
Qed.

Lemma cell_wr_ne m k d j n :
  0 <= k < n -> n * w <= zlen m -> zlen d = w -> 0 <= j -> j <> k ->
  cell w (wr m (k * w) d) j = cell w m j.
Proof.
  intros Hk Hm Hd Hj Hjk. unfold cell. destruct (decide (j < k)).
  - apply rd_wr_before; nia.
  - apply rd_wr_after; nia.
Qed.

(** Two buffers of [n] samples with the same samples are equal. *)
Lemma cells_eq m d n :
  0 <= n -> zlen m = n * w -> zlen d = n * w ->
  (forall k, 0 <= k < n -> cell w m k = cell w d k) -> m = d.
Proof.
  intros Hn Hm Hd H.
  cut (forall k, 0 <= k <= n -> rd m 0 (k * w) = rd d 0 (k * w)).
  { intros E. rewrite <- (rd_all m), <- (rd_all d), Hm, Hd. apply E. lia. }
  intros k Hk. rewrite <- (Z2Nat.id k) in * by lia. revert Hk.
  generalize (Z.to_nat k). clear k. intros j. induction j as [|j IH]; intros Hj.
  - by rewrite !rd_0.
  - replace (Z.of_nat (S j) * w) with (Z.of_nat j * w + w) by nia.
    rewrite !rd_split by nia. rewrite IH by lia. f_equal.
    apply (H (Z.of_nat j)). lia.
Qed.

Lemma cell_drop m k j :
  0 <= k -> 0 <= j -> cell w (drop (Z.to_nat (k * w)) m) j = cell w m (k + j).
Proof. intros. unfold cell. rewrite rd_drop by nia. f_equal. nia. Qed.
End cells.

(** Division of an interleaved index into frame and channel. *)
Lemma interleaved_inj ch f c f' c' :
  0 <= c < ch -> 0 <= c' < ch -> f * ch + c = f' * ch + c' -> f = f' /\ c = c'.
Proof. intros. assert (f = f') by nia. subst. lia. Qed.

(** ** Loops that update a row of samples

    [updated w b n g out r]: [r] is [out] with each of the [n] samples from [b] replaced by
    [g], which is given the index in the row and the old sample. *)
Definition updated {A} (w b n : Z) (g : Z -> list A -> list A) (out r : list A) : Prop :=
  zlen r = zlen out
  /\ (forall k, 0 <= k < n -> cell w r (b + k) = g k (cell w out (b + k)))
  /\ (forall j, 0 <= j -> j < b \/ b + n <= j -> cell w r j = cell w out j).

Section rows.
Context {A : Type} (w : Z) (Hw : 0 < w).
Implicit Types (out r : list A) (g : Z -> list A -> list A).

Lemma update_row b n g out N :
  0 <= b -> 0 <= n -> b + n <= N -> N * w <= zlen out ->
  (forall k x, 0 <= k < n -> zlen x = w -> zlen (g k x) = w) ->
  updated w b n g out
    (for_loop (Z.to_nat n) 0 (fun k m => wr m ((b + k) * w) (g k (cell w m (b + k)))) out).
Proof.
  intros Hb Hn HN Hout Hg.
  apply (for_loop_inv (fun k m => updated w b k g out m)); [done| |].
  - split; [done|split]; [lia|done].
  - intros k m Hk (Hl & Hin & Hother).
    assert (Hc : zlen (cell w m (b + k)) = w) by (apply zlen_cell with (n := N); lia).
    assert (Hlen : zlen (g k (cell w m (b + k))) = w) by (apply Hg; [lia|done]).
    split; [|split].
    + rewrite <- Hl. apply (zlen_wr_cell w Hw) with (n := N); lia.
    + intros j Hj. destruct (decide (j = k)) as [->|Hjk].
      * rewrite (cell_wr_eq w Hw) with (n := N) by (try done; lia). f_equal. apply Hother; lia.
      * rewrite (cell_wr_ne w Hw) with (n := N) by (try done; lia). apply Hin. lia.
    + intros j Hj Hr. rewrite (cell_wr_ne w Hw) with (n := N) by (try done; lia).
      apply Hother; lia.
Qed.

(** Rows one after another: the rows of the frames of an interleaved buffer. *)
Lemma update_frames F ch (row : Z -> list A -> list A) (g : Z -> Z -> list A -> list A) out :
  0 <= F -> 0 <= ch -> F * ch * w <= zlen out ->
  (forall f m, 0 <= f < F -> zlen m = zlen out -> updated w (f * ch) ch (g f) m (row f m)) ->
  let r := for_loop (Z.to_nat F) 0 row out in
  zlen r = zlen out
  /\ (forall f c, 0 <= f < F -> 0 <= c < ch ->
        cell w r (f * ch + c) = g f c (cell w out (f * ch + c)))
  /\ (forall j, F * ch <= j -> cell w r j = cell w out j).
Proof.
  intros HF Hch Hout Hrow.
  apply (for_loop_inv (fun k m => zlen m = zlen out
    /\ (forall f c, 0 <= f < k -> 0 <= c < ch ->
          cell w m (f * ch + c) = g f c (cell w out (f * ch + c)))
    /\ (forall j, k * ch <= j -> cell w m j = cell w out j))); [done| |].
  - split; [done|split]; [lia|done].
  - intros k m Hk (Hl & Hin & Hother).
    destruct (Hrow k m Hk Hl) as (Hl' & Hin' & Hother').
    split; [lia|split].
    + intros f c Hf Hc. destruct (decide (f = k)) as [->|Hfk].
      * rewrite Hin' by done. f_equal. apply Hother. lia.
      * assert (f * ch + c < k * ch) by nia.
        rewrite Hother' by (try lia; nia). apply Hin; lia.
    + intros j Hj. rewrite Hother' by nia. apply Hother. nia.
Qed.

(** A row that is updated once per round of a loop. *)
Lemma update_rounds R b n (row : Z -> list A -> list A) (g : Z -> Z -> list A -> list A) out :
  0 <= R ->
  (forall i m, 0 <= i < R -> zlen m = zlen out -> updated w b n (g i) m (row i m)) ->
  updated w b n (fun k x => for_loop (Z.to_nat R) 0 (fun i x => g i k x) x) out
    (for_loop (Z.to_nat R) 0 row out).
Proof.
  intros HR Hrow.
  apply (for_loop_inv (fun i m => updated w b n
    (fun k x => for_loop (Z.to_nat i) 0 (fun i x => g i k x) x) out m)); [done|split; done|].
  intros i m Hi (Hl & Hin & Hother). destruct (Hrow i m Hi Hl) as (Hl' & Hin' & Hother').
  split; [lia|split].
  - intros k Hk. rewrite Hin' by done. rewrite Hin by done.
    rewrite (for_loop_next i) by lia. done.
  - intros j Hj Hr. rewrite Hother' by done. by apply Hother.
Qed.

Lemma updated_ext b n g g' out r :
  (forall k x, 0 <= k < n -> g k x = g' k x) -> updated w b n g out r -> updated w b n g' out r.
Proof.
  intros E (Hl & Hin & Hother). split; [done|split; [|done]].
  intros k Hk. rewrite Hin by done. by apply E.
Qed.
End rows.

Lemma cell_1_nth (m : list Z) k d : 0 <= k < zlen m -> cell 1 m k = [nth (Z.to_nat k) m d].
Proof.
  intros Hk. unfold cell, rd, zlen in *. rewrite Z.mul_1_r.
  destruct (drop (Z.to_nat k) m) as [|x l] eqn:E.
  - apply (f_equal length) in E. rewrite length_drop in E. simpl in E. lia.
  - simpl. rewrite take_0. f_equal. symmetry. rewrite nth_lookup.
    pose proof (lookup_drop m (Z.to_nat k) 0) as L. rewrite E, Nat.add_0_r in L.
    simpl in L. by rewrite <- L.
Qed.

(** A loop that has a result ran all its rounds, in states where the invariant holds. *)
Lemma for_opt_rounds {S} (I : S -> Prop) n i (body : Z -> S -> option S) s s' :
  I s -> (forall k a b, I a -> body k a = Some b -> I b) ->
  for_opt n i body s = Some s' ->
  I s' /\ forall k, i <= k < i + Z.of_nat n -> exists a b, I a /\ body k a = Some b.
Proof.
  intros H0 HI. revert i s H0. induction n as [|n IH]; intros i s H0 H; cbn [for_opt] in H.
  - injection H as <-. split; [done|lia].
  - destruct (body i s) as [t|] eqn:E; [|done].
    destruct (IH (i + 1) t (HI _ _ _ H0 E) H) as (H' & Hk). split; [done|].
    intros k Hr. destruct (decide (k = i)) as [->|]; [by exists s, t|]. apply Hk. lia.
Qed.
