(* ===== verification/MaTypes.v ===== *)
(** * Result codes, sample formats and integer helpers of [miniaudio.h]

    [ma_result] is the C enumeration by value; [ma_format] and [ma_dither_mode]
    keep the source's constructors.  The helpers are the small arithmetic
    routines shared by the ring buffers, the converters and the resampler. *)
From Stdlib Require Import ZArith Lia.
From stdpp Require Import base numbers list.
From S2P Require Import Prelude.

Local Open Scope Z_scope.

(** ** Result codes *)

Definition ma_result := Z.
Definition MA_SUCCESS : ma_result := 0.
Definition MA_ERROR : ma_result := -1.
Definition MA_INVALID_ARGS : ma_result := -2.
Definition MA_INVALID_OPERATION : ma_result := -3.
Definition MA_OUT_OF_MEMORY : ma_result := -4.
Definition MA_TOO_BIG : ma_result := -11.
Definition MA_NOT_IMPLEMENTED : ma_result := -29.
Definition MA_NO_DEVICE : ma_result := -204.

(** ** Formats *)

Inductive ma_format :=
| ma_format_unknown
| ma_format_u8
| ma_format_s16
| ma_format_s24
| ma_format_s32
| ma_format_f32.

#[export] Instance ma_format_eq_dec : EqDecision ma_format.
Proof. solve_decision. Defined.

Inductive ma_dither_mode :=
| ma_dither_mode_none
| ma_dither_mode_rectangle
| ma_dither_mode_triangle.

#[export] Instance ma_dither_mode_eq_dec : EqDecision ma_dither_mode.
Proof. solve_decision. Defined.

(** The table [sizes] of [ma_get_bytes_per_sample]. *)
Definition ma_get_bytes_per_sample (format : ma_format) : Z :=
  match format with
  | ma_format_unknown => 0
  | ma_format_u8 => 1
  | ma_format_s16 => 2
  | ma_format_s24 => 3
  | ma_format_s32 => 4
  | ma_format_f32 => 4
  end.

Definition ma_get_bytes_per_frame (format : ma_format) (channels : Z) : Z :=
  u32 (ma_get_bytes_per_sample format * channels).

(** ** Limits *)

Definition MA_SIMD_ALIGNMENT : Z := 32.
Definition MA_MIN_CHANNELS : Z := 1.
Definition MA_MAX_CHANNELS : Z := 254.
Definition MA_MAX_FILTER_ORDER : Z := 8.

(** ** Integer helpers *)

Definition ma_max (x y : Z) : Z := if x >? y then x else y.
Definition ma_min (x y : Z) : Z := if x <? y then x else y.
Definition ma_clamp (x lo hi : Z) : Z := ma_max lo (ma_min x hi).

(** [ma_align x a] on a [size_t]; the mask is the complement of [a - 1]. *)
Definition ma_align (x a : Z) : Z := Z.land (u64 (x + (a - 1))) (Z.lnot (a - 1)).

Lemma ma_clamp_spec x lo hi :
  lo <= hi -> ma_clamp x lo hi = Z.max lo (Z.min x hi).
Proof.
  unfold ma_clamp, ma_max, ma_min. intros.
  destruct (Z.ltb_spec x hi), (Z.gtb_spec lo x), (Z.gtb_spec lo hi); lia.
Qed.

(** Rounding up to a power of two [2 ^ k]. *)
Lemma land_lnot_pow2 x k :
  0 <= k -> 0 <= x -> Z.land x (Z.lnot (2 ^ k - 1)) = x / 2 ^ k * 2 ^ k.
Proof.
  intros Hk Hx.
  replace (2 ^ k - 1) with (Z.ones k) by (rewrite Z.ones_equiv; lia).
  change (Z.land x (Z.lnot (Z.ones k))) with (Z.ldiff x (Z.ones k)) || rewrite <- Z.ldiff_land.
  by rewrite Z.ldiff_ones_r, Z.shiftl_mul_pow2, Z.shiftr_div_pow2 by lia.
Qed.

Lemma ma_align_spec x k :
  0 <= k <= 32 -> 0 <= x < 2 ^ 32 ->
  x <= ma_align x (2 ^ k) < x + 2 ^ k /\ (2 ^ k | ma_align x (2 ^ k)).
Proof.
  intros Hk Hx. unfold ma_align.
  assert (0 < 2 ^ k <= 2 ^ 32) by (split; [lia|apply Z.pow_le_mono_r; lia]).
  assert (x + (2 ^ k - 1) < 2 ^ 64) by (change (2 ^ 64) with (2 ^ 32 * 2 ^ 32); nia).
  unfold u64. rewrite wrapu_id by (unfold in_u; lia).
  rewrite land_lnot_pow2 by lia. split; [|by eexists].
  pose proof (Z.div_mod (x + (2 ^ k - 1)) (2 ^ k) ltac:(lia)).
  pose proof (Z.mod_pos_bound (x + (2 ^ k - 1)) (2 ^ k) ltac:(lia)). lia.
Qed.
