(* ===== verification/Ring.v ===== *)
(** * The lock-free byte ring [ma_rb] (miniaudio.h, "Ring Buffer")

    One record for the C structure and one definition per function.  The read
    and write cursors are 32-bit words whose top bit is a loop flag that flips
    each time the cursor wraps; the component's abstract state is the list of
    bytes between the two cursors ([rb_content]).  The operations are sequential
    here; [RingSpsc] runs the producer's and the consumer's atomic accesses
    interleaved. *)
From Stdlib Require Import ZArith Lia Bool.
From stdpp Require Import base numbers list.
From S2P Require Import Prelude MaTypes.

Local Open Scope Z_scope.

(** ** State *)

(** Which members of an [ma_allocation_callbacks] are set. *)
Record ma_allocation_callbacks := mk_alloc {
  cb_pUserData : bool;
  cb_onMalloc : bool;
  cb_onRealloc : bool;
  cb_onFree : bool }.

Record ma_rb := mk_ma_rb {
  pBuffer : list Z;
  subbufferSizeInBytes : Z;
  subbufferCount : Z;
  subbufferStrideInBytes : Z;
  encodedReadOffset : Z;
  encodedWriteOffset : Z;
  ownsBuffer : bool;
  clearOnWriteAcquire : bool }.

(** [MA_ZERO_OBJECT(pRB)] *)
Definition ma_rb_zero : ma_rb := mk_ma_rb [] 0 0 0 0 0 false false.

Definition with_read (rb : ma_rb) (e : Z) : ma_rb :=
  mk_ma_rb (pBuffer rb) (subbufferSizeInBytes rb) (subbufferCount rb)
    (subbufferStrideInBytes rb) e (encodedWriteOffset rb) (ownsBuffer rb)
    (clearOnWriteAcquire rb).

Definition with_write (rb : ma_rb) (e : Z) : ma_rb :=
  mk_ma_rb (pBuffer rb) (subbufferSizeInBytes rb) (subbufferCount rb)
    (subbufferStrideInBytes rb) (encodedReadOffset rb) e (ownsBuffer rb)
    (clearOnWriteAcquire rb).

(** The bytes a client stores through the pointer it acquired. *)
Definition with_buffer (rb : ma_rb) (m : list Z) : ma_rb :=
  mk_ma_rb m (subbufferSizeInBytes rb) (subbufferCount rb)
    (subbufferStrideInBytes rb) (encodedReadOffset rb) (encodedWriteOffset rb)
    (ownsBuffer rb) (clearOnWriteAcquire rb).

(** ** Cursor encoding *)

Definition ma_rb__extract_offset_in_bytes (encodedOffset : Z) : Z :=
  Z.land encodedOffset 0x7FFFFFFF.

Definition ma_rb__extract_offset_loop_flag (encodedOffset : Z) : Z :=
  Z.land encodedOffset 0x80000000.

Definition ma_rb__construct_offset (offsetInBytes offsetLoopFlag : Z) : Z :=
  Z.lor offsetLoopFlag offsetInBytes.

Definition ma_rb__deconstruct_offset (encodedOffset : Z) : Z * Z :=
  (ma_rb__extract_offset_in_bytes encodedOffset,
   ma_rb__extract_offset_loop_flag encodedOffset).

(** Pointers into [pBuffer] are offsets. *)
Definition ma_rb__get_read_ptr (rb : ma_rb) : Z :=
  ma_rb__extract_offset_in_bytes (encodedReadOffset rb).

Definition ma_rb__get_write_ptr (rb : ma_rb) : Z :=
  ma_rb__extract_offset_in_bytes (encodedWriteOffset rb).

(** ** Construction *)

(** [ma_allocation_callbacks_init_copy], keeping which members are set. *)
Definition ma_allocation_callbacks_init_copy
    (pSrc : option ma_allocation_callbacks) : ma_result * ma_allocation_callbacks :=
  let default := mk_alloc false true true true in
  let zero := mk_alloc false false false false in
  match pSrc with
  | None => (MA_SUCCESS, default)
  | Some s =>
      if negb (cb_pUserData s) && negb (cb_onFree s) && negb (cb_onMalloc s)
         && negb (cb_onRealloc s)
      then (MA_SUCCESS, default)
      else if negb (cb_onFree s) || (negb (cb_onMalloc s) && negb (cb_onRealloc s))
      then (MA_INVALID_ARGS, zero)
      else (MA_SUCCESS, s)
  end.

(** [ma_aligned_malloc]: whether it returns a block.  [malloc n] says whether
    the allocator can provide [n] bytes. *)
Definition ma_aligned_malloc (malloc : Z -> bool) (sz alignment : Z) : bool :=
  if alignment =? 0 then false
  else malloc (u64 (sz + (alignment - 1 + 8))).

Definition maxSubBufferSize : Z := 0x7FFFFFFF - (MA_SIMD_ALIGNMENT - 1).

Definition ma_rb_init_ex (malloc : Z -> bool)
    (subbufferSize subbufferCnt subbufferStride : Z)
    (pOptionalPreallocatedBuffer : option (list Z))
    (pAllocationCallbacks : option ma_allocation_callbacks)
    (pRB : ma_rb) : ma_result * ma_rb :=
  if (subbufferSize =? 0) || (subbufferCnt =? 0) then (MA_INVALID_ARGS, pRB)
  else if subbufferSize >? maxSubBufferSize then (MA_INVALID_ARGS, pRB)
  else
    let '(result, _) := ma_allocation_callbacks_init_copy pAllocationCallbacks in
    if negb (result =? MA_SUCCESS) then (result, ma_rb_zero)
    else
      match pOptionalPreallocatedBuffer with
      | Some m =>
          (MA_SUCCESS,
           mk_ma_rb m (u32 subbufferSize) (u32 subbufferCnt) (u32 subbufferStride)
             0 0 false false)
      | None =>
          let stride := u32 (ma_align (u32 subbufferSize) MA_SIMD_ALIGNMENT) in
          let bufferSizeInBytes := u64 (u32 subbufferCnt * stride) in
          if ma_aligned_malloc malloc bufferSizeInBytes MA_SIMD_ALIGNMENT
          then (MA_SUCCESS,
                mk_ma_rb (zrep bufferSizeInBytes 0) (u32 subbufferSize)
                  (u32 subbufferCnt) stride 0 0 true false)
          else (MA_OUT_OF_MEMORY,
                mk_ma_rb [] (u32 subbufferSize) (u32 subbufferCnt) stride
                  0 0 false false)
      end.

Definition ma_rb_init (malloc : Z -> bool) (bufferSizeInBytes : Z)
    (pOptionalPreallocatedBuffer : option (list Z))
    (pAllocationCallbacks : option ma_allocation_callbacks)
    (pRB : ma_rb) : ma_result * ma_rb :=
  ma_rb_init_ex malloc bufferSizeInBytes 1 0 pOptionalPreallocatedBuffer
    pAllocationCallbacks pRB.

(** What [ma_rb_uninit] releases: the buffer, only when the ring owns it. *)
Definition ma_rb_uninit (pRB : option ma_rb) : option (list Z) :=
  match pRB with
  | None => None
  | Some rb => if ownsBuffer rb then Some (pBuffer rb) else None
  end.

Definition ma_rb_reset (rb : ma_rb) : ma_rb := with_write (with_read rb 0) 0.

(** ** Reading and writing *)

(** Returns the result, [*pSizeInBytes] and [*ppBufferOut]. *)
Definition ma_rb_acquire_read (rb : ma_rb) (sizeInBytes : Z) : ma_result * Z * Z :=
  let '(writeOffsetInBytes, writeOffsetLoopFlag) :=
    ma_rb__deconstruct_offset (encodedWriteOffset rb) in
  let '(readOffsetInBytes, readOffsetLoopFlag) :=
    ma_rb__deconstruct_offset (encodedReadOffset rb) in
  let bytesAvailable :=
    if readOffsetLoopFlag =? writeOffsetLoopFlag
    then u32 (writeOffsetInBytes - readOffsetInBytes)
    else u32 (subbufferSizeInBytes rb - readOffsetInBytes) in
  let bytesRequested :=
    if sizeInBytes >? bytesAvailable then bytesAvailable else sizeInBytes in
  (MA_SUCCESS, bytesRequested, ma_rb__get_read_ptr rb).

Definition ma_rb_commit_read (rb : ma_rb) (sizeInBytes : Z) : ma_result * ma_rb :=
  let '(readOffsetInBytes, readOffsetLoopFlag) :=
    ma_rb__deconstruct_offset (encodedReadOffset rb) in
  let newReadOffsetInBytes := u32 (readOffsetInBytes + sizeInBytes) in
  if newReadOffsetInBytes >? subbufferSizeInBytes rb then (MA_INVALID_ARGS, rb)
  else
    let '(newOff, newFlag) :=
      if newReadOffsetInBytes =? subbufferSizeInBytes rb
      then (0, Z.lxor readOffsetLoopFlag 0x80000000)
      else (newReadOffsetInBytes, readOffsetLoopFlag) in
    (MA_SUCCESS, with_read rb (ma_rb__construct_offset newOff newFlag)).

(** Returns the result, [*pSizeInBytes], [*ppBufferOut] and the ring, whose
    acquired block is cleared when [clearOnWriteAcquire] is set. *)
Definition ma_rb_acquire_write (rb : ma_rb) (sizeInBytes : Z)
    : ma_result * Z * Z * ma_rb :=
  let '(readOffsetInBytes, readOffsetLoopFlag) :=
    ma_rb__deconstruct_offset (encodedReadOffset rb) in
  let '(writeOffsetInBytes, writeOffsetLoopFlag) :=
    ma_rb__deconstruct_offset (encodedWriteOffset rb) in
  let bytesAvailable :=
    if writeOffsetLoopFlag =? readOffsetLoopFlag
    then u32 (subbufferSizeInBytes rb - writeOffsetInBytes)
    else u32 (readOffsetInBytes - writeOffsetInBytes) in
  let bytesRequested :=
    if sizeInBytes >? bytesAvailable then bytesAvailable else sizeInBytes in
  let p := ma_rb__get_write_ptr rb in
  let rb' :=
    if clearOnWriteAcquire rb
    then with_buffer rb (wr (pBuffer rb) p (zrep bytesRequested 0))
    else rb in
  (MA_SUCCESS, bytesRequested, p, rb').

Definition ma_rb_commit_write (rb : ma_rb) (sizeInBytes : Z) : ma_result * ma_rb :=
  let '(writeOffsetInBytes, writeOffsetLoopFlag) :=
    ma_rb__deconstruct_offset (encodedWriteOffset rb) in
  let newWriteOffsetInBytes := u32 (writeOffsetInBytes + sizeInBytes) in
  if newWriteOffsetInBytes >? subbufferSizeInBytes rb then (MA_INVALID_ARGS, rb)
  else
    let '(newOff, newFlag) :=
      if newWriteOffsetInBytes =? subbufferSizeInBytes rb
      then (0, Z.lxor writeOffsetLoopFlag 0x80000000)
      else (newWriteOffsetInBytes, writeOffsetLoopFlag) in
    (MA_SUCCESS, with_write rb (ma_rb__construct_offset newOff newFlag)).

(** ** Seeking.  [offset] is a [size_t]: the sums are 64-bit before the casts. *)

Definition ma_rb_seek_read (rb : ma_rb) (offset : Z) : ma_result * ma_rb :=
  if offset >? subbufferSizeInBytes rb then (MA_INVALID_ARGS, rb)
  else
    let '(r, rflag) := ma_rb__deconstruct_offset (encodedReadOffset rb) in
    let '(w, wflag) := ma_rb__deconstruct_offset (encodedWriteOffset rb) in
    let '(newOff, newFlag) :=
      if rflag =? wflag then
        if u64 (r + offset) >? w then (w, rflag) else (u32 (r + offset), rflag)
      else if u64 (r + offset) >=? subbufferSizeInBytes rb
      then (u32 (u32 (r + offset) - subbufferSizeInBytes rb),
            Z.lxor rflag 0x80000000)
      else (u32 (r + offset), rflag) in
    (MA_SUCCESS, with_read rb (ma_rb__construct_offset newOff newFlag)).

Definition ma_rb_seek_write (rb : ma_rb) (offset : Z) : ma_result * ma_rb :=
  let '(r, rflag) := ma_rb__deconstruct_offset (encodedReadOffset rb) in
  let '(w, wflag) := ma_rb__deconstruct_offset (encodedWriteOffset rb) in
  let '(newOff, newFlag) :=
    if rflag =? wflag then
      if u64 (w + offset) >=? subbufferSizeInBytes rb
      then (u32 (u32 (w + offset) - subbufferSizeInBytes rb),
            Z.lxor wflag 0x80000000)
      else (u32 (w + offset), wflag)
    else if u64 (w + offset) >? r then (r, wflag) else (u32 (w + offset), wflag) in
  (MA_SUCCESS, with_write rb (ma_rb__construct_offset newOff newFlag)).

(** ** Queries *)

Definition ma_rb_pointer_distance (rb : ma_rb) : Z :=
  let '(r, rflag) := ma_rb__deconstruct_offset (encodedReadOffset rb) in
  let '(w, wflag) := ma_rb__deconstruct_offset (encodedWriteOffset rb) in
  if rflag =? wflag then s32 (u32 (w - r))
  else s32 (u32 (w + u32 (subbufferSizeInBytes rb - r))).

Definition ma_rb_available_read (rb : ma_rb) : Z :=
  let dist := ma_rb_pointer_distance rb in
  if dist <? 0 then 0 else u32 dist.

Definition ma_rb_get_subbuffer_size (rb : ma_rb) : Z := subbufferSizeInBytes rb.

Definition ma_rb_available_write (rb : ma_rb) : Z :=
  u32 (ma_rb_get_subbuffer_size rb - ma_rb_pointer_distance rb).

Definition ma_rb_get_subbuffer_stride (rb : ma_rb) : Z :=
  if subbufferStrideInBytes rb =? 0 then subbufferSizeInBytes rb
  else subbufferStrideInBytes rb.

Definition ma_rb_get_subbuffer_offset (rb : ma_rb) (subbufferIndex : Z) : Z :=
  u64 (subbufferIndex * ma_rb_get_subbuffer_stride rb).

(** [pBuffer] is an offset in the caller's address space. *)
Definition ma_rb_get_subbuffer_ptr (rb : ma_rb) (subbufferIndex p : Z) : Z :=
  u64 (p + ma_rb_get_subbuffer_offset rb subbufferIndex).

(** ** Entry points with their NULL checks *)

Definition ma_rb_init_ex_ptr malloc size count stride pre callbacks :
    option ma_rb -> ma_result * option ma_rb :=
  on_ptr MA_INVALID_ARGS (ma_rb_init_ex malloc size count stride pre callbacks).

Definition ma_rb_reset_ptr (p : option ma_rb) : option ma_rb :=
  snd (on_ptr tt (fun rb => (tt, ma_rb_reset rb)) p).

(** [pSizeInBytes] and [ppBufferOut] may be NULL as well. *)
Definition ma_rb_acquire_read_ptr (p : option ma_rb) (pSizeInBytes : option Z)
    (ppBufferOut_set : bool) : ma_result * option Z * option Z :=
  match p, pSizeInBytes, ppBufferOut_set with
  | Some rb, Some n, true =>
      let '(res, n', off) := ma_rb_acquire_read rb n in (res, Some n', Some off)
  | _, _, _ => (MA_INVALID_ARGS, pSizeInBytes, None)
  end.

Definition ma_rb_acquire_write_ptr (p : option ma_rb) (pSizeInBytes : option Z)
    (ppBufferOut_set : bool) : ma_result * option Z * option Z * option ma_rb :=
  match p, pSizeInBytes, ppBufferOut_set with
  | Some rb, Some n, true =>
      let '(res, n', off, rb') := ma_rb_acquire_write rb n in
      (res, Some n', Some off, Some rb')
  | _, _, _ => (MA_INVALID_ARGS, pSizeInBytes, None, p)
  end.

Definition ma_rb_commit_read_ptr (p : option ma_rb) (n : Z) :=
  on_ptr MA_INVALID_ARGS (fun rb => ma_rb_commit_read rb n) p.
Definition ma_rb_commit_write_ptr (p : option ma_rb) (n : Z) :=
  on_ptr MA_INVALID_ARGS (fun rb => ma_rb_commit_write rb n) p.
Definition ma_rb_seek_read_ptr (p : option ma_rb) (n : Z) :=
  on_ptr MA_INVALID_ARGS (fun rb => ma_rb_seek_read rb n) p.
Definition ma_rb_seek_write_ptr (p : option ma_rb) (n : Z) :=
  on_ptr MA_INVALID_ARGS (fun rb => ma_rb_seek_write rb n) p.
Definition ma_rb_pointer_distance_ptr := get_ptr 0 ma_rb_pointer_distance.
Definition ma_rb_available_read_ptr := get_ptr 0 ma_rb_available_read.
Definition ma_rb_available_write_ptr := get_ptr 0 ma_rb_available_write.

(** ** Abstract state *)

Definition r_off (rb : ma_rb) : Z := ma_rb__extract_offset_in_bytes (encodedReadOffset rb).
Definition w_off (rb : ma_rb) : Z := ma_rb__extract_offset_in_bytes (encodedWriteOffset rb).
Definition r_flag (rb : ma_rb) : Z := ma_rb__extract_offset_loop_flag (encodedReadOffset rb).
Definition w_flag (rb : ma_rb) : Z := ma_rb__extract_offset_loop_flag (encodedWriteOffset rb).

(** Both cursors are on the same lap of the buffer. *)
Definition same_lap (rb : ma_rb) : bool := r_flag rb =? w_flag rb.

(** The bytes written and not yet read, oldest first. *)
Definition rb_content (rb : ma_rb) : list Z :=
  if same_lap rb then rd (pBuffer rb) (r_off rb) (w_off rb - r_off rb)
  else rd (pBuffer rb) (r_off rb) (subbufferSizeInBytes rb - r_off rb)
       ++ rd (pBuffer rb) 0 (w_off rb).

(** The contiguous blocks the two sides can acquire. *)
Definition rb_contig_read (rb : ma_rb) : Z :=
  if same_lap rb then w_off rb - r_off rb else subbufferSizeInBytes rb - r_off rb.

Definition rb_contig_write (rb : ma_rb) : Z :=
  if same_lap rb then subbufferSizeInBytes rb - w_off rb else r_off rb - w_off rb.

Record rb_wf (rb : ma_rb) : Prop := {
  wf_size : 0 < subbufferSizeInBytes rb <= maxSubBufferSize;
  wf_buf : subbufferSizeInBytes rb <= zlen (pBuffer rb);
  wf_renc : in_u 32 (encodedReadOffset rb);
  wf_wenc : in_u 32 (encodedWriteOffset rb);
  wf_r : r_off rb < subbufferSizeInBytes rb;
  wf_w : w_off rb < subbufferSizeInBytes rb;
  wf_lap : if same_lap rb then r_off rb <= w_off rb else w_off rb <= r_off rb }.

(** ** Lemmas on the encoding *)

Lemma extract_off_mod e : ma_rb__extract_offset_in_bytes e = e mod 2 ^ 31.
Proof. unfold ma_rb__extract_offset_in_bytes. by rewrite <- Z.land_ones. Qed.

Lemma land_pow2 e k : 0 <= k -> Z.land e (2 ^ k) = if Z.testbit e k then 2 ^ k else 0.
Proof.
  intros Hk. apply Z.bits_inj'. intros n Hn.
  rewrite Z.land_spec, Z.pow2_bits_eqb by lia.
  destruct (Z.testbit e k) eqn:E; [|rewrite Z.bits_0];
    rewrite ?Z.pow2_bits_eqb by lia; destruct (Z.eqb_spec k n); subst;
    rewrite ?E, ?andb_false_r; done.
Qed.

Lemma extract_flag_spec e :
  in_u 32 e ->
  ma_rb__extract_offset_loop_flag e = if 2 ^ 31 <=? e then 2 ^ 31 else 0.
Proof.
  intros He. unfold ma_rb__extract_offset_loop_flag.
  change 0x80000000 with (2 ^ 31). rewrite land_pow2 by lia.
  replace (Z.testbit e 31) with (2 ^ 31 <=? e); [done|].
  apply eq_bool_prop_intro.
  rewrite !Is_true_true, Z.leb_le, Z.testbit_true by lia.
  unfold in_u in He. change (2 ^ 31) with 2147483648 in *.
  change (2 ^ 32) with 4294967296 in *. split; intros; Z.div_mod_to_equations; lia.
Qed.

Definition is_flag (f : Z) : Prop := f = 0 \/ f = 2 ^ 31.

Lemma flag_is_flag e : in_u 32 e -> is_flag (ma_rb__extract_offset_loop_flag e).
Proof. intros He. rewrite extract_flag_spec by done. unfold is_flag. case_match; lia. Qed.

Lemma construct_spec o f :
  0 <= o < 2 ^ 31 -> is_flag f -> ma_rb__construct_offset o f = o + f.
Proof.
  intros Ho [-> | ->]; unfold ma_rb__construct_offset; [rewrite Z.lor_0_l; lia|].
  pose proof (Z.add_lor_land (2 ^ 31) o) as E.
  assert (Z.land (2 ^ 31) o = 0); [|lia].
  rewrite Z.land_comm, land_pow2 by lia.
  replace (Z.testbit o 31) with false; [done|].
  symmetry. apply Z.testbit_false; [lia|]. by rewrite Z.div_small.
Qed.

Lemma toggle_flag f : is_flag f -> Z.lxor f 0x80000000 = 2 ^ 31 - f.
Proof. by intros [-> | ->]. Qed.

Section decode.
Context (o f : Z) (Ho : 0 <= o < 2 ^ 31) (Hf : is_flag f).

Lemma construct_range : in_u 32 (ma_rb__construct_offset o f).
Proof. rewrite construct_spec by done. destruct Hf; unfold in_u; lia. Qed.

Lemma extract_off_construct :
  ma_rb__extract_offset_in_bytes (ma_rb__construct_offset o f) = o.
Proof.
  rewrite extract_off_mod, construct_spec by done.
  destruct Hf as [-> | ->]; [rewrite Z.add_0_r; apply Z.mod_small; lia|].
  replace (o + 2 ^ 31) with (o + 1 * 2 ^ 31) by lia.
  rewrite Z_mod_plus_full. apply Z.mod_small; lia.
Qed.

Lemma extract_flag_construct :
  ma_rb__extract_offset_loop_flag (ma_rb__construct_offset o f) = f.
Proof.
  rewrite extract_flag_spec by apply construct_range.
  rewrite construct_spec by done.
  destruct Hf as [-> | ->]; case_match; lia.
Qed.
End decode.

(** ** Well-formedness and content *)

Lemma extract_off_range e : 0 <= ma_rb__extract_offset_in_bytes e < 2 ^ 31.
Proof. rewrite extract_off_mod. apply Z.mod_pos_bound. lia. Qed.

Lemma wf_ranges rb :
  rb_wf rb ->
  0 <= r_off rb < subbufferSizeInBytes rb /\ 0 <= w_off rb < subbufferSizeInBytes rb
  /\ 0 < subbufferSizeInBytes rb < 2 ^ 31 - 31
  /\ is_flag (r_flag rb) /\ is_flag (w_flag rb).
Proof.
  intros [Hs Hb Hr Hw Hr' Hw' _].
  pose proof (extract_off_range (encodedReadOffset rb)).
  pose proof (extract_off_range (encodedWriteOffset rb)).
  unfold r_off, w_off, r_flag, w_flag, maxSubBufferSize, MA_SIMD_ALIGNMENT in *.
  split; [lia|]. split; [lia|]. split; [lia|].
  split; by apply flag_is_flag.
Qed.

Section cursor_updates.
Context (rb : ma_rb) (o f : Z) (Ho : 0 <= o < 2 ^ 31) (Hf : is_flag f).

Lemma r_off_with_read : r_off (with_read rb (ma_rb__construct_offset o f)) = o.
Proof. by apply extract_off_construct. Qed.
Lemma r_flag_with_read : r_flag (with_read rb (ma_rb__construct_offset o f)) = f.
Proof. by apply extract_flag_construct. Qed.
Lemma w_off_with_write : w_off (with_write rb (ma_rb__construct_offset o f)) = o.
Proof. by apply extract_off_construct. Qed.
Lemma w_flag_with_write : w_flag (with_write rb (ma_rb__construct_offset o f)) = f.
Proof. by apply extract_flag_construct. Qed.
End cursor_updates.

#[export] Hint Rewrite r_off_with_read r_flag_with_read w_off_with_write
  w_flag_with_write using (assumption || lia) : ring.

(** Moving one cursor re-establishes well-formedness when the new position is
    in the buffer and in order with the other cursor. *)
Lemma rb_wf_with_read rb o f :
  rb_wf rb -> 0 <= o < subbufferSizeInBytes rb -> is_flag f ->
  (if f =? w_flag rb then o <= w_off rb else w_off rb <= o) ->
  rb_wf (with_read rb (ma_rb__construct_offset o f)).
Proof.
  intros Hwf Ho Hf Hl. pose proof (wf_ranges _ Hwf) as (? & ? & ? & ? & ?).
  destruct Hwf. assert (0 <= o < 2 ^ 31) by lia.
  split; try done; [by apply construct_range|rewrite r_off_with_read; simpl; auto; lia|].
  unfold same_lap. rewrite r_flag_with_read, r_off_with_read by done. exact Hl.
Qed.

Lemma rb_wf_with_write rb o f :
  rb_wf rb -> 0 <= o < subbufferSizeInBytes rb -> is_flag f ->
  (if r_flag rb =? f then r_off rb <= o else o <= r_off rb) ->
  rb_wf (with_write rb (ma_rb__construct_offset o f)).
Proof.
  intros Hwf Ho Hf Hl. pose proof (wf_ranges _ Hwf) as (? & ? & ? & ? & ?).
  destruct Hwf. assert (0 <= o < 2 ^ 31) by lia.
  split; try done; [by apply construct_range|rewrite w_off_with_write; simpl; auto; lia|].
  unfold same_lap. rewrite w_flag_with_write, w_off_with_write by done. exact Hl.
Qed.

Lemma rb_wf_with_buffer rb m :
  rb_wf rb -> zlen m = zlen (pBuffer rb) -> rb_wf (with_buffer rb m).
Proof. intros [] Hm. split; simpl; try done; lia. Qed.

Lemma flag_neq_toggle f : is_flag f -> (f =? 2 ^ 31 - f) = false /\ (2 ^ 31 - f =? f) = false.
Proof. intros [-> | ->]; done. Qed.

Lemma flag_other f g : is_flag f -> is_flag g -> f <> g -> 2 ^ 31 - f = g.
Proof. intros [-> | ->] [-> | ->]; done. Qed.

Lemma is_flag_toggle f : is_flag f -> is_flag (2 ^ 31 - f).
Proof. intros [-> | ->]; unfold is_flag; lia. Qed.

(** The number of buffered bytes. *)
Definition rb_avail (rb : ma_rb) : Z :=
  if same_lap rb then w_off rb - r_off rb
  else subbufferSizeInBytes rb - r_off rb + w_off rb.

Lemma zlen_rb_content rb : rb_wf rb -> zlen (rb_content rb) = rb_avail rb.
Proof.
  intros Hwf. pose proof (wf_ranges _ Hwf) as (? & ? & ? & _).
  destruct Hwf. unfold rb_content, rb_avail. destruct (same_lap rb).
  - apply zlen_rd; lia.
  - rewrite zlen_app, !zlen_rd by lia. lia.
Qed.

Lemma rb_avail_bounds rb :
  rb_wf rb ->
  0 <= rb_contig_read rb <= rb_avail rb /\ rb_avail rb <= subbufferSizeInBytes rb
  /\ 0 <= rb_contig_write rb <= subbufferSizeInBytes rb - rb_avail rb.
Proof.
  intros Hwf. pose proof (wf_ranges _ Hwf) as (? & ? & ? & _). destruct Hwf.
  unfold rb_avail, rb_contig_read, rb_contig_write.
  destruct (same_lap rb); lia.
Qed.

(** ** Specifications of the operations *)

Lemma ma_rb_acquire_read_eq rb n :
  rb_wf rb -> 0 <= n ->
  ma_rb_acquire_read rb n = (MA_SUCCESS, Z.min n (rb_contig_read rb), r_off rb).
Proof.
  intros Hwf Hn. pose proof (wf_ranges _ Hwf) as (? & ? & ? & _).
  pose proof (rb_avail_bounds _ Hwf) as ([? ?] & ? & _).
  unfold ma_rb_acquire_read, ma_rb__deconstruct_offset.
  fold (r_off rb) (w_off rb) (r_flag rb) (w_flag rb). fold (same_lap rb).
  change (ma_rb__get_read_ptr rb) with (r_off rb). unfold rb_contig_read in *.
  destruct (same_lap rb); unfold u32; rewrite wrapu_id by cint;
    f_equal; f_equal; case_match; lia.
Qed.

Lemma ma_rb_acquire_write_eq rb n :
  rb_wf rb -> 0 <= n -> clearOnWriteAcquire rb = false ->
  ma_rb_acquire_write rb n = (MA_SUCCESS, Z.min n (rb_contig_write rb), w_off rb, rb).
Proof.
  intros Hwf Hn Hc. pose proof (wf_ranges _ Hwf) as (? & ? & ? & _).
  pose proof (rb_avail_bounds _ Hwf) as (_ & _ & [? ?]).
  unfold ma_rb_acquire_write, ma_rb__deconstruct_offset. rewrite Hc.
  fold (r_off rb) (w_off rb) (r_flag rb) (w_flag rb).
  rewrite (Z.eqb_sym (w_flag rb)). fold (same_lap rb).
  change (ma_rb__get_write_ptr rb) with (w_off rb). unfold rb_contig_write in *.
  destruct (same_lap rb); unfold u32; rewrite wrapu_id by cint;
    f_equal; f_equal; f_equal; case_match; lia.
Qed.

(** The acquired read block is the oldest part of the content. *)
Lemma rb_contig_read_content rb n :
  rb_wf rb -> 0 <= n <= rb_contig_read rb ->
  rd (pBuffer rb) (r_off rb) n = take (Z.to_nat n) (rb_content rb).
Proof.
  intros Hwf Hn. pose proof (wf_ranges _ Hwf) as (? & ? & ? & _). destruct Hwf.
  unfold rb_content, rb_contig_read in *. destruct (same_lap rb).
  - rewrite take_rd by lia. f_equal; lia.
  - rewrite take_app_le, take_rd by
      (pose proof (zlen_rd (pBuffer rb) (r_off rb) (subbufferSizeInBytes rb - r_off rb));
       unfold zlen in *; lia).
    f_equal; lia.
Qed.

Lemma with_read_buffer rb e : pBuffer (with_read rb e) = pBuffer rb.
Proof. done. Qed.

(** A contiguous read moves the read cursor over [n] bytes. *)
Lemma ma_rb_commit_read_spec rb n :
  rb_wf rb -> 0 <= n <= rb_contig_read rb ->
  exists rb', ma_rb_commit_read rb n = (MA_SUCCESS, rb')
    /\ rb_wf rb'
    /\ rb_content rb' = drop (Z.to_nat n) (rb_content rb)
    /\ rb' = with_read rb (encodedReadOffset rb').
Proof.
  intros Hwf Hn. pose proof (wf_ranges _ Hwf) as (? & ? & ? & Hrf & Hwfl).
  pose proof (flag_neq_toggle _ Hrf) as [Ht1 Ht2].
  pose proof (rb_avail_bounds _ Hwf) as (_ & ? & _).
  pose proof (wf_lap _ Hwf) as Hlap. pose proof (wf_buf _ Hwf) as Hbuf.
  unfold ma_rb_commit_read, ma_rb__deconstruct_offset.
  fold (r_off rb) (r_flag rb). rewrite toggle_flag by done.
  unfold rb_contig_read in Hn.
  assert (r_off rb + n <= subbufferSizeInBytes rb) by (destruct (same_lap rb); lia).
  unfold u32. rewrite wrapu_id by cint.
  destruct (Z.gtb_spec (r_off rb + n) (subbufferSizeInBytes rb)); [lia|].
  destruct (Z.eqb_spec (r_off rb + n) (subbufferSizeInBytes rb)) as [E|E];
    (eexists; split; [reflexivity|]); unfold rb_content, same_lap in *.
  - destruct (Z.eqb_spec (r_flag rb) (w_flag rb)) as [Ef|Ef]; [lia|].
    pose proof (flag_other _ _ Hrf Hwfl Ef) as Ef'.
    split_and!; [| |done].
    + apply rb_wf_with_read; auto using is_flag_toggle; [lia|].
      rewrite Ef', Z.eqb_refl. lia.
    + rewrite r_flag_with_read, r_off_with_read by (auto using is_flag_toggle; lia).
      cbn [pBuffer with_read w_flag w_off encodedWriteOffset subbufferSizeInBytes].
      change (w_flag (with_read rb _)) with (w_flag rb).
      change (w_off (with_read rb _)) with (w_off rb).
      rewrite Ef', Z.eqb_refl, drop_app_length' by
        (pose proof (zlen_rd (pBuffer rb) (r_off rb) (subbufferSizeInBytes rb - r_off rb));
         unfold zlen in *; lia).
      f_equal; lia.
  - split_and!; [| |done].
    + apply rb_wf_with_read; auto; [lia|]. destruct (_ =? _); lia.
    + rewrite r_flag_with_read, r_off_with_read by (auto; lia).
      cbn [pBuffer with_read subbufferSizeInBytes].
      change (w_flag (with_read rb _)) with (w_flag rb).
      change (w_off (with_read rb _)) with (w_off rb).
      destruct (_ =? _).
      * rewrite drop_rd by lia. f_equal; lia.
      * rewrite drop_app_le, drop_rd by
          (pose proof (zlen_rd (pBuffer rb) (r_off rb) (subbufferSizeInBytes rb - r_off rb));
           unfold zlen in *; lia).
        f_equal; f_equal; lia.
Qed.

(** Writing [d] through the acquired pointer and committing appends it. *)
Lemma ma_rb_commit_write_spec rb d :
  rb_wf rb -> zlen d <= rb_contig_write rb ->
  exists rb', ma_rb_commit_write (with_buffer rb (wr (pBuffer rb) (w_off rb) d)) (zlen d)
              = (MA_SUCCESS, rb')
    /\ rb_wf rb'
    /\ rb_content rb' = rb_content rb ++ d
    /\ rb' = with_write (with_buffer rb (wr (pBuffer rb) (w_off rb) d)) (encodedWriteOffset rb').
Proof.
  intros Hwf Hn. pose proof (wf_ranges _ Hwf) as (? & ? & ? & Hrf & Hwfl).
  pose proof (flag_neq_toggle _ Hwfl) as [Ht1 Ht2].
  pose proof (wf_lap _ Hwf) as Hlap. pose proof (wf_buf _ Hwf) as Hbuf.
  pose proof (zlen_nonneg d). pose proof (rb_avail_bounds _ Hwf) as (_ & _ & ?).
  set (m := wr (pBuffer rb) (w_off rb) d).
  assert (w_off rb + zlen d <= subbufferSizeInBytes rb)
    by (unfold rb_contig_write in *; destruct (same_lap rb); lia).
  assert (Hm : zlen m = zlen (pBuffer rb)) by (apply zlen_wr; lia).
  pose proof (rb_wf_with_buffer rb m Hwf Hm) as Hwf'.
  unfold ma_rb_commit_write, ma_rb__deconstruct_offset.
  change (ma_rb__extract_offset_in_bytes _) with (w_off rb).
  change (ma_rb__extract_offset_loop_flag _) with (w_flag rb).
  change (subbufferSizeInBytes (with_buffer rb m)) with (subbufferSizeInBytes rb).
  rewrite toggle_flag by done. unfold u32. rewrite wrapu_id by cint.
  destruct (Z.gtb_spec (w_off rb + zlen d) (subbufferSizeInBytes rb)); [lia|].
  unfold rb_contig_write, same_lap in *.
  destruct (Z.eqb_spec (w_off rb + zlen d) (subbufferSizeInBytes rb)) as [E|E];
    (eexists; split; [reflexivity|]); unfold rb_content, same_lap in *;
    (split_and!; [apply rb_wf_with_write| |done]); auto using is_flag_toggle;
    try (simpl; lia).
  all: rewrite ?w_flag_with_write, ?w_off_with_write by (auto using is_flag_toggle; lia).
  all: repeat match goal with
  | |- context [r_flag (with_write ?x ?e)] =>
      change (r_flag (with_write x e)) with (r_flag rb)
  | |- context [r_off (with_write ?x ?e)] =>
      change (r_off (with_write x e)) with (r_off rb)
  end; cbn [pBuffer with_write with_buffer subbufferSizeInBytes].
  all: try change (r_flag (with_buffer rb m)) with (r_flag rb).
  all: try change (r_off (with_buffer rb m)) with (r_off rb).
  - destruct (Z.eqb_spec (r_flag rb) (w_flag rb)) as [Ef|Ef]; [|simpl in *; lia].
    rewrite Ef, Ht1. lia.
  - destruct (Z.eqb_spec (r_flag rb) (w_flag rb)) as [Ef|Ef]; [|lia].
    rewrite Ef, Ht1, rd_0, app_nil_r.
    replace (subbufferSizeInBytes rb - r_off rb)
      with ((w_off rb - r_off rb) + zlen d) by lia.
    rewrite rd_split by lia. f_equal.
    + apply rd_wr_before; lia.
    + replace (r_off rb + (w_off rb - r_off rb)) with (w_off rb) by lia.
      apply rd_wr_same; lia.
  - destruct (Z.eqb_spec (r_flag rb) (w_flag rb)); lia.
  - destruct (Z.eqb_spec (r_flag rb) (w_flag rb)).
    + replace (w_off rb + zlen d - r_off rb)
        with ((w_off rb - r_off rb) + zlen d) by lia.
      rewrite rd_split by lia. f_equal; [apply rd_wr_before; lia|].
      replace (r_off rb + (w_off rb - r_off rb)) with (w_off rb) by lia.
      apply rd_wr_same; lia.
    + rewrite <- app_assoc. f_equal; [apply rd_wr_after; lia|].
      rewrite rd_split by lia. f_equal; [apply rd_wr_before; lia|].
      replace (0 + w_off rb) with (w_off rb) by lia. apply rd_wr_same; lia.
Qed.

(** Where the commits leave the cursors. *)
Lemma ma_rb_commit_read_off rb n rb' :
  rb_wf rb -> 0 <= n <= rb_contig_read rb -> ma_rb_commit_read rb n = (MA_SUCCESS, rb') ->
  r_off rb' = (r_off rb + n) mod subbufferSizeInBytes rb.
Proof.
  intros Hwf Hn E. pose proof (wf_ranges _ Hwf) as (? & ? & ? & Hrf & _).
  pose proof (rb_avail_bounds _ Hwf) as (? & ? & _).
  assert (r_off rb + n <= subbufferSizeInBytes rb)
    by (unfold rb_contig_read in *; destruct (same_lap rb); lia).
  unfold ma_rb_commit_read, ma_rb__deconstruct_offset in E. fold (r_off rb) (r_flag rb) in E.
  rewrite toggle_flag in E by done. unfold u32 in E. rewrite wrapu_id in E by cint.
  destruct (Z.gtb_spec (r_off rb + n) (subbufferSizeInBytes rb)); [lia|].
  destruct (Z.eqb_spec (r_off rb + n) (subbufferSizeInBytes rb)) as [->|]; simplify_eq.
  - rewrite Z.mod_same by lia. apply r_off_with_read; [lia|by apply is_flag_toggle].
  - rewrite Z.mod_small by lia. apply r_off_with_read; [lia|done].
Qed.

Lemma ma_rb_commit_write_off rb n rb' :
  rb_wf rb -> 0 <= n <= rb_contig_write rb -> ma_rb_commit_write rb n = (MA_SUCCESS, rb') ->
  w_off rb' = (w_off rb + n) mod subbufferSizeInBytes rb.
Proof.
  intros Hwf Hn E. pose proof (wf_ranges _ Hwf) as (? & ? & ? & _ & Hwfl).
  pose proof (rb_avail_bounds _ Hwf) as (_ & ? & ?).
  assert (w_off rb + n <= subbufferSizeInBytes rb)
    by (unfold rb_contig_write in *; destruct (same_lap rb); lia).
  unfold ma_rb_commit_write, ma_rb__deconstruct_offset in E. fold (w_off rb) (w_flag rb) in E.
  rewrite toggle_flag in E by done. unfold u32 in E. rewrite wrapu_id in E by cint.
  destruct (Z.gtb_spec (w_off rb + n) (subbufferSizeInBytes rb)); [lia|].
  destruct (Z.eqb_spec (w_off rb + n) (subbufferSizeInBytes rb)) as [->|]; simplify_eq.
  - rewrite Z.mod_same by lia. apply w_off_with_write; [lia|by apply is_flag_toggle].
  - rewrite Z.mod_small by lia. apply w_off_with_write; [lia|done].
Qed.

(** The two sides are stuck only on an empty, respectively a full, ring. *)
Lemma rb_contig_read_pos rb : rb_wf rb -> (0 < rb_contig_read rb <-> 0 < rb_avail rb).
Proof.
  intros Hwf. pose proof (wf_ranges _ Hwf) as (? & ? & ? & _). destruct Hwf.
  unfold rb_contig_read, rb_avail. destruct (same_lap rb); lia.
Qed.

Lemma rb_contig_write_pos rb :
  rb_wf rb -> (0 < rb_contig_write rb <-> rb_avail rb < subbufferSizeInBytes rb).
Proof.
  intros Hwf. pose proof (wf_ranges _ Hwf) as (? & ? & ? & _). destruct Hwf.
  unfold rb_contig_write, rb_avail. destruct (same_lap rb); lia.
Qed.

Lemma ma_rb_pointer_distance_eq rb :
  rb_wf rb -> ma_rb_pointer_distance rb = rb_avail rb.
Proof.
  intros Hwf. pose proof (wf_ranges _ Hwf) as (? & ? & ? & _).
  pose proof (rb_avail_bounds _ Hwf) as (? & ? & _).
  unfold ma_rb_pointer_distance, ma_rb__deconstruct_offset.
  fold (r_off rb) (w_off rb) (r_flag rb) (w_flag rb). fold (same_lap rb).
  unfold rb_avail in *. unfold u32, s32.
  destruct (same_lap rb); rewrite ?(wrapu_id 32 (subbufferSizeInBytes rb - r_off rb)) by cint;
    rewrite wrapu_id, wraps_id by cint; lia.
Qed.

Lemma ma_rb_available_read_eq rb :
  rb_wf rb -> ma_rb_available_read rb = rb_avail rb.
Proof.
  intros Hwf. pose proof (wf_ranges _ Hwf) as (? & ? & ? & _).
  pose proof (rb_avail_bounds _ Hwf) as (? & ? & _).
  unfold ma_rb_available_read. rewrite ma_rb_pointer_distance_eq by done.
  destruct (Z.ltb_spec (rb_avail rb) 0); [lia|]. apply wrapu_id. cint.
Qed.

Lemma ma_rb_available_write_eq rb :
  rb_wf rb -> ma_rb_available_write rb = subbufferSizeInBytes rb - rb_avail rb.
Proof.
  intros Hwf. pose proof (wf_ranges _ Hwf) as (? & ? & ? & _).
  pose proof (rb_avail_bounds _ Hwf) as (? & ? & _).
  unfold ma_rb_available_write, ma_rb_get_subbuffer_size.
  rewrite ma_rb_pointer_distance_eq by done. apply wrapu_id. cint.
Qed.

(** ** Construction *)

Lemma rb_wf_fresh m size count stride owns clear :
  0 < size <= maxSubBufferSize -> size <= zlen m ->
  rb_wf (mk_ma_rb m size count stride 0 0 owns clear)
  /\ rb_content (mk_ma_rb m size count stride 0 0 owns clear) = [].
Proof.
  intros Hs Hm. split; [split; simpl; try done; try lia|].
  - change (0 < size). lia.
  - change (0 < size). lia.
  - unfold rb_content, same_lap; simpl. apply rd_0.
Qed.

Lemma rb_wf_reset rb : rb_wf rb -> rb_wf (ma_rb_reset rb) /\ rb_content (ma_rb_reset rb) = [].
Proof. intros [Hs Hb _ _ _ _ _]. by apply rb_wf_fresh. Qed.

(** ** Seeking the read cursor *)

Lemma ma_rb_seek_read_within rb n :
  rb_wf rb -> 0 <= n <= rb_contig_read rb -> ma_rb_seek_read rb n = ma_rb_commit_read rb n.
Proof.
  intros Hwf Hn. pose proof (wf_ranges _ Hwf) as (? & ? & ? & Hrf & _).
  pose proof (rb_avail_bounds _ Hwf) as (? & ? & _). pose proof (wf_lap _ Hwf).
  unfold ma_rb_seek_read, ma_rb_commit_read, ma_rb__deconstruct_offset.
  fold (r_off rb) (w_off rb) (r_flag rb) (w_flag rb). fold (same_lap rb).
  destruct (Z.gtb_spec n (subbufferSizeInBytes rb)); [lia|].
  assert (Hle : r_off rb + n <= subbufferSizeInBytes rb)
    by (unfold rb_contig_read in *; destruct (same_lap rb); lia).
  unfold u32, u64. rewrite !(wrapu_id 32 (r_off rb + n)), wrapu_id by cint.
  destruct (Z.gtb_spec (r_off rb + n) (subbufferSizeInBytes rb)); [lia|].
  unfold rb_contig_read in Hn. destruct (same_lap rb) eqn:Hs.
  - destruct (Z.gtb_spec (r_off rb + n) (w_off rb)); [lia|].
    destruct (Z.eqb_spec (r_off rb + n) (subbufferSizeInBytes rb)); [lia|done].
  - destruct (Z.geb_spec (r_off rb + n) (subbufferSizeInBytes rb)).
    + replace (r_off rb + n) with (subbufferSizeInBytes rb) by lia.
      rewrite Z.eqb_refl, Z.sub_diag. by rewrite wrapu_id by cint.
    + by destruct (Z.eqb_spec (r_off rb + n) (subbufferSizeInBytes rb)); [lia|].
Qed.

(** A seek over the wrap point lands in the second block. *)
Lemma ma_rb_seek_read_over rb n :
  rb_wf rb -> same_lap rb = false ->
  subbufferSizeInBytes rb - r_off rb <= n <= subbufferSizeInBytes rb ->
  ma_rb_seek_read rb n
  = (MA_SUCCESS, with_read rb (ma_rb__construct_offset
                   (r_off rb + n - subbufferSizeInBytes rb) (w_flag rb))).
Proof.
  intros Hwf Hs Hn. pose proof (wf_ranges _ Hwf) as (? & ? & ? & Hrf & Hwfl).
  unfold ma_rb_seek_read, ma_rb__deconstruct_offset.
  fold (r_off rb) (w_off rb) (r_flag rb) (w_flag rb). fold (same_lap rb). rewrite Hs.
  destruct (Z.gtb_spec n (subbufferSizeInBytes rb)); [lia|].
  unfold u32, u64. rewrite !(wrapu_id 32 (r_off rb + n)), (wrapu_id 64) by cint.
  destruct (Z.geb_spec (r_off rb + n) (subbufferSizeInBytes rb)); [|lia].
  rewrite wrapu_id by cint. rewrite toggle_flag by done.
  rewrite (flag_other _ (w_flag rb)); [done..|].
  unfold same_lap in Hs. by apply Z.eqb_neq in Hs.
Qed.

Lemma ma_rb_seek_read_spec rb n :
  rb_wf rb -> 0 <= n <= rb_avail rb ->
  exists rb', ma_rb_seek_read rb n = (MA_SUCCESS, rb')
    /\ rb_wf rb' /\ rb_content rb' = drop (Z.to_nat n) (rb_content rb).
Proof.
  intros Hwf Hn. pose proof (wf_ranges _ Hwf) as (? & ? & ? & Hrf & Hwfl).
  pose proof (rb_avail_bounds _ Hwf) as (_ & ? & _). pose proof (wf_buf _ Hwf).
  destruct (decide (n <= rb_contig_read rb)) as [Hc|Hc].
  { rewrite ma_rb_seek_read_within by (done || lia).
    destruct (ma_rb_commit_read_spec rb n) as (rb' & ? & ? & ? & _); [done|lia|eauto]. }
  unfold rb_contig_read, rb_avail in *. destruct (same_lap rb) eqn:Hs; [lia|].
  rewrite ma_rb_seek_read_over by (done || lia).
  eexists; split; [reflexivity|]. split.
  - apply rb_wf_with_read; auto; [lia|]. rewrite Z.eqb_refl. lia.
  - unfold rb_content, same_lap. rewrite r_flag_with_read, r_off_with_read by (auto; lia).
    change (w_flag (with_read rb _)) with (w_flag rb).
    change (w_off (with_read rb _)) with (w_off rb). rewrite Z.eqb_refl.
    unfold same_lap in Hs. rewrite Hs. cbn [pBuffer with_read].
    rewrite drop_app_ge by
      (pose proof (zlen_rd (pBuffer rb) (r_off rb) (subbufferSizeInBytes rb - r_off rb));
       unfold zlen in *; lia).
    replace (Z.to_nat n - length _)%nat
      with (Z.to_nat (r_off rb + n - subbufferSizeInBytes rb)).
    + rewrite drop_rd by lia. f_equal; lia.
    + pose proof (zlen_rd (pBuffer rb) (r_off rb) (subbufferSizeInBytes rb - r_off rb)).
      unfold zlen in *; lia.
Qed.

(** ** Seeking the write cursor *)

Lemma ma_rb_seek_write_eq rb n :
  rb_wf rb -> 0 <= n <= subbufferSizeInBytes rb ->
  ma_rb_seek_write rb n =
    (MA_SUCCESS,
     with_write rb
       (if same_lap rb then
          if w_off rb + n >=? subbufferSizeInBytes rb
          then ma_rb__construct_offset (w_off rb + n - subbufferSizeInBytes rb)
                 (2 ^ 31 - w_flag rb)
          else ma_rb__construct_offset (w_off rb + n) (w_flag rb)
        else if w_off rb + n >? r_off rb
        then ma_rb__construct_offset (r_off rb) (w_flag rb)
        else ma_rb__construct_offset (w_off rb + n) (w_flag rb))).
Proof.
  intros Hwf Hn. pose proof (wf_ranges _ Hwf) as (? & ? & ? & Hrf & Hwfl).
  unfold ma_rb_seek_write, ma_rb__deconstruct_offset.
  fold (r_off rb) (w_off rb) (r_flag rb) (w_flag rb). fold (same_lap rb).
  unfold u32, u64. rewrite !(wrapu_id 64), !(wrapu_id 32 (w_off rb + n)) by cint.
  rewrite toggle_flag by done.
  destruct (same_lap rb); [|by destruct (_ >? _)].
  destruct (Z.geb_spec (w_off rb + n) (subbufferSizeInBytes rb)); [|done].
  by rewrite wrapu_id by cint.
Qed.

Lemma ma_rb_seek_write_spec rb n :
  rb_wf rb -> 0 <= n <= subbufferSizeInBytes rb - rb_avail rb ->
  exists rb', ma_rb_seek_write rb n = (MA_SUCCESS, rb')
    /\ rb_wf rb' /\ rb_avail rb' = rb_avail rb + n.
Proof.
  intros Hwf Hn. pose proof (wf_ranges _ Hwf) as (? & ? & ? & Hrf & Hwfl).
  pose proof (rb_avail_bounds _ Hwf) as (? & ? & _).
  pose proof (flag_neq_toggle _ Hwfl) as [Ht1 Ht2]. pose proof (wf_lap _ Hwf) as Hlap.
  rewrite ma_rb_seek_write_eq by (done || lia).
  eexists; split; [reflexivity|]. unfold rb_avail, same_lap in *.
  destruct (Z.eqb_spec (r_flag rb) (w_flag rb)) as [E|E].
  - destruct (Z.geb_spec (w_off rb + n) (subbufferSizeInBytes rb)).
    + split.
      * apply rb_wf_with_write; auto using is_flag_toggle; [lia|].
        rewrite E, Ht1. lia.
      * rewrite w_flag_with_write, w_off_with_write by (auto using is_flag_toggle; lia).
        change (r_flag (with_write rb _)) with (r_flag rb). rewrite E, Ht1.
        change (r_off (with_write rb _)) with (r_off rb). simpl. lia.
    + split.
      * apply rb_wf_with_write; auto; [lia|]. rewrite E, Z.eqb_refl. lia.
      * rewrite w_flag_with_write, w_off_with_write by (auto; lia).
        change (r_flag (with_write rb _)) with (r_flag rb). rewrite E, Z.eqb_refl.
        change (r_off (with_write rb _)) with (r_off rb). lia.
  - destruct (Z.gtb_spec (w_off rb + n) (r_off rb)); [lia|]. split.
    + apply rb_wf_with_write; auto; [lia|]. rewrite (proj2 (Z.eqb_neq _ _)) by done. lia.
    + rewrite w_flag_with_write, w_off_with_write by (auto; lia).
      change (r_flag (with_write rb _)) with (r_flag rb).
      rewrite (proj2 (Z.eqb_neq _ _)) by done.
      change (r_off (with_write rb _)) with (r_off rb). simpl. lia.
Qed.

(** ** Construction: the allocating path *)

Lemma ma_rb_init_ex_spec malloc size count rb0 :
  0 < size <= maxSubBufferSize -> 0 < count < 2 ^ 32 ->
  let stride := ma_align size MA_SIMD_ALIGNMENT in
  ma_rb_init_ex malloc size count 0 None None rb0 =
    if malloc (count * stride + 39)
    then (MA_SUCCESS, mk_ma_rb (zrep (count * stride) 0) size count stride 0 0 true false)
    else (MA_OUT_OF_MEMORY, mk_ma_rb [] size count stride 0 0 false false).
Proof.
  intros Hs Hc stride. pose proof Hs as Hs'.
  unfold maxSubBufferSize, MA_SIMD_ALIGNMENT in Hs.
  pose proof (ma_align_spec size 5 ltac:(lia) ltac:(cint)) as [Hal [q Hq]].
  change (2 ^ 5) with 32 in *. change (ma_align size 32) with stride in *.
  unfold ma_rb_init_ex, ma_aligned_malloc.
  rewrite (proj2 (Z.eqb_neq size 0)), (proj2 (Z.eqb_neq count 0)) by lia.
  simpl orb. destruct (Z.gtb_spec size maxSubBufferSize); [lia|].
  simpl negb. unfold u32, u64. rewrite (wrapu_id 32 size), (wrapu_id 32 count) by cint.
  change (ma_align size MA_SIMD_ALIGNMENT) with stride.
  rewrite (wrapu_id 32 stride) by cint.
  assert (0 < count * stride < 2 ^ 32 * 2 ^ 31)
    by (change (2 ^ 31) with 2147483648; split; [nia|apply Z.mul_lt_mono_nonneg; lia]).
  change (2 ^ 32 * 2 ^ 31) with 9223372036854775808 in *.
  rewrite (wrapu_id 64 (count * stride)) by cint.
  simpl (MA_SIMD_ALIGNMENT =? 0).
  replace (count * stride + (MA_SIMD_ALIGNMENT - 1 + 8)) with (count * stride + 39)
    by (unfold MA_SIMD_ALIGNMENT; lia).
  rewrite (wrapu_id 64) by cint. by destruct (malloc _).
Qed.

Lemma ma_rb_init_wf malloc size rb0 :
  0 < size <= maxSubBufferSize -> malloc (ma_align size MA_SIMD_ALIGNMENT + 39) = true ->
  exists rb, ma_rb_init malloc size None None rb0 = (MA_SUCCESS, rb)
    /\ rb_wf rb /\ rb_content rb = [] /\ subbufferSizeInBytes rb = size
    /\ clearOnWriteAcquire rb = false /\ ownsBuffer rb = true.
Proof.
  intros Hs Hm. unfold ma_rb_init. rewrite ma_rb_init_ex_spec by lia.
  rewrite Z.mul_1_l, Hm. eexists; split; [reflexivity|].
  pose proof (ma_align_spec size 5 ltac:(lia)
    ltac:(unfold maxSubBufferSize, MA_SIMD_ALIGNMENT in *; cint)) as [Hal _].
  change (2 ^ 5) with MA_SIMD_ALIGNMENT in *.
  destruct (rb_wf_fresh (zrep (ma_align size MA_SIMD_ALIGNMENT) 0) size 1
    (ma_align size MA_SIMD_ALIGNMENT) true false Hs) as [Hwf Hcon];
    [rewrite zlen_zrep; lia|]. eauto.
Qed.

(** ** Properties *)

(** Initialisation on every branch: [ma_rb_init] succeeds exactly for a
    size between 1 and [0x7FFFFFFF - 31] whose aligned allocation succeeds; the
    ring is then well formed, empty, zero-filled and owns its buffer.  Otherwise
    the result names the cause and the ring owns nothing. *)
Theorem ma_rb_init_correct malloc size rb0 :
  0 <= size < 2 ^ 64 ->
  let '(res, rb) := ma_rb_init malloc size None None rb0 in
  (size = 0 \/ maxSubBufferSize < size -> res = MA_INVALID_ARGS /\ rb = rb0)
  /\ (0 < size <= maxSubBufferSize ->
      if malloc (ma_align size MA_SIMD_ALIGNMENT + 39)
      then res = MA_SUCCESS /\ rb_wf rb /\ rb_content rb = []
           /\ subbufferSizeInBytes rb = size /\ ma_rb_uninit (Some rb) = Some (pBuffer rb)
           /\ pBuffer rb = zrep (ma_align size MA_SIMD_ALIGNMENT) 0
      else res = MA_OUT_OF_MEMORY /\ ma_rb_uninit (Some rb) = None).
Proof.
  intros Hs. destruct (decide (0 < size <= maxSubBufferSize)) as [Hok|Hbad].
  - destruct (malloc (ma_align size MA_SIMD_ALIGNMENT + 39)) eqn:Hm.
    + destruct (ma_rb_init_wf malloc size rb0 Hok Hm) as (rb & E & Hwf & Hc & Hz & _ & Ho).
      pose proof E as E'. unfold ma_rb_init in E'.
      rewrite ma_rb_init_ex_spec, Z.mul_1_l, Hm in E' by lia. rewrite E.
      split; [lia|intros _]. split_and!; try done; [simpl; by rewrite Ho|].
      by inversion E'.
    + unfold ma_rb_init. rewrite ma_rb_init_ex_spec, Z.mul_1_l, Hm by lia.
      split; [lia|done].
  - unfold ma_rb_init, ma_rb_init_ex.
    destruct (Z.eqb_spec size 0) as [->|]; [by split; [|lia]|]. simpl.
    destruct (Z.gtb_spec size maxSubBufferSize); [by split; [|lia]|lia].
Qed.

Lemma ma_rb_init_correct_witness :
  let '(res, rb) := ma_rb_init (fun _ => true) 100 None None ma_rb_zero in
  (100 = 0 \/ maxSubBufferSize < 100 -> res = MA_INVALID_ARGS /\ rb = ma_rb_zero)
  /\ (0 < 100 <= maxSubBufferSize ->
      res = MA_SUCCESS /\ rb_wf rb /\ rb_content rb = []
      /\ subbufferSizeInBytes rb = 100 /\ ma_rb_uninit (Some rb) = Some (pBuffer rb)
      /\ pBuffer rb = zrep (ma_align 100 MA_SIMD_ALIGNMENT) 0).
Proof.
  apply (ma_rb_init_correct (fun _ => true) 100 ma_rb_zero). vm_decide.
Defined.

(** One producer call: [ma_rb_acquire_write] grants a block inside the
    buffer, empty only when the ring is full or nothing is asked for; storing
    into it and committing appends the stored bytes and keeps the ring well
    formed. *)
Theorem ma_rb_write_chunk_appends rb d :
  rb_wf rb -> clearOnWriteAcquire rb = false ->
  exists n, ma_rb_acquire_write rb (zlen d) = (MA_SUCCESS, n, w_off rb, rb)
    /\ 0 <= n <= zlen d /\ w_off rb + n <= zlen (pBuffer rb)
    /\ (n = 0 <-> zlen d = 0 \/ ma_rb_available_write rb = 0)
    /\ exists rb', ma_rb_commit_write
          (with_buffer rb (wr (pBuffer rb) (w_off rb) (take (Z.to_nat n) d))) n
          = (MA_SUCCESS, rb')
        /\ rb_wf rb' /\ rb_content rb' = rb_content rb ++ take (Z.to_nat n) d.
Proof.
  intros Hwf Hcl. pose proof (wf_ranges _ Hwf) as (? & ? & ? & _).
  pose proof (zlen_nonneg d). pose proof (rb_avail_bounds _ Hwf) as (? & ? & ?).
  exists (Z.min (zlen d) (rb_contig_write rb)).
  set (n := Z.min (zlen d) (rb_contig_write rb)).
  split; [by apply ma_rb_acquire_write_eq|]. split; [lia|]. split.
  { pose proof (wf_buf _ Hwf). pose proof (wf_lap _ Hwf).
    unfold n, rb_contig_write in *. destruct (same_lap rb); lia. }
  split.
  { rewrite ma_rb_available_write_eq by done.
    pose proof (rb_contig_write_pos rb Hwf). lia. }
  assert (Hn : zlen (take (Z.to_nat n) d) = n)
    by (unfold zlen in *; rewrite length_take; lia).
  destruct (ma_rb_commit_write_spec rb (take (Z.to_nat n) d) Hwf) as (rb' & E & ? & ? & _);
    [lia|]. rewrite Hn in E. eauto.
Qed.

Lemma ma_rb_write_chunk_appends_witness :
  let rb := mk_ma_rb [0; 7; 8; 0] 4 1 32 1 3 true false in
  exists n, ma_rb_acquire_write rb 3 = (MA_SUCCESS, n, w_off rb, rb)
    /\ 0 <= n <= 3 /\ w_off rb + n <= zlen (pBuffer rb)
    /\ (n = 0 <-> 3 = 0 \/ ma_rb_available_write rb = 0)
    /\ exists rb', ma_rb_commit_write
          (with_buffer rb (wr (pBuffer rb) (w_off rb) (take (Z.to_nat n) [1; 2; 3]))) n
          = (MA_SUCCESS, rb')
        /\ rb_wf rb' /\ rb_content rb' = rb_content rb ++ take (Z.to_nat n) [1; 2; 3].
Proof.
  intros rb. apply (ma_rb_write_chunk_appends rb [1; 2; 3]); [|reflexivity].
  split; vm_decide.
Defined.

(** One consumer call: [ma_rb_acquire_read] exposes the oldest bytes, a
    non-empty block whenever the ring holds data and some is asked for;
    committing the block removes exactly those bytes. *)
Theorem ma_rb_read_chunk_takes rb want :
  rb_wf rb -> 0 <= want ->
  exists n, ma_rb_acquire_read rb want = (MA_SUCCESS, n, r_off rb)
    /\ 0 <= n <= want /\ (n = 0 <-> want = 0 \/ ma_rb_available_read rb = 0)
    /\ rd (pBuffer rb) (r_off rb) n = take (Z.to_nat n) (rb_content rb)
    /\ exists rb', ma_rb_commit_read rb n = (MA_SUCCESS, rb')
        /\ rb_wf rb' /\ rb_content rb' = drop (Z.to_nat n) (rb_content rb).
Proof.
  intros Hwf Hw. pose proof (rb_avail_bounds _ Hwf) as ([? ?] & ? & _).
  exists (Z.min want (rb_contig_read rb)).
  split; [by apply ma_rb_acquire_read_eq|]. split; [lia|]. split.
  { rewrite ma_rb_available_read_eq by done. pose proof (rb_contig_read_pos rb Hwf). lia. }
  split; [apply rb_contig_read_content; [done|lia]|].
  destruct (ma_rb_commit_read_spec rb (Z.min want (rb_contig_read rb)) Hwf)
    as (rb' & ? & ? & ? & _); [lia|eauto].
Qed.

Lemma ma_rb_read_chunk_takes_witness :
  let rb := mk_ma_rb [0; 7; 8; 0] 4 1 32 1 3 true false in
  exists n, ma_rb_acquire_read rb 1 = (MA_SUCCESS, n, r_off rb)
    /\ 0 <= n <= 1 /\ (n = 0 <-> 1 = 0 \/ ma_rb_available_read rb = 0)
    /\ rd (pBuffer rb) (r_off rb) n = take (Z.to_nat n) (rb_content rb)
    /\ exists rb', ma_rb_commit_read rb n = (MA_SUCCESS, rb')
        /\ rb_wf rb' /\ rb_content rb' = drop (Z.to_nat n) (rb_content rb).
Proof.
  intros rb. apply (ma_rb_read_chunk_takes rb 1); [|lia].
  split; vm_decide.
Defined.

(** Seeking the read cursor over the wrap point is not limited by the write
    cursor: an offset inside the buffer size but larger than what is buffered
    leaves the read cursor ahead of the write cursor on the same lap, and the
    next [ma_rb_acquire_read] offers almost 4 GiB. *)
Theorem ma_rb_seek_read_overshoots rb n :
  rb_wf rb -> same_lap rb = false ->
  rb_avail rb < n <= subbufferSizeInBytes rb ->
  exists rb', ma_rb_seek_read rb n = (MA_SUCCESS, rb')
    /\ ~ rb_wf rb'
    /\ ma_rb_acquire_read rb' (2 ^ 32)
       = (MA_SUCCESS, 2 ^ 32 - (n - rb_avail rb), r_off rb').
Proof.
  intros Hwf Hs Hn. pose proof (wf_ranges _ Hwf) as (? & ? & ? & Hrf & Hwfl).
  unfold rb_avail in *. rewrite Hs in *.
  rewrite ma_rb_seek_read_over by (done || lia).
  set (rb' := with_read rb _).
  assert (Ho : r_off rb' = r_off rb + n - subbufferSizeInBytes rb)
    by (apply r_off_with_read; [lia|done]).
  assert (Hl : same_lap rb' = true).
  { unfold same_lap, rb'. rewrite r_flag_with_read by (done || lia). apply Z.eqb_refl. }
  exists rb'. split; [done|]. split.
  - intros Hwf'. pose proof (wf_lap _ Hwf') as Hlap. rewrite Hl, Ho in Hlap.
    change (w_off rb') with (w_off rb) in Hlap. lia.
  - unfold ma_rb_acquire_read, ma_rb__deconstruct_offset.
    fold (r_off rb') (w_off rb') (r_flag rb') (w_flag rb'). fold (same_lap rb').
    rewrite Hl, Ho. change (w_off rb') with (w_off rb).
    change (ma_rb__get_read_ptr rb') with (r_off rb'). rewrite Ho.
    replace (w_off rb - _) with (2 ^ 32 - (n - (subbufferSizeInBytes rb - r_off rb
      + w_off rb)) + (-1) * 2 ^ 32) by lia.
    unfold u32. rewrite wrapu_add_mod, wrapu_id by cint.
    f_equal. f_equal. case_match; cint.
Qed.

Lemma ma_rb_seek_read_overshoots_witness :
  let rb := mk_ma_rb [1; 0; 0; 2] 4 1 32 3 (2 ^ 31 + 1) true false in
  exists rb', ma_rb_seek_read rb 4 = (MA_SUCCESS, rb')
    /\ ~ rb_wf rb'
    /\ ma_rb_acquire_read rb' (2 ^ 32) = (MA_SUCCESS, 2 ^ 32 - (4 - 2), r_off rb').
Proof.
  intros rb. apply (ma_rb_seek_read_overshoots rb 4).
  - split; vm_decide.
  - reflexivity.
  - vm_decide.
Defined.
