(* ===== verification/RingSpsc.v ===== *)
(** * One producer and one consumer on an [ma_rb], interleaved

    The audio callback and the worker thread share a ring without a lock.  Here
    their calls are cut at every access to shared memory: the atomic load of the
    other side's cursor, each byte of the client's [memcpy], and the atomic
    exchange of the own cursor in the commit.  A side's loads of its own cursor
    are not separate steps, since no other thread stores to it.  The atomics are
    the sequentially consistent ones [ma_atomic_load_32] and
    [ma_atomic_exchange_32] expand to.

    The specification is a bounded byte queue ([fifo_step]); every interleaving
    of the ring is one of its runs. *)
From Stdlib Require Import ZArith Lia Bool.
From stdpp Require Import base numbers list relations.
From S2P Require Import Prelude MaTypes Ring.

Local Open Scope Z_scope.

(** ** Threads *)

Inductive producer_pc :=
| P_idle
| P_loaded (readOffset : Z) (data : list Z)
| P_copying (off n k : Z) (data : list Z).

Inductive consumer_pc :=
| C_idle
| C_loaded (writeOffset : Z) (want : Z)
| C_copying (off n : Z) (got : list Z).

Record spsc := mk_spsc {
  ring : ma_rb;
  prod : producer_pc;
  cons : consumer_pc }.

(** What a step does to the queue as its clients see it. *)
Inductive label :=
| Tau
| Push (d : list Z)
| Pop (d : list Z).

(** ** Steps *)

Inductive spsc_step : spsc -> label -> spsc -> Prop :=
| step_p_load rb c d :
    spsc_step (mk_spsc rb P_idle c) Tau
              (mk_spsc rb (P_loaded (encodedReadOffset rb) d) c)
| step_p_acquire rb c seen d res n off rb' :
    ma_rb_acquire_write (with_read rb seen) (zlen d) = (res, n, off, rb') ->
    spsc_step (mk_spsc rb (P_loaded seen d) c) Tau
              (mk_spsc (with_buffer rb (pBuffer rb')) (P_copying off n 0 d) c)
| step_p_copy rb c off n k d b :
    k < n -> d !! Z.to_nat k = Some b ->
    spsc_step (mk_spsc rb (P_copying off n k d) c) Tau
              (mk_spsc (with_buffer rb (wr (pBuffer rb) (off + k) [b]))
                       (P_copying off n (k + 1) d) c)
| step_p_commit rb c off n d res rb' :
    ma_rb_commit_write rb n = (res, rb') ->
    spsc_step (mk_spsc rb (P_copying off n n d) c) (Push (take (Z.to_nat n) d))
              (mk_spsc rb' P_idle c)
| step_c_load rb p want :
    0 <= want ->
    spsc_step (mk_spsc rb p C_idle) Tau
              (mk_spsc rb p (C_loaded (encodedWriteOffset rb) want))
| step_c_acquire rb p seen want res n off :
    ma_rb_acquire_read (with_write rb seen) want = (res, n, off) ->
    spsc_step (mk_spsc rb p (C_loaded seen want)) Tau
              (mk_spsc rb p (C_copying off n []))
| step_c_copy rb p off n got b :
    zlen got < n -> pBuffer rb !! Z.to_nat (off + zlen got) = Some b ->
    spsc_step (mk_spsc rb p (C_copying off n got)) Tau
              (mk_spsc rb p (C_copying off n (got ++ [b])))
| step_c_commit rb p off n got res rb' :
    zlen got = n -> ma_rb_commit_read rb n = (res, rb') ->
    spsc_step (mk_spsc rb p (C_copying off n got)) (Pop got)
              (mk_spsc rb' p C_idle).

(** Runs, with the bytes pushed and popped along them. *)
Inductive spsc_run : spsc -> list Z -> list Z -> spsc -> Prop :=
| run_nil s : spsc_run s [] [] s
| run_tau s pushed popped s1 s2 :
    spsc_run s pushed popped s1 -> spsc_step s1 Tau s2 -> spsc_run s pushed popped s2
| run_push s pushed popped s1 d s2 :
    spsc_run s pushed popped s1 -> spsc_step s1 (Push d) s2 ->
    spsc_run s (pushed ++ d) popped s2
| run_pop s pushed popped s1 d s2 :
    spsc_run s pushed popped s1 -> spsc_step s1 (Pop d) s2 ->
    spsc_run s pushed (popped ++ d) s2.

(** A ring nobody is using yet. *)
Definition spsc_init (rb : ma_rb) : spsc := mk_spsc rb P_idle C_idle.

(** ** An executable scheduler

    [exec_action] runs the next step of the thread an action names;
    [exec_run] runs a schedule.  Both are sound for the step relation. *)

Inductive action :=
| A_produce (d : list Z)
| A_consume (want : Z)
| A_producer
| A_consumer.

Definition exec_action (s : spsc) (a : action) : option (label * spsc) :=
  match a, s with
  | A_produce d, mk_spsc rb P_idle c =>
      Some (Tau, mk_spsc rb (P_loaded (encodedReadOffset rb) d) c)
  | A_consume want, mk_spsc rb p C_idle =>
      if 0 <=? want
      then Some (Tau, mk_spsc rb p (C_loaded (encodedWriteOffset rb) want)) else None
  | A_producer, mk_spsc rb (P_loaded seen d) c =>
      let '(_, n, off, rb') := ma_rb_acquire_write (with_read rb seen) (zlen d) in
      Some (Tau, mk_spsc (with_buffer rb (pBuffer rb')) (P_copying off n 0 d) c)
  | A_producer, mk_spsc rb (P_copying off n k d) c =>
      if k <? n then
        match d !! Z.to_nat k with
        | Some b => Some (Tau, mk_spsc (with_buffer rb (wr (pBuffer rb) (off + k) [b]))
                                 (P_copying off n (k + 1) d) c)
        | None => None
        end
      else if k =? n then
        Some (Push (take (Z.to_nat n) d), mk_spsc (snd (ma_rb_commit_write rb n)) P_idle c)
      else None
  | A_consumer, mk_spsc rb p (C_loaded seen want) =>
      let '(_, n, off) := ma_rb_acquire_read (with_write rb seen) want in
      Some (Tau, mk_spsc rb p (C_copying off n []))
  | A_consumer, mk_spsc rb p (C_copying off n got) =>
      if zlen got <? n then
        match pBuffer rb !! Z.to_nat (off + zlen got) with
        | Some b => Some (Tau, mk_spsc rb p (C_copying off n (got ++ [b])))
        | None => None
        end
      else if zlen got =? n then
        Some (Pop got, mk_spsc (snd (ma_rb_commit_read rb n)) p C_idle)
      else None
  | _, _ => None
  end.

Fixpoint exec_run (s : spsc) (pushed popped : list Z) (acts : list action)
    : option (list Z * list Z * spsc) :=
  match acts with
  | [] => Some (pushed, popped, s)
  | a :: acts' =>
      match exec_action s a with
      | Some (Tau, s') => exec_run s' pushed popped acts'
      | Some (Push d, s') => exec_run s' (pushed ++ d) popped acts'
      | Some (Pop d, s') => exec_run s' pushed (popped ++ d) acts'
      | None => None
      end
  end.

(** ** Specification: a bounded queue of bytes *)

Inductive fifo_step (cap : Z) : list Z -> label -> list Z -> Prop :=
| fifo_tau q : fifo_step cap q Tau q
| fifo_push q d : zlen (q ++ d) <= cap -> fifo_step cap q (Push d) (q ++ d)
| fifo_pop q d : fifo_step cap (d ++ q) (Pop d) q.

(** ** Invariant *)

(** [seen] is a read cursor the producer loaded earlier: the consumer can only
    have advanced since, so the ring holds at most as much as it looked like. *)
Definition stale_read (rb : ma_rb) (seen : Z) : Prop :=
  rb_wf (with_read rb seen) /\ rb_avail rb <= rb_avail (with_read rb seen).

Definition stale_write (rb : ma_rb) (seen : Z) : Prop :=
  rb_wf (with_write rb seen) /\ rb_avail (with_write rb seen) <= rb_avail rb.

Definition producer_inv (rb : ma_rb) (p : producer_pc) : Prop :=
  match p with
  | P_idle => True
  | P_loaded seen _ => stale_read rb seen
  | P_copying off n k d =>
      off = w_off rb /\ 0 <= k <= n /\ n <= rb_contig_write rb /\ n <= zlen d
      /\ rd (pBuffer rb) off k = take (Z.to_nat k) d
  end.

Definition consumer_inv (rb : ma_rb) (c : consumer_pc) : Prop :=
  match c with
  | C_idle => True
  | C_loaded seen want => stale_write rb seen /\ 0 <= want
  | C_copying off n got =>
      off = r_off rb /\ zlen got <= n /\ n <= rb_contig_read rb
      /\ got = take (length got) (rb_content rb)
  end.

Record spsc_inv (s : spsc) : Prop := {
  inv_wf : rb_wf (ring s);
  inv_clear : clearOnWriteAcquire (ring s) = false;
  inv_prod : producer_inv (ring s) (prod s);
  inv_cons : consumer_inv (ring s) (cons s) }.

(** ** Stale cursors are safe *)

Lemma stale_read_contig rb seen :
  rb_wf rb -> stale_read rb seen ->
  rb_contig_write (with_read rb seen) <= rb_contig_write rb.
Proof.
  intros Hwf [Hwf' Hav]. pose proof (wf_ranges _ Hwf) as (? & ? & ? & _).
  pose proof (wf_ranges _ Hwf') as (? & _).
  pose proof (wf_lap _ Hwf). pose proof (wf_lap _ Hwf').
  unfold rb_contig_write, rb_avail in *. simpl in *.
  change (w_off (with_read rb seen)) with (w_off rb) in *.
  destruct (same_lap rb), (same_lap (with_read rb seen)); lia.
Qed.

Lemma stale_write_contig rb seen :
  rb_wf rb -> stale_write rb seen ->
  rb_contig_read (with_write rb seen) <= rb_contig_read rb.
Proof.
  intros Hwf [Hwf' Hav]. pose proof (wf_ranges _ Hwf) as (? & ? & ? & _).
  pose proof (wf_ranges _ Hwf') as (_ & ? & _).
  pose proof (wf_lap _ Hwf). pose proof (wf_lap _ Hwf').
  unfold rb_contig_read, rb_avail in *. simpl in *.
  change (r_off (with_write rb seen)) with (r_off rb) in *.
  destruct (same_lap rb), (same_lap (with_write rb seen)); lia.
Qed.

Lemma with_read_eta rb : with_read rb (encodedReadOffset rb) = rb.
Proof. by destruct rb. Qed.

Lemma with_write_eta rb : with_write rb (encodedWriteOffset rb) = rb.
Proof. by destruct rb. Qed.

(** The free block is disjoint from the content. *)
Lemma content_wr_free rb k d :
  rb_wf rb -> 0 <= k -> k + zlen d <= rb_contig_write rb ->
  rb_content (with_buffer rb (wr (pBuffer rb) (w_off rb + k) d)) = rb_content rb.
Proof.
  intros Hwf Hk Hd. pose proof (wf_ranges _ Hwf) as (? & ? & ? & _).
  pose proof (wf_lap _ Hwf). pose proof (wf_buf _ Hwf). pose proof (zlen_nonneg d).
  unfold rb_content, rb_contig_write in *.
  change (same_lap (with_buffer rb _)) with (same_lap rb).
  change (r_off (with_buffer rb _)) with (r_off rb).
  change (w_off (with_buffer rb _)) with (w_off rb).
  simpl. destruct (same_lap rb).
  - apply rd_wr_before; lia.
  - f_equal; [apply rd_wr_after; lia|apply rd_wr_before; lia].
Qed.

Lemma wr_rd_id {A} (m : list A) off n :
  0 <= off -> 0 <= n -> off + n <= zlen m -> wr m off (rd m off n) = m.
Proof.
  unfold zlen, wr, rd. intros. rewrite length_take, length_drop.
  replace (Z.to_nat off + _)%nat with (Z.to_nat n + Z.to_nat off)%nat by lia.
  rewrite (Nat.add_comm (Z.to_nat n)), <- drop_drop. by rewrite !take_drop.
Qed.

Lemma with_buffer_id rb : with_buffer rb (pBuffer rb) = rb.
Proof. by destruct rb. Qed.

(** Committing a block already copied into place. *)
Lemma ma_rb_commit_write_copied rb d :
  rb_wf rb -> zlen d <= rb_contig_write rb ->
  rd (pBuffer rb) (w_off rb) (zlen d) = d ->
  exists rb', ma_rb_commit_write rb (zlen d) = (MA_SUCCESS, rb')
    /\ rb_wf rb' /\ rb_content rb' = rb_content rb ++ d
    /\ rb' = with_write rb (encodedWriteOffset rb').
Proof.
  intros Hwf Hd Hrd. pose proof (wf_ranges _ Hwf) as (? & ? & ? & _).
  pose proof (wf_lap _ Hwf). pose proof (wf_buf _ Hwf). pose proof (zlen_nonneg d).
  destruct (ma_rb_commit_write_spec rb d Hwf Hd) as (rb' & E & Hwf' & Hc & Heq).
  assert (Hid : wr (pBuffer rb) (w_off rb) d = pBuffer rb).
  { rewrite <- Hrd at 1. apply wr_rd_id; [lia..|].
    unfold rb_contig_write in *. destruct (same_lap rb); lia. }
  rewrite Hid, with_buffer_id in *. eauto.
Qed.

(** Storing into the free block changes nothing the consumer looks at. *)
Lemma consumer_inv_free_write rb c k d :
  rb_wf rb -> 0 <= k -> k + zlen d <= rb_contig_write rb ->
  consumer_inv rb c ->
  consumer_inv (with_buffer rb (wr (pBuffer rb) (w_off rb + k) d)) c.
Proof.
  intros Hwf Hk Hd. pose proof (wf_ranges _ Hwf) as (? & ? & ? & _).
  pose proof (wf_lap _ Hwf). pose proof (wf_buf _ Hwf). pose proof (zlen_nonneg d).
  destruct c; simpl; [done| |].
  - intros [[Hw Hav] Hn]. split; [|done]. split; [|exact Hav].
    apply (rb_wf_with_buffer _ _ Hw). apply zlen_wr; [lia|].
    unfold rb_contig_write in *. destruct (same_lap rb); simpl; lia.
  - rewrite content_wr_free by done. done.
Qed.

Lemma take_prefix_app {A} (l1 l2 got : list A) :
  got = take (length got) l1 -> got = take (length got) (l1 ++ l2).
Proof.
  intros E. rewrite take_app_le; [done|].
  apply (f_equal length) in E. rewrite length_take in E. lia.
Qed.

(** A commit of the producer only adds to what the consumer sees. *)
Lemma consumer_inv_commit rb rb' d c :
  rb_wf rb -> rb_wf rb' -> rb_content rb' = rb_content rb ++ d ->
  rb' = with_write rb (encodedWriteOffset rb') ->
  consumer_inv rb c -> consumer_inv rb' c.
Proof.
  intros Hwf Hwf' Hc Heq Hinv.
  assert (Hav : rb_avail rb <= rb_avail rb').
  { rewrite <- !zlen_rb_content, Hc, zlen_app by done.
    pose proof (zlen_nonneg d). lia. }
  destruct c as [|seen want|off n got]; simpl in *; [done| |].
  - destruct Hinv as [[Hw Hs] ?]. split; [|done].
    assert (E : with_write rb' seen = with_write rb seen) by (by rewrite Heq).
    unfold stale_write. rewrite E. split; [done|lia].
  - destruct Hinv as (-> & ? & ? & ?).
    assert (Hst : stale_write rb' (encodedWriteOffset rb)).
    { assert (E : with_write rb' (encodedWriteOffset rb) = rb)
        by (rewrite Heq; by destruct rb).
      unfold stale_write. by rewrite E. }
    pose proof (stale_write_contig _ _ Hwf' Hst) as Hle.
    assert (E : with_write rb' (encodedWriteOffset rb) = rb)
      by (rewrite Heq; by destruct rb).
    rewrite E in Hle. split; [by rewrite Heq|]. split; [done|]. split; [lia|].
    rewrite Hc. by apply take_prefix_app.
Qed.

(** A commit of the consumer only adds room for the producer. *)
Lemma producer_inv_commit rb rb' n p :
  rb_wf rb -> rb_wf rb' -> rb_content rb' = drop (Z.to_nat n) (rb_content rb) ->
  rb' = with_read rb (encodedReadOffset rb') ->
  producer_inv rb p -> producer_inv rb' p.
Proof.
  intros Hwf Hwf' Hc Heq Hinv.
  assert (Hav : rb_avail rb' <= rb_avail rb).
  { rewrite <- !zlen_rb_content, Hc by done.
    unfold zlen. rewrite length_drop. lia. }
  destruct p as [|seen d|off m k d]; simpl in *; [done| |].
  - destruct Hinv as [Hw Hs].
    assert (E : with_read rb' seen = with_read rb seen) by (by rewrite Heq).
    unfold stale_read. rewrite E. split; [done|lia].
  - destruct Hinv as (-> & ? & ? & ? & ?).
    assert (E : with_read rb' (encodedReadOffset rb) = rb)
      by (rewrite Heq; by destruct rb).
    assert (Hst : stale_read rb' (encodedReadOffset rb))
      by (unfold stale_read; by rewrite E).
    pose proof (stale_read_contig _ _ Hwf' Hst) as Hle. rewrite E in Hle.
    split; [by rewrite Heq|]. split; [done|]. split; [lia|]. split; [done|].
    by rewrite Heq.
Qed.

(** ** Every step preserves the invariant and is a step of the queue *)

Definition step_ok (s : spsc) (l : label) (s' : spsc) : Prop :=
  spsc_inv s' /\ subbufferSizeInBytes (ring s') = subbufferSizeInBytes (ring s)
  /\ fifo_step (subbufferSizeInBytes (ring s)) (rb_content (ring s)) l
       (rb_content (ring s')).

Lemma producer_load_acquire_ok s s' :
  spsc_inv s -> spsc_step s Tau s' ->
  match prod s with P_copying _ _ _ _ => False | _ => prod s <> prod s' end ->
  step_ok s Tau s'.
Proof.
  intros [Hwf Hcl Hp Hc] Hst Hpc.
  inversion Hst; subst; simpl in *; try done.
  - split; [split; simpl; try done|split; [done|constructor]].
    unfold stale_read. rewrite with_read_eta. split; [done|lia].
  - pose proof (stale_read_contig _ _ Hwf Hp) as Hle.
    pose proof (wf_ranges _ Hwf) as (? & ? & ? & _).
    rewrite ma_rb_acquire_write_eq in H
      by (destruct Hp; simpl; auto using zlen_nonneg).
    injection H as <- <- <- <-. simpl. rewrite with_buffer_id.
    pose proof (rb_avail_bounds _ (proj1 Hp)) as (_ & _ & ? & _).
    pose proof (zlen_nonneg d).
    split; [split; simpl; try done|split; [done|constructor]].
    split; [done|]. split; [lia|]. split; [lia|]. split; [lia|].
    by rewrite rd_0.
  - destruct p as [| |]; done.
  - destruct p as [| |]; done.
  - destruct p as [| |]; done.
Qed.

Lemma producer_copy_ok rb c off n k d b :
  spsc_inv (mk_spsc rb (P_copying off n k d) c) -> k < n ->
  d !! Z.to_nat k = Some b ->
  step_ok (mk_spsc rb (P_copying off n k d) c) Tau
    (mk_spsc (with_buffer rb (wr (pBuffer rb) (off + k) [b])) (P_copying off n (k + 1) d) c).
Proof.
  intros [Hwf Hcl Hp Hc] Hk Hb. simpl in *. destruct Hp as (-> & Hk0 & Hn & Hd & Hcp).
  pose proof (wf_ranges _ Hwf) as (? & ? & ? & _). pose proof (wf_buf _ Hwf).
  pose proof (wf_lap _ Hwf).
  assert (w_off rb + n <= subbufferSizeInBytes rb)
    by (unfold rb_contig_write in *; destruct (same_lap rb); lia).
  assert (Hb1 : zlen [b] = 1) by done.
  unfold step_ok. simpl. rewrite content_wr_free by (rewrite ?Hb1; lia || done).
  split; [split; simpl; try done|split; [done|constructor]].
  - apply rb_wf_with_buffer; [done|]. apply zlen_wr; rewrite ?Hb1; lia.
  - split; [done|]. split; [lia|]. split; [exact Hn|]. split; [done|].
    rewrite rd_split by lia.
    rewrite rd_wr_before, Hcp by lia.
    rewrite <- Hb1 at 2. rewrite rd_wr_same by lia.
    rewrite Z2Nat.inj_add by lia. change (Z.to_nat 1) with 1%nat.
    rewrite Nat.add_1_r. symmetry. by apply take_S_r.
  - apply consumer_inv_free_write; rewrite ?Hb1; try lia; done.
Qed.

Lemma producer_commit_ok rb c off n d res rb' :
  spsc_inv (mk_spsc rb (P_copying off n n d) c) ->
  ma_rb_commit_write rb n = (res, rb') ->
  step_ok (mk_spsc rb (P_copying off n n d) c) (Push (take (Z.to_nat n) d))
    (mk_spsc rb' P_idle c).
Proof.
  intros [Hwf Hcl Hp Hc] Hcm. simpl in *. destruct Hp as (-> & Hk0 & Hn & Hd & Hcp).
  set (e := take (Z.to_nat n) d) in *.
  assert (He : zlen e = n)
    by (unfold zlen, e in *; rewrite length_take; lia).
  destruct (ma_rb_commit_write_copied rb e) as (rb1 & E & Hwf' & Hcon & Heq);
    [done|lia|by rewrite He|].
  rewrite He, Hcm in E. injection E as -> ->.
  assert (Hsz : subbufferSizeInBytes rb1 = subbufferSizeInBytes rb) by (by rewrite Heq).
  pose proof (rb_avail_bounds _ Hwf') as (_ & ? & _).
  split; [split; simpl; try done|split; [done|]].
  - by rewrite Heq.
  - by apply (consumer_inv_commit rb rb1 e).
  - simpl. rewrite Hcon. constructor. rewrite <- Hcon, zlen_rb_content by done. lia.
Qed.

Lemma consumer_load_acquire_ok s s' :
  spsc_inv s -> spsc_step s Tau s' ->
  match cons s with C_copying _ _ _ => False | _ => cons s <> cons s' end ->
  step_ok s Tau s'.
Proof.
  intros [Hwf Hcl Hp Hc] Hst Hpc.
  inversion Hst; subst; simpl in *; try (by destruct c).
  - split; [split; simpl; try done|split; [done|constructor]].
    split; [|done]. unfold stale_write. rewrite with_write_eta. split; [done|lia].
  - destruct Hc as [Hs Hw]. pose proof (stale_write_contig _ _ Hwf Hs) as Hle.
    rewrite ma_rb_acquire_read_eq in H by (done || apply Hs).
    injection H as <- <- <-.
    pose proof (rb_avail_bounds _ (proj1 Hs)) as ([? ?] & _).
    split; [split; simpl; try done|split; [done|constructor]].
    split; [done|]. rewrite zlen_nil. split; [lia|]. split; [lia|done].
  - done.
Qed.

Lemma consumer_copy_ok rb p off n got b :
  spsc_inv (mk_spsc rb p (C_copying off n got)) -> zlen got < n ->
  pBuffer rb !! Z.to_nat (off + zlen got) = Some b ->
  step_ok (mk_spsc rb p (C_copying off n got)) Tau
    (mk_spsc rb p (C_copying off n (got ++ [b]))).
Proof.
  intros [Hwf Hcl Hp Hc] Hk Hb. simpl in *. destruct Hc as (-> & Hg & Hn & Hgot).
  pose proof (wf_ranges _ Hwf) as (? & _).
  split; [split; simpl; try done|split; [done|constructor]].
  split; [done|]. rewrite zlen_app, zlen_cons, zlen_nil. split; [lia|]. split; [done|].
  pose proof (zlen_nonneg got).
  rewrite length_app, Nat.add_1_r. simpl.
  rewrite (take_S_r _ _ b); [by rewrite <- Hgot|].
  assert (Hr : rd (pBuffer rb) (r_off rb) n = take (Z.to_nat n) (rb_content rb))
    by (apply rb_contig_read_content; [done|lia]).
  assert (Hl : take (Z.to_nat n) (rb_content rb) !! length got = Some b).
  { rewrite <- Hr. unfold rd. rewrite lookup_take_lt by (unfold zlen in *; lia).
    rewrite lookup_drop, <- Hb. f_equal. unfold zlen; lia. }
  rewrite lookup_take_lt in Hl by (unfold zlen in *; lia). done.
Qed.

Lemma consumer_commit_ok rb p off n got res rb' :
  spsc_inv (mk_spsc rb p (C_copying off n got)) -> zlen got = n ->
  ma_rb_commit_read rb n = (res, rb') ->
  step_ok (mk_spsc rb p (C_copying off n got)) (Pop got) (mk_spsc rb' p C_idle).
Proof.
  intros [Hwf Hcl Hp Hc] Hg Hcm. simpl in *. destruct Hc as (-> & _ & Hn & Hgot).
  pose proof (zlen_nonneg got).
  destruct (ma_rb_commit_read_spec rb n) as (rb1 & E & Hwf' & Hcon & Heq); [done|lia|].
  rewrite Hcm in E. injection E as -> ->.
  assert (Hlen : Z.to_nat n = length got) by (unfold zlen in Hg; lia).
  split; [split; simpl; try done|split; [by rewrite Heq|]].
  - by rewrite Heq.
  - by apply (producer_inv_commit rb rb1 n).
  - simpl. rewrite Hcon, Hlen. rewrite Hgot at 1. rewrite <- Hgot.
    rewrite <- (take_drop (length got) (rb_content rb)) at 1. rewrite <- Hgot.
    constructor.
Qed.

Lemma spsc_step_ok s l s' : spsc_inv s -> spsc_step s l s' -> step_ok s l s'.
Proof.
  intros Hinv Hst. pose proof Hst as Hst'. destruct Hst.
  - by apply producer_load_acquire_ok.
  - by apply producer_load_acquire_ok.
  - by apply producer_copy_ok.
  - by apply producer_commit_ok with res.
  - by apply consumer_load_acquire_ok.
  - by apply consumer_load_acquire_ok.
  - by apply consumer_copy_ok.
  - by apply consumer_commit_ok with res.
Qed.

Lemma spsc_init_inv rb :
  rb_wf rb -> clearOnWriteAcquire rb = false -> spsc_inv (spsc_init rb).
Proof. by split. Qed.

Lemma spsc_run_inv s pushed popped s' :
  spsc_inv s -> spsc_run s pushed popped s' ->
  spsc_inv s' /\ subbufferSizeInBytes (ring s') = subbufferSizeInBytes (ring s)
  /\ rb_content (ring s) ++ pushed = popped ++ rb_content (ring s').
Proof.
  intros Hinv Hrun. induction Hrun as [s|s pu po s1 s2 Hr IH Hst
    |s pu po s1 d s2 Hr IH Hst|s pu po s1 d s2 Hr IH Hst]; [by rewrite app_nil_r| | |].
  all: destruct (IH Hinv) as (Hi & Hs & Hq);
    destruct (spsc_step_ok _ _ _ Hi Hst) as (Hi2 & Hs2 & Hf);
    (split; [done|split; [congruence|]]); inversion Hf; subst; simpl.
  - congruence.
  - rewrite app_assoc, Hq, <- app_assoc. congruence.
  - match goal with E : _ ++ _ = rb_content _ |- _ => rewrite <- E in Hq end.
    by rewrite Hq, app_assoc.
Qed.

#[local] Opaque ma_rb_acquire_write ma_rb_acquire_read ma_rb_commit_write ma_rb_commit_read.

Lemma exec_action_sound s a l s' : exec_action s a = Some (l, s') -> spsc_step s l s'.
Proof.
  destruct s as [rb p c], a, p, c; simpl; intros E; try done;
    repeat case_match; simplify_eq;
    repeat match goal with
    | H : (_ =? _) = true |- _ => apply Z.eqb_eq in H; subst
    | H : (_ <? _) = true |- _ => apply Z.ltb_lt in H
    | H : (_ <=? _) = true |- _ => apply Z.leb_le in H
    end; econstructor; try done; by apply surjective_pairing.
Qed.

#[local] Transparent ma_rb_acquire_write ma_rb_acquire_read ma_rb_commit_write ma_rb_commit_read.

Lemma exec_run_sound acts s pu po pu' po' s0 s' :
  spsc_run s0 pu po s -> exec_run s pu po acts = Some (pu', po', s') ->
  spsc_run s0 pu' po' s'.
Proof.
  revert s pu po. induction acts as [|a acts IH]; intros s pu po Hr E; simpl in E.
  { by simplify_eq. }
  destruct (exec_action s a) as [[l s1]|] eqn:Ea; [|done].
  apply exec_action_sound in Ea.
  destruct l; (eapply IH; [|exact E]); eauto using spsc_run.
Qed.

(** ** Progress of a side running alone *)

Lemma spsc_run_trans s1 pu1 po1 s2 pu2 po2 s3 :
  spsc_run s1 pu1 po1 s2 -> spsc_run s2 pu2 po2 s3 ->
  spsc_run s1 (pu1 ++ pu2) (po1 ++ po2) s3.
Proof.
  intros H1 H2. induction H2; rewrite ?app_nil_r, ?app_assoc; eauto using spsc_run.
Qed.

Lemma consumer_copy_all fuel rb p off n got :
  spsc_inv (mk_spsc rb p (C_copying off n got)) -> n - zlen got <= Z.of_nat fuel ->
  exists got', zlen got' = n /\ spsc_run (mk_spsc rb p (C_copying off n got)) [] []
                                  (mk_spsc rb p (C_copying off n got')).
Proof.
  revert got. induction fuel as [|fuel IH]; intros got Hinv Hf.
  { pose proof (inv_cons _ Hinv) as (_ & ? & _).
    exists got. split; [lia|constructor]. }
  destruct (decide (zlen got = n)) as [<-|Hne]; [exists got; split; [done|constructor]|].
  pose proof (inv_cons _ Hinv) as (Eo & ? & Hn & _). simpl in *. subst off.
  pose proof (inv_wf _ Hinv) as Hwf. simpl in Hwf. pose proof (zlen_nonneg got).
  pose proof (wf_ranges _ Hwf) as (? & ? & _). pose proof (wf_buf _ Hwf).
  assert (r_off rb + n <= subbufferSizeInBytes rb)
    by (unfold rb_contig_read in *; destruct (same_lap rb); lia).
  destruct (lookup_lt_is_Some_2 (pBuffer rb) (Z.to_nat (r_off rb + zlen got))) as [b Hb].
  { unfold zlen in *. lia. }
  assert (Hst : spsc_step (mk_spsc rb p (C_copying (r_off rb) n got)) Tau
    (mk_spsc rb p (C_copying (r_off rb) n (got ++ [b])))) by (constructor; [lia|done]).
  destruct (spsc_step_ok _ _ _ Hinv Hst) as [Hinv' _].
  destruct (IH _ Hinv') as (got' & Hg & Hrun); [rewrite zlen_app, zlen_cons, zlen_nil; lia|].
  exists got'. split; [done|].
  apply (spsc_run_trans _ [] [] _ [] []) with (2 := Hrun). eauto using spsc_run.
Qed.

Lemma producer_copy_all fuel rb c off n k d :
  spsc_inv (mk_spsc rb (P_copying off n k d) c) -> n - k <= Z.of_nat fuel ->
  exists m, spsc_run (mk_spsc rb (P_copying off n k d) c) [] []
              (mk_spsc (with_buffer rb m) (P_copying off n n d) c).
Proof.
  revert rb k. induction fuel as [|fuel IH]; intros rb k Hinv Hf;
    pose proof (inv_prod _ Hinv) as (Eo & ? & ? & ? & _); simpl in Eo; subst off.
  all: assert (Hdone : k = n -> exists m, spsc_run (mk_spsc rb (P_copying (w_off rb) n k d) c)
         [] [] (mk_spsc (with_buffer rb m) (P_copying (w_off rb) n n d) c))
       by (intros ->; exists (pBuffer rb); rewrite with_buffer_id; constructor).
  { apply Hdone. lia. }
  destruct (decide (k = n)); [by apply Hdone|]. simpl in *.
  destruct (lookup_lt_is_Some_2 d (Z.to_nat k)) as [b Hb]; [unfold zlen in *; lia|].
  assert (Hst : spsc_step (mk_spsc rb (P_copying (w_off rb) n k d) c) Tau
    (mk_spsc (with_buffer rb (wr (pBuffer rb) (w_off rb + k) [b]))
       (P_copying (w_off rb) n (k + 1) d) c)) by (constructor; [lia|done]).
  destruct (spsc_step_ok _ _ _ Hinv Hst) as [Hinv' _].
  destruct (IH _ _ Hinv') as (m & Hrun); [lia|].
  exists m. apply (spsc_run_trans _ [] [] _ [] []) with (2 := Hrun). eauto using spsc_run.
Qed.

(** A state reached by interleaving the two sides on a fresh ring. *)
Definition spsc_reachable (rb : ma_rb) (s : spsc) : Prop :=
  exists pushed popped, spsc_run (spsc_init rb) pushed popped s.

(** ** Properties *)

(** C5. Refinement: whatever the interleaving of the callback and the worker at
    the level of cursor loads, byte copies and commits, each step of the ring is
    a step of a FIFO queue of capacity [subbufferSizeInBytes]. *)
Theorem spsc_refines_fifo rb s l s' :
  rb_wf rb -> clearOnWriteAcquire rb = false ->
  spsc_reachable rb s -> spsc_step s l s' ->
  fifo_step (subbufferSizeInBytes rb) (rb_content (ring s)) l (rb_content (ring s')).
Proof.
  intros Hwf Hcl (pu & po & Hrun) Hst.
  destruct (spsc_run_inv _ _ _ _ (spsc_init_inv _ Hwf Hcl) Hrun) as (Hi & Hs & _).
  destruct (spsc_step_ok _ _ _ Hi Hst) as (_ & _ & Hf). by rewrite Hs in Hf.
Qed.

(** C17. Nothing is lost, duplicated, reordered or torn: on a ring that starts
    empty, the bytes the producer committed are exactly the bytes the consumer
    has taken followed by the bytes still in the ring, and those fit its size. *)
Theorem spsc_no_loss rb pushed popped s :
  rb_wf rb -> clearOnWriteAcquire rb = false -> rb_content rb = [] ->
  spsc_run (spsc_init rb) pushed popped s ->
  pushed = popped ++ rb_content (ring s)
  /\ zlen (rb_content (ring s)) <= subbufferSizeInBytes rb.
Proof.
  intros Hwf Hcl He Hrun.
  destruct (spsc_run_inv _ _ _ _ (spsc_init_inv _ Hwf Hcl) Hrun) as (Hi & Hs & Hq).
  simpl in *. rewrite He in Hq. split; [done|].
  rewrite zlen_rb_content, <- Hs by apply Hi. apply rb_avail_bounds, Hi.
Qed.

(** C18. Race freedom: while both sides hold an acquired block, the producer's
    and the consumer's blocks lie inside the buffer and do not overlap, so the
    [memcpy]s of the two threads never touch the same byte. *)
Theorem spsc_race_free rb s woff wn k d roff rn got :
  rb_wf rb -> clearOnWriteAcquire rb = false -> spsc_reachable rb s ->
  prod s = P_copying woff wn k d -> cons s = C_copying roff rn got ->
  0 <= woff /\ woff + wn <= subbufferSizeInBytes rb
  /\ 0 <= roff /\ roff + rn <= subbufferSizeInBytes rb
  /\ (woff + wn <= roff \/ roff + rn <= woff \/ wn = 0 \/ rn = 0).
Proof.
  intros Hwf Hcl (pu & po & Hrun) Hp Hc.
  destruct (spsc_run_inv _ _ _ _ (spsc_init_inv _ Hwf Hcl) Hrun) as ([Hw _ Ip Ic] & Hs & _).
  rewrite Hp in Ip. rewrite Hc in Ic. destruct Ip as (-> & ? & ? & _).
  destruct Ic as (-> & _ & ? & _). pose proof (wf_ranges _ Hw) as (? & ? & ? & _).
  pose proof (wf_lap _ Hw). simpl in Hs. rewrite <- Hs.
  unfold rb_contig_read, rb_contig_write in *. destruct (same_lap (ring s)); lia.
Qed.

(** C19. Lock-freedom of the consumer: in any reachable state with data in the
    ring, an idle consumer that asks for a positive amount obtains at least one
    byte by its own steps alone, whatever the producer is in the middle of. *)
Theorem spsc_consumer_progress rb s want :
  rb_wf rb -> clearOnWriteAcquire rb = false -> spsc_reachable rb s ->
  cons s = C_idle -> 0 < want -> rb_content (ring s) <> [] ->
  exists d s', d <> [] /\ spsc_run s [] d s' /\ prod s' = prod s /\ cons s' = C_idle.
Proof.
  intros Hwf Hcl (pu & po & Hrun) Hc Hwant Hne.
  destruct (spsc_run_inv _ _ _ _ (spsc_init_inv _ Hwf Hcl) Hrun) as (Hi & _ & _).
  destruct s as [rb1 p c]. simpl in *. subst c. pose proof (inv_wf _ Hi) as Hw. simpl in Hw.
  set (n := Z.min want (rb_contig_read rb1)).
  assert (Hn : 0 < n).
  { assert (0 < rb_avail rb1); [|pose proof (rb_contig_read_pos rb1 Hw); lia].
    rewrite <- zlen_rb_content by done. destruct (rb_content rb1); [done|].
    rewrite zlen_cons. pose proof (zlen_nonneg l). lia. }
  set (s1 := mk_spsc rb1 p (C_loaded (encodedWriteOffset rb1) want)).
  set (s2 := mk_spsc rb1 p (C_copying (r_off rb1) n [])).
  assert (H1 : spsc_step (mk_spsc rb1 p C_idle) Tau s1) by (constructor; lia).
  assert (H2 : spsc_step s1 Tau s2).
  { apply step_c_acquire with MA_SUCCESS. rewrite with_write_eta.
    apply ma_rb_acquire_read_eq; [done|lia]. }
  destruct (spsc_step_ok _ _ _ Hi H1) as [Hi1 _].
  destruct (spsc_step_ok _ _ _ Hi1 H2) as [Hi2 _].
  destruct (consumer_copy_all (Z.to_nat n) _ _ _ _ _ Hi2) as (got & Hg & Hr);
    [rewrite zlen_nil; lia|].
  destruct (ma_rb_commit_read rb1 n) as [res rb2] eqn:Hcm.
  exists got, (mk_spsc rb2 p C_idle). split_and!; [by intros ->; rewrite zlen_nil in Hg; lia| |done..].
  apply (run_pop _ [] [] (mk_spsc rb1 p (C_copying (r_off rb1) n got)));
    [|by apply step_c_commit with res].
  apply (spsc_run_trans _ [] [] s2 [] []) with (2 := Hr).
  apply (run_tau _ _ _ s1); [|done]. eapply run_tau; [constructor|done].
Qed.

(** Lock-freedom of the producer: with room in the ring, an idle producer
    commits at least one byte of what it has, by its own steps alone. *)
Theorem spsc_producer_progress rb s d :
  rb_wf rb -> clearOnWriteAcquire rb = false -> spsc_reachable rb s ->
  prod s = P_idle -> d <> [] ->
  zlen (rb_content (ring s)) < subbufferSizeInBytes (ring s) ->
  exists n s', (0 < n)%nat /\ spsc_run s (take n d) [] s'
    /\ cons s' = cons s /\ prod s' = P_idle.
Proof.
  intros Hwf Hcl (pu & po & Hrun) Hp Hd Hroom.
  destruct (spsc_run_inv _ _ _ _ (spsc_init_inv _ Hwf Hcl) Hrun) as (Hi & _ & _).
  destruct s as [rb1 p c]. simpl in *. subst p. pose proof (inv_wf _ Hi) as Hw. simpl in Hw.
  pose proof (inv_clear _ Hi) as Hc1. simpl in Hc1.
  rewrite zlen_rb_content in Hroom by done.
  set (n := Z.min (zlen d) (rb_contig_write rb1)).
  assert (Hn : 0 < n).
  { pose proof (rb_contig_write_pos rb1 Hw). destruct d as [|x d]; [done|].
    unfold n. rewrite zlen_cons. pose proof (zlen_nonneg d). lia. }
  set (s1 := mk_spsc rb1 (P_loaded (encodedReadOffset rb1) d) c).
  set (s2 := mk_spsc rb1 (P_copying (w_off rb1) n 0 d) c).
  assert (H1 : spsc_step (mk_spsc rb1 P_idle c) Tau s1) by constructor.
  assert (H2 : spsc_step s1 Tau s2).
  { replace s2 with (mk_spsc (with_buffer rb1 (pBuffer rb1)) (P_copying (w_off rb1) n 0 d) c)
      by (by rewrite with_buffer_id).
    apply step_p_acquire with MA_SUCCESS. rewrite with_read_eta.
    apply ma_rb_acquire_write_eq; auto using zlen_nonneg. }
  destruct (spsc_step_ok _ _ _ Hi H1) as [Hi1 _].
  destruct (spsc_step_ok _ _ _ Hi1 H2) as [Hi2 _].
  destruct (producer_copy_all (Z.to_nat n) _ _ _ _ _ _ Hi2) as (m & Hr); [lia|].
  destruct (ma_rb_commit_write (with_buffer rb1 m) n) as [res rb2] eqn:Hcm.
  exists (Z.to_nat n), (mk_spsc rb2 P_idle c). split_and!; [lia| |done..].
  apply (run_push _ [] [] (mk_spsc (with_buffer rb1 m) (P_copying (w_off rb1) n n d) c));
    [|by apply step_p_commit with res].
  apply (spsc_run_trans _ [] [] s2 [] []) with (2 := Hr).
  apply (run_tau _ _ _ s1); [|done]. eapply run_tau; [constructor|done].
Qed.

(** ** Witnesses on a ring of four bytes *)

Definition demo_ring : ma_rb := mk_ma_rb [0; 0; 0; 0] 4 1 32 0 0 true false.

(** Push [1;2;3], take one byte, push [4;5] up to the end of the buffer, then
    both sides acquire: the producer the freed byte, the consumer [2;3;4]. *)
Definition demo_schedule : list action :=
  [A_produce [1; 2; 3]; A_producer; A_producer; A_consume 1; A_producer; A_producer;
   A_producer; A_consumer; A_consumer; A_consume 1; A_consumer; A_consumer; A_consumer;
   A_produce [4; 5]; A_producer; A_producer; A_producer;
   A_produce [5; 6]; A_consume 8; A_producer; A_consumer; A_consumer; A_producer].

Definition demo_state (acts : list action) : spsc :=
  match exec_run (spsc_init demo_ring) [] [] acts with
  | Some (_, _, s) => s
  | None => spsc_init demo_ring
  end.

Lemma demo_ring_wf : rb_wf demo_ring.
Proof. by apply rb_wf_fresh. Qed.

Lemma demo_run acts pu po s :
  exec_run (spsc_init demo_ring) [] [] acts = Some (pu, po, s) ->
  spsc_run (spsc_init demo_ring) pu po s.
Proof. apply exec_run_sound. constructor. Qed.

Lemma demo_reachable acts pu po s :
  exec_run (spsc_init demo_ring) [] [] acts = Some (pu, po, s) ->
  spsc_reachable demo_ring s.
Proof. intros E. exists pu, po. by eapply demo_run. Qed.

Lemma spsc_refines_fifo_witness :
  fifo_step 4 [2; 3] (Push [4]) [2; 3; 4].
Proof.
  apply (spsc_refines_fifo demo_ring (demo_state (take 16 demo_schedule)) (Push [4])
           (demo_state (take 17 demo_schedule)) demo_ring_wf eq_refl).
  - eapply (demo_reachable (take 16 demo_schedule)). vm_compute. reflexivity.
  - apply (exec_action_sound _ A_producer). vm_compute. reflexivity.
Defined.

Lemma spsc_no_loss_witness :
  [1; 2; 3; 4] = [1] ++ [2; 3; 4] /\ zlen [2; 3; 4] <= 4.
Proof.
  apply (spsc_no_loss demo_ring [1; 2; 3; 4] [1] (demo_state demo_schedule)
           demo_ring_wf eq_refl eq_refl).
  apply (demo_run demo_schedule). vm_compute. reflexivity.
Defined.

Lemma spsc_race_free_witness :
  0 <= 0 /\ 0 + 1 <= 4 /\ 0 <= 1 /\ 1 + 3 <= 4
  /\ (0 + 1 <= 1 \/ 1 + 3 <= 0 \/ 1 = 0 \/ 3 = 0).
Proof.
  apply (spsc_race_free demo_ring (demo_state demo_schedule) 0 1 1 [5; 6] 1 3 [2]
           demo_ring_wf eq_refl); [|vm_compute; reflexivity..].
  eapply (demo_reachable demo_schedule). vm_compute. reflexivity.
Defined.

Lemma spsc_consumer_progress_witness :
  let s := demo_state (take 13 demo_schedule) in
  exists d s', d <> [] /\ spsc_run s [] d s' /\ prod s' = prod s /\ cons s' = C_idle.
Proof.
  apply (spsc_consumer_progress demo_ring (demo_state (take 13 demo_schedule)) 2
           demo_ring_wf eq_refl).
  - eapply (demo_reachable (take 13 demo_schedule)). vm_compute. reflexivity.
  - vm_compute. reflexivity.
  - lia.
  - vm_compute. discriminate.
Defined.

Lemma spsc_producer_progress_witness :
  let s := demo_state (take 17 demo_schedule) in
  exists n s', (0 < n)%nat /\ spsc_run s (take n [5; 6]) [] s'
    /\ cons s' = cons s /\ prod s' = P_idle.
Proof.
  apply (spsc_producer_progress demo_ring (demo_state (take 17 demo_schedule)) [5; 6]
           demo_ring_wf eq_refl).
  - eapply (demo_reachable (take 17 demo_schedule)). vm_compute. reflexivity.
  - vm_compute. reflexivity.
  - discriminate.
  - vm_compute. reflexivity.
Defined.
