(* ===== verification/BlockRing.v ===== *)
(** * Whole blocks in a byte ring

    A byte ring used only in blocks of [b] bytes, [b] dividing its size, never
    splits a block: an acquire of [b] bytes is granted whole or not at all. *)
From Stdlib Require Import ZArith Lia Bool.
From stdpp Require Import base numbers list.
From S2P Require Import Prelude MaTypes Ring.

Local Open Scope Z_scope.

Record rb_blocks (b : Z) (r : ma_rb) : Prop := {
  bk_wf : rb_wf r;
  bk_clear : clearOnWriteAcquire r = false;
  bk_pos : 0 < b;
  bk_size : (b | subbufferSizeInBytes r);
  bk_r : (b | r_off r);
  bk_w : (b | w_off r) }.

Section blocks.
Context (b : Z) (r : ma_rb) (Hr : rb_blocks b r).

Lemma blocks_divide : (b | rb_avail r) /\ (b | rb_contig_read r) /\ (b | rb_contig_write r).
Proof.
  destruct Hr. unfold rb_avail, rb_contig_read, rb_contig_write.
  destruct (same_lap r); split_and!;
    repeat first [assumption|apply Z.divide_sub_r|apply Z.divide_add_r].
Qed.

Lemma block_or_none x : 0 <= x -> (b | x) -> Z.min b x = if x =? 0 then 0 else b.
Proof.
  intros Hx Hd. pose proof (bk_pos _ _ Hr). destruct (Z.eqb_spec x 0) as [->|]; [lia|].
  apply Z.divide_pos_le in Hd; lia.
Qed.

Lemma blocks_mod x size : 0 < size -> (b | size) -> (b | x) -> (b | (x + b) mod size).
Proof.
  intros Hs Hd Hx. rewrite Z.mod_eq by lia.
  apply Z.divide_sub_r; [apply Z.divide_add_r; [done|by exists 1; lia]|].
  by apply Z.divide_mul_l.
Qed.

(** Pushing a block: appended if it fits, refused otherwise. *)
Lemma push_block d :
  zlen d = b ->
  if rb_avail r + b <=? subbufferSizeInBytes r then
    ma_rb_acquire_write r b = (MA_SUCCESS, b, w_off r, r)
    /\ exists r', ma_rb_commit_write (with_buffer r (wr (pBuffer r) (w_off r) d)) b
         = (MA_SUCCESS, r') /\ rb_blocks b r' /\ rb_content r' = rb_content r ++ d
         /\ subbufferSizeInBytes r' = subbufferSizeInBytes r
  else ma_rb_acquire_write r b = (MA_SUCCESS, 0, w_off r, r).
Proof.
  intros Hd. pose proof Hr as [Hwf Hcl Hb Hs Hdr Hdw].
  pose proof (rb_avail_bounds _ Hwf) as (? & ? & ?).
  destruct blocks_divide as (Ha & _ & Hcw).
  rewrite ma_rb_acquire_write_eq by (done || lia). rewrite block_or_none by (done || lia).
  pose proof (rb_contig_write_pos _ Hwf) as Hpos.
  destruct (Z.leb_spec (rb_avail r + b) (subbufferSizeInBytes r)).
  - rewrite (proj2 (Z.eqb_neq _ 0)) by lia. split; [done|].
    assert (Hle : b <= rb_contig_write r) by (apply Z.divide_pos_le; (done || lia)).
    destruct (ma_rb_commit_write_spec r d Hwf) as (r' & E & Hwf' & Hc & Heq); [lia|].
    rewrite Hd in E. exists r'. split; [done|].
    set (rm := with_buffer r (wr (pBuffer r) (w_off r) d)) in *.
    assert (Hb' : rb_wf rm).
    { apply rb_wf_with_buffer; [done|]. pose proof (wf_buf _ Hwf). pose proof (wf_lap _ Hwf).
      pose proof (wf_ranges _ Hwf) as (? & ? & ? & _).
      unfold rb_contig_write in *. apply zlen_wr; [lia|]. destruct (same_lap r); lia. }
    pose proof (ma_rb_commit_write_off rm b r' Hb' ltac:(split; [lia|exact Hle]) E) as Ho.
    assert (Hsz : subbufferSizeInBytes r' = subbufferSizeInBytes r) by (by rewrite Heq).
    split; [split|by split]; [done|by rewrite Heq|done|by rewrite Hsz| |].
    + change (r_off r') with (r_off r') in *. rewrite Heq. exact Hdr.
    + rewrite Ho. apply blocks_mod; [pose proof (wf_size _ Hwf); simpl; lia|done..].
  - assert (rb_contig_write r = 0) as ->; [|done].
    assert (rb_avail r = subbufferSizeInBytes r); [|lia].
    assert (Hd2 : (b | subbufferSizeInBytes r - rb_avail r)) by (by apply Z.divide_sub_r).
    destruct (Z.eq_dec (subbufferSizeInBytes r - rb_avail r) 0); [lia|].
    apply Z.divide_pos_le in Hd2; lia.
Qed.

(** Popping a block. *)
Lemma pop_block :
  if rb_avail r =? 0 then ma_rb_acquire_read r b = (MA_SUCCESS, 0, r_off r)
  else
    ma_rb_acquire_read r b = (MA_SUCCESS, b, r_off r)
    /\ rd (pBuffer r) (r_off r) b = take (Z.to_nat b) (rb_content r)
    /\ exists r', ma_rb_commit_read r b = (MA_SUCCESS, r') /\ rb_blocks b r'
         /\ rb_content r' = drop (Z.to_nat b) (rb_content r)
         /\ subbufferSizeInBytes r' = subbufferSizeInBytes r.
Proof.
  pose proof Hr as [Hwf Hcl Hb Hs Hdr Hdw].
  pose proof (rb_avail_bounds _ Hwf) as (? & ? & ?).
  destruct blocks_divide as (Ha & Hcr & _).
  rewrite ma_rb_acquire_read_eq by (done || lia). rewrite block_or_none by (done || lia).
  pose proof (rb_contig_read_pos _ Hwf) as Hpos.
  destruct (Z.eqb_spec (rb_avail r) 0).
  - rewrite (proj2 (Z.eqb_eq _ 0)) by lia. done.
  - rewrite (proj2 (Z.eqb_neq _ 0)) by lia. split; [done|].
    assert (Hle : b <= rb_contig_read r) by (apply Z.divide_pos_le; (done || lia)).
    split; [apply rb_contig_read_content; (done || lia)|].
    destruct (ma_rb_commit_read_spec r b Hwf) as (r' & E & Hwf' & Hc & Heq); [lia|].
    exists r'. split; [done|].
    pose proof (ma_rb_commit_read_off r b r' Hwf ltac:(lia) E) as Ho.
    assert (Hsz : subbufferSizeInBytes r' = subbufferSizeInBytes r) by (by rewrite Heq).
    split; [split|by split]; [done|by rewrite Heq|done|by rewrite Hsz| |].
    + rewrite Ho. apply blocks_mod; [pose proof (wf_size _ Hwf); lia|done..].
    + rewrite Heq. exact Hdw.
Qed.
End blocks.

Lemma rb_blocks_fresh b m size count stride owns :
  0 < size <= maxSubBufferSize -> size <= zlen m -> 0 < b -> (b | size) ->
  rb_blocks b (mk_ma_rb m size count stride 0 0 owns false).
Proof.
  intros Hs Hm Hb Hd. destruct (rb_wf_fresh m size count stride owns false Hs Hm) as [Hwf _].
  split; try done; apply Z.divide_0_r.
Qed.
