(* ===== verification/FrameRing.v ===== *)
(** * The interface between a frame ring and its clients

    [FrameRing] lists the calls a client makes on a ring of PCM frames;
    [FrameRingLaws] is what those calls promise in terms of the buffered bytes,
    in frames of [bpf] bytes.  [PcmRing] implements it for [ma_pcm_rb]; the
    copy loops of the device adapter are proved against it. *)
From Stdlib Require Import ZArith Lia.
From stdpp Require Import base numbers list.
From S2P Require Import Prelude MaTypes.

Local Open Scope Z_scope.

Class FrameRing (R : Type) := {
  acquire_read : R -> Z -> ma_result * Z * Z;
  commit_read : R -> Z -> ma_result * R;
  acquire_write : R -> Z -> ma_result * Z * Z * R;
  commit_write : R -> Z -> ma_result * R;
  available_read : R -> Z;
  ring_mem : R -> list Z;
  set_ring_mem : R -> list Z -> R }.

Class FrameRingLaws (R : Type) `{FrameRing R} (bpf : Z) := {
  ring_ok : R -> Prop;
  ring_content : R -> list Z;
  ring_frames : R -> Z;
  ring_space : R -> Z;

  law_bpf : 0 < bpf;
  law_frames r : ring_ok r -> 0 <= ring_frames r /\ zlen (ring_content r) = ring_frames r * bpf;
  law_space r : ring_ok r -> 0 <= ring_space r;
  law_small r : ring_ok r -> (ring_frames r + ring_space r) * bpf < 2 ^ 31;
  law_available r : ring_ok r -> available_read r = ring_frames r;

  (** A read block is the front of the content; committing it drops it. *)
  law_read r n :
    ring_ok r -> 0 <= n -> n * bpf < 2 ^ 32 ->
    exists k off, acquire_read r n = (MA_SUCCESS, k, off)
      /\ 0 <= k <= n /\ k <= ring_frames r /\ (k = 0 -> n = 0 \/ ring_frames r = 0)
      /\ rd (ring_mem r) off (k * bpf) = take (Z.to_nat (k * bpf)) (ring_content r)
      /\ exists r', commit_read r k = (MA_SUCCESS, r') /\ ring_ok r'
           /\ ring_content r' = drop (Z.to_nat (k * bpf)) (ring_content r)
           /\ ring_frames r' = ring_frames r - k /\ ring_space r' = ring_space r + k;

  (** A write block is free space; storing a block of its size and committing
      appends it. *)
  law_write r n :
    ring_ok r -> 0 <= n -> n * bpf < 2 ^ 32 ->
    exists k off, acquire_write r n = (MA_SUCCESS, k, off, r)
      /\ 0 <= k <= n /\ k <= ring_space r /\ (k = 0 -> n = 0 \/ ring_space r = 0)
      /\ forall d, zlen d = k * bpf ->
         exists r', commit_write (set_ring_mem r (wr (ring_mem r) off d)) k = (MA_SUCCESS, r')
           /\ ring_ok r' /\ ring_content r' = ring_content r ++ d
           /\ ring_frames r' = ring_frames r + k /\ ring_space r' = ring_space r - k }.

#[global] Hint Mode FrameRingLaws + + - : typeclass_instances.
