(* ===== verification/PcmRing.v ===== *)
(** * The PCM frame ring [ma_pcm_rb] and the duplex ring (miniaudio.h)

    [ma_pcm_rb] counts in frames over an [ma_rb] of bytes and is also a data
    source that pads with silence.  Its record keeps the members of
    [ma_data_source_base] that initialisation sets. *)
From Stdlib Require Import ZArith Lia Bool.
From stdpp Require Import base numbers list.
From S2P Require Import Prelude MaTypes Ring FrameRing.

Local Open Scope Z_scope.

(** ** State *)

Record ma_data_source_base := mk_ds {
  vtable : bool;
  rangeBegInFrames : Z;
  rangeEndInFrames : Z;
  loopBegInFrames : Z;
  loopEndInFrames : Z;
  pCurrent_self : bool }.

Definition ma_data_source_base_zero : ma_data_source_base := mk_ds false 0 0 0 0 false.

(** [pConfig] is NULL or carries whether its vtable is set. *)
Definition ma_data_source_init (pConfig : option bool) : ma_result * ma_data_source_base :=
  match pConfig with
  | None => (MA_INVALID_ARGS, ma_data_source_base_zero)
  | Some false => (MA_INVALID_ARGS, ma_data_source_base_zero)
  | Some true =>
      (MA_SUCCESS, mk_ds true 0 (u64 (Z.lnot 0)) 0 (u64 (Z.lnot 0)) true)
  end.

Record ma_pcm_rb := mk_pcm_rb {
  ds : ma_data_source_base;
  rb : ma_rb;
  format : ma_format;
  channels : Z;
  sampleRate : Z }.

Definition ma_pcm_rb_zero : ma_pcm_rb :=
  mk_pcm_rb ma_data_source_base_zero ma_rb_zero ma_format_unknown 0 0.

Definition with_rb (p : ma_pcm_rb) (r : ma_rb) : ma_pcm_rb :=
  mk_pcm_rb (ds p) r (format p) (channels p) (sampleRate p).

Definition ma_pcm_rb_get_bpf (p : ma_pcm_rb) : Z :=
  ma_get_bytes_per_frame (format p) (channels p).

(** ** Construction *)

Definition ma_pcm_rb_init_ex (malloc : Z -> bool) (fmt : ma_format) (chans : Z)
    (subbufferSizeInFrames subbufferCnt subbufferStrideInFrames : Z)
    (pre : option (list Z)) (callbacks : option ma_allocation_callbacks)
    (p0 : ma_pcm_rb) : ma_result * ma_pcm_rb :=
  let bpf := ma_get_bytes_per_frame fmt chans in
  if bpf =? 0 then (MA_INVALID_ARGS, ma_pcm_rb_zero)
  else
    let '(result, r) :=
      ma_rb_init_ex malloc (u32 (subbufferSizeInFrames * bpf)) subbufferCnt
        (u32 (subbufferStrideInFrames * bpf)) pre callbacks ma_rb_zero in
    if negb (result =? MA_SUCCESS)
    then (result, mk_pcm_rb ma_data_source_base_zero r ma_format_unknown 0 0)
    else
      let '(result, d) := ma_data_source_init (Some true) in
      (result, mk_pcm_rb d r fmt chans 0).

Definition ma_pcm_rb_init malloc fmt chans bufferSizeInFrames pre callbacks p0 :=
  ma_pcm_rb_init_ex malloc fmt chans bufferSizeInFrames 1 0 pre callbacks p0.

Definition ma_pcm_rb_uninit (p : option ma_pcm_rb) : option (list Z) :=
  match p with None => None | Some q => ma_rb_uninit (Some (rb q)) end.

Definition ma_pcm_rb_reset (p : ma_pcm_rb) : ma_pcm_rb := with_rb p (ma_rb_reset (rb p)).

(** ** Reading and writing.  [frames * bpf] is a 32-bit product. *)

Definition ma_pcm_rb_acquire_read (p : ma_pcm_rb) (sizeInFrames : Z) : ma_result * Z * Z :=
  let '(result, sizeInBytes, off) :=
    ma_rb_acquire_read (rb p) (u32 (sizeInFrames * ma_pcm_rb_get_bpf p)) in
  if negb (result =? MA_SUCCESS) then (result, sizeInFrames, off)
  else (MA_SUCCESS, u32 (sizeInBytes / ma_pcm_rb_get_bpf p), off).

Definition ma_pcm_rb_commit_read (p : ma_pcm_rb) (sizeInFrames : Z) : ma_result * ma_pcm_rb :=
  let '(res, r) := ma_rb_commit_read (rb p) (u32 (sizeInFrames * ma_pcm_rb_get_bpf p)) in
  (res, with_rb p r).

Definition ma_pcm_rb_acquire_write (p : ma_pcm_rb) (sizeInFrames : Z)
    : ma_result * Z * Z * ma_pcm_rb :=
  let '(result, sizeInBytes, off, r) :=
    ma_rb_acquire_write (rb p) (u32 (sizeInFrames * ma_pcm_rb_get_bpf p)) in
  if negb (result =? MA_SUCCESS) then (result, sizeInFrames, off, with_rb p r)
  else (MA_SUCCESS, u32 (sizeInBytes / ma_pcm_rb_get_bpf p), off, with_rb p r).

Definition ma_pcm_rb_commit_write (p : ma_pcm_rb) (sizeInFrames : Z) : ma_result * ma_pcm_rb :=
  let '(res, r) := ma_rb_commit_write (rb p) (u32 (sizeInFrames * ma_pcm_rb_get_bpf p)) in
  (res, with_rb p r).

Definition ma_pcm_rb_seek_read (p : ma_pcm_rb) (offsetInFrames : Z) : ma_result * ma_pcm_rb :=
  let '(res, r) := ma_rb_seek_read (rb p) (u32 (offsetInFrames * ma_pcm_rb_get_bpf p)) in
  (res, with_rb p r).

Definition ma_pcm_rb_seek_write (p : ma_pcm_rb) (offsetInFrames : Z) : ma_result * ma_pcm_rb :=
  let '(res, r) := ma_rb_seek_write (rb p) (u32 (offsetInFrames * ma_pcm_rb_get_bpf p)) in
  (res, with_rb p r).

(** ** Queries.  The distance is converted to unsigned by the division. *)

Definition ma_pcm_rb_pointer_distance (p : ma_pcm_rb) : Z :=
  s32 (u32 (ma_rb_pointer_distance (rb p)) / ma_pcm_rb_get_bpf p).

Definition ma_pcm_rb_available_read (p : ma_pcm_rb) : Z :=
  ma_rb_available_read (rb p) / ma_pcm_rb_get_bpf p.

Definition ma_pcm_rb_available_write (p : ma_pcm_rb) : Z :=
  ma_rb_available_write (rb p) / ma_pcm_rb_get_bpf p.

Definition ma_pcm_rb_get_subbuffer_size (p : ma_pcm_rb) : Z :=
  u32 (ma_rb_get_subbuffer_size (rb p) / ma_pcm_rb_get_bpf p).

Definition ma_pcm_rb_get_subbuffer_stride (p : ma_pcm_rb) : Z :=
  u32 (ma_rb_get_subbuffer_stride (rb p) / ma_pcm_rb_get_bpf p).

Definition ma_pcm_rb_get_subbuffer_offset (p : ma_pcm_rb) (subbufferIndex : Z) : Z :=
  u32 (ma_rb_get_subbuffer_offset (rb p) subbufferIndex / ma_pcm_rb_get_bpf p).

Definition ma_pcm_rb_get_subbuffer_ptr (p : ma_pcm_rb) (subbufferIndex q : Z) : Z :=
  ma_rb_get_subbuffer_ptr (rb p) subbufferIndex q.

Definition ma_pcm_rb_set_sample_rate (p : ma_pcm_rb) (rate : Z) : ma_pcm_rb :=
  mk_pcm_rb (ds p) (rb p) (format p) (channels p) rate.

(** ** Entry points with their NULL checks *)

Definition ma_pcm_rb_init_ex_ptr malloc fmt chans size count stride pre callbacks :=
  on_ptr MA_INVALID_ARGS (ma_pcm_rb_init_ex malloc fmt chans size count stride pre callbacks).
Definition ma_pcm_rb_reset_ptr (p : option ma_pcm_rb) : option ma_pcm_rb :=
  snd (on_ptr tt (fun q => (tt, ma_pcm_rb_reset q)) p).

(** The byte ring rejects a NULL [ppBufferOut] after the frame layer's checks. *)
Definition ma_pcm_rb_acquire_read_ptr (p : option ma_pcm_rb) (pSizeInFrames : option Z)
    (ppBufferOut_set : bool) : ma_result * option Z * option Z :=
  match p, pSizeInFrames, ppBufferOut_set with
  | Some q, Some n, true =>
      let '(res, n', off) := ma_pcm_rb_acquire_read q n in (res, Some n', Some off)
  | _, _, _ => (MA_INVALID_ARGS, pSizeInFrames, None)
  end.
Definition ma_pcm_rb_commit_read_ptr (p : option ma_pcm_rb) (n : Z) :=
  on_ptr MA_INVALID_ARGS (fun q => ma_pcm_rb_commit_read q n) p.
Definition ma_pcm_rb_commit_write_ptr (p : option ma_pcm_rb) (n : Z) :=
  on_ptr MA_INVALID_ARGS (fun q => ma_pcm_rb_commit_write q n) p.
Definition ma_pcm_rb_seek_read_ptr (p : option ma_pcm_rb) (n : Z) :=
  on_ptr MA_INVALID_ARGS (fun q => ma_pcm_rb_seek_read q n) p.
Definition ma_pcm_rb_seek_write_ptr (p : option ma_pcm_rb) (n : Z) :=
  on_ptr MA_INVALID_ARGS (fun q => ma_pcm_rb_seek_write q n) p.
Definition ma_pcm_rb_pointer_distance_ptr := get_ptr 0 ma_pcm_rb_pointer_distance.
Definition ma_pcm_rb_available_read_ptr := get_ptr 0 ma_pcm_rb_available_read.
Definition ma_pcm_rb_available_write_ptr := get_ptr 0 ma_pcm_rb_available_write.
Definition ma_pcm_rb_get_subbuffer_size_ptr := get_ptr 0 ma_pcm_rb_get_subbuffer_size.
Definition ma_pcm_rb_get_subbuffer_stride_ptr := get_ptr 0 ma_pcm_rb_get_subbuffer_stride.
Definition ma_pcm_rb_get_format := get_ptr ma_format_unknown format.
Definition ma_pcm_rb_get_channels := get_ptr 0 channels.
Definition ma_pcm_rb_get_sample_rate := get_ptr 0 sampleRate.

(** ** The data source *)

Definition ma_offset_pcm_frames_ptr (p offsetInFrames : Z) (fmt : ma_format) (chans : Z) : Z :=
  p + u64 (offsetInFrames * ma_get_bytes_per_frame fmt chans).

(** [ma_copy_pcm_frames] between distinct buffers. *)
Definition ma_copy_pcm_frames (dst : list Z) (dstOff : Z) (src : list Z) (srcOff : Z)
    (frameCount : Z) (fmt : ma_format) (chans : Z) : list Z :=
  wr dst dstOff (rd src srcOff (u64 (frameCount * ma_get_bytes_per_frame fmt chans))).

(** Silence is 128 for unsigned 8-bit samples and zero bytes otherwise. *)
Definition ma_silence_pcm_frames (m : list Z) (off frameCount : Z) (fmt : ma_format)
    (chans : Z) : list Z :=
  if decide (fmt = ma_format_u8) then wr m off (zrep (u64 (frameCount * chans)) 128)
  else wr m off (zrep (u64 (frameCount * ma_get_bytes_per_frame fmt chans)) 0).

(** The [while] loop of [onRead]; [None] is fuel exhaustion. *)
Fixpoint on_read_loop (fuel : nat) (p : ma_pcm_rb) (out : list Z)
    (totalFramesRead frameCount : Z) : option (ma_pcm_rb * list Z * Z) :=
  if totalFramesRead <? frameCount then
    match fuel with
    | O => None
    | S fuel =>
        let framesToRead := frameCount - totalFramesRead in
        let framesToRead := if framesToRead >? 0xFFFFFFFF then 0xFFFFFFFF else framesToRead in
        let '(result, mappedFrameCount, off) := ma_pcm_rb_acquire_read p (u32 framesToRead) in
        if negb (result =? MA_SUCCESS) then Some (p, out, totalFramesRead)
        else if mappedFrameCount =? 0 then Some (p, out, totalFramesRead)
        else
          let out :=
            ma_copy_pcm_frames out
              (ma_offset_pcm_frames_ptr 0 totalFramesRead (format p) (channels p))
              (pBuffer (rb p)) off mappedFrameCount (format p) (channels p) in
          let '(result, p) := ma_pcm_rb_commit_read p mappedFrameCount in
          if negb (result =? MA_SUCCESS) then Some (p, out, totalFramesRead)
          else on_read_loop fuel p out (totalFramesRead + mappedFrameCount) frameCount
    end
  else Some (p, out, totalFramesRead).

(** Returns the result, the ring, [pFramesOut] and [*pFramesRead]. *)
Definition ma_pcm_rb_data_source__on_read (fuel : nat) (p : ma_pcm_rb) (pFramesOut : list Z)
    (frameCount : Z) : option (ma_result * ma_pcm_rb * list Z * Z) :=
  match on_read_loop fuel p pFramesOut 0 frameCount with
  | None => None
  | Some (p, out, totalFramesRead) =>
      if totalFramesRead <? frameCount then
        Some (MA_SUCCESS, p,
              ma_silence_pcm_frames out
                (ma_offset_pcm_frames_ptr 0 totalFramesRead (format p) (channels p))
                (frameCount - totalFramesRead) (format p) (channels p),
              frameCount)
      else Some (MA_SUCCESS, p, out, totalFramesRead)
  end.

(** ** The duplex ring *)

Definition ma_calculate_frame_count_after_resampling
    (sampleRateOut sampleRateIn frameCountIn : Z) : Z :=
  if (sampleRateIn =? 0) || (sampleRateOut =? 0) || (frameCountIn =? 0) then 0
  else if sampleRateOut =? sampleRateIn then frameCountIn
  else
    let outputFrameCount := u64 (frameCountIn * sampleRateOut) / sampleRateIn in
    let preliminaryInputFrameCountFromFrac :=
      u64 (outputFrameCount * (sampleRateIn / sampleRateOut)) / sampleRateOut in
    let preliminaryInputFrameCount :=
      u64 (u64 (outputFrameCount * (sampleRateIn mod sampleRateOut))
           + preliminaryInputFrameCountFromFrac) in
    if preliminaryInputFrameCount <=? frameCountIn
    then u64 (outputFrameCount + 1) else outputFrameCount.

Definition ma_duplex_rb_init (malloc : Z -> bool) (captureFormat : ma_format)
    (captureChannels rate captureInternalSampleRate captureInternalPeriodSizeInFrames : Z)
    (callbacks : option ma_allocation_callbacks) (p0 : ma_pcm_rb) : ma_result * ma_pcm_rb :=
  let sizeInFrames :=
    u32 (ma_calculate_frame_count_after_resampling rate captureInternalSampleRate
           (u32 (captureInternalPeriodSizeInFrames * 5))) in
  if sizeInFrames =? 0 then (MA_INVALID_ARGS, p0)
  else
    let '(result, p) :=
      ma_pcm_rb_init malloc captureFormat captureChannels sizeInFrames None callbacks p0 in
    if negb (result =? MA_SUCCESS) then (result, p)
    else
      (MA_SUCCESS,
       snd (ma_pcm_rb_seek_write p (u32 (captureInternalPeriodSizeInFrames * 2)))).

(** ** Abstract state *)

(** Both cursors sit on frame boundaries. *)
Record pcm_wf (p : ma_pcm_rb) : Prop := {
  pw_rb : rb_wf (rb p);
  pw_clear : clearOnWriteAcquire (rb p) = false;
  pw_bpf : 0 < ma_pcm_rb_get_bpf p;
  pw_size : (ma_pcm_rb_get_bpf p | subbufferSizeInBytes (rb p));
  pw_r : (ma_pcm_rb_get_bpf p | r_off (rb p));
  pw_w : (ma_pcm_rb_get_bpf p | w_off (rb p)) }.

Definition pcm_content (p : ma_pcm_rb) : list Z := rb_content (rb p).
Definition pcm_frames (p : ma_pcm_rb) : Z := rb_avail (rb p) / ma_pcm_rb_get_bpf p.
Definition pcm_capacity (p : ma_pcm_rb) : Z :=
  subbufferSizeInBytes (rb p) / ma_pcm_rb_get_bpf p.
Definition pcm_space (p : ma_pcm_rb) : Z := pcm_capacity p - pcm_frames p.

Lemma divide_avail p :
  pcm_wf p -> (ma_pcm_rb_get_bpf p | rb_avail (rb p))
  /\ (ma_pcm_rb_get_bpf p | rb_contig_read (rb p))
  /\ (ma_pcm_rb_get_bpf p | rb_contig_write (rb p)).
Proof.
  intros [_ _ _ Hs Hr Hw]. unfold rb_avail, rb_contig_read, rb_contig_write.
  destruct (same_lap (rb p)); split_and!;
    repeat first [assumption|apply Z.divide_sub_r|apply Z.divide_add_r].
Qed.

(** A divisible quantity in exact multiples, for [nia]-free arithmetic. *)
Lemma divide_exact b x : 0 < b -> (b | x) -> x = x / b * b.
Proof. intros Hb [q ->]. by rewrite Z.div_mul by lia. Qed.

Lemma min_mult n x b : 0 < b -> (b | x) -> Z.min (n * b) x / b = Z.min n (x / b).
Proof.
  intros Hb [q ->]. rewrite Z.div_mul by lia. destruct (Z.le_ge_cases n q).
  - rewrite !Z.min_l by nia. by rewrite Z.div_mul by lia.
  - rewrite !Z.min_r by nia. by rewrite Z.div_mul by lia.
Qed.

Lemma zlen_pcm_content p : pcm_wf p -> zlen (pcm_content p) = pcm_frames p * ma_pcm_rb_get_bpf p.
Proof.
  intros Hp. unfold pcm_content, pcm_frames. rewrite zlen_rb_content by apply Hp.
  apply divide_exact; [apply Hp|by apply divide_avail].
Qed.

Lemma pcm_frames_bounds p :
  pcm_wf p -> 0 <= pcm_frames p <= pcm_capacity p /\ 0 < pcm_capacity p.
Proof.
  intros Hp. pose proof (pw_bpf _ Hp). pose proof (wf_ranges _ (pw_rb _ Hp)) as (_ & _ & ? & _).
  pose proof (rb_avail_bounds _ (pw_rb _ Hp)) as (? & ? & _).
  unfold pcm_frames, pcm_capacity. split; [split|].
  - apply Z.div_pos; lia.
  - apply Z.div_le_mono; lia.
  - pose proof (pw_size _ Hp) as Hd. apply Z.divide_pos_le in Hd; [|lia]. apply Z.div_str_pos. lia.
Qed.

(** ** Specifications in frames *)

Section frame_specs.
Context (p : ma_pcm_rb) (Hp : pcm_wf p).
#[local] Abbreviation bpf := (ma_pcm_rb_get_bpf p).

Lemma ma_pcm_rb_acquire_read_eq n :
  0 <= n -> n * bpf < 2 ^ 32 ->
  ma_pcm_rb_acquire_read p n
  = (MA_SUCCESS, Z.min n (rb_contig_read (rb p) / bpf), r_off (rb p)).
Proof.
  intros Hn Hlt. destruct Hp as [Hwf _ Hb _ _ _].
  pose proof (rb_avail_bounds _ Hwf) as ([? ?] & ? & _).
  pose proof (wf_ranges _ Hwf) as (_ & _ & ? & _).
  destruct (divide_avail _ Hp) as (_ & Hd & _).
  unfold ma_pcm_rb_acquire_read. unfold u32. rewrite (wrapu_id 32 (n * bpf)) by (unfold in_u; nia).
  rewrite ma_rb_acquire_read_eq by (done || nia). cbn -[Z.mul Z.div].
  rewrite min_mult by done. rewrite wrapu_id; [done|].
  assert (0 <= rb_contig_read (rb p) / bpf) by (apply Z.div_pos; lia).
  split; [lia|]. apply Z.le_lt_trans with n; [lia|nia].
Qed.

Lemma ma_pcm_rb_acquire_write_eq n :
  0 <= n -> n * bpf < 2 ^ 32 ->
  ma_pcm_rb_acquire_write p n
  = (MA_SUCCESS, Z.min n (rb_contig_write (rb p) / bpf), w_off (rb p), p).
Proof.
  intros Hn Hlt. destruct Hp as [Hwf Hcl Hb _ _ _].
  pose proof (rb_avail_bounds _ Hwf) as (_ & ? & [? ?]).
  pose proof (wf_ranges _ Hwf) as (_ & _ & ? & _).
  destruct (divide_avail _ Hp) as (_ & _ & Hd).
  unfold ma_pcm_rb_acquire_write. unfold u32.
  rewrite (wrapu_id 32 (n * bpf)) by (unfold in_u; nia).
  rewrite ma_rb_acquire_write_eq by (done || nia). cbn -[Z.mul Z.div].
  rewrite min_mult by done.
  assert (Hid : with_rb p (rb p) = p) by (by destruct p). rewrite Hid, wrapu_id; [done|].
  assert (0 <= rb_contig_write (rb p) / bpf) by (apply Z.div_pos; lia).
  split; [lia|]. apply Z.le_lt_trans with n; [lia|nia].
Qed.

Lemma divide_mod_sum a n size :
  0 < size -> (bpf | size) -> (bpf | a) -> (bpf | (a + n * bpf) mod size).
Proof.
  intros Hs Hd Ha. rewrite Z.mod_eq by lia.
  apply Z.divide_sub_r; [apply Z.divide_add_r; [done|by exists n]|].
  by apply Z.divide_mul_l.
Qed.

(** A cursor moved by whole frames stays on a frame boundary. *)
Lemma ma_pcm_rb_commit_read_spec n :
  0 <= n -> n * bpf <= rb_contig_read (rb p) ->
  exists p', ma_pcm_rb_commit_read p n = (MA_SUCCESS, p') /\ pcm_wf p'
    /\ pcm_content p' = drop (Z.to_nat (n * bpf)) (pcm_content p)
    /\ pcm_frames p' = pcm_frames p - n /\ pcm_capacity p' = pcm_capacity p
    /\ p' = with_rb p (rb p') /\ pBuffer (rb p') = pBuffer (rb p).
Proof.
  intros Hn Hle. destruct Hp as [Hwf Hcl Hb Hs Hr Hw].
  pose proof (rb_avail_bounds _ Hwf) as ([? ?] & ? & _).
  pose proof (wf_ranges _ Hwf) as (? & ? & ? & Hrf & _).
  destruct (ma_rb_commit_read_spec (rb p) (n * bpf) Hwf) as (r' & E & Hwf' & Hc & Heq);
    [nia|].
  pose proof (ma_rb_commit_read_off (rb p) (n * bpf) r' Hwf ltac:(nia) E) as Ho.
  unfold ma_pcm_rb_commit_read. unfold u32.
  rewrite wrapu_id by (unfold in_u; nia). rewrite E.
  assert (Hsz : subbufferSizeInBytes r' = subbufferSizeInBytes (rb p)) by (by rewrite Heq).
  assert (Hav : rb_avail r' = rb_avail (rb p) + (- n) * bpf).
  { rewrite <- !zlen_rb_content, Hc by done.
    pose proof (zlen_rb_content _ Hwf). unfold zlen in *. rewrite length_drop.
    set (z := n * bpf) in *. lia. }
  exists (with_rb p r'). split; [done|]. split; [split|split_and!]; simpl; try done.
  - by rewrite Heq.
  - change (bpf | subbufferSizeInBytes r'). by rewrite Hsz.
  - change (bpf | r_off r'). rewrite Ho. apply divide_mod_sum; [lia|done..].
  - rewrite Heq. exact Hw.
  - unfold pcm_frames. simpl. change (ma_pcm_rb_get_bpf (with_rb p r')) with bpf.
    rewrite Hav, Z.div_add by lia. lia.
  - unfold pcm_capacity. simpl. change (ma_pcm_rb_get_bpf (with_rb p r')) with bpf.
    by rewrite Hsz.
  - by rewrite Heq.
Qed.

Lemma ma_pcm_rb_commit_write_spec n d :
  0 <= n -> n * bpf <= rb_contig_write (rb p) -> zlen d = n * bpf ->
  exists p', ma_pcm_rb_commit_write
      (with_rb p (with_buffer (rb p) (wr (pBuffer (rb p)) (w_off (rb p)) d))) n
      = (MA_SUCCESS, p') /\ pcm_wf p'
    /\ pcm_content p' = pcm_content p ++ d
    /\ pcm_frames p' = pcm_frames p + n /\ pcm_capacity p' = pcm_capacity p.
Proof.
  intros Hn Hle Hd. destruct Hp as [Hwf Hcl Hb Hs Hr Hw].
  pose proof (rb_avail_bounds _ Hwf) as ([? ?] & ? & [? ?]).
  pose proof (wf_ranges _ Hwf) as (? & ? & ? & _ & Hwfl).
  destruct (ma_rb_commit_write_spec (rb p) d Hwf) as (r' & E & Hwf' & Hc & Heq); [lia|].
  set (b := with_buffer (rb p) (wr (pBuffer (rb p)) (w_off (rb p)) d)) in *.
  assert (Hb' : rb_wf b).
  { apply rb_wf_with_buffer; [done|]. pose proof (wf_buf _ Hwf). pose proof (wf_lap _ Hwf).
    unfold rb_contig_write in *. apply zlen_wr; [lia|]. destruct (same_lap (rb p)); lia. }
  rewrite Hd in E.
  assert (Hle' : 0 <= n * bpf <= rb_contig_write b) by (split; [nia|exact Hle]).
  change (rb_contig_write b) with (rb_contig_write (rb p)) in Hle'.
  pose proof (ma_rb_commit_write_off b (n * bpf) r' Hb' Hle' E) as Ho.
  unfold ma_pcm_rb_commit_write. change (ma_pcm_rb_get_bpf (with_rb p b)) with bpf. unfold u32.
  rewrite wrapu_id by cint. simpl rb. rewrite E.
  assert (Hsz : subbufferSizeInBytes r' = subbufferSizeInBytes (rb p)) by (by rewrite Heq).
  assert (Hav : rb_avail r' = rb_avail (rb p) + n * bpf).
  { by rewrite <- !zlen_rb_content, Hc, zlen_app, Hd by done. }
  exists (with_rb (with_rb p b) r'). split; [done|].
  split; [split|split_and!]; simpl; try done.
  - by rewrite Heq.
  - change (bpf | subbufferSizeInBytes r'). by rewrite Hsz.
  - rewrite Heq. exact Hr.
  - change (bpf | w_off r'). rewrite Ho. apply divide_mod_sum; [simpl; lia|done..].
  - unfold pcm_frames. simpl. change (ma_pcm_rb_get_bpf (with_rb _ r')) with bpf.
    rewrite Hav, Z.div_add by lia. done.
  - unfold pcm_capacity. simpl. change (ma_pcm_rb_get_bpf (with_rb _ r')) with bpf.
    by rewrite Hsz.
Qed.
End frame_specs.

(** ** [ma_pcm_rb] implements the frame ring interface *)

#[export] Instance pcm_frame_ring : FrameRing ma_pcm_rb := {
  acquire_read := ma_pcm_rb_acquire_read;
  commit_read := ma_pcm_rb_commit_read;
  acquire_write := ma_pcm_rb_acquire_write;
  commit_write := ma_pcm_rb_commit_write;
  available_read := ma_pcm_rb_available_read;
  ring_mem p := pBuffer (rb p);
  set_ring_mem p m := with_rb p (with_buffer (rb p) m) }.

Lemma div_pos_iff b x : 0 < b -> (b | x) -> 0 <= x -> (x / b = 0 <-> x = 0).
Proof. intros Hb [q ->] Hx. rewrite Z.div_mul by lia. nia. Qed.

(** A ring of [bpf]-byte frames that is in use. *)
Definition pcm_ok (bpf : Z) (p : ma_pcm_rb) : Prop := pcm_wf p /\ ma_pcm_rb_get_bpf p = bpf.

Lemma pcm_law_read bpf p n :
  pcm_ok bpf p -> 0 <= n -> n * bpf < 2 ^ 32 ->
  exists k off, ma_pcm_rb_acquire_read p n = (MA_SUCCESS, k, off)
    /\ 0 <= k <= n /\ k <= pcm_frames p /\ (k = 0 -> n = 0 \/ pcm_frames p = 0)
    /\ rd (pBuffer (rb p)) off (k * bpf) = take (Z.to_nat (k * bpf)) (pcm_content p)
    /\ exists p', ma_pcm_rb_commit_read p k = (MA_SUCCESS, p') /\ pcm_ok bpf p'
         /\ pcm_content p' = drop (Z.to_nat (k * bpf)) (pcm_content p)
         /\ pcm_frames p' = pcm_frames p - k /\ pcm_space p' = pcm_space p + k.
Proof.
  intros [Hp <-] Hn Hlt. pose proof (pw_bpf _ Hp) as Hb. pose proof (pw_rb _ Hp) as Hwf.
  destruct (divide_avail _ Hp) as (Hda & Hdr & _).
  pose proof (rb_avail_bounds _ Hwf) as ([? ?] & ? & _).
  assert (0 <= rb_contig_read (rb p) / ma_pcm_rb_get_bpf p) by (apply Z.div_pos; lia).
  set (c := rb_contig_read (rb p) / ma_pcm_rb_get_bpf p) in *.
  assert (Hc : rb_contig_read (rb p) = c * ma_pcm_rb_get_bpf p) by (by apply divide_exact).
  assert (Hle : Z.min n c * ma_pcm_rb_get_bpf p <= rb_contig_read (rb p))
    by (rewrite Hc; apply Z.mul_le_mono_nonneg_r; lia).
  exists (Z.min n c), (r_off (rb p)).
  split; [by apply ma_pcm_rb_acquire_read_eq|].
  split; [lia|]. split.
  { assert (c <= pcm_frames p); [apply Z.div_le_mono; lia|lia]. }
  split.
  { intros Hz. assert (n = 0 \/ c = 0) as [?|Hc0] by lia; [by left|right].
    apply div_pos_iff; [done..|lia|]. pose proof (rb_contig_read_pos _ Hwf). nia. }
  split; [apply rb_contig_read_content; [done|nia]|].
  destruct (ma_pcm_rb_commit_read_spec p Hp (Z.min n c)) as (p' & E & Hp' & ? & Hf & Hcap & Heq & _);
    [lia|done|].
  exists p'. split; [done|]. split; [split; [done|by rewrite Heq]|].
  split; [done|]. split; [done|]. unfold pcm_space. lia.
Qed.

Lemma pcm_law_write bpf p n :
  pcm_ok bpf p -> 0 <= n -> n * bpf < 2 ^ 32 ->
  exists k off, ma_pcm_rb_acquire_write p n = (MA_SUCCESS, k, off, p)
    /\ 0 <= k <= n /\ k <= pcm_space p /\ (k = 0 -> n = 0 \/ pcm_space p = 0)
    /\ forall d, zlen d = k * bpf ->
       exists p', ma_pcm_rb_commit_write
           (with_rb p (with_buffer (rb p) (wr (pBuffer (rb p)) off d))) k = (MA_SUCCESS, p')
         /\ pcm_ok bpf p' /\ pcm_content p' = pcm_content p ++ d
         /\ pcm_frames p' = pcm_frames p + k /\ pcm_space p' = pcm_space p - k.
Proof.
  intros [Hp <-] Hn Hlt. pose proof (pw_bpf _ Hp) as Hb. pose proof (pw_rb _ Hp) as Hwf.
  destruct (divide_avail _ Hp) as (Hda & _ & Hdw).
  pose proof (rb_avail_bounds _ Hwf) as ([? ?] & ? & [? ?]).
  assert (0 <= rb_contig_write (rb p) / ma_pcm_rb_get_bpf p) by (apply Z.div_pos; lia).
  set (c := rb_contig_write (rb p) / ma_pcm_rb_get_bpf p) in *.
  assert (Hc : rb_contig_write (rb p) = c * ma_pcm_rb_get_bpf p) by (by apply divide_exact).
  pose proof (divide_exact _ _ Hb Hda) as Ha. pose proof (divide_exact _ _ Hb (pw_size _ Hp)) as Hs.
  fold (pcm_frames p) in Ha. fold (pcm_capacity p) in Hs.
  assert (Hle : Z.min n c * ma_pcm_rb_get_bpf p <= rb_contig_write (rb p))
    by (rewrite Hc; apply Z.mul_le_mono_nonneg_r; lia).
  exists (Z.min n c), (w_off (rb p)).
  split; [by apply ma_pcm_rb_acquire_write_eq|]. split; [lia|]. unfold pcm_space.
  split; [assert (c <= pcm_capacity p - pcm_frames p); [nia|lia]|].
  split.
  { intros Hz. assert (n = 0 \/ c = 0) as [?|Hc0] by lia; [by left|right].
    pose proof (rb_contig_write_pos _ Hwf). nia. }
  intros d Hd.
  destruct (ma_pcm_rb_commit_write_spec p Hp (Z.min n c) d) as (p' & E & Hp' & ? & Hf & Hcap);
    [lia|done..|].
  exists p'. split; [done|]. split; [split; [done|]|].
  - unfold ma_pcm_rb_commit_write in E. destruct (ma_rb_commit_write _ _). by simplify_eq.
  - split; [done|]. split; lia.
Qed.

Lemma pcm_law_frames bpf p :
  pcm_ok bpf p -> 0 <= pcm_frames p /\ zlen (pcm_content p) = pcm_frames p * bpf.
Proof. intros [Hp <-]. split; [by apply pcm_frames_bounds|by apply zlen_pcm_content]. Qed.

Lemma pcm_law_space bpf p : pcm_ok bpf p -> 0 <= pcm_space p.
Proof. intros [Hp <-]. pose proof (pcm_frames_bounds _ Hp). unfold pcm_space. lia. Qed.

Lemma pcm_law_small bpf p : pcm_ok bpf p -> (pcm_frames p + pcm_space p) * bpf < 2 ^ 31.
Proof.
  intros [Hp <-]. pose proof (divide_exact _ _ (pw_bpf _ Hp) (pw_size _ Hp)) as Hs.
  pose proof (wf_size _ (pw_rb _ Hp)) as Hm. unfold maxSubBufferSize, MA_SIMD_ALIGNMENT in Hm.
  unfold pcm_space, pcm_capacity. rewrite Zplus_minus, <- Hs. lia.
Qed.

Lemma pcm_law_available bpf p : pcm_ok bpf p -> ma_pcm_rb_available_read p = pcm_frames p.
Proof.
  intros [Hp <-]. unfold ma_pcm_rb_available_read.
  by rewrite ma_rb_available_read_eq by apply Hp.
Qed.

#[export] Instance pcm_frame_ring_laws bpf (Hb : TCEq (0 <? bpf) true) :
    FrameRingLaws ma_pcm_rb bpf := {
  ring_ok := pcm_ok bpf;
  ring_content := pcm_content;
  ring_frames := pcm_frames;
  ring_space := pcm_space;
  law_bpf := proj1 (Z.ltb_lt 0 bpf) (proj1 (TCEq_eq _ _) Hb);
  law_frames := pcm_law_frames bpf;
  law_space := pcm_law_space bpf;
  law_small := pcm_law_small bpf;
  law_available := pcm_law_available bpf;
  law_read := pcm_law_read bpf;
  law_write := pcm_law_write bpf }.

(** ** A freshly initialised ring *)

(** The byte ring [ma_pcm_rb_init] builds for [size] frames of [b] bytes. *)
Definition fresh_ring (size : Z) : ma_rb :=
  mk_ma_rb (zrep (ma_align size MA_SIMD_ALIGNMENT) 0) size 1
    (ma_align size MA_SIMD_ALIGNMENT) 0 0 true false.

Lemma fresh_ring_wf size :
  0 < size <= maxSubBufferSize -> rb_wf (fresh_ring size) /\ rb_content (fresh_ring size) = [].
Proof.
  intros Hs. apply rb_wf_fresh; [done|].
  pose proof (ma_align_spec size 5 ltac:(lia)
    ltac:(unfold maxSubBufferSize, MA_SIMD_ALIGNMENT in *; cint)) as [Hal _].
  change (2 ^ 5) with MA_SIMD_ALIGNMENT in *. rewrite zlen_zrep; lia.
Qed.

Lemma ma_pcm_rb_init_eq malloc fmt chans size p0 :
  let b := ma_get_bytes_per_frame fmt chans in
  0 < b -> 0 < size -> size * b <= maxSubBufferSize -> (forall n, malloc n = true) ->
  ma_pcm_rb_init malloc fmt chans size None None p0
  = (MA_SUCCESS, mk_pcm_rb (snd (ma_data_source_init (Some true))) (fresh_ring (size * b))
                   fmt chans 0).
Proof.
  intros b Hb Hs Hm Hmalloc. unfold ma_pcm_rb_init, ma_pcm_rb_init_ex. fold b.
  rewrite (proj2 (Z.eqb_neq b 0)) by lia. unfold u32 at 1 2.
  rewrite wrapu_id by (unfold maxSubBufferSize, MA_SIMD_ALIGNMENT in *; unfold in_u; nia).
  rewrite Z.mul_0_l. change (wrapu 32 0) with 0.
  rewrite ma_rb_init_ex_spec, Hmalloc, Z.mul_1_l by nia. done.
Qed.

Lemma fresh_pcm_ok d size fmt chans rate :
  let b := ma_get_bytes_per_frame fmt chans in
  0 < b -> 0 < size -> size * b <= maxSubBufferSize ->
  let p := mk_pcm_rb d (fresh_ring (size * b)) fmt chans rate in
  pcm_ok b p /\ pcm_content p = [] /\ pcm_frames p = 0 /\ pcm_capacity p = size.
Proof.
  intros b Hb Hs Hm p.
  destruct (fresh_ring_wf (size * b)) as [Hwf Hc]; [nia|].
  split; [split; [split; simpl|done]|split_and!]; try done.
  - by exists size.
  - apply Z.divide_0_r.
  - apply Z.divide_0_r.
  - unfold pcm_capacity. simpl. apply Z.div_mul. unfold ma_pcm_rb_get_bpf. simpl. fold b. lia.
Qed.

(** ** The data source reads what is there and pads with silence *)

Lemma on_read_loop_spec b fuel p out total count :
  pcm_ok b p -> 0 <= total <= count -> count * b < 2 ^ 32 -> count * b <= zlen out ->
  Z.min (count - total) (pcm_frames p) < Z.of_nat fuel ->
  let m := Z.min (count - total) (pcm_frames p) in
  exists p', on_read_loop fuel p out total count
      = Some (p', wr out (total * b) (take (Z.to_nat (m * b)) (pcm_content p)), total + m)
    /\ pcm_ok b p' /\ pcm_content p' = drop (Z.to_nat (m * b)) (pcm_content p)
    /\ pcm_frames p' = pcm_frames p - m /\ format p' = format p /\ channels p' = channels p.
Proof.
  revert p out total. induction fuel as [|fuel IH]; intros p out total Hok Ht Hlt Hlen Hfuel m.
  { destruct (pcm_law_frames _ _ Hok). lia. }
  assert (Hb : 0 < b) by (destruct Hok as [Hp <-]; apply Hp).
  destruct (pcm_law_frames _ _ Hok) as [Hfr Hcl]. cbn [on_read_loop].
  destruct (Z.ltb_spec total count) as [Hlt'|Hge].
  2: { exists p. replace m with 0 by lia. rewrite Z.mul_0_l, take_0, drop_0, wr_nil, Z.add_0_r.
       split_and!; try done. lia. }
  assert (0 < (count - total) * b) by (apply Z.mul_pos_pos; lia).
  assert ((count - total) * b <= count * b) by (apply Z.mul_le_mono_nonneg_r; lia).
  assert (count - total <= (count - total) * b) by (apply Z.le_mul_diag_r; lia).
  destruct (Z.gtb_spec (count - total) 0xFFFFFFFF); [cint|].
  unfold u32. rewrite (wrapu_id 32 (count - total)) by cint.
  destruct (pcm_law_read b p (count - total) Hok) as
    (k & off & -> & Hk & Hkf & Hk0 & Hrd & p' & E & Hok' & Hc' & Hf' & _); [lia..|].
  simpl negb. cbv iota.
  destruct (Z.eqb_spec k 0) as [->|Hk1].
  { assert (m = 0) as -> by lia. exists p.
    rewrite Z.mul_0_l, take_0, drop_0, wr_nil, Z.add_0_r. split_and!; try done. lia. }
  rewrite E. simpl negb. cbv iota.
  assert (Hbpf : ma_get_bytes_per_frame (format p) (channels p) = b) by apply Hok.
  assert (Hfc : format p' = format p /\ channels p' = channels p).
  { unfold ma_pcm_rb_commit_read in E. destruct (ma_rb_commit_read _ _). by simplify_eq. }
  assert (k * b <= m * b) by (apply Z.mul_le_mono_nonneg_r; lia).
  assert (m * b <= (count - total) * b) by (apply Z.mul_le_mono_nonneg_r; lia).
  unfold ma_copy_pcm_frames, ma_offset_pcm_frames_ptr. rewrite Hbpf.
  assert (0 <= total * b <= count * b)
    by (split; [apply Z.mul_nonneg_nonneg; lia|apply Z.mul_le_mono_nonneg_r; lia]).
  assert (0 < k * b) by (apply Z.mul_pos_pos; lia).
  unfold u64. rewrite !wrapu_id by cint. rewrite Hrd, Z.add_0_l.
  assert (m * b <= pcm_frames p * b) by (apply Z.mul_le_mono_nonneg_r; lia).
  assert (Htk : zlen (take (Z.to_nat (k * b)) (pcm_content p)) = k * b)
    by (rewrite zlen_take by lia; lia).
  assert (total * b + k * b <= count * b) by lia.
  destruct (IH p' (wr out (total * b) (take (Z.to_nat (k * b)) (pcm_content p))) (total + k) Hok')
    as (p2 & E2 & Hok2 & Hc2 & Hf2 & Hfmt & Hch); [lia|done|rewrite zlen_wr; lia|lia|].
  replace (Z.min (count - (total + k)) (pcm_frames p')) with (m - k) in * by lia.
  exists p2. rewrite E2. destruct Hfc as [Hfc1 Hfc2]. split_and!; [|done| |lia|congruence..].
  - f_equal. f_equal; [|lia]. f_equal.
    replace ((total + k) * b) with (total * b + k * b) by lia. rewrite <- Htk at 2.
    rewrite Hc'. rewrite wr_wr_adj.
    + f_equal. replace ((m - k) * b) with (m * b - k * b) by lia.
      rewrite take_take_drop by lia. f_equal. f_equal. lia.
    + lia.
    + rewrite Htk, zlen_take, zlen_drop by lia. lia.
  - rewrite Hc2, Hc', drop_drop_Z by lia. f_equal. f_equal. lia.
Qed.

(** ** Properties *)

(** The byte [ma_silence_pcm_frames] fills with. *)
Definition silence_byte (fmt : ma_format) : Z := if decide (fmt = ma_format_u8) then 128 else 0.

Lemma ma_silence_pcm_frames_eq m off n fmt chans :
  0 <= chans -> ma_get_bytes_per_sample fmt * chans < 2 ^ 32 ->
  0 <= n -> n * ma_get_bytes_per_frame fmt chans < 2 ^ 32 ->
  ma_silence_pcm_frames m off n fmt chans
  = wr m off (zrep (n * ma_get_bytes_per_frame fmt chans) (silence_byte fmt)).
Proof.
  intros Hc Hlt Hn Hnb. unfold ma_silence_pcm_frames, silence_byte. unfold ma_get_bytes_per_frame in *.
  assert (0 <= ma_get_bytes_per_sample fmt * chans) by (destruct fmt; simpl; lia).
  unfold u32, u64 in *. rewrite (wrapu_id 32) in * by cint.
  destruct (decide (fmt = ma_format_u8)) as [->|]; simpl ma_get_bytes_per_sample in *.
  - rewrite !Z.mul_1_l in *. rewrite wrapu_id; [done|]. unfold in_u. nia.
  - rewrite wrapu_id; [done|]. unfold in_u. nia.
Qed.

(** The data source never reports an end: a request of [count] frames always
    yields [count] frames, the buffered ones first and in order, then silence
    (128 for 8-bit samples), and exactly the frames returned leave the ring.
    The loop ends within one pass per frame. *)
Theorem ma_pcm_rb_on_read_correct b p out count fuel :
  pcm_ok b p -> 0 <= channels p -> ma_get_bytes_per_sample (format p) * channels p < 2 ^ 32 ->
  0 <= count -> count * b < 2 ^ 32 -> zlen out = count * b -> pcm_frames p < Z.of_nat fuel ->
  let m := Z.min count (pcm_frames p) in
  exists p', ma_pcm_rb_data_source__on_read fuel p out count
    = Some (MA_SUCCESS, p',
            take (Z.to_nat (m * b)) (pcm_content p)
              ++ zrep ((count - m) * b) (silence_byte (format p)), count)
    /\ pcm_ok b p' /\ pcm_content p' = drop (Z.to_nat (m * b)) (pcm_content p).
Proof.
  intros Hok Hch Hbps Hc Hlt Hout Hfuel m. destruct (pcm_law_frames _ _ Hok) as [Hfr Hcl].
  assert (Hb : 0 < b) by (destruct Hok as [Hp <-]; apply Hp).
  unfold ma_pcm_rb_data_source__on_read.
  destruct (on_read_loop_spec b fuel p out 0 count Hok) as (p' & -> & Hok' & Hcon & _ & Hf & Hchs);
    [lia|done|lia|lia|].
  rewrite Z.sub_0_r, Z.add_0_l, Z.mul_0_l. fold m.
  assert (Hmb : m * b <= count * b) by (apply Z.mul_le_mono_nonneg_r; lia).
  assert (Hmf : m * b <= pcm_frames p * b) by (apply Z.mul_le_mono_nonneg_r; lia).
  assert (H0m : 0 <= m * b) by (apply Z.mul_nonneg_nonneg; lia).
  assert (Htk : zlen (take (Z.to_nat (m * b)) (pcm_content p)) = m * b)
    by (rewrite zlen_take by lia; lia).
  exists p'. split; [|split; [done|by rewrite Hcon, Z.sub_0_r]].
  destruct (Z.ltb_spec m count) as [Hml|Hge].
  - rewrite Hf, Hchs. unfold ma_offset_pcm_frames_ptr.
    change (ma_get_bytes_per_frame (format p) (channels p)) with (ma_pcm_rb_get_bpf p).
    destruct Hok as [Hp Hbp]. unfold u64. rewrite Hbp, wrapu_id by cint.
    assert (Hrest : (count - m) * b = count * b - m * b) by lia.
    rewrite ma_silence_pcm_frames_eq;
      change (ma_get_bytes_per_frame (format p) (channels p)) with (ma_pcm_rb_get_bpf p);
      rewrite ?Hbp; [|lia..].
    set (tk := take (Z.to_nat (m * b)) (pcm_content p)) in *.
    replace (0 + m * b) with (0 + zlen tk) by lia.
    rewrite wr_wr_adj by (rewrite ?Htk, ?zlen_zrep by lia; lia).
    rewrite wr_full; [done|]. rewrite zlen_app, Htk, zlen_zrep by lia. lia.
  - replace (count - m) with 0 by lia. assert (m = count) as Hmc by lia.
    rewrite Z.mul_0_l, app_nil_r, wr_full by (rewrite Htk, Hmc; done).
    by rewrite Hmc.
Qed.

(** A mono 16-bit ring of three frames with one frame in it. *)
Definition demo_pcm : ma_pcm_rb :=
  mk_pcm_rb (snd (ma_data_source_init (Some true)))
    (mk_ma_rb (zrep 32 7) 6 1 6 4 (2 ^ 31 + 0) true false) ma_format_s16 1 0.

Lemma demo_pcm_ok : pcm_ok 2 demo_pcm.
Proof.
  split; [|done]. split; [split; vm_decide|done|vm_decide|..].
  - exists 3. vm_decide.
  - exists 2. vm_decide.
  - exists 0. vm_decide.
Qed.

Lemma ma_pcm_rb_on_read_correct_witness :
  exists p', ma_pcm_rb_data_source__on_read 2 demo_pcm (zrep 6 99) 3
    = Some (MA_SUCCESS, p', [7; 7; 0; 0; 0; 0], 3)
    /\ pcm_ok 2 p' /\ pcm_content p' = [].
Proof.
  apply (ma_pcm_rb_on_read_correct 2 demo_pcm (zrep 6 99) 3 2);
    [apply demo_pcm_ok|vm_decide..].
Defined.

(** The write cursor [ma_duplex_rb_init] leaves on a fresh ring of [s] bytes. *)
Lemma seek_write_fresh s n :
  0 < s <= maxSubBufferSize -> 0 <= n < 2 ^ 31 ->
  ma_rb_seek_write (fresh_ring s) n
  = (MA_SUCCESS, with_write (fresh_ring s)
       (if n >=? s then ma_rb__construct_offset (n - s) (2 ^ 31)
        else ma_rb__construct_offset n 0)).
Proof.
  intros Hs Hn. unfold ma_rb_seek_write. unfold maxSubBufferSize, MA_SIMD_ALIGNMENT in Hs.
  change (ma_rb__deconstruct_offset (encodedReadOffset (fresh_ring s))) with (0, 0).
  change (ma_rb__deconstruct_offset (encodedWriteOffset (fresh_ring s))) with (0, 0).
  change (subbufferSizeInBytes (fresh_ring s)) with s. cbv beta iota zeta.
  rewrite Z.eqb_refl, Z.add_0_l. unfold u64, u32.
  rewrite (wrapu_id 64 n), (wrapu_id 32 n) by cint.
  destruct (Z.geb_spec n s); [|done].
  by rewrite (wrapu_id 32 (n - s)) by cint.
Qed.

(** Moving the write cursor of a fresh ring by at most its size exposes that
    many zero bytes; moving it further leaves the buffer. *)
Lemma seek_write_fresh_spec s n :
  0 < s <= maxSubBufferSize -> 0 <= n < 2 ^ 31 ->
  exists r, ma_rb_seek_write (fresh_ring s) n = (MA_SUCCESS, r)
    /\ subbufferSizeInBytes r = s /\ clearOnWriteAcquire r = false /\ r_off r = 0
    /\ (rb_wf r <-> n <= s)
    /\ (n <= s -> w_off r = n mod s /\ rb_avail r = n /\ rb_content r = zrep n 0).
Proof.
  intros Hs Hn. rewrite seek_write_fresh by done. eexists; split; [reflexivity|].
  destruct (fresh_ring_wf s Hs) as [Hwf _].
  assert (Hal : s <= ma_align s MA_SIMD_ALIGNMENT).
  { pose proof (wf_buf _ Hwf) as H. simpl in H. rewrite zlen_zrep in H; [done|].
    unfold ma_align. apply Z.land_nonneg. left. apply wrapu_range. lia. }
  set (r := with_write _ _).
  assert (Hr : r_off r = 0 /\ r_flag r = 0) by done. destruct Hr as [Hr Hrf].
  assert (HF : is_flag 0 /\ is_flag (2 ^ 31)) by (split; [by left|by right]).
  destruct HF as [HF0 HF1]. split_and!; [done..| |].
  - split.
    + intros H. pose proof (wf_lap _ H) as Hlap. unfold same_lap in Hlap. revert Hlap.
      rewrite Hr, Hrf. subst r. destruct (Z.geb_spec n s); [|lia].
      rewrite w_flag_with_write, w_off_with_write by (done || lia). simpl. lia.
    + intros Hle. subst r. destruct (Z.geb_spec n s).
      * apply rb_wf_with_write; [done|simpl; lia|done|]. simpl.
        change (r_off (fresh_ring s)) with 0. lia.
      * apply rb_wf_with_write; [done|simpl; lia|done|]. simpl.
        change (r_off (fresh_ring s)) with 0. lia.
  - intros Hle. unfold rb_avail, rb_content, same_lap. rewrite Hr, Hrf. subst r.
    destruct (Z.geb_spec n s).
    + rewrite w_flag_with_write, w_off_with_write by (done || lia).
      assert (n = s) as -> by lia. rewrite Z_mod_same_full. simpl.
      rewrite !Z.sub_0_r, Z.sub_diag, rd_zrep by lia.
      split_and!; [done|lia|by rewrite rd_0, app_nil_r].
    + rewrite w_flag_with_write, w_off_with_write by (done || lia).
      rewrite Z.mod_small by lia. simpl. rewrite !Z.sub_0_r, rd_zrep by lia. done.
Qed.

(** The capacity in frames that [ma_duplex_rb_init] computes. *)
Definition duplex_capacity (rate internalRate period : Z) : Z :=
  u32 (ma_calculate_frame_count_after_resampling rate internalRate (u32 (period * 5))).

(** Initialising the duplex ring succeeds and skips two capture periods of
    the zeroed buffer, as a reserve against a late producer.  The result is a valid ring holding
    exactly those frames of silence if and only if two periods fit in the capacity
    computed from five resampled periods: nothing checks that they do. *)
Theorem ma_duplex_rb_init_reserve fmt chans rate internalRate period p0 :
  let b := ma_get_bytes_per_frame fmt chans in
  let size := duplex_capacity rate internalRate period in
  0 < b -> 0 < size -> size * b <= maxSubBufferSize -> 0 < period -> period * 2 * b < 2 ^ 31 ->
  exists p, ma_duplex_rb_init (fun _ => true) fmt chans rate internalRate period None p0
      = (MA_SUCCESS, p)
    /\ (pcm_ok b p <-> period * 2 <= size)
    /\ (period * 2 <= size ->
        pcm_capacity p = size /\ pcm_frames p = period * 2
        /\ pcm_content p = zrep (period * 2 * b) 0).
Proof.
  intros b size Hb Hs Hm Hp Hpb. unfold ma_duplex_rb_init.
  change (u32 (ma_calculate_frame_count_after_resampling rate internalRate (u32 (period * 5))))
    with size.
  rewrite (proj2 (Z.eqb_neq size 0)) by lia.
  rewrite ma_pcm_rb_init_eq by done. fold b. simpl negb. cbv iota.
  unfold ma_pcm_rb_seek_write. set (d := snd (ma_data_source_init _)).
  change (ma_pcm_rb_get_bpf _) with b. cbn [rb]. unfold u32.
  assert (Hn : 0 <= period * 2 * b) by (apply Z.mul_nonneg_nonneg; lia).
  assert (period * 2 <= period * 2 * b) by (apply Z.le_mul_diag_r; lia).
  rewrite (wrapu_id 32 (period * 2)), wrapu_id by cint.
  assert (Hsb : 0 < size * b <= maxSubBufferSize) by (split; [by apply Z.mul_pos_pos|done]).
  destruct (seek_write_fresh_spec (size * b) (period * 2 * b) Hsb) as
    (r & -> & Hsz & Hcl & Hro & Hwf & Hle); [lia|].
  assert (Hiff : period * 2 * b <= size * b <-> period * 2 <= size)
    by (symmetry; by apply Z.mul_le_mono_pos_r).
  eexists; split; [reflexivity|]. split.
  - rewrite <- Hiff, <- Hwf. split; [intros [[Hw _ _ _ _ _] _]; exact Hw|].
    intros Hw. split; [|done]. destruct Hle as (Hwo & _); [by apply Hwf|].
    split; try done; change (ma_pcm_rb_get_bpf _) with b; cbn [rb snd with_rb].
    + rewrite Hsz. by exists size.
    + rewrite Hro. apply Z.divide_0_r.
    + rewrite Hwo, Z.mul_mod_distr_r by lia. by eexists.
  - intros Hps. destruct Hle as (_ & Hav & Hcon); [by apply Hiff|].
    unfold pcm_capacity, pcm_frames, pcm_content. cbn [rb snd with_rb].
    change (ma_pcm_rb_get_bpf _) with b. rewrite Hsz, Hav, Hcon.
    rewrite !Z.div_mul by lia. done.
Qed.

(** 48 kHz captured into an 8 kHz client in periods of 480: the capacity is 401
    frames and the cursor moves 960. *)
Lemma ma_duplex_rb_init_reserve_witness :
  exists p, ma_duplex_rb_init (fun _ => true) ma_format_s16 1 8000 48000 480 None ma_pcm_rb_zero
      = (MA_SUCCESS, p) /\ (pcm_ok 2 p <-> 480 * 2 <= 401).
Proof.
  destruct (ma_duplex_rb_init_reserve ma_format_s16 1 8000 48000 480 ma_pcm_rb_zero)
    as (p & E & H & _); [vm_decide..|].
  exists p. split; [exact E|].
  change (duplex_capacity 8000 48000 480) with (u32 401) in H. exact H.
Defined.

(** A frame count whose size in bytes is a multiple of [2 ^ 32] is granted as
    zero frames, so a request larger than the ring is answered as if the ring were
    empty, although frames are buffered. *)
Theorem ma_pcm_rb_acquire_read_wraps p n :
  pcm_wf p -> 0 <= n < 2 ^ 32 -> (n * ma_pcm_rb_get_bpf p) mod 2 ^ 32 = 0 ->
  ma_pcm_rb_acquire_read p n = (MA_SUCCESS, 0, r_off (rb p)).
Proof.
  intros Hp Hn Hmod. unfold ma_pcm_rb_acquire_read.
  change (u32 (n * ma_pcm_rb_get_bpf p)) with ((n * ma_pcm_rb_get_bpf p) mod 2 ^ 32).
  rewrite Hmod, ma_rb_acquire_read_eq by (first [apply Hp|lia]).
  pose proof (rb_avail_bounds _ (pw_rb _ Hp)) as (? & ? & ?).
  pose proof (pw_bpf _ Hp). rewrite Z.min_l by lia. simpl. by rewrite Zdiv_0_l.
Qed.

(** One frame of two bytes is buffered; [2 ^ 31] frames are granted as none. *)
Lemma ma_pcm_rb_acquire_read_wraps_witness :
  pcm_frames demo_pcm = 1 /\ ma_pcm_rb_acquire_read demo_pcm (2 ^ 31) = (MA_SUCCESS, 0, 4).
Proof.
  split; [reflexivity|].
  refine (ma_pcm_rb_acquire_read_wraps demo_pcm (2 ^ 31) (proj1 demo_pcm_ok) _ _); vm_decide.
Defined.
