(* ===== verification/CFloat.v ===== *)
(** * IEEE 754 arithmetic of the C types [float] and [double]

    Values are the [spec_float]s of the kernel's floating-point specification:
    round-to-nearest-even arithmetic at 24 and 53 bits of precision, without NaN
    payloads.  A conversion that C leaves undefined (NaN or an integer part out
    of range) returns [None]. *)
From Stdlib Require Import ZArith Lia Bool SpecFloat.
From stdpp Require Import base numbers list option.
From S2P Require Import Prelude.

Local Open Scope Z_scope.

#[export] Instance spec_float_eq_dec : EqDecision spec_float.
Proof. solve_decision. Defined.

(** ** Bit patterns: [mw] bits of significand below [ew] bits of exponent *)

Section encoding.
Context (mw ew : Z).

Definition sf_prec : Z := mw + 1.
Definition sf_emax : Z := 2 ^ (ew - 1).
Definition sf_emin : Z := emin sf_prec sf_emax.

Definition sf_of_bits (b : Z) : spec_float :=
  let s := negb (b / 2 ^ (mw + ew) mod 2 =? 0) in
  let e := b / 2 ^ mw mod 2 ^ ew in
  let m := b mod 2 ^ mw in
  if e =? 0 then
    match m with Z.pos p => S754_finite s p sf_emin | _ => S754_zero s end
  else if e =? 2 ^ ew - 1 then if m =? 0 then S754_infinity s else S754_nan
  else
    match m + 2 ^ mw with
    | Z.pos p => S754_finite s p (e - 1 + sf_emin)
    | _ => S754_nan
    end.

Definition sf_sign_bit (s : bool) : Z := if s then 2 ^ (mw + ew) else 0.

(** NaN is written as the quiet NaN with an empty payload. *)
Definition bits_of_sf (f : spec_float) : Z :=
  match f with
  | S754_zero s => sf_sign_bit s
  | S754_infinity s => sf_sign_bit s + (2 ^ ew - 1) * 2 ^ mw
  | S754_nan => (2 ^ ew - 1) * 2 ^ mw + 2 ^ (mw - 1)
  | S754_finite s m e =>
      if Z.pos m <? 2 ^ mw then sf_sign_bit s + Z.pos m
      else sf_sign_bit s + (e - sf_emin + 1) * 2 ^ mw + (Z.pos m - 2 ^ mw)
  end.
End encoding.

Definition f32_of_bits := sf_of_bits 23 8.
Definition bits_of_f32 := bits_of_sf 23 8.
Definition f64_of_bits := sf_of_bits 52 11.
Definition bits_of_f64 := bits_of_sf 52 11.

(** ** Arithmetic *)

Definition f32_add := SFadd 24 128.
Definition f32_sub := SFsub 24 128.
Definition f32_mul := SFmul 24 128.
Definition f32_div := SFdiv 24 128.
Definition f64_add := SFadd 53 1024.
Definition f64_sub := SFsub 53 1024.
Definition f64_mul := SFmul 53 1024.
Definition f64_div := SFdiv 53 1024.

(** [x < y] and [x > y]; both false on NaN. *)
Definition flt := SFltb.
Definition fgt (x y : spec_float) : bool := SFltb y x.

(** ** Conversions *)

Definition f32_of_Z (z : Z) : spec_float := binary_normalize 24 128 z 0 false.
Definition f64_of_Z (z : Z) : spec_float := binary_normalize 53 1024 z 0 false.

Definition sf_convert (prec emax : Z) (f : spec_float) : spec_float :=
  match f with
  | S754_finite s m e => binary_normalize prec emax (cond_Zopp s (Z.pos m)) e s
  | _ => f
  end.

Definition f64_of_f32 := sf_convert 53 1024.
Definition f32_of_f64 := sf_convert 24 128.

(** The integer part, rounding towards zero. *)
Definition sf_trunc (f : spec_float) : option Z :=
  match f with
  | S754_zero _ => Some 0
  | S754_finite s m e =>
      Some (cond_Zopp s (if 0 <=? e then Z.pos m * 2 ^ e else Z.pos m / 2 ^ (- e)))
  | _ => None
  end.

Definition sf_to_s (w : Z) (f : spec_float) : option Z :=
  match sf_trunc f with
  | Some z => if in_sb w z then Some z else None
  | None => None
  end.

Definition sf_to_u (w : Z) (f : spec_float) : option Z :=
  match sf_trunc f with
  | Some z => if in_ub w z then Some z else None
  | None => None
  end.

(** The literal [n / d], correctly rounded. *)
Definition sf_lit (prec emax n d : Z) : spec_float :=
  let '(mz, ez, lz) := SFdiv_core_binary prec emax n 0 d 0 in
  binary_round_aux prec emax false mz ez lz.

Definition f32_lit := sf_lit 24 128.
Definition f64_lit := sf_lit 53 1024.

Definition f32_one : spec_float := f32_of_Z 1.
Definition f32_mone : spec_float := f32_of_Z (-1).
Definition f32_zero : spec_float := S754_zero false.

(** ** Little-endian words *)

Fixpoint le_bytes (n : nat) (z : Z) : list Z :=
  match n with
  | O => []
  | S n => z mod 256 :: le_bytes n (z / 256)
  end.

Fixpoint le_word (l : list Z) : Z :=
  match l with
  | [] => 0
  | b :: l => b + 256 * le_word l
  end.

Lemma zlen_le_bytes n z : zlen (le_bytes n z) = Z.of_nat n.
Proof.
  revert z. induction n as [|n IH]; intros z; [done|].
  cbn [le_bytes]. rewrite zlen_cons, IH. lia.
Qed.

Lemma le_word_bytes n z : le_word (le_bytes n z) = z mod 256 ^ Z.of_nat n.
Proof.
  revert z. induction n as [|n IH]; intros z; [by rewrite Z.mod_1_r|].
  cbn [le_bytes le_word]. rewrite IH, Nat2Z.inj_succ, Z.pow_succ_r by lia.
  rewrite Z.rem_mul_r; [done|lia|]. apply Z.pow_pos_nonneg; lia.
Qed.

Lemma le_bytes_range n z b : In b (le_bytes n z) -> in_u 8 b.
Proof.
  revert z. induction n as [|n IH]; intros z; [done|].
  intros [<-|H]; [|by eapply IH]. apply Z.mod_pos_bound. lia.
Qed.

Lemma le_bytes_word l :
  Forall (in_u 8) l -> le_bytes (length l) (le_word l) = l.
Proof.
  induction 1 as [|b l Hb Hl IH]; [done|]. cbn [length le_bytes le_word].
  unfold in_u in Hb. change (2 ^ 8) with 256 in Hb.
  rewrite (Z.mul_comm 256), Z.mod_add, Z.div_add by lia.
  rewrite Z.mod_small, Z.div_small, Z.add_0_l, IH by lia. done.
Qed.

Lemma le_word_range l : Forall (in_u 8) l -> 0 <= le_word l < 256 ^ zlen l.
Proof.
  induction 1 as [|b l Hb Hl IH]; [done|]. cbn [le_word]. rewrite zlen_cons.
  unfold in_u in Hb. change (2 ^ 8) with 256 in Hb.
  rewrite Z.pow_add_r by (pose proof (zlen_nonneg l); lia). lia.
Qed.

(** ** Rounding never invents a NaN *)

Lemma shr_1_nonneg r : 0 <= shr_m r -> 0 <= shr_m (shr_1 r).
Proof. destruct r as [[|[]|[]] ? ?]; simpl; lia. Qed.

Lemma iter_shr_nonneg n r : 0 <= shr_m r -> 0 <= shr_m (SpecFloat.iter_pos shr_1 n r).
Proof. revert r. induction n; simpl; auto using shr_1_nonneg. Qed.

Lemma shr_fexp_nonneg p em m e l : 0 <= m -> 0 <= shr_m (fst (shr_fexp p em m e l)).
Proof.
  intros Hm. unfold shr_fexp, shr.
  assert (H : 0 <= shr_m (shr_record_of_loc m l)) by (by destruct l as [|[]]).
  case_match; simpl; auto using iter_shr_nonneg.
Qed.

Lemma round_nearest_even_nonneg m l : 0 <= m -> 0 <= round_nearest_even m l.
Proof. intros. destruct l as [|[]]; simpl; repeat case_match; lia. Qed.

Definition is_nan (f : spec_float) : bool := match f with S754_nan => true | _ => false end.
Definition is_finite (f : spec_float) : bool :=
  match f with S754_zero _ | S754_finite _ _ _ => true | _ => false end.

Lemma binary_round_aux_not_nan p em s m e l :
  0 <= m -> is_nan (binary_round_aux p em s m e l) = false.
Proof.
  intros Hm. unfold binary_round_aux.
  pose proof (shr_fexp_nonneg p em m e l Hm) as H1.
  destruct (shr_fexp p em m e l) as [r1 e1]. simpl in H1.
  pose proof (shr_fexp_nonneg p em _ e1 loc_Exact
                (round_nearest_even_nonneg _ (loc_of_shr_record r1) H1)) as H2.
  destruct (shr_fexp p em (round_nearest_even _ _) e1 loc_Exact) as [r2 e2]. simpl in H2.
  destruct (shr_m r2); [done|by case_match|lia].
Qed.

Lemma binary_normalize_not_nan p em m e s : is_nan (binary_normalize p em m e s) = false.
Proof.
  destruct m; [done|unfold binary_normalize, binary_round..]; case_match;
    by apply binary_round_aux_not_nan.
Qed.

Lemma SFadd_not_nan p em x y :
  is_finite x = true -> is_finite y = true -> is_nan (SFadd p em x y) = false.
Proof.
  destruct x as [[]|[]| |[] ? ?], y as [[]|[]| |[] ? ?]; intros Hx Hy;
    first [done|apply binary_normalize_not_nan].
Qed.

Lemma SFmul_not_nan p em x y :
  is_finite x = true -> is_finite y = true -> is_nan (SFmul p em x y) = false.
Proof.
  destruct x, y; intros Hx Hy; first [done|by apply binary_round_aux_not_nan].
Qed.

(** ** Order *)

Lemma SFcompare_none x y : SFcompare x y = None -> is_nan x = true \/ is_nan y = true.
Proof. destruct x as [[]|[]| |[] ? ?], y as [[]|[]| |[] ? ?]; simpl; auto; discriminate. Qed.

Lemma SFcompare_swap x y : SFcompare y x = option_map CompOpp (SFcompare x y).
Proof.
  destruct x as [[]|[]| |[] m1 e1], y as [[]|[]| |[] m2 e2]; try done; simpl;
    rewrite (Z.compare_antisym e1 e2); destruct (Z.compare e1 e2); simpl; try done;
    change (Pos.compare_cont Eq m2 m1) with (Pos.compare m2 m1);
    change (Pos.compare_cont Eq m1 m2) with (Pos.compare m1 m2);
    rewrite (Pos.compare_antisym m1 m2); by destruct (Pos.compare m1 m2).
Qed.

Lemma not_lt_leb x y :
  is_nan x = false -> is_nan y = false -> SFltb x y = false -> SFleb y x = true.
Proof.
  intros Hx Hy. unfold SFltb, SFleb. rewrite (SFcompare_swap x y).
  destruct (SFcompare x y) as [[]|] eqn:E; simpl; try done.
  apply SFcompare_none in E. rewrite Hx, Hy in E. by destruct E.
Qed.

(** ** Round trip of the bit patterns *)

Lemma digits2_pos_bounds m :
  2 ^ (Z.pos (digits2_pos m) - 1) <= Z.pos m < 2 ^ Z.pos (digits2_pos m).
Proof.
  induction m as [m IH|m IH|]; cbn [digits2_pos]; [..|done];
    rewrite Pos2Z.inj_succ; unfold Z.succ; rewrite Z.add_simpl_r;
    rewrite (Z.pow_add_r 2 _ 1) by lia;
    assert (E : 2 ^ Z.pos (digits2_pos m) = 2 * 2 ^ (Z.pos (digits2_pos m) - 1))
      by (rewrite <- Z.pow_succ_r by lia; f_equal; lia); lia.
Qed.

Section bits_roundtrip.
Context (mw ew : Z) (Hmw : 0 < mw) (Hew : 1 < ew) (Hem : mw + 3 <= 2 ^ (ew - 1)).
#[local] Abbreviation valid := (valid_binary (sf_prec mw) (sf_emax ew)).
#[local] Abbreviation emn := (sf_emin mw ew).

Lemma valid_finite s m e :
  valid (S754_finite s m e) = true ->
  Z.pos m < 2 ^ (mw + 1) /\ emn <= e <= sf_emax ew - sf_prec mw
  /\ (Z.pos m < 2 ^ mw -> e = emn).
Proof.
  cbn [valid_binary]. unfold bounded, canonical_mantissa. rewrite andb_true_iff.
  intros [E%Z.eqb_eq L%Z.leb_le]. unfold fexp, sf_emin, sf_prec in *.
  set (em := emin _ _) in *. pose proof (digits2_pos_bounds m) as [Hd1 Hd2].
  set (d := Z.pos (digits2_pos m)) in *. assert (d <= mw + 1) by lia.
  split; [|split; [lia|]].
  - eapply Z.lt_le_trans; [exact Hd2|]. apply Z.pow_le_mono_r; lia.
  - intros Hlt. assert (d - 1 < mw) by (apply (Z.pow_lt_mono_r_iff 2); lia). lia.
Qed.

Lemma pow_ew : 2 ^ ew = 2 * sf_emax ew.
Proof. apply pow2_half. lia. Qed.

(** The three fields of a pattern. *)
Lemma sf_fields s e m :
  0 <= m < 2 ^ mw -> 0 <= e < 2 ^ ew ->
  let b := sf_sign_bit mw ew s + e * 2 ^ mw + m in
  negb (b / 2 ^ (mw + ew) mod 2 =? 0) = s /\ b / 2 ^ mw mod 2 ^ ew = e /\ b mod 2 ^ mw = m
  /\ 0 <= b < 2 ^ (mw + ew + 1).
Proof.
  intros Hm He b. subst b. unfold sf_sign_bit.
  rewrite (Z.pow_add_r 2 _ 1), Z.pow_add_r, <- Z.div_div by lia.
  change (2 ^ 1) with 2.
  assert (0 <= e * 2 ^ mw + m < 2 ^ mw * 2 ^ ew) by nia.
  assert (E : (e * 2 ^ mw + m) / 2 ^ mw = e)
    by (rewrite Z.div_add_l, Z.div_small by lia; lia).
  destruct s.
  - replace (2 ^ mw * 2 ^ ew + e * 2 ^ mw + m) with ((2 ^ ew + e) * 2 ^ mw + m) by lia.
    rewrite Z.div_add_l, (Z.div_small m), Z.add_0_r by lia.
    replace (2 ^ ew + e) with (1 * 2 ^ ew + e) at 1 2 by lia.
    rewrite Z.div_add_l, (Z.div_small e) by lia.
    rewrite (Z.add_comm (1 * 2 ^ ew) e), Z.mod_add, (Z.mod_small e) by lia.
    rewrite (Z.add_comm _ m), Z.mod_add, (Z.mod_small m) by lia. split_and!; [done..|nia|].
    replace ((2 ^ ew + e) * 2 ^ mw) with (2 ^ mw * 2 ^ ew + e * 2 ^ mw) by lia. lia.
  - rewrite Z.add_0_l, E, Z.div_small, (Z.mod_small e) by lia.
    rewrite (Z.add_comm _ m), Z.mod_add, (Z.mod_small m) by lia. split_and!; [done..|nia|lia].
Qed.

Lemma sf_of_fields s e m :
  0 <= m < 2 ^ mw -> 0 <= e < 2 ^ ew ->
  sf_of_bits mw ew (sf_sign_bit mw ew s + e * 2 ^ mw + m) =
    if e =? 0 then
      match m with Z.pos p => S754_finite s p emn | _ => S754_zero s end
    else if e =? 2 ^ ew - 1 then if m =? 0 then S754_infinity s else S754_nan
    else
      match m + 2 ^ mw with
      | Z.pos p => S754_finite s p (e - 1 + emn)
      | _ => S754_nan
      end.
Proof.
  intros Hm He. destruct (sf_fields s e m Hm He) as (E1 & E2 & E3 & _).
  unfold sf_of_bits. by rewrite E1, E2, E3.
Qed.

Lemma sf_bits_roundtrip f :
  valid f = true -> sf_of_bits mw ew (bits_of_sf mw ew f) = f.
Proof.
  assert (0 < 2 ^ mw) by (by apply Z.pow_pos_nonneg; lia).
  assert (1 < 2 ^ ew) by (apply Z.pow_gt_1; lia).
  destruct f as [s|s| |s m e]; intros Hv; unfold bits_of_sf.
  - pose proof (sf_of_fields s 0 0) as E. rewrite Z.mul_0_l, !Z.add_0_r in E.
    apply E; lia.
  - pose proof (sf_of_fields s (2 ^ ew - 1) 0) as E. rewrite Z.add_0_r in E.
    rewrite E by lia. rewrite (proj2 (Z.eqb_neq _ 0)) by lia. by rewrite !Z.eqb_refl.
  - pose proof (sf_of_fields false (2 ^ ew - 1) (2 ^ (mw - 1))) as E.
    cbn [sf_sign_bit] in E. rewrite Z.add_0_l in E.
    assert (0 < 2 ^ (mw - 1) < 2 ^ mw)
      by (split; [apply Z.pow_pos_nonneg; lia|apply Z.pow_lt_mono_r; lia]).
    rewrite E, !(proj2 (Z.eqb_neq _ 0)), Z.eqb_refl by lia. done.
  - destruct (valid_finite _ _ _ Hv) as (Hm & He & Hsub).
    rewrite Z.pow_add_r in Hm by lia.
    destruct (Z.ltb_spec (Z.pos m) (2 ^ mw)) as [Hlt|Hge].
    + rewrite (Hsub Hlt). pose proof (sf_of_fields s 0 (Z.pos m)) as E.
      rewrite Z.mul_0_l, Z.add_0_r in E. apply E; lia.
    + pose proof pow_ew. unfold sf_emin, emin, sf_prec in *.
      rewrite sf_of_fields by lia.
      rewrite !(proj2 (Z.eqb_neq _ _)) by lia.
      replace (Z.pos m - 2 ^ mw + 2 ^ mw) with (Z.pos m) by lia. f_equal. unfold sf_emin, emin, sf_prec. lia.
Qed.

Lemma bits_of_sf_range f :
  valid f = true -> in_u (mw + ew + 1) (bits_of_sf mw ew f).
Proof.
  assert (0 < 2 ^ mw) by (by apply Z.pow_pos_nonneg; lia).
  assert (1 < 2 ^ ew) by (apply Z.pow_gt_1; lia).
  assert (0 < 2 ^ (mw - 1) < 2 ^ mw)
    by (split; [apply Z.pow_pos_nonneg; lia|apply Z.pow_lt_mono_r; lia]).
  destruct f as [s|s| |s m e]; intros Hv; unfold bits_of_sf, in_u.
  - pose proof (sf_fields s 0 0) as E. rewrite Z.mul_0_l, !Z.add_0_r in E. apply E; lia.
  - pose proof (sf_fields s (2 ^ ew - 1) 0) as E. rewrite !Z.add_0_r in E. apply E; lia.
  - pose proof (sf_fields false (2 ^ ew - 1) (2 ^ (mw - 1))) as E. apply E; lia.
  - destruct (valid_finite _ _ _ Hv) as (Hm & He & Hsub).
    rewrite (Z.pow_add_r 2 mw 1) in Hm by lia.
    destruct (Z.ltb_spec (Z.pos m) (2 ^ mw)) as [Hlt|Hge].
    + pose proof (sf_fields s 0 (Z.pos m)) as E. rewrite Z.mul_0_l, !Z.add_0_r in E.
      apply E; lia.
    + pose proof pow_ew. unfold sf_emin, emin, sf_prec in *.
      eapply (sf_fields s (e - _ + 1) (Z.pos m - 2 ^ mw)); unfold sf_emin, emin, sf_prec; lia.
Qed.
End bits_roundtrip.

(** ** Every operation yields a number of its format

    [valid_binary] is the canonical-representation predicate of the kernel's
    specification; stored samples decode to valid numbers and arithmetic keeps
    them valid. *)

Lemma Zdigits2_spec m : 0 < m -> 2 ^ (Zdigits2 m - 1) <= m < 2 ^ Zdigits2 m.
Proof. destruct m as [|m|m]; [lia| |lia]. intros _. apply digits2_pos_bounds. Qed.

Lemma Zdigits2_nonneg m : 0 <= Zdigits2 m.
Proof. destruct m; simpl; lia. Qed.

Lemma Zdigits2_unique m d : 0 < d -> 2 ^ (d - 1) <= m < 2 ^ d -> Zdigits2 m = d.
Proof.
  intros Hd Hm. assert (0 < 2 ^ (d - 1)) by (apply Z.pow_pos_nonneg; lia).
  pose proof (Zdigits2_spec m ltac:(lia)) as [H1 H2]. pose proof (Zdigits2_nonneg m).
  assert (d - 1 < Zdigits2 m) by (apply (Z.pow_lt_mono_r_iff 2); lia).
  assert (Zdigits2 m - 1 < d) by (apply (Z.pow_lt_mono_r_iff 2); lia). lia.
Qed.

Lemma shr_1_div r : 0 <= shr_m r -> shr_m (shr_1 r) = shr_m r / 2.
Proof.
  destruct r as [[|[p|p|]|p] ? ?]; simpl shr_m; intros; try done; try lia;
    first [apply (Z.div_unique _ _ _ 1); lia|apply (Z.div_unique _ _ _ 0); lia].
Qed.

Lemma iter_shr_div n r :
  0 <= shr_m r -> shr_m (SpecFloat.iter_pos shr_1 n r) = shr_m r / 2 ^ Z.pos n.
Proof.
  revert r. induction n as [n IH|n IH|]; intros r Hr; cbn [SpecFloat.iter_pos].
  - rewrite !IH, shr_1_div, !Z.div_div by auto using iter_shr_nonneg, shr_1_nonneg with lia.
    replace (Z.pos n~1) with (1 + (Z.pos n + Z.pos n)) by lia.
    by rewrite !Z.pow_add_r by lia.
  - rewrite !IH, Z.div_div by auto using iter_shr_nonneg with lia.
    replace (Z.pos n~0) with (Z.pos n + Z.pos n) by lia.
    by rewrite Z.pow_add_r by lia.
  - by apply shr_1_div.
Qed.

Section validity.
Context (prec emax : Z) (Hprec : 0 < prec) (Hemax : prec < emax).
#[local] Abbreviation fx := (fexp prec emax).
#[local] Abbreviation valid := (valid_binary prec emax).

Lemma shr_fexp_spec m e l :
  0 <= m -> e <= fx (Zdigits2 m + e) ->
  let e' := fx (Zdigits2 m + e) in
  snd (shr_fexp prec emax m e l) = e'
  /\ shr_m (fst (shr_fexp prec emax m e l)) = m / 2 ^ (e' - e).
Proof.
  intros Hm He e'. unfold shr_fexp, shr. fold e'.
  assert (E : shr_m (shr_record_of_loc m l) = m) by (by destruct l as [|[]]).
  destruct (e' - e) as [|n|n] eqn:En; cbn [fst snd].
  - by rewrite E, Z.div_1_r by lia; split; [lia|].
  - split; [lia|]. rewrite iter_shr_div; rewrite E; done.
  - lia.
Qed.

(** The quotient that a shift to the format's exponent leaves is canonical. *)
Lemma shr_digits m e :
  0 < m -> e <= fx (Zdigits2 m + e) ->
  let e' := fx (Zdigits2 m + e) in
  let m' := m / 2 ^ (e' - e) in
  (0 < m' /\ fx (Zdigits2 m' + e') = e') \/ (m' = 0 /\ e' = emin prec emax).
Proof.
  intros Hm He e' m'. pose proof (Zdigits2_spec m Hm) as [H1 H2].
  set (d := Zdigits2 m) in *. assert (Hd : 0 < d).
  { destruct (Z.lt_ge_cases 0 d); [done|]. pose proof (Zdigits2_nonneg m).
    assert (d = 0) as Hd0 by lia. rewrite Hd0 in H2. simpl in H2. lia. }
  destruct (Z.lt_ge_cases (e' - e) d) as [Hlt|Hge].
  - left. assert (Hm' : 2 ^ (d - (e' - e) - 1) <= m' < 2 ^ (d - (e' - e))).
    { subst m'. split.
      - apply Z.div_le_lower_bound; [apply Z.pow_pos_nonneg; lia|].
        rewrite <- Z.pow_add_r by lia. etrans; [|exact H1]. apply Z.pow_le_mono_r; lia.
      - apply Z.div_lt_upper_bound; [apply Z.pow_pos_nonneg; lia|].
        rewrite <- Z.pow_add_r by lia. eapply Z.lt_le_trans; [exact H2|].
        apply Z.pow_le_mono_r; lia. }
    assert (0 < 2 ^ (d - (e' - e) - 1)) by (apply Z.pow_pos_nonneg; lia).
    split; [lia|]. rewrite (Zdigits2_unique m' (d - (e' - e))) by (done || lia).
    replace (d - (e' - e) + e') with (d + e) by lia. done.
  - right. split.
    + apply Z.div_small. split; [lia|]. eapply Z.lt_le_trans; [exact H2|].
      apply Z.pow_le_mono_r; lia.
    + subst e'. unfold fexp in *. lia.
Qed.

Lemma binary_round_aux_valid s m e l :
  0 <= m -> e <= fx (Zdigits2 m + e) -> valid (binary_round_aux prec emax s m e l) = true.
Proof.
  intros Hm He. unfold binary_round_aux.
  destruct (shr_fexp_spec m e l Hm He) as [E1 E2].
  destruct (shr_fexp prec emax m e l) as [r1 e1]. cbn [fst snd] in E1, E2.
  set (m2 := round_nearest_even (shr_m r1) (loc_of_shr_record r1)).
  assert (Hm1 : 0 <= shr_m r1) by (rewrite E2; apply Z.div_pos; [|apply Z.pow_pos_nonneg]; lia).
  assert (Hm2 : shr_m r1 <= m2 <= shr_m r1 + 1)
    by (subst m2; destruct (loc_of_shr_record r1) as [|[]]; simpl; repeat case_match; lia).
  assert (He1 : m2 = 0 \/ (0 < m2 /\ e1 <= fx (Zdigits2 m2 + e1))).
  { destruct (decide (m2 = 0)); [by left|right]. split; [lia|].
    destruct (decide (m = 0)) as [->|Hm0].
    { rewrite Z.div_0_l in E2 by (apply Z.pow_nonzero; lia).
      change (Zdigits2 0) with 0 in *. unfold fexp in *. lia. }
    destruct (shr_digits m e ltac:(lia) He) as [[Hp Hc]|[Hz Hc]]; rewrite <- E1, <- E2 in *.
    - rewrite <- Hc at 1. unfold fexp.
      assert (Zdigits2 (shr_m r1) <= Zdigits2 m2); [|lia].
      pose proof (Zdigits2_spec (shr_m r1) Hp). pose proof (Zdigits2_spec m2 ltac:(lia)).
      pose proof (Zdigits2_nonneg m2).
      assert (Zdigits2 (shr_m r1) - 1 < Zdigits2 m2); [|lia].
      apply (Z.pow_lt_mono_r_iff 2); lia.
    - rewrite Hc. unfold fexp. lia. }
  destruct He1 as [Hz|[Hp He1]].
  { rewrite Hz. unfold shr_fexp, shr. simpl Zdigits2. simpl shr_record_of_loc.
    destruct (fx (0 + e1) - e1); cbn [fst snd shr_m]; try done.
    assert (Hi : 0 <= shr_m {| shr_m := 0; shr_r := false; shr_s := false |}) by done.
    pose proof (iter_shr_div p _ Hi) as E. cbn [shr_m] in E. rewrite Z.div_0_l in E
      by (apply Z.pow_nonzero; lia). by rewrite E. }
  destruct (shr_fexp_spec m2 e1 loc_Exact ltac:(lia) He1) as [E3 E4].
  destruct (shr_fexp prec emax m2 e1 loc_Exact) as [r2 e2]. cbn [fst snd] in E3, E4.
  destruct (shr_digits m2 e1 Hp He1) as [[Hp2 Hc2]|[Hz2 _]]; rewrite <- E3, <- E4 in *.
  - destruct (shr_m r2) as [|p|p]; [done| |done].
    destruct (Z.leb_spec e2 (emax - prec)); [|done].
    cbn [valid_binary]. unfold bounded, canonical_mantissa.
    cbn [Zdigits2] in Hc2. rewrite Hc2, Z.eqb_refl. cbn [andb]. by apply Z.leb_le.
  - by rewrite Hz2.
Qed.

Lemma binary_normalize_valid m e s : valid (binary_normalize prec emax m e s) = true.
Proof.
  assert (Hr : forall sg p, valid (binary_round prec emax sg p e) = true).
  { intros sg p. unfold binary_round, shl_align.
    set (t := fx (Z.pos (digits2_pos p) + e)).
    destruct (t - e) as [|n|n] eqn:En; [by apply binary_round_aux_valid; simpl; lia..|].
    apply binary_round_aux_valid; [lia|].
    assert (Hpos : Z.pos (Pos.iter xO p n) = Z.pos p * 2 ^ Z.pos n).
    { rewrite <- Z.shiftl_mul_pow2 by lia. by apply (Pos.iter_swap_gen _ _ Z.pos xO (Z.mul 2)). }
    rewrite Hpos, (Zdigits2_unique _ (Z.pos (digits2_pos p) + Z.pos n)); [|lia|].
    - replace (Z.pos (digits2_pos p) + Z.pos n + t) with (Z.pos (digits2_pos p) + e) by lia.
      fold t. lia.
    - pose proof (digits2_pos_bounds p) as [H1 H2].
      replace (Z.pos (digits2_pos p) + Z.pos n - 1) with (Z.pos (digits2_pos p) - 1 + Z.pos n)
        by lia.
      rewrite !Z.pow_add_r by lia. nia. }
  destruct m; [done|apply Hr..].
Qed.

Lemma SFadd_valid x y : valid x = true -> valid y = true -> valid (SFadd prec emax x y) = true.
Proof.
  destruct x as [[]|[]| |s m e], y as [[]|[]| |s' m' e']; intros; first [done|
    apply binary_normalize_valid].
Qed.

Lemma SFsub_valid x y : valid x = true -> valid y = true -> valid (SFsub prec emax x y) = true.
Proof.
  destruct x as [[]|[]| |s m e], y as [[]|[]| |s' m' e']; intros; first [done|
    apply binary_normalize_valid].
Qed.

Lemma valid_digits s m e :
  valid (S754_finite s m e) = true ->
  emin prec emax <= e /\ (Zdigits2 (Z.pos m) = prec \/ e = emin prec emax).
Proof.
  cbn [valid_binary]. unfold bounded, canonical_mantissa. rewrite andb_true_iff.
  intros [E%Z.eqb_eq _]. unfold fexp in E. simpl Zdigits2. lia.
Qed.

(** A product of two numbers of the format is never below the format's grid. *)
Lemma mul_fexp s m e s' m' e' :
  valid (S754_finite s m e) = true -> valid (S754_finite s' m' e') = true ->
  emin prec emax <= 0 -> e + e' <= fx (Zdigits2 (Z.pos (m * m')) + (e + e')).
Proof.
  intros Hx Hy He0.
  destruct (valid_digits _ _ _ Hx) as [He Hd], (valid_digits _ _ _ Hy) as [He' Hd'].
  pose proof (Zdigits2_spec (Z.pos m) ltac:(lia)) as [H1 _].
  pose proof (Zdigits2_spec (Z.pos m') ltac:(lia)) as [H1' _].
  pose proof (Zdigits2_spec (Z.pos (m * m')) ltac:(lia)) as [_ H2].
  assert (Hd1 : 0 < Zdigits2 (Z.pos m)) by (simpl; lia).
  assert (Hd1' : 0 < Zdigits2 (Z.pos m')) by (simpl; lia).
  assert (Zdigits2 (Z.pos m) - 1 + (Zdigits2 (Z.pos m') - 1) < Zdigits2 (Z.pos (m * m'))).
  { apply (Z.pow_lt_mono_r_iff 2); [lia|apply Zdigits2_nonneg|].
    rewrite Z.pow_add_r by lia. eapply Z.le_lt_trans; [|exact H2].
    rewrite Pos2Z.inj_mul. apply Z.mul_le_mono_nonneg; (done || apply Z.pow_nonneg; lia). }
  unfold fexp in *. lia.
Qed.

Lemma SFmul_valid x y :
  emin prec emax <= 0 -> valid x = true -> valid y = true -> valid (SFmul prec emax x y) = true.
Proof.
  intros He0. destruct x as [|?| |s m e], y as [|?| |s' m' e']; intros Hx Hy; try done.
  unfold SFmul. apply binary_round_aux_valid; [lia|]. by eapply mul_fexp.
Qed.
End validity.

Lemma f32_of_bits_valid b : valid_binary 24 128 (f32_of_bits b) = true.
Proof.
  unfold f32_of_bits, sf_of_bits. set (s := negb _). set (e := b / 2 ^ 23 mod 2 ^ 8).
  pose proof (Z.mod_pos_bound b (2 ^ 23) ltac:(lia)) as Hm. set (m := b mod 2 ^ 23) in *.
  pose proof (Z.mod_pos_bound (b / 2 ^ 23) (2 ^ 8) ltac:(lia)) as He. fold e in He.
  change (sf_emin 23 8) with (-149).
  assert (Hv : forall s p x, -149 <= x <= 104 -> Z.pos p < 2 ^ 24 ->
            2 ^ 23 <= Z.pos p \/ x = -149 -> valid_binary 24 128 (S754_finite s p x) = true).
  { clear. intros s p x Hx Hp Hor. cbn [valid_binary]. unfold bounded, canonical_mantissa.
    pose proof (digits2_pos_bounds p) as [H1 H2]. set (d := Z.pos (digits2_pos p)) in *.
    assert (d - 1 < 24) by (apply (Z.pow_lt_mono_r_iff 2); lia).
    assert (2 ^ 23 <= Z.pos p -> 23 < d) by (intros; apply (Z.pow_lt_mono_r_iff 2); lia).
    apply andb_true_iff. split; [apply Z.eqb_eq|apply Z.leb_le; lia].
    unfold fexp, emin. lia. }
  destruct (Z.eqb_spec e 0).
  { destruct m; [done| |lia]. apply Hv; lia. }
  destruct (Z.eqb_spec e (2 ^ 8 - 1)); [by case_match|].
  destruct (m + 2 ^ 23) eqn:Ep; [lia| |lia]. apply Hv; lia.
Qed.

Lemma f32_bits_roundtrip f : valid_binary 24 128 f = true -> f32_of_bits (bits_of_f32 f) = f.
Proof. intros H. apply sf_bits_roundtrip; (done || exact H). Qed.

Lemma bits_of_f32_range f : valid_binary 24 128 f = true -> in_u 32 (bits_of_f32 f).
Proof. intros H. apply (bits_of_sf_range 23 8); (done || exact H). Qed.

Lemma f64_bits_roundtrip f : valid_binary 53 1024 f = true -> f64_of_bits (bits_of_f64 f) = f.
Proof. intros H. apply sf_bits_roundtrip; (done || exact H). Qed.

Lemma bits_of_f64_range f : valid_binary 53 1024 f = true -> in_u 64 (bits_of_f64 f).
Proof. intros H. apply (bits_of_sf_range 52 11); (done || exact H). Qed.

Lemma f32_add_valid x y :
  valid_binary 24 128 x = true -> valid_binary 24 128 y = true ->
  valid_binary 24 128 (f32_add x y) = true.
Proof. by apply SFadd_valid. Qed.

Lemma f32_sub_valid x y :
  valid_binary 24 128 x = true -> valid_binary 24 128 y = true ->
  valid_binary 24 128 (f32_sub x y) = true.
Proof. by apply SFsub_valid. Qed.

Lemma f32_mul_valid x y :
  valid_binary 24 128 x = true -> valid_binary 24 128 y = true ->
  valid_binary 24 128 (f32_mul x y) = true.
Proof. by apply SFmul_valid. Qed.

Lemma f32_of_Z_valid z : valid_binary 24 128 (f32_of_Z z) = true.
Proof. by apply binary_normalize_valid. Qed.

Create HintDb cfloat discriminated.
#[export] Hint Resolve f32_of_bits_valid f32_bits_roundtrip bits_of_f32_range f32_add_valid
  f32_sub_valid f32_mul_valid f32_of_Z_valid : cfloat.
