(* ===== verification/CFloatBounds.v ===== *)
(** * Rounding does not cross a representable bound

    If an exact value is at most [k * 2 ^ j] and that bound is a number of the
    format, so is its rounding; hence the conversions that scale a clipped sample
    stay in the range of the integer type.  Values [m * 2 ^ e] are compared after
    multiplication by a common power of two [2 ^ (- z)]. *)
From Stdlib Require Import ZArith Lia Bool SpecFloat.
From stdpp Require Import base numbers list option.
From S2P Require Import Prelude CFloat.

Local Open Scope Z_scope.

(** [m * 2 ^ e <= k * 2 ^ j], for exponents at least [z]. *)
Definition scaled_le (z m e k j : Z) : Prop := m * 2 ^ (e - z) <= k * 2 ^ (j - z).

Lemma scaled_le_rebase z z' m e k j :
  z' <= z -> z <= e -> z <= j -> (scaled_le z m e k j <-> scaled_le z' m e k j).
Proof.
  intros Hz He Hj. unfold scaled_le.
  replace (e - z') with (e - z + (z - z')) by lia. replace (j - z') with (j - z + (z - z')) by lia.
  rewrite !Z.pow_add_r, !Z.mul_assoc by lia.
  apply Z.mul_le_mono_pos_r. apply Z.pow_pos_nonneg; lia.
Qed.

Lemma scaled_le_trans z a ea b eb c ec :
  scaled_le z a ea b eb -> scaled_le z b eb c ec -> scaled_le z a ea c ec.
Proof. unfold scaled_le. lia. Qed.

(** ** The bits shifted out *)

Definition exact_record (r : shr_record) : Prop := shr_r r = false /\ shr_s r = false.

Lemma shr_1_exact r :
  exact_record r -> 0 <= shr_m r -> shr_m r mod 2 = 0 -> exact_record (shr_1 r).
Proof.
  destruct r as [m r s]. unfold exact_record. simpl. intros [-> ->] Hm H.
  destruct m as [|[p|p|]|p]; try done; try lia; exfalso.
  - rewrite Pos2Z.inj_xI, Z.add_comm, Z.mul_comm, Z.mod_add in H by lia. done.
Qed.

Lemma iter_shr_exact n r :
  exact_record r -> 0 <= shr_m r -> shr_m r mod 2 ^ Z.pos n = 0 ->
  exact_record (SpecFloat.iter_pos shr_1 n r).
Proof.
  revert r. induction n as [n IH|n IH|]; intros r Hr Hm H; cbn [SpecFloat.iter_pos].
  - assert (Hdiv : (2 ^ Z.pos n~1 | shr_m r)) by (apply Z.mod_divide; [apply Z.pow_nonzero; lia|done]).
    destruct Hdiv as [q Hq].
    assert (Hpow : 2 ^ Z.pos n~1 = 2 ^ Z.pos n * 2 ^ Z.pos n * 2).
    { replace (Z.pos n~1) with (Z.pos n + Z.pos n + 1) by lia. by rewrite !Z.pow_add_r by lia. }
    assert (0 < 2 ^ Z.pos n) by (apply Z.pow_pos_nonneg; lia).
    rewrite Hpow in Hq.
    assert (H1 : shr_m (shr_1 r) = q * 2 ^ Z.pos n * 2 ^ Z.pos n).
    { rewrite shr_1_div, Hq by done. rewrite !Z.mul_assoc. by rewrite Z.div_mul by lia. }
    assert (0 <= q) by nia.
    apply IH; [apply IH|..].
    + apply shr_1_exact; [done..|]. rewrite Hq, !Z.mul_assoc. by apply Z.mod_mul.
    + rewrite H1. nia.
    + rewrite H1. by apply Z.mod_mul; lia.
    + rewrite iter_shr_div by (rewrite H1; nia). apply Z.div_pos; [rewrite H1; nia|done].
    + rewrite iter_shr_div by (rewrite H1; nia). rewrite H1, Z.div_mul by lia.
      apply Z.mod_mul. lia.
  - assert (Hdiv : (2 ^ Z.pos n~0 | shr_m r)) by (apply Z.mod_divide; [apply Z.pow_nonzero; lia|done]).
    destruct Hdiv as [q Hq].
    assert (Hpow : 2 ^ Z.pos n~0 = 2 ^ Z.pos n * 2 ^ Z.pos n).
    { replace (Z.pos n~0) with (Z.pos n + Z.pos n) by lia. by rewrite !Z.pow_add_r by lia. }
    assert (0 < 2 ^ Z.pos n) by (apply Z.pow_pos_nonneg; lia).
    rewrite Hpow, Z.mul_assoc in Hq. assert (0 <= q) by nia.
    apply IH; [apply IH|..].
    + done.
    + done.
    + rewrite Hq. apply Z.mod_mul. lia.
    + rewrite iter_shr_div by done. apply Z.div_pos; [done|lia].
    + rewrite iter_shr_div by done. rewrite Hq, Z.div_mul by lia. apply Z.mod_mul. lia.
  - by apply shr_1_exact.
Qed.

Section bounds.
Context (prec emax : Z) (Hprec : 0 < prec) (Hemax : prec < emax).
#[local] Abbreviation fx := (fexp prec emax).
#[local] Abbreviation emn := (emin prec emax).

(** [k * 2 ^ j] is in the format, not necessarily in canonical form. *)
Definition representable (k j : Z) : Prop :=
  0 < k /\ fx (Zdigits2 k + j) <= j /\ j <= emax - prec.

Lemma fexp_mono a b : a <= b -> fx a <= fx b.
Proof. unfold fexp. lia. Qed.

Lemma scaled_digits z m e k j :
  0 < m -> 0 < k -> z <= e -> z <= j -> scaled_le z m e k j ->
  Zdigits2 m + e <= Zdigits2 k + j.
Proof.
  intros Hm Hk He Hj Hle. unfold scaled_le in Hle.
  pose proof (Zdigits2_spec m Hm) as [H1 _]. pose proof (Zdigits2_spec k Hk) as [_ H2].
  pose proof (Zdigits2_nonneg k).
  assert (1 <= Zdigits2 m) by (destruct m; simpl; lia).
  assert (Hlt : 2 ^ (Zdigits2 m - 1 + (e - z)) < 2 ^ (Zdigits2 k + (j - z))).
  { rewrite !Z.pow_add_r by lia.
    assert (0 < 2 ^ (e - z)) by (apply Z.pow_pos_nonneg; lia).
    assert (0 < 2 ^ (j - z)) by (apply Z.pow_pos_nonneg; lia). nia. }
  apply Z.pow_lt_mono_r_iff in Hlt; lia.
Qed.

(** The first shift and the rounding stay below the bound. *)
Lemma round_step_bound z m e k j :
  0 < m -> e <= fx (Zdigits2 m + e) -> representable k j ->
  z <= e -> z <= j -> scaled_le z m e k j ->
  let r := fst (shr_fexp prec emax m e loc_Exact) in
  let e1 := fx (Zdigits2 m + e) in
  let m2 := round_nearest_even (shr_m r) (loc_of_shr_record r) in
  e1 <= j /\ scaled_le z m2 e1 k j.
Proof.
  intros Hm He (Hk & Hkj & Hj) Hze Hzj Hle r e1 m2.
  pose proof (scaled_digits z m e k j Hm Hk Hze Hzj Hle) as Hd.
  assert (He1 : e1 <= j) by (etrans; [apply fexp_mono, Hd|done]).
  split; [done|].
  destruct (shr_fexp_spec prec emax m e loc_Exact ltac:(lia) He) as [_ Hr].
  fold r e1 in Hr. unfold scaled_le in *.
  set (K := k * 2 ^ (j - e1)).
  assert (HK : k * 2 ^ (j - z) = K * 2 ^ (e1 - z)).
  { subst K. rewrite <- Z.mul_assoc, <- Z.pow_add_r by lia. do 2 f_equal. lia. }
  assert (Hpz : 0 < 2 ^ (e - z)) by (apply Z.pow_pos_nonneg; lia).
  assert (Hpn : 0 < 2 ^ (e1 - e)) by (apply Z.pow_pos_nonneg; lia).
  assert (Hsplit : 2 ^ (e1 - z) = 2 ^ (e1 - e) * 2 ^ (e - z))
    by (rewrite <- Z.pow_add_r by lia; f_equal; lia).
  rewrite HK, Hsplit in *.
  assert (HmK : m <= K * 2 ^ (e1 - e)) by nia.
  assert (Hm1 : shr_m r <= K).
  { rewrite Hr. apply Z.div_le_upper_bound; lia. }
  assert (Hm2 : m2 <= K).
  { destruct (Z.lt_ge_cases (shr_m r) K).
    - subst m2. destruct (loc_of_shr_record r) as [|[]]; simpl; repeat case_match; lia.
    - assert (Heq : shr_m r = K) by lia.
      assert (HmK' : m = K * 2 ^ (e1 - e)).
      { pose proof (Z.div_mod m (2 ^ (e1 - e)) ltac:(lia)).
        pose proof (Z.mod_pos_bound m (2 ^ (e1 - e)) Hpn). nia. }
      assert (Hex : exact_record r).
      { subst r. unfold shr_fexp, shr. fold e1. simpl shr_record_of_loc.
        destruct (e1 - e) as [|n|n] eqn:En; simpl; try done.
        apply iter_shr_exact; simpl; [done|lia|]. rewrite HmK'. apply Z.mod_mul. lia. }
      destruct r as [rm rr rs], Hex as [Hrr Hrs]. cbn in Hrr, Hrs. subst rr rs.
      exact (Z.eq_le_incl _ _ Heq). }
  rewrite !Z.mul_assoc. apply Z.mul_le_mono_nonneg_r; [lia|].
  apply Z.mul_le_mono_nonneg_r; lia.
Qed.

(** A rounded value is zero, or finite and below the bound. *)
Definition below (k j : Z) (f : spec_float) : Prop :=
  match f with
  | S754_zero _ => True
  | S754_finite _ m e => scaled_le (Z.min emn j) (Z.pos m) e k j
  | _ => False
  end.

Lemma binary_round_aux_below z s m e k j :
  0 <= m -> e <= fx (Zdigits2 m + e) -> representable k j ->
  z <= e -> z <= j -> z <= emn -> scaled_le z m e k j ->
  below k j (binary_round_aux prec emax s m e loc_Exact).
Proof.
  intros Hm He Hrep Hze Hzj Hzm Hle. destruct (decide (m = 0)) as [->|Hm0].
  { unfold binary_round_aux, shr_fexp, shr. simpl.
    assert (Hz : forall p, SpecFloat.iter_pos shr_1 p {| shr_m := 0; shr_r := false; shr_s := false |}
              = {| shr_m := 0; shr_r := false; shr_s := false |}).
    { intros p. induction p as [p IH|p IH|]; cbn [SpecFloat.iter_pos shr_1 orb]; by rewrite ?IH. }
    destruct (fx (0 + e) - e); simpl; rewrite ?Hz; simpl;
      match goal with |- context [match ?x with 0 => _ | Z.pos _ => _ | Z.neg _ => _ end] =>
        destruct x end; simpl; rewrite ?Hz; done. }
  assert (Hmp : 0 < m) by lia.
  destruct (round_step_bound z m e k j Hmp He Hrep Hze Hzj Hle) as [He1 Hle2].
  destruct (shr_fexp_spec prec emax m e loc_Exact ltac:(lia) He) as [E1 E2].
  unfold binary_round_aux.
  destruct (shr_fexp prec emax m e loc_Exact) as [r1 e1]. cbn [fst snd] in *. subst e1.
  set (e1 := fx (Zdigits2 m + e)) in *.
  set (m2 := round_nearest_even (shr_m r1) (loc_of_shr_record r1)) in *.
  pose proof Hrep as (Hk & Hkj & Hj).
  assert (Hr1 : 0 <= shr_m r1) by (rewrite E2; apply Z.div_pos; [lia|apply Z.pow_pos_nonneg; lia]).
  assert (Hm2 : 0 <= m2) by (by apply round_nearest_even_nonneg).
  assert (Hze1 : z <= e1) by lia.
  destruct (decide (m2 = 0)) as [Hm20|Hm20].
  { rewrite Hm20. unfold shr_fexp, shr. simpl.
    assert (Hz : forall p, shr_m (SpecFloat.iter_pos shr_1 p {| shr_m := 0; shr_r := false; shr_s := false |}) = 0).
    { intros p. rewrite iter_shr_div by done. by rewrite Z.div_0_l by (apply Z.pow_nonzero; lia). }
    destruct (fx (0 + e1) - e1); simpl; rewrite ?Hz; done. }
  assert (Hd2 : Zdigits2 m2 + e1 <= Zdigits2 k + j) by (apply (scaled_digits z); (done || lia)).
  unfold shr_fexp, shr. simpl shr_record_of_loc.
  set (e2 := fx (Zdigits2 m2 + e1)).
  assert (He2 : e2 <= j) by (etrans; [apply fexp_mono, Hd2|done]).
  assert (Hres : forall m3 e3, m3 * 2 ^ (e3 - e1) <= m2 -> e1 <= e3 -> e3 <= Z.max e1 e2 ->
    below k j (match m3 with 0 => S754_zero s
      | Z.pos m0 => if e3 <=? emax - prec then S754_finite s m0 e3 else S754_infinity s
      | Z.neg _ => S754_nan end) \/ m3 < 0).
  { intros [|m3|m3] e3 Hm3 H13 H32; [by left| |right; lia]. left.
    rewrite (proj2 (Z.leb_le _ _)) by lia. cbn [below].
    assert (He1n : emn <= e1) by (unfold e1, fexp; lia).
    apply (scaled_le_rebase (Z.min emn j) z); [lia|lia|lia|].
    eapply scaled_le_trans; [|exact Hle2]. unfold scaled_le.
    replace (e3 - z) with (e3 - e1 + (e1 - z)) by lia. rewrite Z.pow_add_r, Z.mul_assoc by lia.
    apply Z.mul_le_mono_nonneg_r; [apply Z.pow_nonneg; lia|done]. }
  destruct (e2 - e1) as [|n|n] eqn:En; cbn [fst snd shr_m].
  - destruct (Hres m2 e1) as [H|H]; [rewrite Z.sub_diag; lia|lia|lia|exact H|lia].
  - rewrite iter_shr_div by done. cbn [shr_m].
    destruct (Hres (m2 / 2 ^ Z.pos n) (e1 + Z.pos n)) as [H|H]; [|lia|lia|exact H|].
    + replace (e1 + Z.pos n - e1) with (Z.pos n) by lia.
      rewrite Z.mul_comm. apply Z.mul_div_le. apply Z.pow_pos_nonneg; lia.
    + exfalso. pose proof (Z.div_pos m2 (2 ^ Z.pos n) Hm2 ltac:(apply Z.pow_pos_nonneg; lia)). lia.
  - destruct (Hres m2 e1) as [H|H]; [rewrite Z.sub_diag; lia|lia|lia|exact H|lia].
Qed.

Lemma below_neg k j f : below k j (SFopp f) <-> below k j f.
Proof. by destruct f. Qed.

Lemma SFmul_below kx jx ky jy x y :
  emn <= 0 -> valid_binary prec emax x = true -> valid_binary prec emax y = true ->
  below kx jx x -> below ky jy y -> representable (kx * ky) (jx + jy) ->
  below (kx * ky) (jx + jy) (SFmul prec emax x y).
Proof.
  intros He0 Vx Vy Bx By Hrep.
  destruct x as [sx|sx| |sx mx ex], y as [sy|sy| |sy my ey]; try done.
  cbn [below] in Bx, By. unfold SFmul, scaled_le in *.
  destruct (valid_digits _ _ _ _ _ Vx) as [Hex _], (valid_digits _ _ _ _ _ Vy) as [Hey _].
  set (zx := Z.min emn jx) in *. set (zy := Z.min emn jy) in *.
  apply (binary_round_aux_below (zx + zy)); [lia|by eapply mul_fexp|done|lia..|].
  unfold scaled_le.
  replace (ex + ey - (zx + zy)) with ((ex - zx) + (ey - zy)) by lia.
  replace (jx + jy - (zx + zy)) with ((jx - zx) + (jy - zy)) by lia.
  rewrite !Z.pow_add_r, Pos2Z.inj_mul by lia.
  set (a := 2 ^ (ex - zx)) in *. set (b := 2 ^ (ey - zy)) in *.
  set (c := 2 ^ (jx - zx)) in *. set (d := 2 ^ (jy - zy)) in *.
  replace (Z.pos mx * Z.pos my * (a * b)) with (Z.pos mx * a * (Z.pos my * b)) by lia.
  replace (kx * ky * (c * d)) with (kx * c * (ky * d)) by lia.
  assert (0 <= a) by (apply Z.pow_nonneg; lia). assert (0 <= b) by (apply Z.pow_nonneg; lia).
  apply Z.mul_le_mono_nonneg; (done || nia).
Qed.

Lemma binary_normalize_below m e s k j :
  representable k j -> emn <= e -> Z.min emn j <= e ->
  scaled_le (Z.min emn j) (Z.abs m) e k j -> below k j (binary_normalize prec emax m e s).
Proof.
  intros Hrep Hen He Hle.
  assert (Hr : forall sg p, Z.abs m = Z.pos p -> below k j (binary_round prec emax sg p e)).
  { intros sg p Hp. rewrite Hp in Hle. unfold binary_round, shl_align.
    set (t := fx (Z.pos (digits2_pos p) + e)).
    destruct (t - e) as [|n|n] eqn:En.
    - apply (binary_round_aux_below (Z.min emn j)); (done || lia || simpl Zdigits2; lia).
    - apply (binary_round_aux_below (Z.min emn j)); (done || lia || simpl Zdigits2; lia).
    - assert (Hpos : Z.pos (Pos.iter xO p n) = Z.pos p * 2 ^ Z.pos n).
      { rewrite <- Z.shiftl_mul_pow2 by lia. by apply (Pos.iter_swap_gen _ _ Z.pos xO (Z.mul 2)). }
      assert (Ht : emn <= t) by (unfold t, fexp; lia).
      apply (binary_round_aux_below (Z.min emn j)); [lia| |done|lia..|].
      + rewrite Hpos, (Zdigits2_unique _ (Z.pos (digits2_pos p) + Z.pos n)); [|lia|].
        * replace (Z.pos (digits2_pos p) + Z.pos n + t) with (Z.pos (digits2_pos p) + e) by lia.
          fold t. lia.
        * pose proof (digits2_pos_bounds p) as [H1 H2].
          replace (Z.pos (digits2_pos p) + Z.pos n - 1)
            with (Z.pos (digits2_pos p) - 1 + Z.pos n) by lia.
          rewrite !Z.pow_add_r by lia. nia.
      + unfold scaled_le in *. rewrite Hpos, <- Z.mul_assoc, <- Z.pow_add_r by lia.
        by replace (Z.pos n + (t - Z.min emn j)) with (e - Z.min emn j) by lia. }
  destruct m as [|p|p]; [done|by apply Hr..].
Qed.

(** Aligning two finite numbers to the smaller exponent. *)
Lemma shl_align_spec m e ez : ez <= e -> Z.pos (fst (shl_align m e ez)) = Z.pos m * 2 ^ (e - ez).
Proof.
  intros He. unfold shl_align. destruct (ez - e) as [|n|n] eqn:En; [|lia|]; cbn [fst].
  - replace (e - ez) with 0 by lia. lia.
  - replace (e - ez) with (Z.pos n) by lia.
    rewrite <- Z.shiftl_mul_pow2 by lia. by apply (Pos.iter_swap_gen _ _ Z.pos xO (Z.mul 2)).
Qed.

Lemma below_mono k k' j f : k <= k' -> below k j f -> below k' j f.
Proof.
  destruct f; try done. cbn [below]. unfold scaled_le. intros Hk H.
  etrans; [exact H|]. apply Z.mul_le_mono_nonneg_r; [apply Z.pow_nonneg|]; lia.
Qed.

Lemma SFadd_below kx ky j x y :
  valid_binary prec emax x = true -> valid_binary prec emax y = true ->
  0 <= kx -> 0 <= ky ->
  below kx j x -> below ky j y -> representable (kx + ky) j ->
  below (kx + ky) j (SFadd prec emax x y).
Proof.
  intros Vx Vy Hkx Hky Bx By Hrep.
  destruct x as [sx|sx| |sx mx ex], y as [sy|sy| |sy my ey]; try done.
  - by destruct sx, sy.
  - apply (below_mono ky); [lia|done].
  - apply (below_mono kx); [lia|done].
  - cbn [below] in Bx, By. cbn [SFadd].
    destruct (valid_digits _ _ _ _ _ Vx) as [Hex _], (valid_digits _ _ _ _ _ Vy) as [Hey _].
    set (z := Z.min emn j) in *. set (ez := Z.min ex ey).
    apply binary_normalize_below; [done|lia|lia|].
    rewrite !shl_align_spec by lia. unfold scaled_le in *. fold z.
    transitivity ((Z.pos mx * 2 ^ (ex - ez) + Z.pos my * 2 ^ (ey - ez)) * 2 ^ (ez - z)).
    + apply Z.mul_le_mono_nonneg_r; [apply Z.pow_nonneg; lia|].
      assert (0 <= Z.pos mx * 2 ^ (ex - ez)) by (apply Z.mul_nonneg_nonneg; [|apply Z.pow_nonneg]; lia).
      assert (0 <= Z.pos my * 2 ^ (ey - ez)) by (apply Z.mul_nonneg_nonneg; [|apply Z.pow_nonneg]; lia).
      destruct sx, sy; simpl cond_Zopp; lia.
    + rewrite !Z.mul_add_distr_r, <- !Z.mul_assoc, <- !Z.pow_add_r by lia.
      replace (ex - ez + (ez - z)) with (ex - z) by lia.
      replace (ey - ez + (ez - z)) with (ey - z) by lia. lia.
Qed.

(** Truncation of a bounded number. *)
Lemma sf_trunc_below k j f t :
  0 <= t -> k * 2 ^ (j - Z.min emn j) <= t * 2 ^ (- Z.min emn j) -> emn <= 0 ->
  valid_binary prec emax f = true -> below k j f ->
  exists v, sf_trunc f = Some v /\ Z.abs v <= t.
Proof.
  intros Ht Hk He0 Vf Bf. destruct f as [s|s| |s m e]; try done.
  { exists 0. split; [done|lia]. }
  destruct (valid_digits _ _ _ _ _ Vf) as [He _]. cbn [below] in Bf. unfold scaled_le in Bf.
  set (z := Z.min emn j) in *. assert (Hz : z <= 0 /\ z <= e) by lia.
  eexists. split; [reflexivity|].
  assert (H0 : 0 <= (if 0 <=? e then Z.pos m * 2 ^ e else Z.pos m / 2 ^ (- e)) <= t).
  { assert (Hm : Z.pos m * 2 ^ (e - z) <= t * 2 ^ (- z)) by lia.
    destruct (Z.leb_spec 0 e).
    - replace (e - z) with (e + - z) in Hm by lia. rewrite Z.pow_add_r, Z.mul_assoc in Hm by lia.
      assert (0 < 2 ^ (- z)) by (apply Z.pow_pos_nonneg; lia).
      split; [apply Z.mul_nonneg_nonneg; [lia|apply Z.pow_nonneg; lia]|nia].
    - assert (0 < 2 ^ (- e)) by (apply Z.pow_pos_nonneg; lia).
      split; [apply Z.div_pos; lia|]. apply Z.div_le_upper_bound; [done|].
      replace (- z) with ((e - z) + - e) in Hm by lia.
      rewrite (Z.pow_add_r 2 (e - z)) in Hm by lia.
      assert (0 < 2 ^ (e - z)) by (apply Z.pow_pos_nonneg; lia). nia. }
  destruct s; simpl cond_Zopp; lia.
Qed.
End bounds.

(** ** Samples clipped to [-1, 1] *)

Lemma f32_unit_below x :
  valid_binary 24 128 x = true -> SFleb f32_mone x = true -> SFleb x f32_one = true ->
  below 24 128 1 0 x.
Proof.
  intros Vx Hlo Hhi. destruct x as [s|s| |s m e]; [done|by destruct s|done|].
  destruct (valid_finite 23 8 ltac:(lia) ltac:(lia) s m e Vx) as (Hm & He & _).
  cbn [below]. unfold scaled_le. change (Z.min (emin 24 128) 0) with (-149).
  change (sf_emin 23 8) with (-149) in He. change (2 ^ (23 + 1)) with (2 ^ 24) in Hm.
  assert (Hc : e < -23 \/ e = -23 /\ Z.pos m <= 2 ^ 23).
  { change f32_mone with (S754_finite true (2 ^ 23) (-23)) in Hlo.
    change f32_one with (S754_finite false (2 ^ 23) (-23)) in Hhi.
    unfold SFleb, SFcompare in Hlo, Hhi. destruct s.
    - destruct (Z.compare_spec (-23) e); try done; [|by left]. right. split; [done|].
      change (Pos.compare_cont Eq (2 ^ 23) m) with (Pos.compare (2 ^ 23) m) in Hlo.
      destruct (Pos.compare_spec (2 ^ 23) m) as [E|E|E]; try done; lia.
    - destruct (Z.compare_spec e (-23)); try done; [|by left]. right. split; [done|].
      change (Pos.compare_cont Eq m (2 ^ 23)) with (Pos.compare m (2 ^ 23)) in Hhi.
      destruct (Pos.compare_spec m (2 ^ 23)) as [E|E|E]; try done; lia. }
  replace (0 - -149) with 149 by lia. rewrite Z.mul_1_l.
  destruct Hc as [Hlt|[-> Hle]].
  - transitivity (2 ^ 24 * 2 ^ (e - -149)).
    + apply Z.mul_le_mono_nonneg_r; [apply Z.pow_nonneg|]; lia.
    + rewrite <- Z.pow_add_r by lia. apply Z.pow_le_mono_r; lia.
  - change (2 ^ 149) with (2 ^ 23 * 2 ^ 126). apply Z.mul_le_mono_nonneg_r; [|done]. by compute.
Qed.
