(* ===== verification/FrameCopy.v ===== *)
(** * The copy loops of the device adapter (device.c)

    [rb_read], [rb_write] and the skip-then-read of [output_read], over any
    implementation of the frame ring interface.  Loops carry fuel; each
    specification shows that the fuel given by the definition is enough. *)
From Stdlib Require Import ZArith Lia Bool.
From stdpp Require Import base numbers list.
From S2P Require Import Prelude MaTypes FrameRing.

Local Open Scope Z_scope.

Definition sizeof_float : Z := 4.

Section definitions.
Context {R : Type} `{FrameRing R}.

(** ** Copying *)

Fixpoint rb_read_loop (fuel : nat) (rb : R) (out : list Z) (outOff done count channels : Z)
    : option (R * list Z * Z) :=
  if done <? count then
    match fuel with
    | O => None
    | S fuel =>
        let '(result, n, data) := acquire_read rb (u32 (count - done)) in
        if negb (result =? MA_SUCCESS) || (n =? 0) then Some (rb, out, done)
        else
          let out := wr out (outOff + sizeof_float * u32 (done * channels))
                       (rd (ring_mem rb) data (u64 (u64 (n * channels) * sizeof_float))) in
          let rb := snd (commit_read rb n) in
          rb_read_loop fuel rb out outOff (u32 (done + n)) count channels
    end
  else Some (rb, out, done).

Definition rb_read (rb : R) (out : list Z) (outOff count channels : Z) :=
  rb_read_loop (S (Z.to_nat count)) rb out outOff 0 count channels.

Fixpoint rb_write_loop (fuel : nat) (rb : R) (input : list Z) (inOff done count channels : Z)
    : option (R * Z) :=
  if done <? count then
    match fuel with
    | O => None
    | S fuel =>
        let '(result, n, data, rb) := acquire_write rb (u32 (count - done)) in
        if negb (result =? MA_SUCCESS) || (n =? 0) then Some (rb, done)
        else
          let rb := set_ring_mem rb (wr (ring_mem rb) data
                      (rd input (inOff + sizeof_float * u32 (done * channels))
                         (u64 (u64 (n * channels) * sizeof_float)))) in
          let rb := snd (commit_write rb n) in
          rb_write_loop fuel rb input inOff (u32 (done + n)) count channels
    end
  else Some (rb, done).

Definition rb_write (rb : R) (input : list Z) (inOff count channels : Z) :=
  rb_write_loop (S (Z.to_nat count)) rb input inOff 0 count channels.

(** ** Discarding up to a published position *)

Fixpoint discard_loop (fuel : nat) (rb : R) (consumed until : Z) : option (R * Z) :=
  if consumed <? until then
    match fuel with
    | O => None
    | S fuel =>
        let '(result, n, _) := acquire_read rb (u32 (until - consumed)) in
        if negb (result =? MA_SUCCESS) || (n =? 0) then Some (rb, consumed)
        else discard_loop fuel (snd (commit_read rb n)) (u64 (consumed + n)) until
    end
  else Some (rb, consumed).

(** [output_read] on the ring and counters selected by [monitor]. *)
Definition output_read_ring (rb : R) (consumed until : Z) (out : list Z) (outOff frames : Z)
    : option (R * Z * list Z * Z) :=
  match discard_loop (S (Z.to_nat (until - consumed))) rb consumed until with
  | None => None
  | Some (rb, consumed) =>
      match rb_read rb out outOff frames 2 with
      | None => None
      | Some (rb, out, n) => Some (rb, u64 (consumed + n), out, n)
      end
  end.
End definitions.

Section specs.
Context {R : Type} `{FrameRingLaws R bpf}.
Context (channels : Z) (Hbpf : bpf = channels * sizeof_float).

Lemma bpf_pos : 0 < bpf /\ 0 < channels.
Proof. pose proof law_bpf. unfold sizeof_float in *. lia. Qed.

(** The byte offsets the C code computes in 32 and 64 bits. *)
Lemma copy_offsets n count :
  0 <= n <= count -> count * bpf < 2 ^ 32 ->
  u64 (u64 (n * channels) * sizeof_float) = n * bpf
  /\ sizeof_float * u32 (n * channels) = n * bpf /\ u32 n = n.
Proof.
  intros Hn Hc. pose proof bpf_pos as [? ?].
  assert (Hnb : n * bpf = n * channels * 4) by (rewrite Hbpf; unfold sizeof_float; lia).
  assert (0 <= n * channels) by (apply Z.mul_nonneg_nonneg; lia).
  assert (n <= n * channels) by nia.
  assert (n * bpf <= count * bpf) by (apply Z.mul_le_mono_nonneg_r; lia).
  unfold u64, u32, sizeof_float.
  rewrite (wrapu_id 64 (n * channels)), (wrapu_id 32 (n * channels)) by cint.
  rewrite !wrapu_id by cint. lia.
Qed.

Lemma rb_read_loop_spec fuel rb out outOff done count :
  ring_ok rb -> 0 <= done <= count -> count * bpf < 2 ^ 32 ->
  0 <= outOff -> outOff + count * bpf <= zlen out ->
  Z.min (count - done) (ring_frames rb) < Z.of_nat fuel ->
  let m := Z.min (count - done) (ring_frames rb) in
  exists rb', rb_read_loop fuel rb out outOff done count channels
      = Some (rb', wr out (outOff + done * bpf)
                     (take (Z.to_nat (m * bpf)) (ring_content rb)), done + m)
    /\ ring_ok rb' /\ ring_content rb' = drop (Z.to_nat (m * bpf)) (ring_content rb)
    /\ ring_frames rb' = ring_frames rb - m /\ ring_space rb' = ring_space rb + m.
Proof.
  pose proof bpf_pos as [Hb Hch].
  revert rb out done. induction fuel as [|fuel IH]; intros rb out done Hok Hd Hlt Ho Hlen Hf m.
  { destruct (law_frames _ Hok). lia. }
  destruct (law_frames _ Hok) as [Hfr Hcl]. cbn [rb_read_loop].
  destruct (Z.ltb_spec done count) as [Hdc|].
  2: { exists rb. replace m with 0 by lia.
       rewrite Z.mul_0_l, take_0, drop_0, wr_nil, Z.add_0_r. split_and!; try done; lia. }
  assert ((count - done) * bpf <= count * bpf) by (apply Z.mul_le_mono_nonneg_r; lia).
  assert (done * bpf + (count - done) * bpf = count * bpf) by lia.
  destruct (copy_offsets (count - done) count) as (_ & _ & ->); [lia|done|].
  destruct (law_read rb (count - done) Hok) as
    (k & off & -> & Hk & Hkf & Hk0 & Hrd & rb' & E & Hok' & Hc' & Hf' & Hs'); [lia..|].
  simpl negb. cbn [orb]. destruct (Z.eqb_spec k 0) as [->|Hk1].
  { exists rb. assert (m = 0) as -> by lia.
    rewrite Z.mul_0_l, take_0, drop_0, wr_nil, Z.add_0_r. split_and!; try done; lia. }
  rewrite E. cbn [snd].
  destruct (copy_offsets k count) as (-> & _ & _); [lia|done|].
  destruct (copy_offsets done count) as (_ & -> & _); [lia|done|].
  destruct (copy_offsets (done + k) count) as (_ & _ & ->); [lia|done|].
  rewrite Hrd. set (tk := take (Z.to_nat (k * bpf)) (ring_content rb)).
  assert (Hkm : k * bpf <= m * bpf) by (apply Z.mul_le_mono_nonneg_r; lia).
  assert (Hmf : m * bpf <= ring_frames rb * bpf) by (apply Z.mul_le_mono_nonneg_r; lia).
  assert (Hmc : m * bpf <= (count - done) * bpf) by (apply Z.mul_le_mono_nonneg_r; lia).
  assert (0 <= done * bpf) by (apply Z.mul_nonneg_nonneg; lia).
  assert (0 < k * bpf) by (apply Z.mul_pos_pos; lia).
  assert (Htk : zlen tk = k * bpf) by (unfold tk; rewrite zlen_take by lia; lia).
  destruct (IH rb' (wr out (outOff + done * bpf) tk) (done + k) Hok') as
    (rb2 & E2 & Hok2 & Hc2 & Hf2 & Hs2); [lia|done|done|rewrite zlen_wr; lia|lia|].
  replace (Z.min (count - (done + k)) (ring_frames rb')) with (m - k) in * by lia.
  exists rb2. rewrite E2, Hc2, Hc'. split_and!; [|done| |lia|lia].
  - replace (outOff + (done + k) * bpf) with (outOff + done * bpf + zlen tk) by lia.
    rewrite wr_wr_adj.
    + f_equal. f_equal; [|lia]. f_equal. f_equal. unfold tk.
      rewrite take_take_drop by lia. f_equal. f_equal. lia.
    + lia.
    + rewrite Htk, zlen_take, zlen_drop by lia. lia.
  - rewrite drop_drop_Z by lia. f_equal. f_equal. lia.
Qed.

Lemma rb_read_spec rb out outOff count :
  ring_ok rb -> 0 <= count -> count * bpf < 2 ^ 32 ->
  0 <= outOff -> outOff + count * bpf <= zlen out ->
  let m := Z.min count (ring_frames rb) in
  exists rb', rb_read rb out outOff count channels
      = Some (rb', wr out outOff (take (Z.to_nat (m * bpf)) (ring_content rb)), m)
    /\ ring_ok rb' /\ ring_content rb' = drop (Z.to_nat (m * bpf)) (ring_content rb)
    /\ ring_frames rb' = ring_frames rb - m /\ ring_space rb' = ring_space rb + m.
Proof.
  intros Hok Hc Hlt Ho Hlen m. unfold rb_read.
  destruct (rb_read_loop_spec (S (Z.to_nat count)) rb out outOff 0 count Hok) as
    (rb' & E & HP); [lia..|].
  exists rb'. rewrite Z.sub_0_r, Z.mul_0_l, Z.add_0_r in *. by rewrite E.
Qed.

Lemma rb_write_loop_spec fuel rb input inOff done count :
  ring_ok rb -> 0 <= done <= count -> count * bpf < 2 ^ 32 ->
  0 <= inOff -> inOff + count * bpf <= zlen input ->
  Z.min (count - done) (ring_space rb) < Z.of_nat fuel ->
  let m := Z.min (count - done) (ring_space rb) in
  exists rb', rb_write_loop fuel rb input inOff done count channels = Some (rb', done + m)
    /\ ring_ok rb'
    /\ ring_content rb' = ring_content rb ++ rd input (inOff + done * bpf) (m * bpf)
    /\ ring_frames rb' = ring_frames rb + m /\ ring_space rb' = ring_space rb - m.
Proof.
  pose proof bpf_pos as [Hb Hch].
  revert rb done. induction fuel as [|fuel IH]; intros rb done Hok Hd Hlt Ho Hlen Hf m.
  { pose proof (law_space _ Hok). lia. }
  pose proof (law_space _ Hok) as Hsp. cbn [rb_write_loop].
  destruct (Z.ltb_spec done count) as [Hdc|].
  2: { exists rb. replace m with 0 by lia.
       rewrite Z.mul_0_l, rd_0, app_nil_r, Z.add_0_r. split_and!; try done; lia. }
  assert ((count - done) * bpf <= count * bpf) by (apply Z.mul_le_mono_nonneg_r; lia).
  assert (done * bpf + (count - done) * bpf = count * bpf) by lia.
  destruct (copy_offsets (count - done) count) as (_ & _ & ->); [lia|done|].
  destruct (law_write rb (count - done) Hok) as
    (k & off & -> & Hk & Hks & Hk0 & Hcm); [lia..|].
  simpl negb. cbn [orb]. destruct (Z.eqb_spec k 0) as [->|Hk1].
  { exists rb. assert (m = 0) as -> by lia.
    rewrite Z.mul_0_l, rd_0, app_nil_r, Z.add_0_r. split_and!; try done; lia. }
  destruct (copy_offsets k count) as (-> & _ & _); [lia|done|].
  destruct (copy_offsets done count) as (_ & -> & _); [lia|done|].
  destruct (copy_offsets (done + k) count) as (_ & _ & ->); [lia|done|].
  assert (Hkm : k * bpf <= m * bpf) by (apply Z.mul_le_mono_nonneg_r; lia).
  assert (Hmc : m * bpf <= (count - done) * bpf) by (apply Z.mul_le_mono_nonneg_r; lia).
  assert (0 <= done * bpf) by (apply Z.mul_nonneg_nonneg; lia).
  assert (0 < k * bpf) by (apply Z.mul_pos_pos; lia).
  destruct (Hcm (rd input (inOff + done * bpf) (k * bpf))) as
    (rb' & -> & Hok' & Hc' & Hf' & Hs'); [apply zlen_rd; lia|].
  cbn [snd].
  destruct (IH rb' (done + k) Hok') as (rb2 & E2 & Hok2 & Hc2 & Hf2 & Hs2); [lia..|].
  replace (Z.min (count - (done + k)) (ring_space rb')) with (m - k) in * by lia.
  exists rb2. rewrite E2, Hc2, Hc', <- app_assoc.
  split_and!; [do 2 f_equal; lia|done| |lia|lia].
  f_equal. replace (inOff + (done + k) * bpf) with (inOff + done * bpf + k * bpf) by lia.
  rewrite <- rd_split by lia. f_equal. lia.
Qed.

Lemma rb_write_spec rb input inOff count :
  ring_ok rb -> 0 <= count -> count * bpf < 2 ^ 32 ->
  0 <= inOff -> inOff + count * bpf <= zlen input ->
  let m := Z.min count (ring_space rb) in
  exists rb', rb_write rb input inOff count channels = Some (rb', m)
    /\ ring_ok rb' /\ ring_content rb' = ring_content rb ++ rd input inOff (m * bpf)
    /\ ring_frames rb' = ring_frames rb + m /\ ring_space rb' = ring_space rb - m.
Proof.
  intros Hok Hc Hlt Ho Hlen m. unfold rb_write. pose proof (law_space _ Hok).
  destruct (rb_write_loop_spec (S (Z.to_nat count)) rb input inOff 0 count Hok) as
    (rb' & E & HP); [lia..|].
  exists rb'. rewrite Z.sub_0_r, Z.mul_0_l, Z.add_0_r in *. by rewrite E.
Qed.

(** ** The discard loop skips the frames below [until] that are in the ring *)

Lemma discard_loop_spec fuel rb consumed until :
  ring_ok rb -> 0 <= consumed -> until < 2 ^ 64 -> until - consumed <= ring_frames rb ->
  Z.max 0 (until - consumed) < Z.of_nat fuel ->
  let m := Z.max 0 (until - consumed) in
  exists rb', discard_loop fuel rb consumed until = Some (rb', consumed + m)
    /\ ring_ok rb' /\ ring_content rb' = drop (Z.to_nat (m * bpf)) (ring_content rb)
    /\ ring_frames rb' = ring_frames rb - m /\ ring_space rb' = ring_space rb + m.
Proof.
  pose proof bpf_pos as [Hb Hch].
  revert rb consumed. induction fuel as [|fuel IH]; intros rb consumed Hok Hcons Hu Hfr Hf m;
    [lia|].
  destruct (law_frames _ Hok) as [Hfn Hcl]. pose proof (law_small _ Hok) as Hsm.
  pose proof (law_space _ Hok). cbn [discard_loop].
  destruct (Z.ltb_spec consumed until) as [Hlt|].
  2: { exists rb. replace m with 0 by lia.
       rewrite Z.mul_0_l, drop_0, Z.add_0_r. split_and!; try done; lia. }
  assert (Hmu : m = until - consumed) by lia.
  assert (m * bpf <= (ring_frames rb + ring_space rb) * bpf)
    by (apply Z.mul_le_mono_nonneg_r; lia).
  assert (m <= m * bpf) by (apply Z.le_mul_diag_r; lia).
  rewrite <- Hmu. unfold u32. rewrite wrapu_id by cint.
  destruct (law_read rb m Hok) as
    (k & off & -> & Hk & Hkf & Hk0 & Hrd & rb' & E & Hok' & Hc' & Hf' & Hs'); [lia..|].
  simpl negb. cbn [orb]. destruct (Z.eqb_spec k 0) as [->|Hk1]; [lia|].
  rewrite E. cbn [snd]. unfold u64. rewrite wrapu_id by cint.
  destruct (IH rb' (consumed + k) Hok') as (rb2 & E2 & Hok2 & Hc2 & Hf2 & Hs2); [lia..|].
  replace (Z.max 0 (until - (consumed + k))) with (m - k) in * by lia.
  assert (0 < k * bpf) by (apply Z.mul_pos_pos; lia).
  assert (k * bpf <= m * bpf) by (apply Z.mul_le_mono_nonneg_r; lia).
  exists rb2. rewrite E2, Hc2, Hc'. split_and!; [do 2 f_equal; lia|done| |lia|lia].
  rewrite drop_drop_Z by lia. f_equal. f_equal. lia.
Qed.
End specs.

Lemma output_read_ring_spec {R} `{FrameRingLaws R 8} rb consumed until out outOff frames :
  ring_ok rb -> 0 <= consumed -> consumed + ring_frames rb < 2 ^ 64 ->
  until <= consumed + ring_frames rb ->
  0 <= frames -> frames * 8 < 2 ^ 32 -> 0 <= outOff -> outOff + frames * 8 <= zlen out ->
  let skip := Z.max 0 (until - consumed) in
  let m := Z.min frames (ring_frames rb - skip) in
  exists rb', output_read_ring rb consumed until out outOff frames
    = Some (rb', consumed + skip + m,
            wr out outOff (rd (ring_content rb) (skip * 8) (m * 8)), m)
    /\ ring_ok rb' /\ ring_content rb' = drop (Z.to_nat ((skip + m) * 8)) (ring_content rb)
    /\ ring_frames rb' = ring_frames rb - (skip + m)
    /\ ring_space rb' = ring_space rb + (skip + m).
Proof.
  intros Hok Hcons Hw Hu Hf Hlt Ho Hlen skip m. unfold output_read_ring.
  destruct (law_frames _ Hok) as [Hfn Hcl].
  destruct (discard_loop_spec (bpf:=8) 2 eq_refl (S (Z.to_nat (until - consumed))) rb consumed until Hok)
    as (rb1 & -> & Hok1 & Hc1 & Hf1 & Hs1); [lia..|].
  destruct (rb_read_spec (bpf:=8) 2 eq_refl rb1 out outOff frames Hok1)
    as (rb2 & -> & Hok2 & Hc2 & Hf2 & Hs2); [lia..|].
  rewrite Hf1. fold skip m. rewrite Hf1 in Hc2, Hf2, Hs2. fold skip m in Hc2, Hf2, Hs2.
  exists rb2. rewrite Hc2, Hc1, drop_drop_Z by lia.
  split_and!; [|done|f_equal; f_equal; lia|lia|lia].
  unfold u64. rewrite wrapu_id by (unfold in_u; lia). done.
Qed.
