(* ===== verification/Adapter.v ===== *)
(** * The device adapter (src/native/client-audio/device.c)

    The state shared between the audio callback and the client thread: a byte
    ring of captured frames, and three rings of stereo frames (playback,
    reference, monitor) behind the [FrameRing] interface.  Sample memory is
    bytes; samples are decoded where the code computes with them.  Values that
    another thread or the clock supplies are arguments: [epoch_at i] and
    [now_at i] are what the atomic load and the timer return in the capture
    iteration that starts at sample [i], [until] is the discard position loaded. *)
From Stdlib Require Import ZArith Lia Bool SpecFloat.
From stdpp Require Import base numbers list option.
From S2P Require Import Prelude MaTypes CFloat Ring BlockRing FrameRing FrameCopy.

Local Open Scope Z_scope.

(** ** Constants and the captured frame *)

Definition RA_FRAME : Z := 960.
Definition RA_CAPACITY : Z := 8.

Record ra_frame := mk_frame {
  fr_epoch : Z;
  fr_time : spec_float;
  fr_samples : list Z }.

(** The object representation: 4 bytes of epoch, 4 of padding, 8 of time, the samples. *)
Definition frame_bytes (f : ra_frame) : list Z :=
  le_bytes 4 (fr_epoch f) ++ zrep 4 0 ++ le_bytes 8 (bits_of_f64 (fr_time f)) ++ fr_samples f.

Definition frame_of_bytes (l : list Z) : ra_frame :=
  mk_frame (le_word (rd l 0 4)) (f64_of_bits (le_word (rd l 8 8))) (rd l 16 (RA_FRAME * 4)).

Definition sizeof_ra_frame : Z := 16 + RA_FRAME * 4.

(** ** Samples in memory *)

Definition ld_f32 (m : list Z) (i : Z) : spec_float := f32_of_bits (le_word (rd m (4 * i) 4)).
Definition st_f32 (m : list Z) (i : Z) (f : spec_float) : list Z :=
  wr m (4 * i) (le_bytes 4 (bits_of_f32 f)).

(** The sum of two samples, limited to [-1, 1]. *)
Definition mix_sample (a b : spec_float) : spec_float :=
  let v := f32_add a b in
  if fgt v f32_one then f32_one else if flt v f32_mone then f32_mone else v.

(** ** The device *)

Record ra_device {R : Type} := mk_device {
  capture : ma_rb;
  playback : R;
  reference : R;
  monitor : R;
  written : bool -> Z;
  consumed : bool -> Z;
  discard : bool -> Z;
  context_ok : bool;
  input_ok : bool;
  output_ok : bool;
  capture_ok : bool;
  playback_ok : bool;
  reference_ok : bool;
  monitor_ok : bool;
  epoch : Z;
  failed : Z;
  closing : Z;
  pending : ra_frame;
  captured : Z;
  wake : bool }.
Arguments ra_device : clear implicits.
Arguments mk_device {R}.

(** A counter pair indexed by [monitor]. *)
Definition upd (f : bool -> Z) (i : bool) (z : Z) : bool -> Z :=
  fun j => if Bool.eqb i j then z else f j.

Section operations.
Context {R : Type} `{FrameRing R}.
Implicit Types d : ra_device R.

Definition set_capture d (r : ma_rb) : ra_device R :=
  mk_device r (playback d) (reference d) (monitor d) (written d) (consumed d) (discard d)
    (context_ok d) (input_ok d) (output_ok d) (capture_ok d) (playback_ok d) (reference_ok d)
    (monitor_ok d) (epoch d) (failed d) (closing d) (pending d) (captured d) (wake d).

Definition set_reference d (r : R) : ra_device R :=
  mk_device (capture d) (playback d) r (monitor d) (written d) (consumed d) (discard d)
    (context_ok d) (input_ok d) (output_ok d) (capture_ok d) (playback_ok d) (reference_ok d)
    (monitor_ok d) (epoch d) (failed d) (closing d) (pending d) (captured d) (wake d).

Definition set_pending d (p : ra_frame) (n : Z) : ra_device R :=
  mk_device (capture d) (playback d) (reference d) (monitor d) (written d) (consumed d)
    (discard d) (context_ok d) (input_ok d) (output_ok d) (capture_ok d) (playback_ok d)
    (reference_ok d) (monitor_ok d) (epoch d) (failed d) (closing d) p n (wake d).

Definition set_atomics d (e f c : Z) (disc : bool -> Z) : ra_device R :=
  mk_device (capture d) (playback d) (reference d) (monitor d) (written d) (consumed d)
    disc (context_ok d) (input_ok d) (output_ok d) (capture_ok d) (playback_ok d)
    (reference_ok d) (monitor_ok d) e f c (pending d) (captured d) (wake d).

(** [monitor ? &d->monitor : &d->playback] *)
Definition out_ring d (mon : bool) : R := if mon then monitor d else playback d.

Definition set_out d (mon : bool) (r : R) (wri con : bool -> Z) : ra_device R :=
  mk_device (capture d) (if mon then playback d else r) (reference d)
    (if mon then r else monitor d) wri con (discard d)
    (context_ok d) (input_ok d) (output_ok d) (capture_ok d) (playback_ok d) (reference_ok d)
    (monitor_ok d) (epoch d) (failed d) (closing d) (pending d) (captured d) (wake d).

Definition output_read d (mon : bool) (out : list Z) (outOff frames : Z)
    : option (ra_device R * list Z * Z) :=
  match output_read_ring (out_ring d mon) (consumed d mon) (discard d mon) out outOff frames with
  | None => None
  | Some (r, c, out, n) => Some (set_out d mon r (written d) (upd (consumed d) mon c), out, n)
  end.

(** ** The audio callback: captured samples *)

Fixpoint capture_loop (fuel : nat) (epoch_at : Z -> Z) (now_at : Z -> spec_float)
    d (input : list Z) (i frames : Z) : option (ra_device R) :=
  if i <? frames then
    match fuel with
    | O => None
    | S fuel =>
        let e := epoch_at i in
        let d :=
          if negb (fr_epoch (pending d) =? e)
          then set_pending d (mk_frame e (fr_time (pending d)) (fr_samples (pending d))) 0
          else d in
        let n := u32 (RA_FRAME - captured d) in
        let n := if n >? u32 (frames - i) then u32 (frames - i) else n in
        let p := pending d in
        let p := mk_frame (fr_epoch p) (fr_time p)
                   (wr (fr_samples p) (4 * captured d)
                      (rd input (4 * i) (u64 (n * sizeof_float)))) in
        let d := set_pending d p (u32 (captured d + n)) in
        let i' := u32 (i + n) in
        let d :=
          if captured d =? RA_FRAME then
            let p := mk_frame (fr_epoch p) (now_at i) (fr_samples p) in
            let d := set_pending d p (captured d) in
            let '(result, size, data, r) := ma_rb_acquire_write (capture d) sizeof_ra_frame in
            let r :=
              if (result =? MA_SUCCESS) && (size =? sizeof_ra_frame)
              then snd (ma_rb_commit_write
                          (with_buffer r (wr (pBuffer r) data (frame_bytes p))) size)
              else r in
            set_pending (set_capture d r) p 0
          else d in
        capture_loop fuel epoch_at now_at d input i' frames
    end
  else Some d.

(** ** The audio callback: played samples *)

Fixpoint mix_loop (n : nat) (j : Z) (out : list Z) (base : Z) (local : list Z) : list Z :=
  match n with
  | O => out
  | S n =>
      mix_loop n (j + 1)
        (st_f32 out (base + j) (mix_sample (ld_f32 out (base + j)) (ld_f32 local j)))
        base local
  end.

Fixpoint monitor_loop (fuel : nat) d (out local : list Z) (i frames : Z)
    : option (ra_device R * list Z) :=
  if i <? frames then
    match fuel with
    | O => None
    | S fuel =>
        let n := RA_FRAME in
        let n := if n >? u32 (frames - i) then u32 (frames - i) else n in
        let local := wr local 0 (zrep (u64 (u64 (n * 2) * sizeof_float)) 0) in
        match output_read d true local 0 n with
        | None => None
        | Some (d, local, _) =>
            let out := mix_loop (Z.to_nat (u32 (n * 2))) 0 out (u32 (i * 2)) local in
            monitor_loop fuel d out local (u32 (i + n)) frames
        end
    end
  else Some (d, out).

(** [input] and [output] are NULL or the callback's buffers; [local] is the
    uninitialised stack array.  Also returns whether [wake] is called. *)
Definition data_callback (epoch_at : Z -> Z) (now_at : Z -> spec_float) (local : list Z)
    d (output input : option (list Z)) (frames : Z)
    : option (ra_device R * option (list Z) * bool) :=
  match
    match input with
    | None => Some d
    | Some samples => capture_loop (S (Z.to_nat frames)) epoch_at now_at d samples 0 frames
    end
  with
  | None => None
  | Some d =>
      match output with
      | None => Some (d, None, wake d)
      | Some out =>
          let out := wr out 0 (zrep (u64 (u64 (frames * 2) * sizeof_float)) 0) in
          match output_read d false out 0 frames with
          | None => None
          | Some (d, out, _) =>
              match rb_write (reference d) out 0 frames 2 with
              | None => None
              | Some (r, _) =>
                  match monitor_loop (S (Z.to_nat frames)) (set_reference d r) out local 0 frames
                  with
                  | None => None
                  | Some (d, out) => Some (d, Some out, wake d)
                  end
              end
          end
      end
  end.

(** ** The other entry points *)

(** [stopped] is whether the notification is [ma_device_notification_type_stopped]. *)
Definition notification_callback d (stopped : bool) : ra_device R * bool :=
  if stopped && (closing d =? 0)
  then (set_atomics d (epoch d) 1 (closing d) (discard d), wake d)
  else (d, false).

Definition ra_device_pending d : Z := if playback_ok d then available_read (playback d) else 0.
Definition ra_device_failed d : Z := s32 (failed d).
Definition ra_device_epoch d (e : Z) : ra_device R :=
  set_atomics d e (failed d) (closing d) (discard d).
Definition ra_device_discard d : ra_device R :=
  set_atomics d (epoch d) (failed d) (closing d) (written d).

Definition ra_device_capture (now : spec_float) d : option ra_frame * ra_device R :=
  let '(result, n, data) := ma_rb_acquire_read (capture d) sizeof_ra_frame in
  if negb (result =? MA_SUCCESS) || negb (n =? sizeof_ra_frame) then (None, d)
  else
    let f := frame_of_bytes (rd (pBuffer (capture d)) data n) in
    let d := set_capture d (snd (ma_rb_commit_read (capture d) n)) in
    (Some (mk_frame (fr_epoch f) (f64_sub now (fr_time f)) (fr_samples f)), d).

Definition ra_device_reference d (out : list Z) : option (ra_device R * list Z * Z) :=
  match rb_read (reference d) out 0 RA_FRAME 2 with
  | None => None
  | Some (r, out, n) => Some (set_reference d r, out, n)
  end.

Definition ra_device_write d (samples : list Z) (mon : bool) : option (ra_device R * Z) :=
  match rb_write (out_ring d mon) samples 0 RA_FRAME 2 with
  | None => None
  | Some (r, n) =>
      Some (set_out d mon r (upd (written d) mon (u64 (written d mon + n))) (consumed d), n)
  end.
End operations.

(** ** Device identifiers *)

Definition sizeof_ma_device_id : nat := 256.

(** [while (n > 1 && bytes[n-1] == 0) n--;] *)
Fixpoint id_trim (n : nat) (bytes : list Z) : nat :=
  match n with
  | O => O
  | S n' => if (1 <? Z.of_nat n) && (nth n' bytes 0 =? 0) then id_trim n' bytes else n
  end.

(** The characters of "0123456789abcdef". *)
Definition digits : list Z := [48; 49; 50; 51; 52; 53; 54; 55; 56; 57; 97; 98; 99; 100; 101; 102].

Definition hex_byte (b : Z) : list Z :=
  [nth (Z.to_nat (Z.shiftr b 4)) digits 0; nth (Z.to_nat (Z.land b 15)) digits 0].

Definition id_string (bytes : list Z) : list Z :=
  flat_map hex_byte (take (id_trim sizeof_ma_device_id bytes) bytes) ++ [0].

(** ** Samples in memory *)

Section samples.
Implicit Types m d : list Z.

Lemma ld_st_same m i f :
  valid_binary 24 128 f = true -> 0 <= i -> 4 * i + 4 <= zlen m -> ld_f32 (st_f32 m i f) i = f.
Proof.
  intros Hf Hi Hm. unfold ld_f32, st_f32.
  pose proof (rd_wr_same m (4 * i) (le_bytes 4 (bits_of_f32 f)) ltac:(lia) ltac:(lia)) as E.
  rewrite zlen_le_bytes in E. change (Z.of_nat 4) with 4 in E. rewrite E, le_word_bytes.
  rewrite Z.mod_small by (apply (bits_of_f32_range f Hf)). by apply f32_bits_roundtrip.
Qed.

Lemma ld_st_other m i k f :
  0 <= i -> 0 <= k -> i <> k -> 4 * i + 4 <= zlen m -> ld_f32 (st_f32 m i f) k = ld_f32 m k.
Proof.
  intros Hi Hk Hne Hm. unfold ld_f32, st_f32.
  destruct (Z.lt_ge_cases k i).
  - rewrite rd_wr_before by lia. done.
  - rewrite rd_wr_after by (rewrite ?zlen_le_bytes; lia). done.
Qed.

Lemma zlen_st m i f : 0 <= i -> 4 * i + 4 <= zlen m -> zlen (st_f32 m i f) = zlen m.
Proof. intros. apply zlen_wr; rewrite ?zlen_le_bytes; lia. Qed.

(** Loading from memory into which the block [d] was copied at sample [q]. *)
Lemma ld_wr m q d k :
  0 <= q -> 0 <= k -> 4 * q + zlen d <= zlen m -> (4 | zlen d) ->
  ld_f32 (wr m (4 * q) d) k
  = if (q <=? k) && (k <? q + zlen d / 4) then ld_f32 d (k - q) else ld_f32 m k.
Proof.
  intros Hq Hk Hm [l Hl]. pose proof (zlen_nonneg d). rewrite Hl, Z.div_mul by lia. unfold ld_f32.
  destruct (Z.leb_spec q k), (Z.ltb_spec k (q + l)); cbn [andb].
  - replace (4 * k) with (4 * q + 4 * (k - q)) by lia. by rewrite rd_wr_inside by lia.
  - by rewrite rd_wr_after by lia.
  - by rewrite rd_wr_before by lia.
  - by rewrite rd_wr_before by lia.
Qed.

Lemma ld_rd m a n k :
  0 <= a -> 0 <= k -> 4 * k + 4 <= n -> ld_f32 (rd m (4 * a) n) k = ld_f32 m (a + k).
Proof.
  intros. unfold ld_f32. rewrite rd_rd by lia. do 3 f_equal. lia.
Qed.

Lemma ld_zrep n k : 0 <= k -> 4 * k + 4 <= n -> ld_f32 (zrep n 0) k = f32_zero.
Proof. intros. unfold ld_f32. by rewrite rd_zrep by lia. Qed.

Lemma ld_valid m i : valid_binary 24 128 (ld_f32 m i) = true.
Proof. apply f32_of_bits_valid. Qed.

Lemma mix_sample_valid a b :
  valid_binary 24 128 a = true -> valid_binary 24 128 b = true ->
  valid_binary 24 128 (mix_sample a b) = true.
Proof. intros. unfold mix_sample. repeat case_match; by auto with cfloat. Qed.

Lemma mix_loop_spec n j out base local :
  0 <= j -> 0 <= base -> 4 * (base + j + Z.of_nat n) <= zlen out ->
  zlen (mix_loop n j out base local) = zlen out
  /\ forall k, 0 <= k -> ld_f32 (mix_loop n j out base local) k
     = if (base + j <=? k) && (k <? base + j + Z.of_nat n)
       then mix_sample (ld_f32 out k) (ld_f32 local (k - base)) else ld_f32 out k.
Proof.
  revert j out. induction n as [|n IH]; intros j out Hj Hb Hlen; cbn [mix_loop].
  { split; [done|]. intros k Hk.
    destruct (Z.leb_spec (base + j) k), (Z.ltb_spec k (base + j + Z.of_nat 0)); (done || lia). }
  set (v := mix_sample _ _).
  assert (Hv : valid_binary 24 128 v = true) by (apply mix_sample_valid; apply ld_valid).
  destruct (IH (j + 1) (st_f32 out (base + j) v)) as [Hz Hl];
    [lia|lia|rewrite zlen_st by lia; lia|].
  rewrite zlen_st in Hz by lia. split; [done|]. intros k Hk. rewrite Hl by done.
  destruct (decide (k = base + j)) as [->|Hne].
  - rewrite (proj2 (Z.leb_gt _ _)) by lia. cbn [andb]. rewrite ld_st_same by (done || lia).
    rewrite Z.leb_refl, (proj2 (Z.ltb_lt _ _)) by lia. cbn [andb]. subst v.
    do 2 f_equal. lia.
  - rewrite ld_st_other by lia.
    destruct (Z.leb_spec (base + (j + 1)) k), (Z.leb_spec (base + j) k); try lia; cbn [andb];
      [|done]. destruct (Z.ltb_spec k (base + (j + 1) + Z.of_nat n)),
      (Z.ltb_spec k (base + j + Z.of_nat (S n))); (done || lia).
Qed.
End samples.

(** ** The output rings *)

(** What a route plays: frames below the discard position are skipped, the next
    [frames] frames follow, and silence fills the rest. *)
Definition played {R} `{FrameRingLaws R 8} (r : R) (con until frames k : Z) : spec_float :=
  let skip := Z.max 0 (until - con) in
  if k <? 2 * Z.min frames (ring_frames r - skip)
  then ld_f32 (ring_content r) (2 * skip + k) else f32_zero.

Section device.
Context {R : Type} `{FrameRingLaws R 8}.
Implicit Types d : ra_device R.

(** The counters of a route are positions in the stream of frames written to
    it; the ring holds the frames between them. *)
Record route_inv d (mon : bool) : Prop := {
  ri_ok : ring_ok (out_ring d mon);
  ri_con : 0 <= consumed d mon;
  ri_wri : consumed d mon + ring_frames (out_ring d mon) = written d mon;
  ri_lt : written d mon < 2 ^ 64;
  ri_disc : discard d mon <= written d mon }.

Record dev_inv d : Prop := {
  di_route : forall mon, route_inv d mon;
  di_ref : ring_ok (reference d) }.

Lemma output_read_spec d mon out q frames :
  route_inv d mon -> 0 <= frames -> frames * 8 < 2 ^ 32 ->
  0 <= q -> 4 * q + frames * 8 <= zlen out ->
  let c := consumed d mon in
  let skip := Z.max 0 (discard d mon - c) in
  let m := Z.min frames (ring_frames (out_ring d mon) - skip) in
  exists r out', output_read d mon out (4 * q) frames
    = Some (set_out d mon r (written d) (upd (consumed d) mon (c + skip + m)), out', m)
    /\ ring_ok r /\ ring_frames r = ring_frames (out_ring d mon) - (skip + m)
    /\ ring_content r = drop (Z.to_nat ((skip + m) * 8)) (ring_content (out_ring d mon))
    /\ 0 <= m /\ zlen out' = zlen out
    /\ forall k, 0 <= k -> ld_f32 out' k
       = if (q <=? k) && (k <? q + 2 * m)
         then played (out_ring d mon) c (discard d mon) frames (k - q) else ld_f32 out k.
Proof.
  intros [Hok Hc Hw Hlt Hd] Hf Hfl Hq Hlen c skip m.
  destruct (law_frames _ Hok) as [Hfn Hcl].
  destruct (output_read_ring_spec (out_ring d mon) c (discard d mon) out (4 * q) frames Hok)
    as (r & E & Hok' & Hc' & Hf' & Hs'); [subst c; lia..|]. fold skip m in E, Hc', Hf'.
  unfold output_read. fold c. rewrite E. eexists _, _. split; [reflexivity|].
  assert (Hz : zlen (rd (ring_content (out_ring d mon)) (skip * 8) (m * 8)) = m * 8)
    by (apply zlen_rd; lia).
  split_and!; [done..|lia|apply zlen_wr; rewrite ?Hz; lia|].
  intros k Hk. rewrite ld_wr by (rewrite ?Hz; try lia; by exists (2 * m); lia).
  rewrite Hz. replace (m * 8 / 4) with (2 * m) by (rewrite <- (Z.div_mul (2 * m) 4); f_equal; lia).
  destruct (Z.leb_spec q k), (Z.ltb_spec k (q + 2 * m)); cbn [andb]; try done.
  unfold played. fold skip m. rewrite (proj2 (Z.ltb_lt _ _)) by lia.
  replace (skip * 8) with (4 * (2 * skip)) by lia. by rewrite ld_rd by lia.
Qed.

(** Reading frames off a route shifts what it plays next. *)
Lemma played_shift (r r' : R) con until frames n k :
  let skip := Z.max 0 (until - con) in
  let m := Z.min n (ring_frames r - skip) in
  0 <= m -> 0 <= n <= frames -> 0 <= k ->
  ring_frames r' = ring_frames r - (skip + m) ->
  ring_content r' = drop (Z.to_nat ((skip + m) * 8)) (ring_content r) ->
  played r' (con + skip + m) until (frames - n) k = played r con until frames (2 * n + k).
Proof.
  intros skip m Hm Hn Hk Hf Hc. unfold played. fold skip.
  replace (Z.max 0 (until - (con + skip + m))) with 0 by lia.
  rewrite Hf, Z.sub_0_r.
  destruct (Z.ltb_spec k (2 * Z.min (frames - n) (ring_frames r - (skip + m)))),
    (Z.ltb_spec (2 * n + k) (2 * Z.min frames (ring_frames r - skip))); try lia; [|done].
  unfold ld_f32. rewrite Hc, rd_drop by lia. do 3 f_equal. lia.
Qed.

Lemma route_inv_set d mon r c' :
  route_inv d mon -> ring_ok r -> consumed d mon <= c' ->
  c' + ring_frames r = written d mon ->
  forall mon', route_inv d mon' ->
  route_inv (set_out d mon r (written d) (upd (consumed d) mon c')) mon'.
Proof.
  intros [] Hr Hc Hw mon' Hinv'. destruct (Bool.eqb mon mon') eqn:E.
  - apply eqb_prop in E as <-.
    split; destruct mon; simpl; try done; unfold upd; simpl; (done || lia).
  - apply eqb_false_iff in E. destruct Hinv'.
    split; destruct mon, mon'; simpl in *; try done; unfold upd; simpl; done.
Qed.

(** The number of frames of a route that a request for [frames] consumes. *)
Definition taken d (mon : bool) (frames : Z) : Z :=
  Z.min frames (ring_frames (out_ring d mon) - Z.max 0 (discard d mon - consumed d mon)).

Definition advanced d (mon : bool) (frames : Z) : Z :=
  Z.max 0 (discard d mon - consumed d mon) + taken d mon frames.

(** [d'] is [d] after a callback took [frames] frames of a route. *)
Record route_read d d' (mon : bool) (frames : Z) : Prop := {
  rr_inv : route_inv d' mon;
  rr_con : consumed d' mon = consumed d mon + advanced d mon frames;
  rr_disc : discard d' mon = discard d mon;
  rr_wri : written d' mon = written d mon;
  rr_content : ring_content (out_ring d' mon)
               = drop (Z.to_nat (advanced d mon frames * 8)) (ring_content (out_ring d mon)) }.

(** The device outside the two routes. *)
Definition same_rest d d' : Prop :=
  capture d' = capture d /\ reference d' = reference d /\ pending d' = pending d
  /\ captured d' = captured d /\ epoch d' = epoch d /\ wake d' = wake d.

Lemma taken_range d mon n : route_inv d mon -> 0 <= n -> 0 <= taken d mon n <= n.
Proof. intros [] Hn. unfold taken. destruct (law_frames _ ri_ok0). lia. Qed.

Lemma route_read_trans d d1 d2 mon a b :
  route_inv d mon -> 0 <= a -> 0 <= b ->
  route_read d d1 mon a -> route_read d1 d2 mon b -> route_read d d2 mon (a + b).
Proof.
  intros Hi Ha Hb [I1 C1 D1 W1 K1] [I2 C2 D2 W2 K2].
  pose proof (taken_range d mon a Hi Ha). pose proof (taken_range d1 mon b I1 Hb).
  destruct Hi, I1, I2. destruct (law_frames _ ri_ok0), (law_frames _ ri_ok1).
  assert (E : advanced d mon (a + b) = advanced d mon a + advanced d1 mon b)
    by (unfold advanced, taken in *; rewrite D1, C1 in *; lia).
  assert (0 <= advanced d mon a) by (unfold advanced; lia).
  assert (0 <= advanced d1 mon b) by (unfold advanced; lia).
  split; [done|lia|congruence..|].
  rewrite K2, K1, drop_drop_Z by lia. f_equal. f_equal. rewrite E. lia.
Qed.

Lemma route_read_0 d mon :
  route_inv d mon -> discard d mon <= consumed d mon -> route_read d d mon 0.
Proof.
  intros Hi Hd. pose proof (taken_range d mon 0 Hi ltac:(lia)).
  assert (advanced d mon 0 = 0) by (unfold advanced; lia).
  split; [done|lia|done|done|]. by replace (advanced d mon 0 * 8) with 0 by lia.
Qed.

(** One [output_read] in terms of the route. *)
Lemma output_read_route d mon out q frames :
  dev_inv d -> 0 <= frames -> frames * 8 < 2 ^ 32 -> 0 <= q -> 4 * q + frames * 8 <= zlen out ->
  exists d' out', output_read d mon out (4 * q) frames = Some (d', out', taken d mon frames)
    /\ dev_inv d' /\ route_read d d' mon frames /\ same_rest d d'
    /\ out_ring d' (negb mon) = out_ring d (negb mon)
    /\ consumed d' (negb mon) = consumed d (negb mon) /\ written d' = written d
    /\ discard d' = discard d /\ zlen out' = zlen out
    /\ forall k, 0 <= k -> ld_f32 out' k
       = if (q <=? k) && (k <? q + 2 * taken d mon frames)
         then played (out_ring d mon) (consumed d mon) (discard d mon) frames (k - q)
         else ld_f32 out k.
Proof.
  intros [Hr Href] Hf Hlt Hq Hlen.
  destruct (output_read_spec d mon out q frames (Hr mon) Hf Hlt Hq Hlen)
    as (r & out' & E & Hok & Hfr & Hc & Hm & Hz & Hld).
  eexists _, _. split; [exact E|].
  assert (Hinv : forall mon', route_inv (set_out d mon r (written d) (upd (consumed d) mon
      (consumed d mon + Z.max 0 (discard d mon - consumed d mon) + taken d mon frames))) mon').
  { intros mon'. pose proof (Hr mon) as []. apply route_inv_set; auto; unfold taken; lia. }
  split_and!; [split; [done|by destruct mon]|split|split_and!| | | | |done|done];
    try (by destruct mon).
  unfold advanced, taken. destruct mon; simpl; unfold upd; simpl; lia.
Qed.

Lemma monitor_loop_spec fuel d out local i frames :
  dev_inv d -> 0 <= i <= frames -> frames * 8 < 2 ^ 32 ->
  zlen out = frames * 8 -> zlen local = RA_FRAME * 8 -> frames - i < Z.of_nat fuel ->
  (i = frames -> discard d true <= consumed d true) ->
  exists d' out', monitor_loop fuel d out local i frames = Some (d', out')
    /\ dev_inv d' /\ route_read d d' true (frames - i) /\ same_rest d d'
    /\ playback d' = playback d /\ consumed d' false = consumed d false
    /\ written d' = written d /\ discard d' = discard d /\ zlen out' = zlen out
    /\ forall k, 0 <= k < frames * 2 -> ld_f32 out' k
       = if k <? 2 * i then ld_f32 out k
         else mix_sample (ld_f32 out k)
                (played (monitor d) (consumed d true) (discard d true) (frames - i) (k - 2 * i)).
Proof.
  revert d out local i. induction fuel as [|fuel IH];
    intros d out local i Hinv Hi Hlt Hout Hloc Hfuel Hend; [lia|]. cbn [monitor_loop].
  destruct (Z.ltb_spec i frames) as [Hlti|].
  2: { exists d, out. split; [done|]. split; [done|].
       replace (frames - i) with 0 by lia. split; [apply route_read_0; [apply Hinv|lia]|].
       split_and!; try done. intros k Hk. by rewrite (proj2 (Z.ltb_lt _ _)) by lia. }
  unfold u32. rewrite !(wrapu_id 32 (frames - i)) by cint.
  set (n := if RA_FRAME >? frames - i then frames - i else RA_FRAME).
  assert (Hn : 0 < n <= frames - i /\ n <= RA_FRAME)
    by (subst n; unfold RA_FRAME; destruct (Z.gtb_spec 960 (frames - i)); lia).
  unfold RA_FRAME in *. unfold u64, sizeof_float.
  rewrite (wrapu_id 64 (n * 2)) by cint. rewrite (wrapu_id 64 (n * 2 * 4)) by cint.
  rewrite (wrapu_id 32 (n * 2)), (wrapu_id 32 (i * 2)), (wrapu_id 32 (i + n)) by cint.
  set (local0 := wr local 0 (zrep (n * 2 * 4) 0)).
  assert (Hl0 : zlen local0 = 960 * 8)
    by (subst local0; rewrite zlen_wr; rewrite ?zlen_zrep; lia).
  destruct (output_read_route d true local0 0 n Hinv)
    as (d1 & local1 & E & Hinv1 & Hr1 & Hs1 & Ho1 & Hc1 & Hw1 & Hd1 & Hz1 & Hld1); [lia..|].
  rewrite Z.mul_0_r in E. rewrite E.
  destruct (mix_loop_spec (Z.to_nat (n * 2)) 0 out (i * 2) local1) as [Hzm Hlm]; [lia..|].
  pose proof (di_route _ Hinv true) as Hri.
  pose proof (taken_range d true n Hri ltac:(lia)) as Htk.
  assert (Hdc : discard d1 true <= consumed d1 true).
  { rewrite (rr_con _ _ _ _ Hr1), Hd1. unfold advanced. lia. }
  destruct (IH d1 (mix_loop (Z.to_nat (n * 2)) 0 out (i * 2) local1) local1 (i + n))
    as (d' & out' & E' & Hinv' & Hr' & Hs' & Hp' & Hc' & Hw' & Hd' & Hz' & Hld');
    [done|lia|done|lia|lia|lia|done|].
  exists d', out'. split; [exact E'|]. split; [done|].
  split. { replace (frames - i) with (n + (frames - (i + n))) by lia.
           eapply route_read_trans; [done|lia|lia|exact Hr1|exact Hr']. }
  split. { unfold same_rest in *. destruct Hs1 as (?&?&?&?&?&?), Hs' as (?&?&?&?&?&?).
           split_and!; congruence. }
  cbn [out_ring negb] in Ho1, Hc1. split_and!; [congruence..|].
  intros k Hk. rewrite Hld', Hlm by lia.
  rewrite (Z.add_0_r (i * 2)), Z2Nat.id by lia.
  destruct (Z.ltb_spec k (2 * i)) as [Hki|Hki].
  { rewrite (proj2 (Z.ltb_lt k (2 * (i + n)))) by lia.
    by rewrite (proj2 (Z.leb_gt (i * 2) k)) by lia. }
  rewrite (proj2 (Z.leb_le (i * 2) k)) by lia. cbn [andb].
  assert (Hinr : played (monitor d1) (consumed d1 true) (discard d1 true)
      (frames - (i + n)) (k - 2 * (i + n))
    = played (monitor d) (consumed d true) (discard d true) (frames - i)
      (2 * n + (k - 2 * (i + n))) \/ k < 2 * (i + n)).
  { destruct (Z.lt_ge_cases k (2 * (i + n))) as [|Hge]; [by right|left].
    replace (frames - (i + n)) with (frames - i - n) by lia. rewrite Hd1.
    rewrite (rr_con _ _ _ _ Hr1). unfold advanced. rewrite Z.add_assoc.
    pose proof (ri_wri _ _ (rr_inv _ _ _ _ Hr1)) as Hw. pose proof (ri_wri _ _ Hri) as Hw0.
    rewrite (rr_con _ _ _ _ Hr1), (rr_wri _ _ _ _ Hr1) in Hw. unfold advanced in Hw.
    apply played_shift; [apply Htk|lia|lia|cbn [out_ring] in *; unfold taken in *; cbn [out_ring] in *; lia|].
    apply (rr_content _ _ _ _ Hr1). }
  destruct (Z.ltb_spec k (2 * (i + n))) as [Hkn|Hkn].
  - rewrite (proj2 (Z.ltb_lt k (i * 2 + n * 2))) by lia. f_equal.
    rewrite Hld1 by lia. rewrite Z.add_0_l, Z.sub_0_r.
    rewrite (proj2 (Z.leb_le 0 (k - i * 2))) by lia. cbn [andb].
    replace (k - i * 2) with (k - 2 * i) by lia.
    unfold played. change (out_ring d true) with (monitor d).
    unfold taken in *. cbn [out_ring] in *.
    set (av := ring_frames (monitor d) - Z.max 0 (discard d true - consumed d true)) in *.
    destruct (Z.ltb_spec (k - 2 * i) (2 * Z.min n av)) as [Ht|Ht].
    + rewrite (proj2 (Z.ltb_lt (k - 2 * i) (2 * Z.min (frames - i) av))) by lia. done.
    + rewrite (proj2 (Z.ltb_ge (k - 2 * i) (2 * Z.min (frames - i) av))) by lia.
      subst local0. rewrite (ld_wr local 0) by (rewrite ?zlen_zrep; try lia; by exists (n * 2); lia).
      rewrite zlen_zrep by lia. rewrite (proj2 (Z.leb_le 0 (k - 2 * i))) by lia.
      rewrite Z.div_mul, (proj2 (Z.ltb_lt (k - 2 * i) (0 + n * 2))) by lia. cbn [andb].
      by rewrite ld_zrep by lia.
  - destruct Hinr as [->|]; [|lia].
    rewrite (proj2 (Z.ltb_ge k (i * 2 + n * 2))) by lia. do 2 f_equal. lia.
Qed.
End device.

(** ** The capture path *)

(** The frames the callback cuts from the stream [all] of pending and new samples,
    [c0] of them pending when the callback reaches sample [i]. *)
Definition cap_frame (e : Z) (now_at : Z -> spec_float) (i c0 : Z) (all : list Z) (j : nat)
    : ra_frame :=
  mk_frame e (now_at (i + Z.max 0 (RA_FRAME * Z.of_nat j - c0)))
    (rd all (RA_FRAME * 4 * Z.of_nat j) (RA_FRAME * 4)).

Definition cap_frames e now_at i c0 all (n : Z) : list ra_frame :=
  map (cap_frame e now_at i c0 all) (seq 0 (Z.to_nat n)).

Lemma cap_frames_S e now_at i c0 all n :
  0 < n -> 0 <= c0 < RA_FRAME -> RA_FRAME * 4 <= zlen all ->
  cap_frames e now_at i c0 all n
  = mk_frame e (now_at i) (take (Z.to_nat (RA_FRAME * 4)) all)
    :: cap_frames e now_at (i + (RA_FRAME - c0)) 0 (drop (Z.to_nat (RA_FRAME * 4)) all) (n - 1).
Proof.
  intros Hn Hc Hall. unfold cap_frames, RA_FRAME in *.
  replace (Z.to_nat n) with (S (Z.to_nat (n - 1))) by lia. cbn [seq map]. f_equal.
  - unfold cap_frame, RA_FRAME. f_equal. f_equal. lia.
  - rewrite <- seq_shift, map_map. apply map_ext. intros j. unfold cap_frame, RA_FRAME.
    rewrite rd_drop by lia. f_equal; [f_equal; lia|]. f_equal. lia.
Qed.

Section capture.
Context {R : Type} `{FrameRing R}.
Implicit Types d : ra_device R.

Record cap_inv d : Prop := {
  ci_ring : rb_blocks sizeof_ra_frame (capture d);
  ci_samples : zlen (fr_samples (pending d)) = RA_FRAME * 4;
  ci_captured : 0 <= captured d < RA_FRAME }.

Definition cap_space d : Z :=
  (subbufferSizeInBytes (capture d) - rb_avail (capture d)) / sizeof_ra_frame.

(** The samples pending for epoch [e]. *)
Definition cap_buf d (e : Z) : list Z :=
  if fr_epoch (pending d) =? e
  then take (Z.to_nat (4 * captured d)) (fr_samples (pending d)) else [].

Definition cap_count d (e : Z) : Z := if fr_epoch (pending d) =? e then captured d else 0.

(** Everything the capture path does not touch. *)
Definition same_out d d' : Prop :=
  out_ring d' = out_ring d /\ reference d' = reference d /\ written d' = written d
  /\ consumed d' = consumed d /\ discard d' = discard d /\ epoch d' = epoch d
  /\ wake d' = wake d.

Lemma zlen_frame_bytes f :
  zlen (fr_samples f) = RA_FRAME * 4 -> zlen (frame_bytes f) = sizeof_ra_frame.
Proof.
  intros Hf. unfold frame_bytes. rewrite !zlen_app, !zlen_le_bytes, Hf, zlen_zrep by lia. done.
Qed.

Lemma zlen_cap_buf d e : cap_inv d -> zlen (cap_buf d e) = 4 * cap_count d e.
Proof.
  intros [_ Hs Hc]. unfold cap_buf, cap_count. case_match; [|done].
  rewrite zlen_take by lia. unfold RA_FRAME in *. lia.
Qed.

(** Storing the completed frame, or dropping it when the ring is full. *)
Definition push_frame (r : ma_rb) (p : ra_frame) : ma_rb :=
  let '(result, size, data, r) := ma_rb_acquire_write r sizeof_ra_frame in
  if (result =? MA_SUCCESS) && (size =? sizeof_ra_frame)
  then snd (ma_rb_commit_write (with_buffer r (wr (pBuffer r) data (frame_bytes p))) size)
  else r.

Lemma push_frame_spec r p :
  rb_blocks sizeof_ra_frame r -> zlen (fr_samples p) = RA_FRAME * 4 ->
  let space := (subbufferSizeInBytes r - rb_avail r) / sizeof_ra_frame in
  rb_blocks sizeof_ra_frame (push_frame r p)
  /\ subbufferSizeInBytes (push_frame r p) = subbufferSizeInBytes r
  /\ 0 <= space
  /\ (subbufferSizeInBytes r - rb_avail (push_frame r p)) / sizeof_ra_frame = Z.max 0 (space - 1)
  /\ rb_content (push_frame r p)
     = rb_content r ++ (if 0 <? space then frame_bytes p else []).
Proof.
  intros Hr Hp space. unfold push_frame.
  pose proof (push_block _ r Hr (frame_bytes p) (zlen_frame_bytes p Hp)) as Hpush.
  pose proof (rb_avail_bounds _ (bk_wf _ _ Hr)) as (? & ? & _).
  assert (Hsp : 0 <= space) by (apply Z.div_pos; [lia|done]).
  assert (Hsz : 0 < sizeof_ra_frame) by done.
  pose proof (Z.div_mod (subbufferSizeInBytes r - rb_avail r) sizeof_ra_frame ltac:(lia)) as Hdm.
  pose proof (Z.mod_pos_bound (subbufferSizeInBytes r - rb_avail r) sizeof_ra_frame Hsz).
  fold space in Hdm.
  destruct (Z.leb_spec (rb_avail r + sizeof_ra_frame) (subbufferSizeInBytes r)) as [Hfit|Hfull].
  - destruct Hpush as (-> & r' & -> & Hr' & Hc & Hs). rewrite !Z.eqb_refl. cbn [andb snd].
    assert (0 < space) by nia. rewrite (proj2 (Z.ltb_lt 0 space)) by done.
    assert (Hav : rb_avail r' = rb_avail r + sizeof_ra_frame).
    { rewrite <- !zlen_rb_content, Hc, zlen_app, zlen_frame_bytes
        by (first [done|apply bk_wf with sizeof_ra_frame; done]). done. }
    split_and!; [done..| |done]. rewrite Hav.
    replace (subbufferSizeInBytes r - (rb_avail r + sizeof_ra_frame))
      with (subbufferSizeInBytes r - rb_avail r + (-1) * sizeof_ra_frame) by lia.
    rewrite Z.div_add by lia. fold space. lia.
  - rewrite Hpush. change (0 =? sizeof_ra_frame) with false. rewrite andb_false_r. assert (space = 0) as Hz by nia.
    rewrite (proj2 (Z.ltb_ge 0 space)), app_nil_r by lia. fold space.
    split_and!; (done || lia).
Qed.

(** One iteration: the next samples of epoch [e] join the pending ones. *)
Definition cap_take d (e : Z) (input : list Z) (i n : Z) : ra_device R :=
  set_pending d
    (mk_frame e (fr_time (pending d))
       (wr (fr_samples (pending d)) (4 * cap_count d e) (rd input (4 * i) (n * 4))))
    (cap_count d e + n).

(** The pending frame is complete: stamped, pushed and forgotten. *)
Definition cap_flush d (t : spec_float) : ra_device R :=
  let p := mk_frame (fr_epoch (pending d)) t (fr_samples (pending d)) in
  set_pending (set_capture d (push_frame (capture d) p)) p 0.

Lemma capture_loop_unfold fuel epoch_at now_at d input i frames :
  cap_inv d -> 0 <= i < frames -> frames < 2 ^ 30 ->
  let e := epoch_at i in
  let n := Z.min (RA_FRAME - cap_count d e) (frames - i) in
  let d1 := cap_take d e input i n in
  capture_loop (S fuel) epoch_at now_at d input i frames
  = capture_loop fuel epoch_at now_at
      (if captured d1 =? RA_FRAME then cap_flush d1 (now_at i) else d1) input (i + n) frames.
Proof.
  intros [Hr Hs Hc] Hi Hf e n d1. cbn [capture_loop].
  rewrite (proj2 (Z.ltb_lt i frames)) by lia. fold e. unfold RA_FRAME in *.
  assert (Hcc : 0 <= cap_count d e < 960) by (unfold cap_count; case_match; lia).
  set (d0 := if negb _ then _ else d).
  assert (Hd0 : d0 = set_pending d (mk_frame e (fr_time (pending d)) (fr_samples (pending d)))
                       (cap_count d e)).
  { subst d0. unfold cap_count. destruct (Z.eqb_spec (fr_epoch (pending d)) e) as [<-|]; [|done].
    by destruct d as [? ? ? ? ? ? ? ? ? ? ? ? ? ? ? ? ? [] ? ?]. }
  rewrite Hd0. cbn [captured set_pending pending fr_epoch fr_time fr_samples capture].
  unfold u32. rewrite (wrapu_id 32 (960 - _)), !(wrapu_id 32 (frames - i)) by cint.
  assert (Hn : (if 960 - cap_count d e >? frames - i then frames - i else 960 - cap_count d e) = n)
    by (subst n; destruct (Z.gtb_spec (960 - cap_count d e) (frames - i)); lia).
  rewrite !Hn. unfold u64, sizeof_float.
  rewrite (wrapu_id 64 (n * 4)), (wrapu_id 32 (i + n)), (wrapu_id 32 (cap_count d e + n)) by cint.
  subst d1. unfold cap_take. cbn [captured set_pending].
  destruct (Z.eqb_spec (cap_count d e + n) 960); [|done].
  unfold cap_flush, push_frame. cbn [captured set_pending set_capture pending fr_epoch fr_time fr_samples
    capture]. by destruct (ma_rb_acquire_write (capture d) sizeof_ra_frame) as [[[? ?] ?] ?].
Qed.

Lemma cap_take_spec d e input i n :
  cap_inv d -> 0 <= i -> 0 < n -> n <= RA_FRAME - cap_count d e -> 4 * (i + n) <= zlen input ->
  let d1 := cap_take d e input i n in
  zlen (fr_samples (pending d1)) = RA_FRAME * 4
  /\ take (Z.to_nat (4 * captured d1)) (fr_samples (pending d1))
     = cap_buf d e ++ rd input (4 * i) (4 * n).
Proof.
  intros Hinv Hi Hn Hc Hlen d1. pose proof (zlen_cap_buf d e Hinv) as Hb.
  destruct Hinv as [_ Hs Hcap]. unfold RA_FRAME in *.
  assert (Hcc : 0 <= cap_count d e < 960) by (unfold cap_count; case_match; lia).
  assert (Hz : zlen (rd input (4 * i) (n * 4)) = n * 4) by (apply zlen_rd; lia).
  subst d1. cbn [pending captured cap_take set_pending fr_samples]. split.
  - rewrite zlen_wr; rewrite ?Hz; lia.
  - replace (4 * (cap_count d e + n)) with (4 * cap_count d e + zlen (rd input (4 * i) (n * 4)))
      by lia.
    rewrite take_wr by lia. f_equal; [|f_equal; lia].
    unfold cap_buf, cap_count. by case_match.
Qed.

Lemma same_out_trans d d1 d2 : same_out d d1 -> same_out d1 d2 -> same_out d d2.
Proof.
  unfold same_out. intros (?&?&?&?&?&?&?) (?&?&?&?&?&?&?). split_and!; congruence.
Qed.

(** What a callback's samples turn into when the epoch does not change. *)
Record cap_result (e : Z) (now_at : Z -> spec_float) d (i : Z) (all : list Z) d' : Prop := {
  cr_inv : cap_inv d';
  cr_out : same_out d d';
  cr_size : subbufferSizeInBytes (capture d') = subbufferSizeInBytes (capture d);
  cr_content : rb_content (capture d') = rb_content (capture d)
    ++ concat (map frame_bytes (cap_frames e now_at i (cap_count d e) all
                 (Z.min (zlen all / (RA_FRAME * 4)) (cap_space d))));
  cr_captured : cap_count d' e = zlen all / 4 mod RA_FRAME;
  cr_buf : cap_buf d' e = drop (Z.to_nat (RA_FRAME * 4 * (zlen all / (RA_FRAME * 4)))) all;
  cr_epoch : fr_epoch (pending d') = e }.

Lemma cap_space_nonneg d : cap_inv d -> 0 <= cap_space d.
Proof.
  intros [Hr _ _]. pose proof (rb_avail_bounds _ (bk_wf _ _ Hr)) as (? & ? & _).
  apply Z.div_pos; [lia|done].
Qed.

Lemma capture_loop_spec fuel e now_at d input i frames :
  cap_inv d -> 0 <= i <= frames -> frames < 2 ^ 30 -> zlen input = 4 * frames ->
  (i = frames -> fr_epoch (pending d) = e) -> frames - i < Z.of_nat fuel ->
  exists d', capture_loop fuel (fun _ => e) now_at d input i frames = Some d'
    /\ cap_result e now_at d i (cap_buf d e ++ rd input (4 * i) (4 * (frames - i))) d'.
Proof.
  revert d i. induction fuel as [|fuel IH]; intros d i Hinv Hi Hf Hin He Hfuel; [lia|].
  pose proof (zlen_cap_buf d e Hinv) as Hb. pose proof (cap_space_nonneg d Hinv) as Hsp0.
  assert (Hcc : 0 <= cap_count d e < RA_FRAME)
    by (pose proof (ci_captured _ Hinv); unfold cap_count; case_match; unfold RA_FRAME in *; lia).
  destruct (decide (i = frames)) as [->|Hne].
  { exists d. cbn [capture_loop]. rewrite Z.ltb_irrefl. split; [done|].
    rewrite Z.sub_diag, Z.mul_0_r, rd_0, app_nil_r. unfold RA_FRAME in *.
    assert (Hz : zlen (cap_buf d e) / (960 * 4) = 0) by (rewrite Hb; apply Z.div_small; lia).
    split; unfold RA_FRAME; rewrite ?Hz; try done; [| |by apply He].
    - rewrite Z.min_l by lia. by rewrite app_nil_r.
    - rewrite Hb, Z.mul_comm, Z.div_mul, Z.mod_small by lia. done. }
  rewrite capture_loop_unfold by (done || lia).
  set (n := Z.min (RA_FRAME - cap_count d e) (frames - i)).
  assert (Hn : 0 < n /\ n <= RA_FRAME - cap_count d e /\ n <= frames - i) by (unfold n; lia).
  destruct (cap_take_spec d e input i n Hinv) as [Hs1 Hb1]; [lia..|].
  set (d1 := cap_take d e input i n) in *.
  assert (Hall : cap_buf d e ++ rd input (4 * i) (4 * (frames - i))
      = (cap_buf d e ++ rd input (4 * i) (4 * n)) ++ rd input (4 * (i + n)) (4 * (frames - (i + n)))).
  { rewrite <- app_assoc. f_equal.
    replace (4 * (frames - i)) with (4 * n + 4 * (frames - (i + n))) by lia.
    rewrite rd_split by lia. f_equal. f_equal. lia. }
  set (all := cap_buf d e ++ rd input (4 * i) (4 * (frames - i))) in *.
  assert (Hzall : zlen all = 4 * (cap_count d e + (frames - i)))
    by (unfold all; rewrite zlen_app, Hb, zlen_rd; lia).
  change (captured d1) with (cap_count d e + n) in *.
  destruct (Z.eqb_spec (cap_count d e + n) RA_FRAME) as [Hfull|Hpart].
  - set (d2 := cap_flush d1 (now_at i)).
    set (p := mk_frame e (now_at i) (fr_samples (pending d1))).
    destruct (push_frame_spec (capture d) p (ci_ring _ Hinv) Hs1) as (Hr2 & Hz2 & _ & Hsp2 & Hc2).
    assert (Hinv2 : cap_inv d2) by (by split).
    destruct (IH d2 (i + n) Hinv2) as (d' & E & [I O Z' C K B Ep]); [lia|done|done|done|lia|].
    exists d'. split; [exact E|].
    assert (Hbuf2 : cap_buf d2 e = []) by (unfold cap_buf; by destruct (fr_epoch (pending d2) =? e)).
    assert (Hcnt2 : cap_count d2 e = 0) by (unfold cap_count; by destruct (fr_epoch (pending d2) =? e)).
    rewrite Hbuf2, app_nil_l, Hcnt2 in *.
    set (rest := rd input (4 * (i + n)) (4 * (frames - (i + n)))) in *.
    assert (Hzr : zlen rest = 4 * (frames - (i + n))) by (apply zlen_rd; lia).
    rewrite Hfull in Hb1. rewrite take_ge in Hb1 by (unfold zlen in Hs1; unfold RA_FRAME in *; lia).
    rewrite <- Hb1 in Hall.
    assert (Hrest : rest = drop (Z.to_nat (RA_FRAME * 4)) all).
    { rewrite Hall. symmetry. apply drop_app_length'. unfold zlen in Hs1. lia. }
    assert (Hp : take (Z.to_nat (RA_FRAME * 4)) all = fr_samples (pending d1)).
    { rewrite Hall. apply take_app_length'. unfold zlen in Hs1. lia. }
    assert (Hnb : zlen all / (RA_FRAME * 4) = 1 + zlen rest / (RA_FRAME * 4)).
    { replace (zlen all) with (zlen rest + 1 * (RA_FRAME * 4)) by (unfold RA_FRAME in *; lia).
      rewrite Z.div_add by done. lia. }
    assert (0 <= zlen rest / (RA_FRAME * 4)) by (apply Z.div_pos; [lia|done]).
    assert (Hcs : cap_space d2 = Z.max 0 (cap_space d - 1)).
    { unfold cap_space at 1. change (capture d2) with (push_frame (capture d) p).
      rewrite Hz2. exact Hsp2. }
    split; [done|exact O|exact (eq_trans Z' Hz2)| |..|done].
    + rewrite C. change (capture d2) with (push_frame (capture d) p). rewrite Hc2, <- app_assoc.
      f_equal. rewrite Hnb, Hcs. fold (cap_space d).
      destruct (Z.ltb_spec 0 (cap_space d)) as [Hsp|Hsp].
      * rewrite (cap_frames_S e now_at i (cap_count d e)) by (unfold RA_FRAME in *; lia).
        cbn [map concat]. rewrite Hp, <- Hrest. f_equal.
        replace (RA_FRAME - cap_count d e) with n by lia. do 4 f_equal. lia.
      * rewrite !Z.min_r by lia. rewrite Z.max_l by lia.
        by replace (cap_space d) with 0 by lia.
    + rewrite K. replace (zlen all / 4) with (zlen rest / 4 + 1 * RA_FRAME).
      * by rewrite Z_mod_plus_full.
      * rewrite Hzall, Hzr, !(Z.mul_comm 4), !Z.div_mul by done. lia.
    + rewrite B, Hnb. set (q := zlen rest / (RA_FRAME * 4)) in *. clearbody q.
      rewrite Hrest, drop_drop_Z by (unfold RA_FRAME in *; lia). f_equal. f_equal. lia.
  - assert (Hnf : n = frames - i) by lia.
    replace (frames - (i + n)) with 0 in Hall by lia.
    rewrite Z.mul_0_r, rd_0, app_nil_r in Hall.
    assert (Hinv1 : cap_inv d1) by (split; [apply Hinv|done|change (captured d1) with
      (cap_count d e + n); lia]).
    assert (Hcnt1 : cap_count d1 e = cap_count d e + n)
      by (unfold cap_count at 1; simpl; by rewrite Z.eqb_refl).
    assert (Hbuf1 : cap_buf d1 e = all)
      by (unfold cap_buf at 1; simpl; rewrite Z.eqb_refl, Hall; exact Hb1).
    destruct (IH d1 (i + n) Hinv1) as (d' & E & [I O Z' C K B Ep]); [lia|done|done|done|lia|].
    exists d'. split; [exact E|].
    replace (frames - (i + n)) with 0 in * by lia.
    rewrite Z.mul_0_r, rd_0, app_nil_r, Hbuf1, Hcnt1 in *.
    assert (Hz : zlen all / (RA_FRAME * 4) = 0)
      by (apply Z.div_small; unfold RA_FRAME in *; lia).
    split; [done|exact O|exact Z'| |done..]. rewrite C, Hz.
    change (capture d1) with (capture d). rewrite !Z.min_l by (done || apply Hsp0). done.
Qed.
End capture.
