(* ===== verification/AdapterProps.v ===== *)
(** * What the device adapter guarantees

    The callback's output and capture paths, the discard protocol, the capture
    queue and the device identifiers, with the rings the program uses
    ([ma_pcm_rb] in frames of two floats) as the instance in the witnesses. *)
From Stdlib Require Import ZArith Lia Bool SpecFloat.
From stdpp Require Import base numbers list option.
From S2P Require Import Prelude MaTypes CFloat Ring BlockRing FrameRing PcmRing FrameCopy Adapter.

Local Open Scope Z_scope.

(** ** A sample device *)

Definition demo_frames (size : Z) : ma_pcm_rb :=
  mk_pcm_rb (snd (ma_data_source_init (Some true))) (fresh_ring (size * 8)) ma_format_f32 2 0.

Definition demo_device : ra_device ma_pcm_rb :=
  mk_device (mk_ma_rb (zrep 7712 0) 7712 1 7712 0 0 true false)
    (demo_frames 4) (demo_frames 4) (demo_frames 4)
    (fun _ => 0) (fun _ => 0) (fun _ => 0) true true true true true true true 7 0 0
    (mk_frame 0 f32_zero (zrep 3840 0)) 0 true.

Lemma demo_frames_ok : pcm_ok 8 (demo_frames 4) /\ pcm_frames (demo_frames 4) = 0.
Proof.
  destruct (fresh_pcm_ok (snd (ma_data_source_init (Some true))) 4 ma_format_f32 2 0)
    as (H & _ & Hf & _); [vm_decide..|]. by split.
Qed.

Lemma demo_dev_inv : dev_inv demo_device.
Proof.
  destruct demo_frames_ok as [Hok Hf].
  split; [|exact Hok].
  intros mon. split; destruct mon; simpl; (exact Hok || rewrite ?Hf; vm_decide).
Qed.

Lemma demo_cap_inv : cap_inv demo_device.
Proof.
  split; [|reflexivity|vm_decide].
  apply rb_blocks_fresh; [vm_decide..|]. exists 2. reflexivity.
Qed.

(** ** Playback *)

Section playback.
Context {R : Type} `{FrameRingLaws R 8}.
Implicit Types d : ra_device R.

(** The block the callback copies to the reference ring: the playback route
    alone, before the monitor is mixed in. *)
Definition plays d (frames : Z) (m : list Z) : Prop :=
  zlen m = frames * 8 /\
  forall k, 0 <= k < frames * 2 ->
    ld_f32 m k = played (playback d) (consumed d false) (discard d false) frames k.

Lemma data_callback_output_spec epoch_at now_at local d out frames :
  dev_inv d -> 0 < frames -> frames * 8 < 2 ^ 32 -> zlen out = frames * 8 ->
  zlen local = RA_FRAME * 8 ->
  exists d' out' refd,
    data_callback epoch_at now_at local d (Some out) None frames = Some (d', Some out', wake d)
    /\ dev_inv d' /\ route_read d d' false frames /\ route_read d d' true frames
    /\ plays d frames refd
    /\ ring_content (reference d') = ring_content (reference d)
         ++ rd refd 0 (Z.min frames (ring_space (reference d)) * 8)
    /\ zlen out' = frames * 8
    /\ forall k, 0 <= k < frames * 2 -> ld_f32 out' k
       = mix_sample (ld_f32 refd k)
           (played (monitor d) (consumed d true) (discard d true) frames k).
Proof.
  intros Hinv Hf Hlt Hout Hloc. unfold data_callback, u64, sizeof_float.
  rewrite (wrapu_id 64 (frames * 2)) by cint. rewrite (wrapu_id 64 (frames * 2 * 4)) by cint.
  set (out0 := wr out 0 (zrep (frames * 2 * 4) 0)).
  assert (Hz0 : zlen (zrep (frames * 2 * 4) 0) = zlen out) by (rewrite zlen_zrep; lia).
  assert (Ho0 : out0 = zrep (frames * 2 * 4) 0) by (by apply wr_full).
  destruct (output_read_route d false out0 0 frames Hinv)
    as (d1 & refd & E & Hinv1 & Hr1 & Hs1 & Ho1 & Hc1 & Hw1 & Hd1 & Hz1 & Hld1);
    [lia..|rewrite Ho0, zlen_zrep; lia|].
  rewrite Z.mul_0_r in E. rewrite E.
  assert (Hzr : zlen refd = frames * 8) by (rewrite Hz1, Ho0, zlen_zrep; lia).
  destruct (rb_write_spec (bpf:=8) 2 eq_refl (reference d1) refd 0 frames)
    as (r & E2 & Hok2 & Hc2 & _); [apply Hinv1|lia..|]. rewrite E2.
  set (d2 := set_reference d1 r).
  assert (Hinv2 : dev_inv d2).
  { split; [|done]. intros mon. destruct (di_route _ Hinv1 mon). split; by destruct mon. }
  destruct (monitor_loop_spec (S (Z.to_nat frames)) d2 refd local 0 frames Hinv2)
    as (d3 & out' & E3 & Hinv3 & Hr3 & Hs3 & Hp3 & Hc3 & Hw3 & Hd3 & Hz3 & Hld3); [lia..|].
  rewrite E3. destruct Hs1 as (_ & Href1 & _ & _ & _ & Hwk1), Hs3 as (_ & Href3 & _ & _ & _ & Hwk3).
  exists d3, out', refd. cbn [out_ring negb] in Ho1, Hc1.
  assert (Hplay : plays d frames refd).
  { split; [done|]. intros k Hk. rewrite Hld1 by lia. rewrite Z.sub_0_r, Z.add_0_l.
    rewrite (proj2 (Z.leb_le 0 k)) by lia. cbn [andb out_ring].
    destruct (Z.ltb_spec k (2 * taken d false frames)) as [|Hge]; [done|].
    unfold played. unfold taken in Hge. cbn [out_ring] in Hge.
    rewrite (proj2 (Z.ltb_ge _ _)) by lia. rewrite Ho0. apply ld_zrep; lia. }
  split_and!; [|done| | |done| |lia|].
  - by rewrite Hwk3; change (wake d2) with (wake d1); rewrite Hwk1.
  - destruct Hr1 as [_ C1 D1 W1 K1]. split; [apply Hinv3|..].
    + rewrite Hc3. exact C1.
    + rewrite Hd3. exact D1.
    + rewrite Hw3. exact W1.
    + cbn [out_ring] in *. rewrite Hp3. exact K1.
  - rewrite Z.sub_0_r in Hr3. destruct Hr3 as [_ C3 D3 W3 K3].
    assert (Ha : advanced d2 true frames = advanced d true frames).
    { unfold advanced, taken. change (consumed d2 true) with (consumed d1 true).
      change (discard d2 true) with (discard d1 true).
      change (out_ring d2 true) with (monitor d1). by rewrite Hc1, Hd1, Ho1. }
    rewrite Ha in *. split; [apply Hinv3|..].
    + rewrite C3. change (consumed d2 true) with (consumed d1 true). by rewrite Hc1.
    + rewrite D3. change (discard d2 true) with (discard d1 true). by rewrite Hd1.
    + rewrite W3. change (written d2 true) with (written d1 true). by rewrite Hw1.
    + rewrite K3. change (out_ring d2 true) with (monitor d1). by rewrite Ho1.
  - rewrite Href3. change (reference d2) with r. by rewrite Hc2, Href1.
  - intros k Hk. rewrite Hld3 by lia. rewrite (proj2 (Z.ltb_ge k (2 * 0))) by lia.
    rewrite !Z.sub_0_r. change (monitor d2) with (monitor d1).
    change (consumed d2 true) with (consumed d1 true).
    change (discard d2 true) with (discard d1 true). by rewrite Ho1, Hc1, Hd1.
Qed.
End playback.

Lemma mix_sample_bounded a b :
  is_nan (mix_sample a b) = true
  \/ SFleb f32_mone (mix_sample a b) = true /\ SFleb (mix_sample a b) f32_one = true.
Proof.
  unfold mix_sample. set (v := f32_add a b). unfold fgt, flt.
  destruct (is_nan v) eqn:En.
  { left. destruct v; try done. }
  right. destruct (SFltb f32_one v) eqn:E1; [by split|].
  destruct (SFltb v f32_mone) eqn:E2; [by split|].
  split; by apply not_lt_leb.
Qed.

Lemma mix_sample_not_nan a b :
  is_finite a = true -> is_finite b = true -> is_nan (mix_sample a b) = false.
Proof.
  intros Ha Hb. unfold mix_sample. repeat case_match; try done. by apply SFadd_not_nan.
Qed.

(** C12. One playback callback: each of the [frames] stereo frames of the output is
    the clamped sum of what the playback route and the monitor route play, each
    route yielding the frames behind its discard position in order and then
    silence; the two read cursors advance by exactly the frames skipped and
    played; the reference ring receives the playback route alone; the callback
    terminates for every state. *)
Theorem data_callback_output_correct {R} `{FrameRingLaws R 8} epoch_at now_at local
    (d : ra_device R) out frames :
  dev_inv d -> 0 < frames -> frames * 8 < 2 ^ 32 -> zlen out = frames * 8 ->
  zlen local = RA_FRAME * 8 ->
  exists d' out' refd,
    data_callback epoch_at now_at local d (Some out) None frames = Some (d', Some out', wake d)
    /\ dev_inv d' /\ route_read d d' false frames /\ route_read d d' true frames
    /\ plays d frames refd
    /\ ring_content (reference d') = ring_content (reference d)
         ++ rd refd 0 (Z.min frames (ring_space (reference d)) * 8)
    /\ forall k, 0 <= k < frames * 2 -> ld_f32 out' k
       = mix_sample (played (playback d) (consumed d false) (discard d false) frames k)
           (played (monitor d) (consumed d true) (discard d true) frames k).
Proof.
  intros. destruct (data_callback_output_spec epoch_at now_at local d out frames)
    as (d' & out' & refd & E & Hi & Hp & Hm & Hpl & Href & _ & Hld); [done..|].
  exists d', out', refd. split_and!; try done. intros k Hk. rewrite Hld by done.
  f_equal. by apply Hpl.
Qed.

Lemma data_callback_output_correct_witness :
  exists d' out' refd,
    data_callback (fun _ => 7) (fun _ => f32_zero) (zrep 7680 3) demo_device
      (Some (zrep 16 9)) None 2 = Some (d', Some out', true)
    /\ dev_inv d' /\ plays demo_device 2 refd.
Proof.
  destruct (data_callback_output_correct (fun _ => 7) (fun _ => f32_zero) (zrep 7680 3)
    demo_device (zrep 16 9) 2 demo_dev_inv) as (d' & out' & refd & E & Hi & _ & _ & Hp & _);
    [vm_decide..|].
  exists d', out', refd. exact (conj E (conj Hi Hp)).
Defined.

(** The output never leaves [-1, 1], whatever the clients wrote: every sample is in range
    or is a NaN, and it is not a NaN when the two samples mixed are finite. *)
Theorem data_callback_output_bounded {R} `{FrameRingLaws R 8} epoch_at now_at local
    (d d' : ra_device R) out out' frames w k :
  dev_inv d -> 0 < frames -> frames * 8 < 2 ^ 32 -> zlen out = frames * 8 ->
  zlen local = RA_FRAME * 8 -> 0 <= k < frames * 2 ->
  data_callback epoch_at now_at local d (Some out) None frames = Some (d', Some out', w) ->
  (is_nan (ld_f32 out' k) = true
   \/ SFleb f32_mone (ld_f32 out' k) = true /\ SFleb (ld_f32 out' k) f32_one = true)
  /\ (is_finite (played (playback d) (consumed d false) (discard d false) frames k) = true ->
      is_finite (played (monitor d) (consumed d true) (discard d true) frames k) = true ->
      is_nan (ld_f32 out' k) = false).
Proof.
  intros Hi Hf Hlt Ho Hl Hk E.
  destruct (data_callback_output_spec epoch_at now_at local d out frames Hi Hf Hlt Ho Hl)
    as (d2 & out2 & refd & E2 & _ & _ & _ & [_ Hpl] & _ & _ & Hld).
  rewrite E in E2. simplify_eq. rewrite Hld, Hpl by done.
  split; [apply mix_sample_bounded|apply mix_sample_not_nan].
Qed.

Lemma data_callback_output_bounded_witness :
  is_nan (ld_f32 (zrep 16 0) 3) = true
  \/ SFleb f32_mone (ld_f32 (zrep 16 0) 3) = true /\ SFleb (ld_f32 (zrep 16 0) 3) f32_one = true.
Proof.
  assert (E : exists d', data_callback (fun _ => 7) (fun _ => f32_zero) (zrep 7680 3) demo_device
      (Some (zrep 16 9)) None 2 = Some (d', Some (zrep 16 0), true))
    by (eexists; vm_compute; reflexivity).
  destruct E as [d' E].
  exact (proj1 (data_callback_output_bounded (fun _ => 7) (fun _ => f32_zero) (zrep 7680 3)
    demo_device d' (zrep 16 9) (zrep 16 0) 2 true 3 demo_dev_inv eq_refl eq_refl eq_refl eq_refl
    (conj (proj1 (Z.leb_le 0 3) eq_refl) eq_refl) E)).
Defined.

(** ** Changing the route *)



(** ** Capture *)

(** C16. One capture callback under a stable epoch: samples pending from another
    epoch are forgotten, the pending and new samples are cut into frames of 960 in
    order, each stamped with the epoch; as many as the queue has room for are
    appended to it and the rest are dropped; the samples left over become the
    pending ones.  No frame mixes two epochs. *)
Theorem data_callback_capture_correct {R} `{FrameRing R} e now_at local (d : ra_device R)
    input frames :
  cap_inv d -> 0 < frames < 2 ^ 30 -> zlen input = 4 * frames ->
  exists d', data_callback (fun _ => e) now_at local d None (Some input) frames
      = Some (d', None, wake d)
    /\ cap_result e now_at d 0 (cap_buf d e ++ input) d'.
Proof.
  intros Hinv Hf Hin. unfold data_callback.
  destruct (capture_loop_spec (S (Z.to_nat frames)) e now_at d input 0 frames)
    as (d' & -> & Hr); [done|lia|lia|done|lia|lia|].
  exists d'. rewrite Z.mul_0_r, Z.sub_0_r, <- Hin, rd_all in Hr. split; [|done].
  do 2 f_equal. by destruct (cr_out _ _ _ _ _ _ Hr) as (_ & _ & _ & _ & _ & _ & ->).
Qed.

Lemma data_callback_capture_correct_witness :
  exists d', data_callback (fun _ => 5) (fun _ => f32_zero) [] demo_device None
      (Some (zrep 4000 1)) 1000 = Some (d', None, true)
    /\ cap_result 5 (fun _ => f32_zero) demo_device 0 (zrep 4000 1) d'.
Proof.
  apply (data_callback_capture_correct 5 (fun _ => f32_zero) [] demo_device (zrep 4000 1) 1000);
    [apply demo_cap_inv|vm_decide..].
Defined.

(** A frame whose fields have the widths of the C struct. *)
Record frame_ok (f : ra_frame) : Prop := {
  fo_epoch : in_u 32 (fr_epoch f);
  fo_time : valid_binary 53 1024 (fr_time f) = true;
  fo_samples : zlen (fr_samples f) = RA_FRAME * 4 }.

Lemma frame_roundtrip f : frame_ok f -> frame_of_bytes (frame_bytes f) = f.
Proof.
  intros [He Ht Hs]. unfold frame_of_bytes, frame_bytes.
  assert (E1 : forall a b : list Z, rd (a ++ b) 0 (zlen a) = a).
  { intros. rewrite rd_app_l by (pose proof (zlen_nonneg a); lia). apply rd_all. }
  set (w1 := le_bytes 4 (fr_epoch f)). set (w2 := le_bytes 8 (bits_of_f64 (fr_time f))).
  assert (H1 : zlen w1 = 4) by apply zlen_le_bytes.
  assert (H2 : zlen w2 = 8) by apply zlen_le_bytes.
  assert (H3 : zlen (zrep 4 0) = 4) by done.
  rewrite <- H1 at 1. rewrite E1.
  rewrite (rd_app_r w1), (rd_app_r (zrep 4 0)) by (rewrite ?H1, ?H3; lia).
  rewrite H1, H3. change (8 - 4 - 4) with 0. rewrite <- H2 at 1. rewrite E1.
  rewrite (rd_app_r w1), (rd_app_r (zrep 4 0)), (rd_app_r w2) by (rewrite ?H1, ?H2, ?H3; done).
  rewrite H1, H2, H3. change (16 - 4 - 4 - 8) with 0. rewrite <- Hs, rd_all.
  subst w1 w2. rewrite !le_word_bytes.
  rewrite (Z.mod_small (fr_epoch f)) by (unfold in_u in He; exact He).
  rewrite Z.mod_small by exact (bits_of_f64_range _ Ht).
  rewrite f64_bits_roundtrip by done. by destruct f.
Qed.

Lemma capture_empty {R} (d : ra_device R) now :
  cap_inv d -> rb_content (capture d) = [] -> ra_device_capture now d = (None, d).
Proof.
  intros Hinv Hc. pose proof (pop_block _ _ (ci_ring _ Hinv)) as Hp.
  rewrite (proj2 (Z.eqb_eq _ 0)) in Hp
    by (rewrite <- zlen_rb_content, Hc by apply (ci_ring _ Hinv); done).
  unfold ra_device_capture. by rewrite Hp.
Qed.

(** The capture queue is first-in first-out: [ra_device_capture] returns the
    oldest complete frame unchanged, with its time stamp turned into an age, and
    removes it; with no complete frame it returns nothing and changes nothing. *)
Theorem ra_device_capture_fifo {R} (d : ra_device R) now f rest :
  cap_inv d -> frame_ok f ->
  (rb_content (capture d) = [] -> ra_device_capture now d = (None, d))
  /\ (rb_content (capture d) = frame_bytes f ++ rest ->
      exists d', ra_device_capture now d
          = (Some (mk_frame (fr_epoch f) (f64_sub now (fr_time f)) (fr_samples f)), d')
        /\ cap_inv d' /\ rb_content (capture d') = rest
        /\ pending d' = pending d /\ captured d' = captured d).
Proof.
  intros Hinv Hf. split; [by apply capture_empty|]. intros Hc.
  pose proof (zlen_frame_bytes f (fo_samples _ Hf)) as Hz.
  pose proof (pop_block _ _ (ci_ring _ Hinv)) as Hp.
  assert (Hav : rb_avail (capture d) <> 0).
  { rewrite <- zlen_rb_content by apply (ci_ring _ Hinv). rewrite Hc, zlen_app, Hz.
    pose proof (zlen_nonneg rest). unfold sizeof_ra_frame, RA_FRAME. lia. }
  rewrite (proj2 (Z.eqb_neq _ 0)) in Hp by done. destruct Hp as (E & Hrd & r' & E' & Hr' & Hc' & _).
  unfold ra_device_capture. rewrite E, E', Hrd, Hc. simpl negb. cbn [orb snd].
  assert (Hn : Z.to_nat sizeof_ra_frame = length (frame_bytes f)) by (unfold zlen in Hz; lia).
  rewrite Hn, take_app_length, frame_roundtrip by done.
  eexists. split; [reflexivity|]. split_and!; try done.
  - destruct Hinv. by split.
  - simpl. by rewrite Hc', Hc, Hn, drop_app_length.
Qed.

(** One frame of epoch 5 in the queue. *)
Lemma ra_device_capture_fifo_witness :
  exists d', ra_device_capture f32_one
      (set_capture demo_device (push_frame (capture demo_device)
         (mk_frame 5 f32_zero (zrep 3840 1))))
    = (Some (mk_frame 5 (f64_sub f32_one f32_zero) (zrep 3840 1)), d') /\ cap_inv d'.
Proof.
  set (f := mk_frame 5 f32_zero (zrep 3840 1)).
  destruct (push_frame_spec (capture demo_device) f (ci_ring _ demo_cap_inv) eq_refl)
    as (Hr & _ & _ & _ & Hc).
  edestruct (ra_device_capture_fifo (set_capture demo_device (push_frame (capture demo_device) f))
    f32_one f []) as [_ H]; [| |destruct H as (d' & E & Hi & _)].
  - split; [exact Hr|reflexivity|vm_decide].
  - split; vm_decide.
  - change (rb_content (push_frame (capture demo_device) f) = frame_bytes f ++ []).
    rewrite app_nil_r, Hc. vm_compute. reflexivity.
  - exists d'. exact (conj E Hi).
Defined.
