(* ===== verification/AdapterOpen.v ===== *)
(** * Opening and closing a device (device.c)

    The constructor acquires resources in order and, when a step fails, releases
    through [ra_device_close] what the [_ok] flags say it holds.  What the audio
    backend answers is an argument ([os]); the ring buffers are the real ones. *)
From Stdlib Require Import ZArith Lia Bool SpecFloat Permutation.
From stdpp Require Import base numbers list option.
From S2P Require Import Prelude MaTypes CFloat Ring FrameRing PcmRing Adapter.

Local Open Scope Z_scope.

(** ** Identifiers *)

(** The value of a character of [digits]. *)
Definition undigit (c : Z) : Z := if c <? 97 then c - 48 else c - 87.

Definition unhex (l : list Z) : Z :=
  match l with [h; l] => undigit h * 16 + undigit l | _ => -1 end.

Lemma unhex_hex b : in_u 8 b -> unhex (hex_byte b) = b.
Proof.
  intros Hb. unfold in_u in Hb.
  assert (E : forallb (fun b => unhex (hex_byte b) =? b) (seqZ 0 256) = true) by (vm_compute; done).
  rewrite forallb_forall in E. apply Z.eqb_eq, E, list_elem_of_In, elem_of_seqZ. lia.
Qed.

Lemma hex_inj l1 l2 :
  Forall (in_u 8) l1 -> Forall (in_u 8) l2 ->
  flat_map hex_byte l1 = flat_map hex_byte l2 -> l1 = l2.
Proof.
  intros H1. revert l2. induction H1 as [|a l1 Ha H1 IH]; intros [|b l2] H2 E; try done.
  inversion_clear H2 as [|? ? Hb Hl2]. cbn [flat_map] in E.
  apply app_inj_1 in E as [Eh Et]; [|done]. f_equal; [|by apply IH].
  by rewrite <- (unhex_hex a), <- (unhex_hex b), Eh by done.
Qed.

Lemma id_trim_le n l : (id_trim n l <= n)%nat.
Proof. induction n as [|n IH]; [done|]. cbn [id_trim]. case_match; lia. Qed.

(** What [id_trim] cuts off is zero. *)
Lemma id_trim_zeros n l i : (id_trim n l <= i < n)%nat -> nth i l 0 = 0.
Proof.
  induction n as [|n IH]; [lia|]. cbn [id_trim].
  destruct ((1 <? Z.of_nat (S n)) && (nth n l 0 =? 0)) eqn:E; [|lia].
  apply andb_true_iff in E as [_ E%Z.eqb_eq]. intros Hi.
  destruct (decide (i = n)) as [->|]; [done|]. apply IH. lia.
Qed.

Lemma id_ext l1 l2 n :
  length l1 = length l2 -> take n l1 = take n l2 ->
  (forall i, (n <= i < length l1)%nat -> nth i l1 0 = 0) ->
  (forall i, (n <= i < length l1)%nat -> nth i l2 0 = 0) -> l1 = l2.
Proof.
  intros Hlen Ht H1 H2. apply (nth_ext _ _ 0 0); [done|]. intros i Hi.
  destruct (Nat.lt_ge_cases i n) as [Hin|Hin]; [|by rewrite H1, H2 by lia].
  rewrite <- (take_drop n l1), <- (take_drop n l2), Ht.
  by rewrite !app_nth1 by (rewrite length_take; lia).
Qed.

(** [strcmp(text, selected) == 0] against the C string of an identifier. *)
Definition id_matches (selected : list Z) (id : list Z) : bool :=
  if decide (id_string id = selected ++ [0]) then true else false.

Definition id_ok (id : list Z) : Prop := length id = sizeof_ma_device_id /\ Forall (in_u 8) id.

Lemma id_string_inj a b : id_ok a -> id_ok b -> id_string a = id_string b -> a = b.
Proof.
  intros [La Ha] [Lb Hb] E. unfold id_string in E. apply app_inj_tail in E as [E _].
  assert (Et : take (id_trim sizeof_ma_device_id a) a = take (id_trim sizeof_ma_device_id b) b)
    by (apply hex_inj; [by apply Forall_take..|done]).
  assert (En : id_trim sizeof_ma_device_id a = id_trim sizeof_ma_device_id b).
  { apply (f_equal length) in Et. rewrite !length_take in Et.
    pose proof (id_trim_le sizeof_ma_device_id a). pose proof (id_trim_le sizeof_ma_device_id b).
    lia. }
  rewrite <- En in Et. apply (id_ext a b (id_trim sizeof_ma_device_id a)); [lia|done|..];
    intros i Hi; apply (id_trim_zeros sizeof_ma_device_id); lia.
Qed.

(** ** The backend's answers *)

Record os := mk_os {
  os_calloc : bool;
  os_malloc : nat -> Z -> bool;
  os_context_init : ma_result;
  os_get_devices : ma_result * list (list Z) * list (list Z);
  os_device_init : bool -> option (list Z) -> ma_result;
  os_device_start : bool -> ma_result }.

(** What is acquired and released. *)
Inductive resource :=
| ResHeap
| ResCapture
| ResPlayback
| ResReference
| ResMonitor
| ResContext
| ResOutput
| ResInput.

Record opening := mk_opening {
  op_context_ok : bool;
  op_input_ok : bool;
  op_output_ok : bool;
  op_capture : option ma_rb;
  op_playback : option ma_pcm_rb;
  op_reference : option ma_pcm_rb;
  op_monitor : option ma_pcm_rb }.

Definition opening_zero : opening := mk_opening false false false None None None None.

(** The resources [ra_device_close] releases, in its order.  The rings are [Some]
    when their [_ok] flag is set. *)
Definition when {A} (b : bool) (x : A) : list A := if b then [x] else [].

Definition ra_device_close (d : option opening) : list resource :=
  match d with
  | None => []
  | Some d =>
      when (op_input_ok d) ResInput ++ when (op_output_ok d) ResOutput
      ++ when (op_context_ok d) ResContext
      ++ when (bool_decide (is_Some (op_capture d))) ResCapture
      ++ when (bool_decide (is_Some (op_playback d))) ResPlayback
      ++ when (bool_decide (is_Some (op_reference d))) ResReference
      ++ when (bool_decide (is_Some (op_monitor d))) ResMonitor
      ++ [ResHeap]
  end.

(** ** [open_device]: returns the error, the flags and what it acquired *)

(** The identifier to open: the default device, or the listed one that matches. *)
Definition open_device_id (o : os) (input : bool) (selected : option (list Z))
    : ma_result + option (list Z) :=
  match selected with
  | None | Some [] => inr None
  | Some name =>
      let '(error, outputs, inputs) := os_get_devices o in
      if negb (error =? MA_SUCCESS) then inl error
      else
        match List.find (id_matches name) (if input then inputs else outputs) with
        | None => inl MA_NO_DEVICE
        | Some id => inr (Some id)
        end
  end.

Definition open_device (o : os) (d : opening) (input : bool) (selected : option (list Z))
    : ma_result * opening * list resource :=
  match open_device_id o input selected with
  | inl error => (error, d, [])
  | inr id =>
      let error := os_device_init o input id in
      if negb (error =? MA_SUCCESS) then (error, d, [])
      else
        (os_device_start o input,
         mk_opening (op_context_ok d) (if input then true else op_input_ok d)
           (if input then op_output_ok d else true) (op_capture d) (op_playback d)
           (op_reference d) (op_monitor d),
         [if input then ResInput else ResOutput])
  end.

(** ** [ra_device_open]

    A step returns its result, the flags and what it acquired; the first failure
    jumps to the cleanup. *)

Definition step := opening -> ma_result * opening * list resource.

Definition open_rb (o : os) (d : opening) : ma_result * opening * list resource :=
  let '(e, r) := ma_rb_init (os_malloc o 0) (sizeof_ra_frame * RA_CAPACITY) None None ma_rb_zero in
  if negb (e =? MA_SUCCESS) then (e, d, [])
  else (e, mk_opening (op_context_ok d) (op_input_ok d) (op_output_ok d) (Some r)
             (op_playback d) (op_reference d) (op_monitor d), [ResCapture]).

Definition open_frames (o : os) (which : resource) (n : nat) (d : opening)
    : ma_result * opening * list resource :=
  let '(e, p) := ma_pcm_rb_init (os_malloc o n) ma_format_f32 2 (RA_FRAME * RA_CAPACITY)
                   None None ma_pcm_rb_zero in
  if negb (e =? MA_SUCCESS) then (e, d, [])
  else
    (e, match which with
        | ResPlayback => mk_opening (op_context_ok d) (op_input_ok d) (op_output_ok d)
                           (op_capture d) (Some p) (op_reference d) (op_monitor d)
        | ResReference => mk_opening (op_context_ok d) (op_input_ok d) (op_output_ok d)
                            (op_capture d) (op_playback d) (Some p) (op_monitor d)
        | _ => mk_opening (op_context_ok d) (op_input_ok d) (op_output_ok d)
                 (op_capture d) (op_playback d) (op_reference d) (Some p)
        end, [which]).

Definition open_context (o : os) (d : opening) : ma_result * opening * list resource :=
  let e := os_context_init o in
  if negb (e =? MA_SUCCESS) then (e, d, [])
  else (e, mk_opening true (op_input_ok d) (op_output_ok d) (op_capture d) (op_playback d)
             (op_reference d) (op_monitor d), [ResContext]).

Definition skip_step : step := fun d => (MA_SUCCESS, d, []).

Definition open_steps (o : os) (input output : bool) (input_id output_id : option (list Z))
    : list step :=
  [ open_rb o;
    open_frames o ResPlayback 1;
    open_frames o ResReference 2;
    open_frames o ResMonitor 3;
    open_context o;
    (if output then fun d => open_device o d false output_id else skip_step);
    (if input then fun d => open_device o d true input_id else skip_step) ].

Fixpoint run_steps (l : list step) (d : opening) (acq : list resource)
    : ma_result * opening * list resource :=
  match l with
  | [] => (MA_SUCCESS, d, acq)
  | s :: l =>
      let '(e, d, a) := s d in
      if negb (e =? MA_SUCCESS) then (e, d, acq ++ a) else run_steps l d (acq ++ a)
  end.

(** Returns the device, [*error], and the resources acquired and released. *)
Definition ra_device_open (o : os) (input output : bool) (input_id output_id : option (list Z))
    : option opening * ma_result * list resource * list resource :=
  if negb (os_calloc o) then (None, MA_OUT_OF_MEMORY, [], [])
  else
    let '(e, d, acq) :=
      run_steps (open_steps o input output input_id output_id) opening_zero [ResHeap] in
    if negb (e =? MA_SUCCESS) then (None, e, acq, ra_device_close (Some d))
    else (Some d, MA_SUCCESS, acq, []).

#[export] Instance resource_eq_dec : EqDecision resource.
Proof. solve_decision. Defined.

(** ** Every step acquires at most its own resource *)

(** Whether the flags say that a resource is held. *)
Definition held (d : opening) (r : resource) : bool :=
  match r with
  | ResHeap => true
  | ResCapture => bool_decide (is_Some (op_capture d))
  | ResPlayback => bool_decide (is_Some (op_playback d))
  | ResReference => bool_decide (is_Some (op_reference d))
  | ResMonitor => bool_decide (is_Some (op_monitor d))
  | ResContext => op_context_ok d
  | ResOutput => op_output_ok d
  | ResInput => op_input_ok d
  end.

Definition b2n (b : bool) : nat := if b then 1 else 0.

Lemma close_count d r : count_occ resource_eq_dec (ra_device_close (Some d)) r = b2n (held d r).
Proof.
  destruct d as [[] [] [] [] [] [] []], r; reflexivity.
Qed.

(** A step either fails and changes nothing, or acquires [r] and sets its flag; it
    may report an error after acquiring. *)
Definition step_acquires (r : resource) (s : step) : Prop :=
  forall d, exists e d' a, s d = (e, d', a)
    /\ (a = [] /\ d' = d \/ a = [r] /\ forall x, held d' x = held d x || bool_decide (x = r)).

Ltac step_done :=
  simpl; eexists _, _, _; split; [reflexivity|];
  first [by left|right; split; [reflexivity|];
         let x := fresh in intros x; destruct x; simpl; try rewrite orb_false_r; try rewrite orb_true_r;
         try reflexivity; by apply bool_decide_eq_true_2].

Lemma open_rb_step o : step_acquires ResCapture (open_rb o).
Proof.
  intros d. unfold open_rb. destruct (ma_rb_init _ _ _ _ _) as [e r].
  destruct (e =? MA_SUCCESS); step_done.
Qed.

Lemma open_frames_step o n r :
  r = ResPlayback \/ r = ResReference \/ r = ResMonitor -> step_acquires r (open_frames o r n).
Proof.
  intros Hr d. unfold open_frames. destruct (ma_pcm_rb_init _ _ _ _ _ _ _) as [e p].
  destruct (e =? MA_SUCCESS); [|step_done]. destruct Hr as [->|[->| ->]]; step_done.
Qed.

Lemma open_context_step o : step_acquires ResContext (open_context o).
Proof. intros d. unfold open_context. destruct (os_context_init o =? MA_SUCCESS); step_done. Qed.

Lemma skip_step_acquires r : step_acquires r skip_step.
Proof. intros d. unfold skip_step. step_done. Qed.

Lemma open_device_step o (input : bool) selected :
  step_acquires (if input then ResInput else ResOutput) (fun d => open_device o d input selected).
Proof.
  intros d. unfold open_device. destruct (open_device_id o input selected) as [e|id];
    [step_done|].
  destruct (os_device_init o input id =? MA_SUCCESS); [|step_done].
  destruct input; step_done.
Qed.

(** What the steps acquired is what the flags say. *)
Definition accounted (d : opening) (acq : list resource) : Prop :=
  forall r, count_occ resource_eq_dec acq r = b2n (held d r).

Lemma run_steps_accounted rs l d acq :
  Forall2 step_acquires rs l -> NoDup rs -> Forall (fun r => held d r = false) rs ->
  accounted d acq ->
  exists e d' acq', run_steps l d acq = (e, d', acq') /\ accounted d' acq'.
Proof.
  intros Hl. revert d acq. induction Hl as [|r s rs l Hs Hl IH]; intros d acq Hnd Hh Hacc.
  { by eexists _, _, _. }
  cbn [run_steps]. inversion_clear Hnd as [|? ? Hnr Hnd']. inversion_clear Hh as [|? ? Hr Hh'].
  destruct (Hs d) as (e & d' & a & -> & Hcase).
  assert (Hacc' : accounted d' (acq ++ a) /\ Forall (fun r => held d' r = false) rs).
  { destruct Hcase as [[-> ->]|[-> Hd']]; [by rewrite app_nil_r|].
    split.
    - intros x. rewrite count_occ_app, (Hacc x), Hd'. cbn [count_occ].
      destruct (resource_eq_dec r x) as [<-|]; [rewrite Hr, bool_decide_eq_true_2 by done; done|].
      rewrite bool_decide_eq_false_2, orb_false_r by congruence. lia.
    - rewrite Forall_forall in Hh' |- *. intros x Hx. rewrite Hd', (Hh' x Hx).
      apply bool_decide_eq_false_2. intros ->.
      apply Hnr. first [exact Hx|by apply list_elem_of_In]. }
  destruct Hacc' as [Hacc' Hh2].
  destruct (negb (e =? MA_SUCCESS)); [by eexists _, _, _|]. by apply IH.
Qed.

Lemma accounted_close d acq :
  accounted d acq -> List.NoDup acq /\ Permutation acq (ra_device_close (Some d)).
Proof.
  intros H. split.
  - rewrite (NoDup_count_occ resource_eq_dec). intros x. rewrite H. destruct (held d x); simpl; lia.
  - apply (Permutation_count_occ resource_eq_dec). intros x. by rewrite H, close_count.
Qed.

(** ** Properties *)


(** Identifiers are told apart by their text: the hexadecimal string that
    [ra_device_list] reports for a device determines its 256-byte identifier although the
    trailing zero bytes are not printed, so [open_device] finds the listed device
    it was given and no other; the text fits the 513-byte buffers of the callers. *)
Theorem id_string_identifies id ids :
  id_ok id -> Forall id_ok ids -> id ∈ ids ->
  zlen (id_string id) <= 2 * Z.of_nat sizeof_ma_device_id + 1
  /\ exists text, id_string id = text ++ [0] /\ text <> []
     /\ List.find (id_matches text) ids = Some id.
Proof.
  intros Hid Hids Hin. split.
  { unfold id_string. rewrite zlen_app. unfold zlen.
    rewrite (flat_map_constant_length (c:=2)) by done.
    pose proof (id_trim_le sizeof_ma_device_id id). rewrite length_take. simpl (length [0]). lia. }
  exists (flat_map hex_byte (take (id_trim sizeof_ma_device_id id) id)).
  split; [done|]. split.
  { destruct Hid as [Hl _]. destruct id as [|b id]; [done|].
    assert (Ht : exists n, id_trim sizeof_ma_device_id (b :: id) = S n).
    { clear. unfold sizeof_ma_device_id. generalize 255%nat. intros n. induction n as [|n IH].
      - by exists 0%nat.
      - cbn [id_trim]. case_match; [|by eexists]. destruct IH as [m IH]. exists m. exact IH. }
    destruct Ht as [n ->]. done. }
  change (List.find (id_matches (flat_map hex_byte (take (id_trim sizeof_ma_device_id id) id))) ids
          = Some id).
  destruct (List.find _ ids) as [x|] eqn:E.
  - apply find_some in E as [Hx E]. unfold id_matches in E. case_decide as Hd; [|done].
    f_equal. apply id_string_inj; [|done|exact Hd].
    rewrite Forall_forall in Hids. apply Hids. first [exact Hx|by apply list_elem_of_In].
  - exfalso. assert (Hm := find_none _ _ E id). unfold id_matches in Hm.
    rewrite decide_True in Hm by done. discriminate Hm. by apply list_elem_of_In.
Qed.

(** A device whose identifier is the string "hw:0". *)
Definition demo_id : list Z := [104; 119; 58; 48] ++ replicate 252 0.

Lemma demo_id_ok : id_ok demo_id.
Proof. split; [done|]. by apply (bool_decide_unpack (Forall (fun b => 0 <= b < 2 ^ 8) demo_id)). Qed.

Lemma id_string_identifies_witness :
  zlen (id_string demo_id) <= 513 /\ id_string demo_id = [54; 56; 55; 55; 51; 97; 51; 48; 0].
Proof.
  split; [|reflexivity].
  refine (proj1 (id_string_identifies demo_id [demo_id] demo_id_ok _ _)).
  - constructor; [apply demo_id_ok|constructor].
  - constructor.
Defined.
