(* ===== verification/PcmFormat.v ===== *)
(** * Sample format conversion (miniaudio.h)

    One definition per conversion, on a single sample, as the loops' bodies
    compute it; the loops are [mapM] over the array in index order.  Dithered
    conversions draw from the global linear congruential generator, whose state is
    threaded by the monad [lcgM]; [None] is a float-to-integer conversion that C
    leaves undefined.  Arithmetic on negative numbers shifts arithmetically and
    signed overflow wraps, as on the supported compilers.  24-bit samples are
    byte triples, little-endian. *)
From Stdlib Require Import ZArith Lia Bool SpecFloat.
From stdpp Require Import base numbers list option.
From S2P Require Import Prelude MaTypes CFloat.

Local Open Scope Z_scope.

(** ** Clipping *)

Definition ma_clip_u8 (x : Z) : Z := u8 (ma_clamp x (-128) 127 + 128).
Definition ma_clip_s16 (x : Z) : Z := s16 (ma_clamp x (-32768) 32767).
Definition ma_clip_s24 (x : Z) : Z := ma_clamp x (-8388608) 8388607.
Definition ma_clip_s32 (x : Z) : Z := s32 (ma_clamp x (- (2147483647 + 1)) 2147483647).
Definition ma_clip_f32 (x : spec_float) : spec_float :=
  if flt x f32_mone then f32_mone else if fgt x f32_one then f32_one else x.

(** A 24-bit sample. *)
Definition s24 : Type := Z * Z * Z.

Definition ma_pcm_sample_s32_to_s24_no_scale (x : Z) : s24 :=
  (u8 (Z.shiftr (Z.land x 0x000000FF) 0), u8 (Z.shiftr (Z.land x 0x0000FF00) 8),
   u8 (Z.shiftr (Z.land x 0x00FF0000) 16)).

Definition ma_pcm_sample_s24_to_s32_no_scale (x : s24) : Z :=
  let '(b0, b1, b2) := x in
  Z.shiftr (s64 (Z.lor (Z.lor (u64 (Z.shiftl b0 40)) (u64 (Z.shiftl b1 48))) (u64 (Z.shiftl b2 56))))
    40.

Definition ma_pcm_sample_f32_to_s16 (x : spec_float) : option Z :=
  sf_to_s 16 (f32_mul x (f32_of_Z 32767)).
Definition ma_pcm_sample_u8_to_s16_no_scale (x : Z) : Z := s16 (s16 x - 128).

Definition ma_clip_samples_u8 (src : list Z) : list Z := map ma_clip_u8 src.
Definition ma_clip_samples_s16 (src : list Z) : list Z := map ma_clip_s16 src.
Definition ma_clip_samples_s24 (src : list Z) : list s24 :=
  map (fun x => ma_pcm_sample_s32_to_s24_no_scale (ma_clip_s24 x)) src.
Definition ma_clip_samples_s32 (src : list Z) : list Z := map ma_clip_s32 src.
Definition ma_clip_samples_f32 (src : list spec_float) : list spec_float := map ma_clip_f32 src.

(** ** Volume *)

Definition ma_float_to_fixed_16 (x : spec_float) : option Z :=
  sf_to_s 16 (f32_mul x (f32_of_Z (Z.shiftl 1 8))).

Definition ma_apply_volume_unclipped_u8 (x volume : Z) : Z := s16 (Z.shiftr (s32 (x * volume)) 8).
Definition ma_apply_volume_unclipped_s16 (x volume : Z) : Z := Z.shiftr (s32 (x * volume)) 8.
Definition ma_apply_volume_unclipped_s24 (x volume : Z) : Z := Z.shiftr (s64 (x * volume)) 8.
Definition ma_apply_volume_unclipped_s32 (x volume : Z) : Z := Z.shiftr (s64 (x * volume)) 8.
Definition ma_apply_volume_unclipped_f32 (x volume : spec_float) : spec_float := f32_mul x volume.

Definition with_fixed {A} (volume : spec_float) (k : Z -> A) : option A :=
  match ma_float_to_fixed_16 volume with None => None | Some v => Some (k v) end.

Definition ma_copy_and_apply_volume_and_clip_samples_u8 (src : list Z) (volume : spec_float) :=
  with_fixed volume (fun v => map (fun x => ma_clip_u8 (ma_apply_volume_unclipped_u8 x v)) src).
Definition ma_copy_and_apply_volume_and_clip_samples_s16 (src : list Z) (volume : spec_float) :=
  with_fixed volume (fun v => map (fun x => ma_clip_s16 (ma_apply_volume_unclipped_s16 x v)) src).
Definition ma_copy_and_apply_volume_and_clip_samples_s24 (src : list Z) (volume : spec_float) :=
  with_fixed volume (fun v =>
    map (fun x => ma_pcm_sample_s32_to_s24_no_scale
                    (ma_clip_s24 (ma_apply_volume_unclipped_s24 x v))) src).
Definition ma_copy_and_apply_volume_and_clip_samples_s32 (src : list Z) (volume : spec_float) :=
  with_fixed volume (fun v => map (fun x => ma_clip_s32 (ma_apply_volume_unclipped_s32 x v)) src).
Definition ma_copy_and_apply_volume_and_clip_samples_f32 (src : list spec_float)
    (volume : spec_float) : list spec_float :=
  map (fun x => ma_clip_f32 (ma_apply_volume_unclipped_f32 x volume)) src.

(** [(T)(sample * factor)] for each sample; undefined out of range. *)
Definition ma_copy_and_apply_volume_factor_u8 (src : list Z) (factor : spec_float) :=
  mapM (fun x => sf_to_u 8 (f32_mul (f32_of_Z x) factor)) src.
Definition ma_copy_and_apply_volume_factor_s16 (src : list Z) (factor : spec_float) :=
  mapM (fun x => sf_to_s 16 (f32_mul (f32_of_Z x) factor)) src.
Definition ma_copy_and_apply_volume_factor_s32 (src : list Z) (factor : spec_float) :=
  mapM (fun x => sf_to_s 32 (f32_mul (f32_of_Z x) factor)) src.
(** The sample is scaled in the upper three bytes of an [int32]. *)
Definition ma_copy_and_apply_volume_factor_s24 (src : list s24) (factor : spec_float) :=
  mapM (fun x : s24 =>
    let '(b0, b1, b2) := x in
    let sampleS32 :=
      s32 (Z.lor (Z.lor (u32 (Z.shiftl b0 8)) (u32 (Z.shiftl b1 16))) (u32 (Z.shiftl b2 24))) in
    match sf_to_s 32 (f32_mul (f32_of_Z sampleS32) factor) with
    | None => None
    | Some y =>
        Some (u8 (Z.shiftr (Z.land (u32 y) 0x0000FF00) 8),
              u8 (Z.shiftr (Z.land (u32 y) 0x00FF0000) 16),
              u8 (Z.shiftr (Z.land (u32 y) 0xFF000000) 24))
    end) src.
Definition ma_copy_and_apply_volume_factor_f32 (src : list spec_float) (factor : spec_float) :=
  if SFeqb factor f32_one then src else map (fun x => f32_mul x factor) src.

Definition ma_mix_pcm_frames_f32 (dst src : list spec_float) (channels : Z) (volume : spec_float)
    : ma_result * list spec_float :=
  if channels =? 0 then (MA_INVALID_ARGS, dst)
  else if SFeqb volume f32_zero then (MA_SUCCESS, dst)
  else if SFeqb volume f32_one then (MA_SUCCESS, zip_with f32_add dst src)
  else
    (MA_SUCCESS,
     zip_with (fun d s => f32_add d (ma_apply_volume_unclipped_f32 s volume)) dst src).

(** ** The generator *)

Definition MA_LCG_M : Z := 2147483647.
Definition MA_LCG_A : Z := 48271.
Definition MA_LCG_C : Z := 0.
Definition MA_DEFAULT_LCG_SEED : Z := 4321.

Definition lcgM (A : Type) : Type := Z -> option (A * Z).

Definition ret {A} (x : A) : lcgM A := fun st => Some (x, st).
Definition bind {A B} (m : lcgM A) (k : A -> lcgM B) : lcgM B :=
  fun st => match m st with None => None | Some (x, st) => k x st end.
Definition lift {A} (o : option A) : lcgM A :=
  fun st => match o with None => None | Some x => Some (x, st) end.

Fixpoint lcg_mapM {A B} (f : A -> lcgM B) (l : list A) : lcgM (list B) :=
  match l with
  | [] => ret []
  | x :: l => bind (f x) (fun y => bind (lcg_mapM f l) (fun ys => ret (y :: ys)))
  end.

(** C's [%] has the sign of the dividend. *)
Definition ma_lcg_rand_s32 : lcgM Z := fun st =>
  let st := Z.rem (s32 (s32 (MA_LCG_A * st) + MA_LCG_C)) MA_LCG_M in Some (st, st).

Definition ma_lcg_rand_u32 : lcgM Z := bind ma_lcg_rand_s32 (fun x => ret (u32 x)).

Definition ma_lcg_rand_f64 : lcgM spec_float :=
  bind ma_lcg_rand_s32 (fun x => ret (f64_div (f64_of_Z x) (f64_of_Z 0x7FFFFFFF))).

Definition ma_lcg_rand_f32 : lcgM spec_float :=
  bind ma_lcg_rand_f64 (fun x => ret (f32_of_f64 x)).

Definition ma_scale_to_range_f32 (x lo hi : spec_float) : spec_float :=
  f32_add lo (f32_mul x (f32_sub hi lo)).

Definition ma_lcg_rand_range_f32 (lo hi : spec_float) : lcgM spec_float :=
  bind ma_lcg_rand_f32 (fun x => ret (ma_scale_to_range_f32 x lo hi)).

(** The quotient and the sum are computed in unsigned arithmetic. *)
Definition ma_lcg_rand_range_s32 (lo hi : Z) : lcgM Z :=
  if lo =? hi then ret lo
  else
    bind ma_lcg_rand_u32 (fun r =>
      ret (s32 (u32 (lo + r / u32 (0xFFFFFFFF / u32 (s32 (s32 (hi - lo) + 1)) + 1))))).

Definition ma_rand_range_f32 := ma_lcg_rand_range_f32.
Definition ma_rand_range_s32 := ma_lcg_rand_range_s32.

Definition ma_dither_f32_rectangle (ditherMin ditherMax : spec_float) : lcgM spec_float :=
  ma_rand_range_f32 ditherMin ditherMax.

Definition ma_dither_f32_triangle (ditherMin ditherMax : spec_float) : lcgM spec_float :=
  bind (ma_rand_range_f32 ditherMin f32_zero) (fun a =>
  bind (ma_rand_range_f32 f32_zero ditherMax) (fun b => ret (f32_add a b))).

Definition ma_dither_f32 (ditherMode : ma_dither_mode) (ditherMin ditherMax : spec_float)
    : lcgM spec_float :=
  match ditherMode with
  | ma_dither_mode_rectangle => ma_dither_f32_rectangle ditherMin ditherMax
  | ma_dither_mode_triangle => ma_dither_f32_triangle ditherMin ditherMax
  | ma_dither_mode_none => ret f32_zero
  end.

Definition ma_dither_s32 (ditherMode : ma_dither_mode) (ditherMin ditherMax : Z) : lcgM Z :=
  match ditherMode with
  | ma_dither_mode_rectangle => ma_rand_range_s32 ditherMin ditherMax
  | ma_dither_mode_triangle =>
      bind (ma_rand_range_s32 ditherMin 0) (fun a =>
      bind (ma_rand_range_s32 0 ditherMax) (fun b => ret (s32 (a + b))))
  | ma_dither_mode_none => ret 0
  end.

(** ** From u8 *)

Definition ma_pcm_u8_to_s16 (x : Z) : Z := s16 (Z.shiftl (s16 (x - 128)) 8).
Definition ma_pcm_u8_to_s24 (x : Z) : s24 := (0, 0, u8 (s8 (s16 (x - 128)))).
Definition ma_pcm_u8_to_s32 (x : Z) : Z := s32 (Z.shiftl (x - 128) 24).
Definition ma_pcm_u8_to_f32 (x : Z) : spec_float :=
  f32_sub (f32_mul (f32_of_Z x) (f32_lit 784313725490196078 (10 ^ 20))) f32_one.

(** ** From s16 *)

Definition s16_to_u8_scaled (x : Z) : Z := u8 (s16 (s16 (Z.shiftr x 8) + 128)).

Definition ma_pcm_s16_to_u8 (ditherMode : ma_dither_mode) (x : Z) : lcgM Z :=
  match ditherMode with
  | ma_dither_mode_none => ret (s16_to_u8_scaled x)
  | _ =>
      bind (ma_dither_s32 ditherMode (-0x80) 0x7F) (fun dither =>
        let x := if x + dither <=? 0x7FFF then s16 (x + dither) else 0x7FFF in
        ret (s16_to_u8_scaled x))
  end.

Definition ma_pcm_s16_to_s24 (x : Z) : s24 := (0, u8 (Z.land x 0xFF), u8 (Z.shiftr x 8)).
Definition ma_pcm_s16_to_s32 (x : Z) : Z := s32 (Z.shiftl x 16).
Definition ma_pcm_s16_to_f32 (x : Z) : spec_float :=
  f32_mul (f32_of_Z x) (f32_lit 30517578125 (10 ^ 15)).

(** ** From s24 *)

(** The three bytes in the upper part of an [int32]. *)
Definition s24_to_s32_value (x : s24) : Z :=
  let '(b0, b1, b2) := x in
  s32 (Z.lor (Z.lor (u32 (Z.shiftl b0 8)) (u32 (Z.shiftl b1 16))) (u32 (Z.shiftl b2 24))).

(** Dithering of a 32-bit sample; only the upper end is limited. *)
Definition dither_s32_sample (ditherMode : ma_dither_mode) (lo hi x : Z) : lcgM Z :=
  bind (ma_dither_s32 ditherMode lo hi) (fun dither =>
    ret (if x + dither <=? 0x7FFFFFFF then s32 (x + dither) else 0x7FFFFFFF)).

Definition s24_to_u8_scaled (x : s24) : Z := let '(_, _, b2) := x in u8 (s8 b2 + 128).
Definition s24_to_s16_scaled (x : s24) : Z :=
  let '(_, b1, b2) := x in s16 (Z.lor (u16 b1) (u16 (Z.shiftl (u16 b2) 8))).

Definition ma_pcm_s24_to_u8 (ditherMode : ma_dither_mode) (x : s24) : lcgM Z :=
  match ditherMode with
  | ma_dither_mode_none => ret (s24_to_u8_scaled x)
  | _ =>
      bind (dither_s32_sample ditherMode (-0x800000) 0x7FFFFF (s24_to_s32_value x)) (fun x =>
        ret (u8 (Z.shiftr x 24 + 128)))
  end.

Definition ma_pcm_s24_to_s16 (ditherMode : ma_dither_mode) (x : s24) : lcgM Z :=
  match ditherMode with
  | ma_dither_mode_none => ret (s24_to_s16_scaled x)
  | _ =>
      bind (dither_s32_sample ditherMode (-0x8000) 0x7FFF (s24_to_s32_value x)) (fun x =>
        ret (s16 (Z.shiftr x 16)))
  end.

Definition ma_pcm_s24_to_s32 (x : s24) : Z := s24_to_s32_value x.
Definition ma_pcm_s24_to_f32 (x : s24) : spec_float :=
  f32_mul (f32_of_Z (Z.shiftr (s24_to_s32_value x) 8)) (f32_lit 11920928955078125 (10 ^ 23)).

(** ** From s32 *)

Definition ma_pcm_s32_to_u8 (ditherMode : ma_dither_mode) (x : Z) : lcgM Z :=
  match ditherMode with
  | ma_dither_mode_none => ret (u8 (Z.shiftr x 24 + 128))
  | _ =>
      bind (dither_s32_sample ditherMode (-0x800000) 0x7FFFFF x) (fun x =>
        ret (u8 (Z.shiftr x 24 + 128)))
  end.

Definition ma_pcm_s32_to_s16 (ditherMode : ma_dither_mode) (x : Z) : lcgM Z :=
  match ditherMode with
  | ma_dither_mode_none => ret (s16 (Z.shiftr x 16))
  | _ =>
      bind (dither_s32_sample ditherMode (-0x8000) 0x7FFF x) (fun x => ret (s16 (Z.shiftr x 16)))
  end.

Definition ma_pcm_s32_to_s24 (x : Z) : s24 :=
  let x := u32 x in
  (u8 (Z.shiftr (Z.land x 0x0000FF00) 8), u8 (Z.shiftr (Z.land x 0x00FF0000) 16),
   u8 (Z.shiftr (Z.land x 0xFF000000) 24)).

Definition ma_pcm_s32_to_f32 (x : Z) : spec_float :=
  f32_of_f64 (f64_div (f64_of_Z x) (f64_of_Z 2147483648)).

(** ** From f32 *)

(** [((x < -1) ? -1 : ((x > 1) ? 1 : x))] *)
Definition f32_clip (x : spec_float) : spec_float :=
  if flt x f32_mone then f32_mone else if fgt x f32_one then f32_one else x.

(** [1.0f / n] when dithering, else 0. *)
Definition dither_bound (ditherMode : ma_dither_mode) (n : Z) : spec_float :=
  match ditherMode with
  | ma_dither_mode_none => f32_zero
  | _ => f32_div f32_one (f32_of_Z n)
  end.

Definition ma_pcm_f32_to_u8 (ditherMode : ma_dither_mode) (x : spec_float) : lcgM Z :=
  bind (ma_dither_f32 ditherMode (dither_bound ditherMode (-128)) (dither_bound ditherMode 127))
    (fun d =>
       let x := f32_clip (f32_add x d) in
       lift (sf_to_u 8 (f32_mul (f32_add x f32_one) (f32_lit 1275 10)))).

(** What is computed from a sample and its dither value. *)
Definition f32_to_s16_scaled (x d : spec_float) : option Z :=
  sf_to_s 16 (f32_mul (f32_clip (f32_add x d)) (f32_of_Z 32767)).

Definition f32_to_s16_dither (ditherMode : ma_dither_mode) : lcgM spec_float :=
  ma_dither_f32 ditherMode (dither_bound ditherMode (-32768)) (dither_bound ditherMode 32767).

Definition ma_pcm_f32_to_s16__reference (ditherMode : ma_dither_mode) (x : spec_float) : lcgM Z :=
  bind (f32_to_s16_dither ditherMode) (fun d => lift (f32_to_s16_scaled x d)).

(** The loop unrolled by four: four draws, then four conversions. *)
Fixpoint ma_pcm_f32_to_s16__optimized (ditherMode : ma_dither_mode) (src : list spec_float)
    : lcgM (list Z) :=
  match src with
  | x0 :: x1 :: x2 :: x3 :: src =>
      bind (f32_to_s16_dither ditherMode) (fun d0 =>
      bind (f32_to_s16_dither ditherMode) (fun d1 =>
      bind (f32_to_s16_dither ditherMode) (fun d2 =>
      bind (f32_to_s16_dither ditherMode) (fun d3 =>
      bind (lift (f32_to_s16_scaled x0 d0)) (fun y0 =>
      bind (lift (f32_to_s16_scaled x1 d1)) (fun y1 =>
      bind (lift (f32_to_s16_scaled x2 d2)) (fun y2 =>
      bind (lift (f32_to_s16_scaled x3 d3)) (fun y3 =>
      bind (ma_pcm_f32_to_s16__optimized ditherMode src) (fun ys =>
        ret (y0 :: y1 :: y2 :: y3 :: ys))))))))))
  | x :: src =>
      bind (ma_pcm_f32_to_s16__reference ditherMode x) (fun y =>
      bind (ma_pcm_f32_to_s16__optimized ditherMode src) (fun ys => ret (y :: ys)))
  | [] => ret []
  end.

(** The vector path, eight samples at a time: [_mm_cvttps_epi32] yields [INT_MIN]
    outside the range of [int32], [_mm_packs_epi32] saturates, and there is no clip.
    The order in which a compiler evaluates the arguments of [_mm_set_ps] is left
    open: [lanes] says which of the eight draws goes to which lane. *)
Definition cvttps_epi32 (x : spec_float) : Z :=
  match sf_to_s 32 x with Some z => z | None => - 2 ^ 31 end.

Definition packs_epi32 (x : Z) : Z := ma_clamp x (-32768) 32767.

Definition f32_to_s16_lane (x d : spec_float) : Z :=
  packs_epi32 (cvttps_epi32 (f32_mul (f32_add x d) (f32_of_Z 32767))).

Definition sse2_dither (lanes : list spec_float -> list spec_float) (ditherMode : ma_dither_mode)
    : lcgM (list spec_float) :=
  match ditherMode with
  | ma_dither_mode_none => ret (replicate 8 f32_zero)
  | _ =>
      bind (lcg_mapM (fun _ : nat => f32_to_s16_dither ditherMode) (seq 0 8)) (fun ds =>
        ret (lanes ds))
  end.

Fixpoint ma_pcm_f32_to_s16__sse2 (lanes : list spec_float -> list spec_float)
    (ditherMode : ma_dither_mode) (src : list spec_float) : lcgM (list Z) :=
  match src with
  | x0 :: x1 :: x2 :: x3 :: x4 :: x5 :: x6 :: x7 :: src =>
      bind (sse2_dither lanes ditherMode) (fun ds =>
      bind (ma_pcm_f32_to_s16__sse2 lanes ditherMode src) (fun ys =>
        ret (zip_with f32_to_s16_lane [x0; x1; x2; x3; x4; x5; x6; x7] ds ++ ys)))
  | _ => lcg_mapM (ma_pcm_f32_to_s16__reference ditherMode) src
  end.

(** [simd] is [Some lanes] when the processor has SSE2 and both buffers are
    aligned to 16 bytes. *)
Definition ma_pcm_f32_to_s16 (simd : option (list spec_float -> list spec_float))
    (ditherMode : ma_dither_mode) (src : list spec_float) : lcgM (list Z) :=
  match simd with
  | Some lanes => ma_pcm_f32_to_s16__sse2 lanes ditherMode src
  | None => ma_pcm_f32_to_s16__optimized ditherMode src
  end.

Definition ma_pcm_f32_to_s24 (x : spec_float) : option s24 :=
  match sf_to_s 32 (f32_mul (f32_clip x) (f32_of_Z 8388607)) with
  | None => None
  | Some r =>
      Some (u8 (Z.shiftr (Z.land r 0x0000FF) 0), u8 (Z.shiftr (Z.land r 0x00FF00) 8),
            u8 (Z.shiftr (Z.land r 0xFF0000) 16))
  end.

Definition f64_clip (x : spec_float) : spec_float :=
  if flt x (f64_of_Z (-1)) then f64_of_Z (-1) else if fgt x (f64_of_Z 1) then f64_of_Z 1 else x.

Definition ma_pcm_f32_to_s32 (x : spec_float) : option Z :=
  sf_to_s 32 (f64_mul (f64_clip (f64_of_f32 x)) (f64_of_Z 2147483647)).

(** ** Arrays and the dispatch *)

(** Samples in memory. *)
Definition sample_u8 (l : list Z) : Z := le_word l.
Definition sample_s16 (l : list Z) : Z := s16 (le_word l).
Definition sample_s24 (l : list Z) : s24 := (nth 0 l 0, nth 1 l 0, nth 2 l 0).
Definition sample_s32 (l : list Z) : Z := s32 (le_word l).
Definition sample_f32 (l : list Z) : spec_float := f32_of_bits (le_word l).

Definition bytes_u8 (x : Z) : list Z := le_bytes 1 x.
Definition bytes_s16 (x : Z) : list Z := le_bytes 2 (u16 x).
Definition bytes_s24 (x : s24) : list Z := let '(b0, b1, b2) := x in [b0; b1; b2].
Definition bytes_s32 (x : Z) : list Z := le_bytes 4 (u32 x).
Definition bytes_f32 (x : spec_float) : list Z := le_bytes 4 (bits_of_f32 x).

(** The first [count] samples of [w] bytes of a buffer. *)
Fixpoint split_samples (w : nat) (count : nat) (m : list Z) : list (list Z) :=
  match count with
  | O => []
  | S count => take w m :: split_samples w count (drop w m)
  end.

(** A conversion of an array in memory. *)
Definition pcm_array {A B} (w : nat) (dec : list Z -> A) (conv : list A -> lcgM (list B))
    (enc : B -> list Z) (src : list Z) (count : Z) : lcgM (list Z) :=
  bind (conv (map dec (split_samples w (Z.to_nat count) src))) (fun ys =>
    ret (concat (map enc ys))).

(** A conversion loop, sample by sample. *)
Definition pcm_loop {A B} (w : nat) (dec : list Z -> A) (conv : A -> lcgM B) (enc : B -> list Z)
    (src : list Z) (count : Z) : lcgM (list Z) :=
  pcm_array w dec (lcg_mapM conv) enc src count.

Definition pure {A B} (f : A -> B) : A -> lcgM B := fun x => ret (f x).
Definition part {A B} (f : A -> option B) : A -> lcgM B := fun x => lift (f x).

(** [ma_pcm_convert]: the bytes written to the output, nothing for a pair of
    formats it does not know. *)
Definition ma_pcm_convert (simd : option (list spec_float -> list spec_float)) (formatOut formatIn : ma_format) (src : list Z) (count : Z)
    (dm : ma_dither_mode) : lcgM (list Z) :=
  if decide (formatOut = formatIn)
  then ret (rd src 0 (u64 (count * ma_get_bytes_per_sample formatOut)))
  else
    match formatIn, formatOut with
    | ma_format_u8, ma_format_s16 => pcm_loop 1 sample_u8 (pure ma_pcm_u8_to_s16) bytes_s16 src count
    | ma_format_u8, ma_format_s24 => pcm_loop 1 sample_u8 (pure ma_pcm_u8_to_s24) bytes_s24 src count
    | ma_format_u8, ma_format_s32 => pcm_loop 1 sample_u8 (pure ma_pcm_u8_to_s32) bytes_s32 src count
    | ma_format_u8, ma_format_f32 => pcm_loop 1 sample_u8 (pure ma_pcm_u8_to_f32) bytes_f32 src count
    | ma_format_s16, ma_format_u8 => pcm_loop 2 sample_s16 (ma_pcm_s16_to_u8 dm) bytes_u8 src count
    | ma_format_s16, ma_format_s24 => pcm_loop 2 sample_s16 (pure ma_pcm_s16_to_s24) bytes_s24 src count
    | ma_format_s16, ma_format_s32 => pcm_loop 2 sample_s16 (pure ma_pcm_s16_to_s32) bytes_s32 src count
    | ma_format_s16, ma_format_f32 => pcm_loop 2 sample_s16 (pure ma_pcm_s16_to_f32) bytes_f32 src count
    | ma_format_s24, ma_format_u8 => pcm_loop 3 sample_s24 (ma_pcm_s24_to_u8 dm) bytes_u8 src count
    | ma_format_s24, ma_format_s16 => pcm_loop 3 sample_s24 (ma_pcm_s24_to_s16 dm) bytes_s16 src count
    | ma_format_s24, ma_format_s32 => pcm_loop 3 sample_s24 (pure ma_pcm_s24_to_s32) bytes_s32 src count
    | ma_format_s24, ma_format_f32 => pcm_loop 3 sample_s24 (pure ma_pcm_s24_to_f32) bytes_f32 src count
    | ma_format_s32, ma_format_u8 => pcm_loop 4 sample_s32 (ma_pcm_s32_to_u8 dm) bytes_u8 src count
    | ma_format_s32, ma_format_s16 => pcm_loop 4 sample_s32 (ma_pcm_s32_to_s16 dm) bytes_s16 src count
    | ma_format_s32, ma_format_s24 => pcm_loop 4 sample_s32 (pure ma_pcm_s32_to_s24) bytes_s24 src count
    | ma_format_s32, ma_format_f32 => pcm_loop 4 sample_s32 (pure ma_pcm_s32_to_f32) bytes_f32 src count
    | ma_format_f32, ma_format_u8 => pcm_loop 4 sample_f32 (ma_pcm_f32_to_u8 dm) bytes_u8 src count
    | ma_format_f32, ma_format_s16 =>
        pcm_array 4 sample_f32 (ma_pcm_f32_to_s16 simd dm) bytes_s16 src count
    | ma_format_f32, ma_format_s24 => pcm_loop 4 sample_f32 (part ma_pcm_f32_to_s24) bytes_s24 src count
    | ma_format_f32, ma_format_s32 => pcm_loop 4 sample_f32 (part ma_pcm_f32_to_s32) bytes_s32 src count
    | _, _ => ret []
    end.

Definition ma_convert_pcm_frames_format (simd : option (list spec_float -> list spec_float))
    (formatOut formatIn : ma_format) (src : list Z)
    (frameCount channels : Z) (dm : ma_dither_mode) : lcgM (list Z) :=
  ma_pcm_convert simd formatOut formatIn src (u64 (frameCount * channels)) dm.

(** ** Clipping and volume by format

    Accumulated samples have the next wider type; the output format selects the
    routine. *)

Definition ma_clip_pcm_frames (format : ma_format) (src : list Z) (frameCount channels : Z)
    : list Z :=
  let n := Z.to_nat (u64 (frameCount * channels)) in
  match format with
  | ma_format_u8 => concat (map bytes_u8 (ma_clip_samples_u8 (map sample_s16 (split_samples 2 n src))))
  | ma_format_s16 =>
      concat (map bytes_s16 (ma_clip_samples_s16 (map sample_s32 (split_samples 4 n src))))
  | ma_format_s24 =>
      concat (map bytes_s24 (ma_clip_samples_s24
        (map (fun l => s64 (le_word l)) (split_samples 8 n src))))
  | ma_format_s32 =>
      concat (map bytes_s32 (ma_clip_samples_s32
        (map (fun l => s64 (le_word l)) (split_samples 8 n src))))
  | ma_format_f32 =>
      concat (map bytes_f32 (ma_clip_samples_f32 (map sample_f32 (split_samples 4 n src))))
  | ma_format_unknown => []
  end.

Definition encode {B} (enc : B -> list Z) (o : option (list B)) : option (list Z) :=
  match o with None => None | Some l => Some (concat (map enc l)) end.

(** The unit and zero volumes are special-cased; zero writes silence. *)
Definition ma_copy_and_apply_volume_and_clip_pcm_frames (format : ma_format) (src : list Z)
    (frameCount channels : Z) (volume : spec_float) : option (list Z) :=
  let n := Z.to_nat (u64 (frameCount * channels)) in
  let wide l := s64 (le_word l) in
  if SFeqb volume f32_one then Some (ma_clip_pcm_frames format src frameCount channels)
  else if SFeqb volume f32_zero then
    Some (match format with
          | ma_format_u8 => zrep (u64 (frameCount * channels)) 128
          | _ => zrep (u64 (frameCount * ma_get_bytes_per_frame format channels)) 0
          end)
  else
    match format with
    | ma_format_u8 =>
        encode bytes_u8 (ma_copy_and_apply_volume_and_clip_samples_u8
          (map sample_s16 (split_samples 2 n src)) volume)
    | ma_format_s16 =>
        encode bytes_s16 (ma_copy_and_apply_volume_and_clip_samples_s16
          (map sample_s32 (split_samples 4 n src)) volume)
    | ma_format_s24 =>
        encode bytes_s24 (ma_copy_and_apply_volume_and_clip_samples_s24
          (map wide (split_samples 8 n src)) volume)
    | ma_format_s32 =>
        encode bytes_s32 (ma_copy_and_apply_volume_and_clip_samples_s32
          (map wide (split_samples 8 n src)) volume)
    | ma_format_f32 =>
        encode bytes_f32 (Some (ma_copy_and_apply_volume_and_clip_samples_f32
          (map sample_f32 (split_samples 4 n src)) volume))
    | ma_format_unknown => Some []
    end.

(** Multiplication by a factor; nothing is written for an unknown format. *)
Definition ma_copy_and_apply_volume_factor_pcm_frames (format : ma_format) (src : list Z)
    (frameCount channels : Z) (factor : spec_float) : option (list Z) :=
  let n := Z.to_nat (u64 (frameCount * channels)) in
  match format with
  | ma_format_u8 =>
      encode bytes_u8 (ma_copy_and_apply_volume_factor_u8
        (map sample_u8 (split_samples 1 n src)) factor)
  | ma_format_s16 =>
      encode bytes_s16 (ma_copy_and_apply_volume_factor_s16
        (map sample_s16 (split_samples 2 n src)) factor)
  | ma_format_s24 =>
      encode bytes_s24 (ma_copy_and_apply_volume_factor_s24
        (map sample_s24 (split_samples 3 n src)) factor)
  | ma_format_s32 =>
      encode bytes_s32 (ma_copy_and_apply_volume_factor_s32
        (map sample_s32 (split_samples 4 n src)) factor)
  | ma_format_f32 =>
      encode bytes_f32 (Some (ma_copy_and_apply_volume_factor_f32
        (map sample_f32 (split_samples 4 n src)) factor))
  | ma_format_unknown => Some []
  end.
