(* ===== verification/PcmFormatProps.v ===== *)
(** * What the format conversions guarantee

    Widening then narrowing is exact, float conversions are defined and stay in
    range for every sample that is not a NaN, the unrolled and the vector loops
    agree with the sample-by-sample loop, and the generator's bounds. *)
From Stdlib Require Import ZArith Lia Bool SpecFloat.
From stdpp Require Import base numbers list option.
From S2P Require Import Prelude MaTypes CFloat CFloatBounds PcmFormat.

Local Open Scope Z_scope.

(** ** The monad *)

Lemma bind_ret_r {A} (m : lcgM A) st : bind m ret st = m st.
Proof. unfold bind. by destruct (m st) as [[]|]. Qed.

Lemma lcg_mapM_pure {A B} (f : A -> B) l st : lcg_mapM (pure f) l st = Some (map f l, st).
Proof.
  induction l as [|x l IH]; [done|]. cbn [lcg_mapM map]. unfold pure at 1, bind at 1, ret at 1.
  unfold bind. by rewrite IH.
Qed.

Lemma lcg_mapM_ext {A B} (f g : A -> lcgM B) l st :
  (forall x st, x ∈ l -> f x st = g x st) -> lcg_mapM f l st = lcg_mapM g l st.
Proof.
  revert st. induction l as [|x l IH]; intros st H; [done|]. cbn [lcg_mapM]. unfold bind.
  rewrite H by constructor. destruct (g x st) as [[y st']|]; [|done].
  rewrite IH; [done|]. intros. apply H. by constructor.
Qed.

(** ** Bytes of a word *)

Lemma land_byte x k : 0 <= k -> Z.shiftr (Z.land x (Z.shiftl 255 k)) k = x / 2 ^ k mod 256.
Proof.
  intros Hk. rewrite Z.shiftr_land, Z.shiftr_shiftl_l, Z.sub_diag, Z.shiftl_0_r by lia.
  change 255 with (Z.ones 8). by rewrite Z.land_ones, Z.shiftr_div_pow2 by lia.
Qed.

(** A disjoint [or] is a sum. *)
Lemma lor_shift_add a b k : 0 <= k -> 0 <= a < 2 ^ k -> Z.lor a (Z.shiftl b k) = a + b * 2 ^ k.
Proof.
  intros Hk Ha. pose proof (Z.add_lor_land a (Z.shiftl b k)) as E.
  assert (Hl : Z.land a (Z.shiftl b k) = 0).
  { apply Z.bits_inj'. intros i Hi. rewrite Z.land_spec, Z.bits_0, Z.shiftl_mul_pow2 by lia.
    destruct (Z.lt_ge_cases i k).
    - rewrite Z.mul_pow2_bits_low by lia. apply andb_false_r.
    - destruct (Z.eq_dec a 0) as [->|]; [by rewrite Z.bits_0|].
      rewrite (Z.bits_above_log2 a); [done|lia|]. apply Z.log2_lt_pow2; [lia|].
      eapply Z.lt_le_trans; [apply Ha|]. apply Z.pow_le_mono_r; lia. }
  rewrite Hl, Z.shiftl_mul_pow2 in E by lia. rewrite Z.shiftl_mul_pow2 by lia. lia.
Qed.

Definition s24_ok (x : s24) : Prop :=
  let '(b0, b1, b2) := x in in_u 8 b0 /\ in_u 8 b1 /\ in_u 8 b2.

Lemma s24_value b0 b1 b2 :
  s24_ok (b0, b1, b2) ->
  u32 (s24_to_s32_value (b0, b1, b2)) = b0 * 2 ^ 8 + b1 * 2 ^ 16 + b2 * 2 ^ 24.
Proof.
  unfold s24_ok, in_u. change (2 ^ 8) with 256. intros (H0 & H1 & H2).
  unfold s24_to_s32_value, u32. rewrite !Z.shiftl_mul_pow2 by lia.
  change (2 ^ 8) with 256.
  rewrite (wrapu_id 32 (b0 * 256)), (wrapu_id 32 (b1 * _)), (wrapu_id 32 (b2 * _)) by cint.
  rewrite <- (Z.shiftl_mul_pow2 b1 16), (lor_shift_add (b0 * 256)) by lia.
  rewrite <- (Z.shiftl_mul_pow2 b2 24), (lor_shift_add (b0 * 256 + b1 * 2 ^ 16)) by lia.
  rewrite (Z.shiftl_mul_pow2 b2 24), (Z.shiftl_mul_pow2 b1 16) by lia.
  set (v := b0 * 256 + b1 * 2 ^ 16 + b2 * 2 ^ 24).
  assert (Hv : 0 <= v < 2 ^ 32) by (subst v; lia).
  unfold s32, wraps, wrapu. change (32 - 1) with 31.
  destruct (Z.lt_ge_cases v (2 ^ 31)).
  - rewrite (Z.mod_small (v + 2 ^ 31)) by lia. rewrite Z.mod_small; lia.
  - replace (v + 2 ^ 31) with (v - 2 ^ 31 + 1 * 2 ^ 32) by lia.
    rewrite Z.mod_add, (Z.mod_small (v - 2 ^ 31)) by lia.
    replace (v - 2 ^ 31 - 2 ^ 31) with (v + (-1) * 2 ^ 32) by lia.
    rewrite Z.mod_add, Z.mod_small; lia.
Qed.

Lemma s24_s32_s24 x : s24_ok x -> ma_pcm_s32_to_s24 (ma_pcm_s24_to_s32 x) = x.
Proof.
  destruct x as [[b0 b1] b2]. intros Hx. unfold ma_pcm_s32_to_s24, ma_pcm_s24_to_s32.
  rewrite s24_value by done. destruct Hx as (H0 & H1 & H2). unfold in_u in *.
  change (2 ^ 8) with 256 in *.
  change 0x0000FF00 with (Z.shiftl 255 8). change 0x00FF0000 with (Z.shiftl 255 16).
  change 0xFF000000 with (Z.shiftl 255 24). rewrite !land_byte by lia.
  assert (Hm : forall z, u8 (z mod 256) = z mod 256)
    by (intros; apply wrapu_id; unfold in_u; apply Z.mod_pos_bound; lia).
  rewrite !Hm. f_equal; [f_equal|]; zdm.
Qed.

(** Exhaustion over a range. *)
Lemma forall_range (f : Z -> bool) lo n :
  forallb f (seqZ lo n) = true -> forall x, lo <= x < lo + n -> f x = true.
Proof.
  intros H x Hx. rewrite forallb_forall in H. apply H, list_elem_of_In, elem_of_seqZ. lia.
Qed.

(** A signed word from its unsigned pattern. *)
Lemma wraps_wrapu w x : 0 < w -> in_s w x -> wraps w (wrapu w x) = x.
Proof.
  intros Hw Hx. unfold wraps, wrapu. rewrite Zplus_mod_idemp_l. by apply wraps_id.
Qed.

Lemma wraps_wrapu_mod w x : 0 < w -> wraps w (x mod 2 ^ w) = wraps w x.
Proof. intros Hw. unfold wraps. by rewrite Zplus_mod_idemp_l. Qed.

(** The bytes of a 16-bit sample put together again. *)
Lemma s16_bytes x :
  in_s 16 x ->
  s16 (Z.lor (u16 (u8 (Z.land x 0xFF))) (u16 (Z.shiftl (u16 (u8 (Z.shiftr x 8))) 8))) = x.
Proof.
  intros Hx. change 0xFF with (Z.ones 8). rewrite Z.land_ones, Z.shiftr_div_pow2 by lia.
  unfold u8, u16, wrapu. change (2 ^ 8) with 256. change (2 ^ 16) with 65536.
  rewrite Z.mod_mod by lia.
  pose proof (Z.mod_pos_bound x 256 ltac:(lia)). pose proof (Z.mod_pos_bound (x / 256) 256 ltac:(lia)).
  rewrite !(Z.mod_small _ 65536); rewrite ?Z.shiftl_mul_pow2 by lia; try lia.
  - rewrite <- Z.shiftl_mul_pow2, lor_shift_add by lia. change (2 ^ 8) with 256.
    rewrite <- (wraps_wrapu 16 x) at 3 by (done || lia). unfold s16. f_equal.
    unfold wrapu. change (2 ^ 16) with (256 * 256). rewrite Z.rem_mul_r by lia. lia.
  - rewrite Z.mod_small by lia. lia.
Qed.

(** ** Narrowing undoes widening *)

Definition none_result {A} (m : lcgM A) (st : Z) : option A :=
  match m st with Some (x, _) => Some x | None => None end.

Lemma widening_samples st :
  (forall x, in_u 8 x ->
     ma_pcm_s16_to_u8 ma_dither_mode_none (ma_pcm_u8_to_s16 x) st = Some (x, st)
     /\ ma_pcm_s24_to_u8 ma_dither_mode_none (ma_pcm_u8_to_s24 x) st = Some (x, st)
     /\ ma_pcm_s32_to_u8 ma_dither_mode_none (ma_pcm_u8_to_s32 x) st = Some (x, st))
  /\ (forall x, in_s 16 x ->
     ma_pcm_s24_to_s16 ma_dither_mode_none (ma_pcm_s16_to_s24 x) st = Some (x, st)
     /\ ma_pcm_s32_to_s16 ma_dither_mode_none (ma_pcm_s16_to_s32 x) st = Some (x, st))
  /\ (forall x, s24_ok x -> ma_pcm_s32_to_s24 (ma_pcm_s24_to_s32 x) = x).
Proof.
  split_and!; [| |apply s24_s32_s24].
  - intros x Hx.
    assert (E : forallb (fun x => (s16_to_u8_scaled (ma_pcm_u8_to_s16 x) =? x)
      && (s24_to_u8_scaled (ma_pcm_u8_to_s24 x) =? x)
      && (u8 (Z.shiftr (ma_pcm_u8_to_s32 x) 24 + 128) =? x)) (seqZ 0 256) = true)
      by (vm_compute; reflexivity).
    pose proof (forall_range _ _ _ E x Hx) as H. clear E. rewrite !andb_true_iff, !Z.eqb_eq in H.
    destruct H as [[H1 H2] H3]. unfold ma_pcm_s16_to_u8, ma_pcm_s24_to_u8, ma_pcm_s32_to_u8, ret.
    rewrite H1, H2, H3. split_and!; reflexivity.
  - intros x Hx. unfold in_s in Hx. change (2 ^ (16 - 1)) with 32768 in Hx.
    unfold ma_pcm_s24_to_s16, s24_to_s16_scaled, ma_pcm_s32_to_s16, ma_pcm_s16_to_s24,
      ma_pcm_s16_to_s32, ret.
    split.
    + rewrite s16_bytes by (unfold in_s; lia). done.
    + unfold s32, s16. rewrite (wraps_id 32); [|done|].
      2: { rewrite Z.shiftl_mul_pow2 by done. unfold in_s.
           change (2 ^ 16) with 65536. change (2 ^ (32 - 1)) with 2147483648. lia. }
      rewrite Z.shiftr_shiftl_l, Z.sub_diag, Z.shiftl_0_r by lia. by rewrite wraps_id by cint.
Qed.

(** ** Conversions from [float] are defined and in range *)

Lemma f32_clip_unit x :
  is_nan x = false ->
  is_nan (f32_clip x) = false /\ SFleb f32_mone (f32_clip x) = true
  /\ SFleb (f32_clip x) f32_one = true.
Proof.
  intros Hn. unfold f32_clip, flt, fgt.
  destruct (SFltb x f32_mone) eqn:E1; [done|]. destruct (SFltb f32_one x) eqn:E2; [done|].
  split_and!; [done|by apply not_lt_leb..].
Qed.

Lemma f32_clip_valid x : valid_binary 24 128 x = true -> valid_binary 24 128 (f32_clip x) = true.
Proof. intros. unfold f32_clip. by repeat case_match. Qed.

Lemma f32_clip_below x :
  valid_binary 24 128 x = true -> is_nan x = false -> below 24 128 1 0 (f32_clip x).
Proof.
  intros Hv Hn. destruct (f32_clip_unit x Hn) as (_ & H1 & H2).
  apply f32_unit_below; [by apply f32_clip_valid|done..].
Qed.

(** An integer scale factor of a sample format. *)
Lemma f32_scale_trunc x k :
  valid_binary 24 128 x = true -> below 24 128 1 0 x ->
  0 < k -> fexp 24 128 (Zdigits2 k) <= 0 -> below 24 128 k 0 (f32_of_Z k) ->
  exists v, sf_trunc (f32_mul x (f32_of_Z k)) = Some v /\ Z.abs v <= k.
Proof.
  intros Hv Hb Hk Hf Hkb.
  pose proof (SFmul_below 24 128 ltac:(lia) 1 0 k 0 x (f32_of_Z k)) as H.
  rewrite !Z.mul_1_l, Z.add_0_l in H.
  apply (sf_trunc_below 24 128 k 0); [lia| |done|by auto with cfloat|apply H; try done].
  - change (Z.min (emin 24 128) 0) with (-149). lia.
  - apply f32_of_Z_valid.
  - split; [done|]. split; [by rewrite Z.add_0_r|done].
Qed.

Lemma f32_to_s16_clipped x :
  valid_binary 24 128 x = true -> is_nan x = false ->
  exists v, sf_to_s 16 (f32_mul (f32_clip x) (f32_of_Z 32767)) = Some v /\ -32767 <= v <= 32767.
Proof.
  intros Hv Hn.
  destruct (f32_scale_trunc (f32_clip x) 32767) as (v & E & Hb);
    [by apply f32_clip_valid|by apply f32_clip_below|done|by compute|by compute|].
  exists v. unfold sf_to_s. rewrite E.
  assert (Hr : in_sb 16 v = true).
  { unfold in_sb. change (2 ^ (16 - 1)) with 32768. apply andb_true_iff.
    rewrite Z.leb_le, Z.ltb_lt. lia. }
  rewrite Hr. split; [done|lia].
Qed.

Lemma f32_add_zero x : valid_binary 24 128 x = true -> f32_add x f32_zero = x \/ x = S754_zero true.
Proof. destruct x as [[]|?| |? ? ?]; by auto. Qed.

(** Every [float] sample that is not a NaN, infinities and values far out of
    range included, converts to a 16-bit and a 24-bit sample without undefined
    behaviour, and the 16-bit result lies in [-32767, 32767]. *)
Theorem f32_to_s16_total b st :
  let x := f32_of_bits b in
  is_nan x = false ->
  (exists v, ma_pcm_f32_to_s16__reference ma_dither_mode_none x st = Some (v, st)
     /\ -32767 <= v <= 32767)
  /\ exists v, ma_pcm_f32_to_s24 x = Some v.
Proof.
  intros x Hn. assert (Hv : valid_binary 24 128 x = true) by apply f32_of_bits_valid.
  split.
  - unfold ma_pcm_f32_to_s16__reference, bind, lift.
    change (f32_to_s16_dither ma_dither_mode_none st) with (Some (f32_zero, st)).
    cbv beta iota. unfold f32_to_s16_scaled.
    destruct (f32_to_s16_clipped (f32_add x f32_zero)) as (v & -> & Hr); [by auto with cfloat| |by exists v].
    destruct (f32_add_zero x Hv) as [->| ->]; done.
  - destruct (f32_scale_trunc (f32_clip x) 8388607) as (v & E & Hb);
      [by apply f32_clip_valid|by apply f32_clip_below|done|by compute|by compute|].
    unfold ma_pcm_f32_to_s24, sf_to_s. rewrite E.
    assert (Hr : in_sb 32 v = true).
    { unfold in_sb. change (2 ^ (32 - 1)) with 2147483648. apply andb_true_iff.
      rewrite Z.leb_le, Z.ltb_lt. lia. }
    rewrite Hr. by eexists.
Qed.

(** Minus infinity, as stored in memory. *)
Lemma f32_to_s16_total_witness :
  (exists v, ma_pcm_f32_to_s16__reference ma_dither_mode_none (f32_of_bits 0xFF800000) 1 = Some (v, 1)
     /\ -32767 <= v <= 32767).
Proof. exact (proj1 (f32_to_s16_total 0xFF800000 1 eq_refl)). Defined.

(** ** The loops agree *)

Lemma rand_range_f32_total lo hi st : exists d st', ma_lcg_rand_range_f32 lo hi st = Some (d, st').
Proof. by eexists _, _. Qed.

Lemma f32_dither_total dm st : exists d st', f32_to_s16_dither dm st = Some (d, st').
Proof. destruct dm; by eexists _, _. Qed.

Lemma list_ind4 {A} (P : list A -> Prop) :
  P [] -> (forall a, P [a]) -> (forall a b, P [a; b]) -> (forall a b c, P [a; b; c]) ->
  (forall a b c d l, P l -> P (a :: b :: c :: d :: l)) -> forall l, P l.
Proof.
  intros H0 H1 H2 H3 H4. fix IH 1. intros [|a [|b [|c [|d l]]]];
    [exact H0|exact (H1 a)|exact (H2 a b)|exact (H3 a b c)|exact (H4 a b c d l (IH l))].
Qed.

Lemma f32_unrolled dm src st :
  ma_pcm_f32_to_s16__optimized dm src st
  = lcg_mapM (ma_pcm_f32_to_s16__reference dm) src st.
Proof.
  revert st. induction src as [|a|a b|a b c|x0 x1 x2 x3 src IH] using list_ind4; intros st;
    try reflexivity.
  cbn [ma_pcm_f32_to_s16__optimized lcg_mapM]. unfold ma_pcm_f32_to_s16__reference, bind, lift, ret.
  destruct (f32_dither_total dm st) as (d0 & st0 & ->).
  destruct (f32_dither_total dm st0) as (d1 & st1 & E1).
  destruct (f32_dither_total dm st1) as (d2 & st2 & E2).
  destruct (f32_dither_total dm st2) as (d3 & st3 & E3).
  rewrite E1, E2, E3.
  destruct (f32_to_s16_scaled x0 d0); [|done]. rewrite E1.
  destruct (f32_to_s16_scaled x1 d1); [|done]. rewrite E2.
  destruct (f32_to_s16_scaled x2 d2); [|done]. rewrite E3.
  destruct (f32_to_s16_scaled x3 d3); [|done].
  rewrite IH. unfold ma_pcm_f32_to_s16__reference, bind, lift.
  by destruct (lcg_mapM _ src st3) as [[? ?]|].
Qed.

(** The loop of [ma_pcm_f32_to_s16__optimized], unrolled by four with its draws
    moved ahead of the conversions, computes what converting sample by sample
    computes, for every dither mode: the same samples from the same draws, and the
    same final generator state. *)
Theorem f32_to_s16_unrolled_correct dm src st :
  ma_pcm_f32_to_s16__optimized dm src st
  = lcg_mapM (ma_pcm_f32_to_s16__reference dm) src st.
Proof.
  apply f32_unrolled.
Qed.

(** A lane of the vector path on a sample already in [-1, 1]. *)
Lemma lane_correct x :
  valid_binary 24 128 x = true -> SFleb f32_mone x = true -> SFleb x f32_one = true ->
  f32_to_s16_scaled x f32_zero = Some (f32_to_s16_lane x f32_zero).
Proof.
  intros Hv H1 H2. unfold f32_to_s16_lane, f32_to_s16_scaled.
  assert (Hn : is_nan x = false) by (by destruct x).
  set (y := f32_add x f32_zero).
  assert (Hy : f32_clip y = y /\ valid_binary 24 128 y = true /\ is_nan y = false).
  { subst y. destruct (f32_add_zero x Hv) as [->| ->]; [|done]. split_and!; [|done..].
    assert (Ha : SFltb x f32_mone = false).
    { unfold SFltb. rewrite (SFcompare_swap f32_mone x). unfold SFleb in H1.
      destruct (SFcompare f32_mone x) as [[]|]; done. }
    assert (Hb : SFltb f32_one x = false).
    { unfold SFltb. rewrite (SFcompare_swap x f32_one). unfold SFleb in H2.
      destruct (SFcompare x f32_one) as [[]|]; done. }
    unfold f32_clip, flt, fgt. by rewrite Ha, Hb. }
  destruct Hy as (Hc & Hvy & Hny).
  destruct (f32_to_s16_clipped y Hvy Hny) as (v & E & Hr). rewrite Hc in *. rewrite E.
  f_equal. unfold cvttps_epi32, sf_to_s in *.
  destruct (sf_trunc (f32_mul y (f32_of_Z 32767))) as [z|]; [|done].
  destruct (in_sb 16 z) eqn:E16; [|done]. simplify_eq.
  assert (E32 : in_sb 32 v = true).
  { unfold in_sb. change (2 ^ (32 - 1)) with 2147483648. apply andb_true_iff.
    rewrite Z.leb_le, Z.ltb_lt. lia. }
  rewrite E32. unfold packs_epi32. rewrite ma_clamp_spec; lia.
Qed.

Definition unit_sample (x : spec_float) : Prop :=
  valid_binary 24 128 x = true /\ SFleb f32_mone x = true /\ SFleb x f32_one = true.

Lemma reference_lanes l st :
  Forall unit_sample l ->
  lcg_mapM (ma_pcm_f32_to_s16__reference ma_dither_mode_none) l st
  = Some (map (fun x => f32_to_s16_lane x f32_zero) l, st).
Proof.
  induction 1 as [|x l (Hv & H1 & H2) Hl IH]; [done|].
  cbn [lcg_mapM map]. unfold bind at 1, ma_pcm_f32_to_s16__reference at 1, bind at 1, lift at 1.
  change (f32_to_s16_dither ma_dither_mode_none st) with (Some (f32_zero, st)). cbv beta iota.
  rewrite lane_correct by done. unfold bind. by rewrite IH.
Qed.

Lemma sse2_lanes lanes n l st :
  (length l <= n)%nat -> Forall unit_sample l ->
  ma_pcm_f32_to_s16__sse2 lanes ma_dither_mode_none l st
  = Some (map (fun x => f32_to_s16_lane x f32_zero) l, st).
Proof.
  revert l. induction n as [|n IH]; intros l Hn Hl; [by destruct l; [|simpl in Hn; lia]|].
  destruct l as [|x0 [|x1 [|x2 [|x3 [|x4 [|x5 [|x6 [|x7 l]]]]]]]];
    try (exact (reference_lanes _ st Hl)).
  cbn [ma_pcm_f32_to_s16__sse2]. unfold bind, sse2_dither, ret.
  rewrite IH; [done|simpl in Hn; lia|]. by do 8 (apply Forall_inv_tail in Hl).
Qed.

(** On samples in [-1, 1] the vector path of the undithered conversion, eight
    samples at a time with the remainder one by one, computes what the scalar loop
    computes; it has no clip of its own. *)
Theorem f32_to_s16_sse2_correct lanes src st :
  Forall unit_sample src ->
  ma_pcm_f32_to_s16 (Some lanes) ma_dither_mode_none src st
  = ma_pcm_f32_to_s16 None ma_dither_mode_none src st.
Proof.
  intros Hsrc. unfold ma_pcm_f32_to_s16.
  by rewrite f32_unrolled, reference_lanes, (sse2_lanes lanes (length src)).
Qed.

Lemma f32_to_s16_sse2_correct_witness :
  ma_pcm_f32_to_s16 (Some id) ma_dither_mode_none (replicate 9 f32_mone) 5
  = ma_pcm_f32_to_s16 None ma_dither_mode_none (replicate 9 f32_mone) 5.
Proof.
  apply (f32_to_s16_sse2_correct id (replicate 9 f32_mone) 5).
  repeat constructor.
Defined.

(** Outside that range the two differ: a sample of 65540 becomes negative full scale
    in a vector lane and positive full scale in the scalar loop. *)
Lemma sse2_out_of_range :
  f32_to_s16_lane (f32_of_Z 65540) f32_zero = -32768
  /\ f32_to_s16_scaled (f32_of_Z 65540) f32_zero = Some 32767.
Proof. by split. Qed.

(** ** The generator and dithering *)

Lemma rand_range_s32_spec lo hi st :
  lo <= hi -> - 2 ^ 30 < lo -> hi < 2 ^ 30 ->
  exists v st', ma_lcg_rand_range_s32 lo hi st = Some (v, st') /\ lo <= v <= hi.
Proof.
  intros Hle Hlo Hhi. unfold ma_lcg_rand_range_s32.
  destruct (Z.eqb_spec lo hi) as [->|Hne]; [by exists hi, st|].
  unfold ma_lcg_rand_u32, ma_lcg_rand_s32, bind, ret.
  set (s := Z.rem _ _). eexists _, _. split; [reflexivity|].
  assert (Hr : in_u 32 (u32 s)) by (by apply wrapu_range). unfold in_u in Hr.
  set (n := hi - lo + 1). unfold s32.
  rewrite (wraps_id 32 (hi - lo)) by cint. fold n. rewrite (wraps_id 32 n) by cint.
  unfold u32 in *. rewrite (wrapu_id 32 n) by cint.
  assert (Hn : 1 < n < 2 ^ 32) by lia.
  set (q := 0xFFFFFFFF / n).
  assert (Hq : q * n <= 0xFFFFFFFF < (q + 1) * n).
  { subst q. pose proof (Z.div_mod 0xFFFFFFFF n ltac:(lia)).
    pose proof (Z.mod_pos_bound 0xFFFFFFFF n ltac:(lia)). lia. }
  assert (Hq0 : 0 <= q < 2 ^ 32 - 1) by nia.
  rewrite (wrapu_id 32 (q + 1)) by cint.
  set (d := wrapu 32 s / (q + 1)).
  assert (Hd : 0 <= d < n).
  { subst d. split; [apply Z.div_pos; lia|apply Z.div_lt_upper_bound; lia]. }
  unfold wrapu. rewrite wraps_wrapu_mod by lia. rewrite wraps_id by cint. lia.
Qed.

Lemma dither_s32_spec dm lo hi st :
  lo <= 0 <= hi -> - 2 ^ 30 < lo -> hi < 2 ^ 30 ->
  exists v st', ma_dither_s32 dm lo hi st = Some (v, st') /\ lo <= v <= hi.
Proof.
  intros H0 Hlo Hhi. destruct dm; cbn [ma_dither_s32].
  - exists 0, st. split; [done|lia].
  - apply rand_range_s32_spec; lia.
  - unfold bind.
    destruct (rand_range_s32_spec lo 0 st) as (a & st1 & Ea & Ha); [lia..|].
    destruct (rand_range_s32_spec 0 hi st1) as (b & st2 & Eb & Hb); [lia..|].
    unfold ma_rand_range_s32. rewrite Ea, Eb. eexists _, _. split; [reflexivity|].
    unfold s32. rewrite wraps_id by cint. lia.
Qed.

(** The integer dither lies between its bounds, for every mode and every state of
    the generator, and a dithered 16-bit sample converts to the 8-bit value of a
    sample at most one step of 256 away, unless the dither takes it below the
    16-bit range. *)
Theorem s16_to_u8_dithered dm x st :
  in_s 16 x -> dm <> ma_dither_mode_none ->
  exists dither st', ma_dither_s32 dm (-0x80) 0x7F st = Some (dither, st')
    /\ -0x80 <= dither <= 0x7F
    /\ ma_pcm_s16_to_u8 dm x st
       = Some ((if x + dither <? -32768 then 255 else Z.min 32767 (x + dither) / 256 + 128), st').
Proof.
  intros Hx Hdm. destruct (dither_s32_spec dm (-0x80) 0x7F st) as (v & st' & E & Hv);
    [lia|lia|lia|].
  exists v, st'. split; [done|]. split; [done|].
  assert (E2 : ma_pcm_s16_to_u8 dm x st
    = Some (s16_to_u8_scaled (if x + v <=? 0x7FFF then s16 (x + v) else 0x7FFF), st')).
  { unfold ma_pcm_s16_to_u8, bind, ret. destruct dm; [done|by rewrite E..]. }
  rewrite E2. f_equal. f_equal. unfold in_s in Hx. change (2 ^ (16 - 1)) with 32768 in Hx.
  assert (Hs : forall y, -32768 <= y <= 32767 -> s16_to_u8_scaled y = y / 256 + 128).
  { intros y Hy. unfold s16_to_u8_scaled. rewrite Z.shiftr_div_pow2 by lia. change (2 ^ 8) with 256.
    assert (-128 <= y / 256 <= 127) by zdm. unfold s16, u8.
    rewrite (wraps_id 16 (y / 256)), (wraps_id 16 (y / 256 + 128)), wrapu_id by cint. done. }
  destruct (Z.leb_spec (x + v) 0x7FFF) as [Hle|Hgt].
  - rewrite Z.min_r by lia. destruct (Z.ltb_spec (x + v) (-32768)) as [Hlt|Hge].
    + assert (Hw : s16 (x + v) = x + v + 65536).
      { unfold s16. replace (x + v) with (x + v + 65536 + (-1) * 2 ^ 16) at 1 by lia.
        unfold wraps. rewrite <- Z.add_assoc, (Z.add_comm (-1 * _)), Z.add_assoc, Z.mod_add by done.
        change (2 ^ (16 - 1)) with 32768. rewrite Z.mod_small by (change (2 ^ 16) with 65536; lia). lia. }
      rewrite Hw, Hs by lia. zdm.
    + unfold s16. rewrite wraps_id by (first [done|unfold in_s; change (2 ^ (16 - 1)) with 32768; lia]).
      apply Hs. lia.
  - rewrite Z.min_l by lia. destruct (Z.ltb_spec (x + v) (-32768)); [lia|]. apply Hs. lia.
Qed.

(** The quietest sample, dithered down by the first draw that is negative, becomes
    the loudest. *)
Lemma s16_to_u8_dithered_witness :
  exists dither st', ma_dither_s32 ma_dither_mode_rectangle (-0x80) 0x7F 4321 = Some (dither, st')
    /\ ma_pcm_s16_to_u8 ma_dither_mode_rectangle (-32768) 4321
       = Some ((if -32768 + dither <? -32768 then 255
                else Z.min 32767 (-32768 + dither) / 256 + 128), st').
Proof.
  destruct (s16_to_u8_dithered ma_dither_mode_rectangle (-32768) 4321) as (d & st' & E & _ & E2);
    [vm_decide|done|].
  exists d, st'. exact (conj E E2).
Defined.

Example s16_to_u8_dither_wraps :
  none_result (ma_pcm_s16_to_u8 ma_dither_mode_rectangle (-32768)) 4321 = Some 255.
Proof. vm_compute. reflexivity. Qed.

(** The generator's state becomes negative, and the "range" of the float generator
    is then left. *)
Example lcg_rand_range_f32_below :
  match none_result (ma_lcg_rand_range_f32 f32_zero f32_one) 913132737 with
  | Some x => SFltb x f32_zero | None => false
  end = true.
Proof. vm_compute. reflexivity. Qed.

(** ** Whole buffers *)

Section buffers.
Context {A B : Type} (w w' : nat) (dec : list Z -> A) (f : A -> B) (enc : B -> list Z)
  (dec' : list Z -> B) (g : B -> lcgM A) (enc' : A -> list Z) (st : Z).

(** One sample survives the two conversions and the two trips through memory. *)
Definition sample_roundtrip : Prop := forall l,
  length l = w -> Forall (in_u 8) l ->
  length (enc (f (dec l))) = w' /\ dec' (enc (f (dec l))) = f (dec l)
  /\ g (f (dec l)) st = Some (dec l, st) /\ enc' (dec l) = l.

Lemma split_concat n ls :
  length ls = n -> Forall (fun l => length l = w') ls ->
  split_samples w' n (concat ls) = ls.
Proof.
  revert ls. induction n as [|n IH]; intros [|l ls] Hn Hl; try done.
  inversion_clear Hl as [|? ? Hl0 Hls]. cbn [split_samples concat].
  rewrite take_app_length', drop_app_length' by done. f_equal. apply IH; [by injection Hn|done].
Qed.

Lemma pcm_loop_roundtrip src n :
  (0 < w)%nat -> sample_roundtrip -> length src = (w * n)%nat -> Forall (in_u 8) src ->
  exists mid, pcm_loop w dec (pure f) enc src (Z.of_nat n) st = Some (mid, st)
    /\ length mid = (w' * n)%nat
    /\ pcm_loop w' dec' g enc' mid (Z.of_nat n) st = Some (src, st).
Proof.
  intros Hw Hrt Hlen Hsrc. unfold pcm_loop, pcm_array. rewrite Nat2Z.id. unfold bind at 1.
  assert (Hsplit : forall m s, length s = (w * m)%nat -> Forall (in_u 8) s ->
    length (split_samples w m s) = m /\ concat (split_samples w m s) = s
    /\ Forall (fun l => length l = w /\ Forall (in_u 8) l) (split_samples w m s)).
  { induction m as [|m IH]; intros s Hl Hs.
    - destruct s; [done|simpl in Hl; lia].
    - cbn [split_samples]. destruct (IH (drop w s)) as (L & C & F);
        [rewrite length_drop; lia|by apply Forall_drop|].
      cbn [length concat]. rewrite C, take_drop. split_and!; [lia|done|].
      constructor; [split; [rewrite length_take; lia|by apply Forall_take]|done]. }
  destruct (Hsplit n src Hlen Hsrc) as (L & C & F). set (ls := split_samples w n src) in *.
  rewrite lcg_mapM_pure. unfold ret at 1. eexists. split; [reflexivity|].
  assert (Henc : Forall (fun l => length l = w') (map enc (map f (map dec ls)))).
  { clear -F Hrt. induction F as [|l ls [Hl Hb] F IH]; [constructor|].
    constructor; [by apply Hrt|done]. }
  assert (Hc : length (concat (map enc (map f (map dec ls)))) = (w' * n)%nat).
  { rewrite <- L. clear -Henc. induction ls as [|l ls IH]; [simpl; lia|].
    inversion_clear Henc as [|? ? H1 H2]. cbn [map concat length].
    rewrite length_app, H1, IH by done. lia. }
  split; [done|]. rewrite split_concat by (rewrite ?length_map; done). unfold bind.
  assert (Hg : lcg_mapM g (map dec' (map enc (map f (map dec ls)))) st = Some (map dec ls, st)).
  { clear -F Hrt. induction F as [|l ls [Hl Hb] F IH]; [done|].
    destruct (Hrt l Hl Hb) as (_ & E1 & E2 & _). cbn [map lcg_mapM]. unfold bind.
    rewrite E1, E2, IH. done. }
  rewrite Hg. unfold ret. f_equal. f_equal. rewrite <- C. f_equal.
  clear -F Hrt. induction F as [|l ls [Hl Hb] F IH]; [done|].
  cbn [map]. f_equal; [by apply Hrt|done].
Qed.
End buffers.

(** ** Samples in memory *)

Lemma le_range_u w l : length l = w -> Forall (in_u 8) l -> in_u (8 * Z.of_nat w) (le_word l).
Proof.
  intros <- Hl. pose proof (le_word_range l Hl) as H. unfold in_u, zlen in *.
  by rewrite Z.pow_mul_r by lia.
Qed.

Lemma sample_bytes_s16 x : in_s 16 x -> sample_s16 (bytes_s16 x) = x.
Proof.
  intros Hx. unfold sample_s16, bytes_s16, u16. rewrite le_word_bytes.
  unfold s16, wrapu. change (256 ^ Z.of_nat 2) with (2 ^ 16). rewrite Z.mod_mod by done.
  rewrite wraps_wrapu_mod by lia. by apply wraps_id.
Qed.

Lemma sample_bytes_s32 x : in_s 32 x -> sample_s32 (bytes_s32 x) = x.
Proof.
  intros Hx. unfold sample_s32, bytes_s32, u32. rewrite le_word_bytes.
  unfold s32, wrapu. change (256 ^ Z.of_nat 4) with (2 ^ 32). rewrite Z.mod_mod by done.
  rewrite wraps_wrapu_mod by lia. by apply wraps_id.
Qed.

Lemma bytes_sample_u8 l : length l = 1%nat -> Forall (in_u 8) l -> bytes_u8 (sample_u8 l) = l.
Proof.
  intros Hlen Hl. unfold bytes_u8, sample_u8. rewrite <- Hlen. by apply le_bytes_word.
Qed.

Lemma bytes_sample_s16 l : length l = 2%nat -> Forall (in_u 8) l -> bytes_s16 (sample_s16 l) = l.
Proof.
  intros Hlen Hl. unfold bytes_s16, sample_s16.
  assert (E : u16 (s16 (le_word l)) = le_word l).
  { pose proof (le_range_u 2 l Hlen Hl) as Hr. unfold u16, s16, wrapu, wraps.
    rewrite Zminus_mod_idemp_l, Z.add_simpl_r. by apply Z.mod_small. }
  rewrite E, <- Hlen. by apply le_bytes_word.
Qed.

Lemma bytes_sample_s24 l : length l = 3%nat -> Forall (in_u 8) l -> bytes_s24 (sample_s24 l) = l.
Proof. intros Hlen _. by destruct l as [|? [|? [|? []]]]. Qed.

Lemma sample_s24_ok l : length l = 3%nat -> Forall (in_u 8) l -> s24_ok (sample_s24 l).
Proof.
  intros Hlen Hl. destruct l as [|a [|b [|c []]]]; try done.
  inversion_clear Hl as [|? ? ? Hl1]. inversion_clear Hl1 as [|? ? ? Hl2].
  inversion_clear Hl2. by split_and!.
Qed.

(** The pairs of a format and a wider one. *)
Definition widens (narrow wide : ma_format) : bool :=
  match narrow, wide with
  | ma_format_u8, (ma_format_s16 | ma_format_s24 | ma_format_s32)
  | ma_format_s16, (ma_format_s24 | ma_format_s32)
  | ma_format_s24, ma_format_s32 => true
  | _, _ => false
  end.

(** C40. [ma_pcm_convert] to a wider integer format and back, without dithering,
    returns the buffer byte for byte, for every such pair of formats, and leaves
    the generator alone. *)
Theorem ma_pcm_convert_roundtrip simd narrow wide src n st :
  widens narrow wide = true ->
  zlen src = ma_get_bytes_per_sample narrow * Z.of_nat n -> Forall (in_u 8) src ->
  exists mid,
    ma_pcm_convert simd wide narrow src (Z.of_nat n) ma_dither_mode_none st = Some (mid, st)
    /\ zlen mid = ma_get_bytes_per_sample wide * Z.of_nat n
    /\ ma_pcm_convert simd narrow wide mid (Z.of_nat n) ma_dither_mode_none st = Some (src, st).
Proof.
  intros Hw Hlen Hsrc. destruct (widening_samples st) as (H8 & H16 & H24). unfold zlen in *.
  assert (Hgo : forall {A B} w w' dec (f : A -> B) enc dec' (g : B -> lcgM A) enc',
    (0 < w)%nat -> sample_roundtrip w w' dec f enc dec' g enc' st ->
    length src = (w * n)%nat ->
    exists mid, pcm_loop w dec (pure f) enc src (Z.of_nat n) st = Some (mid, st)
      /\ Z.of_nat (length mid) = Z.of_nat w' * Z.of_nat n
      /\ pcm_loop w' dec' g enc' mid (Z.of_nat n) st = Some (src, st)).
  { intros A B w w' dec f enc dec' g enc' Hw0 Hrt Hl.
    destruct (pcm_loop_roundtrip w w' dec f enc dec' g enc' st src n Hw0 Hrt Hl Hsrc)
      as (mid & E & L & E'). exists mid. split_and!; [done|lia|done]. }
  destruct narrow, wide; try done; unfold ma_pcm_convert; rewrite !decide_False by done;
    cbn [ma_get_bytes_per_sample] in *.
  - apply (Hgo _ _ 1%nat 2%nat); [lia| |lia]. intros l Hl Hb.
    pose proof (le_range_u 1 l Hl Hb) as Hr. split_and!; [done| |by apply H8|by apply bytes_sample_u8].
    apply sample_bytes_s16. apply wraps_range. lia.
  - apply (Hgo _ _ 1%nat 3%nat); [lia| |lia]. intros l Hl Hb.
    pose proof (le_range_u 1 l Hl Hb) as Hr. split_and!; [done|done|by apply H8|by apply bytes_sample_u8].
  - apply (Hgo _ _ 1%nat 4%nat); [lia| |lia]. intros l Hl Hb.
    pose proof (le_range_u 1 l Hl Hb) as Hr. split_and!; [done| |by apply H8|by apply bytes_sample_u8].
    apply sample_bytes_s32. apply wraps_range. lia.
  - apply (Hgo _ _ 2%nat 3%nat); [lia| |lia]. intros l Hl Hb.
    split_and!; [done|done|apply H16, wraps_range; lia|by apply bytes_sample_s16].
  - apply (Hgo _ _ 2%nat 4%nat); [lia| |lia]. intros l Hl Hb.
    split_and!; [done| |apply H16, wraps_range; lia|by apply bytes_sample_s16].
    apply sample_bytes_s32. apply wraps_range. lia.
  - apply (Hgo _ _ 3%nat 4%nat); [lia| |lia]. intros l Hl Hb.
    pose proof (sample_s24_ok l Hl Hb) as Hok. split_and!; [done| |by unfold pure, ret; rewrite H24|
      by apply bytes_sample_s24].
    apply sample_bytes_s32. unfold ma_pcm_s24_to_s32, s24_to_s32_value.
    destruct (sample_s24 l) as [[? ?] ?]. apply wraps_range. lia.
Qed.

Lemma ma_pcm_convert_roundtrip_witness :
  exists mid,
    ma_pcm_convert None ma_format_s24 ma_format_s16 [0; 128; 255; 127] 2 ma_dither_mode_none 1
      = Some (mid, 1)
    /\ zlen mid = 6
    /\ ma_pcm_convert None ma_format_s16 ma_format_s24 mid 2 ma_dither_mode_none 1
      = Some ([0; 128; 255; 127], 1).
Proof.
  apply (ma_pcm_convert_roundtrip None ma_format_s16 ma_format_s24 [0; 128; 255; 127] 2 1);
    [done|done|repeat constructor; vm_decide].
Defined.
