(* ===== verification/ChannelMap.v ===== *)
(** * Channel maps (miniaudio.h)

    The standard channel maps, and the queries on a map in memory.  A channel is
    the [ma_uint8] of the C enumeration; a map is NULL ([None], the default map)
    or an array.  The seven tables are those of the source; [pick] is the inner
    [switch], which falls through to the auxiliary channels. *)
From Stdlib Require Import ZArith Lia Bool String Ascii.
From stdpp Require Import base numbers list option.
From S2P Require Import Prelude MaTypes.

Local Open Scope Z_scope.

(** ** Positions *)

Definition ma_channel := Z.
Definition MA_CHANNEL_NONE : ma_channel := 0.
Definition MA_CHANNEL_MONO : ma_channel := 1.
Definition MA_CHANNEL_FRONT_LEFT : ma_channel := 2.
Definition MA_CHANNEL_FRONT_RIGHT : ma_channel := 3.
Definition MA_CHANNEL_FRONT_CENTER : ma_channel := 4.
Definition MA_CHANNEL_LFE : ma_channel := 5.
Definition MA_CHANNEL_BACK_LEFT : ma_channel := 6.
Definition MA_CHANNEL_BACK_RIGHT : ma_channel := 7.
Definition MA_CHANNEL_FRONT_LEFT_CENTER : ma_channel := 8.
Definition MA_CHANNEL_FRONT_RIGHT_CENTER : ma_channel := 9.
Definition MA_CHANNEL_BACK_CENTER : ma_channel := 10.
Definition MA_CHANNEL_SIDE_LEFT : ma_channel := 11.
Definition MA_CHANNEL_SIDE_RIGHT : ma_channel := 12.
Definition MA_CHANNEL_TOP_CENTER : ma_channel := 13.
Definition MA_CHANNEL_TOP_FRONT_LEFT : ma_channel := 14.
Definition MA_CHANNEL_TOP_FRONT_CENTER : ma_channel := 15.
Definition MA_CHANNEL_TOP_FRONT_RIGHT : ma_channel := 16.
Definition MA_CHANNEL_TOP_BACK_LEFT : ma_channel := 17.
Definition MA_CHANNEL_TOP_BACK_CENTER : ma_channel := 18.
Definition MA_CHANNEL_TOP_BACK_RIGHT : ma_channel := 19.
Definition MA_CHANNEL_AUX_0 : ma_channel := 20.
Definition MA_CHANNEL_AUX_1 : ma_channel := 21.
Definition MA_CHANNEL_AUX_2 : ma_channel := 22.
Definition MA_CHANNEL_AUX_3 : ma_channel := 23.
Definition MA_CHANNEL_AUX_4 : ma_channel := 24.
Definition MA_CHANNEL_AUX_5 : ma_channel := 25.
Definition MA_CHANNEL_AUX_6 : ma_channel := 26.
Definition MA_CHANNEL_AUX_7 : ma_channel := 27.
Definition MA_CHANNEL_AUX_8 : ma_channel := 28.
Definition MA_CHANNEL_AUX_9 : ma_channel := 29.
Definition MA_CHANNEL_AUX_10 : ma_channel := 30.
Definition MA_CHANNEL_AUX_11 : ma_channel := 31.
Definition MA_CHANNEL_AUX_12 : ma_channel := 32.
Definition MA_CHANNEL_AUX_13 : ma_channel := 33.
Definition MA_CHANNEL_AUX_14 : ma_channel := 34.
Definition MA_CHANNEL_AUX_15 : ma_channel := 35.
Definition MA_CHANNEL_AUX_16 : ma_channel := 36.
Definition MA_CHANNEL_AUX_17 : ma_channel := 37.
Definition MA_CHANNEL_AUX_18 : ma_channel := 38.
Definition MA_CHANNEL_AUX_19 : ma_channel := 39.
Definition MA_CHANNEL_AUX_20 : ma_channel := 40.
Definition MA_CHANNEL_AUX_21 : ma_channel := 41.
Definition MA_CHANNEL_AUX_22 : ma_channel := 42.
Definition MA_CHANNEL_AUX_23 : ma_channel := 43.
Definition MA_CHANNEL_AUX_24 : ma_channel := 44.
Definition MA_CHANNEL_AUX_25 : ma_channel := 45.
Definition MA_CHANNEL_AUX_26 : ma_channel := 46.
Definition MA_CHANNEL_AUX_27 : ma_channel := 47.
Definition MA_CHANNEL_AUX_28 : ma_channel := 48.
Definition MA_CHANNEL_AUX_29 : ma_channel := 49.
Definition MA_CHANNEL_AUX_30 : ma_channel := 50.
Definition MA_CHANNEL_AUX_31 : ma_channel := 51.
Definition MA_CHANNEL_POSITION_COUNT : Z := 52.

Inductive ma_standard_channel_map :=
| ma_standard_channel_map_microsoft
| ma_standard_channel_map_alsa
| ma_standard_channel_map_rfc3551
| ma_standard_channel_map_flac
| ma_standard_channel_map_vorbis
| ma_standard_channel_map_sound4
| ma_standard_channel_map_sndio.

Definition ma_standard_channel_map_webaudio := ma_standard_channel_map_flac.
Definition ma_standard_channel_map_default := ma_standard_channel_map_microsoft.

(** ** The standard maps *)

(** The entry of a [switch] on the channel index, or what follows the switch. *)
Definition pick (channelIndex : Z) (rest : ma_channel) (table : list ma_channel) : ma_channel :=
  if (0 <=? channelIndex) && (channelIndex <? zlen table)
  then nth (Z.to_nat channelIndex) table rest else rest.

(** The auxiliary channels after the [n] named ones. *)
Definition aux_channel (n channelCount channelIndex : Z) : ma_channel :=
  if channelCount >? n then
    if channelIndex <? 32 then u8 (MA_CHANNEL_AUX_0 + u32 (channelIndex - n)) else MA_CHANNEL_NONE
  else MA_CHANNEL_NONE.

Definition ma_channel_map_init_standard_channel_microsoft (channelCount channelIndex : Z) : ma_channel :=
  let rest := aux_channel 8 channelCount channelIndex in
  if (channelCount =? 0) || (channelIndex >=? channelCount) then MA_CHANNEL_NONE
  else
  match channelCount with
  | 0 => MA_CHANNEL_NONE
  | 1 => MA_CHANNEL_MONO
  | 2 => pick channelIndex rest
            [MA_CHANNEL_FRONT_LEFT; MA_CHANNEL_FRONT_RIGHT]
  | 3 => pick channelIndex rest
            [MA_CHANNEL_FRONT_LEFT; MA_CHANNEL_FRONT_RIGHT; MA_CHANNEL_FRONT_CENTER]
  | 4 => pick channelIndex rest
            [MA_CHANNEL_FRONT_LEFT; MA_CHANNEL_FRONT_RIGHT; MA_CHANNEL_FRONT_CENTER;
             MA_CHANNEL_BACK_CENTER]
  | 5 => pick channelIndex rest
            [MA_CHANNEL_FRONT_LEFT; MA_CHANNEL_FRONT_RIGHT; MA_CHANNEL_FRONT_CENTER;
             MA_CHANNEL_BACK_LEFT; MA_CHANNEL_BACK_RIGHT]
  | 6 => pick channelIndex rest
            [MA_CHANNEL_FRONT_LEFT; MA_CHANNEL_FRONT_RIGHT; MA_CHANNEL_FRONT_CENTER;
             MA_CHANNEL_LFE; MA_CHANNEL_SIDE_LEFT; MA_CHANNEL_SIDE_RIGHT]
  | 7 => pick channelIndex rest
            [MA_CHANNEL_FRONT_LEFT; MA_CHANNEL_FRONT_RIGHT; MA_CHANNEL_FRONT_CENTER;
             MA_CHANNEL_LFE; MA_CHANNEL_BACK_CENTER; MA_CHANNEL_SIDE_LEFT;
             MA_CHANNEL_SIDE_RIGHT]
  | _ => pick channelIndex rest
            [MA_CHANNEL_FRONT_LEFT; MA_CHANNEL_FRONT_RIGHT; MA_CHANNEL_FRONT_CENTER;
             MA_CHANNEL_LFE; MA_CHANNEL_BACK_LEFT; MA_CHANNEL_BACK_RIGHT;
             MA_CHANNEL_SIDE_LEFT; MA_CHANNEL_SIDE_RIGHT]
  end.

Definition ma_channel_map_init_standard_channel_alsa (channelCount channelIndex : Z) : ma_channel :=
  let rest := aux_channel 8 channelCount channelIndex in
  match channelCount with
  | 0 => MA_CHANNEL_NONE
  | 1 => MA_CHANNEL_MONO
  | 2 => pick channelIndex rest
            [MA_CHANNEL_FRONT_LEFT; MA_CHANNEL_FRONT_RIGHT]
  | 3 => pick channelIndex rest
            [MA_CHANNEL_FRONT_LEFT; MA_CHANNEL_FRONT_RIGHT; MA_CHANNEL_FRONT_CENTER]
  | 4 => pick channelIndex rest
            [MA_CHANNEL_FRONT_LEFT; MA_CHANNEL_FRONT_RIGHT; MA_CHANNEL_BACK_LEFT;
             MA_CHANNEL_BACK_RIGHT]
  | 5 => pick channelIndex rest
            [MA_CHANNEL_FRONT_LEFT; MA_CHANNEL_FRONT_RIGHT; MA_CHANNEL_BACK_LEFT;
             MA_CHANNEL_BACK_RIGHT; MA_CHANNEL_FRONT_CENTER]
  | 6 => pick channelIndex rest
            [MA_CHANNEL_FRONT_LEFT; MA_CHANNEL_FRONT_RIGHT; MA_CHANNEL_BACK_LEFT;
             MA_CHANNEL_BACK_RIGHT; MA_CHANNEL_FRONT_CENTER; MA_CHANNEL_LFE]
  | 7 => pick channelIndex rest
            [MA_CHANNEL_FRONT_LEFT; MA_CHANNEL_FRONT_RIGHT; MA_CHANNEL_BACK_LEFT;
             MA_CHANNEL_BACK_RIGHT; MA_CHANNEL_FRONT_CENTER; MA_CHANNEL_LFE;
             MA_CHANNEL_BACK_CENTER]
  | _ => pick channelIndex rest
            [MA_CHANNEL_FRONT_LEFT; MA_CHANNEL_FRONT_RIGHT; MA_CHANNEL_BACK_LEFT;
             MA_CHANNEL_BACK_RIGHT; MA_CHANNEL_FRONT_CENTER; MA_CHANNEL_LFE;
             MA_CHANNEL_SIDE_LEFT; MA_CHANNEL_SIDE_RIGHT]
  end.

Definition ma_channel_map_init_standard_channel_rfc3551 (channelCount channelIndex : Z) : ma_channel :=
  let rest := aux_channel 6 channelCount channelIndex in
  match channelCount with
  | 0 => MA_CHANNEL_NONE
  | 1 => MA_CHANNEL_MONO
  | 2 => pick channelIndex rest
            [MA_CHANNEL_FRONT_LEFT; MA_CHANNEL_FRONT_RIGHT]
  | 3 => pick channelIndex rest
            [MA_CHANNEL_FRONT_LEFT; MA_CHANNEL_FRONT_RIGHT; MA_CHANNEL_FRONT_CENTER]
  | 4 => pick channelIndex rest
            [MA_CHANNEL_FRONT_LEFT; MA_CHANNEL_FRONT_RIGHT; MA_CHANNEL_FRONT_CENTER;
             MA_CHANNEL_BACK_CENTER]
  | 5 => pick channelIndex rest
            [MA_CHANNEL_FRONT_LEFT; MA_CHANNEL_FRONT_RIGHT; MA_CHANNEL_FRONT_CENTER;
             MA_CHANNEL_BACK_LEFT; MA_CHANNEL_BACK_RIGHT]
  | _ => pick channelIndex rest
            [MA_CHANNEL_FRONT_LEFT; MA_CHANNEL_SIDE_LEFT; MA_CHANNEL_FRONT_CENTER;
             MA_CHANNEL_FRONT_RIGHT; MA_CHANNEL_SIDE_RIGHT; MA_CHANNEL_BACK_CENTER]
  end.

Definition ma_channel_map_init_standard_channel_flac (channelCount channelIndex : Z) : ma_channel :=
  let rest := aux_channel 8 channelCount channelIndex in
  match channelCount with
  | 0 => MA_CHANNEL_NONE
  | 1 => MA_CHANNEL_MONO
  | 2 => pick channelIndex rest
            [MA_CHANNEL_FRONT_LEFT; MA_CHANNEL_FRONT_RIGHT]
  | 3 => pick channelIndex rest
            [MA_CHANNEL_FRONT_LEFT; MA_CHANNEL_FRONT_RIGHT; MA_CHANNEL_FRONT_CENTER]
  | 4 => pick channelIndex rest
            [MA_CHANNEL_FRONT_LEFT; MA_CHANNEL_FRONT_RIGHT; MA_CHANNEL_BACK_LEFT;
             MA_CHANNEL_BACK_RIGHT]
  | 5 => pick channelIndex rest
            [MA_CHANNEL_FRONT_LEFT; MA_CHANNEL_FRONT_RIGHT; MA_CHANNEL_FRONT_CENTER;
             MA_CHANNEL_BACK_LEFT; MA_CHANNEL_BACK_RIGHT]
  | 6 => pick channelIndex rest
            [MA_CHANNEL_FRONT_LEFT; MA_CHANNEL_FRONT_RIGHT; MA_CHANNEL_FRONT_CENTER;
             MA_CHANNEL_LFE; MA_CHANNEL_BACK_LEFT; MA_CHANNEL_BACK_RIGHT]
  | 7 => pick channelIndex rest
            [MA_CHANNEL_FRONT_LEFT; MA_CHANNEL_FRONT_RIGHT; MA_CHANNEL_FRONT_CENTER;
             MA_CHANNEL_LFE; MA_CHANNEL_BACK_CENTER; MA_CHANNEL_SIDE_LEFT;
             MA_CHANNEL_SIDE_RIGHT]
  | _ => pick channelIndex rest
            [MA_CHANNEL_FRONT_LEFT; MA_CHANNEL_FRONT_RIGHT; MA_CHANNEL_FRONT_CENTER;
             MA_CHANNEL_LFE; MA_CHANNEL_BACK_LEFT; MA_CHANNEL_BACK_RIGHT;
             MA_CHANNEL_SIDE_LEFT; MA_CHANNEL_SIDE_RIGHT]
  end.

Definition ma_channel_map_init_standard_channel_vorbis (channelCount channelIndex : Z) : ma_channel :=
  let rest := aux_channel 8 channelCount channelIndex in
  match channelCount with
  | 0 => MA_CHANNEL_NONE
  | 1 => MA_CHANNEL_MONO
  | 2 => pick channelIndex rest
            [MA_CHANNEL_FRONT_LEFT; MA_CHANNEL_FRONT_RIGHT]
  | 3 => pick channelIndex rest
            [MA_CHANNEL_FRONT_LEFT; MA_CHANNEL_FRONT_CENTER; MA_CHANNEL_FRONT_RIGHT]
  | 4 => pick channelIndex rest
            [MA_CHANNEL_FRONT_LEFT; MA_CHANNEL_FRONT_RIGHT; MA_CHANNEL_BACK_LEFT;
             MA_CHANNEL_BACK_RIGHT]
  | 5 => pick channelIndex rest
            [MA_CHANNEL_FRONT_LEFT; MA_CHANNEL_FRONT_CENTER; MA_CHANNEL_FRONT_RIGHT;
             MA_CHANNEL_BACK_LEFT; MA_CHANNEL_BACK_RIGHT]
  | 6 => pick channelIndex rest
            [MA_CHANNEL_FRONT_LEFT; MA_CHANNEL_FRONT_CENTER; MA_CHANNEL_FRONT_RIGHT;
             MA_CHANNEL_BACK_LEFT; MA_CHANNEL_BACK_RIGHT; MA_CHANNEL_LFE]
  | 7 => pick channelIndex rest
            [MA_CHANNEL_FRONT_LEFT; MA_CHANNEL_FRONT_CENTER; MA_CHANNEL_FRONT_RIGHT;
             MA_CHANNEL_SIDE_LEFT; MA_CHANNEL_SIDE_RIGHT; MA_CHANNEL_BACK_CENTER;
             MA_CHANNEL_LFE]
  | _ => pick channelIndex rest
            [MA_CHANNEL_FRONT_LEFT; MA_CHANNEL_FRONT_CENTER; MA_CHANNEL_FRONT_RIGHT;
             MA_CHANNEL_SIDE_LEFT; MA_CHANNEL_SIDE_RIGHT; MA_CHANNEL_BACK_LEFT;
             MA_CHANNEL_BACK_RIGHT; MA_CHANNEL_LFE]
  end.

Definition ma_channel_map_init_standard_channel_sound4 (channelCount channelIndex : Z) : ma_channel :=
  let rest := aux_channel 8 channelCount channelIndex in
  match channelCount with
  | 0 => MA_CHANNEL_NONE
  | 1 => MA_CHANNEL_MONO
  | 2 => pick channelIndex rest
            [MA_CHANNEL_FRONT_LEFT; MA_CHANNEL_FRONT_RIGHT]
  | 3 => pick channelIndex rest
            [MA_CHANNEL_FRONT_LEFT; MA_CHANNEL_FRONT_RIGHT; MA_CHANNEL_FRONT_CENTER]
  | 4 => pick channelIndex rest
            [MA_CHANNEL_FRONT_LEFT; MA_CHANNEL_FRONT_RIGHT; MA_CHANNEL_BACK_LEFT;
             MA_CHANNEL_BACK_RIGHT]
  | 5 => pick channelIndex rest
            [MA_CHANNEL_FRONT_LEFT; MA_CHANNEL_FRONT_RIGHT; MA_CHANNEL_FRONT_CENTER;
             MA_CHANNEL_BACK_LEFT; MA_CHANNEL_BACK_RIGHT]
  | 6 => pick channelIndex rest
            [MA_CHANNEL_FRONT_LEFT; MA_CHANNEL_FRONT_CENTER; MA_CHANNEL_FRONT_RIGHT;
             MA_CHANNEL_BACK_LEFT; MA_CHANNEL_BACK_RIGHT; MA_CHANNEL_LFE]
  | 7 => pick channelIndex rest
            [MA_CHANNEL_FRONT_LEFT; MA_CHANNEL_FRONT_CENTER; MA_CHANNEL_FRONT_RIGHT;
             MA_CHANNEL_SIDE_LEFT; MA_CHANNEL_SIDE_RIGHT; MA_CHANNEL_BACK_CENTER;
             MA_CHANNEL_LFE]
  | _ => pick channelIndex rest
            [MA_CHANNEL_FRONT_LEFT; MA_CHANNEL_FRONT_CENTER; MA_CHANNEL_FRONT_RIGHT;
             MA_CHANNEL_SIDE_LEFT; MA_CHANNEL_SIDE_RIGHT; MA_CHANNEL_BACK_LEFT;
             MA_CHANNEL_BACK_RIGHT; MA_CHANNEL_LFE]
  end.

Definition ma_channel_map_init_standard_channel_sndio (channelCount channelIndex : Z) : ma_channel :=
  let rest := aux_channel 6 channelCount channelIndex in
  match channelCount with
  | 0 => MA_CHANNEL_NONE
  | 1 => MA_CHANNEL_MONO
  | 2 => pick channelIndex rest
            [MA_CHANNEL_FRONT_LEFT; MA_CHANNEL_FRONT_RIGHT]
  | 3 => pick channelIndex rest
            [MA_CHANNEL_FRONT_LEFT; MA_CHANNEL_FRONT_RIGHT; MA_CHANNEL_FRONT_CENTER]
  | 4 => pick channelIndex rest
            [MA_CHANNEL_FRONT_LEFT; MA_CHANNEL_FRONT_RIGHT; MA_CHANNEL_BACK_LEFT;
             MA_CHANNEL_BACK_RIGHT]
  | 5 => pick channelIndex rest
            [MA_CHANNEL_FRONT_LEFT; MA_CHANNEL_FRONT_RIGHT; MA_CHANNEL_BACK_LEFT;
             MA_CHANNEL_BACK_RIGHT; MA_CHANNEL_FRONT_CENTER]
  | _ => pick channelIndex rest
            [MA_CHANNEL_FRONT_LEFT; MA_CHANNEL_FRONT_RIGHT; MA_CHANNEL_BACK_LEFT;
             MA_CHANNEL_BACK_RIGHT; MA_CHANNEL_FRONT_CENTER; MA_CHANNEL_LFE]
  end.

Definition ma_channel_map_init_standard_channel (standardChannelMap : ma_standard_channel_map)
    (channelCount channelIndex : Z) : ma_channel :=
  if (channelCount =? 0) || (channelIndex >=? channelCount) then MA_CHANNEL_NONE
  else
    match standardChannelMap with
    | ma_standard_channel_map_alsa =>
        ma_channel_map_init_standard_channel_alsa channelCount channelIndex
    | ma_standard_channel_map_rfc3551 =>
        ma_channel_map_init_standard_channel_rfc3551 channelCount channelIndex
    | ma_standard_channel_map_flac =>
        ma_channel_map_init_standard_channel_flac channelCount channelIndex
    | ma_standard_channel_map_vorbis =>
        ma_channel_map_init_standard_channel_vorbis channelCount channelIndex
    | ma_standard_channel_map_sound4 =>
        ma_channel_map_init_standard_channel_sound4 channelCount channelIndex
    | ma_standard_channel_map_sndio =>
        ma_channel_map_init_standard_channel_sndio channelCount channelIndex
    | ma_standard_channel_map_microsoft =>
        ma_channel_map_init_standard_channel_microsoft channelCount channelIndex
    end.

(** Out of bounds of an array that is shorter than its count is not read. *)
Definition ma_channel_map_get_channel (pChannelMap : option (list ma_channel))
    (channelCount channelIndex : Z) : ma_channel :=
  match pChannelMap with
  | None =>
      ma_channel_map_init_standard_channel ma_standard_channel_map_default channelCount channelIndex
  | Some m =>
      if channelIndex >=? channelCount then MA_CHANNEL_NONE
      else nth (Z.to_nat channelIndex) m MA_CHANNEL_NONE
  end.

(** ** Filling a map *)

(** [pOut] is the caller's array; writes start at its beginning. *)
Definition ma_channel_map_init_blank (pOut : list ma_channel) (channels : Z) : list ma_channel :=
  wr pOut 0 (zrep channels MA_CHANNEL_NONE).

(** The loop writes at [iChannel] until it runs out of room. *)
Fixpoint init_standard_loop (n : nat) (map : ma_standard_channel_map) (pOut : list ma_channel)
    (channelMapCap channels iChannel : Z) : list ma_channel :=
  match n with
  | O => pOut
  | S n =>
      if channelMapCap =? 0 then pOut
      else
        init_standard_loop n map
          (wr pOut iChannel [ma_channel_map_init_standard_channel map channels iChannel])
          (channelMapCap - 1) channels (iChannel + 1)
  end.

Definition ma_channel_map_init_standard (map : ma_standard_channel_map) (pOut : list ma_channel)
    (channelMapCap channels : Z) : list ma_channel :=
  if (channelMapCap =? 0) || (channels =? 0) then pOut
  else init_standard_loop (Z.to_nat channels) map pOut channelMapCap channels 0.

Definition ma_channel_map_copy (pOut : list ma_channel) (pIn : option (list ma_channel))
    (channels : Z) : list ma_channel :=
  match pIn with
  | Some m => if channels >? 0 then wr pOut 0 (rd m 0 channels) else pOut
  | None => pOut
  end.

Definition ma_channel_map_copy_or_default (pOut : list ma_channel) (channelMapCapOut : Z)
    (pIn : option (list ma_channel)) (channels : Z) : list ma_channel :=
  if channels =? 0 then pOut
  else
    match pIn with
    | Some _ => ma_channel_map_copy pOut pIn channels
    | None => ma_channel_map_init_standard ma_standard_channel_map_default pOut channelMapCapOut channels
    end.

(** ** Queries.  A loop over the channels from [iChannel], [n] of them left. *)

Fixpoint is_valid_loop (n : nat) (m : option (list ma_channel)) (channels iChannel : Z) : bool :=
  match n with
  | O => true
  | S n =>
      if ma_channel_map_get_channel m channels iChannel =? MA_CHANNEL_MONO then false
      else is_valid_loop n m channels (iChannel + 1)
  end.

Definition ma_channel_map_is_valid (m : option (list ma_channel)) (channels : Z) : bool :=
  if channels =? 0 then false
  else if channels >? 1 then is_valid_loop (Z.to_nat channels) m channels 0 else true.

Fixpoint is_equal_loop (n : nat) (a b : option (list ma_channel)) (channels iChannel : Z) : bool :=
  match n with
  | O => true
  | S n =>
      if negb (ma_channel_map_get_channel a channels iChannel
               =? ma_channel_map_get_channel b channels iChannel)
      then false else is_equal_loop n a b channels (iChannel + 1)
  end.

(** [same] is whether the two pointers are equal. *)
Definition ma_channel_map_is_equal (same : bool) (a b : option (list ma_channel)) (channels : Z)
    : bool :=
  if same then true else is_equal_loop (Z.to_nat channels) a b channels 0.

Fixpoint is_blank_loop (n : nat) (m : list ma_channel) (iChannel : Z) : bool :=
  match n with
  | O => true
  | S n =>
      if negb (nth (Z.to_nat iChannel) m MA_CHANNEL_NONE =? MA_CHANNEL_NONE) then false
      else is_blank_loop n m (iChannel + 1)
  end.

Definition ma_channel_map_is_blank (m : option (list ma_channel)) (channels : Z) : bool :=
  match m with None => false | Some m => is_blank_loop (Z.to_nat channels) m 0 end.

Fixpoint find_loop (n : nat) (channels : Z) (m : option (list ma_channel)) (position : ma_channel)
    (iChannel : Z) : bool * Z :=
  match n with
  | O => (false, u32 (-1))
  | S n =>
      if ma_channel_map_get_channel m channels iChannel =? position then (true, iChannel)
      else find_loop n channels m position (iChannel + 1)
  end.

(** Whether the position was found, and [*pChannelIndex]. *)
Definition ma_channel_map_find_channel_position (channels : Z) (m : option (list ma_channel))
    (position : ma_channel) : bool * Z :=
  find_loop (Z.to_nat channels) channels m position 0.

Definition ma_channel_map_contains_channel_position (channels : Z) (m : option (list ma_channel))
    (position : ma_channel) : bool :=
  fst (ma_channel_map_find_channel_position channels m position).

(** ** Text *)

Definition ma_channel_position_to_string (channel : ma_channel) : string :=
  match channel with
  | 0 => "CHANNEL_NONE"
  | 1 => "CHANNEL_MONO"
  | 2 => "CHANNEL_FRONT_LEFT"
  | 3 => "CHANNEL_FRONT_RIGHT"
  | 4 => "CHANNEL_FRONT_CENTER"
  | 5 => "CHANNEL_LFE"
  | 6 => "CHANNEL_BACK_LEFT"
  | 7 => "CHANNEL_BACK_RIGHT"
  | 8 => "CHANNEL_FRONT_LEFT_CENTER"
  | 9 => "CHANNEL_FRONT_RIGHT_CENTER"
  | 10 => "CHANNEL_BACK_CENTER"
  | 11 => "CHANNEL_SIDE_LEFT"
  | 12 => "CHANNEL_SIDE_RIGHT"
  | 13 => "CHANNEL_TOP_CENTER"
  | 14 => "CHANNEL_TOP_FRONT_LEFT"
  | 15 => "CHANNEL_TOP_FRONT_CENTER"
  | 16 => "CHANNEL_TOP_FRONT_RIGHT"
  | 17 => "CHANNEL_TOP_BACK_LEFT"
  | 18 => "CHANNEL_TOP_BACK_CENTER"
  | 19 => "CHANNEL_TOP_BACK_RIGHT"
  | 20 => "CHANNEL_AUX_0"
  | 21 => "CHANNEL_AUX_1"
  | 22 => "CHANNEL_AUX_2"
  | 23 => "CHANNEL_AUX_3"
  | 24 => "CHANNEL_AUX_4"
  | 25 => "CHANNEL_AUX_5"
  | 26 => "CHANNEL_AUX_6"
  | 27 => "CHANNEL_AUX_7"
  | 28 => "CHANNEL_AUX_8"
  | 29 => "CHANNEL_AUX_9"
  | 30 => "CHANNEL_AUX_10"
  | 31 => "CHANNEL_AUX_11"
  | 32 => "CHANNEL_AUX_12"
  | 33 => "CHANNEL_AUX_13"
  | 34 => "CHANNEL_AUX_14"
  | 35 => "CHANNEL_AUX_15"
  | 36 => "CHANNEL_AUX_16"
  | 37 => "CHANNEL_AUX_17"
  | 38 => "CHANNEL_AUX_18"
  | 39 => "CHANNEL_AUX_19"
  | 40 => "CHANNEL_AUX_20"
  | 41 => "CHANNEL_AUX_21"
  | 42 => "CHANNEL_AUX_22"
  | 43 => "CHANNEL_AUX_23"
  | 44 => "CHANNEL_AUX_24"
  | 45 => "CHANNEL_AUX_25"
  | 46 => "CHANNEL_AUX_26"
  | 47 => "CHANNEL_AUX_27"
  | 48 => "CHANNEL_AUX_28"
  | 49 => "CHANNEL_AUX_29"
  | 50 => "CHANNEL_AUX_30"
  | 51 => "CHANNEL_AUX_31"
  | _ => "UNKNOWN"
  end%string.

(** Appends to the buffer if the text fits with room to spare. *)
Definition append_text (buf : option (list ascii)) (bufferCap len : Z) (text : list ascii)
    : option (list ascii) :=
  match buf with
  | Some b => if bufferCap >? len + zlen text then Some (wr b len text) else Some b
  | None => None
  end.

Fixpoint to_string_loop (n : nat) (m : option (list ma_channel)) (channels iChannel : Z)
    (buf : option (list ascii)) (bufferCap len : Z) : option (list ascii) * Z :=
  match n with
  | O => (buf, len)
  | S n =>
      let text :=
        list_ascii_of_string (ma_channel_position_to_string
          (ma_channel_map_get_channel m channels iChannel)) in
      let buf := append_text buf bufferCap len text in
      let len := len + zlen text in
      let '(buf, len) :=
        if iChannel + 1 <? channels
        then (append_text buf bufferCap len [" "%char], len + 1) else (buf, len) in
      to_string_loop n m channels (iChannel + 1) buf bufferCap len
  end.

(** The buffer and the length of the text, which is not cut to the capacity. *)
Definition ma_channel_map_to_string (m : option (list ma_channel)) (channels : Z)
    (buf : option (list ascii)) (bufferCap : Z) : option (list ascii) * Z :=
  let '(buf, len) := to_string_loop (Z.to_nat channels) m channels 0 buf bufferCap 0 in
  (match buf with
   | Some b =>
       if bufferCap >? len then Some (wr b len [zero])
       else if bufferCap >? 0 then Some (wr b (bufferCap - 1) [zero]) else Some b
   | None => None
   end, len).

#[export] Instance ma_standard_channel_map_eq_dec : EqDecision ma_standard_channel_map.
Proof. solve_decision. Defined.

(** ** The tables *)

Definition standard_maps : list ma_standard_channel_map :=
  [ma_standard_channel_map_microsoft; ma_standard_channel_map_alsa;
   ma_standard_channel_map_rfc3551; ma_standard_channel_map_flac;
   ma_standard_channel_map_vorbis; ma_standard_channel_map_sound4;
   ma_standard_channel_map_sndio].

Lemma standard_maps_all m : In m standard_maps.
Proof. destruct m; simpl; tauto. Qed.

(** From nine channels on, an entry does not depend on the channel count. *)
Lemma standard_channel_large m count i :
  9 <= count -> 0 <= i < count -> i < 40 ->
  ma_channel_map_init_standard_channel m count i = ma_channel_map_init_standard_channel m 40 i.
Proof.
  intros Hc Hi Hi40.
  assert (Hx : forall n, n <= 8 -> aux_channel n count i = aux_channel n 40 i).
  { intros n Hn. unfold aux_channel. rewrite !Z.gtb_ltb, !(proj2 (Z.ltb_lt n _)) by lia. done. }
  assert (Hg : ((count =? 0) || (i >=? count)) = ((40 =? 0) || (i >=? 40))).
  { rewrite !Z.geb_leb, !(proj2 (Z.leb_gt _ i)), (proj2 (Z.eqb_neq count 0)) by lia. done. }
  unfold ma_channel_map_init_standard_channel. rewrite Hg.
  destruct ((40 =? 0) || (i >=? 40)) eqn:E40; [reflexivity|].
  destruct m; unfold ma_channel_map_init_standard_channel_microsoft,
    ma_channel_map_init_standard_channel_alsa, ma_channel_map_init_standard_channel_rfc3551,
    ma_channel_map_init_standard_channel_flac, ma_channel_map_init_standard_channel_vorbis,
    ma_channel_map_init_standard_channel_sound4, ma_channel_map_init_standard_channel_sndio;
    rewrite ?Hg, ?E40, !Hx by lia; destruct count as [|p|p]; try lia;
    do 4 (try (destruct p as [p|p|]; try lia)); reflexivity.
Qed.

Lemma standard_channel_aux_end m count i :
  9 <= count -> 32 <= i < count -> ma_channel_map_init_standard_channel m count i = MA_CHANNEL_NONE.
Proof.
  intros Hc Hi.
  assert (Hx : forall n, aux_channel n count i = MA_CHANNEL_NONE).
  { intros n. unfold aux_channel. rewrite (proj2 (Z.ltb_ge i 32)) by lia. by case_match. }
  assert (Hp : forall t, zlen t <= 8 -> pick i MA_CHANNEL_NONE t = MA_CHANNEL_NONE).
  { intros t Ht. unfold pick. rewrite (proj2 (Z.ltb_ge i (zlen t))), andb_false_r by lia. done. }
  unfold ma_channel_map_init_standard_channel. case_match; [done|].
  destruct m; unfold ma_channel_map_init_standard_channel_microsoft,
    ma_channel_map_init_standard_channel_alsa, ma_channel_map_init_standard_channel_rfc3551,
    ma_channel_map_init_standard_channel_flac, ma_channel_map_init_standard_channel_vorbis,
    ma_channel_map_init_standard_channel_sound4, ma_channel_map_init_standard_channel_sndio;
    rewrite !Hx; try (case_match; [done|]);
    repeat (case_match; try lia); (apply Hp; by compute).
Qed.

(** What the tables satisfy, checked for every count below nine and for the large
    counts at once. *)
Definition entry_ok (m : ma_standard_channel_map) (count i : Z) : bool :=
  let c := ma_channel_map_init_standard_channel m count i in
  (0 <? c) && (c <? MA_CHANNEL_POSITION_COUNT)
  && ((count =? 1) || negb (c =? MA_CHANNEL_MONO))
  && forallb (fun j => (j =? i) || negb (ma_channel_map_init_standard_channel m count j =? c))
       (seqZ 0 (Z.min count 32)).

Lemma entries_checked m count i :
  1 <= count -> 0 <= i < Z.min count 32 -> entry_ok m (if count <? 9 then count else 40) i = true.
Proof.
  intros Hc Hi.
  assert (E : forallb (fun m => forallb (fun c => forallb (entry_ok m c) (seqZ 0 (Z.min c 32)))
    [1; 2; 3; 4; 5; 6; 7; 8; 40]) standard_maps = true) by (vm_compute; reflexivity).
  rewrite forallb_forall in E. specialize (E m (standard_maps_all m)).
  rewrite forallb_forall in E.
  assert (Hin : In (if count <? 9 then count else 40) [1; 2; 3; 4; 5; 6; 7; 8; 40]).
  { destruct (Z.ltb_spec count 9); [|simpl; tauto]. simpl. lia. }
  specialize (E _ Hin). rewrite forallb_forall in E. apply E, list_elem_of_In, elem_of_seqZ.
  destruct (Z.ltb_spec count 9); lia.
Qed.

Lemma standard_entry m count i :
  1 <= count -> 0 <= i < Z.min count 32 ->
  ma_channel_map_init_standard_channel m count i
  = ma_channel_map_init_standard_channel m (if count <? 9 then count else 40) i.
Proof.
  intros Hc Hi. destruct (Z.ltb_spec count 9); [done|]. apply standard_channel_large; lia.
Qed.

Lemma standard_none m count i :
  1 <= count -> 32 <= i < count -> ma_channel_map_init_standard_channel m count i = MA_CHANNEL_NONE.
Proof. intros. apply standard_channel_aux_end; lia. Qed.

Lemma standard_positions m count i :
  1 <= count -> 0 <= i < Z.min count 32 ->
  let c := ma_channel_map_init_standard_channel m count i in
  0 < c < MA_CHANNEL_POSITION_COUNT /\ (count <> 1 -> c <> MA_CHANNEL_MONO)
  /\ forall j, 0 <= j < count -> j <> i -> ma_channel_map_init_standard_channel m count j <> c.
Proof.
  intros Hc Hi c. subst c. pose proof (entries_checked m count i Hc Hi) as H.
  unfold entry_ok in H. rewrite <- standard_entry in H by done.
  set (c := ma_channel_map_init_standard_channel m count i) in *.
  rewrite !andb_true_iff in H. destruct H as [[[H1%Z.ltb_lt H2%Z.ltb_lt] H3] H4].
  split; [done|]. split.
  - intros Hne Hm. rewrite Hm in H3. destruct (Z.ltb_spec count 9).
    + rewrite (proj2 (Z.eqb_neq count 1)) in H3 by done. done.
    + done.
  - intros j Hj Hne. destruct (Z.lt_ge_cases j 32) as [Hj32|Hj32].
    + rewrite forallb_forall in H4. specialize (H4 j).
      assert (Hin : In j (seqZ 0 (Z.min (if count <? 9 then count else 40) 32))).
      { apply list_elem_of_In, elem_of_seqZ. destruct (Z.ltb_spec count 9); lia. }
      specialize (H4 Hin). rewrite (proj2 (Z.eqb_neq j i)) in H4 by done.
      rewrite standard_entry by (done || lia). cbn [orb] in H4.
      by apply negb_true_iff, Z.eqb_neq in H4.
    + rewrite standard_none by lia. unfold MA_CHANNEL_NONE. lia.
Qed.

(** The standard channel maps are injective: for each of the seven maps and every
    channel count, the first 32 channels have positions of the enumeration that
    differ from each other and from every later channel, none is MONO unless it is
    the only channel, and the channels from 32 on have no position. *)
Theorem standard_map_injective m count i :
  1 <= count -> 0 <= i < count ->
  let c := ma_channel_map_init_standard_channel m count i in
  (i < 32 -> 0 < c < MA_CHANNEL_POSITION_COUNT /\ (count <> 1 -> c <> MA_CHANNEL_MONO)
     /\ forall j, 0 <= j < count -> j <> i -> ma_channel_map_init_standard_channel m count j <> c)
  /\ (32 <= i -> c = MA_CHANNEL_NONE).
Proof.
  intros Hc Hi c. split; intros H; [apply standard_positions|apply standard_none]; lia.
Qed.

(** Channel 40 of 64: the comment in the source counts 32 auxiliary channels, and
    the last 8 of them are unreachable. *)
Lemma standard_map_injective_witness :
  ma_channel_map_init_standard_channel ma_standard_channel_map_microsoft 64 40 = MA_CHANNEL_NONE.
Proof.
  refine (proj2 (standard_map_injective ma_standard_channel_map_microsoft 64 40 _ _) _); vm_decide.
Defined.

(** ** Searching a map *)

Lemma find_loop_spec n channels m position i :
  let '(found, k) := find_loop n channels m position i in
  if found then i <= k < i + Z.of_nat n
    /\ ma_channel_map_get_channel m channels k = position
    /\ forall j, i <= j < k -> ma_channel_map_get_channel m channels j <> position
  else k = u32 (-1)
    /\ forall j, i <= j < i + Z.of_nat n -> ma_channel_map_get_channel m channels j <> position.
Proof.
  revert i. induction n as [|n IH]; intros i; cbn [find_loop].
  { split; [done|lia]. }
  destruct (Z.eqb_spec (ma_channel_map_get_channel m channels i) position) as [E|E].
  { split_and!; [lia..|done|lia]. }
  specialize (IH (i + 1)). destruct (find_loop n channels m position (i + 1)) as [[] k].
  - destruct IH as (Hk & Hp & Hlt). split_and!; [lia..|done|].
    intros j Hj. destruct (Z.eq_dec j i) as [->|]; [done|]. apply Hlt. lia.
  - destruct IH as (Hk & Hn). split; [done|].
    intros j Hj. destruct (Z.eq_dec j i) as [->|]; [done|]. apply Hn. lia.
Qed.

(** [ma_channel_map_find_channel_position] returns the first channel at the
    position, or 0xFFFFFFFF when there is none; in the default map it therefore finds
    every one of the first 32 channels by its position. *)
Theorem find_channel_position_correct channels m position :
  0 <= channels ->
  let '(found, k) := ma_channel_map_find_channel_position channels m position in
  (if found then 0 <= k < channels /\ ma_channel_map_get_channel m channels k = position
     /\ forall j, 0 <= j < k -> ma_channel_map_get_channel m channels j <> position
   else k = 0xFFFFFFFF
     /\ forall j, 0 <= j < channels -> ma_channel_map_get_channel m channels j <> position)
  /\ forall i, m = None -> 0 <= i < Z.min channels 32 ->
     ma_channel_map_get_channel m channels i = position -> found = true /\ k = i.
Proof.
  intros Hc. unfold ma_channel_map_find_channel_position.
  pose proof (find_loop_spec (Z.to_nat channels) channels m position 0) as H.
  rewrite Z.add_0_l, Z2Nat.id in H by lia.
  destruct (find_loop _ _ _ _ _) as [found k]. split; [done|].
  intros i -> Hi Hp. destruct found.
  - destruct H as (Hk & Hpk & _). split; [done|].
    destruct (Z.eq_dec k i) as [|Hne]; [done|]. exfalso.
    destruct (standard_positions ma_standard_channel_map_default channels i) as (_ & _ & Hd); [lia..|].
    apply (Hd k); [lia|done|]. cbn [ma_channel_map_get_channel] in *. congruence.
  - destruct H as [_ H]. exfalso. apply (H i); [lia|done].
Qed.

Lemma find_channel_position_correct_witness :
  ma_channel_map_find_channel_position 6 None MA_CHANNEL_LFE = (true, 3).
Proof.
  pose proof (find_channel_position_correct 6 None MA_CHANNEL_LFE ltac:(vm_decide)) as H.
  destruct (ma_channel_map_find_channel_position 6 None MA_CHANNEL_LFE) as [f k].
  destruct H as [_ H]. destruct (H 3 eq_refl ltac:(vm_decide) eq_refl) as [-> ->]. reflexivity.
Defined.

(** ** Text of a map *)

Definition channel_text (m : option (list ma_channel)) (channels i : Z) : list ascii :=
  list_ascii_of_string (ma_channel_position_to_string (ma_channel_map_get_channel m channels i)).

(** The names of the channels from [i] on, separated by spaces. *)
Fixpoint map_text (n : nat) (m : option (list ma_channel)) (channels i : Z) : list ascii :=
  match n with
  | O => []
  | S n =>
      channel_text m channels i ++ (if i + 1 <? channels then [" "%char] else [])
      ++ map_text n m channels (i + 1)
  end.

Lemma to_string_loop_len n m channels i buf cap len :
  snd (to_string_loop n m channels i buf cap len) = len + zlen (map_text n m channels i).
Proof.
  revert i buf len. induction n as [|n IH]; intros i buf len; cbn [to_string_loop map_text].
  { simpl. change (zlen []) with 0. lia. }
  rewrite !zlen_app. fold (channel_text m channels i).
  destruct (i + 1 <? channels); rewrite IH; [change (zlen [" "%char]) with 1|change (zlen []) with 0];
    lia.
Qed.

Lemma append_fits b cap len text (pre rest : list ascii) :
  b = pre ++ rest -> zlen pre = len -> len + zlen text < cap -> zlen b = cap ->
  append_text (Some b) cap len text
  = Some ((pre ++ text) ++ drop (length text) rest).
Proof.
  intros -> Hp Hl Hb. unfold append_text. rewrite Z.gtb_ltb, (proj2 (Z.ltb_lt _ _)) by lia.
  f_equal. unfold wr. rewrite <- Hp. unfold zlen. rewrite Nat2Z.id, take_app_length.
  rewrite <- app_assoc. do 2 f_equal. rewrite skipn_app, drop_ge by lia. simpl. f_equal. lia.
Qed.

Lemma to_string_loop_fits n m channels i pre rest cap :
  zlen (pre ++ rest) = cap -> zlen pre + zlen (map_text n m channels i) < cap ->
  fst (to_string_loop n m channels i (Some (pre ++ rest)) cap (zlen pre))
  = Some ((pre ++ map_text n m channels i) ++ drop (length (map_text n m channels i)) rest).
Proof.
  revert i pre rest. induction n as [|n IH]; intros i pre rest Hcap Hfit; cbn [to_string_loop map_text].
  { simpl. by rewrite app_nil_r. }
  cbn [map_text] in Hfit. rewrite !zlen_app in Hfit, Hcap. fold (channel_text m channels i).
  set (t := channel_text m channels i) in *. set (u := map_text n m channels (i + 1)) in *.
  pose proof (zlen_nonneg u). pose proof (zlen_nonneg t). pose proof (zlen_nonneg pre).
  rewrite (append_fits (pre ++ rest) cap (zlen pre) t pre rest) by
    (done || (destruct (i + 1 <? channels); zl)).
  destruct (i + 1 <? channels) eqn:Esp.
  - rewrite !zlen_app in Hfit. change (zlen [" "%char]) with 1 in Hfit.
    rewrite (append_fits _ cap (zlen pre + zlen t) [" "%char] (pre ++ t) (drop (length t) rest)) by
      (try done; rewrite ?zlen_app; unfold zlen in *; rewrite ?length_drop; cbn [length] in *; lia).
    replace (zlen pre + zlen t + 1) with (zlen ((pre ++ t) ++ [" "%char]))
      by (rewrite !zlen_app; done).
    rewrite IH.
    + fold u. f_equal. rewrite <- !app_assoc. do 3 f_equal. cbn [app].
      rewrite !drop_drop. f_equal. f_equal. rewrite !length_app. cbn [length]. lia.
    + rewrite !zlen_app. change (zlen [" "%char]) with 1. unfold zlen in *.
      rewrite !length_drop. cbn [length]. lia.
    + rewrite !zlen_app. change (zlen [" "%char]) with 1. fold u. lia.
  - cbn [app] in Hfit.
    replace (zlen pre + zlen t) with (zlen (pre ++ t)) by (by rewrite zlen_app).
    rewrite IH.
    + fold u. f_equal. rewrite <- !app_assoc. cbn [app]. do 3 f_equal.
      rewrite drop_drop, length_app. done.
    + rewrite !zlen_app. unfold zlen in *. rewrite !length_drop. lia.
    + rewrite !zlen_app. fold u. lia.
Qed.

(** [ma_channel_map_to_string] returns the length of the space-separated names
    whatever the buffer; a buffer with room for them and the terminator receives
    exactly that text, terminated, and is not changed beyond it. *)
Theorem channel_map_to_string_correct m channels b cap :
  0 <= channels -> zlen b = cap ->
  let text := map_text (Z.to_nat channels) m channels 0 in
  snd (ma_channel_map_to_string m channels (Some b) cap) = zlen text
  /\ (zlen text < cap ->
      fst (ma_channel_map_to_string m channels (Some b) cap) = Some (wr b 0 (text ++ [zero]))).
Proof.
  intros Hc Hb text. unfold ma_channel_map_to_string.
  pose proof (to_string_loop_len (Z.to_nat channels) m channels 0 (Some b) cap 0) as Hlen.
  pose proof (to_string_loop_fits (Z.to_nat channels) m channels 0 [] b cap Hb) as Hfit.
  change (zlen []) with 0 in Hfit. fold text in Hlen, Hfit. simpl app in Hfit.
  destruct (to_string_loop _ _ _ _ _ _ _) as [buf len]. cbn [fst snd] in *.
  split; [destruct buf; simpl; lia|]. intros Hlt.
  rewrite Hfit by lia. rewrite Z.gtb_ltb, (proj2 (Z.ltb_lt len cap)) by lia. cbn [fst]. f_equal.
  unfold wr. rewrite Hlen, Z.add_0_l. unfold zlen. rewrite Nat2Z.id, take_app_length.
  simpl. rewrite <- app_assoc. do 2 f_equal. rewrite skipn_app, drop_ge by lia. simpl.
  rewrite drop_drop, length_app. f_equal. simpl. lia.
Qed.

Lemma channel_map_to_string_correct_witness :
  snd (ma_channel_map_to_string (Some [1]) 1 (Some (replicate 20 zero)) 20) = 12
  /\ fst (ma_channel_map_to_string (Some [1]) 1 (Some (replicate 20 zero)) 20)
     = Some (list_ascii_of_string "CHANNEL_MONO" ++ replicate 8 zero).
Proof.
  destruct (channel_map_to_string_correct (Some [1]) 1 (replicate 20 zero) 20) as [H1 H2];
    [vm_decide|reflexivity|].
  split; [exact H1|]. rewrite H2; reflexivity.
Defined.
