(* ===== verification/DeviceData.v ===== *)
(** * Data delivery of a device (miniaudio.h)

    [ma_device__on_data] and its callers: the intermediary buffers that turn a
    backend's requests of any size into client callbacks of a fixed size, the master
    volume and the clipping.  The client's callback is a function [onData] on a client
    state: it receives the output buffer and the input buffer (each NULL or the bytes
    behind the pointer) and returns the output buffer as it leaves it.  Floating-point
    environment changes ([ma_device_disable_denormals]) are not modelled. *)
From Stdlib Require Import ZArith Lia Bool SpecFloat.
From stdpp Require Import base numbers list option.
From S2P Require Import Prelude MaTypes CFloat PcmRing PcmFormat.

Local Open Scope Z_scope.

Inductive ma_device_type :=
| ma_device_type_playback
| ma_device_type_capture
| ma_device_type_duplex
| ma_device_type_loopback.

#[export] Instance ma_device_type_eq_dec : EqDecision ma_device_type.
Proof. solve_decision. Defined.

Inductive ma_device_state :=
| ma_device_state_uninitialized
| ma_device_state_stopped
| ma_device_state_started
| ma_device_state_starting
| ma_device_state_stopping.

#[export] Instance ma_device_state_eq_dec : EqDecision ma_device_state.
Proof. solve_decision. Defined.

Definition MA_DATA_CONVERTER_STACK_BUFFER_SIZE : Z := 4096.

(** The client format and the intermediary buffer of one direction. *)
Record device_side := mk_side {
  side_format : ma_format;
  side_channels : Z;
  pIntermediaryBuffer : list Z;
  intermediaryBufferCap : Z;
  intermediaryBufferLen : Z }.

Definition with_ib (sd : device_side) (buf : list Z) (len : Z) : device_side :=
  mk_side (side_format sd) (side_channels sd) buf (intermediaryBufferCap sd) len.

Record ma_device {S : Type} := mk_ma_device {
  dev_type : ma_device_type;
  dev_state : ma_device_state;
  noPreSilencedOutputBuffer : bool;
  noClip : bool;
  noFixedSizedCallback : bool;
  masterVolumeFactor : spec_float;
  dev_capture : device_side;
  dev_playback : device_side;
  dev_client : S }.
Arguments ma_device : clear implicits.

(** The type of [pDevice->onData]; [None] is undefined behaviour in the client. *)
Definition ma_device_data_proc (S : Type) : Type :=
  S -> option (list Z) -> option (list Z) -> Z -> option (option (list Z) * S).

Section operations.
Context {S : Type}.
Implicit Types d : ma_device S.

Definition with_capture d (c : device_side) : ma_device S :=
  mk_ma_device S (dev_type d) (dev_state d) (noPreSilencedOutputBuffer d) (noClip d)
    (noFixedSizedCallback d) (masterVolumeFactor d) c (dev_playback d) (dev_client d).
Definition with_playback d (p : device_side) : ma_device S :=
  mk_ma_device S (dev_type d) (dev_state d) (noPreSilencedOutputBuffer d) (noClip d)
    (noFixedSizedCallback d) (masterVolumeFactor d) (dev_capture d) p (dev_client d).
Definition with_client d (s : S) : ma_device S :=
  mk_ma_device S (dev_type d) (dev_state d) (noPreSilencedOutputBuffer d) (noClip d)
    (noFixedSizedCallback d) (masterVolumeFactor d) (dev_capture d) (dev_playback d) s.

Definition ma_device__on_data_inner (onData : ma_device_data_proc S) d
    (pFramesOut pFramesIn : option (list Z)) (frameCount : Z)
    : option (option (list Z) * ma_device S) :=
  let out :=
    match pFramesOut with
    | Some o =>
        Some (if noPreSilencedOutputBuffer d then o
              else ma_silence_pcm_frames o 0 frameCount (side_format (dev_playback d))
                     (side_channels (dev_playback d)))
    | None => None
    end in
  match onData (dev_client d) out pFramesIn frameCount with
  | None => None
  | Some (out, s) => Some (out, with_client d s)
  end.

(** ** Fixed-size callbacks *)

(** Capturing: fill the intermediary buffer, and deliver it when it is full. Returns
    [framesToProcessThisIteration]. *)
Definition capture_store (c : device_side) (src : list Z) (total remaining : Z)
    : Z * device_side :=
  if intermediaryBufferLen c <? intermediaryBufferCap c then
    let room := u32 (intermediaryBufferCap c - intermediaryBufferLen c) in
    let n := if remaining >? room then room else remaining in
    (n, with_ib c
          (ma_copy_pcm_frames (pIntermediaryBuffer c)
             (ma_offset_pcm_frames_ptr 0 (intermediaryBufferLen c) (side_format c) (side_channels c))
             src (ma_offset_pcm_frames_ptr 0 total (side_format c) (side_channels c))
             n (side_format c) (side_channels c))
          (u32 (intermediaryBufferLen c + n)))
  else (0, c).

Definition on_data_capture (onData : ma_device_data_proc S) d (src : list Z)
    (total remaining : Z) : option (Z * ma_device S) :=
  let '(n, c) := capture_store (dev_capture d) src total remaining in
  let d := with_capture d c in
  if intermediaryBufferLen c =? intermediaryBufferCap c then
    if decide (dev_type d = ma_device_type_duplex) then Some (n, d)
    else
      match ma_device__on_data_inner onData d None (Some (pIntermediaryBuffer c))
              (intermediaryBufferCap c) with
      | None => None
      | Some (_, d) => Some (n, with_capture d (with_ib c (pIntermediaryBuffer c) 0))
      end
  else Some (n, d).

(** Playing: take from the intermediary buffer, and have it filled when it is empty.
    [n] is what the capture side processed. *)
Definition playback_fetch (duplex : bool) (p : device_side) (out : list Z)
    (total remaining n : Z) : Z * list Z * device_side :=
  if intermediaryBufferLen p >? 0 then
    let n :=
      if duplex then n
      else if remaining >? intermediaryBufferLen p then intermediaryBufferLen p else remaining in
    (n,
     ma_copy_pcm_frames out
       (ma_offset_pcm_frames_ptr 0 total (side_format p) (side_channels p))
       (pIntermediaryBuffer p)
       (ma_offset_pcm_frames_ptr 0 (u32 (intermediaryBufferCap p - intermediaryBufferLen p))
          (side_format p) (side_channels p))
       n (side_format p) (side_channels p),
     with_ib p (pIntermediaryBuffer p) (u32 (intermediaryBufferLen p - n)))
  else (n, out, p).

Definition on_data_playback (onData : ma_device_data_proc S) d (out : list Z)
    (total remaining n : Z) : option (Z * list Z * ma_device S) :=
  let '(n, out, p) :=
    playback_fetch (bool_decide (dev_type d = ma_device_type_duplex)) (dev_playback d)
      out total remaining n in
  let d := with_playback d p in
  if intermediaryBufferLen p =? 0 then
    if decide (dev_type d = ma_device_type_duplex) then Some (n, out, d)
    else
      match ma_device__on_data_inner onData d (Some (pIntermediaryBuffer p)) None
              (intermediaryBufferCap p) with
      | None => None
      | Some (buf, d) =>
          Some (n, out, with_playback d
                          (with_ib p (default (pIntermediaryBuffer p) buf) (intermediaryBufferCap p)))
      end
  else Some (n, out, d).

(** The refill of a duplex device. *)
Definition on_data_duplex (onData : ma_device_data_proc S) d : option (ma_device S) :=
  let c := dev_capture d in
  let p := dev_playback d in
  if decide (dev_type d = ma_device_type_duplex) then
    if intermediaryBufferLen c =? intermediaryBufferCap c then
      match ma_device__on_data_inner onData d (Some (pIntermediaryBuffer p))
              (Some (pIntermediaryBuffer c)) (intermediaryBufferCap c) with
      | None => None
      | Some (buf, d) =>
          Some (with_capture
                  (with_playback d
                     (with_ib p (default (pIntermediaryBuffer p) buf) (intermediaryBufferCap p)))
                  (with_ib c (pIntermediaryBuffer c) 0))
      end
    else Some d
  else Some d.

Fixpoint on_data_loop (fuel : nat) (onData : ma_device_data_proc S) d
    (pFramesOut pFramesIn : option (list Z)) (total frameCount : Z)
    : option (option (list Z) * ma_device S) :=
  if total <? frameCount then
    match fuel with
    | O => None
    | Datatypes.S fuel =>
        let remaining := u32 (frameCount - total) in
        match
          match pFramesIn with
          | Some src => on_data_capture onData d src total remaining
          | None => Some (0, d)
          end
        with
        | None => None
        | Some (n, d) =>
            match
              match pFramesOut with
              | Some out =>
                  match on_data_playback onData d out total remaining n with
                  | None => None
                  | Some (n, out, d) => Some (n, Some out, d)
                  end
              | None => Some (n, None, d)
              end
            with
            | None => None
            | Some (n, out, d) =>
                match on_data_duplex onData d with
                | None => None
                | Some d => on_data_loop fuel onData d out pFramesIn (u32 (total + n)) frameCount
                end
            end
        end
    end
  else Some (pFramesOut, d).

(** Every pass but the first processes a frame. *)
Definition ma_device__on_data (onData : ma_device_data_proc S) d
    (pFramesOut pFramesIn : option (list Z)) (frameCount : Z)
    : option (option (list Z) * ma_device S) :=
  if decide (dev_state d = ma_device_state_stopping) then Some (pFramesOut, d)
  else if noFixedSizedCallback d then
    ma_device__on_data_inner onData d pFramesOut pFramesIn frameCount
  else on_data_loop (2 + Z.to_nat frameCount) onData d pFramesOut pFramesIn 0 frameCount.

(** ** Volume and clipping *)

Definition side_bpf (sd : device_side) : Z :=
  ma_get_bytes_per_frame (side_format sd) (side_channels sd).

(** [ma_offset_ptr] on a nullable buffer; an offset from NULL is undefined. *)
Definition ma_offset_ptr (p : option (list Z)) (off : Z) : option (option (list Z)) :=
  match p with
  | Some m => Some (Some (drop (Z.to_nat off) m))
  | None => if off =? 0 then Some None else None
  end.

Fixpoint volume_loop (fuel : nat) (onData : ma_device_data_proc S) d
    (pFramesOut : option (list Z)) (src : list Z) (total frameCount : Z) (volume : spec_float)
    : option (option (list Z) * ma_device S) :=
  if total <? frameCount then
    match fuel with
    | O => None
    | Datatypes.S fuel =>
        let c := dev_capture d in
        let n := u32 (frameCount - total) in
        let max := MA_DATA_CONVERTER_STACK_BUFFER_SIZE / side_bpf c in
        let n := if n >? max then u32 max else n in
        let off := u32 (total * side_bpf (dev_playback d)) in
        match ma_copy_and_apply_volume_factor_pcm_frames (side_format c)
                (drop (Z.to_nat (u32 (total * side_bpf c))) src) n (side_channels c) volume,
              ma_offset_ptr pFramesOut off with
        | Some temp, Some out =>
            match ma_device__on_data onData d out (Some temp) n with
            | None => None
            | Some (out, d) =>
                let out :=
                  match pFramesOut, out with
                  | Some m, Some o => Some (wr m off o)
                  | _, _ => None
                  end in
                volume_loop fuel onData d out src (u32 (total + n)) frameCount volume
            end
        | _, _ => None
        end
    end
  else Some (pFramesOut, d).

(** [ma_clip_samples_f32] in place. *)
Definition clip_in_place (out : list Z) (count : Z) : list Z :=
  wr out 0 (concat (map bytes_f32
    (ma_clip_samples_f32 (map sample_f32 (split_samples 4 (Z.to_nat count) out))))).

(** [ma_apply_volume_factor_pcm_frames] *)
Definition ma_apply_volume_factor_pcm_frames (out : list Z) (frameCount : Z) (format : ma_format)
    (channels : Z) (factor : spec_float) : option (list Z) :=
  match ma_copy_and_apply_volume_factor_pcm_frames format out frameCount channels factor with
  | None => None
  | Some o => Some (wr out 0 o)
  end.

Definition handle_output d (out : list Z) (input_set : bool) (frameCount : Z) (volume : spec_float)
    : option (list Z) :=
  let p := dev_playback d in
  let out :=
    if negb (SFeqb volume f32_one) && negb input_set
    then ma_apply_volume_factor_pcm_frames out frameCount (side_format p) (side_channels p) volume
    else Some out in
  match out with
  | None => None
  | Some out =>
      Some (if negb (noClip d) && bool_decide (side_format p = ma_format_f32)
            then clip_in_place out (u32 (frameCount * side_channels p)) else out)
  end.

(** [onData] is the callback, or [None] for NULL. *)
Definition ma_device__handle_data_callback (onData : option (ma_device_data_proc S)) d
    (pFramesOut pFramesIn : option (list Z)) (frameCount : Z)
    : option (option (list Z) * ma_device S) :=
  let volume := masterVolumeFactor d in
  match onData with
  | Some onData =>
      match
        match pFramesIn with
        | Some src =>
            if negb (SFeqb volume f32_one)
            then volume_loop (1 + Z.to_nat frameCount) onData d pFramesOut src 0 frameCount volume
            else ma_device__on_data onData d pFramesOut pFramesIn frameCount
        | None => ma_device__on_data onData d pFramesOut pFramesIn frameCount
        end
      with
      | None => None
      | Some (None, d) => Some (None, d)
      | Some (Some out, d) =>
          match handle_output d out (bool_decide (is_Some pFramesIn)) frameCount volume with
          | None => None
          | Some out => Some (Some out, d)
          end
      end
  | None =>
      let p := dev_playback d in
      Some (match pFramesOut with
            | Some o => Some (ma_silence_pcm_frames o 0 frameCount (side_format p) (side_channels p))
            | None => None
            end, d)
  end.

End operations.
