(* ===== verification/DeviceDataProps.v ===== *)
(** * What fixed-size callbacks guarantee (miniaudio.h)

    Whatever frame counts a backend asks for, the client is called with whole periods
    only, and the samples that pass through are those of the client's stream, in
    order: one theorem for playback, one for capture and one for duplex devices. *)
From Stdlib Require Import ZArith Lia Bool SpecFloat.
From stdpp Require Import base numbers list option.
From S2P Require Import Prelude MaTypes CFloat PcmRing PcmFormat DeviceData.

Local Open Scope Z_scope.

(** One direction of a device: a period is [cap] frames of [b] bytes. *)
Record side_ok (b cap : Z) (sd : device_side) : Prop := {
  so_channels : 0 <= side_channels sd;
  so_bytes : ma_get_bytes_per_sample (side_format sd) * side_channels sd = b;
  so_bpf : 0 < b;
  so_cap : intermediaryBufferCap sd = cap;
  so_cap_pos : 0 < cap;
  so_size : cap * b < 2 ^ 32;
  so_buf : zlen (pIntermediaryBuffer sd) = cap * b;
  so_len : 0 <= intermediaryBufferLen sd <= cap }.

Definition cap_left (b : Z) (sd : device_side) : list Z :=
  take (Z.to_nat (intermediaryBufferLen sd * b)) (pIntermediaryBuffer sd).

Definition play_left (b : Z) (sd : device_side) : list Z :=
  drop (Z.to_nat ((intermediaryBufferCap sd - intermediaryBufferLen sd) * b))
    (pIntermediaryBuffer sd).

Lemma side_ok_bpf b cap sd :
  side_ok b cap sd -> ma_get_bytes_per_frame (side_format sd) (side_channels sd) = b.
Proof.
  intros [? Hb ? ? ? ? _ _]. unfold ma_get_bytes_per_frame. rewrite Hb.
  apply wrapu_id. unfold in_u. nia.
Qed.

Lemma side_offset b cap sd n :
  side_ok b cap sd -> 0 <= n < 2 ^ 32 ->
  ma_offset_pcm_frames_ptr 0 n (side_format sd) (side_channels sd) = n * b.
Proof.
  intros H Hn. unfold ma_offset_pcm_frames_ptr. rewrite (side_ok_bpf _ _ _ H).
  destruct H. apply wrapu_id. unfold in_u. split; [nia|].
  apply Z.lt_le_trans with (2 ^ 32 * 2 ^ 32); [|done].
  apply Z.mul_lt_mono_nonneg; nia.
Qed.

Lemma side_copy b cap sd dst dstOff src srcOff n :
  side_ok b cap sd -> 0 <= n <= cap ->
  ma_copy_pcm_frames dst dstOff src srcOff n (side_format sd) (side_channels sd)
  = wr dst dstOff (rd src srcOff (n * b)).
Proof.
  intros H Hn. unfold ma_copy_pcm_frames. rewrite (side_ok_bpf _ _ _ H).
  destruct H. do 2 f_equal. apply wrapu_id. unfold in_u. nia.
Qed.

(** The buffer a playback callback receives. *)
Definition silent_period (b : Z) (sd : device_side) : list Z :=
  zrep (intermediaryBufferCap sd * b) (silence_byte (side_format sd)).

Lemma side_silence b cap sd :
  side_ok b cap sd ->
  ma_silence_pcm_frames (pIntermediaryBuffer sd) 0 cap (side_format sd) (side_channels sd)
  = silent_period b sd.
Proof.
  intros H. pose proof (side_ok_bpf _ _ _ H) as Hb. destruct H.
  rewrite ma_silence_pcm_frames_eq by (rewrite ?Hb; (lia || nia)). rewrite Hb.
  unfold silent_period. rewrite so_cap0. apply wr_full. rewrite zlen_zrep; nia.
Qed.

(** A pass that writes [n] frames of what is left, followed by the remaining passes. *)
Lemma stream_out (b total frames n : Z) (out out' left tail new1 new2 : list Z) :
  0 < b -> 0 <= total -> 0 <= n -> total + n <= frames -> frames * b <= zlen out ->
  n * b <= zlen left ->
  take (Z.to_nat ((total + n) * b)) out'
  = take (Z.to_nat ((total + n) * b)) (wr out (total * b) (take (Z.to_nat (n * b)) left)) ->
  rd out' ((total + n) * b) ((frames - (total + n)) * b) ++ tail
  = (drop (Z.to_nat (n * b)) left ++ new1) ++ new2 ->
  rd out' (total * b) ((frames - total) * b) ++ tail = left ++ new1 ++ new2
  /\ take (Z.to_nat (total * b)) out' = take (Z.to_nat (total * b)) out.
Proof.
  intros Hb Ht Hn Hf Hz Hzl T L.
  assert (Hzt : zlen (take (Z.to_nat (n * b)) left) = n * b) by (rewrite zlen_take; nia).
  assert (Hlen : length (take (Z.to_nat (total * b)) out) = Z.to_nat (total * b)).
  { rewrite length_take. unfold zlen in Hz. nia. }
  replace ((total + n) * b) with (total * b + n * b) in * by lia.
  assert (Ew : forall X, zlen X = n * b -> take (Z.to_nat (total * b + n * b)) (wr out (total * b) X)
                 = take (Z.to_nat (total * b)) out ++ X) by (intros X <-; apply take_wr; nia).
  rewrite Ew in T by done.
  split.
  - replace ((frames - total) * b) with (n * b + (frames - (total + n)) * b) by lia.
    rewrite rd_split, <- app_assoc, L, !app_assoc by nia. do 2 f_equal.
    etrans; [|apply (take_drop (Z.to_nat (n * b)))]. f_equal.
    assert (Er : rd out' (total * b) (n * b)
                 = drop (Z.to_nat (total * b)) (take (Z.to_nat (total * b + n * b)) out')).
    { unfold rd. rewrite skipn_firstn_comm. f_equal. nia. }
    rewrite Er, T. by apply drop_app_length'.
  - assert (Et : take (Z.to_nat (total * b)) out'
                 = take (Z.to_nat (total * b)) (take (Z.to_nat (total * b + n * b)) out')).
    { rewrite take_take. f_equal. nia. }
    rewrite Et, T. by apply take_app_length'.
Qed.

Section streams.
Context {S : Type} (onData : ma_device_data_proc S) (I : S -> Prop).
Implicit Types d : ma_device S.

(** The device calls the client with whole periods. *)
Record dev_ok d : Prop := {
  do_state : dev_state d <> ma_device_state_stopping;
  do_fixed : noFixedSizedCallback d = false;
  do_silence : noPreSilencedOutputBuffer d = false;
  do_client : I (dev_client d) }.

(** ** Playback *)

(** The bytes of [k] periods, from the client's state [s]. *)
Fixpoint produced (silent : list Z) (cap : Z) (k : nat) (s : S) : option (list Z * S) :=
  match k with
  | O => Some ([], s)
  | Datatypes.S k =>
      match onData s (Some silent) None cap with
      | Some (Some p, s) =>
          match produced silent cap k s with
          | Some (q, s) => Some (p ++ q, s)
          | None => None
          end
      | _ => None
      end
  end.

Class PlaybackClient (silent : list Z) (cap : Z) : Prop := {
  play_period s : I s -> exists p s',
    onData s (Some silent) None cap = Some (Some p, s') /\ zlen p = zlen silent /\ I s' }.

Record play_dev (b cap : Z) d : Prop := {
  pd_dev : dev_ok d;
  pd_type : dev_type d = ma_device_type_playback;
  pd_side : side_ok b cap (dev_playback d) }.

(** The configuration that does not change. *)
Definition same_side (a b : device_side) : Prop :=
  side_format a = side_format b /\ side_channels a = side_channels b
  /\ intermediaryBufferCap a = intermediaryBufferCap b.

Lemma same_side_silent b x y : same_side x y -> silent_period b x = silent_period b y.
Proof. intros (E1 & E2 & E3). unfold silent_period. by rewrite E1, E3. Qed.

Lemma same_side_trans x y z : same_side x y -> same_side y z -> same_side x z.
Proof. unfold same_side. intuition congruence. Qed.

Lemma with_ib_ok b cap sd buf len :
  side_ok b cap sd -> zlen buf = cap * b -> 0 <= len <= cap -> side_ok b cap (with_ib sd buf len).
Proof. intros [] ? ?. by split. Qed.

(** Firing the callback refills the buffer with the next period. *)
Lemma inner_playback b cap d :
  play_dev b cap d -> PlaybackClient (silent_period b (dev_playback d)) cap ->
  exists p s', onData (dev_client d) (Some (silent_period b (dev_playback d))) None cap
      = Some (Some p, s') /\ zlen p = cap * b /\ I s'
    /\ ma_device__on_data_inner onData d (Some (pIntermediaryBuffer (dev_playback d))) None cap
       = Some (Some p, with_client d s').
Proof.
  intros [[_ _ Hs HI] _ Hside] HC. destruct (play_period (dev_client d) HI) as (p & s' & E & Hz & HI').
  exists p, s'. split_and!; try done.
  - rewrite Hz. unfold silent_period. destruct Hside. rewrite so_cap0, zlen_zrep; nia.
  - unfold ma_device__on_data_inner. rewrite Hs, (side_silence _ _ _ Hside), E. done.
Qed.

(** What a pass takes from the intermediary buffer. *)
Lemma playback_fetch_spec b cap (duplex : bool) p out total remaining n0 :
  side_ok b cap p -> 0 <= total < 2 ^ 32 ->
  0 <= (if duplex then n0 else remaining) ->
  (intermediaryBufferLen p = 0 -> n0 = 0) -> (duplex = true -> n0 <= intermediaryBufferLen p) ->
  let n := if duplex then n0 else Z.min remaining (intermediaryBufferLen p) in
  playback_fetch duplex p out total remaining n0
  = (n, wr out (total * b) (take (Z.to_nat (n * b)) (play_left b p)),
     with_ib p (pIntermediaryBuffer p) (intermediaryBufferLen p - n))
  /\ side_ok b cap (with_ib p (pIntermediaryBuffer p) (intermediaryBufferLen p - n))
  /\ play_left b (with_ib p (pIntermediaryBuffer p) (intermediaryBufferLen p - n))
     = drop (Z.to_nat (n * b)) (play_left b p).
Proof.
  intros Hs Ht Hr Hn0 Hdup n. pose proof Hs as [].
  assert (Hn : 0 <= n <= intermediaryBufferLen p) by (subst n; destruct duplex; lia).
  split_and!.
  - unfold playback_fetch. rewrite Z.gtb_ltb. destruct (Z.ltb_spec 0 (intermediaryBufferLen p)).
    + assert (En : (if duplex then n0 else
        if remaining >? intermediaryBufferLen p then intermediaryBufferLen p else remaining) = n).
      { subst n. destruct duplex; [done|]. rewrite Z.gtb_ltb.
        destruct (Z.ltb_spec (intermediaryBufferLen p) remaining); lia. }
      rewrite En. assert (cap < 2 ^ 32) by nia.
      unfold u32. rewrite !(wrapu_id 32) by (unfold in_u; lia).
      rewrite (side_copy b cap), !(side_offset b cap) by (done || lia).
      unfold play_left, rd. by rewrite so_cap0.
    + assert (Hl0 : intermediaryBufferLen p = 0) by lia.
      assert (n = 0) as -> by lia. rewrite Hn0 by done.
      simpl. rewrite take_0, wr_nil, Z.sub_0_r. by destruct p.
  - apply with_ib_ok; (done || lia).
  - unfold play_left. simpl. rewrite drop_drop_Z by nia. f_equal. f_equal. lia.
Qed.

(** One pass of the loop. *)
Lemma on_data_playback_spec b cap d out total remaining :
  play_dev b cap d -> PlaybackClient (silent_period b (dev_playback d)) cap ->
  0 <= total -> 0 < remaining -> total + remaining < 2 ^ 32 ->
  let n := Z.min remaining (intermediaryBufferLen (dev_playback d)) in
  exists k new d',
    on_data_playback onData d out total remaining 0
    = Some (n, wr out (total * b) (take (Z.to_nat (n * b)) (play_left b (dev_playback d))), d')
    /\ produced (silent_period b (dev_playback d)) cap k (dev_client d) = Some (new, dev_client d')
    /\ drop (Z.to_nat (n * b)) (play_left b (dev_playback d)) ++ new = play_left b (dev_playback d')
    /\ play_dev b cap d' /\ same_side (dev_playback d') (dev_playback d)
    /\ 0 < intermediaryBufferLen (dev_playback d').
Proof.
  intros Hd HC Ht Hr Hlt n. pose proof (pd_side _ _ _ Hd) as Hs. pose proof Hs as [].
  unfold on_data_playback. set (p := dev_playback d) in *.
  rewrite bool_decide_eq_false_2 by (by rewrite (pd_type _ _ _ Hd)).
  destruct (playback_fetch_spec b cap false p out total remaining 0) as (E & Hp1 & Hleft);
    [done|lia..|done|].
  fold n in E, Hp1, Hleft. rewrite E. clear E. cbv beta iota.
  set (p1 := with_ib p (pIntermediaryBuffer p) (intermediaryBufferLen p - n)) in *.
  assert (Hd1 : play_dev b cap (with_playback d p1)) by (destruct Hd as [[] ? ?]; split; [by split|done|exact Hp1]).
  change (dev_type (with_playback d p1)) with (dev_type d).
  destruct (Z.eqb_spec (intermediaryBufferLen p1) 0) as [H0|H0].
  - rewrite decide_False by (by rewrite (pd_type _ _ _ Hd)).
    destruct (inner_playback b cap (with_playback d p1) Hd1) as (q & s' & E & Hq & HI & E'); [done|].
    change (silent_period b (dev_playback (with_playback d p1))) with (silent_period b p) in E.
    change (dev_client (with_playback d p1)) with (dev_client d) in E.
    change (intermediaryBufferCap p1) with (intermediaryBufferCap p). rewrite so_cap0.
    change (pIntermediaryBuffer (dev_playback (with_playback d p1))) with (pIntermediaryBuffer p1) in E'.
    rewrite E'. exists 1%nat, q. eexists. split; [reflexivity|].
    split; [cbn [produced]; rewrite E; cbn [produced]; by rewrite app_nil_r|].
    split_and!.
    + rewrite <- Hleft. unfold play_left. simpl. rewrite so_cap0.
      rewrite (drop_ge (pIntermediaryBuffer p)) by (simpl in H0; unfold zlen in *; nia).
      by rewrite Z.sub_diag.
    + destruct Hd as [[] ? ?]. split; [by split|done|]. simpl. apply with_ib_ok; (done || lia).
    + done.
    + simpl. lia.
  - exists 0%nat, [], (with_playback d p1). split; [reflexivity|]. split; [done|].
    split_and!; [by rewrite app_nil_r|done|done|]. pose proof (so_len _ _ _ Hp1). simpl in *. lia.
Qed.

Lemma produced_app silent cap k1 k2 s a s1 c s2 :
  produced silent cap k1 s = Some (a, s1) -> produced silent cap k2 s1 = Some (c, s2) ->
  produced silent cap (k1 + k2) s = Some (a ++ c, s2).
Proof.
  revert s a. induction k1 as [|k1 IH]; intros s a; cbn [produced Nat.add].
  - by intros [= <- <-].
  - destruct (onData s (Some silent) None cap) as [[[p|] s']|]; try done.
    destruct (produced silent cap k1 s') as [[q s'']|] eqn:E; [|done].
    intros [= <- <-] H2. rewrite (IH _ _ E H2). by rewrite app_assoc.
Qed.

Lemma on_data_loop_playback b cap fuel d out total frames :
  play_dev b cap d -> PlaybackClient (silent_period b (dev_playback d)) cap ->
  0 <= total <= frames -> frames < 2 ^ 32 -> frames * b <= zlen out ->
  frames - total + (if intermediaryBufferLen (dev_playback d) =? 0 then 1 else 0) <= Z.of_nat fuel ->
  exists k new out' d',
    on_data_loop fuel onData d (Some out) None total frames = Some (Some out', d')
    /\ produced (silent_period b (dev_playback d)) cap k (dev_client d) = Some (new, dev_client d')
    /\ rd out' (total * b) ((frames - total) * b) ++ play_left b (dev_playback d')
       = play_left b (dev_playback d) ++ new
    /\ take (Z.to_nat (total * b)) out' = take (Z.to_nat (total * b)) out
    /\ drop (Z.to_nat (frames * b)) out' = drop (Z.to_nat (frames * b)) out
    /\ zlen out' = zlen out /\ play_dev b cap d' /\ same_side (dev_playback d') (dev_playback d)
    /\ (total < frames -> 0 < intermediaryBufferLen (dev_playback d')).
Proof.
  revert d out total. induction fuel as [|fuel IH]; intros d out total Hd HC Ht Hf Hz Hfuel;
    cbn [on_data_loop]; destruct (Z.ltb_spec total frames) as [Hlt|Hge].
  all: pose proof (pd_side _ _ _ Hd) as Hs; pose proof Hs as [].
  - destruct (Z.eqb_spec (intermediaryBufferLen (dev_playback d)) 0); lia.
  - assert (total = frames) as -> by lia. exists 0%nat, [], out, d. split_and!; try done; [|lia].
    rewrite Z.sub_diag, Z.mul_0_l, rd_0, app_nil_r. done.
  - unfold u32. rewrite (wrapu_id 32 (frames - total)) by (unfold in_u; lia).
    set (n := Z.min (frames - total) (intermediaryBufferLen (dev_playback d))).
    destruct (on_data_playback_spec b cap d out total (frames - total) Hd HC)
      as (k1 & new1 & d1 & E1 & P1 & L1 & Hd1 & Hsame & Hpos); [lia..|].
    fold n in E1, L1. rewrite E1. clear E1. cbv beta iota.
    set (out1 := wr out (total * b) _) in *.
    assert (Hzl : zlen (play_left b (dev_playback d)) = intermediaryBufferLen (dev_playback d) * b).
    { unfold play_left. rewrite so_cap0, zlen_drop; nia. }
    assert (Hzt : zlen (take (Z.to_nat (n * b)) (play_left b (dev_playback d))) = n * b).
    { rewrite zlen_take, Hzl by nia. nia. }
    assert (Hz1 : zlen out1 = zlen out) by (subst out1; rewrite zlen_wr; rewrite ?Hzt; nia).
    unfold on_data_duplex. rewrite decide_False by (rewrite (pd_type _ _ _ Hd1); done).
    rewrite (wrapu_id 32 (total + n)) by (unfold in_u; lia).
    rewrite <- (same_side_silent b _ _ Hsame) in HC.
    destruct (IH d1 out1 (total + n) Hd1 HC) as (k2 & new2 & out' & d' & E2 & P2 & L2 & T2 & D2 & Z2 & Hd' & Hsame2 & Hpos2);
      [lia|done|lia| |].
    { rewrite (proj2 (Z.eqb_neq (intermediaryBufferLen (dev_playback d1)) 0)) by lia.
      destruct (Z.eqb_spec (intermediaryBufferLen (dev_playback d)) 0); lia. }
    rewrite E2. exists (k1 + k2)%nat, (new1 ++ new2), out', d'. split; [done|]. split.
    { apply (produced_app _ _ _ _ _ _ _ _ _ P1). by rewrite <- (same_side_silent b _ _ Hsame). }
    rewrite <- L1 in L2.
    destruct (stream_out b total frames n out out' (play_left b (dev_playback d)) _ _ _
      ltac:(lia) ltac:(lia) ltac:(lia) ltac:(lia) Hz ltac:(nia) T2 L2) as [HL HT].
    split_and!; try done.
    + rewrite D2. subst out1. apply drop_wr; rewrite ?Hzt; nia.
    + congruence.
    + by apply (same_side_trans _ (dev_playback d1)).
    + intros _. destruct (Z.eq_dec (total + n) frames) as [En|]; [|apply Hpos2; lia].
      destruct fuel; cbn [on_data_loop] in E2;
        rewrite (proj2 (Z.ltb_ge _ _)) in E2 by lia; by injection E2 as _ <-.
  - assert (total = frames) as -> by lia. exists 0%nat, [], out, d. split_and!; try done; [|lia].
    rewrite Z.sub_diag, Z.mul_0_l, rd_0, app_nil_r. done.
Qed.

(** ** Capture *)

(** The client's state after it received the blocks. *)
Fixpoint delivered (cap : Z) (blocks : list (list Z)) (s : S) : option S :=
  match blocks with
  | [] => Some s
  | c :: blocks =>
      match onData s None (Some c) cap with
      | Some (None, s) => delivered cap blocks s
      | _ => None
      end
  end.

Class CaptureClient (size cap : Z) : Prop := {
  capture_period s c : I s -> zlen c = size ->
    exists s', onData s None (Some c) cap = Some (None, s') /\ I s' }.

Record capture_dev (b cap : Z) d : Prop := {
  cd_dev : dev_ok d;
  cd_type : dev_type d = ma_device_type_capture \/ dev_type d = ma_device_type_loopback;
  cd_side : side_ok b cap (dev_capture d) }.

(** What a pass adds to the intermediary buffer. *)
Lemma capture_store_spec b cap c src total remaining :
  side_ok b cap c -> 0 <= total -> 0 < remaining -> total + remaining < 2 ^ 32 ->
  (total + remaining) * b <= zlen src ->
  let n := Z.min remaining (cap - intermediaryBufferLen c) in
  exists c', capture_store c src total remaining = (n, c')
    /\ side_ok b cap c' /\ intermediaryBufferLen c' = intermediaryBufferLen c + n
    /\ cap_left b c' = cap_left b c ++ rd src (total * b) (n * b) /\ same_side c' c.
Proof.
  intros Hs Ht Hr Hlt Hz n. pose proof Hs as [].
  assert (Hn : 0 <= n <= cap - intermediaryBufferLen c) by lia.
  unfold capture_store. rewrite so_cap0. destruct (Z.ltb_spec (intermediaryBufferLen c) cap).
  - assert (cap < 2 ^ 32) by nia. unfold u32. rewrite (wrapu_id 32 (cap - _)) by (unfold in_u; lia).
    assert (En : (if remaining >? cap - intermediaryBufferLen c
                  then cap - intermediaryBufferLen c else remaining) = n).
    { rewrite Z.gtb_ltb. destruct (Z.ltb_spec (cap - intermediaryBufferLen c) remaining); lia. }
    rewrite En, (wrapu_id 32) by (unfold in_u; lia).
    rewrite (side_copy b cap), !(side_offset b cap) by (done || lia).
    assert (Hzr : zlen (rd src (total * b) (n * b)) = n * b) by (apply zlen_rd; nia).
    eexists. split; [reflexivity|]. split_and!; try done.
    + apply with_ib_ok; [done| |lia]. rewrite zlen_wr; rewrite ?Hzr; nia.
    + unfold cap_left. simpl. rewrite Z.mul_add_distr_r, <- Hzr at 1. apply take_wr. nia.
  - assert (n = 0) as -> by lia. exists c. split_and!; try done; [lia|].
    by rewrite Z.mul_0_l, rd_0, app_nil_r.
Qed.

Lemma cap_left_full b cap c :
  side_ok b cap c -> intermediaryBufferLen c = cap -> cap_left b c = pIntermediaryBuffer c.
Proof.
  intros [] E. unfold cap_left. rewrite E, <- so_buf0. unfold zlen. rewrite Nat2Z.id.
  apply firstn_all.
Qed.

Lemma on_data_capture_spec b cap d src total remaining :
  capture_dev b cap d -> CaptureClient (cap * b) cap ->
  0 <= total -> 0 < remaining -> total + remaining < 2 ^ 32 ->
  (total + remaining) * b <= zlen src ->
  let n := Z.min remaining (cap - intermediaryBufferLen (dev_capture d)) in
  exists blocks d',
    on_data_capture onData d src total remaining = Some (n, d')
    /\ delivered cap blocks (dev_client d) = Some (dev_client d')
    /\ Forall (fun c => zlen c = cap * b) blocks
    /\ cap_left b (dev_capture d) ++ rd src (total * b) (n * b)
       = concat blocks ++ cap_left b (dev_capture d')
    /\ capture_dev b cap d' /\ intermediaryBufferLen (dev_capture d') < cap.
Proof.
  intros Hd HC Ht Hr Hlt Hz n. destruct Hd as [Hdev Hty Hs].
  destruct (capture_store_spec b cap (dev_capture d) src total remaining Hs Ht Hr Hlt Hz)
    as (c & E & Hc & Hl & Hleft & Hsame). fold n in E, Hl, Hleft.
  unfold on_data_capture. rewrite E. rewrite (so_cap _ _ _ Hc).
  assert (Hnd : dev_type d <> ma_device_type_duplex) by (destruct Hty as [-> | ->]; done).
  change (dev_type (with_capture d c)) with (dev_type d).
  pose proof (so_len _ _ _ Hc). destruct (Z.eqb_spec (intermediaryBufferLen c) cap) as [Hfull|Hnf].
  - rewrite decide_False by done.
    destruct (capture_period (dev_client d) (pIntermediaryBuffer c) (do_client _ Hdev) (so_buf _ _ _ Hc))
      as (s' & Es & HI).
    unfold ma_device__on_data_inner.
    change (dev_client (with_capture d c)) with (dev_client d). rewrite Es.
    exists [pIntermediaryBuffer c]. eexists. split; [reflexivity|].
    split_and!.
    + cbn [delivered]. by rewrite Es.
    + constructor; [apply (so_buf _ _ _ Hc)|constructor].
    + rewrite <- Hleft, (cap_left_full b cap) by done. cbn [concat app]. unfold cap_left. simpl.
      by rewrite !app_nil_r.
    + destruct Hdev. split; [by split|done|]. simpl. apply with_ib_ok; [done|apply Hc|].
      pose proof (so_cap_pos _ _ _ Hc). lia.
    + simpl. apply Hc.
  - exists [], (with_capture d c). split_and!; try done; [|simpl; lia].
    destruct Hdev. split; [by split|done|done].
Qed.

Lemma delivered_app cap l1 l2 s s1 :
  delivered cap l1 s = Some s1 -> delivered cap (l1 ++ l2) s = delivered cap l2 s1.
Proof.
  revert s. induction l1 as [|c l1 IH]; intros s; cbn [delivered app].
  - by intros [= <-].
  - destruct (onData s None (Some c) cap) as [[[p|] s']|]; try done. apply IH.
Qed.

Lemma on_data_loop_capture b cap fuel d src total frames :
  capture_dev b cap d -> CaptureClient (cap * b) cap ->
  0 <= total <= frames -> frames < 2 ^ 32 -> frames * b <= zlen src ->
  frames - total + (if intermediaryBufferLen (dev_capture d) =? cap then 1 else 0) <= Z.of_nat fuel ->
  exists blocks d',
    on_data_loop fuel onData d None (Some src) total frames = Some (None, d')
    /\ delivered cap blocks (dev_client d) = Some (dev_client d')
    /\ Forall (fun c => zlen c = cap * b) blocks
    /\ cap_left b (dev_capture d) ++ rd src (total * b) ((frames - total) * b)
       = concat blocks ++ cap_left b (dev_capture d')
    /\ capture_dev b cap d'
    /\ (total < frames -> intermediaryBufferLen (dev_capture d') < cap).
Proof.
  revert d total. induction fuel as [|fuel IH]; intros d total Hd HC Ht Hf Hz Hfuel;
    cbn [on_data_loop]; destruct (Z.ltb_spec total frames) as [Hlt|Hge].
  1: destruct (_ =? cap); lia.
  1, 3: assert (total = frames) as -> by lia; exists [], d; split_and!; try done; [|lia];
    by rewrite Z.sub_diag, Z.mul_0_l, rd_0, app_nil_r.
  pose proof (cd_side _ _ _ Hd) as Hs. pose proof (so_bpf _ _ _ Hs).
  pose proof (so_len _ _ _ Hs).
  unfold u32. rewrite (wrapu_id 32 (frames - total)) by (unfold in_u; lia).
  destruct (on_data_capture_spec b cap d src total (frames - total) Hd HC)
    as (l1 & d1 & E1 & P1 & F1 & L1 & Hd1 & Hpos); [lia..|nia|].
  set (n := Z.min (frames - total) (cap - intermediaryBufferLen (dev_capture d))) in *.
  rewrite E1. cbv beta iota.
  assert (Hnd : dev_type d1 <> ma_device_type_duplex)
    by (destruct (cd_type _ _ _ Hd1) as [-> | ->]; done).
  unfold on_data_duplex. rewrite decide_False by done.
  rewrite (wrapu_id 32 (total + n)) by (unfold in_u; lia).
  destruct (IH d1 (total + n) Hd1 HC) as (l2 & d' & E2 & P2 & F2 & L2 & Hd' & Hpos2); [lia..|done| |].
  { rewrite (proj2 (Z.eqb_neq (intermediaryBufferLen (dev_capture d1)) cap)) by lia.
    destruct (Z.eqb_spec (intermediaryBufferLen (dev_capture d)) cap); lia. }
  exists (l1 ++ l2), d'. split_and!; try done.
  - by rewrite (delivered_app _ _ _ _ _ P1).
  - by apply Forall_app.
  - replace ((frames - total) * b) with (n * b + (frames - (total + n)) * b) by lia.
    rewrite rd_split, app_assoc, L1, concat_app, <- !app_assoc by nia. f_equal.
    rewrite <- L2. do 2 f_equal. lia.
  - intros _. destruct (Z.eq_dec (total + n) frames) as [En|]; [|apply Hpos2; lia].
    destruct fuel; cbn [on_data_loop] in E2;
      rewrite (proj2 (Z.ltb_ge _ _)) in E2 by lia; by injection E2 as <-.
Qed.


(** ** Duplex *)

(** The blocks the client returns for the blocks it receives. *)
Fixpoint exchanged (silent : list Z) (cap : Z) (blocks : list (list Z)) (s : S)
    : option (list Z * S) :=
  match blocks with
  | [] => Some ([], s)
  | c :: blocks =>
      match onData s (Some silent) (Some c) cap with
      | Some (Some p, s) =>
          match exchanged silent cap blocks s with
          | Some (q, s) => Some (p ++ q, s)
          | None => None
          end
      | _ => None
      end
  end.

Class DuplexClient (silent : list Z) (size cap : Z) : Prop := {
  duplex_period s c : I s -> zlen c = size -> exists p s',
    onData s (Some silent) (Some c) cap = Some (Some p, s') /\ zlen p = zlen silent /\ I s' }.

(** The two buffers hold one period between them. *)
Record duplex_dev (bc bp cap : Z) d : Prop := {
  dd_dev : dev_ok d;
  dd_type : dev_type d = ma_device_type_duplex;
  dd_capture : side_ok bc cap (dev_capture d);
  dd_playback : side_ok bp cap (dev_playback d);
  dd_sync : intermediaryBufferLen (dev_capture d) + intermediaryBufferLen (dev_playback d) = cap }.

Lemma exchanged_app silent cap l1 l2 s a s1 c s2 :
  exchanged silent cap l1 s = Some (a, s1) -> exchanged silent cap l2 s1 = Some (c, s2) ->
  exchanged silent cap (l1 ++ l2) s = Some (a ++ c, s2).
Proof.
  revert s a. induction l1 as [|x l1 IH]; intros s a; cbn [exchanged app].
  - by intros [= <- <-].
  - destruct (onData s (Some silent) (Some x) cap) as [[[p|] s']|]; try done.
    destruct (exchanged silent cap l1 s') as [[q s'']|] eqn:E; [|done].
    intros [= <- <-] H2. rewrite (IH _ _ E H2). by rewrite app_assoc.
Qed.

(** Storing and fetching keep the two sides in step. *)
Definition duplex_moved d (c p : device_side) : ma_device S := with_playback (with_capture d c) p.

Lemma on_data_duplex_spec bc bp cap d :
  duplex_dev bc bp cap d ->
  DuplexClient (silent_period bp (dev_playback d)) (cap * bc) cap ->
  exists blocks new d',
    on_data_duplex onData d = Some d'
    /\ exchanged (silent_period bp (dev_playback d)) cap blocks (dev_client d)
       = Some (new, dev_client d')
    /\ Forall (fun c => zlen c = cap * bc) blocks
    /\ cap_left bc (dev_capture d) = concat blocks ++ cap_left bc (dev_capture d')
    /\ play_left bp (dev_playback d) ++ new = play_left bp (dev_playback d')
    /\ duplex_dev bc bp cap d' /\ same_side (dev_playback d') (dev_playback d)
    /\ intermediaryBufferLen (dev_capture d') < cap.
Proof.
  intros Hd HC. destruct Hd as [Hdev Hty Hcs Hps Hsync].
  pose proof (so_len _ _ _ Hcs). pose proof (so_len _ _ _ Hps).
  unfold on_data_duplex. rewrite decide_True by done. rewrite (so_cap _ _ _ Hcs), (so_cap _ _ _ Hps).
  destruct (Z.eqb_spec (intermediaryBufferLen (dev_capture d)) cap) as [Hfull|Hnf].
  - destruct (duplex_period (dev_client d) (pIntermediaryBuffer (dev_capture d))
      (do_client _ Hdev) (so_buf _ _ _ Hcs)) as (q & s' & E & Hq & HI).
    unfold ma_device__on_data_inner. rewrite (do_silence _ Hdev), (side_silence bp) by done.
    rewrite E. exists [pIntermediaryBuffer (dev_capture d)], q. eexists. split; [reflexivity|].
    assert (Hzq : zlen q = cap * bp).
    { rewrite Hq. unfold silent_period. rewrite (so_cap _ _ _ Hps), zlen_zrep; [done|].
      pose proof (so_bpf _ _ _ Hps). nia. }
    pose proof (so_cap_pos _ _ _ Hcs). split_and!; try done.
    + cbn [exchanged]. rewrite E. cbn [exchanged]. by rewrite app_nil_r.
    + constructor; [apply (so_buf _ _ _ Hcs)|constructor].
    + rewrite (cap_left_full bc cap) by done. cbn [concat]. unfold cap_left. simpl.
      by rewrite !app_nil_r.
    + unfold play_left. simpl. rewrite (so_cap _ _ _ Hps).
      replace (intermediaryBufferLen (dev_playback d)) with 0 by lia.
      rewrite drop_ge by (pose proof (so_buf _ _ _ Hps); unfold zlen in *; lia).
      by rewrite Z.sub_diag.
    + destruct Hdev. split; simpl; try done; try (by split); apply with_ib_ok;
        try done; try apply Hcs; lia.
  - exists [], [], d. split_and!; try done; [by rewrite app_nil_r|lia].
Qed.

Lemma on_data_pass_duplex bc bp cap d src out total remaining :
  duplex_dev bc bp cap d ->
  0 <= total -> 0 < remaining -> total + remaining < 2 ^ 32 ->
  (total + remaining) * bc <= zlen src ->
  let n := Z.min remaining (cap - intermediaryBufferLen (dev_capture d)) in
  exists d1,
    on_data_capture onData d src total remaining = Some (n, with_playback d1 (dev_playback d))
    /\ on_data_playback onData (with_playback d1 (dev_playback d)) out total remaining n
       = Some (n, wr out (total * bp) (take (Z.to_nat (n * bp)) (play_left bp (dev_playback d))), d1)
    /\ duplex_dev bc bp cap d1 /\ dev_client d1 = dev_client d
    /\ cap_left bc (dev_capture d1) = cap_left bc (dev_capture d) ++ rd src (total * bc) (n * bc)
    /\ play_left bp (dev_playback d1) = drop (Z.to_nat (n * bp)) (play_left bp (dev_playback d))
    /\ same_side (dev_playback d1) (dev_playback d).
Proof.
  intros [Hdev Hty Hcs Hps Hsync] Ht Hr Hlt Hz n.
  pose proof (so_len _ _ _ Hcs). pose proof (so_len _ _ _ Hps).
  destruct (capture_store_spec bc cap (dev_capture d) src total remaining Hcs Ht Hr Hlt Hz)
    as (c & E & Hc & Hl & Hleft & _). fold n in E, Hl, Hleft.
  destruct (playback_fetch_spec bp cap true (dev_playback d) out total remaining n)
    as (E2 & Hp & Hpl); [done|lia..|].
  set (p := with_ib _ _ _) in *. exists (duplex_moved d c p). split_and!; try done.
  - unfold on_data_capture. rewrite E. change (dev_type (with_capture d c)) with (dev_type d).
    rewrite decide_True by done. by destruct (_ =? _).
  - unfold on_data_playback.
    change (dev_type (with_playback (duplex_moved d c p) (dev_playback d))) with (dev_type d).
    rewrite bool_decide_eq_true_2 by done. simpl dev_playback. rewrite E2.
    match goal with |- context [decide (dev_type ?x = _)] => change (dev_type x) with (dev_type d) end.
    rewrite decide_True by done. by destruct (_ =? _).
  - destruct Hdev. split; simpl; try done. simpl in *. lia.
Qed.

Lemma on_data_loop_duplex bc bp cap fuel d src out total frames :
  duplex_dev bc bp cap d ->
  DuplexClient (silent_period bp (dev_playback d)) (cap * bc) cap ->
  0 <= total <= frames -> frames < 2 ^ 32 -> zlen src = frames * bc -> zlen out = frames * bp ->
  frames - total + (if intermediaryBufferLen (dev_capture d) =? cap then 1 else 0) <= Z.of_nat fuel ->
  exists blocks new out' d',
    on_data_loop fuel onData d (Some out) (Some src) total frames = Some (Some out', d')
    /\ exchanged (silent_period bp (dev_playback d)) cap blocks (dev_client d)
       = Some (new, dev_client d')
    /\ Forall (fun c => zlen c = cap * bc) blocks
    /\ cap_left bc (dev_capture d) ++ rd src (total * bc) ((frames - total) * bc)
       = concat blocks ++ cap_left bc (dev_capture d')
    /\ rd out' (total * bp) ((frames - total) * bp) ++ play_left bp (dev_playback d')
       = play_left bp (dev_playback d) ++ new
    /\ take (Z.to_nat (total * bp)) out' = take (Z.to_nat (total * bp)) out
    /\ zlen out' = frames * bp /\ duplex_dev bc bp cap d'.
Proof.
  revert d out total. induction fuel as [|fuel IH]; intros d out total Hd HC Ht Hf Hzs Hz Hfuel;
    cbn [on_data_loop]; destruct (Z.ltb_spec total frames) as [Hlt|Hge].
  1: destruct (_ =? cap); lia.
  1, 3: assert (total = frames) as -> by lia; exists [], [], out, d; split_and!; try done;
    by rewrite Z.sub_diag, Z.mul_0_l, rd_0, app_nil_r.
  pose proof (dd_capture _ _ _ _ Hd) as Hcs. pose proof (dd_playback _ _ _ _ Hd) as Hps.
  pose proof (so_bpf _ _ _ Hcs). pose proof (so_bpf _ _ _ Hps). pose proof (so_len _ _ _ Hcs).
  pose proof (dd_sync _ _ _ _ Hd).
  unfold u32. rewrite (wrapu_id 32 (frames - total)) by (unfold in_u; lia).
  destruct (on_data_pass_duplex bc bp cap d src out total (frames - total) Hd)
    as (d1 & E1 & E2 & Hd1 & Hcl & Hl1 & Hp1 & Hs1); [lia..|rewrite Hzs; nia|].
  set (n := Z.min (frames - total) (cap - intermediaryBufferLen (dev_capture d))) in *.
  rewrite E1, E2. cbv beta iota. clear E1 E2.
  rewrite <- (same_side_silent bp _ _ Hs1) in *.
  destruct (on_data_duplex_spec bc bp cap d1 Hd1 HC) as (l1 & new1 & d2 & E3 & X1 & F1 & L1 & P1 & Hd2 & Hs2 & Hlt2).
  rewrite E3. rewrite (wrapu_id 32 (total + n)) by (unfold in_u; lia).
  rewrite <- (same_side_silent bp _ _ Hs2) in *.
  set (out1 := wr out (total * bp) _) in *.
  assert (Hzl : zlen (play_left bp (dev_playback d)) = intermediaryBufferLen (dev_playback d) * bp).
  { unfold play_left. rewrite (so_cap _ _ _ Hps), zlen_drop; rewrite ?(so_buf _ _ _ Hps);
      pose proof (so_len _ _ _ Hps); nia. }
  assert (Hz1 : zlen out1 = frames * bp) by (subst out1; rewrite zlen_wr; rewrite ?zlen_take, ?Hzl; nia).
  destruct (IH d2 out1 (total + n) Hd2 HC) as (l2 & new2 & out' & d' & E4 & X2 & F2 & C2 & L2 & T2 & Z2 & Hd');
    [lia..|done|done| |].
  { rewrite (proj2 (Z.eqb_neq (intermediaryBufferLen (dev_capture d2)) cap)) by lia.
    destruct (Z.eqb_spec (intermediaryBufferLen (dev_capture d)) cap); lia. }
  rewrite <- P1, Hp1 in L2.
  destruct (stream_out bp total frames n out out' (play_left bp (dev_playback d)) _ _ _
    ltac:(lia) ltac:(lia) ltac:(lia) ltac:(lia) ltac:(lia) ltac:(nia) T2 L2) as [HL HT].
  exists (l1 ++ l2), (new1 ++ new2), out', d'. split_and!; try done.
  - rewrite <- Hcl. apply (exchanged_app _ _ _ _ _ _ _ _ _ X1 X2).
  - by apply Forall_app.
  - replace ((frames - total) * bc) with (n * bc + (frames - (total + n)) * bc) by lia.
    rewrite rd_split, app_assoc, <- Hl1, L1, concat_app, <- !app_assoc by nia. f_equal.
    rewrite <- C2. do 2 f_equal. lia.
Qed.
End streams.

(** ** Properties *)

(** A whole request of a playback device, into a buffer that may be longer. *)
Lemma on_data_playback_prefix {S} (onData : ma_device_data_proc S) I b cap d out frames :
  play_dev I b cap d -> PlaybackClient onData I (silent_period b (dev_playback d)) cap ->
  0 <= frames < 2 ^ 32 -> frames * b <= zlen out ->
  exists k new u d',
    ma_device__on_data onData d (Some out) None frames = Some (Some (wr out 0 u), d')
    /\ produced onData (silent_period b (dev_playback d)) cap k (dev_client d)
       = Some (new, dev_client d')
    /\ u ++ play_left b (dev_playback d') = play_left b (dev_playback d) ++ new
    /\ zlen u = frames * b /\ play_dev I b cap d'
    /\ same_side (dev_playback d') (dev_playback d)
    /\ (0 < frames -> 0 < intermediaryBufferLen (dev_playback d')).
Proof.
  intros Hd HC Hf Hz. unfold ma_device__on_data. pose proof (so_bpf _ _ _ (pd_side _ _ _ _ Hd)).
  rewrite decide_False, (do_fixed _ _ (pd_dev _ _ _ _ Hd)) by apply Hd.
  destruct (on_data_loop_playback onData I b cap (2 + Z.to_nat frames) d out 0 frames Hd HC)
    as (k & new & out' & d' & E & P & L & _ & D & Z' & Hd' & Hs & Hpos); [lia..| |].
  { destruct (_ =? 0); lia. }
  rewrite E. rewrite Z.sub_0_r, Z.mul_0_l in L.
  assert (Hr : zlen (rd out' 0 (frames * b)) = frames * b) by (apply zlen_rd; nia).
  exists k, new, (rd out' 0 (frames * b)), d'. split_and!; try done.
  do 2 f_equal. unfold wr. change (Z.to_nat 0) with 0%nat. cbn [take app Nat.add].
  unfold zlen in Hr. replace (length (rd out' 0 (frames * b))) with (Z.to_nat (frames * b)) by lia.
  rewrite <- D. unfold rd. change (Z.to_nat 0) with 0%nat. rewrite drop_0. by rewrite take_drop.
Qed.

Lemma on_data_playback_run {S} (onData : ma_device_data_proc S) I b cap d out frames :
  play_dev I b cap d -> PlaybackClient onData I (silent_period b (dev_playback d)) cap ->
  0 <= frames < 2 ^ 32 -> zlen out = frames * b ->
  exists k new out' d',
    ma_device__on_data onData d (Some out) None frames = Some (Some out', d')
    /\ produced onData (silent_period b (dev_playback d)) cap k (dev_client d)
       = Some (new, dev_client d')
    /\ out' ++ play_left b (dev_playback d') = play_left b (dev_playback d) ++ new
    /\ zlen out' = frames * b /\ play_dev I b cap d'
    /\ same_side (dev_playback d') (dev_playback d)
    /\ (0 < frames -> 0 < intermediaryBufferLen (dev_playback d')).
Proof.
  intros Hd HC Hf Hz.
  destruct (on_data_playback_prefix onData I b cap d out frames Hd HC Hf ltac:(lia))
    as (k & new & u & d' & E & P & L & Z' & Hrest).
  rewrite wr_full in E by lia. by exists k, new, u, d'.
Qed.

(** C31. A playback device with fixed-size callbacks: whatever number of frames the
    backend asks for, each callback is asked for one whole period of silence to
    overwrite, and what is left of the last period followed by the new periods is
    exactly the output followed by what is left afterwards. The loop ends, and the
    buffer is never left empty after a request. *)
Theorem playback_periods_exact {S} (onData : ma_device_data_proc S) I b cap d out frames :
  play_dev I b cap d -> PlaybackClient onData I (silent_period b (dev_playback d)) cap ->
  0 <= frames < 2 ^ 32 -> zlen out = frames * b ->
  exists k new out' d',
    ma_device__on_data onData d (Some out) None frames = Some (Some out', d')
    /\ produced onData (silent_period b (dev_playback d)) cap k (dev_client d)
       = Some (new, dev_client d')
    /\ out' ++ play_left b (dev_playback d') = play_left b (dev_playback d) ++ new
    /\ zlen out' = frames * b /\ play_dev I b cap d'
    /\ (0 < frames -> 0 < intermediaryBufferLen (dev_playback d')).
Proof.
  intros Hd HC Hf Hz.
  destruct (on_data_playback_run onData I b cap d out frames Hd HC Hf Hz)
    as (k & new & out' & d' & E & P & L & Z' & Hd' & _ & Hpos).
  by exists k, new, out', d'.
Qed.

(** A whole delivery, from a buffer that may be longer. *)
Lemma on_data_capture_prefix {S} (onData : ma_device_data_proc S) I b cap d src frames :
  capture_dev I b cap d -> CaptureClient onData I (cap * b) cap ->
  0 <= frames < 2 ^ 32 -> frames * b <= zlen src ->
  exists blocks d',
    ma_device__on_data onData d None (Some src) frames = Some (None, d')
    /\ delivered onData cap blocks (dev_client d) = Some (dev_client d')
    /\ Forall (fun c => zlen c = cap * b) blocks
    /\ cap_left b (dev_capture d) ++ rd src 0 (frames * b) = concat blocks ++ cap_left b (dev_capture d')
    /\ capture_dev I b cap d'
    /\ (0 < frames -> intermediaryBufferLen (dev_capture d') < cap).
Proof.
  intros Hd HC Hf Hz. unfold ma_device__on_data.
  rewrite decide_False, (do_fixed _ _ (cd_dev _ _ _ _ Hd)) by apply Hd.
  destruct (on_data_loop_capture onData I b cap (2 + Z.to_nat frames) d src 0 frames Hd HC)
    as (blocks & d' & E & P & F & L & Hd' & Hpos); [lia..|done| |].
  { destruct (_ =? cap); lia. }
  rewrite E. exists blocks, d'. split_and!; try done. by rewrite <- L, Z.sub_0_r, Z.mul_0_l.
Qed.

(** A capture device with fixed-size callbacks: whatever the sizes of the blocks
    the backend delivers, the client receives whole periods, and the periods it
    received followed by what is buffered are exactly what was buffered followed by
    the new block. A device that was just opened delivers a period of silence first,
    because its buffer starts full. *)
Theorem capture_periods_exact {S} (onData : ma_device_data_proc S) I b cap d src frames :
  capture_dev I b cap d -> CaptureClient onData I (cap * b) cap ->
  0 <= frames < 2 ^ 32 -> zlen src = frames * b ->
  exists blocks d',
    ma_device__on_data onData d None (Some src) frames = Some (None, d')
    /\ delivered onData cap blocks (dev_client d) = Some (dev_client d')
    /\ Forall (fun c => zlen c = cap * b) blocks
    /\ cap_left b (dev_capture d) ++ src = concat blocks ++ cap_left b (dev_capture d')
    /\ capture_dev I b cap d'
    /\ (0 < frames -> intermediaryBufferLen (dev_capture d') < cap).
Proof.
  intros Hd HC Hf Hz.
  destruct (on_data_capture_prefix onData I b cap d src frames Hd HC Hf ltac:(lia))
    as (blocks & d' & E & P & F & L & Hrest).
  exists blocks, d'. split_and!; try done; try apply Hrest. by rewrite <- L, <- Hz, rd_all.
Qed.

(** C32. A duplex device: the periods captured and the periods played are exchanged in
    the same callbacks, and the two intermediary buffers together always hold one
    period, so both streams pass through complete and in order with one period of
    latency. *)
Theorem duplex_periods_exact {S} (onData : ma_device_data_proc S) I bc bp cap d src out frames :
  duplex_dev I bc bp cap d ->
  DuplexClient onData I (silent_period bp (dev_playback d)) (cap * bc) cap ->
  0 <= frames < 2 ^ 32 -> zlen src = frames * bc -> zlen out = frames * bp ->
  exists blocks new out' d',
    ma_device__on_data onData d (Some out) (Some src) frames = Some (Some out', d')
    /\ exchanged onData (silent_period bp (dev_playback d)) cap blocks (dev_client d)
       = Some (new, dev_client d')
    /\ Forall (fun c => zlen c = cap * bc) blocks
    /\ cap_left bc (dev_capture d) ++ src = concat blocks ++ cap_left bc (dev_capture d')
    /\ out' ++ play_left bp (dev_playback d') = play_left bp (dev_playback d) ++ new
    /\ zlen out' = frames * bp /\ duplex_dev I bc bp cap d'.
Proof.
  intros Hd HC Hf Hzs Hz. unfold ma_device__on_data.
  rewrite decide_False, (do_fixed _ _ (dd_dev _ _ _ _ _ Hd)) by apply Hd.
  destruct (on_data_loop_duplex onData I bc bp cap (2 + Z.to_nat frames) d src out 0 frames Hd HC)
    as (blocks & new & out' & d' & E & X & F & C & L & _ & Z' & Hd'); [lia..|done|done| |].
  { destruct (_ =? cap); lia. }
  rewrite E. exists blocks, new, out', d'. rewrite Z.sub_0_r, Z.mul_0_l in *. split_and!; try done.
  - rewrite <- C, <- Hzs. by rewrite rd_all.
  - rewrite <- L, <- Z'. by rewrite rd_all.
Qed.

(** ** Sample clients *)

(** A client that numbers the blocks it plays, drops what it captures, and returns what
    it captures in duplex mode. *)
Definition demo_client : ma_device_data_proc Z := fun n out inp _ =>
  match out, inp with
  | Some o, None => Some (Some (zrep (zlen o) n), n + 1)
  | None, Some i => Some (None, n + zlen i)
  | Some o, Some i => Some (Some i, n + 1)
  | None, None => Some (None, n)
  end.

Definition demo_side (len : Z) : device_side := mk_side ma_format_u8 1 [1; 2; 3] 3 len.

Definition demo_dev (ty : ma_device_type) (c p : Z) : ma_device Z :=
  mk_ma_device Z ty ma_device_state_started false false false f32_one (demo_side c) (demo_side p) 7.

Lemma demo_side_ok len : 0 <= len <= 3 -> side_ok 1 3 (demo_side len).
Proof. intros H. by split. Qed.

Lemma demo_dev_ok ty c p : dev_ok (fun _ => True) (demo_dev ty c p).
Proof. by split. Qed.

#[export] Instance demo_plays : PlaybackClient demo_client (fun _ => True) [128; 128; 128] 3.
Proof. split. intros s _. exists (zrep 3 s), (s + 1). by split_and!. Qed.

#[export] Instance demo_captures : CaptureClient demo_client (fun _ => True) 3 3.
Proof. split. intros s c _ _. by exists (s + zlen c). Qed.

#[export] Instance demo_exchanges : DuplexClient demo_client (fun _ => True) [128; 128; 128] 3 3.
Proof. split. intros s c _ Hc. exists c, (s + 1). by split_and!. Qed.

Lemma playback_periods_exact_witness :
  exists k new out' d',
    ma_device__on_data demo_client (demo_dev ma_device_type_playback 0 2) (Some [0; 0; 0; 0]) None 4
      = Some (Some out', d')
    /\ produced demo_client [128; 128; 128] 3 k 7 = Some (new, dev_client d')
    /\ out' ++ play_left 1 (dev_playback d') = [2; 3] ++ new.
Proof.
  destruct (playback_periods_exact demo_client (fun _ => True) 1 3
    (demo_dev ma_device_type_playback 0 2) [0; 0; 0; 0] 4) as (k & new & out' & d' & E & P & L & _).
  - split; [apply demo_dev_ok|reflexivity|apply demo_side_ok; vm_decide].
  - exact demo_plays.
  - vm_decide.
  - reflexivity.
  - exists k, new, out', d'. exact (conj E (conj P L)).
Defined.

Lemma capture_periods_exact_witness :
  exists blocks d',
    ma_device__on_data demo_client (demo_dev ma_device_type_capture 3 0) None (Some [4; 5; 6; 7]) 4
      = Some (None, d')
    /\ [1; 2; 3; 4; 5; 6; 7] = concat blocks ++ cap_left 1 (dev_capture d').
Proof.
  destruct (capture_periods_exact demo_client (fun _ => True) 1 3
    (demo_dev ma_device_type_capture 3 0) [4; 5; 6; 7] 4) as (blocks & d' & E & _ & _ & L & _).
  - split; [apply demo_dev_ok|by left|apply demo_side_ok; vm_decide].
  - exact demo_captures.
  - vm_decide.
  - reflexivity.
  - exists blocks, d'. exact (conj E L).
Defined.

Lemma duplex_periods_exact_witness :
  exists blocks new out' d',
    ma_device__on_data demo_client (demo_dev ma_device_type_duplex 3 0) (Some [0; 0; 0; 0])
      (Some [4; 5; 6; 7]) 4 = Some (Some out', d')
    /\ [1; 2; 3; 4; 5; 6; 7] = concat blocks ++ cap_left 1 (dev_capture d')
    /\ out' ++ play_left 1 (dev_playback d') = new.
Proof.
  destruct (duplex_periods_exact demo_client (fun _ => True) 1 1 3
    (demo_dev ma_device_type_duplex 3 0) [4; 5; 6; 7] [0; 0; 0; 0] 4)
    as (blocks & new & out' & d' & E & _ & _ & C & L & _).
  - split; [apply demo_dev_ok|reflexivity|apply demo_side_ok; vm_decide..|reflexivity].
  - exact demo_exchanges.
  - vm_decide.
  - reflexivity.
  - reflexivity.
  - exists blocks, new, out', d'. exact (conj E (conj C L)).
Defined.

(** [ma_device_stop] empties the playback buffer but not the capture buffer. In a duplex
    device stopped in the middle of a period the two are then out of step, and the
    first frames of the output are not written. *)
Example duplex_after_stop :
  option_map fst (ma_device__on_data demo_client (demo_dev ma_device_type_duplex 1 0)
    (Some [77; 77]) (Some [4; 5]) 2) = Some (Some [77; 77]).
Proof. reflexivity. Qed.
