(* ===== verification/AdapterDevice.v ===== *)
(** * The adapter's callback behind a miniaudio device (device.c, miniaudio.h)

    [open_device] hands [data_callback] to a device with 32-bit float samples, a fixed
    period of [RA_FRAME] frames and the default volume and clipping.  The adapter is a
    client in the sense of DeviceData.v, so the stream theorems apply to it: what a
    backend that runs in the client's own format gets and delivers are the adapter's
    periods. *)
From Stdlib Require Import ZArith Lia Bool SpecFloat.
From stdpp Require Import base numbers list option.
From S2P Require Import Prelude MaTypes CFloat Ring FrameRing PcmRing FrameCopy Adapter AdapterProps PcmFormat DeviceData DeviceDataProps.

Local Open Scope Z_scope.

(** ** Samples that clipping leaves alone *)

Definition unit_samples (l : list Z) : Prop :=
  forall j, 0 <= j -> 4 * j + 4 <= zlen l -> ma_clip_f32 (ld_f32 l j) = ld_f32 l j.

Lemma clip_mix_sample a b : ma_clip_f32 (mix_sample a b) = mix_sample a b.
Proof.
  unfold mix_sample. set (v := f32_add a b).
  destruct (fgt v f32_one) eqn:E1; [done|]. destruct (flt v f32_mone) eqn:E2; [done|].
  unfold ma_clip_f32. by rewrite E2, E1.
Qed.

Lemma ma_clip_f32_valid x :
  valid_binary 24 128 x = true -> valid_binary 24 128 (ma_clip_f32 x) = true.
Proof. intros H. unfold ma_clip_f32. by repeat case_match. Qed.

Lemma ld_app_l a b j : 0 <= j -> 4 * j + 4 <= zlen a -> ld_f32 (a ++ b) j = ld_f32 a j.
Proof. intros. unfold ld_f32. by rewrite rd_app_l by lia. Qed.

Lemma ld_app_r a b q j :
  zlen a = 4 * q -> q <= j -> ld_f32 (a ++ b) j = ld_f32 b (j - q).
Proof. intros Hq Hj. unfold ld_f32. rewrite rd_app_r, Hq by lia. do 3 f_equal. lia. Qed.

Lemma unit_samples_app a b q :
  zlen a = 4 * q -> unit_samples (a ++ b) <-> unit_samples a /\ unit_samples b.
Proof.
  intros Hq. pose proof (zlen_nonneg a). pose proof (zlen_nonneg b). split.
  - intros Hu. split; intros j Hj Hl.
    + rewrite <- (ld_app_l a b) by done. apply Hu; [done|zl].
    + replace j with (j + q - q) by lia. rewrite <- (ld_app_r a b) by lia.
      apply Hu; [lia|zl].
  - intros [Ha Hb] j Hj Hl. rewrite zlen_app in Hl. destruct (Z.lt_ge_cases j q).
    + rewrite ld_app_l by lia. apply Ha; lia.
    + rewrite (ld_app_r a b q) by lia. apply Hb; lia.
Qed.

Lemma ld_bytes x rest :
  valid_binary 24 128 x = true -> ld_f32 (bytes_f32 x ++ rest) 0 = x.
Proof.
  intros Hx. assert (Hz : zlen (bytes_f32 x) = 4) by apply zlen_le_bytes.
  rewrite ld_app_l by lia. unfold ld_f32. rewrite Z.mul_0_r, <- Hz, rd_all. unfold bytes_f32.
  rewrite le_word_bytes, Z.mod_small by exact (bits_of_f32_range x Hx).
  by apply f32_bits_roundtrip.
Qed.

Lemma ld_clipped n out rest j :
  4 * Z.of_nat n <= zlen out -> 0 <= j < Z.of_nat n ->
  ld_f32 (concat (map bytes_f32 (ma_clip_samples_f32 (map sample_f32 (split_samples 4 n out)))) ++ rest) j
  = ma_clip_f32 (ld_f32 out j).
Proof.
  revert out j. induction n as [|n IH]; intros out j Hn Hj; [lia|].
  cbn [split_samples map ma_clip_samples_f32 concat]. rewrite <- app_assoc.
  destruct (Z.eq_dec j 0) as [->|].
  - rewrite ld_bytes by (apply ma_clip_f32_valid, f32_of_bits_valid). done.
  - rewrite (ld_app_r _ _ 1) by (try apply zlen_le_bytes; lia).
    fold (ma_clip_samples_f32 (map sample_f32 (split_samples 4 n (drop 4 out)))).
    rewrite IH by (unfold zlen in *; rewrite ?length_drop; lia).
    f_equal. unfold ld_f32. do 2 f_equal. change 4%nat with (Z.to_nat 4). rewrite rd_drop by lia.
    f_equal. lia.
Qed.

Lemma zlen_clipped n out :
  zlen (concat (map bytes_f32 (ma_clip_samples_f32 (map sample_f32 (split_samples 4 n out)))))
  = 4 * Z.of_nat n.
Proof.
  revert out. induction n as [|n IH]; intros out; [done|].
  cbn [split_samples map ma_clip_samples_f32 concat]. rewrite zlen_app.
  fold (ma_clip_samples_f32 (map sample_f32 (split_samples 4 n (drop 4 out)))). rewrite IH.
  change (zlen (bytes_f32 (ma_clip_f32 (sample_f32 (take 4 out))))) with 4. lia.
Qed.

Lemma clip_in_place_unit out count :
  unit_samples out -> 0 <= count -> zlen out = 4 * count ->
  zlen (clip_in_place out count) = zlen out
  /\ forall j, 0 <= j < count -> ld_f32 (clip_in_place out count) j = ld_f32 out j.
Proof.
  intros Hu Hc Hz. unfold clip_in_place. rewrite wr_full by (rewrite zlen_clipped; lia).
  split; [rewrite zlen_clipped; lia|]. intros j Hj.
  rewrite <- (app_nil_r (concat _)), ld_clipped by lia. apply Hu; lia.
Qed.

(** ** The adapter as a client *)

Section adapter.
Context {R : Type} `{FrameRingLaws R 8}.
Context (epoch_at : Z -> Z) (now_at : Z -> spec_float) (local : list Z).
Context (Hlocal : zlen local = RA_FRAME * 8).

Definition adapter_client : ma_device_data_proc (ra_device R) := fun d out inp frames =>
  match data_callback epoch_at now_at local d out inp frames with
  | Some (d, out, _) => Some (out, d)
  | None => None
  end.

Lemma adapter_period d silent :
  dev_inv d -> zlen silent = RA_FRAME * 8 ->
  exists p d', adapter_client d (Some silent) None RA_FRAME = Some (Some p, d')
    /\ zlen p = zlen silent /\ dev_inv d' /\ unit_samples p.
Proof.
  intros Hd Hz.
  destruct (data_callback_output_spec epoch_at now_at local d silent RA_FRAME Hd)
    as (d' & p & refd & E & Hi & _ & _ & _ & _ & Hp & Hld); [done..|].
  exists p, d'. unfold adapter_client. rewrite E. split_and!; try done; [by rewrite Hz|].
  intros j Hj Hl. rewrite Hld by lia. apply clip_mix_sample.
Qed.

#[export] Instance adapter_plays (silent : list Z) (Hz : TCEq (zlen silent) (RA_FRAME * 8)) :
  PlaybackClient adapter_client dev_inv silent RA_FRAME.
Proof.
  split. intros s Hs. destruct (adapter_period s silent Hs) as (p & s' & E & Hp & Hi & _).
  - by destruct Hz.
  - by exists p, s'.
Qed.

Lemma produced_unit silent k s new s' :
  zlen silent = RA_FRAME * 8 -> dev_inv s -> produced adapter_client silent RA_FRAME k s = Some (new, s') ->
  unit_samples new.
Proof.
  intros Hz. revert s new. induction k as [|k IH]; intros s new Hs; cbn [produced].
  - intros [= <- <-] j Hj Hl. change (zlen []) with 0 in Hl. lia.
  - destruct (adapter_period s silent Hs Hz) as (p & s1 & E & Hp & Hi & Hu). rewrite E.
    destruct (produced adapter_client silent RA_FRAME k s1) as [[q s2]|] eqn:Eq; [|done].
    intros [= <- <-]. apply (unit_samples_app p q (RA_FRAME * 2)); [rewrite Hp, Hz; done|].
    split; [done|]. by apply (IH s1).
Qed.
End adapter.


(** The device of [demo_device], just opened. *)
Definition demo_output : ma_device (ra_device ma_pcm_rb) :=
  mk_ma_device _ ma_device_type_playback ma_device_state_started false false false f32_one
    (mk_side ma_format_unknown 0 [] 0 0) (mk_side ma_format_f32 2 (zrep 7680 0) RA_FRAME 0)
    demo_device.

Lemma demo_output_ok : play_dev dev_inv 8 RA_FRAME demo_output.
Proof.
  split; [|reflexivity|by split].
  split; [done|done|done|exact demo_dev_inv].
Qed.

