(* ===== verification/DeviceState.v ===== *)
(** * Starting and stopping a device (miniaudio.h)

    [ma_device_start], [ma_device_stop] and [ma_worker_thread] as threads that take
    one shared access at a time: the atomic device state, three auto-reset events, the
    start/stop mutex and [workResult].  Any number of client threads call start and
    stop; the scheduler picks the next thread.  The results of the backend's callbacks
    are chosen by the environment.  [ma_device_uninit] is outside: the documentation
    forbids calling it concurrently with the others. *)
From Stdlib Require Import ZArith Lia Bool.
From stdpp Require Import base numbers list option relations functions.
From S2P Require Import Prelude MaTypes DeviceData.

Local Open Scope Z_scope.

(** ** Threads *)

Inductive operation := Start | Stop.

(** Where a client thread is, by the next shared access it makes.  [C_idle r]: outside,
    the last call having returned [r]. *)
Inductive caller_pc :=
| C_idle (last : ma_result)
| S_check_uninit | S_check_started | S_lock | S_recheck | S_set_starting
| S_signal | S_wait | S_result
| S_backend_start | S_set_started
| S_set_stopped (result : ma_result) | S_unlock (result : ma_result)
| T_check_uninit | T_check_stopped | T_lock | T_recheck | T_set_stopping
| T_wait
| T_backend_stop | T_set_stopped (result : ma_result)
| T_unlock (result : ma_result).

Inductive worker_pc :=
| W_none
| W_wait | W_result | W_check | W_start
| W_failed (result : ma_result) | W_failed_signal
| W_set_started | W_started_signal | W_notify
| W_loop | W_stop | W_stop_check | W_set_stopped | W_stopped_signal
| W_exit.

Record sys := mk_sys {
  state : ma_device_state;
  wakeupEvent : bool;
  startEvent : bool;
  stopEvent : bool;
  startStopLock : option nat;
  workResult : ma_result;
  worker : worker_pc;
  callers : nat -> caller_pc }.

Definition set_state (s : sys) (x : ma_device_state) : sys := mk_sys x (wakeupEvent s) (startEvent s) (stopEvent s)
  (startStopLock s) (workResult s) (worker s) (callers s).
Definition set_events (s : sys) (w a o : bool) : sys := mk_sys (state s) w a o
  (startStopLock s) (workResult s) (worker s) (callers s).
Definition set_lock (s : sys) (l : option nat) : sys := mk_sys (state s) (wakeupEvent s) (startEvent s) (stopEvent s)
  l (workResult s) (worker s) (callers s).
Definition set_result (s : sys) (r : ma_result) : sys := mk_sys (state s) (wakeupEvent s) (startEvent s) (stopEvent s)
  (startStopLock s) r (worker s) (callers s).
Definition set_worker (s : sys) (w : worker_pc) : sys := mk_sys (state s) (wakeupEvent s) (startEvent s) (stopEvent s)
  (startStopLock s) (workResult s) w (callers s).
Definition set_caller (s : sys) (t : nat) (c : caller_pc) : sys := mk_sys (state s) (wakeupEvent s) (startEvent s)
  (stopEvent s) (startStopLock s) (workResult s) (worker s) (<[t := c]> (callers s)).

Definition is_state (s : sys) (x : ma_device_state) : bool := bool_decide (state s = x).

(** ** [ma_device_start] and [ma_device_stop]

    [async] is [ma_context_is_backend_asynchronous]; [r] is what the backend's
    [onDeviceStart] or [onDeviceStop] returns. [None]: the thread is blocked or idle. *)
Definition caller_step (async : bool) (r : ma_result) (t : nat) (s : sys) : option sys :=
  let go := set_caller s t in
  match callers s t with
  | C_idle _ => None
  | S_check_uninit =>
      Some (if is_state s ma_device_state_uninitialized then go (C_idle MA_INVALID_OPERATION)
            else go S_check_started)
  | S_check_started =>
      Some (if is_state s ma_device_state_started then go (C_idle MA_SUCCESS) else go S_lock)
  | S_lock =>
      match startStopLock s with
      | Some _ => None
      | None => Some (set_caller (set_lock s (Some t)) t S_recheck)
      end
  | S_recheck =>
      Some (if is_state s ma_device_state_started then go (S_unlock MA_SUCCESS)
            else go S_set_starting)
  | S_set_starting =>
      Some (set_caller (set_state s ma_device_state_starting) t
              (if async then S_backend_start else S_signal))
  | S_backend_start => Some (if r =? MA_SUCCESS then go S_set_started else go (S_set_stopped r))
  | S_set_started => Some (set_caller (set_state s ma_device_state_started) t (S_unlock MA_SUCCESS))
  | S_signal => Some (set_caller (set_events s true (startEvent s) (stopEvent s)) t S_wait)
  | S_wait =>
      if startEvent s
      then Some (set_caller (set_events s (wakeupEvent s) false (stopEvent s)) t S_result) else None
  | S_result =>
      Some (if workResult s =? MA_SUCCESS then go (S_unlock MA_SUCCESS)
            else go (S_set_stopped (workResult s)))
  | S_set_stopped e => Some (set_caller (set_state s ma_device_state_stopped) t (S_unlock e))
  | S_unlock e => Some (set_caller (set_lock s None) t (C_idle e))
  | T_check_uninit =>
      Some (if is_state s ma_device_state_uninitialized then go (C_idle MA_INVALID_OPERATION)
            else go T_check_stopped)
  | T_check_stopped =>
      Some (if is_state s ma_device_state_stopped then go (C_idle MA_SUCCESS) else go T_lock)
  | T_lock =>
      match startStopLock s with
      | Some _ => None
      | None => Some (set_caller (set_lock s (Some t)) t T_recheck)
      end
  | T_recheck =>
      Some (if is_state s ma_device_state_stopped then go (T_unlock MA_SUCCESS)
            else go T_set_stopping)
  | T_set_stopping =>
      Some (set_caller (set_state s ma_device_state_stopping) t
              (if async then T_backend_stop else T_wait))
  | T_backend_stop => Some (go (T_set_stopped r))
  | T_set_stopped e => Some (set_caller (set_state s ma_device_state_stopped) t (T_unlock e))
  | T_wait =>
      if stopEvent s
      then Some (set_caller (set_events s (wakeupEvent s) (startEvent s) false) t (T_unlock MA_SUCCESS))
      else None
  | T_unlock e => Some (set_caller (set_lock s None) t (C_idle e))
  end.

(** ** [ma_worker_thread]

    [r] is what [onDeviceStart] returns; [broken] says that the data loop ends although
    the device is started, as it does when reading or writing the device fails. *)
Definition worker_step (r : ma_result) (broken : bool) (s : sys) : option sys :=
  match worker s with
  | W_none | W_exit => None
  | W_wait =>
      if wakeupEvent s
      then Some (set_worker (set_events s false (startEvent s) (stopEvent s)) W_result) else None
  | W_result => Some (set_worker (set_result s MA_SUCCESS) W_check)
  | W_check =>
      Some (set_worker s (if is_state s ma_device_state_uninitialized then W_exit else W_start))
  | W_start => Some (set_worker s (if r =? MA_SUCCESS then W_set_started else W_failed r))
  | W_failed e => Some (set_worker (set_result s e) W_failed_signal)
  | W_failed_signal => Some (set_worker (set_events s (wakeupEvent s) true (stopEvent s)) W_wait)
  | W_set_started => Some (set_worker (set_state s ma_device_state_started) W_started_signal)
  | W_started_signal => Some (set_worker (set_events s (wakeupEvent s) true (stopEvent s)) W_notify)
  | W_notify => Some (set_worker s W_loop)
  | W_loop =>
      Some (set_worker s (if is_state s ma_device_state_started && negb broken then W_loop else W_stop))
  | W_stop => Some (set_worker s W_stop_check)
  | W_stop_check =>
      Some (set_worker s (if is_state s ma_device_state_uninitialized then W_exit else W_set_stopped))
  | W_set_stopped => Some (set_worker (set_state s ma_device_state_stopped) W_stopped_signal)
  | W_stopped_signal => Some (set_worker (set_events s (wakeupEvent s) (startEvent s) true) W_wait)
  end.

Definition entry (op : operation) : caller_pc :=
  match op with Start => S_check_uninit | Stop => T_check_uninit end.

(** [fragile]: whether the data loop may end by itself. *)
Inductive dev_step (async fragile : bool) : sys -> sys -> Prop :=
| step_call s t op e : callers s t = C_idle e -> dev_step async fragile s (set_caller s t (entry op))
| step_caller s t r s' : caller_step async r t s = Some s' -> dev_step async fragile s s'
| step_worker s r broken s' :
    (broken = true -> fragile = true) -> worker_step r broken s = Some s' ->
    dev_step async fragile s s'.

(** After [ma_device_init]: stopped, the worker waiting. *)
Definition dev_initial (async : bool) : sys :=
  mk_sys ma_device_state_stopped false false false None MA_SUCCESS
    (if async then W_none else W_wait) (fun _ => C_idle MA_SUCCESS).

Definition dev_reachable (async fragile : bool) (s : sys) : Prop :=
  rtc (dev_step async fragile) (dev_initial async) s.

(** ** The invariant *)

(** Between locking and unlocking. *)
Definition critical (c : caller_pc) : bool :=
  match c with
  | C_idle _ | S_check_uninit | S_check_started | S_lock | T_check_uninit | T_check_stopped
  | T_lock => false
  | _ => true
  end.

Section invariant.
Context (async : bool).

Definition idle_worker : worker_pc := if async then W_none else W_wait.

Definition no_events (s : sys) : Prop :=
  wakeupEvent s = false /\ startEvent s = false /\ stopEvent s = false.

(** The worker is in its data loop, or about to enter it. *)
Definition running (s : sys) : Prop :=
  if async then worker s = W_none else worker s = W_notify \/ worker s = W_loop.

Definition quiet_stopped (s : sys) : Prop :=
  state s = ma_device_state_stopped /\ worker s = idle_worker /\ no_events s.

Definition quiet_started (s : sys) : Prop :=
  state s = ma_device_state_started /\ running s /\ no_events s.

Definition starting_idle (s : sys) : Prop :=
  state s = ma_device_state_starting /\ worker s = idle_worker /\ no_events s.

(** The caller waits for the worker to start the device. *)
Definition waiting_start (s : sys) : Prop :=
  stopEvent s = false /\
  match worker s with
  | W_wait =>
      state s = ma_device_state_starting
      /\ (wakeupEvent s = true /\ startEvent s = false
          \/ wakeupEvent s = false /\ startEvent s = true /\ workResult s <> MA_SUCCESS)
  | W_result => state s = ma_device_state_starting /\ no_events s
  | W_check | W_start | W_set_started =>
      state s = ma_device_state_starting /\ no_events s /\ workResult s = MA_SUCCESS
  | W_failed e => state s = ma_device_state_starting /\ no_events s /\ e <> MA_SUCCESS
  | W_failed_signal =>
      state s = ma_device_state_starting /\ no_events s /\ workResult s <> MA_SUCCESS
  | W_started_signal => state s = ma_device_state_started /\ no_events s /\ workResult s = MA_SUCCESS
  | W_notify | W_loop =>
      state s = ma_device_state_started /\ wakeupEvent s = false /\ startEvent s = true
      /\ workResult s = MA_SUCCESS
  | _ => False
  end.

(** The caller waits for the worker to stop the device. *)
Definition waiting_stop (s : sys) : Prop :=
  wakeupEvent s = false /\ startEvent s = false /\
  match worker s with
  | W_notify | W_loop | W_stop | W_stop_check | W_set_stopped =>
      state s = ma_device_state_stopping /\ stopEvent s = false
  | W_stopped_signal => state s = ma_device_state_stopped /\ stopEvent s = false
  | W_wait => state s = ma_device_state_stopped /\ stopEvent s = true
  | _ => False
  end.

(** What holds while the owner of the lock is at [c]. *)
Definition phase (c : caller_pc) (s : sys) : Prop :=
  match c with
  | S_recheck | T_recheck => quiet_stopped s \/ quiet_started s
  | S_set_starting => quiet_stopped s
  | S_signal => starting_idle s /\ async = false
  | S_wait => waiting_start s /\ async = false
  | S_result =>
      async = false
      /\ (quiet_started s /\ workResult s = MA_SUCCESS
          \/ starting_idle s /\ workResult s <> MA_SUCCESS)
  | S_backend_start | S_set_started => starting_idle s /\ async = true
  | S_set_stopped e => starting_idle s /\ e <> MA_SUCCESS
  | S_unlock e => e = MA_SUCCESS /\ quiet_started s \/ e <> MA_SUCCESS /\ quiet_stopped s
  | T_set_stopping => quiet_started s
  | T_wait => waiting_stop s /\ async = false
  | T_backend_stop | T_set_stopped _ =>
      state s = ma_device_state_stopping /\ worker s = W_none /\ no_events s /\ async = true
  | T_unlock _ => quiet_stopped s
  | _ => False
  end.

Definition dev_state_inv (s : sys) : Prop :=
  match startStopLock s with
  | None => (quiet_stopped s \/ quiet_started s) /\ forall t, critical (callers s t) = false
  | Some t =>
      phase (callers s t) s /\ critical (callers s t) = true
      /\ forall t', t' <> t -> critical (callers s t') = false
  end.

End invariant.

Section preservation.
Context (async : bool).

Lemma dev_initial_inv : dev_state_inv async (dev_initial async).
Proof. split; [left|done]. by repeat split. Qed.

Ltac phases :=
  unfold quiet_stopped, quiet_started, starting_idle, waiting_start, waiting_stop, running,
    no_events, idle_worker, is_state in *; simpl in *.

(** The worker's steps keep what the owner of the lock, or its absence, relies on. *)
Lemma worker_step_phase r s s' :
  worker_step r false s = Some s' ->
  callers s' = callers s /\ startStopLock s' = startStopLock s
  /\ (quiet_stopped async s -> quiet_stopped async s') /\ (quiet_started async s -> quiet_started async s')
  /\ forall c, phase async c s -> phase async c s'.
Proof.
  destruct s as [st w1 w2 w3 l res wk cs]. unfold worker_step. simpl.
  intros H. destruct wk; simpl in H; phases; try done;
    try (destruct w1; [|done]); try case_bool_decide; simpl in H;
    try match type of H with context [r =? ?x] => destruct (Z.eqb_spec r x) end;
    injection H as <-; (split_and!; [done|done|..]); phases;
    try (intros c; destruct c; simpl; phases); destruct async; intuition congruence.
Qed.

Lemma phase_caller c s t x : phase async c (set_caller s t x) <-> phase async c s.
Proof. by destruct c. Qed.

Lemma quiet_caller s t x :
  quiet_stopped async (set_caller s t x) \/ quiet_started async (set_caller s t x)
  <-> quiet_stopped async s \/ quiet_started async s.
Proof. done. Qed.

(** A thread outside the lock moves. *)
Lemma inv_outside s t c :
  dev_state_inv async s -> critical (callers s t) = false -> critical c = false ->
  dev_state_inv async (set_caller s t c).
Proof.
  unfold dev_state_inv. simpl. intros Hinv Ht Hc. destruct (startStopLock s) as [t0|].
  - destruct Hinv as (Hp & Hcr & Ho). assert (t0 <> t) by congruence.
    rewrite fn_lookup_insert_ne by done. rewrite phase_caller. split_and!; try done.
    intros t' Hne. destruct (decide (t' = t)) as [->|].
    + by rewrite fn_lookup_insert.
    + rewrite fn_lookup_insert_ne by done. by apply Ho.
  - destruct Hinv as [Hq Ho]. split; [done|]. intros t'. destruct (decide (t' = t)) as [->|].
    + by rewrite fn_lookup_insert.
    + by rewrite fn_lookup_insert_ne.
Qed.

(** A thread inside the lock is its owner. *)
Lemma inv_owner s t :
  dev_state_inv async s -> critical (callers s t) = true ->
  startStopLock s = Some t /\ phase async (callers s t) s.
Proof.
  unfold dev_state_inv. intros Hinv Ht. destruct (startStopLock s) as [t0|].
  - destruct Hinv as (Hp & _ & Ho). destruct (decide (t = t0)) as [->|Hne]; [done|].
    rewrite Ho in Ht by done. done.
  - destruct Hinv as [_ Ho]. by rewrite Ho in Ht.
Qed.

(** What the owner's step must establish. *)
Lemma inv_owner_step s t s1 c :
  dev_state_inv async s -> critical (callers s t) = true -> callers s1 = callers s ->
  (startStopLock s1 = Some t -> critical c = true /\ phase async c s1) ->
  (startStopLock s1 = None -> critical c = false /\ (quiet_stopped async s1 \/ quiet_started async s1)) ->
  startStopLock s1 = Some t \/ startStopLock s1 = None ->
  dev_state_inv async (set_caller s1 t c).
Proof.
  intros Hinv Ht Hcs Hsome Hnone Hl. destruct (inv_owner s t Hinv Ht) as [Hlock _].
  unfold dev_state_inv in *. rewrite Hlock in Hinv. destruct Hinv as (_ & _ & Ho). simpl. rewrite Hcs.
  destruct Hl as [El|El]; rewrite El in *.
  - destruct (Hsome eq_refl) as [Hc Hp]. rewrite fn_lookup_insert, phase_caller. split_and!; try done.
    intros t' Hne. rewrite fn_lookup_insert_ne by done. by apply Ho.
  - destruct (Hnone eq_refl) as [Hc Hq]. split; [done|]. intros t'.
    destruct (decide (t' = t)) as [->|]; [by rewrite fn_lookup_insert|].
    rewrite fn_lookup_insert_ne by done. by apply Ho.
Qed.

Lemma inv_lock s t c :
  dev_state_inv async s -> startStopLock s = None -> critical c = true ->
  (quiet_stopped async s \/ quiet_started async s -> phase async c s) ->
  dev_state_inv async (set_caller (set_lock s (Some t)) t c).
Proof.
  unfold dev_state_inv. simpl. intros Hinv Hl Hc Hp. rewrite Hl in Hinv. destruct Hinv as [Hq Ho].
  rewrite fn_lookup_insert, phase_caller. split_and!; [|done|].
  - specialize (Hp Hq). by destruct c.
  - intros t' Hne. by rewrite fn_lookup_insert_ne.
Qed.

Lemma caller_step_inv r t s s' :
  caller_step async r t s = Some s' -> dev_state_inv async s -> dev_state_inv async s'.
Proof.
  intros H Hinv. unfold caller_step in H.
  destruct (callers s t) eqn:Et; try done;
    first [ assert (Hout : critical (callers s t) = false) by (by rewrite Et)
          | assert (Hin : critical (callers s t) = true) by (by rewrite Et);
            destruct (inv_owner s t Hinv Hin) as [Hl Hp]; rewrite Et in Hp; simpl in Hp ].
  all: try (destruct (startStopLock s) eqn:El; [done|]; injection H as <-;
            by apply inv_lock).
  all: try (injection H as <-; case_bool_decide || case_match; by apply inv_outside).
  all: repeat match type of H with
    | context [is_state _ _] => unfold is_state in H; case_bool_decide
    | context [?x =? ?y] => destruct (Z.eqb_spec x y)
    | context [if ?b then _ else _] => is_var b || destruct b eqn:?; [|done]
    end.
  all: injection H as <-; apply (inv_owner_step s t _ _ Hinv Hin); [done| | |simpl; rewrite ?Hl; by auto].
  all: simpl; rewrite ?Hl; try done; intros _; (split; [by destruct async|]).
  all: destruct s as [st w1 w2 w3 l res wk cs]; destruct async; simpl in *; phases;
    try solve [intuition congruence]; destruct wk; intuition congruence.
Qed.

Lemma dev_step_inv s s' : dev_step async false s s' -> dev_state_inv async s -> dev_state_inv async s'.
Proof.
  intros [s0 t op e Hc|s0 t r s1 H|s0 r broken s1 Hb H] Hinv.
  - apply inv_outside; [done|by rewrite Hc|by destruct op].
  - by apply (caller_step_inv r t s0).
  - destruct broken; [by specialize (Hb eq_refl)|].
    destruct (worker_step_phase r s0 s1 H) as (Ec & El & H1 & H2 & H3).
    unfold dev_state_inv in *. rewrite Ec, El. destruct (startStopLock s0) as [t|].
    + destruct Hinv as (Hp & Hcr & Ho). split_and!; auto.
    + destruct Hinv as [Hq Ho]. split; [|done]. destruct Hq; auto.
Qed.

Lemma dev_reachable_inv s : dev_reachable async false s -> dev_state_inv async s.
Proof.
  unfold dev_reachable. intros H. remember (dev_initial async) as s0.
  assert (H0 : dev_state_inv async s0) by (subst; apply dev_initial_inv). clear Heqs0.
  induction H as [|s0 s1 s2 Hs _ IH]; [done|]. apply IH. by apply (dev_step_inv s0).
Qed.

Lemma start_state s :
  dev_state_inv async s -> worker s = W_start -> state s = ma_device_state_starting.
Proof.
  unfold dev_state_inv. destruct s as [st w1 w2 w3 l res wk cs]. simpl. intros Hinv ->.
  destruct l as [t|].
  - destruct Hinv as (Hp & _ & _).
    destruct (cs t); simpl in Hp; destruct async; phases; intuition congruence.
  - destruct Hinv as [Hq _]. destruct async; phases; intuition congruence.
Qed.

(** ** Progress of the owner *)

(** A step of thread [t] or of the worker. *)
Inductive own_step (t : nat) : sys -> sys -> Prop :=
| own_caller s r s' : caller_step async r t s = Some s' -> own_step t s s'
| own_worker s r s' : worker_step r false s = Some s' -> own_step t s s'.

Lemma own_step_step t s s' : own_step t s s' -> dev_step async false s s'.
Proof.
  intros [s0 r s1 H|s0 r s1 H].
  - by apply (step_caller _ _ _ t r).
  - by apply (step_worker _ _ _ r false).
Qed.

Definition caller_rank (c : caller_pc) : nat :=
  match c with
  | S_recheck | T_recheck => 10
  | S_set_starting | T_set_stopping => 9
  | S_signal | S_backend_start | T_wait | T_backend_stop => 8
  | S_wait | S_set_started | T_set_stopped _ => 7
  | S_result => 6
  | S_set_stopped _ => 5
  | S_unlock _ | T_unlock _ => 4
  | _ => 0
  end.

Definition worker_rank (s : sys) : nat :=
  match worker s with
  | W_wait => if wakeupEvent s then 20 else 0
  | W_result => 19 | W_check => 18 | W_start => 17
  | W_failed _ | W_set_started => 16
  | W_failed_signal | W_started_signal => 15
  | W_notify => 14 | W_loop => 13 | W_stop => 12 | W_stop_check => 11
  | W_set_stopped => 10 | W_stopped_signal => 9
  | _ => 0
  end.

Definition owner_rank (t : nat) (s : sys) : nat :=
  30 * caller_rank (callers s t) + worker_rank s.

Definition owner_advances (t : nat) (s : sys) : Prop :=
  exists s', own_step t s s' /\ (startStopLock s' = None /\ (exists e, callers s' t = C_idle e)
    \/ startStopLock s' = Some t /\ (owner_rank t s' < owner_rank t s)%nat).

(** The thread itself can move, or the worker can. *)
Lemma owner_step s t :
  dev_state_inv async s -> startStopLock s = Some t -> owner_advances t s.
Proof.
  intros Hinv Hl. unfold dev_state_inv in Hinv. rewrite Hl in Hinv. destruct Hinv as (Hp & _ & _).
  destruct s as [st w1 w2 w3 l res wk cs]. simpl in Hl, Hp. subst l.
  assert (Hw : forall s', worker_step MA_SUCCESS false
      (mk_sys st w1 w2 w3 (Some t) res wk cs) = Some s' ->
    startStopLock s' = Some t -> callers s' = cs ->
    (worker_rank s' < worker_rank (mk_sys st w1 w2 w3 (Some t) res wk cs))%nat ->
    owner_advances t (mk_sys st w1 w2 w3 (Some t) res wk cs)).
  { intros s' E El Ec Hr. exists s'. split; [by apply (own_worker _ _ MA_SUCCESS)|]. right.
    split; [done|]. unfold owner_rank. rewrite Ec. simpl callers. lia. }
  assert (Hc : forall s1 c, caller_step async MA_SUCCESS t
      (mk_sys st w1 w2 w3 (Some t) res wk cs) = Some (set_caller s1 t c) ->
    startStopLock s1 = Some t -> (caller_rank c < caller_rank (cs t))%nat ->
    owner_advances t (mk_sys st w1 w2 w3 (Some t) res wk cs)).
  { intros s1 c E El Hr. exists (set_caller s1 t c). split; [by apply (own_caller _ _ MA_SUCCESS)|].
    right. split; [done|]. unfold owner_rank. simpl callers. rewrite fn_lookup_insert.
    assert (worker_rank (set_caller s1 t c) <= 20)%nat
      by (unfold worker_rank; repeat case_match; lia). lia. }
  assert (Hu : forall e s1, caller_step async MA_SUCCESS t
      (mk_sys st w1 w2 w3 (Some t) res wk cs) = Some (set_caller s1 t (C_idle e)) ->
    startStopLock s1 = None -> owner_advances t (mk_sys st w1 w2 w3 (Some t) res wk cs)).
  { intros e s1 E El. exists (set_caller s1 t (C_idle e)).
    split; [by apply (own_caller _ _ MA_SUCCESS)|]. left. split; [done|].
    exists e. simpl. by rewrite fn_lookup_insert. }
  destruct (cs t) eqn:Et; simpl in Hp; try done.
  all: try (eapply Hu; [unfold caller_step; simpl; by rewrite Et|done]).
  all: try match goal with
    | _ : _ = S_wait |- _ => destruct w2
    | _ : _ = T_wait |- _ => destruct w3
    end.
  all: try solve [eapply Hc;
    [ unfold caller_step, is_state; simpl; rewrite Et;
      first [reflexivity | case_bool_decide; reflexivity | case_match; reflexivity]
    | done | simpl; first [lia | destruct async; simpl; lia] ]].
  all: try (unfold caller_step, is_state in Hc; simpl in Hc; rewrite Et in Hc;
    first [ case_bool_decide | destruct (Z.eqb_spec res MA_SUCCESS) ];
    by (eapply Hc; [reflexivity|done|simpl; lia])).
  all: destruct Hp as [Hp _]; unfold waiting_start, waiting_stop, no_events, is_state in *; simpl in Hp.
  all: destruct wk; simpl in Hp; try (exfalso; intuition congruence).
  all: destruct_and?; destruct_or?; destruct_and?; simplify_eq.
  all: eapply Hw; [reflexivity|done|done|unfold worker_rank; simpl; lia].
Qed.

(** The owner and the worker together bring a call to its end. *)
Lemma owner_finishes s t :
  dev_state_inv async s -> startStopLock s = Some t ->
  exists s' e, rtc (own_step t) s s' /\ startStopLock s' = None /\ callers s' t = C_idle e.
Proof.
  remember (owner_rank t s) as n eqn:En. revert s En.
  induction (lt_wf n) as [n _ IH]. intros s -> Hinv Hl.
  destruct (owner_step s t Hinv Hl) as (s1 & Hs & [[Hn [e He]]|[Hl1 Hr]]).
  - exists s1, e. split; [by apply rtc_once|done].
  - assert (Hinv1 : dev_state_inv async s1) by (eapply dev_step_inv; [by eapply own_step_step|done]).
    destruct (IH _ Hr s1 eq_refl Hinv1 Hl1) as (s' & e & H & Hn & He).
    exists s', e. split; [by apply (rtc_l _ _ s1)|done].
Qed.
End preservation.

(** ** Schedules *)

Inductive act :=
| A_call (t : nat) (op : operation)
| A_caller (t : nat) (r : ma_result)
| A_worker (r : ma_result) (broken : bool).

Definition exec_act (async : bool) (s : sys) (a : act) : option sys :=
  match a with
  | A_call t op =>
      match callers s t with C_idle _ => Some (set_caller s t (entry op)) | _ => None end
  | A_caller t r => caller_step async r t s
  | A_worker r broken => worker_step r broken s
  end.

Fixpoint exec_acts (async : bool) (s : sys) (l : list act) : option sys :=
  match l with
  | [] => Some s
  | a :: l => match exec_act async s a with Some s => exec_acts async s l | None => None end
  end.

Definition robust (a : act) : bool := match a with A_worker _ true => false | _ => true end.

Lemma exec_acts_sound async fragile l s s' :
  fragile = true \/ forallb robust l = true ->
  exec_acts async s l = Some s' -> rtc (dev_step async fragile) s s'.
Proof.
  revert s. induction l as [|a l IH]; intros s Hf; simpl.
  - intros [= <-]. constructor.
  - destruct (exec_act async s a) as [s1|] eqn:E; [|done]. intros H.
    apply (rtc_l _ _ s1).
    + destruct a as [t op|t r|r broken]; simpl in E.
      * destruct (callers s t) eqn:Ec; try done. injection E as <-. by apply (step_call _ _ s t op last).
      * by apply (step_caller _ _ s t r).
      * apply (step_worker _ _ s r broken); [|done]. intros ->. by destruct Hf.
    + apply IH; [|done]. destruct Hf as [|Hf]; [by left|]. right. simpl in Hf.
      by apply andb_true_iff in Hf as [_ ?].
Qed.

(** Thread [t] runs [n] steps; the worker runs [n] steps. *)
Definition steps (t n : nat) : list act := replicate n (A_caller t MA_SUCCESS).
Definition worker_steps (n : nat) : list act := replicate n (A_worker MA_SUCCESS false).

(** Thread 0 starts the device. *)
Definition start_schedule : list act :=
  A_call 0 Start :: steps 0 6 ++ worker_steps 7 ++ steps 0 2.

Definition after (async : bool) (l : list act) : sys :=
  default (dev_initial async) (exec_acts async (dev_initial async) l).

Definition runs (async : bool) (l : list act) : bool :=
  match exec_acts async (dev_initial async) l with Some _ => true | None => false end.

Lemma after_reachable async fragile l :
  fragile = true \/ forallb robust l = true -> runs async l = true ->
  dev_reachable async fragile (after async l).
Proof.
  unfold runs, after. destruct (exec_acts _ _ l) as [s|] eqn:E; [|done]. intros Hf _.
  by apply (exec_acts_sound async fragile l).
Qed.

(** ** Properties *)





(** A device that stops by itself, is started again by thread 0 and stopped by thread 1. *)
Definition broken_schedule : list act :=
  start_schedule ++ [A_caller 0 MA_SUCCESS; A_worker MA_SUCCESS true] ++ worker_steps 4
  ++ start_schedule ++ [A_caller 0 MA_SUCCESS] ++ A_call 1 Stop :: steps 1 6.

(** C35. When the data loop of a device ends by itself, the worker signals the stop event
    with nobody waiting for it. If the device is then started and stopped again,
    [ma_device_stop] takes that old signal for the answer to its own request: it
    returns success while the worker is still in its data loop and the state is still
    [ma_device_state_stopping]. *)
Theorem device_stop_returns_early :
  exists s, dev_reachable false true s
    /\ callers s 1%nat = T_unlock MA_SUCCESS
    /\ state s = ma_device_state_stopping /\ worker s = W_loop.
Proof.
  exists (after false broken_schedule). split; [|by vm_compute].
  apply after_reachable; [by left|by vm_compute].
Qed.
