(* ===== verification/Biquad.v ===== *)
(** * Second-order filters (miniaudio.h, [ma_biquad])

    The biquad filter that the low-pass filters are made of, in its two formats: 32-bit
    floats, and 16-bit integers in fixed point with 14 fractional bits.

    A coefficient or register is the union [ma_biquad_coefficient], four bytes read as
    a [float] or as an [ma_int32]: here its 32-bit word.  A sample in a buffer is a [Z]:
    the word of a [float], or the value of an [ma_int16].  The registers, one per
    channel, live in the heap block of the filter: here two lists. *)
From Stdlib Require Import ZArith Lia Bool SpecFloat.
From stdpp Require Import base numbers list option.
From S2P Require Import Prelude MaTypes CFloat.

Local Open Scope Z_scope.

Definition MA_BIQUAD_FIXED_POINT_SHIFT : Z := 14.

(** The union [ma_biquad_coefficient] *)
Abbreviation ma_biquad_coefficient := Z (only parsing).
Definition co_f32 (w : ma_biquad_coefficient) : spec_float := f32_of_bits w.
Definition co_s32 (w : ma_biquad_coefficient) : Z := s32 w.
Definition of_f32 (f : spec_float) : ma_biquad_coefficient := bits_of_f32 f.
Definition of_s32 (z : Z) : ma_biquad_coefficient := u32 z.
Definition sizeof_ma_biquad_coefficient : Z := 4.

(** [None]: the conversion is undefined, the value does not fit. *)
Definition ma_biquad_float_to_fp (x : spec_float) : option Z :=
  sf_to_s 32 (f64_mul x (f64_of_Z (2 ^ MA_BIQUAD_FIXED_POINT_SHIFT))).

Record ma_biquad_config := mk_biquad_config {
  bqc_format : ma_format;
  bqc_channels : Z;
  bqc_b0 : spec_float; bqc_b1 : spec_float; bqc_b2 : spec_float;
  bqc_a0 : spec_float; bqc_a1 : spec_float; bqc_a2 : spec_float }.

Definition ma_biquad_config_init (format : ma_format) (channels : Z)
    (b0 b1 b2 a0 a1 a2 : spec_float) : ma_biquad_config :=
  mk_biquad_config format channels b0 b1 b2 a0 a1 a2.

Record ma_biquad := mk_biquad {
  bq_format : ma_format;
  bq_channels : Z;
  bq_b0 : ma_biquad_coefficient; bq_b1 : ma_biquad_coefficient; bq_b2 : ma_biquad_coefficient;
  bq_a1 : ma_biquad_coefficient; bq_a2 : ma_biquad_coefficient;
  bq_pR1 : list ma_biquad_coefficient;
  bq_pR2 : list ma_biquad_coefficient }.

(** [MA_ZERO_OBJECT] *)
Definition ma_biquad_zero : ma_biquad := mk_biquad ma_format_unknown 0 0 0 0 0 0 [] [].

Definition bq_with_registers (bq : ma_biquad) (r1 r2 : list ma_biquad_coefficient) : ma_biquad :=
  mk_biquad (bq_format bq) (bq_channels bq) (bq_b0 bq) (bq_b1 bq) (bq_b2 bq) (bq_a1 bq) (bq_a2 bq)
    r1 r2.

(** ** The heap block *)

Record ma_biquad_heap_layout := mk_biquad_layout {
  bql_sizeInBytes : Z;
  bql_r1Offset : Z;
  bql_r2Offset : Z }.

Definition ma_align_64 (x : Z) : Z := ma_align x 8.

Definition ma_biquad_get_heap_layout (pConfig : option ma_biquad_config)
    : ma_result * ma_biquad_heap_layout :=
  match pConfig with
  | None => (MA_INVALID_ARGS, mk_biquad_layout 0 0 0)
  | Some c =>
      if bqc_channels c =? 0 then (MA_INVALID_ARGS, mk_biquad_layout 0 0 0)
      else
        let r1Offset := 0 in
        let r2Offset := u64 (0 + u64 (sizeof_ma_biquad_coefficient * bqc_channels c)) in
        let size := u64 (r2Offset + u64 (sizeof_ma_biquad_coefficient * bqc_channels c)) in
        (MA_SUCCESS, mk_biquad_layout (ma_align_64 size) r1Offset r2Offset)
  end.

(** Returns the result and [*pHeapSizeInBytes]. *)
Definition ma_biquad_get_heap_size (pConfig : option ma_biquad_config) : ma_result * Z :=
  let '(result, layout) := ma_biquad_get_heap_layout pConfig in
  if result =? MA_SUCCESS then (MA_SUCCESS, bql_sizeInBytes layout) else (result, 0).

(** ** Initialisation *)

Definition bq_set_coefficients (bq : ma_biquad) (c : ma_biquad_config)
    (b0 b1 b2 a1 a2 : ma_biquad_coefficient) : ma_biquad :=
  mk_biquad (bqc_format c) (bqc_channels c) b0 b1 b2 a1 a2 (bq_pR1 bq) (bq_pR2 bq).

(** [None]: a coefficient does not fit the fixed-point format. *)
Definition ma_biquad_reinit (pConfig : ma_biquad_config) (pBQ : ma_biquad)
    : option (ma_result * ma_biquad) :=
  let a0 := bqc_a0 pConfig in
  if SFeqb a0 (f64_of_Z 0) then Some (MA_INVALID_ARGS, pBQ)
  else if bool_decide (bqc_format pConfig <> ma_format_f32)
       && bool_decide (bqc_format pConfig <> ma_format_s16) then Some (MA_INVALID_ARGS, pBQ)
  else if bool_decide (bq_format pBQ <> ma_format_unknown)
       && bool_decide (bq_format pBQ <> bqc_format pConfig) then Some (MA_INVALID_OPERATION, pBQ)
  else if negb (bq_channels pBQ =? 0) && negb (bq_channels pBQ =? bqc_channels pConfig)
       then Some (MA_INVALID_OPERATION, pBQ)
  else
    let b0 := f64_div (bqc_b0 pConfig) a0 in
    let b1 := f64_div (bqc_b1 pConfig) a0 in
    let b2 := f64_div (bqc_b2 pConfig) a0 in
    let a1 := f64_div (bqc_a1 pConfig) a0 in
    let a2 := f64_div (bqc_a2 pConfig) a0 in
    if decide (bqc_format pConfig = ma_format_f32) then
      let fl x := of_f32 (f32_of_f64 x) in
      Some (MA_SUCCESS, bq_set_coefficients pBQ pConfig (fl b0) (fl b1) (fl b2) (fl a1) (fl a2))
    else
      match ma_biquad_float_to_fp b0, ma_biquad_float_to_fp b1, ma_biquad_float_to_fp b2,
            ma_biquad_float_to_fp a1, ma_biquad_float_to_fp a2 with
      | Some b0, Some b1, Some b2, Some a1, Some a2 =>
          Some (MA_SUCCESS, bq_set_coefficients pBQ pConfig
                  (of_s32 b0) (of_s32 b1) (of_s32 b2) (of_s32 a1) (of_s32 a2))
      | _, _, _, _, _ => None
      end.

(** The heap block is zeroed, so all registers are 0. *)
Definition ma_biquad_init_preallocated (pConfig : ma_biquad_config)
    : option (ma_result * ma_biquad) :=
  let '(result, layout) := ma_biquad_get_heap_layout (Some pConfig) in
  if result =? MA_SUCCESS then
    ma_biquad_reinit pConfig
      (bq_with_registers ma_biquad_zero (zrep (bqc_channels pConfig) 0) (zrep (bqc_channels pConfig) 0))
  else Some (result, ma_biquad_zero).

(** [malloc n] says whether the allocator returns a block of [n] bytes. *)
Definition ma_biquad_init (malloc : Z -> bool) (pConfig : ma_biquad_config)
    : option (ma_result * ma_biquad) :=
  let '(result, size) := ma_biquad_get_heap_size (Some pConfig) in
  if result =? MA_SUCCESS then
    if (size >? 0) && negb (malloc size) then Some (MA_OUT_OF_MEMORY, ma_biquad_zero)
    else ma_biquad_init_preallocated pConfig
  else Some (result, ma_biquad_zero).

(** Only the registers [pR1[0]] and [pR2[0]] are cleared. *)
Definition ma_biquad_clear_cache (pBQ : ma_biquad) : ma_result * ma_biquad :=
  let clear r :=
    if decide (bq_format pBQ = ma_format_f32) then <[0%nat := of_f32 f32_zero]> r
    else <[0%nat := of_s32 0]> r in
  (MA_SUCCESS, bq_with_registers pBQ (clear (bq_pR1 pBQ)) (clear (bq_pR2 pBQ))).

(** ** Filtering *)

(** One channel: [y] and the new registers. *)
Definition biquad_channel_f32 (bq : ma_biquad) (x r1 r2 : Z) : Z * Z * Z :=
  let b0 := co_f32 (bq_b0 bq) in
  let b1 := co_f32 (bq_b1 bq) in
  let b2 := co_f32 (bq_b2 bq) in
  let a1 := co_f32 (bq_a1 bq) in
  let a2 := co_f32 (bq_a2 bq) in
  let r1 := co_f32 r1 in
  let r2 := co_f32 r2 in
  let x := f32_of_bits x in
  let y := f32_add (f32_mul b0 x) r1 in
  let r1 := f32_add (f32_sub (f32_mul b1 x) (f32_mul a1 y)) r2 in
  let r2 := f32_sub (f32_mul b2 x) (f32_mul a2 y) in
  (bits_of_f32 y, of_f32 r1, of_f32 r2).

Definition biquad_channel_s16 (bq : ma_biquad) (x r1 r2 : Z) : Z * Z * Z :=
  let b0 := co_s32 (bq_b0 bq) in
  let b1 := co_s32 (bq_b1 bq) in
  let b2 := co_s32 (bq_b2 bq) in
  let a1 := co_s32 (bq_a1 bq) in
  let a2 := co_s32 (bq_a2 bq) in
  let r1 := co_s32 r1 in
  let r2 := co_s32 r2 in
  let y := Z.shiftr (s32 (s32 (b0 * x) + r1)) MA_BIQUAD_FIXED_POINT_SHIFT in
  let r1 := s32 (s32 (s32 (b1 * x) - s32 (a1 * y)) + r2) in
  let r2 := s32 (s32 (b2 * x) - s32 (a2 * y)) in
  (s16 (ma_clamp y (-32768) 32767), of_s32 r1, of_s32 r2).

(** The loop over the channels of a frame; sample [c] is read before it is written, so
    it may be done in place. *)
Fixpoint biquad_channels (channel : Z -> Z -> Z -> Z * Z * Z) (x r1 r2 : list Z)
    : list Z * list Z * list Z :=
  match x, r1, r2 with
  | x0 :: x, u :: r1, v :: r2 =>
      let '(y, u, v) := channel x0 u v in
      let '(ys, r1, r2) := biquad_channels channel x r1 r2 in
      (y :: ys, u :: r1, v :: r2)
  | _, _, _ => ([], r1, r2)
  end.

(** [pX] is one frame. *)
Definition biquad_frame (channel : ma_biquad -> Z -> Z -> Z -> Z * Z * Z) (pBQ : ma_biquad)
    (pX : list Z) : list Z * ma_biquad :=
  let '(y, r1, r2) := biquad_channels (channel pBQ) pX (bq_pR1 pBQ) (bq_pR2 pBQ) in
  (y, bq_with_registers pBQ r1 r2).

Definition ma_biquad_process_pcm_frame_f32 (pBQ : ma_biquad) (pX : list Z) : list Z * ma_biquad :=
  biquad_frame biquad_channel_f32 pBQ pX.

Definition ma_biquad_process_pcm_frame_s16 (pBQ : ma_biquad) (pX : list Z) : list Z * ma_biquad :=
  biquad_frame biquad_channel_s16 pBQ pX.

(** A loop over [n] frames of [channels] samples. *)
Fixpoint frames_loop {F} (channels : Z) (step : F -> list Z -> list Z * F) (n : nat) (f : F)
    (pX : list Z) : list Z * F :=
  match n with
  | O => ([], f)
  | S n =>
      let '(y, f) := step f (take (Z.to_nat channels) pX) in
      let '(ys, f) := frames_loop channels step n f (drop (Z.to_nat channels) pX) in
      (y ++ ys, f)
  end.

(** Returns the samples written. [None]: the loop counter has 32 bits and never reaches
    [frameCount]. *)
Definition ma_biquad_process_pcm_frames (pBQ : ma_biquad) (pFramesIn : list Z) (frameCount : Z)
    : option (ma_result * list Z * ma_biquad) :=
  let run step :=
    if frameCount <? 2 ^ 32 then
      let '(y, bq) := frames_loop (bq_channels pBQ) step (Z.to_nat frameCount) pBQ pFramesIn in
      Some (MA_SUCCESS, y, bq)
    else None in
  match bq_format pBQ with
  | ma_format_f32 => run ma_biquad_process_pcm_frame_f32
  | ma_format_s16 => run ma_biquad_process_pcm_frame_s16
  | _ => Some (MA_INVALID_ARGS, [], pBQ)
  end.

Definition ma_biquad_get_latency : Z := 2.
