(* ===== verification/LowPass.v ===== *)
(** * Low-pass filters (miniaudio.h, [ma_lpf1], [ma_lpf2], [ma_lpf])

    A low-pass filter of order 0 to 8 is a cascade of at most one first-order filter
    followed by second-order filters, which are biquads.  [exp] and [sin] of the C library
    are parameters.  Buffers are lists of samples as in [Biquad.v]. *)
From Stdlib Require Import ZArith Lia Bool SpecFloat.
From stdpp Require Import base numbers list option.
From S2P Require Import Prelude MaTypes CFloat Biquad.

Local Open Scope Z_scope.

Definition MA_PI_D : spec_float := f64_lit 314159265358979323846264 (10 ^ 23).

(** The C library *)
Record libm := mk_libm { lm_exp : spec_float -> spec_float; lm_sin : spec_float -> spec_float }.

Record ma_lpf1_config := mk_lpf1_config {
  l1c_format : ma_format;
  l1c_channels : Z;
  l1c_sampleRate : Z;
  l1c_cutoffFrequency : spec_float;
  l1c_q : spec_float }.

Definition ma_lpf2_config := ma_lpf1_config.

Definition ma_lpf1_config_init (format : ma_format) (channels sampleRate : Z)
    (cutoffFrequency : spec_float) : ma_lpf1_config :=
  mk_lpf1_config format channels sampleRate cutoffFrequency (f64_lit 1 2).

Definition ma_lpf2_config_init (format : ma_format) (channels sampleRate : Z)
    (cutoffFrequency q : spec_float) : ma_lpf2_config :=
  mk_lpf1_config format channels sampleRate cutoffFrequency
    (if SFeqb q (f64_of_Z 0) then f64_lit 707107 1000000 else q).

Record ma_lpf1 := mk_lpf1 {
  l1_format : ma_format;
  l1_channels : Z;
  l1_a : ma_biquad_coefficient;
  l1_pR1 : list ma_biquad_coefficient }.

Record ma_lpf2 := mk_lpf2 { l2_bq : ma_biquad }.

Definition ma_lpf1_zero : ma_lpf1 := mk_lpf1 ma_format_unknown 0 0 [].
Definition ma_lpf2_zero : ma_lpf2 := mk_lpf2 ma_biquad_zero.

(** 64-bit layouts of the two structures *)
Definition sizeof_ma_lpf1 : Z := 40.
Definition sizeof_ma_lpf2 : Z := 64.

Record ma_lpf_config := mk_lpf_config {
  lc_format : ma_format;
  lc_channels : Z;
  lc_sampleRate : Z;
  lc_cutoffFrequency : spec_float;
  lc_order : Z }.

Definition ma_lpf_config_init (format : ma_format) (channels sampleRate : Z)
    (cutoffFrequency : spec_float) (order : Z) : ma_lpf_config :=
  mk_lpf_config format channels sampleRate cutoffFrequency (ma_min order MA_MAX_FILTER_ORDER).

Record ma_lpf := mk_lpf {
  lpf_format : ma_format;
  lpf_channels : Z;
  lpf_sampleRate : Z;
  lpf1Count : Z;
  lpf2Count : Z;
  pLPF1 : list ma_lpf1;
  pLPF2 : list ma_lpf2 }.

Definition ma_lpf_zero : ma_lpf := mk_lpf ma_format_unknown 0 0 0 0 [] [].

(** ** First order *)

Record ma_lpf1_heap_layout := mk_lpf1_layout { l1l_sizeInBytes : Z; l1l_r1Offset : Z }.

Definition ma_lpf1_get_heap_layout (pConfig : option ma_lpf1_config)
    : ma_result * ma_lpf1_heap_layout :=
  match pConfig with
  | None => (MA_INVALID_ARGS, mk_lpf1_layout 0 0)
  | Some c =>
      if l1c_channels c =? 0 then (MA_INVALID_ARGS, mk_lpf1_layout 0 0)
      else (MA_SUCCESS,
            mk_lpf1_layout (ma_align_64 (u64 (sizeof_ma_biquad_coefficient * l1c_channels c))) 0)
  end.

(** [*pHeapSizeInBytes] is left alone when the configuration is refused. *)
Definition ma_lpf1_get_heap_size (pConfig : option ma_lpf1_config) : ma_result * option Z :=
  let '(result, layout) := ma_lpf1_get_heap_layout pConfig in
  if result =? MA_SUCCESS then (MA_SUCCESS, Some (l1l_sizeInBytes layout)) else (result, None).

Section reinit.
Context (lm : libm).

Definition ma_expd (x : spec_float) : spec_float := lm_exp lm x.
Definition ma_sind (x : spec_float) : spec_float := lm_sin lm x.
Definition ma_cosd (x : spec_float) : spec_float :=
  ma_sind (f64_sub (f64_mul MA_PI_D (f64_lit 1 2)) x).

(** [None]: the coefficient does not fit the fixed-point format. *)
Definition ma_lpf1_reinit (pConfig : ma_lpf1_config) (pLPF : ma_lpf1)
    : option (ma_result * ma_lpf1) :=
  if bool_decide (l1c_format pConfig <> ma_format_f32)
     && bool_decide (l1c_format pConfig <> ma_format_s16) then Some (MA_INVALID_ARGS, pLPF)
  else if bool_decide (l1_format pLPF <> ma_format_unknown)
       && bool_decide (l1_format pLPF <> l1c_format pConfig) then Some (MA_INVALID_OPERATION, pLPF)
  else if negb (l1_channels pLPF =? 0) && negb (l1_channels pLPF =? l1c_channels pConfig)
       then Some (MA_INVALID_OPERATION, pLPF)
  else
    let a := ma_expd (f64_div (f64_mul (f64_mul (f64_of_Z (-2)) MA_PI_D) (l1c_cutoffFrequency pConfig))
                       (f64_of_Z (l1c_sampleRate pConfig))) in
    let set a := mk_lpf1 (l1c_format pConfig) (l1c_channels pConfig) a (l1_pR1 pLPF) in
    if decide (l1c_format pConfig = ma_format_f32) then
      Some (MA_SUCCESS, set (of_f32 (f32_of_f64 a)))
    else
      match ma_biquad_float_to_fp a with
      | Some a => Some (MA_SUCCESS, set (of_s32 a))
      | None => None
      end.

Definition ma_lpf1_init_preallocated (pConfig : ma_lpf1_config) : option (ma_result * ma_lpf1) :=
  let '(result, layout) := ma_lpf1_get_heap_layout (Some pConfig) in
  if result =? MA_SUCCESS then
    ma_lpf1_reinit pConfig (mk_lpf1 ma_format_unknown 0 0 (zrep (l1c_channels pConfig) 0))
  else Some (result, ma_lpf1_zero).

Definition ma_lpf1_init (malloc : Z -> bool) (pConfig : ma_lpf1_config)
    : option (ma_result * ma_lpf1) :=
  match ma_lpf1_get_heap_size (Some pConfig) with
  | (_, Some size) =>
      if (size >? 0) && negb (malloc size) then Some (MA_OUT_OF_MEMORY, ma_lpf1_zero)
      else ma_lpf1_init_preallocated pConfig
  | (result, None) => Some (result, ma_lpf1_zero)
  end.

(** ** Second order *)

Definition ma_lpf2__get_biquad_config (pConfig : ma_lpf2_config) : ma_biquad_config :=
  let one := f64_of_Z 1 in
  let two := f64_of_Z 2 in
  let q := l1c_q pConfig in
  let w := f64_div (f64_mul (f64_mul two MA_PI_D) (l1c_cutoffFrequency pConfig))
             (f64_of_Z (l1c_sampleRate pConfig)) in
  let s := ma_sind w in
  let c := ma_cosd w in
  let a := f64_div s (f64_mul two q) in
  mk_biquad_config (l1c_format pConfig) (l1c_channels pConfig)
    (f64_div (f64_sub one c) two) (f64_sub one c) (f64_div (f64_sub one c) two)
    (f64_add one a) (f64_mul (f64_of_Z (-2)) c) (f64_sub one a).

Definition ma_lpf2_get_heap_size (pConfig : ma_lpf2_config) : ma_result * Z :=
  ma_biquad_get_heap_size (Some (ma_lpf2__get_biquad_config pConfig)).

Definition on_bq (r : option (ma_result * ma_biquad)) : option (ma_result * ma_lpf2) :=
  match r with Some (result, bq) => Some (result, mk_lpf2 bq) | None => None end.

Definition ma_lpf2_init_preallocated (pConfig : ma_lpf2_config) : option (ma_result * ma_lpf2) :=
  on_bq (ma_biquad_init_preallocated (ma_lpf2__get_biquad_config pConfig)).

Definition ma_lpf2_init (malloc : Z -> bool) (pConfig : ma_lpf2_config)
    : option (ma_result * ma_lpf2) :=
  let '(result, size) := ma_lpf2_get_heap_size pConfig in
  if result =? MA_SUCCESS then
    if (size >? 0) && negb (malloc size) then Some (MA_OUT_OF_MEMORY, ma_lpf2_zero)
    else ma_lpf2_init_preallocated pConfig
  else Some (result, ma_lpf2_zero).

Definition ma_lpf2_reinit (pConfig : ma_lpf2_config) (pLPF : ma_lpf2)
    : option (ma_result * ma_lpf2) :=
  on_bq (ma_biquad_reinit (ma_lpf2__get_biquad_config pConfig) (l2_bq pLPF)).

(** ** Any order *)

Record ma_lpf_heap_layout := mk_lpf_layout {
  ll_sizeInBytes : Z;
  ll_lpf1Offset : Z;
  ll_lpf2Offset : Z }.

(** Returns [*pLPF1Count] and [*pLPF2Count]. *)
Definition ma_lpf_calculate_sub_lpf_counts (order : Z) : Z * Z := (order mod 2, order / 2).

Definition lpf1_config_of (c : ma_lpf_config) : ma_lpf1_config :=
  ma_lpf1_config_init (lc_format c) (lc_channels c) (lc_sampleRate c) (lc_cutoffFrequency c).

(** Adds [n] times the structure and heap sizes of a filter. *)
Fixpoint layout_loop (n : nat) (struct heap sizeInBytes : Z) : Z :=
  match n with
  | O => sizeInBytes
  | S n => layout_loop n struct heap (u64 (sizeInBytes + u64 (struct + heap)))
  end.

(** The sizes of the sub-filters depend on the number of channels alone, which is not 0,
    so asking for them cannot fail. *)
Definition ma_lpf_get_heap_layout (pConfig : option ma_lpf_config)
    : ma_result * ma_lpf_heap_layout :=
  match pConfig with
  | None => (MA_INVALID_ARGS, mk_lpf_layout 0 0 0)
  | Some c =>
      if lc_channels c =? 0 then (MA_INVALID_ARGS, mk_lpf_layout 0 0 0)
      else if lc_order c >? MA_MAX_FILTER_ORDER then (MA_INVALID_ARGS, mk_lpf_layout 0 0 0)
      else
        let '(count1, count2) := ma_lpf_calculate_sub_lpf_counts (lc_order c) in
        let heap1 := default 0 (snd (ma_lpf1_get_heap_size (Some (lpf1_config_of c)))) in
        let heap2 := snd (ma_lpf2_get_heap_size
          (ma_lpf2_config_init (lc_format c) (lc_channels c) (lc_sampleRate c) (lc_cutoffFrequency c)
             (f64_lit 707107 1000000))) in
        let lpf2Offset := layout_loop (Z.to_nat count1) sizeof_ma_lpf1 heap1 0 in
        let size := layout_loop (Z.to_nat count2) sizeof_ma_lpf2 heap2 lpf2Offset in
        (MA_SUCCESS, mk_lpf_layout (ma_align_64 size) 0 lpf2Offset)
  end.

Definition ma_lpf_get_heap_size (pConfig : option ma_lpf_config) : ma_result * Z :=
  let '(result, layout) := ma_lpf_get_heap_layout pConfig in
  if result =? MA_SUCCESS then (result, ll_sizeInBytes layout) else (result, 0).

(** The quality of the second-order filter [ilpf2] of a Butterworth filter. *)
Definition butterworth_q (order lpf1Count ilpf2 : Z) : spec_float :=
  let a :=
    if lpf1Count =? 1
    then f64_mul (f64_of_Z (u32 (1 + ilpf2 * 1))) (f64_div MA_PI_D (f64_of_Z (u32 (order * 1))))
    else f64_mul (f64_of_Z (u32 (1 + ilpf2 * 2))) (f64_div MA_PI_D (f64_of_Z (u32 (order * 2)))) in
  f64_div (f64_of_Z 1) (f64_mul (f64_of_Z 2) (ma_cosd a)).

Definition lpf2_config_of (c : ma_lpf_config) (lpf1Count ilpf2 : Z) : ma_lpf2_config :=
  ma_lpf2_config_init (lc_format c) (lc_channels c) (lc_sampleRate c) (lc_cutoffFrequency c)
    (butterworth_q (lc_order c) lpf1Count ilpf2).

(** The loop over sub-filters: [body i f] initialises or updates filter [i], which was [f].
    It stops at the first error. *)
Fixpoint sub_filters {F} (body : Z -> F -> option (ma_result * F)) (i : Z) (fs : list F)
    : option (ma_result * list F) :=
  match fs with
  | [] => Some (MA_SUCCESS, [])
  | f :: fs =>
      match body i f with
      | None => None
      | Some (result, f) =>
          if result =? MA_SUCCESS then
            match sub_filters body (i + 1) fs with
            | Some (result, fs) => Some (result, f :: fs)
            | None => None
            end
          else Some (result, f :: fs)
      end
  end.

Definition lpf_with_filters (pLPF : ma_lpf) (f1 : list ma_lpf1) (f2 : list ma_lpf2) : ma_lpf :=
  mk_lpf (lpf_format pLPF) (lpf_channels pLPF) (lpf_sampleRate pLPF) (lpf1Count pLPF) (lpf2Count pLPF)
    f1 f2.

Definition ma_lpf_reinit__internal (pConfig : ma_lpf_config) (pLPF : ma_lpf) (isNew : bool)
    : option (ma_result * ma_lpf) :=
  if bool_decide (lc_format pConfig <> ma_format_f32)
     && bool_decide (lc_format pConfig <> ma_format_s16) then Some (MA_INVALID_ARGS, pLPF)
  else if bool_decide (lpf_format pLPF <> ma_format_unknown)
       && bool_decide (lpf_format pLPF <> lc_format pConfig) then Some (MA_INVALID_OPERATION, pLPF)
  else if negb (lpf_channels pLPF =? 0) && negb (lpf_channels pLPF =? lc_channels pConfig)
       then Some (MA_INVALID_OPERATION, pLPF)
  else if lc_order pConfig >? MA_MAX_FILTER_ORDER then Some (MA_INVALID_ARGS, pLPF)
  else
    let '(count1, count2) := ma_lpf_calculate_sub_lpf_counts (lc_order pConfig) in
    if negb isNew && (negb (lpf1Count pLPF =? count1) || negb (lpf2Count pLPF =? count2))
    then Some (MA_INVALID_OPERATION, pLPF)
    else
      let '(result, _) := ma_lpf_get_heap_layout (Some pConfig) in
      if isNew && negb (result =? MA_SUCCESS) then Some (result, pLPF)
      else
        let pLPF :=
          if isNew then lpf_with_filters pLPF (zrep count1 ma_lpf1_zero) (zrep count2 ma_lpf2_zero)
          else pLPF in
        match
          sub_filters (fun i f =>
            if isNew then ma_lpf1_init_preallocated (lpf1_config_of pConfig)
            else ma_lpf1_reinit (lpf1_config_of pConfig) f) 0 (pLPF1 pLPF)
        with
        | None => None
        | Some (result, f1) =>
            if negb (result =? MA_SUCCESS)
            then Some (result, lpf_with_filters pLPF f1 (pLPF2 pLPF))
            else
              match
                sub_filters (fun i f =>
                  if isNew then ma_lpf2_init_preallocated (lpf2_config_of pConfig count1 i)
                  else ma_lpf2_reinit (lpf2_config_of pConfig count1 i) f) 0 (pLPF2 pLPF)
              with
              | None => None
              | Some (result, f2) =>
                  if negb (result =? MA_SUCCESS) then Some (result, lpf_with_filters pLPF f1 f2)
                  else Some (MA_SUCCESS,
                             mk_lpf (lc_format pConfig) (lc_channels pConfig) (lc_sampleRate pConfig)
                               count1 count2 f1 f2)
              end
        end.

Definition ma_lpf_init_preallocated (pConfig : ma_lpf_config) : option (ma_result * ma_lpf) :=
  ma_lpf_reinit__internal pConfig ma_lpf_zero true.

Definition ma_lpf_init (malloc : Z -> bool) (pConfig : ma_lpf_config) : option (ma_result * ma_lpf) :=
  let '(result, size) := ma_lpf_get_heap_size (Some pConfig) in
  if result =? MA_SUCCESS then
    if (size >? 0) && negb (malloc size) then Some (MA_OUT_OF_MEMORY, ma_lpf_zero)
    else ma_lpf_init_preallocated pConfig
  else Some (result, ma_lpf_zero).

Definition ma_lpf_reinit (pConfig : ma_lpf_config) (pLPF : ma_lpf) : option (ma_result * ma_lpf) :=
  ma_lpf_reinit__internal pConfig pLPF false.

End reinit.

(** ** Clearing *)

(** What is cleared is the coefficient [a], not the registers. *)
Definition ma_lpf1_clear_cache (pLPF : ma_lpf1) : ma_result * ma_lpf1 :=
  let a := if decide (l1_format pLPF = ma_format_f32) then of_f32 f32_zero else of_s32 0 in
  (MA_SUCCESS, mk_lpf1 (l1_format pLPF) (l1_channels pLPF) a (l1_pR1 pLPF)).

Definition ma_lpf2_clear_cache (pLPF : ma_lpf2) : ma_result * ma_lpf2 :=
  (MA_SUCCESS, mk_lpf2 (snd (ma_biquad_clear_cache (l2_bq pLPF)))).

Definition ma_lpf_clear_cache (pLPF : ma_lpf) : ma_result * ma_lpf :=
  (MA_SUCCESS, lpf_with_filters pLPF (map (fun f => snd (ma_lpf1_clear_cache f)) (pLPF1 pLPF))
                 (map (fun f => snd (ma_lpf2_clear_cache f)) (pLPF2 pLPF))).

(** ** Filtering *)

(** One channel: [y], which is also the new register. *)
Definition lpf1_channel_f32 (pLPF : ma_lpf1) (x r1 : Z) : Z :=
  let a := co_f32 (l1_a pLPF) in
  let b := f32_sub f32_one a in
  bits_of_f32 (f32_add (f32_mul b (f32_of_bits x)) (f32_mul a (co_f32 r1))).

Definition lpf1_channel_s16 (pLPF : ma_lpf1) (x r1 : Z) : Z :=
  let a := co_s32 (l1_a pLPF) in
  let b := s32 (2 ^ MA_BIQUAD_FIXED_POINT_SHIFT - a) in
  Z.shiftr (s32 (s32 (b * x) + s32 (a * co_s32 r1))) MA_BIQUAD_FIXED_POINT_SHIFT.

(** The loop over the channels of a frame; [pY] and the registers. *)
Fixpoint lpf1_channels (channel : Z -> Z -> Z) (sample register : Z -> Z) (x r1 : list Z)
    : list Z * list Z :=
  match x, r1 with
  | x0 :: x, u :: r1 =>
      let y := channel x0 u in
      let '(ys, r1) := lpf1_channels channel sample register x r1 in
      (sample y :: ys, register y :: r1)
  | _, _ => ([], r1)
  end.

Definition lpf1_frame (channel : ma_lpf1 -> Z -> Z -> Z) (sample register : Z -> Z) (pLPF : ma_lpf1)
    (pX : list Z) : list Z * ma_lpf1 :=
  let '(y, r1) := lpf1_channels (channel pLPF) sample register pX (l1_pR1 pLPF) in
  (y, mk_lpf1 (l1_format pLPF) (l1_channels pLPF) (l1_a pLPF) r1).

Definition ma_lpf1_process_pcm_frame_f32 (pLPF : ma_lpf1) (pX : list Z) : list Z * ma_lpf1 :=
  lpf1_frame lpf1_channel_f32 (fun y => y) (fun y => y) pLPF pX.

Definition ma_lpf1_process_pcm_frame_s16 (pLPF : ma_lpf1) (pX : list Z) : list Z * ma_lpf1 :=
  lpf1_frame lpf1_channel_s16 s16 of_s32 pLPF pX.

Definition ma_lpf1_process_pcm_frames (pLPF : ma_lpf1) (pFramesIn : list Z) (frameCount : Z)
    : option (ma_result * list Z * ma_lpf1) :=
  let run step :=
    if frameCount <? 2 ^ 32 then
      let '(y, f) := frames_loop (l1_channels pLPF) step (Z.to_nat frameCount) pLPF pFramesIn in
      Some (MA_SUCCESS, y, f)
    else None in
  match l1_format pLPF with
  | ma_format_f32 => run ma_lpf1_process_pcm_frame_f32
  | ma_format_s16 => run ma_lpf1_process_pcm_frame_s16
  | _ => Some (MA_INVALID_ARGS, [], pLPF)
  end.

Definition ma_lpf1_get_latency : Z := 1.

Definition ma_lpf2_process_pcm_frame_s16 (pLPF : ma_lpf2) (pX : list Z) : list Z * ma_lpf2 :=
  let '(y, bq) := ma_biquad_process_pcm_frame_s16 (l2_bq pLPF) pX in (y, mk_lpf2 bq).

Definition ma_lpf2_process_pcm_frame_f32 (pLPF : ma_lpf2) (pX : list Z) : list Z * ma_lpf2 :=
  let '(y, bq) := ma_biquad_process_pcm_frame_f32 (l2_bq pLPF) pX in (y, mk_lpf2 bq).

Definition ma_lpf2_process_pcm_frames (pLPF : ma_lpf2) (pFramesIn : list Z) (frameCount : Z)
    : option (ma_result * list Z * ma_lpf2) :=
  match ma_biquad_process_pcm_frames (l2_bq pLPF) pFramesIn frameCount with
  | Some (result, y, bq) => Some (result, y, mk_lpf2 bq)
  | None => None
  end.

Definition ma_lpf2_get_latency : Z := ma_biquad_get_latency.

(** Runs the filters of a cascade in place, one after the other. *)
Fixpoint cascade {F} (step : F -> list Z -> list Z * F) (fs : list F) (pY : list Z)
    : list Z * list F :=
  match fs with
  | [] => (pY, [])
  | f :: fs =>
      let '(pY, f) := step f pY in
      let '(pY, fs) := cascade step fs pY in
      (pY, f :: fs)
  end.

(** [MA_MOVE_MEMORY] copies the frame, which is then filtered in place. *)
Definition lpf_frame (step1 : ma_lpf1 -> list Z -> list Z * ma_lpf1)
    (step2 : ma_lpf2 -> list Z -> list Z * ma_lpf2) (pLPF : ma_lpf) (pX : list Z)
    : list Z * ma_lpf :=
  let '(pY, f1) := cascade step1 (pLPF1 pLPF) pX in
  let '(pY, f2) := cascade step2 (pLPF2 pLPF) pY in
  (pY, lpf_with_filters pLPF f1 f2).

Definition ma_lpf_process_pcm_frame_f32 (pLPF : ma_lpf) (pX : list Z) : list Z * ma_lpf :=
  lpf_frame ma_lpf1_process_pcm_frame_f32 ma_lpf2_process_pcm_frame_f32 pLPF pX.

Definition ma_lpf_process_pcm_frame_s16 (pLPF : ma_lpf) (pX : list Z) : list Z * ma_lpf :=
  lpf_frame ma_lpf1_process_pcm_frame_s16 ma_lpf2_process_pcm_frame_s16 pLPF pX.

(** The faster path: each filter processes the whole buffer in place. *)
Fixpoint cascade_frames {F} (process : F -> list Z -> Z -> option (ma_result * list Z * F))
    (fs : list F) (buf : list Z) (frameCount : Z) : option (ma_result * list Z * list F) :=
  match fs with
  | [] => Some (MA_SUCCESS, buf, [])
  | f :: fs =>
      match process f buf frameCount with
      | None => None
      | Some (result, y, f) =>
          let buf := wr buf 0 y in
          if result =? MA_SUCCESS then
            match cascade_frames process fs buf frameCount with
            | Some (result, buf, fs) => Some (result, buf, f :: fs)
            | None => None
            end
          else Some (result, buf, f :: fs)
      end
  end.

(** [pFramesOut == pFramesIn]: the buffer and its final content. *)
Definition lpf_process_in_place (pLPF : ma_lpf) (buf : list Z) (frameCount : Z)
    : option (ma_result * list Z * ma_lpf) :=
  match cascade_frames ma_lpf1_process_pcm_frames (pLPF1 pLPF) buf frameCount with
  | None => None
  | Some (result, buf, f1) =>
      if result =? MA_SUCCESS then
        match cascade_frames ma_lpf2_process_pcm_frames (pLPF2 pLPF) buf frameCount with
        | None => None
        | Some (result, buf, f2) => Some (result, buf, lpf_with_filters pLPF f1 f2)
        end
      else Some (result, buf, lpf_with_filters pLPF f1 (pLPF2 pLPF))
  end.

(** [pFramesOut != pFramesIn]: the output buffer before and after. *)
Definition lpf_process_copy (pLPF : ma_lpf) (out src : list Z) (frameCount : Z)
    : option (ma_result * list Z * ma_lpf) :=
  let run step :=
    if frameCount <? 2 ^ 32 then
      let '(y, f) := frames_loop (lpf_channels pLPF) step (Z.to_nat frameCount) pLPF src in
      Some (MA_SUCCESS, wr out 0 y, f)
    else None in
  match lpf_format pLPF with
  | ma_format_f32 => run ma_lpf_process_pcm_frame_f32
  | ma_format_s16 => run ma_lpf_process_pcm_frame_s16
  | _ => Some (MA_INVALID_OPERATION, out, pLPF)
  end.

(** [src] is [None] when the two pointers are the same. *)
Definition ma_lpf_process_pcm_frames (pLPF : ma_lpf) (pFramesOut : list Z) (src : option (list Z))
    (frameCount : Z) : option (ma_result * list Z * ma_lpf) :=
  match src with
  | None => lpf_process_in_place pLPF pFramesOut frameCount
  | Some src => lpf_process_copy pLPF pFramesOut src frameCount
  end.

Definition ma_lpf_get_latency (pLPF : ma_lpf) : Z := u32 (u32 (lpf2Count pLPF * 2) + lpf1Count pLPF).
