(* ===== verification/LowPassProps.v ===== *)
(** * Properties of the low-pass filters

    The well-formedness of a filter and its preservation by every operation, the equality
    of the two ways of filtering a buffer, the bounds of the fixed-point first-order
    filter, the layout of the heap block, and what clearing a filter really does. *)
From Stdlib Require Import ZArith Lia Bool SpecFloat.
From stdpp Require Import base numbers list option.
From S2P Require Import Prelude MaTypes CFloat Biquad LowPass.

Local Open Scope Z_scope.

(** ** Processors of frames *)

Section frames.
Context {F : Type} (ch : Z).

(** [step] keeps [P] and turns a frame into a frame. *)
Definition frame_step (P : F -> Prop) (step : F -> list Z -> list Z * F) : Prop :=
  forall f x, P f -> zlen x = ch -> zlen (step f x).1 = ch /\ P (step f x).2.

Lemma frames_loop_S step n (f : F) x :
  frames_loop ch step (S n) f x =
  ((step f (take (Z.to_nat ch) x)).1
   ++ (frames_loop ch step n (step f (take (Z.to_nat ch) x)).2 (drop (Z.to_nat ch) x)).1,
   (frames_loop ch step n (step f (take (Z.to_nat ch) x)).2 (drop (Z.to_nat ch) x)).2).
Proof. cbn [frames_loop]. destruct (step f _) as [y f'], (frames_loop ch step n f' _) eqn:E. simpl. by rewrite E. Qed.

Lemma frames_loop_ok P step n (f : F) x :
  0 <= ch -> frame_step P step -> P f -> Z.of_nat n * ch <= zlen x ->
  zlen (frames_loop ch step n f x).1 = Z.of_nat n * ch /\ P (frames_loop ch step n f x).2.
Proof.
  intros Hch Hs. revert f x. induction n as [|n IH]; intros f x Hf Hx; [done|].
  rewrite frames_loop_S. simpl.
  destruct (Hs f (take (Z.to_nat ch) x)) as [L1 P1]; [done|rewrite zlen_take; nia|].
  destruct (IH _ (drop (Z.to_nat ch) x) P1) as [L2 P2]; [rewrite zlen_drop; nia|].
  split; [|done]. rewrite zlen_app. nia.
Qed.

(** Only the first [n] frames are read. *)
Lemma frames_loop_app step n (f : F) x rest :
  0 <= ch -> Z.of_nat n * ch <= zlen x ->
  frames_loop ch step n f (x ++ rest) = frames_loop ch step n f x.
Proof.
  intros Hch. revert f x. induction n as [|n IH]; intros f x Hx; [done|].
  assert (Z.to_nat ch <= length x)%nat by (unfold zlen in Hx; nia).
  rewrite !frames_loop_S, take_app_le, drop_app_le by done.
  by rewrite IH by (rewrite zlen_drop; nia).
Qed.

Lemma frames_loop_add step n m (f : F) x :
  0 <= ch -> (Z.of_nat n + Z.of_nat m) * ch <= zlen x ->
  frames_loop ch step (n + m) f x =
  let '(y, f) := frames_loop ch step n f x in
  let '(z, f) := frames_loop ch step m f (drop (Z.to_nat (Z.of_nat n * ch)) x) in
  (y ++ z, f).
Proof.
  intros Hch. revert f x. induction n as [|n IH]; intros f x Hx; simpl Nat.add.
  - simpl. rewrite drop_0. by destruct (frames_loop ch step m f x).
  - rewrite !frames_loop_S. rewrite IH by (rewrite zlen_drop; nia).
    destruct (step f _) as [y f1]. cbn [fst snd].
    destruct (frames_loop ch step n f1 _) as [ys f2]. cbn [fst snd]. rewrite drop_drop.
    replace (Z.to_nat ch + Z.to_nat (Z.of_nat n * ch))%nat
      with (Z.to_nat (Z.of_nat (S n) * ch)) by nia.
    destruct (frames_loop ch step m f2 _) as [z f3]. cbn [fst snd]. by rewrite app_assoc.
Qed.
End frames.

Section composition.
Context {F G : Type} (ch : Z).

(** Two processors of which the second one takes the output of the first one. *)
Definition step_comp (s1 : F -> list Z -> list Z * F) (s2 : G -> list Z -> list Z * G)
    (fg : F * G) (x : list Z) : list Z * (F * G) :=
  let '(y, f) := s1 fg.1 x in let '(z, g) := s2 fg.2 y in (z, (f, g)).

Lemma frames_loop_comp P s1 s2 n (f : F) (g : G) x :
  0 <= ch -> frame_step ch P s1 -> P f -> Z.of_nat n * ch <= zlen x ->
  frames_loop ch (step_comp s1 s2) n (f, g) x =
  let '(y, f) := frames_loop ch s1 n f x in
  let '(z, g) := frames_loop ch s2 n g y in (z, (f, g)).
Proof.
  intros Hch Hs. revert f g x. induction n as [|n IH]; intros f g x Hf Hx; [done|].
  destruct (Hs f (take (Z.to_nat ch) x)) as [L1 P1]; [done|rewrite zlen_take; nia|].
  rewrite !frames_loop_S. unfold step_comp at 1 2 3 5. cbn [fst snd].
  destruct (s1 f _) as [y f1]. cbn [fst snd] in *.
  destruct (s2 g y) as [z g1] eqn:E2. cbn [fst snd].
  rewrite !IH by (done || (rewrite zlen_drop; nia)).
  destruct (frames_loop ch s1 n f1 _) as [ys f2]. cbn [fst snd].
  assert (El : Z.to_nat ch = length y) by (unfold zlen in L1; lia).
  rewrite El, take_app_length, drop_app_length, E2. cbn [fst snd].
  by destruct (frames_loop ch s2 n g1 ys).
Qed.

(** A change of the representation of the state. *)
Lemma frames_loop_iso (h : F -> G) s1 s2 n (f : F) x :
  (forall f x, s2 (h f) x = ((s1 f x).1, h (s1 f x).2)) ->
  frames_loop ch s2 n (h f) x = ((frames_loop ch s1 n f x).1, h (frames_loop ch s1 n f x).2).
Proof.
  intros H. revert f x. induction n as [|n IH]; intros f x; [done|].
  rewrite !frames_loop_S, H. cbn [fst snd]. by rewrite IH.
Qed.
End composition.

(** A cascade over frames is a cascade over buffers. *)
Lemma frames_loop_cascade {F} ch P (step : F -> list Z -> list Z * F) n fs x :
  0 <= ch -> frame_step ch P step -> Forall P fs -> Z.of_nat n * ch = zlen x ->
  frames_loop ch (cascade step) n fs x = cascade (fun f x => frames_loop ch step n f x) fs x.
Proof.
  intros Hch Hs Hfs. revert x. induction Hfs as [|f fs Hf Hfs IH]; intros x Hx.
  - cbn [cascade]. revert x Hx. induction n as [|n IHn]; intros x Hx.
    + destruct x; [done|]. rewrite zlen_cons in Hx. pose proof (zlen_nonneg x). lia.
    + rewrite frames_loop_S. cbn [cascade fst snd].
      rewrite IHn by (rewrite zlen_drop; nia). cbn [fst snd]. by rewrite take_drop.
  - rewrite (frames_loop_iso ch (fun p => p.1 :: p.2) (step_comp step (cascade step)) (cascade step) n (f, fs)).
    2:{ intros [g gs] y. unfold step_comp. cbn [cascade fst snd].
        destruct (step g y) as [z g']. by destruct (cascade step gs z). }
    rewrite (frames_loop_comp ch P) by (done || lia). cbn [cascade].
    destruct (frames_loop_ok ch P step n f x) as [L _]; [done..|lia|].
    destruct (frames_loop ch step n f x) as [y f']. cbn [fst] in L. rewrite IH by done.
    by destruct (cascade _ fs y).
Qed.

(** ** Well-formed filters *)

Definition bq_wf (fmt : ma_format) (ch : Z) (b : ma_biquad) : Prop :=
  bq_format b = fmt /\ bq_channels b = ch /\ zlen (bq_pR1 b) = ch /\ zlen (bq_pR2 b) = ch.

Definition lpf1_wf (fmt : ma_format) (ch : Z) (f : ma_lpf1) : Prop :=
  l1_format f = fmt /\ l1_channels f = ch /\ zlen (l1_pR1 f) = ch.

Definition lpf2_wf (fmt : ma_format) (ch : Z) (f : ma_lpf2) : Prop := bq_wf fmt ch (l2_bq f).

(** The format is filtered, the sub-filters agree with the filter on format and channels
    and have a register for every channel. *)
Record lpf_wf (f : ma_lpf) : Prop := {
  lw_format : lpf_format f = ma_format_f32 \/ lpf_format f = ma_format_s16;
  lw_channels : 0 < lpf_channels f < 2 ^ 32;
  lw_count1 : lpf1Count f = zlen (pLPF1 f);
  lw_count2 : lpf2Count f = zlen (pLPF2 f);
  lw_order : zlen (pLPF1 f) <= 1 /\ zlen (pLPF2 f) <= 4;
  lw_lpf1 : Forall (lpf1_wf (lpf_format f) (lpf_channels f)) (pLPF1 f);
  lw_lpf2 : Forall (lpf2_wf (lpf_format f) (lpf_channels f)) (pLPF2 f) }.

Lemma lpf1_channels_len channel sample register x r1 :
  zlen x = zlen r1 ->
  zlen (lpf1_channels channel sample register x r1).1 = zlen r1
  /\ zlen (lpf1_channels channel sample register x r1).2 = zlen r1.
Proof.
  unfold zlen. revert r1. induction x as [|a x IH]; intros [|u r1] H; try done.
  cbn [lpf1_channels]. simpl in H. destruct (IH r1) as [A B]; [lia|].
  destruct (lpf1_channels channel sample register x r1) as [ys rs]. simpl in *. lia.
Qed.

Lemma biquad_channels_len channel x r1 r2 :
  zlen x = zlen r1 -> zlen x = zlen r2 ->
  let '(y, s1, s2) := biquad_channels channel x r1 r2 in
  zlen y = zlen x /\ zlen s1 = zlen x /\ zlen s2 = zlen x.
Proof.
  unfold zlen. revert r1 r2. induction x as [|a x IH]; intros [|u r1] [|v r2] H1 H2; try done.
  cbn [biquad_channels]. simpl in H1, H2. specialize (IH r1 r2 ltac:(lia) ltac:(lia)).
  destruct (channel a u v) as [[y0 u'] v'].
  destruct (biquad_channels channel x r1 r2) as [[ys rs] ss]. simpl. lia.
Qed.

Lemma lpf1_frame_step fmt ch channel sample register :
  frame_step ch (lpf1_wf fmt ch) (lpf1_frame channel sample register).
Proof.
  intros f x (Hf & Hc & Hr) Hx. unfold lpf1_frame.
  destruct (lpf1_channels_len (channel f) sample register x (l1_pR1 f)) as [A B]; [lia|].
  destruct (lpf1_channels _ _ _ _ _) as [y r1]. simpl in *. split; [lia|]. split_and!; simpl; [done|done|lia].
Qed.

Lemma biquad_frame_step fmt ch channel :
  frame_step ch (bq_wf fmt ch) (biquad_frame channel).
Proof.
  intros b x (Hf & Hc & H1 & H2) Hx. unfold biquad_frame.
  pose proof (biquad_channels_len (channel b) x (bq_pR1 b) (bq_pR2 b) ltac:(lia) ltac:(lia)) as H.
  destruct (biquad_channels _ _ _ _) as [[y r1] r2]. simpl. split; [lia|]. split_and!; simpl; try done; lia.
Qed.

(** The step of a second-order filter, by format. *)
Definition lpf2_step (channel : ma_biquad -> Z -> Z -> Z -> Z * Z * Z) (f : ma_lpf2) (x : list Z)
    : list Z * ma_lpf2 :=
  let '(y, bq) := biquad_frame channel (l2_bq f) x in (y, mk_lpf2 bq).

Lemma lpf2_frame_step fmt ch channel : frame_step ch (lpf2_wf fmt ch) (lpf2_step channel).
Proof.
  intros f x Hf Hx. unfold lpf2_step.
  destruct (biquad_frame_step fmt ch channel (l2_bq f) x) as [A B]; [done..|].
  by destruct (biquad_frame channel (l2_bq f) x) as [y bq].
Qed.

Lemma cascade_frame_step {F} ch (P : F -> Prop) step :
  frame_step ch P step -> frame_step ch (Forall P) (cascade step).
Proof.
  intros Hs fs x Hfs. revert x. induction Hfs as [|f fs Hf Hfs IH]; intros x Hx; [done|].
  cbn [cascade]. destruct (Hs f x) as [L1 P1]; [done..|]. destruct (step f x) as [y f'].
  destruct (IH y) as [L2 P2]; [done|]. destruct (cascade step fs y) as [z fs']. simpl in *.
  split; [done|]. by constructor.
Qed.

(** The filter's channel functions, by format. *)
Definition step1_of (fmt : ma_format) : ma_lpf1 -> list Z -> list Z * ma_lpf1 :=
  match fmt with
  | ma_format_f32 => ma_lpf1_process_pcm_frame_f32
  | _ => ma_lpf1_process_pcm_frame_s16
  end.
Definition channel2_of (fmt : ma_format) : ma_biquad -> Z -> Z -> Z -> Z * Z * Z :=
  match fmt with ma_format_f32 => biquad_channel_f32 | _ => biquad_channel_s16 end.
Definition step_of (fmt : ma_format) : ma_lpf -> list Z -> list Z * ma_lpf :=
  lpf_frame (step1_of fmt) (lpf2_step (channel2_of fmt)).

Lemma step1_of_ok fmt fmt' ch : frame_step ch (lpf1_wf fmt ch) (step1_of fmt').
Proof. destruct fmt'; apply lpf1_frame_step. Qed.

Lemma cascade_len {F} (step : F -> list Z -> list Z * F) fs x :
  zlen (cascade step fs x).2 = zlen fs.
Proof.
  revert x. induction fs as [|f fs IH]; intros x; [done|]. cbn [cascade].
  destruct (step f x) as [y f']. specialize (IH y). destruct (cascade step fs y) as [z fs'].
  simpl in *. by rewrite !zlen_cons, IH.
Qed.

(** Filtering a frame keeps a filter well-formed. *)
Definition same_lpf (f f' : ma_lpf) : Prop :=
  lpf_wf f' /\ lpf_format f' = lpf_format f /\ lpf_channels f' = lpf_channels f.

Lemma lpf_wf_with_filters f f1 f2 :
  lpf_wf f -> zlen f1 = zlen (pLPF1 f) -> zlen f2 = zlen (pLPF2 f) ->
  Forall (lpf1_wf (lpf_format f) (lpf_channels f)) f1 ->
  Forall (lpf2_wf (lpf_format f) (lpf_channels f)) f2 -> same_lpf f (lpf_with_filters f f1 f2).
Proof.
  intros [] L1 L2 H1 H2. split_and!; [|done..]. split; simpl; try done; lia.
Qed.

Lemma lpf_frame_step f0 fmt :
  lpf_wf f0 -> frame_step (lpf_channels f0) (same_lpf f0) (step_of fmt).
Proof.
  intros Hw f x (Hf & Ef & Ec) Hx. unfold step_of, lpf_frame.
  destruct (cascade_frame_step (lpf_channels f0) _ _ (step1_of_ok (lpf_format f) fmt (lpf_channels f0))
              (pLPF1 f) x) as [L1 P1]; [rewrite <- Ec; apply Hf|done|].
  pose proof (cascade_len (step1_of fmt) (pLPF1 f) x) as N1.
  destruct (cascade (step1_of fmt) (pLPF1 f) x) as [y f1]. cbn [fst snd] in *.
  destruct (cascade_frame_step (lpf_channels f0) _ _
              (lpf2_frame_step (lpf_format f) (lpf_channels f0) (channel2_of fmt))
              (pLPF2 f) y) as [L2 P2]; [rewrite <- Ec; apply Hf|done|].
  pose proof (cascade_len (lpf2_step (channel2_of fmt)) (pLPF2 f) y) as N2.
  destruct (cascade (lpf2_step (channel2_of fmt)) (pLPF2 f) y) as [z f2]. cbn [fst snd] in *.
  split; [done|]. rewrite <- Ec in P1, P2.
  destruct (lpf_wf_with_filters f f1 f2 Hf N1 N2 P1 P2) as (W & E1 & E2).
  split_and!; [done|congruence|congruence].
Qed.

(** ** The two ways of filtering a buffer *)

Lemma wr_prefix {A} (m d : list A) n :
  0 <= n <= zlen m -> zlen d = n -> wr m 0 d = d ++ drop (Z.to_nat n) m.
Proof. intros Hn Hd. unfold wr. rewrite take_0, app_nil_l. do 2 f_equal. unfold zlen in Hd. lia. Qed.

Lemma cascade_frames_run {F} ch P (step : F -> list Z -> list Z * F) process n fs x rest :
  0 <= ch -> frame_step ch P step -> Forall P fs -> Z.of_nat n * ch = zlen x ->
  (forall f buf, P f ->
     process f buf (Z.of_nat n) =
       Some (MA_SUCCESS, (frames_loop ch step n f buf).1, (frames_loop ch step n f buf).2)) ->
  cascade_frames process fs (x ++ rest) (Z.of_nat n) =
    Some (MA_SUCCESS, (frames_loop ch (cascade step) n fs x).1 ++ rest,
          (frames_loop ch (cascade step) n fs x).2).
Proof.
  intros Hch Hs Hfs Hx Hp. rewrite (frames_loop_cascade ch P) by done. revert x Hx.
  induction Hfs as [|f fs Hf Hfs IH]; intros x Hx; [done|].
  cbn [cascade_frames cascade]. rewrite Hp by done. rewrite frames_loop_app by lia.
  destruct (frames_loop_ok ch P step n f x) as [L _]; [done..|lia|].
  destruct (frames_loop ch step n f x) as [y f']. cbn [fst snd] in *.
  rewrite (wr_prefix _ _ (zlen x)) by (rewrite ?zlen_app; pose proof (zlen_nonneg rest);
    pose proof (zlen_nonneg x); lia).
  unfold zlen at 1. rewrite Nat2Z.id, drop_app_length, IH by lia. cbn [Z.eqb MA_SUCCESS].
  by destruct (cascade _ fs y).
Qed.

Lemma lpf1_process_run fmt ch n f buf :
  fmt = ma_format_f32 \/ fmt = ma_format_s16 -> 0 <= Z.of_nat n < 2 ^ 32 -> lpf1_wf fmt ch f ->
  ma_lpf1_process_pcm_frames f buf (Z.of_nat n) =
    Some (MA_SUCCESS, (frames_loop ch (step1_of fmt) n f buf).1,
          (frames_loop ch (step1_of fmt) n f buf).2).
Proof.
  intros Hfmt Hn (Hf & Hc & _). unfold ma_lpf1_process_pcm_frames. cbv zeta.
  rewrite Hf, Hc, (proj2 (Z.ltb_lt _ _)), Nat2Z.id by lia.
  destruct Hfmt as [-> | ->]; simpl; by destruct (frames_loop _ _ _ _ _).
Qed.

Lemma lpf2_process_run fmt ch n f buf :
  fmt = ma_format_f32 \/ fmt = ma_format_s16 -> 0 <= Z.of_nat n < 2 ^ 32 -> lpf2_wf fmt ch f ->
  ma_lpf2_process_pcm_frames f buf (Z.of_nat n) =
    Some (MA_SUCCESS, (frames_loop ch (lpf2_step (channel2_of fmt)) n f buf).1,
          (frames_loop ch (lpf2_step (channel2_of fmt)) n f buf).2).
Proof.
  intros Hfmt Hn (Hf & Hc & _). destruct f as [b]. simpl in Hf, Hc.
  rewrite (frames_loop_iso ch mk_lpf2 (biquad_frame (channel2_of fmt)) _ n b).
  2:{ intros b' x. unfold lpf2_step. by destruct (biquad_frame _ _ x). }
  unfold ma_lpf2_process_pcm_frames, ma_biquad_process_pcm_frames. cbv zeta. cbn [l2_bq].
  rewrite Hf, Hc, (proj2 (Z.ltb_lt _ _)), Nat2Z.id by lia.
  destruct Hfmt as [-> | ->]; simpl channel2_of; cbn match;
    unfold ma_biquad_process_pcm_frame_f32, ma_biquad_process_pcm_frame_s16;
    by destruct (frames_loop _ _ _ _ _).
Qed.

Lemma lpf_process_copy_eq f out src n :
  lpf_wf f -> 0 <= Z.of_nat n < 2 ^ 32 ->
  lpf_process_copy f out src (Z.of_nat n) =
    Some (MA_SUCCESS, wr out 0 (frames_loop (lpf_channels f) (step_of (lpf_format f)) n f src).1,
          (frames_loop (lpf_channels f) (step_of (lpf_format f)) n f src).2).
Proof.
  intros Hw Hn. unfold lpf_process_copy. cbv zeta. rewrite (proj2 (Z.ltb_lt _ _)), Nat2Z.id by lia.
  assert (forall s, (let '(y, f') := s in Some (MA_SUCCESS, wr out 0 y, f'))
          = Some (MA_SUCCESS, wr out 0 s.1, s.2 : ma_lpf)) as H by by intros [].
  destruct (lw_format f Hw) as [E|E]; rewrite E; cbn match; apply H.
Qed.

Lemma lpf_process_in_place_eq f x rest n :
  lpf_wf f -> 0 <= Z.of_nat n < 2 ^ 32 -> zlen x = Z.of_nat n * lpf_channels f ->
  lpf_process_in_place f (x ++ rest) (Z.of_nat n) =
    Some (MA_SUCCESS, (frames_loop (lpf_channels f) (step_of (lpf_format f)) n f x).1 ++ rest,
          (frames_loop (lpf_channels f) (step_of (lpf_format f)) n f x).2).
Proof.
  intros Hw Hn Hx. pose proof Hw as []. unfold lpf_process_in_place.
  set (fmt := lpf_format f) in *. set (ch := lpf_channels f) in *.
  set (s1 := step1_of fmt). set (s2 := lpf2_step (channel2_of fmt)).
  pose proof (cascade_frame_step ch _ s1 (step1_of_ok fmt fmt ch)) as Hs1.
  pose proof (cascade_frame_step ch _ s2 (lpf2_frame_step fmt ch (channel2_of fmt))) as Hs2.
  rewrite (cascade_frames_run ch (lpf1_wf fmt ch) s1)
    by (lia || apply step1_of_ok || done || (intros; by apply lpf1_process_run)).
  destruct (frames_loop_ok ch _ (cascade s1) n (pLPF1 f) x ltac:(lia) Hs1) as [L1 _]; [done|lia|].
  assert (E : frames_loop ch (step_of fmt) n f x =
    let '(y, f1) := frames_loop ch (cascade s1) n (pLPF1 f) x in
    let '(z, f2) := frames_loop ch (cascade s2) n (pLPF2 f) y in (z, lpf_with_filters f f1 f2)).
  { pose proof (frames_loop_iso ch (fun p => lpf_with_filters f p.1 p.2)
      (step_comp (cascade s1) (cascade s2)) (step_of fmt) n (pLPF1 f, pLPF2 f) x) as Hi.
    cbn [fst snd] in Hi. destruct f. unfold lpf_with_filters in *. simpl in *. rewrite Hi.
    - rewrite (frames_loop_comp ch (Forall (lpf1_wf fmt ch))) by (done || lia).
      destruct (frames_loop ch (cascade s1) n _ x) as [y f1]. by destruct (frames_loop ch _ n _ y).
    - intros [f1 f2] y. unfold step_of, step_comp, lpf_frame. simpl. fold s1 s2.
      destruct (cascade s1 f1 y) as [z f1']. by destruct (cascade s2 f2 z). }
  rewrite E. destruct (frames_loop ch (cascade s1) n (pLPF1 f) x) as [y f1]. cbn [fst snd] in *.
  cbn [Z.eqb MA_SUCCESS]. rewrite (cascade_frames_run ch (lpf2_wf fmt ch) s2)
    by (lia || apply lpf2_frame_step || done || (intros; by apply lpf2_process_run)).
  by destruct (frames_loop ch (cascade s2) n (pLPF2 f) y).
Qed.

(** ** Initialising and updating keep a filter well-formed *)

Lemma some_result_inj {A} (r r' : ma_result) (x y : A) :
  Some (r, x) = Some (r', y) -> r = r' /\ x = y.
Proof. by intros [= -> ->]. Qed.

(** Splits the guards of an operation that returned success. *)
Ltac guards :=
  repeat match goal with
  | H : context [if ?b then _ else _] |- _ => destruct b eqn:?
  | H : context [match ?o with Some _ => _ | None => _ end] |- _ => destruct o
  | H : None = Some _ |- _ => discriminate H
  | H : Some (_, _) = Some (_, _) |- _ => apply some_result_inj in H as [H <-]
  | H : MA_INVALID_ARGS = MA_SUCCESS |- _ => discriminate H
  | H : MA_INVALID_OPERATION = MA_SUCCESS |- _ => discriminate H
  end.

(** Passes the next guard of an operation whose success is assumed. *)
Ltac next_guard G :=
  match goal with |- (if ?b then _ else _) = _ -> _ =>
    destruct b eqn:G; [by intros [? _]%some_result_inj|] end.

Lemma ma_biquad_reinit_wf c b b' :
  ma_biquad_reinit c b = Some (MA_SUCCESS, b') ->
  zlen (bq_pR1 b) = bqc_channels c -> zlen (bq_pR2 b) = bqc_channels c ->
  bq_wf (bqc_format c) (bqc_channels c) b'.
Proof.
  unfold ma_biquad_reinit. intros H H1 H2. guards; by apply conj; [|split_and!].
Qed.

Lemma ma_lpf1_reinit_wf lm c f f' :
  ma_lpf1_reinit lm c f = Some (MA_SUCCESS, f') -> zlen (l1_pR1 f) = l1c_channels c ->
  lpf1_wf (l1c_format c) (l1c_channels c) f'.
Proof.
  unfold ma_lpf1_reinit. intros H H1. guards; by apply conj; [|split_and!].
Qed.

Lemma ma_lpf1_init_preallocated_wf lm c f :
  0 <= l1c_channels c -> ma_lpf1_init_preallocated lm c = Some (MA_SUCCESS, f) ->
  lpf1_wf (l1c_format c) (l1c_channels c) f.
Proof.
  unfold ma_lpf1_init_preallocated. intros Hc. simpl.
  destruct (l1c_channels c =? 0); simpl; [done|].
  intros H. apply (ma_lpf1_reinit_wf lm c _ f H). by apply zlen_zrep.
Qed.

Lemma ma_lpf2_init_preallocated_wf lm c f :
  0 <= l1c_channels c -> ma_lpf2_init_preallocated lm c = Some (MA_SUCCESS, f) ->
  lpf2_wf (l1c_format c) (l1c_channels c) f.
Proof.
  unfold ma_lpf2_init_preallocated, ma_biquad_init_preallocated, on_bq. intros Hc. simpl.
  destruct (l1c_channels c =? 0); simpl; [done|].
  destruct (ma_biquad_reinit _ _) as [[r b]|] eqn:E; [|done]. intros [= -> <-].
  apply (ma_biquad_reinit_wf _ _ _ E); by apply zlen_zrep.
Qed.

Lemma ma_lpf2_reinit_wf lm c f f' :
  ma_lpf2_reinit lm c f = Some (MA_SUCCESS, f') ->
  zlen (bq_pR1 (l2_bq f)) = l1c_channels c -> zlen (bq_pR2 (l2_bq f)) = l1c_channels c ->
  lpf2_wf (l1c_format c) (l1c_channels c) f'.
Proof.
  unfold ma_lpf2_reinit, on_bq.
  destruct (ma_biquad_reinit _ _) as [[r b]|] eqn:E; [|done]. intros [= -> <-].
  apply (ma_biquad_reinit_wf _ _ _ E).
Qed.

Lemma sub_filters_wf {F} (P Q : F -> Prop) body i fs fs' :
  Forall P fs -> (forall i f f', P f -> body i f = Some (MA_SUCCESS, f') -> Q f') ->
  sub_filters body i fs = Some (MA_SUCCESS, fs') -> Forall Q fs' /\ zlen fs' = zlen fs.
Proof.
  intros Hfs Hb. revert i fs'. induction Hfs as [|f fs Hf Hfs IH]; intros i fs' H; simpl in H.
  - by injection H as <-.
  - destruct (body i f) as [[r f']|] eqn:Eb; [|done].
    destruct (r =? MA_SUCCESS) eqn:Er; [apply Z.eqb_eq in Er as ->|].
    + destruct (sub_filters body (i + 1) fs) as [[r fs'']|] eqn:Es; [|done].
      injection H as -> <-. destruct (IH _ _ Es) as [A B].
      split; [|by rewrite !zlen_cons, B]. constructor; [by eapply Hb|done].
    + injection H as -> _. done.
Qed.

Lemma sub_counts order :
  0 <= order <= 8 -> 0 <= order mod 2 <= 1 /\ 0 <= order / 2 <= 4.
Proof. intros H. split; [pose proof (Z.mod_pos_bound order 2); lia|]. split; [apply Z.div_pos; lia|]. apply Z.div_le_upper_bound; lia. Qed.

(** [lpf_wf] of a filter that has just been set up, for either value of [isNew]. *)
Lemma ma_lpf_reinit__internal_wf lm c f isNew f' :
  0 < lc_channels c < 2 ^ 32 -> 0 <= lc_order c ->
  (isNew = false -> lpf_wf f) ->
  ma_lpf_reinit__internal lm c f isNew = Some (MA_SUCCESS, f') ->
  lpf_wf f' /\ lpf_format f' = lc_format c /\ lpf_channels f' = lc_channels c.
Proof.
  intros Hc Ho Hwf. unfold ma_lpf_reinit__internal.
  next_guard G1. next_guard G2. next_guard G3.
  destruct (Z.gtb_spec (lc_order c) MA_MAX_FILTER_ORDER) as [|Ho2];
    [by intros [? _]%some_result_inj|].
  cbn [ma_lpf_calculate_sub_lpf_counts].
  next_guard G4.
  destruct (ma_lpf_get_heap_layout lm (Some c)) as [r lay].
  destruct (isNew && _) eqn:G5; [by intros [-> _]%some_result_inj; destruct isNew|]. clear r lay G5.
  destruct (sub_counts (lc_order c)) as [M1 M2]; [unfold MA_MAX_FILTER_ORDER in *; lia|].
  assert (Hfmt : lc_format c = ma_format_f32 \/ lc_format c = ma_format_s16).
  { destruct (lc_format c); try done; auto. }
  set (f0 := if isNew then _ else f).
  assert (W1 : Forall (fun g => isNew = false -> zlen (l1_pR1 g) = lc_channels c) (pLPF1 f0)
     /\ Forall (fun g => isNew = false -> zlen (bq_pR1 (l2_bq g)) = lc_channels c
                                       /\ zlen (bq_pR2 (l2_bq g)) = lc_channels c) (pLPF2 f0)
     /\ zlen (pLPF1 f0) = lc_order c mod 2 /\ zlen (pLPF2 f0) = lc_order c / 2).
  { destruct isNew; simpl in f0; subst f0.
    - simpl. rewrite !zlen_zrep by lia. split_and!; try done; by apply Forall_true.
    - destruct (Hwf eq_refl). simpl in G4. rewrite negb_false_iff in G4 || idtac.
      apply orb_false_iff in G4 as [E1%negb_false_iff%Z.eqb_eq E2%negb_false_iff%Z.eqb_eq].
      assert (lpf_channels f = lc_channels c) as Ec.
      { apply andb_false_iff in G3 as [A|A]; apply negb_false_iff, Z.eqb_eq in A; lia. }
      split_and!; [| |lia|lia]; eapply Forall_impl; try done; unfold lpf1_wf, lpf2_wf, bq_wf;
        intros g Hg _; rewrite <- Ec; by destruct_and!. }
  destruct W1 as (W1 & W2 & N1 & N2).
  destruct (sub_filters _ 0 (pLPF1 f0)) as [[r f1]|] eqn:S1; [|done].
  destruct (r =? MA_SUCCESS) eqn:Er; [apply Z.eqb_eq in Er as ->|by intros [-> _]%some_result_inj].
  cbn [negb]. destruct (sub_filters _ 0 (pLPF2 f0)) as [[r f2]|] eqn:S2; [|done].
  destruct (r =? MA_SUCCESS) eqn:Er; [apply Z.eqb_eq in Er as ->|by intros [-> _]%some_result_inj].
  intros [_ <-]%some_result_inj.
  eapply (sub_filters_wf _ (lpf1_wf (lc_format c) (lc_channels c)) _ _ _ _ W1) in S1 as [A1 B1].
  2:{ intros i g g' Hg. destruct isNew; [apply (ma_lpf1_init_preallocated_wf lm (lpf1_config_of c)); simpl; lia|].
      intros Hr. by apply (ma_lpf1_reinit_wf lm (lpf1_config_of c) g), Hg. }
  eapply (sub_filters_wf _ (lpf2_wf (lc_format c) (lc_channels c)) _ _ _ _ W2) in S2 as [A2 B2].
  2:{ intros i g g' Hg. set (c2 := lpf2_config_of lm c _ i).
      destruct isNew; [apply (ma_lpf2_init_preallocated_wf lm c2); simpl; lia|].
      intros Hr. destruct (Hg eq_refl). by apply (ma_lpf2_reinit_wf lm c2 g). }
  split_and!; [|done..]. split; simpl; try done; lia.
Qed.

Lemma ma_biquad_clear_cache_wf fmt ch b :
  bq_wf fmt ch b -> bq_wf fmt ch (snd (ma_biquad_clear_cache b)).
Proof.
  intros (Hf & Hc & H1 & H2). unfold zlen in *.
  destruct (decide (bq_format b = ma_format_f32)) as [E|E];
    unfold ma_biquad_clear_cache, bq_wf, zlen; simpl;
    [rewrite !decide_True by done|rewrite !decide_False by done];
    rewrite !length_insert; by split_and!.
Qed.

Lemma ma_lpf_clear_cache_wf f : lpf_wf f -> same_lpf f (snd (ma_lpf_clear_cache f)).
Proof.
  intros Hw. apply lpf_wf_with_filters; [done|unfold zlen; by rewrite length_map..| |];
    apply Forall_map; [eapply Forall_impl, lw_lpf1|eapply Forall_impl, lw_lpf2]; try done.
  intros g Hg. by apply ma_biquad_clear_cache_wf.
Qed.

(** Clearing a first-order filter of 16-bit samples makes it the identity. *)
Lemma lpf1_cleared_channel f x r1 :
  l1_a f = of_s32 0 -> in_s 16 x -> s16 (lpf1_channel_s16 f x r1) = x.
Proof.
  intros Ha Hx. unfold lpf1_channel_s16. rewrite Ha. unfold of_s32, co_s32, u32, s32.
  rewrite (wrapu_id 32 0) by cint. rewrite (wraps_id 32 0) by cint.
  rewrite Z.mul_0_l, (wraps_id 32 0) by cint. rewrite Z.sub_0_r, Z.add_0_r.
  change (2 ^ MA_BIQUAD_FIXED_POINT_SHIFT) with 16384.
  rewrite (wraps_id 32 16384) by cint. rewrite !(wraps_id 32 (16384 * x)) by cint.
  rewrite Z.shiftr_div_pow2 by done. change (2 ^ MA_BIQUAD_FIXED_POINT_SHIFT) with 16384.
  rewrite Z.mul_comm, Z.div_mul by done. unfold s16. by apply wraps_id.
Qed.

Lemma lpf1_cleared_frame f x :
  l1_a f = of_s32 0 -> zlen x = zlen (l1_pR1 f) -> Forall (in_s 16) x ->
  (ma_lpf1_process_pcm_frame_s16 f x).1 = x /\ l1_a (ma_lpf1_process_pcm_frame_s16 f x).2 = of_s32 0.
Proof.
  intros Ha Hl Hx. unfold ma_lpf1_process_pcm_frame_s16, lpf1_frame.
  assert (H : forall r1, zlen x = zlen r1 ->
    (lpf1_channels (lpf1_channel_s16 f) s16 of_s32 x r1).1 = x).
  { clear Hl. induction Hx as [|a x Hax Hx IH]; intros [|u r1] Hl; try done. unfold zlen in *. simpl in Hl.
    cbn [lpf1_channels]. specialize (IH r1 ltac:(lia)).
    destruct (lpf1_channels _ _ _ _ r1) as [ys rs]. simpl in *.
    by rewrite lpf1_cleared_channel, IH. }
  specialize (H _ Hl). by destruct (lpf1_channels _ _ _ _ _) as [ys rs].
Qed.

(** One channel of the first-order filter: the fixed-point sum does not overflow, and the
    result lies between the sample and the previous result. *)
Lemma lpf1_channel_between f x r1 :
  0 <= co_s32 (l1_a f) <= 16384 -> in_s 16 x -> in_s 16 (co_s32 r1) ->
  Z.min x (co_s32 r1) <= lpf1_channel_s16 f x r1 <= Z.max x (co_s32 r1).
Proof.
  intros Ha Hx Hr. unfold lpf1_channel_s16. set (a := co_s32 (l1_a f)) in *.
  set (r := co_s32 r1) in *. change (2 ^ MA_BIQUAD_FIXED_POINT_SHIFT) with 16384.
  assert (-32768 <= x <= 32767 /\ -32768 <= r <= 32767) as [Bx Br]
    by (unfold in_s in *; change (2 ^ (16 - 1)) with 32768 in *; lia).
  assert (W : forall z, - 2 ^ 31 <= z < 2 ^ 31 -> s32 z = z).
  { intros z Hz. apply (wraps_id 32); [lia|]. unfold in_s. change (2 ^ (32 - 1)) with (2 ^ 31). lia. }
  rewrite (W (16384 - a)) by lia.
  assert (- 16384 * 32768 <= (16384 - a) * x <= 16384 * 32767) by nia.
  assert (- 16384 * 32768 <= a * r <= 16384 * 32767) by nia.
  rewrite (W ((16384 - a) * x)), (W (a * r)) by lia.
  set (lo := Z.min x r). set (hi := Z.max x r).
  assert (16384 * lo <= (16384 - a) * x + a * r <= 16384 * hi) by nia.
  rewrite W by lia. rewrite Z.shiftr_div_pow2 by done.
  change (2 ^ MA_BIQUAD_FIXED_POINT_SHIFT) with 16384.
  split; [apply Z.div_le_lower_bound|apply Z.lt_succ_r, Z.div_lt_upper_bound]; lia.
Qed.

Lemma lpf1_channels_lookup channel sample register x r1 c a u :
  x !! c = Some a -> r1 !! c = Some u ->
  (lpf1_channels channel sample register x r1).1 !! c = Some (sample (channel a u))
  /\ (lpf1_channels channel sample register x r1).2 !! c = Some (register (channel a u)).
Proof.
  revert x r1. induction c as [|c IH]; intros [|a0 x] [|u0 r1] Ha Hu; try done; cbn [lpf1_channels].
  - injection Ha as ->. injection Hu as ->. by destruct (lpf1_channels _ _ _ x r1).
  - destruct (IH x r1 Ha Hu) as [A B]. by destruct (lpf1_channels _ _ _ x r1).
Qed.

(** ** Properties *)

(** Filtering a buffer in place, filter by filter over the whole buffer, gives the
    same samples and the same filter as filtering it frame by frame into another
    buffer; nothing beyond the frames is written, and both succeed. *)
Theorem lpf_in_place_equals_copy f src out n :
  lpf_wf f -> 0 <= n < 2 ^ 32 -> n * lpf_channels f <= zlen src ->
  exists y f', zlen y = n * lpf_channels f /\ same_lpf f f'
    /\ ma_lpf_process_pcm_frames f src None n = Some (MA_SUCCESS, wr src 0 y, f')
    /\ ma_lpf_process_pcm_frames f out (Some src) n = Some (MA_SUCCESS, wr out 0 y, f').
Proof.
  intros Hw Hn Hs. pose proof (lw_channels f Hw).
  destruct (Z_of_nat_complete n ltac:(lia)) as [k ->]. set (ch := lpf_channels f) in *.
  set (x := take (Z.to_nat (Z.of_nat k * ch)) src).
  set (rest := drop (Z.to_nat (Z.of_nat k * ch)) src).
  assert (Hx : zlen x = Z.of_nat k * ch) by (subst x; rewrite zlen_take; nia).
  assert (Esrc : src = x ++ rest) by (symmetry; apply take_drop).
  set (run := frames_loop ch (step_of (lpf_format f)) k f x).
  destruct (frames_loop_ok ch (same_lpf f) (step_of (lpf_format f)) k f x) as [L W];
    [lia|by apply lpf_frame_step|done|lia|].
  exists run.1, run.2. split_and!; [done|done|..]; unfold ma_lpf_process_pcm_frames.
  - rewrite Esrc at 1. rewrite lpf_process_in_place_eq by done. fold ch run.
    by rewrite (wr_prefix src _ (Z.of_nat k * ch)) by (done || nia).
  - rewrite lpf_process_copy_eq by done. fold ch. by rewrite Esrc, frames_loop_app by lia.
Qed.

(** Every filter that initialisation or re-initialisation reports as successful is
    well-formed for its configuration (sub-filters of the order asked for, each with a
    register per channel), and clearing, filtering in place and filtering into another
    buffer keep it so. *)
Theorem lpf_operations_well_formed lm malloc c f :
  0 < lc_channels c < 2 ^ 32 -> 0 <= lc_order c ->
  (forall g, ma_lpf_init lm malloc c = Some (MA_SUCCESS, g) ->
     lpf_wf g /\ lpf_format g = lc_format c /\ lpf_channels g = lc_channels c)
  /\ (lpf_wf f -> forall g, ma_lpf_reinit lm c f = Some (MA_SUCCESS, g) ->
        lpf_wf g /\ lpf_format g = lc_format c /\ lpf_channels g = lc_channels c)
  /\ (lpf_wf f -> same_lpf f (snd (ma_lpf_clear_cache f)))
  /\ (lpf_wf f -> forall x, zlen x = lpf_channels f ->
        same_lpf f (snd (ma_lpf_process_pcm_frame_s16 f x))
        /\ same_lpf f (snd (ma_lpf_process_pcm_frame_f32 f x))).
Proof.
  intros Hc Ho. split_and!.
  - intros g. unfold ma_lpf_init. destruct (ma_lpf_get_heap_size _ _) as [r size].
    destruct (r =? MA_SUCCESS) eqn:Er; [|intros [-> _]%some_result_inj; done].
    destruct (_ && _); [by intros [? _]%some_result_inj|].
    by apply ma_lpf_reinit__internal_wf.
  - intros Hw g. by apply ma_lpf_reinit__internal_wf.
  - apply ma_lpf_clear_cache_wf.
  - intros Hw x Hx.
    split; [apply (lpf_frame_step f ma_format_s16 Hw f x)|apply (lpf_frame_step f ma_format_f32 Hw f x)];
      done.
Qed.

(** The first-order filter on 16-bit samples never overflows its fixed-point sums and
    never overshoots: when its coefficient is between 0 and 1, each output sample lies
    between the input sample and the channel's previous output. *)
Theorem lpf1_s16_between f pX c x r :
  0 <= co_s32 (l1_a f) <= 2 ^ MA_BIQUAD_FIXED_POINT_SHIFT ->
  pX !! c = Some x -> l1_pR1 f !! c = Some (of_s32 r) -> in_s 16 x -> in_s 16 r ->
  exists y, (ma_lpf1_process_pcm_frame_s16 f pX).1 !! c = Some y
    /\ l1_pR1 (ma_lpf1_process_pcm_frame_s16 f pX).2 !! c = Some (of_s32 y)
    /\ Z.min x r <= y <= Z.max x r.
Proof.
  intros Ha Hx Hr Bx Br. unfold ma_lpf1_process_pcm_frame_s16, lpf1_frame.
  destruct (lpf1_channels_lookup (lpf1_channel_s16 f) s16 of_s32 pX (l1_pR1 f) c x (of_s32 r) Hx Hr)
    as [A B].
  assert (Er : co_s32 (of_s32 r) = r).
  { unfold co_s32, of_s32, s32, u32. revert Br. unfold in_s, wraps, wrapu. intros Br.
    change (2 ^ (16 - 1)) with 32768 in Br. change (2 ^ (32 - 1)) with 2147483648.
    change (2 ^ 32) with 4294967296. Z.div_mod_to_equations. lia. }
  pose proof (lpf1_channel_between f x (of_s32 r) Ha Bx) as H. rewrite Er in H. specialize (H Br).
  set (y := lpf1_channel_s16 f x (of_s32 r)) in *.
  assert (Ey : s16 y = y) by (apply (wraps_id 16); [lia|]; revert Bx Br; unfold in_s; lia).
  rewrite Ey in A. exists y. destruct (lpf1_channels _ _ _ _ _) as [ys rs]. exact (conj A (conj B H)).
Qed.

(** Clearing the cache of a filter of 16-bit samples clears the wrong things: each
    first-order filter loses its coefficient and from then on returns every frame
    unchanged, and a second-order filter forgets the registers of its first channel
    only. *)
Theorem lpf_clear_cache_effect f :
  lpf_wf f -> lpf_format f = ma_format_s16 ->
  Forall (fun g => forall x, zlen x = lpf_channels f -> Forall (in_s 16) x ->
            (ma_lpf1_process_pcm_frame_s16 g x).1 = x)
    (pLPF1 (snd (ma_lpf_clear_cache f)))
  /\ Forall2 (fun g g' =>
       bq_pR1 (l2_bq g') = of_s32 0 :: tail (bq_pR1 (l2_bq g))
       /\ bq_pR2 (l2_bq g') = of_s32 0 :: tail (bq_pR2 (l2_bq g)))
    (pLPF2 f) (pLPF2 (snd (ma_lpf_clear_cache f))).
Proof.
  intros [_ Hch _ _ _ L1 L2] Hfmt. rewrite Hfmt in L1, L2. simpl. split.
  - apply Forall_map. revert L1. apply Forall_impl. intros g (Hf & _ & Hl) x Hx Bx.
    simpl. apply lpf1_cleared_frame; [|simpl; lia|done]. simpl. by rewrite decide_False by congruence.
  - induction L2 as [|g gs (Hf & _ & H1 & H2) Hgs IH]; simpl; [constructor|constructor; [|done]].
    unfold ma_biquad_clear_cache. simpl. rewrite !decide_False by congruence.
    destruct g as [[? ? ? ? ? ? ? r1 r2]]. simpl in *. unfold zlen in *.
    destruct r1, r2; simpl in *; try lia. done.
Qed.

(** ** A sample filter: order 3, stereo *)

Definition demo_lpf : ma_lpf :=
  mk_lpf ma_format_s16 2 48000 1 1 [mk_lpf1 ma_format_s16 2 8192 [100; of_s32 (-200)]]
    [mk_lpf2 (mk_biquad ma_format_s16 2 4096 8192 4096 (of_s32 (-9000)) 3000 [5; 6] [7; 8])].

Lemma demo_lpf_wf : lpf_wf demo_lpf.
Proof. split; simpl; [by right|lia|done|done|by split|repeat constructor..]. Qed.

(** [exp] and [sin] are constant, so the coefficients are 1/2. *)
Definition demo_libm : libm := mk_libm (fun _ => f64_lit 1 2) (fun _ => f64_lit 1 2).
Definition demo_lpf_config : ma_lpf_config := ma_lpf_config_init ma_format_s16 2 48000 (f64_of_Z 8000) 3.

Lemma lpf_in_place_equals_copy_witness :
  exists y f', ma_lpf_process_pcm_frames demo_lpf [1000; 2000; 3000; 4000; 77] None 2
      = Some (MA_SUCCESS, wr [1000; 2000; 3000; 4000; 77] 0 y, f')
    /\ ma_lpf_process_pcm_frames demo_lpf [0; 0; 0; 0] (Some [1000; 2000; 3000; 4000; 77]) 2
      = Some (MA_SUCCESS, wr [0; 0; 0; 0] 0 y, f').
Proof.
  destruct (lpf_in_place_equals_copy demo_lpf [1000; 2000; 3000; 4000; 77] [0; 0; 0; 0] 2)
    as (y & f' & _ & _ & A & B); [exact demo_lpf_wf|lia|vm_decide|].
  exists y, f'. exact (conj A B).
Defined.

Lemma lpf_operations_well_formed_witness :
  exists g, ma_lpf_init demo_libm (fun _ => true) demo_lpf_config = Some (MA_SUCCESS, g) /\ lpf_wf g.
Proof.
  destruct (lpf_operations_well_formed demo_libm (fun _ => true) demo_lpf_config demo_lpf)
    as (H & _); [simpl; lia|vm_decide|].
  destruct (ma_lpf_init demo_libm (fun _ => true) demo_lpf_config) as [[r g]|] eqn:E;
    vm_compute in E; [|done].
  injection E as <- Eg. exists g. split; [done|]. exact (proj1 (H g eq_refl)).
Defined.

Lemma lpf1_s16_between_witness :
  exists y, (ma_lpf1_process_pcm_frame_s16 (mk_lpf1 ma_format_s16 2 8192 [100; of_s32 (-200)])
               [1000; 2000]).1 !! 1%nat = Some y
    /\ l1_pR1 (ma_lpf1_process_pcm_frame_s16 (mk_lpf1 ma_format_s16 2 8192 [100; of_s32 (-200)])
               [1000; 2000]).2 !! 1%nat = Some (of_s32 y)
    /\ Z.min 2000 (-200) <= y <= Z.max 2000 (-200).
Proof. apply lpf1_s16_between; [vm_decide|reflexivity|reflexivity|vm_decide|vm_decide]. Defined.

Lemma lpf_clear_cache_effect_witness :
  Forall (fun g => forall x, zlen x = 2 -> Forall (in_s 16) x ->
            (ma_lpf1_process_pcm_frame_s16 g x).1 = x)
    (pLPF1 (snd (ma_lpf_clear_cache demo_lpf))).
Proof. apply (lpf_clear_cache_effect demo_lpf); [exact demo_lpf_wf|reflexivity]. Defined.

(** The low-pass filter does change frames before it is cleared. *)
Example demo_lpf1_filters :
  (ma_lpf1_process_pcm_frame_s16 (mk_lpf1 ma_format_s16 2 8192 [100; of_s32 (-200)]) [1000; 2000]).1
  = [550; 900].
Proof. reflexivity. Qed.
