(* ===== verification/LinearResampler.v ===== *)
(** * Linear resampler (miniaudio.h, [ma_linear_resampler])

    The resampler keeps the two input frames around the current position and the
    position itself as a fraction: [inTimeInt] whole input frames still to be loaded, and
    [inTimeFrac] over the output rate.  When downsampling every input frame goes through
    the low-pass filter, when upsampling every output frame does.

    The four processing functions of the source have the same two loops; they differ in the
    format of a sample and in the place of the filter, which are parameters of the loops
    here.  Buffers are lists of samples as in [Biquad.v]. *)
From Stdlib Require Import ZArith Lia Bool SpecFloat.
From stdpp Require Import base numbers list option.
From S2P Require Import Prelude MaTypes CFloat Biquad LowPass.

Local Open Scope Z_scope.

Definition MA_DEFAULT_RESAMPLER_LPF_ORDER : Z := 4.

(** ** Greatest common factor *)

Fixpoint gcf_loop (fuel : nat) (a b : Z) : option Z :=
  if b =? 0 then Some a
  else
    match fuel with
    | O => None
    | S fuel => gcf_loop fuel b (a mod b)
    end.

(** The remainders of 32-bit numbers halve every two rounds, so 64 rounds are enough. *)
Definition ma_gcf_u32 (a b : Z) : option Z := gcf_loop 64 a b.

(** ** State *)

Record ma_linear_resampler_config := mk_lr_config {
  lrc_format : ma_format;
  lrc_channels : Z;
  lrc_sampleRateIn : Z;
  lrc_sampleRateOut : Z;
  lrc_lpfOrder : Z;
  lrc_lpfNyquistFactor : spec_float }.

Definition ma_linear_resampler_config_init (format : ma_format)
    (channels sampleRateIn sampleRateOut : Z) : ma_linear_resampler_config :=
  mk_lr_config format channels sampleRateIn sampleRateOut
    (ma_min MA_DEFAULT_RESAMPLER_LPF_ORDER MA_MAX_FILTER_ORDER) (f64_of_Z 1).

Record ma_linear_resampler := mk_lr {
  lr_config : ma_linear_resampler_config;
  inAdvanceInt : Z;
  inAdvanceFrac : Z;
  inTimeInt : Z;
  inTimeFrac : Z;
  lr_x0 : list Z;
  lr_x1 : list Z;
  lr_lpf : ma_lpf }.

Definition rateIn (r : ma_linear_resampler) : Z := lrc_sampleRateIn (lr_config r).
Definition rateOut (r : ma_linear_resampler) : Z := lrc_sampleRateOut (lr_config r).
Definition lr_channels (r : ma_linear_resampler) : Z := lrc_channels (lr_config r).

Definition with_rates (c : ma_linear_resampler_config) (rin rout : Z) : ma_linear_resampler_config :=
  mk_lr_config (lrc_format c) (lrc_channels c) rin rout (lrc_lpfOrder c) (lrc_lpfNyquistFactor c).
Definition lr_with_config (r : ma_linear_resampler) (c : ma_linear_resampler_config) :=
  mk_lr c (inAdvanceInt r) (inAdvanceFrac r) (inTimeInt r) (inTimeFrac r) (lr_x0 r) (lr_x1 r) (lr_lpf r).
Definition lr_with_advance (r : ma_linear_resampler) (int frac : Z) :=
  mk_lr (lr_config r) int frac (inTimeInt r) (inTimeFrac r) (lr_x0 r) (lr_x1 r) (lr_lpf r).
Definition lr_with_time (r : ma_linear_resampler) (int frac : Z) :=
  mk_lr (lr_config r) (inAdvanceInt r) (inAdvanceFrac r) int frac (lr_x0 r) (lr_x1 r) (lr_lpf r).
Definition lr_with_frames (r : ma_linear_resampler) (x0 x1 : list Z) :=
  mk_lr (lr_config r) (inAdvanceInt r) (inAdvanceFrac r) (inTimeInt r) (inTimeFrac r) x0 x1 (lr_lpf r).
Definition lr_with_lpf (r : ma_linear_resampler) (lpf : ma_lpf) :=
  mk_lr (lr_config r) (inAdvanceInt r) (inAdvanceFrac r) (inTimeInt r) (inTimeFrac r)
    (lr_x0 r) (lr_x1 r) lpf.

(** ** Rates *)

(** All arithmetic is on [ma_uint32]; the product of a fraction and a rate is not widened. *)
Definition ma_linear_resampler_adjust_timer_for_new_rate (r : ma_linear_resampler)
    (oldSampleRateOut newSampleRateOut : Z) : ma_linear_resampler :=
  let oldRateTimeWhole := inTimeFrac r / oldSampleRateOut in
  let oldRateTimeFract := inTimeFrac r mod oldSampleRateOut in
  let frac := u32 (u32 (oldRateTimeWhole * newSampleRateOut)
                   + u32 (oldRateTimeFract * newSampleRateOut) / oldSampleRateOut) in
  lr_with_time r (u32 (inTimeInt r + frac / rateOut r)) (frac mod rateOut r).

Section rates.
Context (lm : libm).

(** [None]: undefined behaviour in the coefficients of the filter, or the factor does not
    terminate. *)
Definition ma_linear_resampler_set_rate_internal (r : ma_linear_resampler)
    (sampleRateIn sampleRateOut : Z) (isResamplerAlreadyInitialized : bool)
    : option (ma_result * ma_linear_resampler) :=
  if (sampleRateIn =? 0) || (sampleRateOut =? 0) then Some (MA_INVALID_ARGS, r)
  else
    let oldSampleRateOut := rateOut r in
    match ma_gcf_u32 sampleRateIn sampleRateOut with
    | None => None
    | Some gcf =>
        let rin := sampleRateIn / gcf in
        let rout := sampleRateOut / gcf in
        let r := lr_with_config r (with_rates (lr_config r) rin rout) in
        let c := lr_config r in
        if lrc_lpfOrder c >? MA_MAX_FILTER_ORDER then Some (MA_INVALID_ARGS, r)
        else
          let lpfSampleRate := ma_max rin rout in
          let lpfCutoffFrequency :=
            f64_mul (f64_mul (f64_of_Z (ma_min rin rout)) (f64_lit 1 2)) (lrc_lpfNyquistFactor c) in
          let lpfConfig := ma_lpf_config_init (lrc_format c) (lrc_channels c) lpfSampleRate
                             lpfCutoffFrequency (lrc_lpfOrder c) in
          match
            if isResamplerAlreadyInitialized then ma_lpf_reinit lm lpfConfig (lr_lpf r)
            else ma_lpf_init_preallocated lm lpfConfig
          with
          | None => None
          | Some (result, lpf) =>
              let r := lr_with_lpf r lpf in
              if negb (result =? MA_SUCCESS) then Some (result, r)
              else
                let r := lr_with_advance r (rin / rout) (rin mod rout) in
                Some (MA_SUCCESS,
                      ma_linear_resampler_adjust_timer_for_new_rate r oldSampleRateOut (rateOut r))
          end
    end.

Record ma_linear_resampler_heap_layout := mk_lr_layout {
  lrl_sizeInBytes : Z;
  lrl_x0Offset : Z;
  lrl_x1Offset : Z;
  lrl_lpfOffset : Z }.

Definition ma_linear_resampler_get_heap_layout (pConfig : option ma_linear_resampler_config)
    : ma_result * ma_linear_resampler_heap_layout :=
  let zero := mk_lr_layout 0 0 0 0 in
  match pConfig with
  | None => (MA_INVALID_ARGS, zero)
  | Some c =>
      if bool_decide (lrc_format c <> ma_format_f32) && bool_decide (lrc_format c <> ma_format_s16)
      then (MA_INVALID_ARGS, zero)
      else if lrc_channels c =? 0 then (MA_INVALID_ARGS, zero)
      else
        let frame := u64 ((if decide (lrc_format c = ma_format_f32) then 4 else 2) * lrc_channels c) in
        let x1Offset := u64 (0 + frame) in
        let size := u64 (x1Offset + frame) in
        let lpfOffset := ma_align_64 size in
        let lpfConfig := ma_lpf_config_init (lrc_format c) (lrc_channels c) 1 (f64_of_Z 1)
                           (lrc_lpfOrder c) in
        let '(result, lpfHeapSizeInBytes) := ma_lpf_get_heap_size lm (Some lpfConfig) in
        if negb (result =? MA_SUCCESS) then (result, mk_lr_layout size 0 x1Offset lpfOffset)
        else (MA_SUCCESS,
              mk_lr_layout (ma_align_64 (u64 (size + lpfHeapSizeInBytes))) 0 x1Offset lpfOffset)
  end.

Definition ma_linear_resampler_get_heap_size (pConfig : option ma_linear_resampler_config)
    : ma_result * Z :=
  let '(result, layout) := ma_linear_resampler_get_heap_layout pConfig in
  if result =? MA_SUCCESS then (MA_SUCCESS, lrl_sizeInBytes layout) else (result, 0).

Definition ma_linear_resampler_init_preallocated (c : ma_linear_resampler_config)
    : option (ma_result * option ma_linear_resampler) :=
  let '(result, layout) := ma_linear_resampler_get_heap_layout (Some c) in
  if negb (result =? MA_SUCCESS) then Some (result, None)
  else
    let zeros := zrep (lrc_channels c) 0 in
    match ma_linear_resampler_set_rate_internal (mk_lr c 0 0 0 0 zeros zeros ma_lpf_zero)
            (lrc_sampleRateIn c) (lrc_sampleRateOut c) false with
    | None => None
    | Some (result, r) =>
        if negb (result =? MA_SUCCESS) then Some (result, None)
        else Some (MA_SUCCESS, Some (lr_with_time r 1 0))
    end.

(** The resampler is [None] when the call fails. *)
Definition ma_linear_resampler_init (malloc : Z -> bool) (c : ma_linear_resampler_config)
    : option (ma_result * option ma_linear_resampler) :=
  let '(result, size) := ma_linear_resampler_get_heap_size (Some c) in
  if negb (result =? MA_SUCCESS) then Some (result, None)
  else if (size >? 0) && negb (malloc size) then Some (MA_OUT_OF_MEMORY, None)
  else ma_linear_resampler_init_preallocated c.

Definition ma_linear_resampler_set_rate (r : ma_linear_resampler) (sampleRateIn sampleRateOut : Z)
    : option (ma_result * ma_linear_resampler) :=
  ma_linear_resampler_set_rate_internal r sampleRateIn sampleRateOut true.

(** [ratioInOut] is a [float]; so is its product with 1000000. *)
Definition ma_linear_resampler_set_rate_ratio (r : ma_linear_resampler) (ratioInOut : spec_float)
    : option (ma_result * ma_linear_resampler) :=
  if SFleb ratioInOut f32_zero then Some (MA_INVALID_ARGS, r)
  else
    match sf_to_u 32 (f32_mul ratioInOut (f32_of_Z 1000000)) with
    | None => None
    | Some n =>
        if n =? 0 then Some (MA_INVALID_ARGS, r) else ma_linear_resampler_set_rate r n 1000000
    end.

End rates.

(** ** Interpolation *)

Definition ma_linear_resampler_mix_s16 (x y a shift : Z) : Z :=
  let b := s32 (x * s32 (2 ^ shift - a)) in
  let c := s32 (y * a) in
  let r := s32 (b + c) in
  s16 (Z.shiftr r shift).

Definition ma_mix_f32_fast (x y a : spec_float) : spec_float :=
  let r0 := f32_sub y x in
  let r1 := f32_mul r0 a in
  f32_add x r1.

Definition ma_linear_resampler_interpolate_frame_s16 (r : ma_linear_resampler) : list Z :=
  let shift := 12 in
  let a := u32 (Z.shiftl (inTimeFrac r) shift) / rateOut r in
  zip_with (fun x y => ma_linear_resampler_mix_s16 x y (s32 a) shift) (lr_x0 r) (lr_x1 r).

Definition ma_linear_resampler_interpolate_frame_f32 (r : ma_linear_resampler) : list Z :=
  let a := f32_div (f32_of_Z (inTimeFrac r)) (f32_of_Z (rateOut r)) in
  zip_with (fun x y => bits_of_f32 (ma_mix_f32_fast (f32_of_bits x) (f32_of_bits y) a))
    (lr_x0 r) (lr_x1 r).

(** ** Processing *)

Section process.
(** What happens to a frame that was just loaded, and how an output frame is made. *)
Context (on_load : ma_linear_resampler -> ma_linear_resampler).
Context (on_output : ma_linear_resampler -> list Z * ma_linear_resampler).

(** [x0 = x1] and [x1 = ] the next input frame, or silence. *)
Definition load_frame (r : ma_linear_resampler) (pFramesIn : option (list Z)) : ma_linear_resampler :=
  let next :=
    match pFramesIn with
    | Some p => take (Z.to_nat (lr_channels r)) p
    | None => zrep (lr_channels r) 0
    end in
  on_load (lr_with_frames r (lr_x1 r) next).

(** The inner loop; [n] input frames are left. Returns the number of frames loaded. *)
Fixpoint load_loop (n : nat) (r : ma_linear_resampler) (pFramesIn : option (list Z))
    : Z * option (list Z) * ma_linear_resampler :=
  match n with
  | O => (0, pFramesIn, r)
  | S n =>
      if inTimeInt r >? 0 then
        let r' := load_frame r pFramesIn in
        let pFramesIn := option_map (drop (Z.to_nat (lr_channels r))) pFramesIn in
        let '(k, pFramesIn, r') :=
          load_loop n (lr_with_time r' (u32 (inTimeInt r' - 1)) (inTimeFrac r')) pFramesIn in
        (1 + k, pFramesIn, r')
      else (0, pFramesIn, r)
  end.

Definition advance_time (r : ma_linear_resampler) : ma_linear_resampler :=
  let int := u32 (inTimeInt r + inAdvanceInt r) in
  let frac := u32 (inTimeFrac r + inAdvanceFrac r) in
  if frac >=? rateOut r then lr_with_time r (u32 (int + 1)) (u32 (frac - rateOut r))
  else lr_with_time r int frac.

(** The outer loop; [m] output frames and [n] input frames are left. [write] says whether
    there is an output buffer. Returns the frames loaded, the frames produced, and
    the samples written. *)
Fixpoint output_loop (m n : nat) (r : ma_linear_resampler) (pFramesIn : option (list Z))
    (write : bool) : Z * Z * list Z * ma_linear_resampler :=
  match m with
  | O => (0, 0, [], r)
  | S m =>
      let '(k, pFramesIn, r) := load_loop n r pFramesIn in
      if inTimeInt r >? 0 then (k, 0, [], r)
      else
        let '(y, r) := if write then on_output r else ([], r) in
        let '(k', produced, ys, r) :=
          output_loop m (n - Z.to_nat k)%nat (advance_time r) pFramesIn write in
        (k + k', 1 + produced, y ++ ys, r)
  end.

(** Returns the result, [*pFrameCountIn], [*pFrameCountOut] and the output buffer. *)
Definition process_loops (r : ma_linear_resampler) (pFramesIn : option (list Z)) (frameCountIn : Z)
    (pFramesOut : option (list Z)) (frameCountOut : Z)
    : ma_result * Z * Z * option (list Z) * ma_linear_resampler :=
  let '(k, m, y, r) :=
    output_loop (Z.to_nat frameCountOut) (Z.to_nat frameCountIn) r pFramesIn
      (bool_decide (is_Some pFramesOut)) in
  (MA_SUCCESS, k, m, option_map (fun out => wr out 0 y) pFramesOut, r).

End process.

(** Filtering is skipped when the rates are the same. *)
Definition filter_loaded (filter : ma_lpf -> list Z -> list Z * ma_lpf) (r : ma_linear_resampler)
    : ma_linear_resampler :=
  if negb (rateIn r =? rateOut r) then
    let '(x1, lpf) := filter (lr_lpf r) (lr_x1 r) in
    lr_with_lpf (lr_with_frames r (lr_x0 r) x1) lpf
  else r.

Definition filter_output (filter : ma_lpf -> list Z -> list Z * ma_lpf)
    (interpolate : ma_linear_resampler -> list Z) (r : ma_linear_resampler)
    : list Z * ma_linear_resampler :=
  let y := interpolate r in
  if negb (rateIn r =? rateOut r) then
    let '(y, lpf) := filter (lr_lpf r) y in (y, lr_with_lpf r lpf)
  else (y, r).

Definition ma_linear_resampler_process_pcm_frames_s16_downsample :=
  process_loops (filter_loaded ma_lpf_process_pcm_frame_s16)
    (fun r => (ma_linear_resampler_interpolate_frame_s16 r, r)).

Definition ma_linear_resampler_process_pcm_frames_s16_upsample :=
  process_loops (fun r => r)
    (filter_output ma_lpf_process_pcm_frame_s16 ma_linear_resampler_interpolate_frame_s16).

Definition ma_linear_resampler_process_pcm_frames_s16 (r : ma_linear_resampler) :=
  if rateIn r >? rateOut r then ma_linear_resampler_process_pcm_frames_s16_downsample r
  else ma_linear_resampler_process_pcm_frames_s16_upsample r.

Definition ma_linear_resampler_process_pcm_frames_f32_downsample :=
  process_loops (filter_loaded ma_lpf_process_pcm_frame_f32)
    (fun r => (ma_linear_resampler_interpolate_frame_f32 r, r)).

Definition ma_linear_resampler_process_pcm_frames_f32_upsample :=
  process_loops (fun r => r)
    (filter_output ma_lpf_process_pcm_frame_f32 ma_linear_resampler_interpolate_frame_f32).

Definition ma_linear_resampler_process_pcm_frames_f32 (r : ma_linear_resampler) :=
  if rateIn r >? rateOut r then ma_linear_resampler_process_pcm_frames_f32_downsample r
  else ma_linear_resampler_process_pcm_frames_f32_upsample r.

Definition ma_linear_resampler_process_pcm_frames (r : ma_linear_resampler)
    (pFramesIn : option (list Z)) (frameCountIn : Z) (pFramesOut : option (list Z))
    (frameCountOut : Z) : ma_result * Z * Z * option (list Z) * ma_linear_resampler :=
  match lrc_format (lr_config r) with
  | ma_format_s16 =>
      ma_linear_resampler_process_pcm_frames_s16 r pFramesIn frameCountIn pFramesOut frameCountOut
  | ma_format_f32 =>
      ma_linear_resampler_process_pcm_frames_f32 r pFramesIn frameCountIn pFramesOut frameCountOut
  | _ => (MA_INVALID_ARGS, frameCountIn, frameCountOut, pFramesOut, r)
  end.

(** ** Latency and frame counts *)

Definition ma_linear_resampler_get_input_latency (r : ma_linear_resampler) : Z :=
  u64 (1 + ma_lpf_get_latency (lr_lpf r)).

Definition ma_linear_resampler_get_output_latency (r : ma_linear_resampler) : Z :=
  u64 (ma_linear_resampler_get_input_latency r * rateOut r) / rateIn r.

(** [*pInputFrameCount] *)
Definition ma_linear_resampler_get_required_input_frame_count (r : ma_linear_resampler)
    (outputFrameCount : Z) : ma_result * Z :=
  if outputFrameCount =? 0 then (MA_SUCCESS, 0)
  else
    let outputFrameCount := u64 (outputFrameCount - 1) in
    let inputFrameCount := u64 (inTimeInt r + u64 (outputFrameCount * inAdvanceInt r)) in
    (MA_SUCCESS,
     u64 (inputFrameCount
          + u64 (inTimeFrac r + u64 (outputFrameCount * inAdvanceFrac r)) / rateOut r)).

(** [*pOutputFrameCount] *)
Definition ma_linear_resampler_get_expected_output_frame_count (r : ma_linear_resampler)
    (inputFrameCount : Z) : ma_result * Z :=
  let outputFrameCount := u64 (inputFrameCount * rateOut r) / rateIn r in
  let fromFrac := u64 (inTimeFrac r + u64 (outputFrameCount * inAdvanceFrac r)) / rateOut r in
  let preliminary := u64 (u64 (inTimeInt r + u64 (outputFrameCount * inAdvanceInt r)) + fromFrac) in
  (MA_SUCCESS, if preliminary <=? inputFrameCount then u64 (outputFrameCount + 1)
               else outputFrameCount).

Definition ma_linear_resampler_reset (r : ma_linear_resampler) : ma_result * ma_linear_resampler :=
  let zeros := zrep (lr_channels r) 0 in
  (MA_SUCCESS,
   lr_with_lpf (lr_with_frames (lr_with_time r 1 0) zeros zeros) (snd (ma_lpf_clear_cache (lr_lpf r)))).
