(* ===== verification/LinearResamplerProps.v ===== *)
(** * Properties of the linear resampler

    The closed form of the two processing loops: which input frames surround each output
    frame, with which fraction, how many frames are read and produced, and the state that
    is left; the two functions that predict frame counts; the greatest common factor;
    changing the rate.

    Positions are measured in units of one [rateOut]-th of an input frame: output
    frame [j] of a call lies at [lr_pos r + j * rateIn r]. *)
From Stdlib Require Import ZArith Znumtheory Lia Bool SpecFloat.
From stdpp Require Import base numbers list option.
From S2P Require Import Prelude MaTypes CFloat Biquad LowPass LowPassProps LinearResampler.

Local Open Scope Z_scope.

(** ** Frame counts *)

(** Input frames that must have been loaded before output frame [j] can be made. *)
Definition need (pos rin rout j : Z) : Z := (pos + j * rin) / rout.

(** Output frames that [n] input frames are enough for. *)
Definition out_count (pos rin rout n : Z) : Z :=
  if (n + 1) * rout <=? pos then 0 else ((n + 1) * rout - 1 - pos) / rin + 1.

(** Frames read by a call with room for [m] output frames. *)
Definition in_count (pos rin rout n m : Z) : Z :=
  if m <=? out_count pos rin rout n then (if m =? 0 then 0 else need pos rin rout (m - 1)) else n.

Section counts.
Context (rin rout : Z) (Hin : 0 < rin) (Hout : 0 < rout).

Lemma need_le pos n j : need pos rin rout j <= n <-> pos + j * rin < (n + 1) * rout.
Proof using Hout.
  unfold need. split; intros H.
  - pose proof (Z.mod_pos_bound (pos + j * rin) rout Hout).
    pose proof (Z.div_mod (pos + j * rin) rout ltac:(lia)). nia.
  - apply Z.lt_succ_r, Z.div_lt_upper_bound; nia.
Qed.

Lemma out_count_nonneg pos n : 0 <= out_count pos rin rout n.
Proof using Hin.
  unfold out_count. destruct (Z.leb_spec ((n + 1) * rout) pos); [lia|].
  pose proof (Z.div_pos ((n + 1) * rout - 1 - pos) rin). lia.
Qed.

Lemma out_count_spec pos n j :
  0 <= j -> j < out_count pos rin rout n <-> need pos rin rout j <= n.
Proof using Hin Hout.
  intros Hj. rewrite need_le. unfold out_count.
  destruct (Z.leb_spec ((n + 1) * rout) pos) as [H|H]; [nia|].
  pose proof (Z.mod_pos_bound ((n + 1) * rout - 1 - pos) rin Hin).
  pose proof (Z.div_mod ((n + 1) * rout - 1 - pos) rin ltac:(lia)). nia.
Qed.

Lemma out_count_unique pos n c :
  0 <= c -> (forall j, 0 <= j -> j < c <-> need pos rin rout j <= n) -> out_count pos rin rout n = c.
Proof using Hin Hout.
  intros Hc H. pose proof (out_count_nonneg pos n) as Hn.
  destruct (Z.lt_trichotomy (out_count pos rin rout n) c) as [L|[L|L]]; [|done|].
  - pose proof (proj1 (H _ Hn) L) as K. apply (out_count_spec pos n _ Hn) in K. lia.
  - pose proof (proj1 (out_count_spec pos n c Hc) L) as K. apply (H c Hc) in K. lia.
Qed.

(** After the first output frame, [k] input frames later. *)
Lemma need_shift pos k j :
  need (pos + rin - k * rout) rin rout j = need pos rin rout (j + 1) - k.
Proof using Hout.
  unfold need. replace (pos + rin - k * rout + j * rin) with (pos + (j + 1) * rin + (- k) * rout) by lia.
  rewrite Z.div_add by lia. lia.
Qed.

Lemma out_count_shift pos k n :
  need pos rin rout 0 = k -> k <= n ->
  out_count pos rin rout n = 1 + out_count (pos + rin - k * rout) rin rout (n - k).
Proof using Hin Hout.
  intros Hk Hn. apply out_count_unique; [pose proof (out_count_nonneg (pos + rin - k * rout) (n - k)); lia|].
  intros j Hj. destruct (decide (j = 0)) as [->|Hj0].
  - pose proof (out_count_nonneg (pos + rin - k * rout) (n - k)). lia.
  - pose proof (out_count_spec (pos + rin - k * rout) (n - k) (j - 1) ltac:(lia)) as H.
    rewrite need_shift in H. replace (j - 1 + 1) with j in H by lia. lia.
Qed.

Lemma out_count_none pos n : n < need pos rin rout 0 -> out_count pos rin rout n = 0.
Proof using Hin Hout.
  intros H. apply out_count_unique; [lia|]. intros j Hj. split; [lia|]. rewrite need_le. intros K.
  assert (need pos rin rout 0 <= n) by (apply need_le; nia). lia.
Qed.

Lemma in_count_shift pos k n m :
  need pos rin rout 0 = k -> k <= n -> 0 <= m ->
  in_count pos rin rout n (1 + m) = k + in_count (pos + rin - k * rout) rin rout (n - k) m.
Proof using Hin Hout.
  intros Hk Hn Hm. unfold in_count. rewrite (out_count_shift pos k n) by done.
  set (c := out_count _ rin rout (n - k)).
  destruct (Z.leb_spec (1 + m) (1 + c)), (Z.leb_spec m c); try lia.
  destruct (Z.eqb_spec (1 + m) 0), (Z.eqb_spec m 0); try lia; subst.
  - rewrite Z.add_0_r, Z.sub_diag. lia.
  - rewrite need_shift. replace (1 + m - 1) with (m - 1 + 1) by lia. lia.
Qed.
End counts.

(** ** The state *)

Definition lr_pos (r : ma_linear_resampler) : Z := inTimeInt r * rateOut r + inTimeFrac r.

(** The advance per output frame is the quotient of the rates. The output rate leaves
    room for the sum of two fractions in 32 bits. *)
Record lr_wf (r : ma_linear_resampler) : Prop := {
  lr_rate_in : 0 < rateIn r < 2 ^ 32;
  lr_rate_out : 0 < rateOut r <= 2 ^ 31;
  lr_adv_int : inAdvanceInt r = rateIn r / rateOut r;
  lr_adv_frac : inAdvanceFrac r = rateIn r mod rateOut r;
  lr_time_int : 0 <= inTimeInt r < 2 ^ 32;
  lr_time_frac : 0 <= inTimeFrac r < rateOut r }.

(** Same rates and advance. *)
Definition same_rates (r r' : ma_linear_resampler) : Prop :=
  lr_config r' = lr_config r /\ inAdvanceInt r' = inAdvanceInt r /\ inAdvanceFrac r' = inAdvanceFrac r.

Definition same_time (r r' : ma_linear_resampler) : Prop :=
  same_rates r r' /\ inTimeInt r' = inTimeInt r /\ inTimeFrac r' = inTimeFrac r.

Lemma same_rates_trans r r' r'' : same_rates r r' -> same_rates r' r'' -> same_rates r r''.
Proof. intros (A & B & C) (A' & B' & C'). split_and!; congruence. Qed.

Lemma lr_wf_same r r' :
  lr_wf r -> same_rates r r' -> 0 <= inTimeInt r' < 2 ^ 32 -> 0 <= inTimeFrac r' < rateOut r ->
  lr_wf r'.
Proof.
  intros [] (Ec & Ei & Ef) Ht Hf. unfold rateIn, rateOut in *.
  split; unfold rateIn, rateOut; rewrite ?Ec; try done; congruence.
Qed.

Lemma need_0 r : lr_wf r -> need (lr_pos r) (rateIn r) (rateOut r) 0 = inTimeInt r.
Proof.
  intros []. unfold need, lr_pos. rewrite Z.mul_0_l, Z.add_0_r, Z.div_add_l by lia.
  rewrite Z.div_small by lia. lia.
Qed.

(** The clock after an output frame. *)
Lemma advance_time_spec r :
  lr_wf r -> inTimeInt r = 0 ->
  lr_wf (advance_time r) /\ same_rates r (advance_time r)
  /\ lr_pos (advance_time r) = lr_pos r + rateIn r
  /\ lr_x0 (advance_time r) = lr_x0 r /\ lr_x1 (advance_time r) = lr_x1 r
  /\ lr_lpf (advance_time r) = lr_lpf r.
Proof.
  intros Hw H0. pose proof Hw as []. unfold advance_time. rewrite H0, Z.add_0_l.
  pose proof (Z.div_mod (rateIn r) (rateOut r) ltac:(lia)) as Hdm.
  pose proof (Z.mod_pos_bound (rateIn r) (rateOut r) ltac:(lia)) as Hm.
  assert (0 <= inAdvanceInt r <= rateIn r).
  { rewrite lr_adv_int0. split; [apply Z.div_pos; lia|]. apply Z.div_le_upper_bound; nia. }
  unfold u32. rewrite (wrapu_id 32 (inAdvanceInt r)) by (unfold in_u; lia).
  rewrite (wrapu_id 32 (inTimeFrac r + inAdvanceFrac r)) by (unfold in_u; lia).
  destruct (Z.geb_spec (inTimeFrac r + inAdvanceFrac r) (rateOut r)) as [Hge|Hlt].
  - assert (inAdvanceInt r + 1 < 2 ^ 32).
    { assert (rateOut r <> 1) by lia. nia. }
    rewrite (wrapu_id 32 (inAdvanceInt r + 1)) by (unfold in_u; lia).
    rewrite (wrapu_id 32 (_ - rateOut r)) by (unfold in_u; lia).
    split; [eapply lr_wf_same; [done|done|simpl; lia..]|].
    split_and!; try done. unfold lr_pos. simpl. change (rateOut (lr_with_time _ _ _)) with (rateOut r).
    rewrite H0. nia.
  - split; [eapply lr_wf_same; [done|done|simpl; lia..]|].
    split_and!; try done. unfold lr_pos. simpl. change (rateOut (lr_with_time _ _ _)) with (rateOut r).
    rewrite H0. nia.
Qed.

(** ** The loops *)

Definition skip_frames (ch : Z) (n : nat) (p : option (list Z)) : option (list Z) :=
  option_map (drop (n * Z.to_nat ch)) p.

Definition next_frame (ch : Z) (p : option (list Z)) : list Z :=
  match p with Some p => take (Z.to_nat ch) p | None => zrep ch 0 end.

Lemma skip_frames_0 ch p : skip_frames ch 0 p = p.
Proof. by destruct p. Qed.

Lemma skip_frames_S ch n p :
  skip_frames ch n (option_map (drop (Z.to_nat ch)) p) = skip_frames ch (S n) p.
Proof. destruct p; simpl; [|done]. by rewrite drop_drop. Qed.

Lemma skip_frames_add ch n m p :
  skip_frames ch n (skip_frames ch m p) = skip_frames ch (m + n) p.
Proof. destruct p; simpl; [|done]. rewrite drop_drop. do 2 f_equal. lia. Qed.

Section loops.
Context (on_load : ma_linear_resampler -> ma_linear_resampler).
Context (on_output : ma_linear_resampler -> list Z * ma_linear_resampler).
Context (Hload : forall r, same_time r (on_load r)).
Context (Houtput : forall r, same_time r (on_output r).2).

Local Abbreviation load_frame := (load_frame on_load).
Local Abbreviation load_loop := (load_loop on_load).
Local Abbreviation output_loop := (output_loop on_load on_output).

(** Loading [n] frames. *)
Fixpoint load_n (n : nat) (r : ma_linear_resampler) (p : option (list Z)) : ma_linear_resampler :=
  match n with
  | O => r
  | S n =>
      let r' := load_frame r p in
      load_n n (lr_with_time r' (inTimeInt r' - 1) (inTimeFrac r'))
        (option_map (drop (Z.to_nat (lr_channels r))) p)
  end.

Lemma load_frame_time r p : same_time r (load_frame r p).
Proof using Hload. exact (Hload (lr_with_frames r (lr_x1 r) (next_frame (lr_channels r) p))). Qed.

(** One frame loaded and counted. *)
Lemma load_step_wf r p :
  lr_wf r -> 0 < inTimeInt r ->
  let r' := lr_with_time (load_frame r p) (inTimeInt r - 1) (inTimeFrac r) in
  lr_wf r' /\ same_rates r r' /\ lr_channels r' = lr_channels r.
Proof using Hload.
  intros Hw Hp. pose proof Hw as []. destruct (load_frame_time r p) as (Hs & _ & _).
  split_and!; [|apply Hs..|].
  - eapply lr_wf_same; [done|exact Hs|simpl; lia..].
  - unfold lr_channels. simpl. by rewrite (proj1 Hs).
Qed.

Lemma load_n_spec n r p :
  lr_wf r -> Z.of_nat n <= inTimeInt r ->
  lr_wf (load_n n r p) /\ same_rates r (load_n n r p) /\ lr_channels (load_n n r p) = lr_channels r
  /\ inTimeInt (load_n n r p) = inTimeInt r - Z.of_nat n /\ inTimeFrac (load_n n r p) = inTimeFrac r.
Proof using Hload.
  revert r p. induction n as [|n IH]; intros r p Hw Hn.
  - split_and!; [done..|simpl; lia|done].
  - cbn [load_n]. destruct (load_frame_time r p) as (_ & E1 & E2). rewrite E1, E2.
    destruct (load_step_wf r p Hw ltac:(lia)) as (W & S1 & C1).
    destruct (IH _ (option_map (drop (Z.to_nat (lr_channels r))) p) W) as (A & B & C & D & E);
      [simpl; lia|]. simpl in C1, D, E.
    split_and!; [done|by eapply same_rates_trans|congruence|lia|done].
Qed.

Lemma load_loop_spec n r p :
  lr_wf r ->
  let k := Nat.min n (Z.to_nat (inTimeInt r)) in
  load_loop n r p = (Z.of_nat k, skip_frames (lr_channels r) k p, load_n k r p).
Proof using Hload.
  revert r p. induction n as [|n IH]; intros r p Hw; cbv zeta;
    [by rewrite Nat.min_0_l, skip_frames_0|].
  cbn [load_loop]. destruct (Z.gtb_spec (inTimeInt r) 0) as [Hp|Hp].
  - destruct (load_frame_time r p) as (_ & E1 & E2). rewrite E1, E2.
    destruct (load_step_wf r p Hw Hp) as (W & S1 & C1). pose proof (lr_time_int r Hw).
    unfold u32. rewrite wrapu_id by (unfold in_u; lia).
    rewrite IH by done. cbn [inTimeInt lr_with_time].
    replace (Nat.min (S n) (Z.to_nat (inTimeInt r)))
      with (S (Nat.min n (Z.to_nat (inTimeInt r - 1)))) by lia.
    rewrite C1, skip_frames_S. cbn [load_n]. rewrite E1, E2. f_equal. f_equal. lia.
  - pose proof (lr_time_int r Hw). replace (Z.to_nat (inTimeInt r)) with 0%nat by lia.
    rewrite Nat.min_0_r. by rewrite skip_frames_0.
Qed.

(** The state that makes the next output frame, when there is input enough for it. *)
Definition loaded (r : ma_linear_resampler) (p : option (list Z)) : ma_linear_resampler :=
  load_n (Z.to_nat (inTimeInt r)) r p.

Lemma loaded_spec r p :
  lr_wf r -> lr_wf (loaded r p) /\ same_rates r (loaded r p) /\ lr_channels (loaded r p) = lr_channels r
  /\ inTimeInt (loaded r p) = 0 /\ inTimeFrac (loaded r p) = inTimeFrac r.
Proof using Hload.
  intros Hw. pose proof (lr_time_int r Hw).
  destruct (load_n_spec (Z.to_nat (inTimeInt r)) r p Hw) as (A & B & C & D & E); [lia|].
  split_and!; try done. unfold loaded. lia.
Qed.

(** The output frame, and the state after it. *)
Definition emit (write : bool) (r : ma_linear_resampler) : list Z * ma_linear_resampler :=
  if write then on_output r else ([], r).

Definition next_state (write : bool) (r : ma_linear_resampler) (p : option (list Z)) :=
  advance_time (emit write (loaded r p)).2.

Lemma emit_time write r : same_time r (emit write r).2.
Proof using Houtput. destruct write; [apply Houtput|]. by split_and!. Qed.

Lemma next_state_spec write r p :
  lr_wf r -> lr_wf (next_state write r p) /\ same_rates r (next_state write r p)
  /\ lr_channels (next_state write r p) = lr_channels r
  /\ lr_pos (next_state write r p) = lr_pos r + rateIn r - inTimeInt r * rateOut r.
Proof using Hload Houtput.
  intros Hw. destruct (loaded_spec r p Hw) as (A & B & C & D & E).
  destruct (emit_time write (loaded r p)) as (F & G & H). unfold next_state.
  destruct (advance_time_spec (emit write (loaded r p)).2) as (I & J & K & _).
  - eapply lr_wf_same; [exact A|exact F|rewrite G, D; lia|].
    rewrite H. pose proof (lr_time_frac _ A). lia.
  - by rewrite G.
  - assert (S2 : same_rates r (emit write (loaded r p)).2) by by eapply same_rates_trans.
    split_and!; [done|by eapply same_rates_trans..| |].
    + unfold lr_channels. destruct J as (J & _), S2 as (S2 & _). congruence.
    + rewrite K. unfold lr_pos, rateIn, rateOut. rewrite G, H, D, E, (proj1 S2). lia.
Qed.

(** One turn of the outer loop. *)
Lemma output_loop_S m n r p write :
  lr_wf r ->
  output_loop (S m) n r p write =
  if Z.of_nat n <? inTimeInt r then (Z.of_nat n, 0, [], load_n n r p)
  else
    let '(k, M, ys, r') := output_loop m (n - Z.to_nat (inTimeInt r))%nat (next_state write r p)
                             (skip_frames (lr_channels r) (Z.to_nat (inTimeInt r)) p) write in
    (inTimeInt r + k, 1 + M, (emit write (loaded r p)).1 ++ ys, r').
Proof using Hload.
  intros Hw. cbn [output_loop]. rewrite load_loop_spec by done. pose proof (lr_time_int r Hw).
  destruct (Z.ltb_spec (Z.of_nat n) (inTimeInt r)) as [L|L].
  - replace (Nat.min n (Z.to_nat (inTimeInt r))) with n by lia.
    destruct (load_n_spec n r p Hw) as (_ & _ & _ & D & _); [lia|].
    by rewrite (proj2 (Z.gtb_lt _ _)) by lia.
  - replace (Nat.min n (Z.to_nat (inTimeInt r))) with (Z.to_nat (inTimeInt r)) by lia.
    destruct (loaded_spec r p Hw) as (_ & _ & _ & D & _). unfold loaded in D. rewrite D.
    cbn [Z.gtb Z.compare]. fold (loaded r p). unfold next_state.
    change (if write then on_output (loaded r p) else ([], loaded r p)) with (emit write (loaded r p)).
    rewrite Nat2Z.id, Z2Nat.id by lia.
    destruct (emit write (loaded r p)) as [y r1]. cbn [fst snd].
    by destruct (output_loop m _ (advance_time r1) _ write) as [[[k M] ys] r'].
Qed.

(** The frames read and produced, and the clock that is left. *)
Lemma output_loop_counts m n r p write :
  lr_wf r ->
  let pos := lr_pos r in
  let '(k, M, _, r') := output_loop m n r p write in
  k = in_count pos (rateIn r) (rateOut r) (Z.of_nat n) (Z.of_nat m)
  /\ M = Z.min (Z.of_nat m) (out_count pos (rateIn r) (rateOut r) (Z.of_nat n))
  /\ 0 <= k <= Z.of_nat n
  /\ lr_wf r' /\ same_rates r r' /\ lr_pos r' = pos + M * rateIn r - k * rateOut r.
Proof using Hload Houtput.
  revert n r p. induction m as [|m IH]; intros n r p Hw; cbv zeta.
  - pose proof (out_count_nonneg (rateIn r) (rateOut r) ltac:(apply Hw) (lr_pos r) (Z.of_nat n)).
    unfold in_count. rewrite (proj2 (Z.leb_le _ _)) by lia. simpl.
    split_and!; try done; lia.
  - pose proof Hw as [H1 H2 _ _ H3 _]. rewrite output_loop_S by done.
    pose proof (need_0 r Hw) as Hn0.
    destruct (Z.ltb_spec (Z.of_nat n) (inTimeInt r)) as [L|L].
    + rewrite (out_count_none (rateIn r) (rateOut r)) by lia. unfold in_count.
      rewrite (out_count_none (rateIn r) (rateOut r)) by lia.
      rewrite (proj2 (Z.leb_gt _ _)) by lia.
      destruct (load_n_spec n r p Hw) as (A & B & _ & D & E); [lia|].
      split_and!; try done; try lia; try apply B.
      unfold lr_pos, rateOut. rewrite D, E, (proj1 B). lia.
    + destruct (next_state_spec write r p Hw) as (A & B & C & D).
      specialize (IH (n - Z.to_nat (inTimeInt r))%nat _
                    (skip_frames (lr_channels r) (Z.to_nat (inTimeInt r)) p) A).
      destruct (output_loop m _ (next_state write r p) _ write) as [[[k M] ys] r'].
      cbv zeta in IH. destruct IH as (I1 & I2 & I3 & I4 & I5 & I6).
      assert (rateIn (next_state write r p) = rateIn r
              /\ rateOut (next_state write r p) = rateOut r) as [Ei Eo].
      { unfold rateIn, rateOut. by rewrite (proj1 B). }
      rewrite Ei, Eo, D in *. rewrite Nat2Z.inj_sub, Z2Nat.id in * by lia.
      replace (Z.of_nat (S m)) with (1 + Z.of_nat m) by lia.
      rewrite (in_count_shift (rateIn r) (rateOut r) ltac:(lia) ltac:(lia) (lr_pos r) (inTimeInt r))
        by lia.
      rewrite (out_count_shift (rateIn r) (rateOut r) ltac:(lia) ltac:(lia) (lr_pos r) (inTimeInt r))
        by lia.
      split_and!; try lia; [done|by eapply same_rates_trans].
Qed.
End loops.

(** ** The samples *)

(** The first [n] frames of the input; silence when there is no input buffer. *)
Fixpoint take_frames (ch : Z) (n : nat) (p : option (list Z)) : list (list Z) :=
  match n with
  | O => []
  | S n => next_frame ch p :: take_frames ch n (option_map (drop (Z.to_nat ch)) p)
  end.

(** A filter over a sequence of frames. *)
Fixpoint run_filter (f : ma_lpf -> list Z -> list Z * ma_lpf) (l : ma_lpf) (xs : list (list Z))
    : list (list Z) * ma_lpf :=
  match xs with
  | [] => ([], l)
  | x :: xs => let '(y, l) := f l x in let '(ys, l) := run_filter f l xs in (y :: ys, l)
  end.

Lemma take_frames_add ch n m p :
  take_frames ch (n + m) p = take_frames ch n p ++ take_frames ch m (skip_frames ch n p).
Proof.
  revert p. induction n as [|n IH]; intros p; simpl; [by rewrite skip_frames_0|].
  by rewrite IH, skip_frames_S.
Qed.

Lemma length_take_frames ch n p : length (take_frames ch n p) = n.
Proof. revert p. induction n as [|n IH]; intros p; simpl; [done|]. by rewrite IH. Qed.

Lemma run_filter_app f l xs ys :
  run_filter f l (xs ++ ys) =
  ((run_filter f l xs).1 ++ (run_filter f (run_filter f l xs).2 ys).1,
   (run_filter f (run_filter f l xs).2 ys).2).
Proof.
  revert l. induction xs as [|x xs IH]; intros l; simpl.
  - by destruct (run_filter f l ys).
  - destruct (f l x) as [y l1]. rewrite IH. destruct (run_filter f l1 xs) as [zs l2]. simpl.
    by destruct (run_filter f l2 ys).
Qed.

Lemma length_run_filter f l xs : length (run_filter f l xs).1 = length xs.
Proof.
  revert l. induction xs as [|x xs IH]; intros l; simpl; [done|].
  destruct (f l x) as [y l1]. specialize (IH l1). destruct (run_filter f l1 xs) as [ys l2].
  simpl in *. by rewrite IH.
Qed.

Definition no_filter (l : ma_lpf) (x : list Z) : list Z * ma_lpf := (x, l).

Lemma run_no_filter l xs : run_filter no_filter l xs = (xs, l).
Proof. induction xs as [|x xs IH]; simpl; [done|]. by rewrite IH. Qed.

(** Of two filters at most one of which does anything, it does not matter whether [x] is
    given to the second one before or after the first one has seen [B]. *)
Lemma filters_commute fi fo l B x R :
  fi = no_filter \/ fo = no_filter ->
  run_filter fo (run_filter fi l B).2 (x :: R) =
  ((fo l x).1 :: (run_filter fo (run_filter fi (fo l x).2 B).2 R).1,
   (run_filter fo (run_filter fi (fo l x).2 B).2 R).2).
Proof.
  intros [-> | ->]; rewrite !run_no_filter; cbn [fst snd run_filter no_filter].
  - destruct (fo l x) as [y l']. cbn [fst snd]. by destruct (run_filter fo l' R).
  - by rewrite ?run_no_filter.
Qed.

(** The frames on both sides of the position: the two that are cached, then the input. *)
Definition window (x0 x1 : list Z) (fs : list (list Z)) : list (list Z) := x0 :: x1 :: fs.

Lemma window_shift x0 x1 (A B : list (list Z)) i :
  window x0 x1 (A ++ B) !!! (length A + i)%nat
  = window (window x0 x1 A !!! length A) (window x0 x1 A !!! S (length A)) B !!! i.
Proof.
  unfold window. destruct i as [|[|i]].
  - rewrite Nat.add_0_r. change (x0 :: x1 :: A ++ B) with ((x0 :: x1 :: A) ++ B).
    by rewrite lookup_total_app_l by (simpl; lia).
  - rewrite Nat.add_1_r. change (x0 :: x1 :: A ++ B) with ((x0 :: x1 :: A) ++ B).
    by rewrite lookup_total_app_l by (simpl; lia).
  - change (x0 :: x1 :: A ++ B) with ((x0 :: x1 :: A) ++ B).
    rewrite lookup_total_app_r by (simpl; lia). simpl. f_equal. lia.
Qed.

(** The interpolated frames of [M] outputs, given the window. *)
Definition interpolated (mix : Z -> Z -> list Z -> list Z -> list Z) (pos rin rout : Z)
    (W : list (list Z)) (M : Z) : list (list Z) :=
  map (fun j => let i := Z.to_nat (need pos rin rout j) in
                mix ((pos + j * rin) mod rout) rout (W !!! i) (W !!! S i))
    (seqZ 0 M).

Section samples.
Context (fin fout : ma_linear_resampler_config -> ma_lpf -> list Z -> list Z * ma_lpf).
Context (mix : Z -> Z -> list Z -> list Z -> list Z).
Context (Hone : forall c, fin c = no_filter \/ fout c = no_filter).

Definition load_with (r : ma_linear_resampler) : ma_linear_resampler :=
  let '(x1, lpf) := fin (lr_config r) (lr_lpf r) (lr_x1 r) in
  lr_with_lpf (lr_with_frames r (lr_x0 r) x1) lpf.

Definition output_with (r : ma_linear_resampler) : list Z * ma_linear_resampler :=
  let '(y, lpf) := fout (lr_config r) (lr_lpf r)
                     (mix (inTimeFrac r) (rateOut r) (lr_x0 r) (lr_x1 r)) in
  (y, lr_with_lpf r lpf).

Lemma load_with_time r : same_time r (load_with r).
Proof using. unfold load_with. destruct (fin _ _ _). by split_and!. Qed.

Lemma output_with_time r : same_time r (output_with r).2.
Proof using. unfold output_with. destruct (fout _ _ _). by split_and!. Qed.

(** The frames that [k] loads give. *)
Definition filtered_in (r : ma_linear_resampler) (k : nat) (p : option (list Z))
    : list (list Z) * ma_lpf :=
  run_filter (fin (lr_config r)) (lr_lpf r) (take_frames (lr_channels r) k p).

Definition lr_window (r : ma_linear_resampler) (k : nat) (p : option (list Z)) : list (list Z) :=
  window (lr_x0 r) (lr_x1 r) (filtered_in r k p).1.

Lemma load_frame_samples r p :
  let '(y, l) := fin (lr_config r) (lr_lpf r) (next_frame (lr_channels r) p) in
  lr_x0 (load_frame load_with r p) = lr_x1 r /\ lr_x1 (load_frame load_with r p) = y
  /\ lr_lpf (load_frame load_with r p) = l /\ lr_config (load_frame load_with r p) = lr_config r.
Proof using.
  unfold load_frame, load_with. cbn [lr_x1 lr_with_frames lr_config lr_lpf lr_x0].
  change (match p with Some p => take (Z.to_nat (lr_channels r)) p | None => zrep (lr_channels r) 0 end)
    with (next_frame (lr_channels r) p).
  by destruct (fin _ _ _).
Qed.

Lemma load_n_samples k r p :
  lr_x0 (load_n load_with k r p) = lr_window r k p !!! k
  /\ lr_x1 (load_n load_with k r p) = lr_window r k p !!! S k
  /\ lr_lpf (load_n load_with k r p) = (filtered_in r k p).2
  /\ lr_config (load_n load_with k r p) = lr_config r.
Proof using.
  revert r p. induction k as [|k IH]; intros r p; [done|].
  cbn [load_n]. pose proof (load_frame_samples r p) as Hs.
  unfold lr_window, filtered_in. cbn [take_frames run_filter].
  destruct (fin (lr_config r) (lr_lpf r) (next_frame (lr_channels r) p)) as [y l].
  destruct Hs as (E0 & E1 & El & Ec).
  set (r1 := load_frame load_with r p) in *.
  set (r2 := lr_with_time r1 _ _). destruct (IH r2 (option_map (drop (Z.to_nat (lr_channels r))) p))
    as (A & B & C & D). rewrite A, B, C, D. clear A B C D.
  assert (Ech : lr_channels r2 = lr_channels r) by (unfold lr_channels; simpl; by rewrite Ec).
  unfold lr_window, filtered_in. rewrite Ech. subst r2. simpl. rewrite E0, E1, El, Ec. destruct (run_filter _ l _) as [ys l2]. by split_and!.
Qed.

(** What the outer loop writes and leaves, for the frames [k] and [M] it says it processed. *)
Definition loop_samples (r : ma_linear_resampler) (p : option (list Z)) (k M : Z)
    (y : list Z) (r' : ma_linear_resampler) : Prop :=
  let W := lr_window r (Z.to_nat k) p in
  let out := run_filter (fout (lr_config r)) (filtered_in r (Z.to_nat k) p).2
               (interpolated mix (lr_pos r) (rateIn r) (rateOut r) W M) in
  y = concat out.1 /\ lr_lpf r' = out.2
  /\ lr_x0 r' = W !!! Z.to_nat k /\ lr_x1 r' = W !!! S (Z.to_nat k).

Lemma interpolated_cons pos rin rout W M :
  0 <= M -> interpolated mix pos rin rout W (1 + M) =
  mix (pos mod rout) rout (W !!! Z.to_nat (need pos rin rout 0)) (W !!! S (Z.to_nat (need pos rin rout 0)))
  :: map (fun j => let i := Z.to_nat (need pos rin rout (j + 1)) in
                   mix ((pos + (j + 1) * rin) mod rout) rout (W !!! i) (W !!! S i)) (seqZ 0 M).
Proof using.
  intros HM. unfold interpolated. rewrite seqZ_cons by lia. cbn [map].
  rewrite Z.mul_0_l, Z.add_0_r. f_equal.
  replace (Z.pred (1 + M)) with M by lia. change (Z.succ 0) with (1 + 0).
  rewrite <- fmap_add_seqZ. change (fmap (Z.add 1)) with (map (Z.add 1)). rewrite map_map. apply map_ext. intros j.
  by rewrite (Z.add_comm 1 j).
Qed.

Lemma filtered_in_add r k k' p :
  filtered_in r (k + k') p =
  ((filtered_in r k p).1 ++ (run_filter (fin (lr_config r)) (filtered_in r k p).2
                               (take_frames (lr_channels r) k' (skip_frames (lr_channels r) k p))).1,
   (run_filter (fin (lr_config r)) (filtered_in r k p).2
      (take_frames (lr_channels r) k' (skip_frames (lr_channels r) k p))).2).
Proof using. unfold filtered_in. by rewrite take_frames_add, run_filter_app. Qed.

Lemma length_filtered_in r k p : length (filtered_in r k p).1 = k.
Proof using. unfold filtered_in. by rewrite length_run_filter, length_take_frames. Qed.

(** The state after the first output frame, with [T] frames loaded before it. *)
Lemma next_state_samples r p T :
  lr_wf r -> T = Z.to_nat (inTimeInt r) ->
  let r1 := next_state load_with output_with true r p in
  let W := lr_window r T p in
  let raw := mix (lr_pos r mod rateOut r) (rateOut r) (W !!! T) (W !!! S T) in
  let y := fout (lr_config r) (filtered_in r T p).2 raw in
  lr_x0 r1 = W !!! T /\ lr_x1 r1 = W !!! S T /\ lr_lpf r1 = y.2 /\ lr_config r1 = lr_config r
  /\ (emit output_with true (loaded load_with r p)).1 = y.1.
Proof using.
  intros Hw ->. cbv zeta. unfold next_state.
  destruct (loaded_spec load_with load_with_time r p Hw) as (A & B & C & D & E).
  destruct (load_n_samples (Z.to_nat (inTimeInt r)) r p) as (F & G & H & I).
  fold (loaded load_with r p) in F, G, H, I.
  set (r0 := loaded load_with r p) in *. cbn [emit].
  destruct (advance_time_spec (output_with r0).2) as (_ & J & _ & K1 & K2 & K3).
  { eapply lr_wf_same; [exact A|apply output_with_time| |];
      destruct (output_with_time r0) as (_ & T1 & T2); rewrite ?T1, ?T2; apply A. }
  { destruct (output_with_time r0) as (_ & T1 & _). by rewrite T1. }
  rewrite K1, K2, K3, (proj1 J). unfold output_with.
  assert (Ef : inTimeFrac r0 = lr_pos r mod rateOut r).
  { rewrite E. unfold lr_pos. pose proof Hw as []. rewrite Z.add_comm, Z.mod_add by lia.
    symmetry. by apply Z.mod_small. }
  assert (Eo : rateOut r0 = rateOut r) by (unfold rateOut; by rewrite I).
  rewrite Ef, Eo, F, G, H, I. destruct (fout _ _ _) as [y l]. by split_and!.
Qed.

Lemma output_loop_samples m n r p :
  lr_wf r ->
  let '(k, M, y, r') := output_loop load_with output_with m n r p true in loop_samples r p k M y r'.
Proof using Hone.
  revert n r p. induction m as [|m IH]; intros n r p Hw; [done|].
  pose proof (output_loop_S load_with output_with load_with_time m n r p true Hw) as E.
  destruct (Z.ltb_spec (Z.of_nat n) (inTimeInt r)) as [L|L].
  { rewrite E. unfold loop_samples. rewrite Nat2Z.id.
    destruct (load_n_samples n r p) as (A & B & C & _). by split_and!. }
  set (T := Z.to_nat (inTimeInt r)) in *. set (r1 := next_state _ _ true r p) in *.
  pose proof (next_state_samples r p T Hw eq_refl) as (N0 & N1 & Nl & Nc & Ny). fold r1 in N0, N1, Nl, Nc.
  destruct (next_state_spec load_with output_with load_with_time output_with_time true r p Hw)
    as (W1 & _ & Nch & Npos). fold r1 in W1, Nch, Npos.
  specialize (IH (n - T)%nat r1 (skip_frames (lr_channels r) T p) W1).
  pose proof (output_loop_counts load_with output_with load_with_time output_with_time m (n - T)%nat
                r1 (skip_frames (lr_channels r) T p) true W1) as HC.
  destruct (output_loop load_with output_with m _ r1 _ true) as [[[k M] ys] r'].
  destruct HC as (_ & HM & Hk & _). rewrite E. clear E. rewrite Ny.
  assert (HM0 : 0 <= M).
  { rewrite HM. pose proof (out_count_nonneg (rateIn r1) (rateOut r1) ltac:(apply W1) (lr_pos r1)
      (Z.of_nat (n - T))). lia. }
  clear HM. pose proof Hw as [_ Hro _ _ Hti _].
  set (fi := filtered_in r T p). set (c := lr_config r) in *.
  set (p1 := skip_frames (lr_channels r) T p) in *.
  assert (HB : (filtered_in r1 (Z.to_nat k) p1).1
               = (run_filter (fin c) fi.2 (take_frames (lr_channels r) (Z.to_nat k) p1)).1).
  { unfold filtered_in. rewrite Nc, Nch. destruct (Hone c) as [-> | Hf]; [by rewrite !run_no_filter|].
    rewrite Nl, Hf. done. }
  assert (HW : forall i, lr_window r (T + Z.to_nat k) p !!! (T + i)%nat = lr_window r1 (Z.to_nat k) p1 !!! i).
  { intros i. unfold lr_window at 1. rewrite filtered_in_add. cbn [fst]. fold fi c p1.
    assert (Hl : length fi.1 = T) by apply length_filtered_in.
    rewrite <- Hl at 1. rewrite window_shift, Hl. unfold lr_window at 1. by rewrite N0, N1, HB. }
  assert (Hraw : interpolated mix (lr_pos r) (rateIn r) (rateOut r) (lr_window r (T + Z.to_nat k) p) (1 + M)
    = mix (lr_pos r mod rateOut r) (rateOut r) (lr_window r T p !!! T) (lr_window r T p !!! S T)
      :: interpolated mix (lr_pos r1) (rateIn r1) (rateOut r1) (lr_window r1 (Z.to_nat k) p1) M).
  { rewrite interpolated_cons by done. rewrite need_0 by done. fold T.
    rewrite <- (Nat.add_0_r T) at 1 3. rewrite <- Nat.add_succ_r at 1. rewrite !HW. f_equal.
    { change (lr_window r1 (Z.to_nat k) p1 !!! 0%nat) with (lr_x0 r1).
      change (lr_window r1 (Z.to_nat k) p1 !!! 1%nat) with (lr_x1 r1). by rewrite N0, N1. }
    unfold interpolated. apply map_ext_in. intros j Hj.
    apply list_elem_of_In, elem_of_seqZ in Hj. cbv zeta.
    replace (rateIn r1) with (rateIn r) by (unfold rateIn; by rewrite Nc).
    replace (rateOut r1) with (rateOut r) by (unfold rateOut; by rewrite Nc).
    rewrite Npos, need_shift by lia.
    assert (0 <= need (lr_pos r) (rateIn r) (rateOut r) (j + 1) - inTimeInt r).
    { pose proof (need_0 r Hw). unfold need in *. pose proof (lr_rate_in r Hw).
      pose proof (Z.div_le_mono (lr_pos r + 0 * rateIn r) (lr_pos r + (j + 1) * rateIn r) (rateOut r)).
      nia. }
    rewrite <- !HW. f_equal.
    - replace (lr_pos r + rateIn r - inTimeInt r * rateOut r + j * rateIn r)
        with (lr_pos r + (j + 1) * rateIn r + (- inTimeInt r) * rateOut r) by lia.
      by rewrite Z.mod_add by lia.
    - f_equal. lia.
    - f_equal. lia. }
  destruct IH as (I1 & I2 & I3 & I4). unfold loop_samples.
  rewrite Z2Nat.inj_add by lia. fold T. rewrite Hraw, HW, <- Nat.add_succ_r, HW.
  rewrite filtered_in_add. fold fi p1 c. cbn [snd].
  rewrite filters_commute by apply Hone. cbn [fst snd].
  assert (Hl : (filtered_in r1 (Z.to_nat k) p1).2 =
    (run_filter (fin c) (fout c fi.2 (mix (lr_pos r mod rateOut r) (rateOut r)
       (lr_window r T p !!! T) (lr_window r T p !!! S T))).2 (take_frames (lr_channels r) (Z.to_nat k) p1)).2).
  { unfold filtered_in. by rewrite Nc, Nch, Nl. }
  rewrite Nc, Hl in I1, I2. split_and!; try done. cbn [concat]. by rewrite I1.
Qed.
End samples.

(** ** The processing functions *)

Lemma load_loop_ext f g n r p :
  (forall r, f r = g r) -> load_loop f n r p = load_loop g n r p.
Proof.
  intros H. revert r p. induction n as [|n IH]; intros r p; [done|]. cbn [load_loop].
  unfold load_frame. rewrite H. by rewrite IH.
Qed.

Lemma output_loop_ext f g f' g' m n r p w :
  (forall r, f r = g r) -> (forall r, f' r = g' r) ->
  output_loop f f' m n r p w = output_loop g g' m n r p w.
Proof.
  intros H H'. revert n r p. induction m as [|m IH]; intros n r p; [done|]. cbn [output_loop].
  rewrite (load_loop_ext f g) by done. destruct (load_loop g n r p) as [[k p'] r1].
  rewrite H'. destruct (inTimeInt r1 >? 0); [done|].
  destruct (if w then g' r1 else ([], r1)) as [y r2]. by rewrite IH.
Qed.

(** By format: the low-pass filter of a frame, and the interpolation between two frames
    at the fraction [frac / rout]. *)
Definition filter_of (fmt : ma_format) : ma_lpf -> list Z -> list Z * ma_lpf :=
  match fmt with
  | ma_format_f32 => ma_lpf_process_pcm_frame_f32
  | _ => ma_lpf_process_pcm_frame_s16
  end.

Definition mix_of (fmt : ma_format) (frac rout : Z) (x0 x1 : list Z) : list Z :=
  match fmt with
  | ma_format_f32 =>
      zip_with (fun x y => bits_of_f32 (ma_mix_f32_fast (f32_of_bits x) (f32_of_bits y)
                                          (f32_div (f32_of_Z frac) (f32_of_Z rout)))) x0 x1
  | _ => zip_with (fun x y => ma_linear_resampler_mix_s16 x y (s32 (u32 (Z.shiftl frac 12) / rout)) 12) x0 x1
  end.

(** The input is filtered when downsampling, the output when upsampling. *)
Definition filter_in (c : ma_linear_resampler_config) : ma_lpf -> list Z -> list Z * ma_lpf :=
  if lrc_sampleRateIn c >? lrc_sampleRateOut c then filter_of (lrc_format c) else no_filter.
Definition filter_out (c : ma_linear_resampler_config) : ma_lpf -> list Z -> list Z * ma_lpf :=
  if lrc_sampleRateIn c <? lrc_sampleRateOut c then filter_of (lrc_format c) else no_filter.

Definition lr_format_ok (r : ma_linear_resampler) : Prop :=
  lrc_format (lr_config r) = ma_format_s16 \/ lrc_format (lr_config r) = ma_format_f32.

(** A filter that is skipped when the rates are the same, or is never applied. *)
Definition unless_equal (apply : bool) (fmt : ma_format) (c : ma_linear_resampler_config) :=
  if apply && negb (lrc_sampleRateIn c =? lrc_sampleRateOut c) then filter_of fmt else no_filter.

Lemma with_same_frames r : lr_with_lpf (lr_with_frames r (lr_x0 r) (lr_x1 r)) (lr_lpf r) = r.
Proof. by destruct r. Qed.

Lemma filter_loaded_eq fmt r : filter_loaded (filter_of fmt) r = load_with (unless_equal true fmt) r.
Proof.
  unfold filter_loaded, load_with, unless_equal, rateIn, rateOut. simpl.
  destruct (negb _); [done|]. simpl. by rewrite with_same_frames.
Qed.

Lemma load_unfiltered r : r = load_with (unless_equal false ma_format_s16) r.
Proof. unfold load_with. simpl. by rewrite with_same_frames. Qed.

Lemma output_unfiltered fmt mix r :
  (mix (inTimeFrac r) (rateOut r) (lr_x0 r) (lr_x1 r), r) = output_with (unless_equal false fmt) mix r.
Proof. unfold output_with. simpl. by destruct r. Qed.

Lemma filter_output_eq fmt mix interpolate r :
  (forall r, interpolate r = mix (inTimeFrac r) (rateOut r) (lr_x0 r) (lr_x1 r)) ->
  filter_output (filter_of fmt) interpolate r = output_with (unless_equal true fmt) mix r.
Proof.
  intros H. unfold filter_output, output_with, unless_equal, rateIn. rewrite H. simpl.
  destruct (negb _); [done|]. simpl. by destruct r.
Qed.

(** Both directions and both formats are the same loop with the filter in one of two places. *)
Lemma process_as_loop r p n out m :
  lr_format_ok r ->
  let fmt := lrc_format (lr_config r) in
  let down := rateIn r >? rateOut r in
  ma_linear_resampler_process_pcm_frames r p n out m =
  process_loops (load_with (unless_equal down fmt))
    (output_with (unless_equal (negb down) fmt) (mix_of fmt)) r p n out m.
Proof.
  intros Hf. cbv zeta. unfold ma_linear_resampler_process_pcm_frames, process_loops.
  assert (HL : forall fmt a b w,
    output_loop (filter_loaded (filter_of fmt)) (fun r => (mix_of fmt (inTimeFrac r) (rateOut r) (lr_x0 r) (lr_x1 r), r)) a b r p w
    = output_loop (load_with (unless_equal true fmt)) (output_with (unless_equal false fmt) (mix_of fmt)) a b r p w).
  { intros fmt a b w. apply output_loop_ext; [apply filter_loaded_eq|apply (output_unfiltered fmt)]. }
  assert (HU : forall fmt i a b w,
    (forall r, i r = mix_of fmt (inTimeFrac r) (rateOut r) (lr_x0 r) (lr_x1 r)) ->
    output_loop (fun r => r) (filter_output (filter_of fmt) i) a b r p w
    = output_loop (load_with (unless_equal false fmt)) (output_with (unless_equal true fmt) (mix_of fmt)) a b r p w).
  { intros fmt i a b w Hi. apply output_loop_ext; [apply load_unfiltered|].
    intros r0. by apply filter_output_eq. }
  destruct Hf as [-> | ->].
  - unfold ma_linear_resampler_process_pcm_frames_s16. destruct (rateIn r >? rateOut r); simpl negb.
    + rewrite <- (HL ma_format_s16). reflexivity.
    + rewrite <- (HU ma_format_s16 ma_linear_resampler_interpolate_frame_s16) by done. reflexivity.
  - unfold ma_linear_resampler_process_pcm_frames_f32. destruct (rateIn r >? rateOut r); simpl negb.
    + rewrite <- (HL ma_format_f32). reflexivity.
    + rewrite <- (HU ma_format_f32 ma_linear_resampler_interpolate_frame_f32) by done. reflexivity.
Qed.

Lemma one_filter down fmt c : unless_equal down fmt c = no_filter \/ unless_equal (negb down) fmt c = no_filter.
Proof. destruct down; [by right|by left]. Qed.

Lemma filter_in_eq r :
  unless_equal (rateIn r >? rateOut r) (lrc_format (lr_config r)) (lr_config r) = filter_in (lr_config r).
Proof.
  unfold unless_equal, filter_in, rateIn, rateOut.
  destruct (Z.gtb_spec (lrc_sampleRateIn (lr_config r)) (lrc_sampleRateOut (lr_config r))); [|done].
  by rewrite (proj2 (Z.eqb_neq _ _)) by lia.
Qed.

Lemma filter_out_eq r :
  unless_equal (negb (rateIn r >? rateOut r)) (lrc_format (lr_config r)) (lr_config r)
  = filter_out (lr_config r).
Proof.
  unfold unless_equal, filter_out, rateIn, rateOut.
  destruct (Z.gtb_spec (lrc_sampleRateIn (lr_config r)) (lrc_sampleRateOut (lr_config r))),
    (Z.ltb_spec (lrc_sampleRateIn (lr_config r)) (lrc_sampleRateOut (lr_config r))); try lia; try done; simpl.
  - by rewrite (proj2 (Z.eqb_neq _ _)) by lia.
  - by rewrite (proj2 (Z.eqb_eq _ _)) by lia.
Qed.

Lemma loop_samples_ext fin fin' fout fout' mix r p k M y r' :
  fin (lr_config r) = fin' (lr_config r) -> fout (lr_config r) = fout' (lr_config r) ->
  loop_samples fin fout mix r p k M y r' -> loop_samples fin' fout' mix r p k M y r'.
Proof. intros E1 E2. unfold loop_samples, lr_window, filtered_in. by rewrite E1, E2. Qed.

(** What a call reads and produces, and the clock it leaves. *)
Lemma process_counts r p n out m :
  lr_wf r -> lr_format_ok r -> 0 <= n -> 0 <= m ->
  let k := in_count (lr_pos r) (rateIn r) (rateOut r) n m in
  let M := Z.min m (out_count (lr_pos r) (rateIn r) (rateOut r) n) in
  exists out' r',
    ma_linear_resampler_process_pcm_frames r p n out m = (MA_SUCCESS, k, M, out', r')
    /\ 0 <= k <= n /\ lr_wf r' /\ same_rates r r'
    /\ lr_pos r' = lr_pos r + M * rateIn r - k * rateOut r.
Proof.
  intros Hw Hf Hn Hm. cbv zeta. rewrite process_as_loop by done. unfold process_loops.
  set (fin := unless_equal _ _). set (fout := unless_equal _ _). set (mix := mix_of _).
  pose proof (output_loop_counts (load_with fin) (output_with fout mix) (load_with_time fin)
    (output_with_time fout mix) (Z.to_nat m) (Z.to_nat n) r p (bool_decide (is_Some out)) Hw) as H.
  destruct (output_loop _ _ _ _ _ _ _) as [[[k M] y] r']. cbv zeta in H. rewrite !Z2Nat.id in H by lia.
  destruct H as (-> & -> & A & B & C & D). eexists _, r'. exact (conj eq_refl (conj A (conj B (conj C D)))).
Qed.

(** The position of a resampler that has run out of input, or was just reset, or is
    downsampling: at least one input frame is to be loaded before the next output
    frame, and not more than an advance and one. *)
Definition settled (r : ma_linear_resampler) : Prop :=
  rateOut r <= lr_pos r < rateIn r + rateOut r.

Lemma process_settled r n m :
  lr_wf r -> 0 <= n -> 0 <= m -> lr_pos r < rateIn r + rateOut r ->
  let k := in_count (lr_pos r) (rateIn r) (rateOut r) n m in
  let M := Z.min m (out_count (lr_pos r) (rateIn r) (rateOut r) n) in
  let pos' := lr_pos r + M * rateIn r - k * rateOut r in
  pos' < rateIn r + rateOut r
  /\ (M < m \/ rateOut r <= rateIn r /\ rateOut r <= lr_pos r -> rateOut r <= pos').
Proof.
  intros Hw Hn Hm Hp. cbv zeta. pose proof Hw as [Hi Ho _ _ _ _].
  set (rin := rateIn r) in *. set (rout := rateOut r) in *. set (pos := lr_pos r) in *.
  pose proof (out_count_nonneg rin rout ltac:(lia) pos n) as Hc.
  pose proof (out_count_spec rin rout ltac:(lia) ltac:(lia) pos n) as Hs.
  unfold in_count. set (c := out_count pos rin rout n) in *.
  destruct (Z.leb_spec m c) as [Hmc|Hmc].
  - rewrite Z.min_l by lia. destruct (Z.eqb_spec m 0) as [->|Hm0]; [lia|].
    unfold need. pose proof (Z.mod_pos_bound (pos + (m - 1) * rin) rout ltac:(lia)).
    pose proof (Z.div_mod (pos + (m - 1) * rin) rout ltac:(lia)). nia.
  - rewrite Z.min_r by lia.
    pose proof (need_le rin rout ltac:(lia) pos n c) as Hlast.
    assert (~ need pos rin rout c <= n) by (intros H; apply Hs in H; lia).
    destruct (Z.eq_dec c 0) as [E|E].
    + rewrite E in *. unfold need in *. nia.
    + pose proof (proj1 (Hs (c - 1) ltac:(lia)) ltac:(lia)) as H1.
      apply (need_le rin rout ltac:(lia)) in H1. nia.
Qed.

Lemma required_eq r m :
  lr_wf r -> 0 < m < 2 ^ 32 ->
  ma_linear_resampler_get_required_input_frame_count r m
  = (MA_SUCCESS, need (lr_pos r) (rateIn r) (rateOut r) (m - 1)).
Proof.
  intros Hw Hm. pose proof Hw as []. unfold ma_linear_resampler_get_required_input_frame_count.
  rewrite (proj2 (Z.eqb_neq m 0)) by lia. unfold u64. rewrite (wrapu_id 64 (m - 1)) by (unfold in_u; lia).
  pose proof (Z.div_mod (rateIn r) (rateOut r) ltac:(lia)) as Hdm.
  pose proof (Z.mod_pos_bound (rateIn r) (rateOut r) ltac:(lia)) as Hmb.
  rewrite <- lr_adv_int0, <- lr_adv_frac0 in Hdm. rewrite <- lr_adv_frac0 in Hmb.
  assert (0 <= inAdvanceInt r < 2 ^ 32) by nia.
  assert (0 <= (m - 1) * inAdvanceInt r <= (2 ^ 32 - 2) * (2 ^ 32 - 1)) by nia.
  assert (0 <= (m - 1) * inAdvanceFrac r <= (2 ^ 32 - 2) * (rateOut r - 1)) by nia.
  assert (0 <= inTimeFrac r + (m - 1) * inAdvanceFrac r < (2 ^ 32) * rateOut r) by nia.
  assert (0 <= (inTimeFrac r + (m - 1) * inAdvanceFrac r) / rateOut r < 2 ^ 32).
  { split; [apply Z.div_pos; lia|apply Z.div_lt_upper_bound; lia]. }
  rewrite (wrapu_id 64 ((m - 1) * inAdvanceInt r)) by (unfold in_u; lia).
  rewrite (wrapu_id 64 ((m - 1) * inAdvanceFrac r)) by (unfold in_u; lia).
  rewrite (wrapu_id 64 (inTimeFrac r + _)) by (unfold in_u; lia).
  rewrite (wrapu_id 64 (inTimeInt r + _)) by (unfold in_u; lia).
  rewrite (wrapu_id 64) by (unfold in_u; lia). f_equal. unfold need, lr_pos.
  replace (inTimeInt r * rateOut r + inTimeFrac r + (m - 1) * rateIn r)
    with ((inTimeFrac r + (m - 1) * inAdvanceFrac r)
          + (inTimeInt r + (m - 1) * inAdvanceInt r) * rateOut r) by nia.
  rewrite Z.div_add by lia. lia.
Qed.

Lemma expected_eq r n :
  lr_wf r -> settled r -> 0 <= n < 2 ^ 32 -> n * rateOut r < rateIn r * (2 ^ 32 - 1) ->
  ma_linear_resampler_get_expected_output_frame_count r n
  = (MA_SUCCESS, out_count (lr_pos r) (rateIn r) (rateOut r) n).
Proof.
  intros Hw [Hs1 Hs2] Hn Hbig. pose proof Hw as []. unfold ma_linear_resampler_get_expected_output_frame_count.
  assert (n * rateOut r < 2 ^ 64) by nia.
  unfold u64. rewrite (wrapu_id 64 (n * rateOut r)) by (unfold in_u; nia).
  set (P := n * rateOut r / rateIn r).
  assert (HP : 0 <= P < 2 ^ 32 - 1).
  { split; [apply Z.div_pos; nia|apply Z.div_lt_upper_bound; lia]. }
  pose proof (Z.div_mod (n * rateOut r) (rateIn r) ltac:(lia)) as HdP.
  pose proof (Z.mod_pos_bound (n * rateOut r) (rateIn r) ltac:(lia)) as HmP. fold P in HdP.
  pose proof (required_eq r (P + 1) Hw ltac:(lia)) as Hreq.
  unfold ma_linear_resampler_get_required_input_frame_count in Hreq.
  rewrite (proj2 (Z.eqb_neq (P + 1) 0)) in Hreq by lia. replace (P + 1 - 1) with P in Hreq by lia.
  unfold u64 in Hreq. rewrite (wrapu_id 64 P) in Hreq by (unfold in_u; lia).
  injection Hreq as Hreq. rewrite Hreq.
  rewrite (wrapu_id 64 (P + 1)) by (unfold in_u; lia). f_equal. symmetry.
  apply out_count_unique; [lia|lia|destruct (_ <=? n); lia|].
  intros j Hj. rewrite need_le by lia.
  pose proof (need_le (rateIn r) (rateOut r) ltac:(lia) (lr_pos r) n P) as Hnp.
  destruct (Z.leb_spec (need (lr_pos r) (rateIn r) (rateOut r) P) n) as [L|L]; [apply Hnp in L|].
  - split; intros K; [nia|]. destruct (Z.lt_ge_cases j (P + 1)); [done|nia].
  - assert (K : ~ lr_pos r + P * rateIn r < (n + 1) * rateOut r) by (rewrite <- Hnp; lia).
    split; intros K'; [nia|]. destruct (Z.lt_ge_cases j P); [done|nia].
Qed.

(** ** The greatest common factor and the rates *)

Lemma gcf_loop_spec fuel a b :
  0 <= b < a -> a * b < 2 * 2 ^ Z.of_nat fuel -> gcf_loop fuel a b = Some (Z.gcd a b).
Proof.
  revert a b. induction fuel as [|fuel IH]; intros a b Hb Hf; cbn [gcf_loop];
    (destruct (Z.eqb_spec b 0) as [->|Hb0]; [by rewrite Z.gcd_0_r, Z.abs_eq by lia|]).
  - simpl in Hf. nia.
  - pose proof (Z.mod_pos_bound a b ltac:(lia)) as Hm. pose proof (Z.div_mod a b ltac:(lia)) as Hd.
    assert (1 <= a / b) by (apply Z.div_le_lower_bound; lia).
    rewrite Nat2Z.inj_succ, Z.pow_succ_r in Hf by lia.
    rewrite IH by nia. f_equal. rewrite (Z.gcd_comm a b).
    rewrite Z.gcd_comm. by apply Z.gcd_mod.
Qed.

Lemma gcf_loop_S fuel a b :
  gcf_loop (S fuel) a b = if b =? 0 then Some a else gcf_loop fuel b (a mod b).
Proof. done. Qed.

Lemma ma_gcf_u32_spec a b :
  0 < a < 2 ^ 32 -> 0 < b < 2 ^ 32 -> ma_gcf_u32 a b = Some (Z.gcd a b).
Proof.
  intros Ha Hb. unfold ma_gcf_u32. rewrite gcf_loop_S, (proj2 (Z.eqb_neq b 0)) by lia.
  pose proof (Z.mod_pos_bound a b ltac:(lia)).
  rewrite gcf_loop_spec by (change (2 * 2 ^ Z.of_nat 63) with (2 ^ 32 * 2 ^ 32); nia).
  f_equal. rewrite Z.gcd_comm, (Z.gcd_comm a b). apply Z.gcd_mod. lia.
Qed.

(** The clock after a change of the output rate, when the product fits 32 bits. *)
Lemma adjust_timer_spec r old new :
  0 < old -> 0 < rateOut r -> new = rateOut r -> 0 <= inTimeFrac r < old -> new < 2 ^ 32 ->
  0 <= inTimeInt r < 2 ^ 32 -> inTimeFrac r * new < 2 ^ 32 ->
  ma_linear_resampler_adjust_timer_for_new_rate r old new
  = lr_with_time r (inTimeInt r) (inTimeFrac r * new / old).
Proof.
  intros Ho Hr -> Hf Hn Ht Hp. unfold ma_linear_resampler_adjust_timer_for_new_rate.
  rewrite (Z.div_small (inTimeFrac r)), (Z.mod_small (inTimeFrac r)), Z.mul_0_l by lia.
  unfold u32. rewrite (wrapu_id 32 0), (wrapu_id 32 (_ * _)) by (unfold in_u; nia).
  assert (0 <= inTimeFrac r * rateOut r / old < rateOut r).
  { split; [apply Z.div_pos; nia|apply Z.div_lt_upper_bound; nia]. }
  rewrite Z.add_0_l, (wrapu_id 32 (_ / old)) by (unfold in_u; lia).
  rewrite Z.div_small, Z.mod_small, Z.add_0_r by lia. by rewrite wrapu_id by (unfold in_u; lia).
Qed.

Lemma gcd_quotients a b :
  0 < a -> 0 < b -> 0 < a / Z.gcd a b <= a /\ 0 < b / Z.gcd a b <= b /\ a * (b / Z.gcd a b) = b * (a / Z.gcd a b).
Proof.
  intros Ha Hb. destruct (Z.gcd_divide_l a b) as [x Hx]. destruct (Z.gcd_divide_r a b) as [y Hy].
  assert (Hg : 0 < Z.gcd a b).
  { destruct (Z.eq_dec (Z.gcd a b) 0) as [E|E]; [|pose proof (Z.gcd_nonneg a b); lia].
    apply Z.gcd_eq_0_l in E. lia. }
  set (g := Z.gcd a b) in *. clearbody g.
  assert (a / g = x) as -> by (symmetry; apply Z.div_unique_exact; lia).
  assert (b / g = y) as -> by (symmetry; apply Z.div_unique_exact; lia).
  split_and!; nia.
Qed.

Lemma set_rate_internal_spec lm r a b isInit r' :
  0 < a < 2 ^ 32 -> 0 < b < 2 ^ 32 -> b / Z.gcd a b <= 2 ^ 31 ->
  0 <= inTimeInt r < 2 ^ 32 -> 0 <= inTimeFrac r < rateOut r ->
  inTimeFrac r * (b / Z.gcd a b) < 2 ^ 32 ->
  ma_linear_resampler_set_rate_internal lm r a b isInit = Some (MA_SUCCESS, r') ->
  lr_wf r' /\ rateIn r' = a / Z.gcd a b /\ rateOut r' = b / Z.gcd a b
  /\ lrc_format (lr_config r') = lrc_format (lr_config r) /\ lr_channels r' = lr_channels r
  /\ inTimeInt r' = inTimeInt r /\ inTimeFrac r' = inTimeFrac r * rateOut r' / rateOut r
  /\ lr_x0 r' = lr_x0 r /\ lr_x1 r' = lr_x1 r.
Proof.
  intros Ha Hb Hro Ht Hf Hp. unfold ma_linear_resampler_set_rate_internal.
  rewrite (proj2 (Z.eqb_neq a 0)), (proj2 (Z.eqb_neq b 0)) by lia. cbn [orb].
  rewrite ma_gcf_u32_spec by done. cbv zeta.
  destruct (gcd_quotients a b) as (Q1 & Q2 & _); [lia..|].
  set (rin := a / Z.gcd a b) in *. set (rout := b / Z.gcd a b) in *.
  destruct (_ >? MA_MAX_FILTER_ORDER); [by intros [? _]%some_result_inj|].
  destruct (if isInit then _ else _) as [[res lpf]|]; [|done].
  destruct (res =? MA_SUCCESS) eqn:Er; cbn [negb]; [|intros [-> _]%some_result_inj; done].
  intros [_ <-]%some_result_inj.
  rewrite adjust_timer_spec; cbn; try done; try lia.
  assert (0 <= inTimeFrac r * rout / rateOut r < rout).
  { split; [apply Z.div_pos; nia|apply Z.div_lt_upper_bound; nia]. }
  split; [|done]. split; unfold rateIn, rateOut; cbn; try done; lia.
Qed.

Lemma init_preallocated_spec lm c r :
  0 < lrc_sampleRateIn c < 2 ^ 32 -> 0 < lrc_sampleRateOut c < 2 ^ 32 ->
  lrc_sampleRateOut c / Z.gcd (lrc_sampleRateIn c) (lrc_sampleRateOut c) <= 2 ^ 31 ->
  ma_linear_resampler_init_preallocated lm c = Some (MA_SUCCESS, Some r) ->
  lr_wf r /\ inTimeInt r = 1 /\ inTimeFrac r = 0
  /\ rateIn r = lrc_sampleRateIn c / Z.gcd (lrc_sampleRateIn c) (lrc_sampleRateOut c)
  /\ rateOut r = lrc_sampleRateOut c / Z.gcd (lrc_sampleRateIn c) (lrc_sampleRateOut c)
  /\ lrc_format (lr_config r) = lrc_format c.
Proof.
  intros Hi Ho Hro. unfold ma_linear_resampler_init_preallocated.
  destruct (ma_linear_resampler_get_heap_layout lm (Some c)) as [res lay].
  destruct (res =? MA_SUCCESS) eqn:Er; cbn [negb]; [|intros [-> _]%some_result_inj; done].
  cbv zeta.
  destruct (ma_linear_resampler_set_rate_internal _ _ _ _ _) as [[res' r1]|] eqn:E; [|done].
  destruct (res' =? MA_SUCCESS) eqn:Er'; cbn [negb]; [|intros [-> _]%some_result_inj; done].
  apply Z.eqb_eq in Er' as ->. intros [_ [= <-]]%some_result_inj.
  apply set_rate_internal_spec in E; [|done|done|done|cbn; lia|cbn; unfold rateOut; cbn; lia|cbn; lia].
  destruct E as (W & E1 & E2 & E3 & _). split_and!; [|done..].
  eapply lr_wf_same; [exact W|done|cbn; lia|cbn; destruct W; lia].
Qed.

(** ** Properties *)

(** C36. The closed form of the resampler. A call with [n] input frames and room for [m]
    output frames reads and produces the numbers of frames given by [in_count] and
    [out_count]; output frame [j] is the interpolation, with the fraction
    [(pos + j * rateIn) mod rateOut], between the two input frames around position
    [(pos + j * rateIn) / rateOut]; the low-pass filter is applied to every input frame
    once, in order, when downsampling, and to every output frame when upsampling; and the
    cached frames, the filter and the clock that are left are those of the stream
    position reached. *)
Theorem linear_resampler_correct r p n out m :
  lr_wf r -> lr_format_ok r -> 0 <= n -> 0 <= m ->
  let k := in_count (lr_pos r) (rateIn r) (rateOut r) n m in
  let M := Z.min m (out_count (lr_pos r) (rateIn r) (rateOut r) n) in
  exists y r',
    ma_linear_resampler_process_pcm_frames r p n (Some out) m
      = (MA_SUCCESS, k, M, Some (wr out 0 y), r')
    /\ loop_samples filter_in filter_out (mix_of (lrc_format (lr_config r))) r p k M y r'
    /\ lr_wf r' /\ same_rates r r'
    /\ lr_pos r' = lr_pos r + M * rateIn r - k * rateOut r.
Proof.
  intros Hw Hf Hn Hm. cbv zeta. rewrite process_as_loop by done. unfold process_loops.
  set (fmt := lrc_format (lr_config r)). set (down := rateIn r >? rateOut r).
  set (fin := unless_equal down fmt). set (fout := unless_equal (negb down) fmt).
  pose proof (output_loop_counts (load_with fin) (output_with fout (mix_of fmt)) (load_with_time fin)
    (output_with_time fout (mix_of fmt)) (Z.to_nat m) (Z.to_nat n) r p true Hw) as H.
  pose proof (output_loop_samples fin fout (mix_of fmt) (one_filter down fmt) (Z.to_nat m) (Z.to_nat n)
    r p Hw) as HS.
  simpl bool_decide. destruct (output_loop _ _ _ _ _ _ _) as [[[k M] y] r'].
  cbv zeta in H. rewrite !Z2Nat.id in H by lia. destruct H as (-> & -> & _ & B & C & D).
  eexists _, r'. split; [done|]. split; [|done].
  by eapply loop_samples_ext; [apply filter_in_eq|apply filter_out_eq|].
Qed.

(** [ma_linear_resampler_get_required_input_frame_count] is exact: a call given at
    least the predicted number of input frames produces all [m] output frames and reads
    exactly that many, and a call given fewer reads them all and does not produce [m]. *)
Theorem required_input_frame_count_exact r p n out m :
  lr_wf r -> lr_format_ok r -> 0 <= n -> 0 < m < 2 ^ 32 ->
  exists q k M out' r',
    ma_linear_resampler_get_required_input_frame_count r m = (MA_SUCCESS, q)
    /\ ma_linear_resampler_process_pcm_frames r p n out m = (MA_SUCCESS, k, M, out', r')
    /\ (q <= n -> M = m /\ k = q) /\ (n < q -> M < m /\ k = n).
Proof.
  intros Hw Hf Hn Hm. pose proof Hw as [Hi Ho _ _ _ _].
  destruct (process_counts r p n out m Hw Hf Hn ltac:(lia)) as (out' & r' & E & _).
  rewrite (required_eq r m Hw Hm), E. eexists _, _, _, out', r'. split; [done|]. split; [done|].
  pose proof (out_count_spec (rateIn r) (rateOut r) ltac:(lia) ltac:(lia) (lr_pos r) n (m - 1) ltac:(lia))
    as Hs.
  unfold in_count. destruct (Z.leb_spec m (out_count (lr_pos r) (rateIn r) (rateOut r) n)) as [L|L].
  - rewrite (proj2 (Z.eqb_neq m 0)) by lia. split; intros H; [lia|].
    assert (need (lr_pos r) (rateIn r) (rateOut r) (m - 1) <= n) by (apply Hs; lia). lia.
  - split; intros H; [|lia]. apply Hs in H. lia.
Qed.

(** [ma_linear_resampler_get_expected_output_frame_count] is exact in a settled state:
    a call with [n] input frames and enough room produces exactly the predicted number
    of output frames and reads all the input. A resampler is settled when it has just
    been initialised or reset, and stays so after every call that either used up its
    input or does not upsample. *)
Theorem expected_output_frame_count_exact r p n out m :
  lr_wf r -> lr_format_ok r -> settled r -> 0 <= n < 2 ^ 32 ->
  n * rateOut r < rateIn r * (2 ^ 32 - 1) -> 0 <= m ->
  exists e k M out' r',
    ma_linear_resampler_get_expected_output_frame_count r n = (MA_SUCCESS, e)
    /\ ma_linear_resampler_process_pcm_frames r p n out m = (MA_SUCCESS, k, M, out', r')
    /\ M = Z.min m e /\ (e < m -> k = n)
    /\ (M < m \/ rateOut r <= rateIn r -> settled r').
Proof.
  intros Hw Hf Hs Hn Hbig Hm.
  destruct (process_counts r p n out m Hw Hf ltac:(lia) Hm) as (out' & r' & E & _ & W' & Hc & Hp).
  rewrite (expected_eq r n Hw Hs Hn Hbig), E. eexists _, _, _, out', r'.
  split; [done|]. split; [done|]. split; [done|]. split.
  - intros L. unfold in_count. by rewrite (proj2 (Z.leb_gt _ _)) by done.
  - destruct (process_settled r n m Hw ltac:(lia) Hm ltac:(apply Hs)) as [A B]. intros H.
    unfold settled, rateIn, rateOut. rewrite (proj1 Hc). fold (rateIn r) (rateOut r). rewrite Hp.
    split; [apply B; destruct H as [H|H]; [by left|right; split; [done|apply Hs]]|exact A].
Qed.

(** Euclid's loop ends: 64 rounds are enough for any two 32-bit numbers, and the result
    is their greatest common divisor. *)
Theorem ma_gcf_u32_terminates a b :
  0 <= a < 2 ^ 32 -> 0 <= b < 2 ^ 32 -> ma_gcf_u32 a b = Some (Z.gcd a b).
Proof.
  intros Ha Hb. destruct (Z.eq_dec b 0) as [->|Hb0].
  - unfold ma_gcf_u32. rewrite gcf_loop_S, Z.gcd_0_r, Z.abs_eq by lia. done.
  - destruct (Z.eq_dec a 0) as [->|Ha0].
    + unfold ma_gcf_u32. rewrite gcf_loop_S, (proj2 (Z.eqb_neq b 0)), Z.mod_0_l by lia.
      rewrite gcf_loop_S, Z.gcd_0_l, Z.abs_eq by lia. done.
    + apply ma_gcf_u32_spec; lia.
Qed.

(** The clock of a resampler. Initialisation leaves a settled resampler whose rates are
    the requested ones in lowest terms; changing the rates of a running resampler keeps
    the cached frames and the whole frames still to be loaded and rescales the fraction to
    the new rate, rounding down, provided its product with the new rate fits 32 bits;
    resetting settles the resampler again. *)
Theorem linear_resampler_rates lm malloc c r a b :
  0 < a < 2 ^ 32 -> 0 < b < 2 ^ 32 -> b / Z.gcd a b <= 2 ^ 31 ->
  lrc_sampleRateIn c = a -> lrc_sampleRateOut c = b ->
  lr_wf r -> inTimeFrac r * (b / Z.gcd a b) < 2 ^ 32 ->
  (forall r', ma_linear_resampler_init lm malloc c = Some (MA_SUCCESS, Some r') ->
     lr_wf r' /\ settled r' /\ a * rateOut r' = b * rateIn r' /\ Z.gcd (rateIn r') (rateOut r') = 1)
  /\ (forall r', ma_linear_resampler_set_rate lm r a b = Some (MA_SUCCESS, r') ->
        lr_wf r' /\ a * rateOut r' = b * rateIn r' /\ inTimeInt r' = inTimeInt r
        /\ inTimeFrac r' = inTimeFrac r * rateOut r' / rateOut r
        /\ lr_x0 r' = lr_x0 r /\ lr_x1 r' = lr_x1 r)
  /\ (let r' := snd (ma_linear_resampler_reset r) in lr_wf r' /\ settled r' /\ same_rates r r').
Proof.
  intros Ha Hb Hro Ea Eb Hw Hp. destruct (gcd_quotients a b) as (Q1 & Q2 & Q3); [lia..|].
  split_and!.
  - intros r'. unfold ma_linear_resampler_init.
    destruct (ma_linear_resampler_get_heap_size _ _) as [res size].
    destruct (res =? MA_SUCCESS) eqn:Er; cbn [negb]; [|intros [-> _]%some_result_inj; done].
    destruct (_ && _); [by intros [? _]%some_result_inj|]. intros H.
    apply init_preallocated_spec in H as (W & E1 & E2 & E3 & E4 & _);
      [|by rewrite ?Ea, ?Eb..]. rewrite Ea, Eb in E3, E4.
    split; [done|]. unfold settled, lr_pos. rewrite E1, E2, E3, E4. split; [lia|]. split; [lia|].
    apply Z.gcd_div_gcd; [|done]. intros E. rewrite E, Z.div_0_r in Q1. lia.
  - intros r' H. pose proof Hw as []. apply set_rate_internal_spec in H; [|done..].
    destruct H as (W & E1 & E2 & _ & _ & E3 & E4 & E5 & E6). split_and!; try done. lia.
  - cbv zeta. pose proof Hw as [].
    assert (W : lr_wf (snd (ma_linear_resampler_reset r))).
    { eapply lr_wf_same; [exact Hw|done|cbn; lia|cbn; lia]. }
    split; [done|]. split; [|done].
    change (rateOut r <= 1 * rateOut r + 0 < rateIn r + rateOut r). lia.
Qed.

(** Interpolating 16-bit samples: as long as the output rate has at most 20 bits, every
    intermediate product fits, and each output sample is the weighted mean of the two
    input samples with the fraction rounded down to 12 bits, rounded down, so it lies
    between them. *)
Theorem interpolate_frame_s16_between r c x y :
  lr_wf r -> rateOut r <= 2 ^ 20 ->
  lr_x0 r !! c = Some x -> lr_x1 r !! c = Some y -> in_s 16 x -> in_s 16 y ->
  let a := inTimeFrac r * 4096 / rateOut r in
  ma_linear_resampler_interpolate_frame_s16 r !! c = Some ((x * (4096 - a) + y * a) / 4096)
  /\ 0 <= a < 4096
  /\ Z.min x y <= (x * (4096 - a) + y * a) / 4096 <= Z.max x y.
Proof.
  intros [_ Ho _ _ _ Hf] Hr Hx Hy Bx By. cbv zeta. set (a := inTimeFrac r * 4096 / rateOut r).
  assert (0 <= a < 4096).
  { split; [apply Z.div_pos; lia|apply Z.div_lt_upper_bound; lia]. }
  assert (-32768 <= x <= 32767 /\ -32768 <= y <= 32767) as [Cx Cy]
    by (unfold in_s in *; change (2 ^ (16 - 1)) with 32768 in *; lia).
  assert (- 4096 * 32768 <= x * (4096 - a) <= 4096 * 32767) by nia.
  assert (- 4096 * 32768 <= y * a <= 4096 * 32767) by nia.
  assert (Hb : Z.min x y <= (x * (4096 - a) + y * a) / 4096 <= Z.max x y).
  { assert (4096 * Z.min x y <= x * (4096 - a) + y * a <= 4096 * Z.max x y) by nia.
    split; [apply Z.div_le_lower_bound|apply Z.lt_succ_r, Z.div_lt_upper_bound]; lia. }
  assert (W : forall z, - 2 ^ 31 <= z < 2 ^ 31 -> s32 z = z).
  { intros z Hz. apply (wraps_id 32); [lia|]. unfold in_s. change (2 ^ (32 - 1)) with (2 ^ 31). lia. }
  split; [|done].
  unfold ma_linear_resampler_interpolate_frame_s16. cbv zeta. rewrite lookup_zip_with, Hx, Hy. simpl.
  rewrite Z.shiftl_mul_pow2 by done. change (2 ^ 12) with 4096.
  unfold u32. rewrite (wrapu_id 32) by (unfold in_u; lia). fold a.
  unfold ma_linear_resampler_mix_s16. change (2 ^ 12) with 4096.
  rewrite (W a), (W (4096 - a)), (W (x * (4096 - a))), (W (y * a)), (W (_ + _)) by lia.
  rewrite Z.shiftr_div_pow2 by done. change (2 ^ 12) with 4096. f_equal.
  apply (wraps_id 16); [lia|]. unfold in_s. change (2 ^ (16 - 1)) with 32768. lia.
Qed.

(** ** Sample resamplers *)

(** One channel of 16-bit samples, no filter, just initialised. *)
Definition demo_lr (rin rout : Z) : ma_linear_resampler :=
  mk_lr (mk_lr_config ma_format_s16 1 rin rout 0 (f64_of_Z 1)) (rin / rout) (rin mod rout) 1 0 [0] [0]
    (mk_lpf ma_format_s16 1 (ma_max rin rout) 0 0 [] []).

Lemma demo_lr_wf rin rout :
  0 < rin < 2 ^ 32 -> 0 < rout <= 2 ^ 31 -> lr_wf (demo_lr rin rout).
Proof. intros Hi Ho. split; unfold rateIn, rateOut; cbn; try done; lia. Qed.

Lemma demo_lr_settled rin rout : 0 < rin -> settled (demo_lr rin rout).
Proof. intros Hi. unfold settled, lr_pos, rateIn, rateOut. cbn. lia. Qed.

(** Upsampling by 4: the second call continues where the first one ran out of room. *)
Definition demo_lr_after : ma_linear_resampler :=
  snd (ma_linear_resampler_process_pcm_frames (demo_lr 1 4) (Some [4000]) 1 (Some [0]) 1).

(** When an upsampling resampler stops because the output is full, several output
    frames can still be made without any input, but
    [ma_linear_resampler_get_expected_output_frame_count] announces one at most: here one,
    while the call produces three. *)
Theorem expected_output_underestimates :
  exists r', ma_linear_resampler_process_pcm_frames (demo_lr 1 4) (Some [4000]) 1 (Some [0]) 1
      = (MA_SUCCESS, 1, 1, Some [0], r')
    /\ ma_linear_resampler_get_expected_output_frame_count r' 0 = (MA_SUCCESS, 1)
    /\ exists r'', ma_linear_resampler_process_pcm_frames r' None 0 (Some (zrep 9 7)) 9
      = (MA_SUCCESS, 0, 3, Some [1000; 2000; 3000; 7; 7; 7; 7; 7; 7], r'').
Proof. exists demo_lr_after. split; [reflexivity|]. split; [reflexivity|]. eexists. reflexivity. Qed.

(** [set_rate_ratio] uses an output rate of 1000000. At that rate the product in
    [ma_linear_resampler_adjust_timer_for_new_rate] overflows, and the clock jumps back
    although the rate does not change. *)
Example adjust_timer_overflows :
  inTimeFrac (ma_linear_resampler_adjust_timer_for_new_rate
                (lr_with_time (demo_lr 999999 1000000) 0 999999) 1000000 1000000) = 3566.
Proof. reflexivity. Qed.

Example demo_downsample :
  fst (ma_linear_resampler_process_pcm_frames (demo_lr 3 2) (Some [3000; 6000; 9000; 12000; 15000]) 5
         (Some (zrep 4 0)) 4)
  = (MA_SUCCESS, 5, 4, Some [0; 4500; 9000; 13500]).
Proof. reflexivity. Qed.

Lemma linear_resampler_correct_witness :
  exists y r',
    ma_linear_resampler_process_pcm_frames (demo_lr 3 2) (Some [3000; 6000; 9000; 12000; 15000]) 5
      (Some (zrep 4 0)) 4 = (MA_SUCCESS, 5, 4, Some (wr (zrep 4 0) 0 y), r')
    /\ loop_samples filter_in filter_out (mix_of ma_format_s16) (demo_lr 3 2)
         (Some [3000; 6000; 9000; 12000; 15000]) 5 4 y r'.
Proof.
  destruct (linear_resampler_correct (demo_lr 3 2) (Some [3000; 6000; 9000; 12000; 15000]) 5 (zrep 4 0) 4)
    as (y & r' & E & S & _); [by apply demo_lr_wf|by left|lia|lia|]. exists y, r'. exact (conj E S).
Defined.

Lemma required_input_frame_count_exact_witness :
  exists q k M out' r',
    ma_linear_resampler_get_required_input_frame_count (demo_lr 3 2) 3 = (MA_SUCCESS, q)
    /\ ma_linear_resampler_process_pcm_frames (demo_lr 3 2) None 10 None 3 = (MA_SUCCESS, k, M, out', r')
    /\ (q <= 10 -> M = 3 /\ k = q).
Proof.
  destruct (required_input_frame_count_exact (demo_lr 3 2) None 10 None 3)
    as (q & k & M & out' & r' & A & B & C & _); [by apply demo_lr_wf|by left|lia|lia|].
  exists q, k, M, out', r'. exact (conj A (conj B C)).
Defined.

Lemma expected_output_frame_count_exact_witness :
  exists e k M out' r',
    ma_linear_resampler_get_expected_output_frame_count (demo_lr 3 2) 5 = (MA_SUCCESS, e)
    /\ ma_linear_resampler_process_pcm_frames (demo_lr 3 2) None 5 None 10 = (MA_SUCCESS, k, M, out', r')
    /\ M = Z.min 10 e /\ (e < 10 -> k = 5).
Proof.
  destruct (expected_output_frame_count_exact (demo_lr 3 2) None 5 None 10)
    as (e & k & M & out' & r' & A & B & C & D & _);
    [by apply demo_lr_wf|by left|by apply demo_lr_settled|lia|vm_decide|lia|].
  exists e, k, M, out', r'. exact (conj A (conj B (conj C D))).
Defined.

Lemma ma_gcf_u32_terminates_witness : ma_gcf_u32 48000 44100 = Some (Z.gcd 48000 44100).
Proof. apply ma_gcf_u32_terminates; lia. Defined.

Definition demo_lr_config : ma_linear_resampler_config :=
  mk_lr_config ma_format_s16 1 48000 44100 0 (f64_of_Z 1).

Lemma linear_resampler_rates_witness :
  exists r', ma_linear_resampler_init demo_libm (fun _ => true) demo_lr_config
      = Some (MA_SUCCESS, Some r')
    /\ lr_wf r' /\ settled r' /\ 48000 * rateOut r' = 44100 * rateIn r'.
Proof.
  destruct (linear_resampler_rates demo_libm (fun _ => true) demo_lr_config (demo_lr 3 2) 48000 44100)
    as (H & _); [lia|lia|vm_decide|reflexivity|reflexivity|by apply demo_lr_wf|vm_decide|].
  destruct (ma_linear_resampler_init demo_libm (fun _ => true) demo_lr_config) as [[res [r'|]]|] eqn:E;
    vm_compute in E; [|done..].
  injection E as <- Er. exists r'. destruct (H r' eq_refl) as (A & B & C & _).
  exact (conj eq_refl (conj A (conj B C))).
Defined.

Lemma interpolate_frame_s16_between_witness :
  let r := lr_with_frames (lr_with_time (demo_lr 3 2) 0 1) [1000] [-3000] in
  ma_linear_resampler_interpolate_frame_s16 r !! 0%nat = Some (-1000)
  /\ Z.min 1000 (-3000) <= -1000 <= Z.max 1000 (-3000).
Proof.
  destruct (interpolate_frame_s16_between (lr_with_frames (lr_with_time (demo_lr 3 2) 0 1) [1000] [-3000])
    0 1000 (-3000)) as (A & _ & C);
    [|vm_decide|reflexivity|reflexivity|vm_decide|vm_decide|exact (conj A C)].
  apply (lr_wf_same (demo_lr 3 2)); [by apply demo_lr_wf|done|vm_decide|vm_decide].
Defined.
