(* ===== verification/ChannelConverter.v ===== *)
(** * Channel conversion (miniaudio.h, [ma_channel_converter])

    Converts frames between channel maps, on one of five paths chosen when the converter
    is initialised: copying, averaging to mono, duplicating mono, reordering by a shuffle
    table, or mixing by a table of weights.

    Buffers are byte lists and distinct; channel maps are as in ChannelMap.v.  The heap
    block of a converter is its maps, shuffle table and weights, here lists.  A weight is
    the union of a [float] and an [ma_int32]: its 32-bit word, as the coefficients of
    Biquad.v are.  A result of [None] is undefined behaviour or, for the 32-bit frame
    counter of the weights path, a loop that does not end. *)
From Stdlib Require Import ZArith Lia Bool SpecFloat.
From stdpp Require Import base numbers list option.
From S2P Require Import Prelude MaTypes CFloat Loops PcmRing PcmFormat ChannelMap Biquad.

Local Open Scope Z_scope.

Definition MA_CHANNEL_CONVERTER_FIXED_POINT_SHIFT : Z := 12.
Definition MA_CHANNEL_INDEX_NULL : Z := 255.

Inductive ma_channel_mix_mode :=
| ma_channel_mix_mode_rectangular
| ma_channel_mix_mode_simple
| ma_channel_mix_mode_custom_weights.

#[export] Instance ma_channel_mix_mode_eq_dec : EqDecision ma_channel_mix_mode.
Proof. solve_decision. Defined.

Inductive ma_channel_conversion_path :=
| ma_channel_conversion_path_unknown
| ma_channel_conversion_path_passthrough
| ma_channel_conversion_path_mono_out
| ma_channel_conversion_path_mono_in
| ma_channel_conversion_path_shuffle
| ma_channel_conversion_path_weights.

#[export] Instance ma_channel_conversion_path_eq_dec : EqDecision ma_channel_conversion_path.
Proof. solve_decision. Defined.

(** ** Planes *)

(** A row of the table: left, right, front, back, bottom, top, in hundredths. *)
Definition planes (l r f b o t : Z) : list spec_float :=
  map (fun n => f32_lit n 100) [l; r; f; b; o; t].

Definition g_maChannelPlaneRatios : list (list spec_float) :=
  [ planes 0 0 0 0 0 0;       (* MA_CHANNEL_NONE *)
    planes 0 0 0 0 0 0;       (* MA_CHANNEL_MONO *)
    planes 50 0 50 0 0 0;     (* MA_CHANNEL_FRONT_LEFT *)
    planes 0 50 50 0 0 0;     (* MA_CHANNEL_FRONT_RIGHT *)
    planes 0 0 100 0 0 0;     (* MA_CHANNEL_FRONT_CENTER *)
    planes 0 0 0 0 0 0;       (* MA_CHANNEL_LFE *)
    planes 50 0 0 50 0 0;     (* MA_CHANNEL_BACK_LEFT *)
    planes 0 50 0 50 0 0;     (* MA_CHANNEL_BACK_RIGHT *)
    planes 25 0 75 0 0 0;     (* MA_CHANNEL_FRONT_LEFT_CENTER *)
    planes 0 25 75 0 0 0;     (* MA_CHANNEL_FRONT_RIGHT_CENTER *)
    planes 0 0 0 100 0 0;     (* MA_CHANNEL_BACK_CENTER *)
    planes 100 0 0 0 0 0;     (* MA_CHANNEL_SIDE_LEFT *)
    planes 0 100 0 0 0 0;     (* MA_CHANNEL_SIDE_RIGHT *)
    planes 0 0 0 0 0 100;     (* MA_CHANNEL_TOP_CENTER *)
    planes 33 0 33 0 0 34;    (* MA_CHANNEL_TOP_FRONT_LEFT *)
    planes 0 0 50 0 0 50;     (* MA_CHANNEL_TOP_FRONT_CENTER *)
    planes 0 33 33 0 0 34;    (* MA_CHANNEL_TOP_FRONT_RIGHT *)
    planes 33 0 0 33 0 34;    (* MA_CHANNEL_TOP_BACK_LEFT *)
    planes 0 0 0 50 0 50;     (* MA_CHANNEL_TOP_BACK_CENTER *)
    planes 0 33 0 33 0 34 ]   (* MA_CHANNEL_TOP_BACK_RIGHT *)
  ++ replicate 32 (planes 0 0 0 0 0 0).   (* MA_CHANNEL_AUX_0 to MA_CHANNEL_AUX_31 *)

Definition plane_ratio (position : ma_channel) (i : nat) : spec_float :=
  nth i (nth (Z.to_nat position) g_maChannelPlaneRatios []) f32_zero.

(** The sum is from left to right. *)
Definition ma_calculate_channel_position_rectangular_weight
    (channelPositionA channelPositionB : ma_channel) : spec_float :=
  let term i := f32_mul (plane_ratio channelPositionA i) (plane_ratio channelPositionB i) in
  f32_add (f32_add (f32_add (f32_add (f32_add (term 0%nat) (term 1%nat)) (term 2%nat))
    (term 3%nat)) (term 4%nat)) (term 5%nat).

(** [x != 0] for a [float], and [x == 0] *)
Definition f32_is_zero (x : spec_float) : bool :=
  match x with S754_zero _ => true | _ => false end.

Definition ma_is_spatial_channel_position (channelPosition : ma_channel) : bool :=
  if (channelPosition =? MA_CHANNEL_NONE) || (channelPosition =? MA_CHANNEL_MONO)
     || (channelPosition =? MA_CHANNEL_LFE) then false
  else if channelPosition >=? MA_CHANNEL_AUX_0 then false
  else existsb (fun i => negb (f32_is_zero (plane_ratio channelPosition i))) (seq 0 6).

Definition ma_channel_map_get_spatial_channel_count (pChannelMap : option (list ma_channel))
    (channels : Z) : Z :=
  for_loop (Z.to_nat channels) 0 (fun iChannel spatialChannelCount =>
    if ma_is_spatial_channel_position (ma_channel_map_get_channel pChannelMap channels iChannel)
    then u32 (spatialChannelCount + 1) else spatialChannelCount) 0.

(** [None]: the value does not fit.  [x * (1 << 12)] is a product of floats. *)
Definition ma_channel_converter_float_to_fixed (x : spec_float) : option Z :=
  sf_to_s 32 (f32_mul x (f32_of_Z (2 ^ MA_CHANNEL_CONVERTER_FIXED_POINT_SHIFT))).

(** ** The conversion path *)

(** Equal pointers have equal maps, for which the comparison answers the same. *)
Definition ma_channel_map_is_passthrough (pChannelMapIn : option (list ma_channel)) (channelsIn : Z)
    (pChannelMapOut : option (list ma_channel)) (channelsOut : Z) : bool :=
  if channelsOut =? channelsIn
  then ma_channel_map_is_equal false pChannelMapOut pChannelMapIn channelsOut
  else false.

(** [channels == 1 && (map == NULL || map[0] == MA_CHANNEL_MONO)] *)
Definition is_mono (pChannelMap : option (list ma_channel)) (channels : Z) : bool :=
  (channels =? 1) &&
  match pChannelMap with
  | None => true
  | Some m => nth 0 m MA_CHANNEL_NONE =? MA_CHANNEL_MONO
  end.

(** The loop of the shuffle test: every input position is present in the output. *)
Fixpoint all_present (n : nat) (pChannelMapIn : option (list ma_channel)) (channelsIn : Z)
    (pChannelMapOut : option (list ma_channel)) (channelsOut : Z) (iChannelIn : Z) : bool :=
  match n with
  | O => true
  | S n =>
      if ma_channel_map_contains_channel_position channelsOut pChannelMapOut
           (ma_channel_map_get_channel pChannelMapIn channelsIn iChannelIn)
      then all_present n pChannelMapIn channelsIn pChannelMapOut channelsOut (iChannelIn + 1)
      else false
  end.

Definition ma_channel_map_get_conversion_path (pChannelMapIn : option (list ma_channel))
    (channelsIn : Z) (pChannelMapOut : option (list ma_channel)) (channelsOut : Z)
    (mode : ma_channel_mix_mode) : ma_channel_conversion_path :=
  if ma_channel_map_is_passthrough pChannelMapIn channelsIn pChannelMapOut channelsOut
  then ma_channel_conversion_path_passthrough
  else if is_mono pChannelMapOut channelsOut then ma_channel_conversion_path_mono_out
  else if is_mono pChannelMapIn channelsIn then ma_channel_conversion_path_mono_in
  else if decide (mode = ma_channel_mix_mode_custom_weights)
  then ma_channel_conversion_path_weights
  else if (channelsIn =? channelsOut)
          && all_present (Z.to_nat channelsIn) pChannelMapIn channelsIn pChannelMapOut channelsOut 0
  then ma_channel_conversion_path_shuffle
  else ma_channel_conversion_path_weights.

(** ** The shuffle table *)

(** The relaxed matches: front and side channels stand for each other. *)
Definition relaxed_match (channelOut channelIn : ma_channel) : bool :=
  if (channelOut =? MA_CHANNEL_FRONT_LEFT) || (channelOut =? MA_CHANNEL_SIDE_LEFT)
  then (channelIn =? MA_CHANNEL_FRONT_LEFT) || (channelIn =? MA_CHANNEL_SIDE_LEFT)
  else if (channelOut =? MA_CHANNEL_FRONT_RIGHT) || (channelOut =? MA_CHANNEL_SIDE_RIGHT)
  then (channelIn =? MA_CHANNEL_FRONT_RIGHT) || (channelIn =? MA_CHANNEL_SIDE_RIGHT)
  else false.

(** The inner loop, from [iChannelIn]; [entry] is [pShuffleTable[iChannelOut]]. *)
Fixpoint shuffle_entry (n : nat) (pChannelMapIn : option (list ma_channel)) (channelCountIn : Z)
    (channelOut : ma_channel) (iChannelIn entry : Z) : Z :=
  match n with
  | O => entry
  | S n =>
      let channelIn := ma_channel_map_get_channel pChannelMapIn channelCountIn iChannelIn in
      if channelOut =? channelIn then u8 iChannelIn
      else
        shuffle_entry n pChannelMapIn channelCountIn channelOut (iChannelIn + 1)
          (if relaxed_match channelOut channelIn then u8 iChannelIn else entry)
  end.

(** Returns the result and the table, one byte per cell. *)
Definition ma_channel_map_build_shuffle_table (pChannelMapIn : option (list ma_channel))
    (channelCountIn : Z) (pChannelMapOut : option (list ma_channel)) (channelCountOut : Z)
    (pShuffleTable : list Z) : ma_result * list Z :=
  if (channelCountIn =? 0) || (channelCountOut =? 0) then (MA_INVALID_ARGS, pShuffleTable)
  else
    (MA_SUCCESS,
     for_loop (Z.to_nat channelCountOut) 0 (fun iChannelOut table =>
       let channelOut := ma_channel_map_get_channel pChannelMapOut channelCountOut iChannelOut in
       wr table iChannelOut
         [shuffle_entry (Z.to_nat channelCountIn) pChannelMapIn channelCountIn channelOut 0
            MA_CHANNEL_INDEX_NULL]) pShuffleTable).

(** The loops of the four formats of one, two or four bytes, which differ in the width
    [w] of a sample only. *)
Definition shuffle_samples (w : Z) (pFramesOut : list Z) (channelsOut : Z) (pFramesIn : list Z)
    (channelsIn frameCount : Z) (pShuffleTable : list Z) : list Z :=
  for_loop (Z.to_nat frameCount) 0 (fun iFrame out =>
    for_loop (Z.to_nat channelsOut) 0 (fun iChannelOut out =>
      let iChannelIn := nth (Z.to_nat iChannelOut) pShuffleTable 0 in
      wr out ((iFrame * channelsOut + iChannelOut) * w)
        (if iChannelIn <? channelsIn
         then cell w pFramesIn (iFrame * channelsIn + iChannelIn)
         else zrep w 0)) out) pFramesOut.

Definition ma_channel_map_apply_shuffle_table_u8 := shuffle_samples 1.
Definition ma_channel_map_apply_shuffle_table_s16 := shuffle_samples 2.
Definition ma_channel_map_apply_shuffle_table_s32 := shuffle_samples 4.
Definition ma_channel_map_apply_shuffle_table_f32 := shuffle_samples 4.

(** A store of one byte, undefined outside the buffer. *)
Definition store_byte (m : list Z) (i b : Z) : option (list Z) :=
  if (0 <=? i) && (i <? zlen m) then Some (wr m i [b]) else None.

(** The braces are where the source has them: the store of byte 1 is outside the [else].
    [o] and [i] are the offsets of the two frames. *)
Definition shuffle_s24_channel (o i channelsIn : Z) (pFramesIn pShuffleTable : list Z)
    (iChannelOut : Z) (out : list Z) : option (list Z) :=
  let iChannelIn := nth (Z.to_nat iChannelOut) pShuffleTable 0 in
  let src k := nth (Z.to_nat (i + iChannelIn * 3 + k)) pFramesIn 0 in
  out ← (if iChannelIn <? channelsIn
         then out ← store_byte out (o + iChannelOut * 3 + 0) (src 0);
              out ← store_byte out (o + iChannelOut * 3 + 1) (src 1);
              store_byte out (o + iChannelOut * 3 + 2) (src 2)
         else store_byte out (o + iChannelOut * 3 + 0) 0);
  store_byte out (o + iChannelOut * 3 + 1) 0.

(** The store of byte 2 is outside the loop over the channels, where [iChannelOut] is
    [channelsOut]. *)
Definition shuffle_s24_frame (channelsOut channelsIn : Z) (pFramesIn pShuffleTable : list Z)
    (iFrame : Z) (out : list Z) : option (list Z) :=
  let o := iFrame * channelsOut * 3 in
  let i := iFrame * channelsIn * 3 in
  out ← for_opt (Z.to_nat channelsOut) 0
          (shuffle_s24_channel o i channelsIn pFramesIn pShuffleTable) out;
  store_byte out (o + channelsOut * 3 + 2) 0.

Definition ma_channel_map_apply_shuffle_table_s24 (pFramesOut : list Z) (channelsOut : Z)
    (pFramesIn : list Z) (channelsIn frameCount : Z) (pShuffleTable : list Z) : option (list Z) :=
  for_opt (Z.to_nat frameCount) 0
    (shuffle_s24_frame channelsOut channelsIn pFramesIn pShuffleTable) pFramesOut.

Definition ma_channel_map_apply_shuffle_table (pFramesOut : list Z) (channelsOut : Z)
    (pFramesIn : list Z) (channelsIn frameCount : Z) (pShuffleTable : list Z) (format : ma_format)
    : option (ma_result * list Z) :=
  if channelsOut =? 0 then Some (MA_INVALID_ARGS, pFramesOut)
  else
    let done out := Some (MA_SUCCESS, out) in
    match format with
    | ma_format_u8 => done (ma_channel_map_apply_shuffle_table_u8 pFramesOut channelsOut pFramesIn
                              channelsIn frameCount pShuffleTable)
    | ma_format_s16 => done (ma_channel_map_apply_shuffle_table_s16 pFramesOut channelsOut pFramesIn
                               channelsIn frameCount pShuffleTable)
    | ma_format_s24 =>
        match ma_channel_map_apply_shuffle_table_s24 pFramesOut channelsOut pFramesIn channelsIn
                frameCount pShuffleTable with
        | Some out => done out
        | None => None
        end
    | ma_format_s32 => done (ma_channel_map_apply_shuffle_table_s32 pFramesOut channelsOut pFramesIn
                               channelsIn frameCount pShuffleTable)
    | ma_format_f32 => done (ma_channel_map_apply_shuffle_table_f32 pFramesOut channelsOut pFramesIn
                               channelsIn frameCount pShuffleTable)
    | ma_format_unknown => Some (MA_INVALID_ARGS, pFramesOut)
    end.

(** ** The converter *)

Record ma_channel_converter_config := mk_channel_converter_config {
  ccc_format : ma_format;
  ccc_channelsIn : Z;
  ccc_channelsOut : Z;
  ccc_pChannelMapIn : option (list ma_channel);
  ccc_pChannelMapOut : option (list ma_channel);
  ccc_mixingMode : ma_channel_mix_mode;
  ccc_calculateLFEFromSpatialChannels : bool;
  ccc_ppWeights : option (list (list spec_float)) }.

Definition ma_channel_converter_config_init (format : ma_format) (channelsIn : Z)
    (pChannelMapIn : option (list ma_channel)) (channelsOut : Z)
    (pChannelMapOut : option (list ma_channel)) (mixingMode : ma_channel_mix_mode)
    : ma_channel_converter_config :=
  mk_channel_converter_config format channelsIn channelsOut pChannelMapIn pChannelMapOut mixingMode
    false None.

Record ma_channel_converter := mk_channel_converter {
  cc_format : ma_format;
  cc_channelsIn : Z;
  cc_channelsOut : Z;
  cc_mixingMode : ma_channel_mix_mode;
  cc_conversionPath : ma_channel_conversion_path;
  cc_pChannelMapIn : option (list ma_channel);
  cc_pChannelMapOut : option (list ma_channel);
  cc_pShuffleTable : list Z;
  cc_weights : list (list ma_biquad_coefficient);
  cc_ownsHeap : bool }.

Definition ma_channel_converter_zero : ma_channel_converter :=
  mk_channel_converter ma_format_unknown 0 0 ma_channel_mix_mode_rectangular
    ma_channel_conversion_path_unknown None None [] [] false.

Definition cc_with_weights (c : ma_channel_converter) (weights : list (list ma_biquad_coefficient))
    : ma_channel_converter :=
  mk_channel_converter (cc_format c) (cc_channelsIn c) (cc_channelsOut c) (cc_mixingMode c)
    (cc_conversionPath c) (cc_pChannelMapIn c) (cc_pChannelMapOut c) (cc_pShuffleTable c) weights
    (cc_ownsHeap c).

Definition cc_with_ownsHeap (c : ma_channel_converter) : ma_channel_converter :=
  mk_channel_converter (cc_format c) (cc_channelsIn c) (cc_channelsOut c) (cc_mixingMode c)
    (cc_conversionPath c) (cc_pChannelMapIn c) (cc_pChannelMapOut c) (cc_pShuffleTable c)
    (cc_weights c) true.

Definition ma_channel_converter_config_get_conversion_path (c : ma_channel_converter_config)
    : ma_channel_conversion_path :=
  ma_channel_map_get_conversion_path (ccc_pChannelMapIn c) (ccc_channelsIn c)
    (ccc_pChannelMapOut c) (ccc_channelsOut c) (ccc_mixingMode c).

(** *** The heap block *)

Record ma_channel_converter_heap_layout := mk_channel_converter_layout {
  ccl_sizeInBytes : Z;
  ccl_channelMapInOffset : Z;
  ccl_channelMapOutOffset : Z;
  ccl_shuffleTableOffset : Z;
  ccl_weightsOffset : Z }.

Definition ma_channel_converter_get_heap_layout (pConfig : option ma_channel_converter_config)
    : ma_result * ma_channel_converter_heap_layout :=
  let fail := (MA_INVALID_ARGS, mk_channel_converter_layout 0 0 0 0 0) in
  match pConfig with
  | None => fail
  | Some c =>
      if (ccc_channelsIn c =? 0) || (ccc_channelsOut c =? 0) then fail
      else if negb (ma_channel_map_is_valid (ccc_pChannelMapIn c) (ccc_channelsIn c)) then fail
      else if negb (ma_channel_map_is_valid (ccc_pChannelMapOut c) (ccc_channelsOut c)) then fail
      else
        let size := 0 in
        let channelMapInOffset := size in
        let size := match ccc_pChannelMapIn c with
                    | Some _ => u64 (size + ccc_channelsIn c) | None => size end in
        let channelMapOutOffset := size in
        let size := match ccc_pChannelMapOut c with
                    | Some _ => u64 (size + ccc_channelsOut c) | None => size end in
        let size := ma_align_64 size in
        let conversionPath := ma_channel_converter_config_get_conversion_path c in
        let shuffleTableOffset := size in
        let size := if decide (conversionPath = ma_channel_conversion_path_shuffle)
                    then u64 (size + ccc_channelsOut c) else size in
        let weightsOffset := size in
        let size := if decide (conversionPath = ma_channel_conversion_path_weights)
                    then u64 (u64 (size + u64 (8 * ccc_channelsIn c))
                              + u64 (u64 (4 * ccc_channelsIn c) * ccc_channelsOut c))
                    else size in
        (MA_SUCCESS,
         mk_channel_converter_layout (ma_align_64 size) channelMapInOffset channelMapOutOffset
           shuffleTableOffset weightsOffset)
  end.

(** Returns the result and [*pHeapSizeInBytes]. *)
Definition ma_channel_converter_get_heap_size (pConfig : option ma_channel_converter_config)
    : ma_result * Z :=
  let '(result, layout) := ma_channel_converter_get_heap_layout pConfig in
  if result =? MA_SUCCESS then (MA_SUCCESS, ccl_sizeInBytes layout) else (result, 0).

(** *** The table of weights *)

Definition get_weight (weights : list (list ma_biquad_coefficient)) (iChannelIn iChannelOut : Z)
    : ma_biquad_coefficient :=
  nth (Z.to_nat iChannelOut) (nth (Z.to_nat iChannelIn) weights []) 0.

Definition set_weight (weights : list (list ma_biquad_coefficient)) (iChannelIn iChannelOut : Z)
    (v : ma_biquad_coefficient) : list (list ma_biquad_coefficient) :=
  alter (fun row => <[Z.to_nat iChannelOut := v]> row) (Z.to_nat iChannelIn) weights.

(** The word stored for a weight: the [float], or its fixed point value. *)
Definition weight_word (format : ma_format) (weight : spec_float) : option ma_biquad_coefficient :=
  if decide (format = ma_format_f32) then Some (of_f32 weight)
  else option_map of_s32 (ma_channel_converter_float_to_fixed weight).

Definition weight_is_zero (format : ma_format) (v : ma_biquad_coefficient) : bool :=
  if decide (format = ma_format_f32) then f32_is_zero (co_f32 v) else co_s32 v =? 0.

Section init_weights.
Variable c : ma_channel_converter.

(** The types of weights, in the order of the loops that fill them in. *)
Abbreviation weights_t := (list (list ma_biquad_coefficient)) (only parsing).

Definition posIn (iChannelIn : Z) : ma_channel :=
  ma_channel_map_get_channel (cc_pChannelMapIn c) (cc_channelsIn c) iChannelIn.
Definition posOut (iChannelOut : Z) : ma_channel :=
  ma_channel_map_get_channel (cc_pChannelMapOut c) (cc_channelsOut c) iChannelOut.

Definition put_weight (w : weights_t) (iChannelIn iChannelOut : Z) (weight : spec_float)
    : option weights_t :=
  option_map (set_weight w iChannelIn iChannelOut) (weight_word (cc_format c) weight).

(** Only if there is no contribution yet. *)
Definition put_weight_if_zero (w : weights_t) (iChannelIn iChannelOut : Z) (weight : spec_float)
    : option weights_t :=
  if weight_is_zero (cc_format c) (get_weight w iChannelIn iChannelOut)
  then put_weight w iChannelIn iChannelOut weight else Some w.

(** [for] over the input channels and, inside, over the output channels. *)
Definition for_in_out (body : Z -> Z -> weights_t -> option weights_t) (w : weights_t)
    : option weights_t :=
  for_opt (Z.to_nat (cc_channelsIn c)) 0 (fun iChannelIn w =>
    for_opt (Z.to_nat (cc_channelsOut c)) 0 (fun iChannelOut w => body iChannelIn iChannelOut w) w) w.

(** "Silence our weights by default." *)
Definition weights_silence (w : weights_t) : option weights_t :=
  for_in_out (fun iChannelIn iChannelOut w =>
    Some (set_weight w iChannelIn iChannelOut
      (if decide (cc_format c = ma_format_f32) then of_f32 f32_zero else of_s32 0))) w.

(** Channels that are in both maps. *)
Definition weights_shared (w : weights_t) : option weights_t :=
  for_in_out (fun iChannelIn iChannelOut w =>
    if posIn iChannelIn =? posOut iChannelOut then put_weight w iChannelIn iChannelOut f32_one
    else Some w) w.

Definition weights_custom (ppWeights : list (list spec_float)) (w : weights_t) : option weights_t :=
  for_in_out (fun iChannelIn iChannelOut w =>
    put_weight w iChannelIn iChannelOut
      (nth (Z.to_nat iChannelOut) (nth (Z.to_nat iChannelIn) ppWeights []) f32_zero)) w.

Definition rectangular_weight (iChannelIn iChannelOut : Z) : spec_float :=
  if decide (cc_mixingMode c = ma_channel_mix_mode_rectangular)
  then ma_calculate_channel_position_rectangular_weight (posIn iChannelIn) (posOut iChannelOut)
  else f32_zero.

(** "Unmapped input channels." *)
Definition weights_unmapped_in (w : weights_t) : option weights_t :=
  for_opt (Z.to_nat (cc_channelsIn c)) 0 (fun iChannelIn w =>
    if ma_is_spatial_channel_position (posIn iChannelIn)
       && negb (ma_channel_map_contains_channel_position (cc_channelsOut c) (cc_pChannelMapOut c)
                  (posIn iChannelIn))
    then
      for_opt (Z.to_nat (cc_channelsOut c)) 0 (fun iChannelOut w =>
        if ma_is_spatial_channel_position (posOut iChannelOut)
        then put_weight_if_zero w iChannelIn iChannelOut (rectangular_weight iChannelIn iChannelOut)
        else Some w) w
    else Some w) w.

(** "Unmapped output channels." *)
Definition weights_unmapped_out (w : weights_t) : option weights_t :=
  for_opt (Z.to_nat (cc_channelsOut c)) 0 (fun iChannelOut w =>
    if ma_is_spatial_channel_position (posOut iChannelOut)
       && negb (ma_channel_map_contains_channel_position (cc_channelsIn c) (cc_pChannelMapIn c)
                  (posOut iChannelOut))
    then
      for_opt (Z.to_nat (cc_channelsIn c)) 0 (fun iChannelIn w =>
        if ma_is_spatial_channel_position (posIn iChannelIn)
        then put_weight_if_zero w iChannelIn iChannelOut (rectangular_weight iChannelIn iChannelOut)
        else Some w) w
    else Some w) w.

Definition weights_lfe (w : weights_t) : option weights_t :=
  if ma_channel_map_contains_channel_position (cc_channelsIn c) (cc_pChannelMapIn c) MA_CHANNEL_LFE
  then Some w
  else
    let spatialChannelCount :=
      ma_channel_map_get_spatial_channel_count (cc_pChannelMapIn c) (cc_channelsIn c) in
    let '(found, iChannelOutLFE) :=
      ma_channel_map_find_channel_position (cc_channelsOut c) (cc_pChannelMapOut c) MA_CHANNEL_LFE in
    if (spatialChannelCount >? 0) && found
    then
      let weightForLFE := f32_div f32_one (f32_of_Z spatialChannelCount) in
      for_opt (Z.to_nat (cc_channelsIn c)) 0 (fun iChannelIn w =>
        if ma_is_spatial_channel_position (posIn iChannelIn)
        then put_weight_if_zero w iChannelIn iChannelOutLFE weightForLFE
        else Some w) w
    else Some w.

(** The whole table, with the result. *)
Definition weights_table (calculateLFE : bool) (ppWeights : option (list (list spec_float)))
    (w : weights_t) : option (ma_result * weights_t) :=
  match option_bind _ _ weights_shared (weights_silence w) with
  | None => None
  | Some w =>
      let done := option_map (fun w => (MA_SUCCESS, w)) in
      match cc_mixingMode c with
      | ma_channel_mix_mode_custom_weights =>
          match ppWeights with
          | None => Some (MA_INVALID_ARGS, w)
          | Some pp => done (weights_custom pp w)
          end
      | ma_channel_mix_mode_simple => Some (MA_SUCCESS, w)
      | ma_channel_mix_mode_rectangular =>
          done (w ← weights_unmapped_in w;
                w ← weights_unmapped_out w;
                if calculateLFE then weights_lfe w else Some w)
      end
  end.
End init_weights.

(** *** Initialisation *)

(** The heap block is the caller's; it is zeroed and divided as the layout says. *)
Definition ma_channel_converter_init_preallocated (pConfig : option ma_channel_converter_config)
    : option (ma_result * ma_channel_converter) :=
  let '(result, _) := ma_channel_converter_get_heap_layout pConfig in
  match pConfig with
  | Some cfg =>
      if negb (result =? MA_SUCCESS) then Some (result, ma_channel_converter_zero)
      else
        let own channels m := ma_channel_map_copy_or_default (zrep channels 0) channels (Some m) channels in
        let pChannelMapIn := option_map (own (ccc_channelsIn cfg)) (ccc_pChannelMapIn cfg) in
        let pChannelMapOut := option_map (own (ccc_channelsOut cfg)) (ccc_pChannelMapOut cfg) in
        let conversionPath := ma_channel_converter_config_get_conversion_path cfg in
        let pShuffleTable :=
          if decide (conversionPath = ma_channel_conversion_path_shuffle)
          then snd (ma_channel_map_build_shuffle_table pChannelMapIn (ccc_channelsIn cfg) pChannelMapOut
                      (ccc_channelsOut cfg) (zrep (ccc_channelsOut cfg) 0))
          else [] in
        let c := mk_channel_converter (ccc_format cfg) (ccc_channelsIn cfg) (ccc_channelsOut cfg)
                   (ccc_mixingMode cfg) conversionPath pChannelMapIn pChannelMapOut pShuffleTable []
                   false in
        if decide (conversionPath = ma_channel_conversion_path_weights)
        then
          match weights_table c (ccc_calculateLFEFromSpatialChannels cfg) (ccc_ppWeights cfg)
                  (zrep (ccc_channelsIn cfg) (zrep (ccc_channelsOut cfg) 0)) with
          | Some (result, w) => Some (result, cc_with_weights c w)
          | None => None
          end
        else Some (MA_SUCCESS, c)
  | None => Some (result, ma_channel_converter_zero)
  end.

(** [alloc] is whether the allocation succeeds.  Where the code returns before the
    converter is written, [before] is what it held. *)
Definition ma_channel_converter_init (pConfig : option ma_channel_converter_config) (alloc : bool)
    (before : ma_channel_converter) : option (ma_result * ma_channel_converter) :=
  let '(result, heapSizeInBytes) := ma_channel_converter_get_heap_size pConfig in
  if negb (result =? MA_SUCCESS) then Some (result, before)
  else if (heapSizeInBytes >? 0) && negb alloc then Some (MA_OUT_OF_MEMORY, before)
  else
    match ma_channel_converter_init_preallocated pConfig with
    | Some (result, c) =>
        if result =? MA_SUCCESS then Some (MA_SUCCESS, cc_with_ownsHeap c) else Some (result, c)
    | None => None
    end.

(** ** Processing *)

Definition ma_channel_converter_process_pcm_frames__passthrough (c : ma_channel_converter)
    (pFramesOut pFramesIn : list Z) (frameCount : Z) : option (ma_result * list Z) :=
  Some (MA_SUCCESS,
    wr pFramesOut 0
      (rd pFramesIn 0 (u64 (frameCount * ma_get_bytes_per_frame (cc_format c) (cc_channelsOut c))))).

Definition ma_channel_converter_process_pcm_frames__shuffle (c : ma_channel_converter)
    (pFramesOut pFramesIn : list Z) (frameCount : Z) : option (ma_result * list Z) :=
  ma_channel_map_apply_shuffle_table pFramesOut (cc_channelsOut c) pFramesIn (cc_channelsIn c)
    frameCount (cc_pShuffleTable c) (cc_format c).

(** The loop every format has, over samples of [w] bytes. *)
Definition mono_in_samples (w : Z) (channelsOut : Z) (pFramesOut pFramesIn : list Z) (frameCount : Z)
    : list Z :=
  for_loop (Z.to_nat frameCount) 0 (fun iFrame out =>
    for_loop (Z.to_nat channelsOut) 0 (fun iChannel out =>
      wr out (u64 (u64 (iFrame * channelsOut) + iChannel) * w) (cell w pFramesIn iFrame)) out)
    pFramesOut.

(** The loop for two channels of [s16] and [f32]. *)
Definition mono_in_stereo (w : Z) (pFramesOut pFramesIn : list Z) (frameCount : Z) : list Z :=
  for_loop (Z.to_nat frameCount) 0 (fun iFrame out =>
    let out := wr out (u64 (u64 (iFrame * 2) + 0) * w) (cell w pFramesIn iFrame) in
    wr out (u64 (u64 (iFrame * 2) + 1) * w) (cell w pFramesIn iFrame)) pFramesOut.

Definition ma_channel_converter_process_pcm_frames__mono_in (c : ma_channel_converter)
    (pFramesOut pFramesIn : list Z) (frameCount : Z) : option (ma_result * list Z) :=
  let loop w := mono_in_samples w (cc_channelsOut c) pFramesOut pFramesIn frameCount in
  let stereo w := mono_in_stereo w pFramesOut pFramesIn frameCount in
  match cc_format c with
  | ma_format_u8 => Some (MA_SUCCESS, loop 1)
  | ma_format_s16 => Some (MA_SUCCESS, if cc_channelsOut c =? 2 then stereo 2 else loop 2)
  | ma_format_s24 => Some (MA_SUCCESS, loop 3)
  | ma_format_s32 => Some (MA_SUCCESS, loop 4)
  | ma_format_f32 => Some (MA_SUCCESS, if cc_channelsOut c =? 2 then stereo 4 else loop 4)
  | ma_format_unknown => Some (MA_INVALID_OPERATION, pFramesOut)
  end.

(** The sum over the channels of a frame. *)
Definition mono_out_sum {T} (w : Z) (add : T -> list Z -> T) (zero : T) (channelsIn : Z)
    (pFramesIn : list Z) (iFrame : Z) : T :=
  for_loop (Z.to_nat channelsIn) 0 (fun iChannel t =>
    add t (cell w pFramesIn (u64 (u64 (iFrame * channelsIn) + iChannel)))) zero.

Definition mono_out_samples {T} (w : Z) (add : T -> list Z -> T) (zero : T) (store : T -> list Z)
    (channelsIn : Z) (pFramesOut pFramesIn : list Z) (frameCount : Z) : list Z :=
  for_loop (Z.to_nat frameCount) 0 (fun iFrame out =>
    wr out (iFrame * w) (store (mono_out_sum w add zero channelsIn pFramesIn iFrame))) pFramesOut.

Definition mono_out_u8 (channelsOut : Z) :=
  mono_out_samples 1 (fun t x => s32 (t + ma_pcm_sample_u8_to_s16_no_scale (sample_u8 x))) 0
    (fun t => bytes_u8 (ma_clip_u8 (s32 (u32 t / channelsOut)))).
(** An [ma_int32] divided by an [ma_uint32]: the dividend is converted to unsigned. *)
Definition mono_out_s16 (channelsIn : Z) :=
  mono_out_samples 2 (fun t x => s32 (t + sample_s16 x)) 0
    (fun t => bytes_s16 (s16 (u32 t / channelsIn))) channelsIn.
Definition mono_out_s24 (channelsIn : Z) :=
  mono_out_samples 3 (fun t x => s64 (t + ma_pcm_sample_s24_to_s32_no_scale (sample_s24 x))) 0
    (fun t => bytes_s24 (ma_pcm_sample_s32_to_s24_no_scale (Z.quot t channelsIn))) channelsIn.
Definition mono_out_s32 (channelsIn : Z) :=
  mono_out_samples 4 (fun t x => s64 (t + sample_s32 x)) 0
    (fun t => bytes_s32 (s32 (Z.quot t channelsIn))) channelsIn.
Definition mono_out_f32 (channelsIn : Z) :=
  mono_out_samples 4 (fun t x => f32_add t (sample_f32 x)) f32_zero
    (fun t => bytes_f32 (f32_div t (f32_of_Z channelsIn))) channelsIn.

Definition ma_channel_converter_process_pcm_frames__mono_out (c : ma_channel_converter)
    (pFramesOut pFramesIn : list Z) (frameCount : Z) : option (ma_result * list Z) :=
  let n := cc_channelsIn c in
  match cc_format c with
  | ma_format_u8 =>
      Some (MA_SUCCESS, mono_out_u8 (cc_channelsOut c) n pFramesOut pFramesIn frameCount)
  | ma_format_s16 => Some (MA_SUCCESS, mono_out_s16 n pFramesOut pFramesIn frameCount)
  | ma_format_s24 => Some (MA_SUCCESS, mono_out_s24 n pFramesOut pFramesIn frameCount)
  | ma_format_s32 => Some (MA_SUCCESS, mono_out_s32 n pFramesOut pFramesIn frameCount)
  | ma_format_f32 => Some (MA_SUCCESS, mono_out_f32 n pFramesOut pFramesIn frameCount)
  | ma_format_unknown => Some (MA_INVALID_OPERATION, pFramesOut)
  end.

(** The bodies of the innermost loop of the weights path: from the bytes of the output
    sample, those of the input sample and the weight to those of the new output sample. *)
Definition accumulate_u8 (o i : list Z) (weight : ma_biquad_coefficient) : list Z :=
  let u8_O := ma_pcm_sample_u8_to_s16_no_scale (sample_u8 o) in
  let u8_I := ma_pcm_sample_u8_to_s16_no_scale (sample_u8 i) in
  let s := ma_clamp (s32 (u8_O + Z.shiftr (s32 (u8_I * co_s32 weight))
                            MA_CHANNEL_CONVERTER_FIXED_POINT_SHIFT)) (-128) 127 in
  bytes_u8 (ma_clip_u8 (s16 s)).

Definition accumulate_s16 (o i : list Z) (weight : ma_biquad_coefficient) : list Z :=
  let s := s32 (sample_s16 o + Z.shiftr (s32 (sample_s16 i * co_s32 weight))
                  MA_CHANNEL_CONVERTER_FIXED_POINT_SHIFT) in
  bytes_s16 (s16 (ma_clamp s (-32768) 32767)).

Definition accumulate_s24 (o i : list Z) (weight : ma_biquad_coefficient) : list Z :=
  let s24_O := ma_pcm_sample_s24_to_s32_no_scale (sample_s24 o) in
  let s24_I := ma_pcm_sample_s24_to_s32_no_scale (sample_s24 i) in
  let s24 := s32 (ma_clamp (s64 (s24_O + Z.shiftr (s64 (s24_I * co_s32 weight))
                      MA_CHANNEL_CONVERTER_FIXED_POINT_SHIFT)) (-8388608) 8388607) in
  bytes_s24 (ma_pcm_sample_s32_to_s24_no_scale s24).

Definition accumulate_s32 (o i : list Z) (weight : ma_biquad_coefficient) : list Z :=
  let s := s64 (sample_s32 o + Z.shiftr (s64 (sample_s32 i * co_s32 weight))
                  MA_CHANNEL_CONVERTER_FIXED_POINT_SHIFT) in
  bytes_s32 (ma_clip_s32 s).

Definition accumulate_f32 (o i : list Z) (weight : ma_biquad_coefficient) : list Z :=
  bytes_f32 (f32_add (sample_f32 o) (f32_mul (sample_f32 i) (co_f32 weight))).

(** The byte of sample [k] of [w] bytes; the 24-bit loop multiplies in 32 bits. *)
Definition sample_offset (w k : Z) : Z := if w =? 3 then u32 (k * 3) else k * w.

(** The three nested loops; all counters are 32-bit. *)
Definition weights_samples (w : Z) (accumulate : list Z -> list Z -> ma_biquad_coefficient -> list Z)
    (channelsIn channelsOut : Z) (weights : list (list ma_biquad_coefficient))
    (pFramesOut pFramesIn : list Z) (frameCount : Z) : list Z :=
  for_loop (Z.to_nat frameCount) 0 (fun iFrame out =>
    for_loop (Z.to_nat channelsIn) 0 (fun iChannelIn out =>
      for_loop (Z.to_nat channelsOut) 0 (fun iChannelOut out =>
        let o := sample_offset w (u32 (u32 (iFrame * channelsOut) + iChannelOut)) in
        let i := sample_offset w (u32 (u32 (iFrame * channelsIn) + iChannelIn)) in
        wr out o (accumulate (rd out o w) (rd pFramesIn i w)
                    (get_weight weights iChannelIn iChannelOut))) out) out) pFramesOut.

Definition ma_channel_converter_process_pcm_frames__weights (c : ma_channel_converter)
    (pFramesOut pFramesIn : list Z) (frameCount : Z) : option (ma_result * list Z) :=
  let out := wr pFramesOut 0
    (zrep (u64 (frameCount * ma_get_bytes_per_frame (cc_format c) (cc_channelsOut c))) 0) in
  let loop w accumulate :=
    if frameCount <? 2 ^ 32
    then Some (MA_SUCCESS, weights_samples w accumulate (cc_channelsIn c) (cc_channelsOut c)
                             (cc_weights c) out pFramesIn frameCount)
    else None in
  match cc_format c with
  | ma_format_u8 => loop 1 accumulate_u8
  | ma_format_s16 => loop 2 accumulate_s16
  | ma_format_s24 => loop 3 accumulate_s24
  | ma_format_s32 => loop 4 accumulate_s32
  | ma_format_f32 => loop 4 accumulate_f32
  | ma_format_unknown => Some (MA_INVALID_OPERATION, out)
  end.

(** The output pointer is not NULL; [pFramesIn] may be. *)
Definition ma_channel_converter_process_pcm_frames (c : ma_channel_converter) (pFramesOut : list Z)
    (pFramesIn : option (list Z)) (frameCount : Z) : option (ma_result * list Z) :=
  match pFramesIn with
  | None =>
      Some (MA_SUCCESS,
        wr pFramesOut 0
          (zrep (u64 (frameCount * ma_get_bytes_per_frame (cc_format c) (cc_channelsOut c))) 0))
  | Some inn =>
      match cc_conversionPath c with
      | ma_channel_conversion_path_passthrough =>
          ma_channel_converter_process_pcm_frames__passthrough c pFramesOut inn frameCount
      | ma_channel_conversion_path_mono_out =>
          ma_channel_converter_process_pcm_frames__mono_out c pFramesOut inn frameCount
      | ma_channel_conversion_path_mono_in =>
          ma_channel_converter_process_pcm_frames__mono_in c pFramesOut inn frameCount
      | ma_channel_conversion_path_shuffle =>
          ma_channel_converter_process_pcm_frames__shuffle c pFramesOut inn frameCount
      | ma_channel_conversion_path_weights | ma_channel_conversion_path_unknown =>
          ma_channel_converter_process_pcm_frames__weights c pFramesOut inn frameCount
      end
  end.

Definition ma_channel_converter_get_input_channel_map (c : ma_channel_converter)
    (pChannelMap : list ma_channel) (channelMapCap : Z) : ma_result * list ma_channel :=
  (MA_SUCCESS,
   ma_channel_map_copy_or_default pChannelMap channelMapCap (cc_pChannelMapIn c) (cc_channelsIn c)).

Definition ma_channel_converter_get_output_channel_map (c : ma_channel_converter)
    (pChannelMap : list ma_channel) (channelMapCap : Z) : ma_result * list ma_channel :=
  (MA_SUCCESS,
   ma_channel_map_copy_or_default pChannelMap channelMapCap (cc_pChannelMapOut c) (cc_channelsOut c)).
