(* ===== verification/ChannelConverterProps.v ===== *)
(** * Properties of the channel converter

    What the paths compute, sample by sample: the shuffle and the 24-bit loop that leaves its
    buffer, the averages to mono with their division by an unsigned count, the weights path
    against a sum over the input channels; and that initialisation chooses the path whose
    conditions hold. *)
From Stdlib Require Import ZArith Lia Bool SpecFloat.
From stdpp Require Import base numbers list option.
From S2P Require Import Prelude MaTypes CFloat Loops PcmRing PcmFormat PcmFormatProps ChannelMap Biquad ChannelConverter.

Local Open Scope Z_scope.

(** ** The samples of the loops that copy *)

Lemma shuffle_samples_spec w out chOut inn chIn F table :
  0 < w -> 0 <= F -> 0 <= chOut -> 0 <= chIn -> F * chOut * w <= zlen out ->
  F * chIn * w <= zlen inn ->
  Forall (fun k => 0 <= k) table ->
  let r := shuffle_samples w out chOut inn chIn F table in
  zlen r = zlen out
  /\ (forall f o, 0 <= f < F -> 0 <= o < chOut ->
        cell w r (f * chOut + o) =
        let i := nth (Z.to_nat o) table 0 in
        if i <? chIn then cell w inn (f * chIn + i) else zrep w 0)
  /\ (forall j, F * chOut <= j -> cell w r j = cell w out j).
Proof.
  intros Hw HF Ho Hi Hout Hinn Ht.
  apply (update_frames w F chOut _
    (fun f o _ => let i := nth (Z.to_nat o) table 0 in
       if i <? chIn then cell w inn (f * chIn + i) else zrep w 0)); [done..|].
  intros f m Hf Hm.
  apply (update_row w Hw (f * chOut) chOut
    (fun o _ => let i := nth (Z.to_nat o) table 0 in
       if i <? chIn then cell w inn (f * chIn + i) else zrep w 0) m (F * chOut));
    [nia|done|nia|lia|].
  intros o x Ho' _. cbv zeta. destruct (Z.ltb_spec (nth (Z.to_nat o) table 0) chIn) as [H|H].
  - assert (0 <= nth (Z.to_nat o) table 0).
    { destruct (nth_in_or_default (Z.to_nat o) table 0) as [Hin| ->]; [|lia].
      rewrite Forall_forall in Ht. by apply Ht. }
    apply zlen_cell with (n := F * chIn); nia.
  - apply zlen_zrep. lia.
Qed.

Lemma mono_in_samples_spec w out ch inn F :
  0 < w -> 0 <= F -> 0 <= ch -> F * ch < 2 ^ 64 -> F * ch * w <= zlen out -> F * w <= zlen inn ->
  let r := mono_in_samples w ch out inn F in
  zlen r = zlen out
  /\ (forall f o, 0 <= f < F -> 0 <= o < ch -> cell w r (f * ch + o) = cell w inn f)
  /\ (forall j, F * ch <= j -> cell w r j = cell w out j).
Proof.
  intros Hw HF Hc H64 Hout Hinn.
  apply (update_frames w F ch _ (fun f _ _ => cell w inn f)); [done..|].
  intros f m Hf Hm.
  rewrite (for_loop_ext _ _ _ (fun o m => wr m ((f * ch + o) * w) (cell w inn f))).
  - apply (update_row w Hw (f * ch) ch (fun _ _ => cell w inn f) m (F * ch)); [nia|done|nia|lia|].
    intros o x Ho _. apply zlen_cell with (n := F); nia.
  - intros o x Ho. assert (f * ch + o < F * ch) by nia.
    assert (0 <= f * ch) by nia.
    unfold u64. rewrite (wrapu_id 64 (f * ch)) by (split; lia).
    rewrite (wrapu_id 64) by (split; lia). done.
Qed.

Lemma mono_in_stereo_eq w out inn F :
  0 <= F -> F * 2 < 2 ^ 64 -> mono_in_stereo w out inn F = mono_in_samples w 2 out inn F.
Proof. done. Qed.

(** ** The shuffle table *)

(** An exact match is the first one, and ends the search. *)
Lemma shuffle_entry_first n m ch position i0 e i :
  i0 <= i < i0 + Z.of_nat n -> ma_channel_map_get_channel m ch i = position ->
  (forall j, i0 <= j < i -> ma_channel_map_get_channel m ch j <> position) ->
  shuffle_entry n m ch position i0 e = u8 i.
Proof.
  revert i0 e. induction n as [|n IH]; intros i0 e Hi Hp Hd; [lia|]. cbn [shuffle_entry].
  destruct (Z.eqb_spec position (ma_channel_map_get_channel m ch i0)) as [He|He].
  - destruct (decide (i0 = i)) as [->|]; [done|]. exfalso. apply (Hd i0); [lia|done].
  - apply IH; [|done|intros j Hj; apply Hd; lia].
    destruct (decide (i0 = i)) as [->|]; [congruence|lia].
Qed.

Lemma u8_range x : 0 <= u8 x < 256.
Proof. apply (wrapu_range 8 x). lia. Qed.

Lemma shuffle_entry_range n m ch position i e :
  0 <= e < 256 -> 0 <= shuffle_entry n m ch position i e < 256.
Proof.
  revert i e. induction n as [|n IH]; intros i e He; cbn [shuffle_entry]; [done|].
  pose proof (u8_range i). case_match; [done|]. apply IH. by case_match.
Qed.

Definition shuffle_target (mIn : option (list ma_channel)) (chIn : Z) (mOut : option (list ma_channel))
    (chOut o : Z) : Z :=
  shuffle_entry (Z.to_nat chIn) mIn chIn (ma_channel_map_get_channel mOut chOut o) 0
    MA_CHANNEL_INDEX_NULL.

Lemma build_shuffle_table_spec mIn chIn mOut chOut table :
  0 < chIn -> 0 < chOut -> zlen table = chOut ->
  exists t, ma_channel_map_build_shuffle_table mIn chIn mOut chOut table = (MA_SUCCESS, t)
    /\ zlen t = chOut
    /\ forall o, 0 <= o < chOut -> nth (Z.to_nat o) t 0 = shuffle_target mIn chIn mOut chOut o.
Proof.
  intros Hi Ho Hl. unfold ma_channel_map_build_shuffle_table.
  rewrite (proj2 (Z.eqb_neq chIn 0)), (proj2 (Z.eqb_neq chOut 0)) by lia. cbn [orb].
  eexists. split; [reflexivity|].
  rewrite (for_loop_ext _ _ _ (fun o m => wr m ((0 + o) * 1)
    ((fun o _ => [shuffle_target mIn chIn mOut chOut o]) o (cell 1 m (0 + o))))).
  - destruct (update_row 1 ltac:(lia) 0 chOut
      (fun o _ => [shuffle_target mIn chIn mOut chOut o]) table chOut) as (El & Ec & _);
      [lia..|done|].
    split; [by rewrite El|]. intros o Hr. specialize (Ec o Hr). rewrite Z.add_0_l in Ec.
    rewrite (cell_1_nth _ o 0) in Ec by (rewrite El; lia). congruence.
  - intros o m Hr. rewrite Z.add_0_l, Z.mul_1_r. done.
Qed.

(** ** The path of a converter *)

Lemma contains_true channels m position :
  0 <= channels ->
  ma_channel_map_contains_channel_position channels m position = true <->
  exists i, 0 <= i < channels /\ ma_channel_map_get_channel m channels i = position.
Proof.
  intros Hc. unfold ma_channel_map_contains_channel_position, ma_channel_map_find_channel_position.
  pose proof (find_loop_spec (Z.to_nat channels) channels m position 0) as H.
  destruct (find_loop _ _ _ _ _) as [[|] k]; cbn [fst].
  - split; [|done]. intros _. exists k. split; [lia|apply H].
  - split; [done|]. intros (i & Hi & Hp). exfalso. apply (proj2 H i); [lia|done].
Qed.

Lemma all_present_true n mIn chIn mOut chOut i :
  0 <= chOut ->
  all_present n mIn chIn mOut chOut i = true ->
  forall k, i <= k < i + Z.of_nat n -> exists o, 0 <= o < chOut
    /\ ma_channel_map_get_channel mOut chOut o = ma_channel_map_get_channel mIn chIn k.
Proof.
  intros Ho. revert i. induction n as [|n IH]; intros i H k Hk; [lia|]. cbn [all_present] in H.
  destruct (ma_channel_map_contains_channel_position _ _ _) eqn:E; [|done].
  destruct (decide (k = i)) as [->|]; [by apply (contains_true _ _ _ Ho) in E|].
  apply (IH (i + 1)); [done|lia].
Qed.

(** Distinct positions that all occur in an equally long map are all its positions. *)
Lemma positions_onto (mIn mOut : option (list ma_channel)) n :
  (forall i j, 0 <= i < n -> 0 <= j < n ->
     ma_channel_map_get_channel mIn n i = ma_channel_map_get_channel mIn n j -> i = j) ->
  (forall i, 0 <= i < n -> exists o, 0 <= o < n
     /\ ma_channel_map_get_channel mOut n o = ma_channel_map_get_channel mIn n i) ->
  forall o, 0 <= o < n -> exists i, 0 <= i < n
     /\ ma_channel_map_get_channel mIn n i = ma_channel_map_get_channel mOut n o.
Proof.
  intros Hd Hp o Ho.
  set (li := map (ma_channel_map_get_channel mIn n) (seqZ 0 n)).
  set (lo := map (ma_channel_map_get_channel mOut n) (seqZ 0 n)).
  assert (Hin : incl lo li).
  { apply List.NoDup_length_incl.
    - apply NoDup_ListNoDup. apply NoDup_fmap_2_strong; [|apply NoDup_seqZ].
      intros x y Hx%elem_of_seqZ Hy%elem_of_seqZ. apply Hd; lia.
    - unfold li, lo. by rewrite !List.length_map.
    - intros x Hx. apply in_map_iff in Hx as (i & <- & Hi%list_elem_of_In%elem_of_seqZ).
      destruct (Hp i) as (o' & Ho' & <-); [lia|]. apply in_map, list_elem_of_In, elem_of_seqZ. lia. }
  destruct (proj1 (in_map_iff _ _ _) (Hin (ma_channel_map_get_channel mOut n o)
    ltac:(apply in_map, list_elem_of_In, elem_of_seqZ; lia))) as (i & E & Hi%list_elem_of_In%elem_of_seqZ).
  exists i. split; [lia|done].
Qed.

(** ** Initialised converters *)

(** The maps of a configuration have as many positions as channels. *)
Definition map_ok (m : option (list ma_channel)) (n : Z) : Prop :=
  match m with Some l => zlen l = n | None => True end.

Definition config_ok (cfg : ma_channel_converter_config) : Prop :=
  0 <= ccc_channelsIn cfg <= MA_MAX_CHANNELS /\ 0 <= ccc_channelsOut cfg <= MA_MAX_CHANNELS
  /\ map_ok (ccc_pChannelMapIn cfg) (ccc_channelsIn cfg)
  /\ map_ok (ccc_pChannelMapOut cfg) (ccc_channelsOut cfg).

Lemma own_map l n :
  0 < n -> zlen l = n -> ma_channel_map_copy_or_default (zrep n 0) n (Some l) n = l.
Proof.
  intros Hn Hl. unfold ma_channel_map_copy_or_default, ma_channel_map_copy.
  rewrite (proj2 (Z.eqb_neq n 0)) by lia. rewrite (proj2 (Z.gtb_lt n 0)) by lia.
  replace (rd l 0 n) with l by (rewrite <- Hl; symmetry; apply rd_all).
  apply wr_full. rewrite zlen_zrep; lia.
Qed.

Lemma own_map_opt m n :
  0 < n -> map_ok m n ->
  option_map (fun l => ma_channel_map_copy_or_default (zrep n 0) n (Some l) n) m = m.
Proof. intros Hn Hm. destruct m as [l|]; [|done]. cbn [option_map]. by rewrite own_map. Qed.

(** What initialisation that succeeds leaves in the converter. *)
Definition initialised (cfg : ma_channel_converter_config) (c : ma_channel_converter) : Prop :=
  0 < cc_channelsIn c /\ 0 < cc_channelsOut c
  /\ cc_format c = ccc_format cfg
  /\ cc_channelsIn c = ccc_channelsIn cfg /\ cc_channelsOut c = ccc_channelsOut cfg
  /\ cc_mixingMode c = ccc_mixingMode cfg
  /\ cc_pChannelMapIn c = ccc_pChannelMapIn cfg /\ cc_pChannelMapOut c = ccc_pChannelMapOut cfg
  /\ cc_conversionPath c = ma_channel_converter_config_get_conversion_path cfg
  /\ (cc_conversionPath c = ma_channel_conversion_path_shuffle ->
        zlen (cc_pShuffleTable c) = cc_channelsOut c
        /\ forall o, 0 <= o < cc_channelsOut c -> nth (Z.to_nat o) (cc_pShuffleTable c) 0 =
             shuffle_target (cc_pChannelMapIn c) (cc_channelsIn c) (cc_pChannelMapOut c) (cc_channelsOut c) o)
  /\ (cc_conversionPath c = ma_channel_conversion_path_weights ->
        weights_table (cc_with_weights c []) (ccc_calculateLFEFromSpatialChannels cfg) (ccc_ppWeights cfg)
          (zrep (cc_channelsIn c) (zrep (cc_channelsOut c) 0)) = Some (MA_SUCCESS, cc_weights c)).

Lemma init_preallocated_initialised cfg c :
  config_ok cfg ->
  ma_channel_converter_init_preallocated (Some cfg) = Some (MA_SUCCESS, c) -> initialised cfg c.
Proof.
  intros (Hi & Ho & Hmi & Hmo). unfold ma_channel_converter_init_preallocated.
  cbn [ma_channel_converter_get_heap_layout].
  destruct ((ccc_channelsIn cfg =? 0) || (ccc_channelsOut cfg =? 0)) eqn:E0; [done|].
  apply orb_false_iff in E0 as [Ei%Z.eqb_neq Eo%Z.eqb_neq].
  do 2 (destruct (negb _); [done|]). cbn [negb Z.eqb].
  change (negb (MA_SUCCESS =? MA_SUCCESS)) with false. cbv iota.
  change (fun m => ma_channel_map_copy_or_default ?a ?b (Some m) ?d) with
    (fun l => ma_channel_map_copy_or_default a b (Some l) d).
  rewrite !own_map_opt by (try done; lia).
  destruct (build_shuffle_table_spec (ccc_pChannelMapIn cfg) (ccc_channelsIn cfg)
    (ccc_pChannelMapOut cfg) (ccc_channelsOut cfg) (zrep (ccc_channelsOut cfg) 0))
    as (t & Et & Hlt & Ht); [lia|lia|apply zlen_zrep; lia|]. rewrite Et. cbn [snd].
  destruct (decide (_ = ma_channel_conversion_path_weights)) as [Ew|Ew].
  - match goal with |- context [weights_table ?a ?b ?d ?e] => destruct (weights_table a b d e) as [[r w]|] eqn:E end; [|done].
    intros [= -> <-].
    split_and!; cbn; try done; try lia; intros Hp; rewrite Ew in Hp; done.
  - intros [= <-]. split_and!; cbn; try done; try lia; intros Hp; try done.
    rewrite decide_True by done. done.
Qed.

Lemma shuffle_path_inv cfg :
  0 <= ccc_channelsIn cfg -> 0 <= ccc_channelsOut cfg ->
  ma_channel_converter_config_get_conversion_path cfg = ma_channel_conversion_path_shuffle ->
  ccc_channelsIn cfg = ccc_channelsOut cfg
  /\ forall i, 0 <= i < ccc_channelsIn cfg -> exists o, 0 <= o < ccc_channelsOut cfg
     /\ ma_channel_map_get_channel (ccc_pChannelMapOut cfg) (ccc_channelsOut cfg) o
        = ma_channel_map_get_channel (ccc_pChannelMapIn cfg) (ccc_channelsIn cfg) i.
Proof.
  intros Hi Ho. unfold ma_channel_converter_config_get_conversion_path, ma_channel_map_get_conversion_path.
  do 4 (case_match; [done|]). destruct (Z.eqb_spec (ccc_channelsIn cfg) (ccc_channelsOut cfg)); [|done].
  cbn [andb]. destruct (all_present _ _ _ _ _ _) eqn:E; [|done]. intros _. split; [done|].
  intros i Hr. apply (all_present_true _ _ _ _ _ _ Ho E). lia.
Qed.

(** The interleaved buffers of a conversion. *)
Definition frames_in (c : ma_channel_converter) (frameCount : Z) (inn : list Z) : Prop :=
  zlen inn = frameCount * cc_channelsIn c * ma_get_bytes_per_sample (cc_format c).
Definition frames_out (c : ma_channel_converter) (frameCount : Z) (out : list Z) : Prop :=
  zlen out = frameCount * cc_channelsOut c * ma_get_bytes_per_sample (cc_format c).

(** The position of a channel of a configuration. *)
Definition in_position (cfg : ma_channel_converter_config) (i : Z) : ma_channel :=
  ma_channel_map_get_channel (ccc_pChannelMapIn cfg) (ccc_channelsIn cfg) i.
Definition out_position (cfg : ma_channel_converter_config) (o : Z) : ma_channel :=
  ma_channel_map_get_channel (ccc_pChannelMapOut cfg) (ccc_channelsOut cfg) o.

(** A converter whose maps hold the same positions in another order permutes the channels:
    whatever the order of the two maps, each sample of the output is the sample of the
    input channel with its position, every output channel has one, and neither the table
    nor the loops touch anything else.  This holds for the formats of one, two and four
    bytes. *)
Theorem channel_converter_shuffle_correct cfg c out inn frameCount :
  config_ok cfg ->
  ma_channel_converter_init_preallocated (Some cfg) = Some (MA_SUCCESS, c) ->
  cc_conversionPath c = ma_channel_conversion_path_shuffle ->
  cc_format c <> ma_format_s24 -> cc_format c <> ma_format_unknown ->
  (forall i j, 0 <= i < ccc_channelsIn cfg -> 0 <= j < ccc_channelsIn cfg ->
     in_position cfg i = in_position cfg j -> i = j) ->
  0 <= frameCount -> frames_in c frameCount inn -> frames_out c frameCount out ->
  exists out', ma_channel_converter_process_pcm_frames c out (Some inn) frameCount
    = Some (MA_SUCCESS, out')
  /\ frames_out c frameCount out'
  /\ (forall o, 0 <= o < ccc_channelsOut cfg ->
        exists i, 0 <= i < ccc_channelsIn cfg /\ in_position cfg i = out_position cfg o)
  /\ forall f i o, 0 <= f < frameCount -> 0 <= i < ccc_channelsIn cfg -> 0 <= o < ccc_channelsOut cfg ->
       in_position cfg i = out_position cfg o ->
       let w := ma_get_bytes_per_sample (cc_format c) in
       cell w out' (f * cc_channelsOut c + o) = cell w inn (f * cc_channelsIn c + i).
Proof.
  intros Hok Hinit Hp H24 H0 Hdist HF Hin Hout.
  destruct (init_preallocated_initialised _ _ Hok Hinit)
    as (Hci & Hco & Ef & Ei & Eo & _ & Emi & Emo & Ep & Htab & _).
  destruct (Htab Hp) as (Hlt & Ht). rewrite Hp in Ep. symmetry in Ep.
  destruct (shuffle_path_inv cfg) as (En & Hpres); [lia|lia|done|].
  destruct Hok as ((_ & Hmax) & _). unfold MA_MAX_CHANNELS in Hmax.
  set (w := ma_get_bytes_per_sample (cc_format c)).
  assert (Hw : 0 < w) by (unfold w; destruct (cc_format c); try done).
  assert (Hpos : Forall (fun k => 0 <= k) (cc_pShuffleTable c)).
  { apply Forall_forall. intros x Hx. apply (In_nth _ _ 0) in Hx as (k & Hk & <-).
    rewrite <- (Nat2Z.id k), Ht by (unfold zlen in *; lia).
    apply shuffle_entry_range. unfold MA_CHANNEL_INDEX_NULL. lia. }
  unfold frames_in, frames_out in *. fold w in Hin, Hout.
  destruct (shuffle_samples_spec w out (cc_channelsOut c) inn (cc_channelsIn c) frameCount
    (cc_pShuffleTable c)) as (Hl & Hc & _); [lia..|done|].
  exists (shuffle_samples w out (cc_channelsOut c) inn (cc_channelsIn c) frameCount (cc_pShuffleTable c)).
  split; [|split; [lia|split]].
  - unfold ma_channel_converter_process_pcm_frames. rewrite Hp.
    unfold ma_channel_converter_process_pcm_frames__shuffle, ma_channel_map_apply_shuffle_table.
    rewrite (proj2 (Z.eqb_neq _ 0)) by lia. unfold w. by destruct (cc_format c).
  - intros o Ho. unfold out_position. rewrite <- En. apply (positions_onto _ _ _ Hdist); [|lia].
    intros i Hi. destruct (Hpres i Hi) as (o' & ? & E). exists o'. split; [lia|]. by rewrite En at 1.
  - intros f i o Hf Hi Ho Hio. cbv zeta. rewrite Hc by lia. cbv zeta. rewrite Ht by lia.
    unfold shuffle_target. rewrite Emi, Emo, Ei, Eo.
    rewrite (shuffle_entry_first _ _ _ _ _ _ i); [|lia|exact Hio|].
    + unfold u8. rewrite wrapu_id by (split; lia). rewrite (proj2 (Z.ltb_lt _ _)) by lia. done.
    + intros j Hj E. assert (j = i); [|lia]. apply Hdist; [lia|lia|].
      rewrite Hio. exact E.
Qed.

(** Surround sound from the order of ALSA to that of WAVE. *)
Definition demo_shuffle : ma_channel_converter_config :=
  ma_channel_converter_config_init ma_format_s16 4
    (Some [MA_CHANNEL_FRONT_LEFT; MA_CHANNEL_FRONT_RIGHT; MA_CHANNEL_BACK_LEFT; MA_CHANNEL_BACK_RIGHT]) 4
    (Some [MA_CHANNEL_BACK_RIGHT; MA_CHANNEL_FRONT_LEFT; MA_CHANNEL_FRONT_RIGHT; MA_CHANNEL_BACK_LEFT])
    ma_channel_mix_mode_rectangular.

Definition converter_of (cfg : ma_channel_converter_config) : ma_channel_converter :=
  match ma_channel_converter_init_preallocated (Some cfg) with
  | Some (_, c) => c
  | None => ma_channel_converter_zero
  end.

(** A boolean form of a statement on the channels of a configuration. *)
Lemma for_channels (P : Z -> Z -> bool) n :
  forallb (fun i => forallb (P i) (seqZ 0 n)) (seqZ 0 n) = true ->
  forall i j, 0 <= i < n -> 0 <= j < n -> P i j = true.
Proof.
  intros H i j Hi Hj. rewrite forallb_forall in H.
  specialize (H i ltac:(apply list_elem_of_In, elem_of_seqZ; lia)).
  rewrite forallb_forall in H. apply H, list_elem_of_In, elem_of_seqZ. lia.
Qed.

Lemma channel_converter_shuffle_correct_witness :
  ma_channel_converter_process_pcm_frames (converter_of demo_shuffle) (zrep 8 9)
    (Some [1; 0; 2; 0; 3; 0; 4; 0]) 1 = Some (MA_SUCCESS, [4; 0; 1; 0; 2; 0; 3; 0]).
Proof.
  pose proof (channel_converter_shuffle_correct demo_shuffle (converter_of demo_shuffle) (zrep 8 9)
    [1; 0; 2; 0; 3; 0; 4; 0] 1) as H.
  destruct H as (out & E & Hl & _ & Hc).
  - split_and!; vm_decide.
  - vm_compute. reflexivity.
  - vm_compute. reflexivity.
  - done.
  - done.
  - intros i j Hi Hj E. apply Z.eqb_eq.
    pose proof (for_channels (fun i j => implb (in_position demo_shuffle i =? in_position demo_shuffle j) (i =? j))
      4 ltac:(vm_compute; reflexivity) i j Hi Hj) as H. cbv beta in H. rewrite E, Z.eqb_refl in H. done.
  - done.
  - reflexivity.
  - reflexivity.
  - rewrite E. do 2 f_equal. apply (cells_eq 2 ltac:(lia) _ _ 4); [lia|exact Hl|reflexivity|].
    intros o Ho. assert (o = 0 \/ o = 1 \/ o = 2 \/ o = 3) as [->|[->|[->| ->]]] by lia.
    + apply (Hc 0 3 0); vm_decide.
    + apply (Hc 0 0 1); vm_decide.
    + apply (Hc 0 1 2); vm_decide.
    + apply (Hc 0 2 3); vm_decide.
Defined.

(** ** The 24-bit shuffle *)

Lemma store_byte_len m i b m' : store_byte m i b = Some m' -> 0 <= i < zlen m /\ zlen m' = zlen m.
Proof.
  unfold store_byte. destruct ((0 <=? i) && (i <? zlen m)) eqn:E; [|done].
  intros [= <-]. apply andb_true_iff in E as [?%Z.leb_le ?%Z.ltb_lt].
  split; [lia|]. apply zlen_wr; [lia|]. rewrite zlen_cons, zlen_nil. lia.
Qed.

Lemma store_byte_inv n m i b m' : store_byte m i b = Some m' -> zlen m = n -> zlen m' = n.
Proof. intros H%store_byte_len <-. apply H. Qed.

Lemma shuffle_s24_channel_len o i ch inn table k m m' :
  shuffle_s24_channel o i ch inn table k m = Some m' -> zlen m' = zlen m.
Proof.
  unfold shuffle_s24_channel. intros H.
  destruct (nth _ table 0 <? ch);
    repeat (apply bind_Some in H as (? & ?%store_byte_len & H) || apply bind_Some in H as (? & H' & H));
    repeat (apply bind_Some in H' as (? & ?%store_byte_len & H'));
    apply store_byte_len in H; try (apply store_byte_len in H'); lia.
Qed.

Lemma shuffle_s24_frame_len chOut chIn inn table f m m' :
  shuffle_s24_frame chOut chIn inn table f m = Some m' ->
  f * chOut * 3 + chOut * 3 + 2 < zlen m /\ zlen m' = zlen m.
Proof.
  intros (t & Ht & H)%bind_Some. apply store_byte_len in H as (Hr & Hl).
  destruct (for_opt_rounds (fun a => zlen a = zlen m) _ _ _ _ _ eq_refl
    (fun k a b Ha Hb => eq_trans (shuffle_s24_channel_len _ _ _ _ _ _ _ _ Hb) Ha) Ht) as (E & _).
  rewrite E in *. lia.
Qed.

(** Because of misplaced braces the 24-bit shuffle clears a byte behind each frame: whatever
    the table and the samples, converting into a buffer of exactly the frames asked for
    stores past its end. *)
Theorem shuffle_s24_overruns c out inn frameCount :
  cc_conversionPath c = ma_channel_conversion_path_shuffle -> cc_format c = ma_format_s24 ->
  0 < cc_channelsOut c -> 0 < frameCount -> frames_out c frameCount out ->
  ma_channel_converter_process_pcm_frames c out (Some inn) frameCount = None.
Proof.
  intros Hp Hf Ho HF Hout. unfold ma_channel_converter_process_pcm_frames. rewrite Hp.
  unfold ma_channel_converter_process_pcm_frames__shuffle, ma_channel_map_apply_shuffle_table.
  rewrite (proj2 (Z.eqb_neq _ 0)), Hf by lia.
  destruct (ma_channel_map_apply_shuffle_table_s24 _ _ _ _ _ _) as [r|] eqn:E; [exfalso|done].
  unfold frames_out in Hout. rewrite Hf in Hout. cbn in Hout.
  destruct (for_opt_rounds (fun m => zlen m = zlen out) _ _ _ _ _ eq_refl
    (fun k a b Ha Hb => eq_trans (proj2 (shuffle_s24_frame_len _ _ _ _ _ _ _ Hb)) Ha) E) as (_ & Hk).
  destruct (Hk (frameCount - 1) ltac:(lia)) as (a & b & Ha & Hb%shuffle_s24_frame_len). nia.
Qed.

(** The same channels in 24 bits, and a buffer with room for one more byte block: byte 1 of
    every sample is lost. *)
Definition demo_shuffle_s24 : ma_channel_converter_config :=
  ma_channel_converter_config_init ma_format_s24 2
    (Some [MA_CHANNEL_FRONT_LEFT; MA_CHANNEL_FRONT_RIGHT]) 2
    (Some [MA_CHANNEL_FRONT_RIGHT; MA_CHANNEL_FRONT_LEFT]) ma_channel_mix_mode_rectangular.

Example shuffle_s24_loses_byte :
  ma_channel_converter_process_pcm_frames (converter_of demo_shuffle_s24) (zrep 9 9)
    (Some [1; 2; 3; 4; 5; 6]) 1 = Some (MA_SUCCESS, [4; 0; 6; 1; 0; 3; 9; 9; 0]).
Proof. vm_compute. reflexivity. Qed.

Lemma shuffle_s24_overruns_witness :
  ma_channel_converter_process_pcm_frames (converter_of demo_shuffle_s24) (zrep 6 9)
    (Some [1; 2; 3; 4; 5; 6]) 1 = None.
Proof. apply shuffle_s24_overruns; vm_decide. Defined.

(** ** Mono output *)

(** The value of an integer sample in memory, and the bytes of a value. *)
Definition int_sample (format : ma_format) (x : list Z) : Z :=
  match format with
  | ma_format_s16 => sample_s16 x
  | ma_format_s24 => ma_pcm_sample_s24_to_s32_no_scale (sample_s24 x)
  | ma_format_s32 => sample_s32 x
  | _ => 0
  end.

Definition int_bits (format : ma_format) : Z := 8 * ma_get_bytes_per_sample format.

Lemma s64_shift24 v : Z.shiftr (s64 (v * 2 ^ 40)) 40 = wraps 24 v.
Proof.
  unfold s64, wraps. change (2 ^ 64) with (2 ^ 24 * 2 ^ 40). change (2 ^ (64 - 1)) with (2 ^ (24 - 1) * 2 ^ 40).
  rewrite <- Z.mul_add_distr_r, Z.mul_mod_distr_r, <- Z.mul_sub_distr_r by lia.
  by rewrite Z.shiftr_div_pow2, Z.div_mul by lia.
Qed.

Lemma s24_no_scale_value b0 b1 b2 :
  in_u 8 b0 -> in_u 8 b1 -> in_u 8 b2 ->
  ma_pcm_sample_s24_to_s32_no_scale (b0, b1, b2) = wraps 24 (b0 + b1 * 2 ^ 8 + b2 * 2 ^ 16).
Proof.
  unfold in_u. change (2 ^ 8) with 256. intros H0 H1 H2.
  unfold ma_pcm_sample_s24_to_s32_no_scale. unfold u64.
  rewrite !Z.shiftl_mul_pow2 by lia. rewrite !(wrapu_id 64) by cint.
  rewrite <- (Z.shiftl_mul_pow2 b1 48), (lor_shift_add (b0 * 2 ^ 40)) by lia.
  rewrite <- (Z.shiftl_mul_pow2 b2 56), (lor_shift_add (b0 * 2 ^ 40 + b1 * 2 ^ 48)) by lia.
  rewrite <- s64_shift24. do 2 f_equal. lia.
Qed.

Lemma s24_no_scale_roundtrip x :
  in_s 24 x -> ma_pcm_sample_s24_to_s32_no_scale (ma_pcm_sample_s32_to_s24_no_scale x) = x.
Proof.
  intros Hx. unfold ma_pcm_sample_s32_to_s24_no_scale.
  change 0x000000FF with (Z.shiftl 255 0). change 0x0000FF00 with (Z.shiftl 255 8).
  change 0x00FF0000 with (Z.shiftl 255 16). rewrite !land_byte by lia.
  unfold u8, wrapu. change (2 ^ 8) with 256. rewrite !Z.mod_mod by lia.
  assert (Hb : forall y, in_u 8 (y mod 256)) by (intros y; apply Z.mod_pos_bound; lia).
  rewrite s24_no_scale_value by apply Hb. rewrite <- (wraps_id 24 x) at 4 by (done || lia).
  rewrite <- (wraps_wrapu_mod 24 x) by lia. f_equal. change (2 ^ 0) with 1. rewrite Z.div_1_r.
  change (2 ^ 24) with 16777216. change (2 ^ 8) with 256. change (2 ^ 16) with 65536. clear. zdm.
Qed.

Definition int_format (format : ma_format) : bool :=
  match format with ma_format_s16 | ma_format_s24 | ma_format_s32 => true | _ => false end.

Lemma s24_value_range x : in_s 24 (ma_pcm_sample_s24_to_s32_no_scale x).
Proof.
  destruct x as [[a b] d]. unfold ma_pcm_sample_s24_to_s32_no_scale.
  match goal with |- context [s64 ?y] => pose proof (wraps_range 64 y ltac:(lia)) as H; fold (s64 y) in H;
    revert H; generalize (s64 y) end.
  intros y Hy. rewrite Z.shiftr_div_pow2 by lia. unfold in_s in *.
  change (2 ^ (64 - 1)) with (2 ^ 23 * 2 ^ 40) in Hy. change (24 - 1) with 23.
  split; [apply Z.div_le_lower_bound; lia|apply Z.div_lt_upper_bound; lia].
Qed.

Lemma int_sample_range format x :
  int_format format = true -> in_s (int_bits format) (int_sample format x).
Proof.
  destruct format; try done; intros _.
  - apply (wraps_range 16). lia.
  - apply s24_value_range.
  - apply (wraps_range 32). lia.
Qed.

(** The sum of the values of the channels, and what an average of them is. *)
Definition channel_sum (value : Z -> Z) (n : Z) : Z :=
  for_loop (Z.to_nat n) 0 (fun i t => t + value i) 0.

Lemma channel_sum_bounds value n lo hi :
  0 <= n -> (forall i, 0 <= i < n -> lo <= value i <= hi) ->
  n * lo <= channel_sum value n <= n * hi.
Proof.
  intros Hn H. apply (for_loop_inv (fun k t => k * lo <= t <= k * hi)); [done|lia|].
  intros k t Hk Ht. specialize (H k Hk). lia.
Qed.

(** No wrap-around: [wrap] is the identity below [n * B]. *)
Lemma mono_out_sum_exact w wrap (dec : list Z -> Z) n inn f B :
  0 <= n <= 254 -> 0 <= f -> f * n + n < 2 ^ 64 -> 0 <= B ->
  (forall i, 0 <= i < n -> - B <= dec (cell w inn (f * n + i)) <= B) ->
  (forall x, - (n * B) <= x <= n * B -> wrap x = x) ->
  mono_out_sum w (fun t x => wrap (t + dec x)) 0 n inn f
  = channel_sum (fun i => dec (cell w inn (f * n + i))) n.
Proof.
  intros Hn Hf H64 HB Hdec Hwrap. unfold mono_out_sum, channel_sum.
  apply (for_loop_inv (fun k t =>
    t = for_loop (Z.to_nat k) 0 (fun i t => t + dec (cell w inn (f * n + i))) 0
    /\ - (k * B) <= t <= k * B)); [lia|split; [done|lia]|].
  intros k t Hk (-> & Ht). rewrite (for_loop_next k) by lia.
  assert (0 <= f * n) by nia. unfold u64. rewrite (wrapu_id 64 (f * n)) by (split; lia).
  rewrite wrapu_id by (split; lia). specialize (Hdec k Hk). rewrite Hwrap by nia. lia.
Qed.

Lemma mono_out_samples_spec {T} w (add : T -> list Z -> T) zero store n out inn F :
  0 < w -> 0 <= F -> F * w <= zlen out -> (forall t, zlen (store t) = w) ->
  let r := mono_out_samples w add zero store n out inn F in
  zlen r = zlen out
  /\ (forall f, 0 <= f < F -> cell w r f = store (mono_out_sum w add zero n inn f))
  /\ (forall j, F <= j -> cell w r j = cell w out j).
Proof.
  intros Hw HF Hout Hs.
  destruct (update_row w Hw 0 F (fun f _ => store (mono_out_sum w add zero n inn f)) out F)
    as (Hl & Hc & Ht); [lia..|auto|]. split; [exact Hl|]. split; [exact Hc|].
  intros j Hj. apply Ht; lia.
Qed.

(** An unsigned division by a power of two is the signed one, modulo the width left. *)
Lemma unsigned_average t k :
  0 <= k <= 7 -> - 2 ^ 31 <= t < 2 ^ 31 -> s16 (u32 t / 2 ^ k) = s16 (t / 2 ^ k).
Proof.
  intros Hk Ht. unfold u32, wrapu.
  replace (t mod 2 ^ 32) with (t + - (t / 2 ^ 32) * 2 ^ k * 2 ^ (32 - k)).
  2:{ rewrite <- Z.mul_assoc, <- Z.pow_add_r by lia. replace (k + (32 - k)) with 32 by lia.
      rewrite Z.mod_eq by lia. lia. }
  replace (- (t / 2 ^ 32) * 2 ^ k * 2 ^ (32 - k)) with ((- (t / 2 ^ 32) * 2 ^ (32 - k)) * 2 ^ k) by lia.
  rewrite Z.div_add by (apply Z.pow_nonzero; lia).
  replace (32 - k) with (16 - k + 16) by lia. rewrite Z.pow_add_r, Z.mul_assoc by lia.
  unfold s16. rewrite <- (wraps_wrapu_mod 16 (_ + _)), Z.mod_add, wraps_wrapu_mod by lia. done.
Qed.

(** The quotient each loop forms: rounded down for 16 bits, towards zero for the others. *)
Definition average (format : ma_format) (sum n : Z) : Z :=
  if decide (format = ma_format_s16) then sum / n else Z.quot sum n.

Lemma average_between format s n lo hi :
  0 < n -> n * lo <= s <= n * hi -> lo <= average format s n <= hi.
Proof.
  intros Hn Hs. unfold average. case_decide.
  - split; [apply Z.div_le_lower_bound; lia|apply Z.div_le_upper_bound; lia].
  - split.
    + rewrite <- (Z.quot_mul lo n) by lia. apply Z.quot_le_mono; lia.
    + rewrite <- (Z.quot_mul hi n) by lia. apply Z.quot_le_mono; lia.
Qed.

(** The sums and averages of the three integer formats; [f] is the frame. *)
Section averages.
Context (n : Z) (inn : list Z) (f : Z).
Hypothesis Hn : 0 < n <= 254.
Hypothesis Hf : 0 <= f < 2 ^ 32.

Abbreviation frame_value format :=
  (fun i => int_sample format (cell (ma_get_bytes_per_sample format) inn (f * n + i))) (only parsing).
Abbreviation frame_average format := (average format (channel_sum (frame_value format) n) n) (only parsing).

Lemma frame_sum_range format :
  int_format format = true ->
  let h := 2 ^ (int_bits format - 1) in
  n * - h <= channel_sum (frame_value format) n <= n * (h - 1).
Proof.
  intros Hfmt. apply channel_sum_bounds; [lia|]. intros i Hi.
  pose proof (int_sample_range format (cell (ma_get_bytes_per_sample format) inn (f * n + i)) Hfmt) as H.
  unfold in_s in H. lia.
Qed.

Lemma frame_average_range format :
  int_format format = true -> in_s (int_bits format) (frame_average format).
Proof.
  intros Hfmt. pose proof (average_between format _ n _ _ ltac:(lia) (frame_sum_range format Hfmt)) as H.
  unfold in_s. lia.
Qed.

Lemma frame_sum format wrap :
  int_format format = true ->
  (forall x, - (254 * 2 ^ (int_bits format - 1)) <= x <= 254 * 2 ^ (int_bits format - 1) -> wrap x = x) ->
  mono_out_sum (ma_get_bytes_per_sample format) (fun t x => wrap (t + int_sample format x)) 0 n inn f
  = channel_sum (frame_value format) n.
Proof.
  intros Hfmt Hwrap.
  assert (Hh : 0 < 2 ^ (int_bits format - 1)) by (destruct format; done).
  apply mono_out_sum_exact with (B := 2 ^ (int_bits format - 1)); [lia|lia|nia|lia| |].
  - intros i Hi. pose proof (int_sample_range format
      (cell (ma_get_bytes_per_sample format) inn (f * n + i)) Hfmt) as H. unfold in_s in H. lia.
  - intros x Hx. apply Hwrap. nia.
Qed.

Lemma average_s16 k :
  0 <= k <= 7 -> n = 2 ^ k ->
  sample_s16 (bytes_s16 (s16 (u32 (mono_out_sum 2 (fun t x => s32 (t + sample_s16 x)) 0 n inn f) / n)))
  = frame_average ma_format_s16.
Proof.
  intros Hk Ek.
  pose proof (frame_sum ma_format_s16 s32 eq_refl
    ltac:(intros x Hx; apply wraps_id; [lia|cbn in Hx; cint])) as E. cbn [int_sample ma_get_bytes_per_sample] in E.
  rewrite E. clear E. pose proof (frame_sum_range ma_format_s16 eq_refl) as Hr.
  pose proof (frame_average_range ma_format_s16 eq_refl) as Ha.
  cbn [int_sample ma_get_bytes_per_sample] in *. change (2 ^ (int_bits ma_format_s16 - 1)) with 32768 in Hr.
  change (int_bits ma_format_s16) with 16 in Ha.
  unfold average in *. rewrite decide_True in * by done. revert Hr Ha.
  generalize (channel_sum (fun i => sample_s16 (cell 2 inn (f * n + i))) n). intros t Ht Ha.
  rewrite Ek in Ha |- *. rewrite unsigned_average by (try done; lia).
  rewrite sample_bytes_s16 by (apply wraps_range; lia). by apply wraps_id.
Qed.

Lemma average_s24 :
  int_sample ma_format_s24 (bytes_s24 (ma_pcm_sample_s32_to_s24_no_scale (Z.quot
    (mono_out_sum 3 (fun t x => s64 (t + ma_pcm_sample_s24_to_s32_no_scale (sample_s24 x))) 0 n inn f) n)))
  = frame_average ma_format_s24.
Proof.
  pose proof (frame_sum ma_format_s24 s64 eq_refl
    ltac:(intros x Hx; apply wraps_id; [lia|cbn in Hx; cint])) as E. cbn [int_sample ma_get_bytes_per_sample] in E.
  rewrite E. pose proof (frame_average_range ma_format_s24 eq_refl) as Ha.
  unfold average in *. rewrite decide_False in * by done. cbn [int_sample].
  match goal with |- context [sample_s24 (bytes_s24 ?x)] =>
    replace (sample_s24 (bytes_s24 x)) with x by (destruct x as [[? ?] ?]; done) end.
  by apply s24_no_scale_roundtrip.
Qed.

Lemma average_s32 :
  sample_s32 (bytes_s32 (s32 (Z.quot (mono_out_sum 4 (fun t x => s64 (t + sample_s32 x)) 0 n inn f) n)))
  = frame_average ma_format_s32.
Proof.
  pose proof (frame_sum ma_format_s32 s64 eq_refl
    ltac:(intros x Hx; apply wraps_id; [lia|cbn in Hx; cint])) as E. cbn [int_sample ma_get_bytes_per_sample] in E.
  rewrite E. pose proof (frame_average_range ma_format_s32 eq_refl) as Ha.
  unfold average in *. rewrite decide_False in * by done. cbn [int_sample ma_get_bytes_per_sample] in *.
  rewrite sample_bytes_s32 by (apply wraps_range; lia). by apply wraps_id.
Qed.
End averages.

(** A converter to mono gives the average of the channels of each frame: no sum overflows, and
    every sample lies between the smallest and the largest of its frame.  For 16 bits, where
    the code divides a signed sum by an unsigned count, this holds for 1, 2, 4, ... channels. *)
Theorem mono_out_average c out inn F :
  cc_conversionPath c = ma_channel_conversion_path_mono_out ->
  int_format (cc_format c) = true -> 0 < cc_channelsIn c <= 254 -> cc_channelsOut c = 1 ->
  (cc_format c = ma_format_s16 -> exists k, 0 <= k <= 7 /\ cc_channelsIn c = 2 ^ k) ->
  0 <= F < 2 ^ 32 -> frames_in c F inn -> frames_out c F out ->
  exists out', ma_channel_converter_process_pcm_frames c out (Some inn) F = Some (MA_SUCCESS, out')
    /\ frames_out c F out'
    /\ forall f, 0 <= f < F ->
         let w := ma_get_bytes_per_sample (cc_format c) in
         let value i := int_sample (cc_format c) (cell w inn (f * cc_channelsIn c + i)) in
         let mono := int_sample (cc_format c) (cell w out' f) in
         mono = average (cc_format c) (channel_sum value (cc_channelsIn c)) (cc_channelsIn c)
         /\ forall lo hi, (forall i, 0 <= i < cc_channelsIn c -> lo <= value i <= hi) ->
              lo <= mono <= hi.
Proof.
  intros Hp Hfmt Hn Ho Hpow HF Hin Hout. unfold frames_in, frames_out in *. rewrite Ho in *.
  assert (H : exists out', ma_channel_converter_process_pcm_frames c out (Some inn) F
      = Some (MA_SUCCESS, out') /\ zlen out' = zlen out
    /\ forall f, 0 <= f < F ->
         int_sample (cc_format c) (cell (ma_get_bytes_per_sample (cc_format c)) out' f)
         = average (cc_format c) (channel_sum (fun i => int_sample (cc_format c)
             (cell (ma_get_bytes_per_sample (cc_format c)) inn (f * cc_channelsIn c + i)))
             (cc_channelsIn c)) (cc_channelsIn c)).
  { unfold ma_channel_converter_process_pcm_frames. rewrite Hp.
    unfold ma_channel_converter_process_pcm_frames__mono_out.
    destruct (cc_format c) eqn:Ef; try done; cbn [ma_get_bytes_per_sample] in *;
      (eexists; split; [reflexivity|]).
    - destruct (Hpow eq_refl) as (k & Hk & Ek).
      destruct (mono_out_samples_spec 2 (fun t x => s32 (t + sample_s16 x)) 0
        (fun t => bytes_s16 (s16 (u32 t / cc_channelsIn c))) (cc_channelsIn c) out inn F) as (Hl & Hc);
        [lia..|intros; apply zlen_le_bytes|]. split; [exact Hl|]. intros f Hf.
      etransitivity; [|exact (average_s16 _ inn f Hn ltac:(lia) k Hk Ek)]. cbn [int_sample]. f_equal. by apply Hc.
    - destruct (mono_out_samples_spec 3
        (fun t x => s64 (t + ma_pcm_sample_s24_to_s32_no_scale (sample_s24 x))) 0
        (fun t => bytes_s24 (ma_pcm_sample_s32_to_s24_no_scale (Z.quot t (cc_channelsIn c))))
        (cc_channelsIn c) out inn F) as (Hl & Hc); [lia..|done|]. split; [exact Hl|]. intros f Hf.
      etransitivity; [|exact (average_s24 _ inn f Hn ltac:(lia))]. f_equal. by apply Hc.
    - destruct (mono_out_samples_spec 4 (fun t x => s64 (t + sample_s32 x)) 0
        (fun t => bytes_s32 (s32 (Z.quot t (cc_channelsIn c)))) (cc_channelsIn c) out inn F)
        as (Hl & Hc); [lia..|intros; apply zlen_le_bytes|]. split; [exact Hl|]. intros f Hf.
      etransitivity; [|exact (average_s32 _ inn f Hn ltac:(lia))]. cbn [int_sample]. f_equal. by apply Hc. }
  destruct H as (out' & E & Hl & Hc). exists out'. split; [done|split; [lia|]].
  intros f Hf. cbv zeta. rewrite (Hc f Hf). split; [done|]. intros lo hi Hv.
  apply average_between; [lia|]. apply channel_sum_bounds; [lia|done].
Qed.

Definition demo_mono (format : ma_format) (channelsIn : Z) : ma_channel_converter :=
  converter_of (ma_channel_converter_config_init format channelsIn None 1 None
    ma_channel_mix_mode_rectangular).

Lemma mono_out_average_witness :
  cell 2 (default [] (option_map snd (ma_channel_converter_process_pcm_frames (demo_mono ma_format_s16 2)
    (zrep 2 9) (Some (bytes_s16 (-5) ++ bytes_s16 2)) 1))) 0 = bytes_s16 (-2).
Proof.
  destruct (mono_out_average (demo_mono ma_format_s16 2) (zrep 2 9) (bytes_s16 (-5) ++ bytes_s16 2) 1)
    as (out & E & Hl & H).
  - reflexivity.
  - reflexivity.
  - split; vm_compute; congruence.
  - reflexivity.
  - intros _. exists 1. split; [lia|reflexivity].
  - lia.
  - reflexivity.
  - reflexivity.
  - rewrite E. cbn [option_map snd default]. destruct (H 0 ltac:(lia)) as (Hm & _).
    change (ma_get_bytes_per_sample (cc_format (demo_mono ma_format_s16 2))) with 2 in Hm.
    change (cc_format (demo_mono ma_format_s16 2)) with ma_format_s16 in Hm.
    destruct out as [|a [|b [|]]]; try done. cbn [int_sample] in Hm.
    vm_compute in E. injection E as <- <-. reflexivity.
Defined.

(** Three channels of -1 average to 21844, because -3 is divided as 4294967293. *)
Example mono_out_s16_three :
  ma_channel_converter_process_pcm_frames (demo_mono ma_format_s16 3) (zrep 2 0)
    (Some (bytes_s16 (-1) ++ bytes_s16 (-1) ++ bytes_s16 (-1))) 1 = Some (MA_SUCCESS, bytes_s16 21844).
Proof. vm_compute. reflexivity. Qed.

(** In 8 bits the sum is divided by the one output channel: 148 and 148 give 168. *)
Example mono_out_u8_sum :
  ma_channel_converter_process_pcm_frames (demo_mono ma_format_u8 2) [0] (Some [148; 148]) 1
  = Some (MA_SUCCESS, [168]).
Proof. vm_compute. reflexivity. Qed.

(** ** Mono input *)

(** Every channel of a frame is the input sample, in each format. *)
Theorem mono_in_duplicates c out inn F :
  cc_conversionPath c = ma_channel_conversion_path_mono_in ->
  cc_format c <> ma_format_unknown -> cc_channelsIn c = 1 -> 0 < cc_channelsOut c <= MA_MAX_CHANNELS ->
  0 <= F < 2 ^ 32 -> frames_in c F inn -> frames_out c F out ->
  exists out', ma_channel_converter_process_pcm_frames c out (Some inn) F = Some (MA_SUCCESS, out')
    /\ frames_out c F out'
    /\ forall f o, 0 <= f < F -> 0 <= o < cc_channelsOut c ->
         let w := ma_get_bytes_per_sample (cc_format c) in
         cell w out' (f * cc_channelsOut c + o) = cell w inn f.
Proof.
  intros Hp Hfmt Hi Ho HF Hin Hout. unfold frames_in, frames_out, MA_MAX_CHANNELS in *. rewrite Hi in *.
  set (w := ma_get_bytes_per_sample (cc_format c)) in *.
  assert (Hw : 0 < w) by (unfold w; by destruct (cc_format c)).
  destruct (mono_in_samples_spec w out (cc_channelsOut c) inn F) as (Hl & Hc & _);
    [lia|lia|lia|nia|lia|lia|].
  exists (mono_in_samples w (cc_channelsOut c) out inn F). split; [|split; [lia|by intros; apply Hc]].
  unfold ma_channel_converter_process_pcm_frames, ma_channel_converter_process_pcm_frames__mono_in.
  rewrite Hp. unfold w. destruct (cc_format c); try done;
    (destruct (Z.eqb_spec (cc_channelsOut c) 2) as [->|]; [|done]);
    by rewrite mono_in_stereo_eq by lia.
Qed.

(** ** The weights path *)

(** What the path computes for one output sample: the input channels of the frame,
    weighted and accumulated in order, from zero bytes. *)
Definition mixed (accumulate : list Z -> list Z -> ma_biquad_coefficient -> list Z) (w : Z)
    (c : ma_channel_converter) (inn : list Z) (f o : Z) : list Z :=
  for_loop (Z.to_nat (cc_channelsIn c)) 0 (fun i x =>
    accumulate x (cell w inn (f * cc_channelsIn c + i)) (get_weight (cc_weights c) i o)) (zrep w 0).

Definition accumulate_of (format : ma_format) : list Z -> list Z -> ma_biquad_coefficient -> list Z :=
  match format with
  | ma_format_u8 => accumulate_u8
  | ma_format_s16 => accumulate_s16
  | ma_format_s24 => accumulate_s24
  | ma_format_s32 => accumulate_s32
  | ma_format_f32 => accumulate_f32
  | ma_format_unknown => fun o _ _ => o
  end.

Lemma zlen_accumulate format o i weight :
  zlen o = ma_get_bytes_per_sample format ->
  zlen (accumulate_of format o i weight) = ma_get_bytes_per_sample format.
Proof. destruct format; intros H; try done; apply zlen_le_bytes. Qed.

Lemma cell_zrep w n k : 0 < w -> 0 <= k < n -> cell w (zrep (n * w) 0) k = zrep w 0.
Proof. intros Hw Hk. unfold cell. apply rd_zrep; nia. Qed.

Lemma sample_offset_exact w k : 0 <= k -> k * w < 2 ^ 32 -> 0 < w -> sample_offset w k = k * w.
Proof.
  intros Hk H Hw. unfold sample_offset. destruct (Z.eqb_spec w 3) as [->|]; [|done].
  unfold u32. apply wrapu_id. split; lia.
Qed.

Section weights_loops.
Context (w : Z) (acc : list Z -> list Z -> ma_biquad_coefficient -> list Z).
Context (chIn chOut : Z) (weights : list (list ma_biquad_coefficient)) (inn : list Z) (F : Z).
Hypothesis Hw : 0 < w.
Hypothesis Hacc : forall o i v, zlen o = w -> zlen (acc o i v) = w.
Hypothesis Hchannels : 0 < chIn /\ 0 < chOut /\ 0 <= F.
Hypothesis Hindices : F * chIn * w < 2 ^ 32 /\ F * chOut * w < 2 ^ 32.

(** The innermost loop is an update of the row of the frame. *)
Lemma weights_row f i m :
  0 <= f < F -> 0 <= i < chIn -> F * chOut * w <= zlen m ->
  updated w (f * chOut) chOut
    (fun o x => acc x (cell w inn (f * chIn + i)) (get_weight weights i o)) m
    (for_loop (Z.to_nat chOut) 0 (fun iChannelOut out =>
        let o := sample_offset w (u32 (u32 (f * chOut) + iChannelOut)) in
        let i' := sample_offset w (u32 (u32 (f * chIn) + i)) in
        wr out o (acc (rd out o w) (rd inn i' w) (get_weight weights i iChannelOut))) m).
Proof.
  intros Hf Hi Hm. destruct Hchannels as (Hci & Hco & HF). destruct Hindices as (Hxi & Hxo).
  assert (Hbi : 0 <= f * chIn + i < F * chIn) by nia.
  rewrite (for_loop_ext _ _ _ (fun o m => wr m ((f * chOut + o) * w)
    ((fun o x => acc x (cell w inn (f * chIn + i)) (get_weight weights i o)) o
       (cell w m (f * chOut + o))))).
  - apply (update_row w Hw (f * chOut) chOut
      (fun o x => acc x (cell w inn (f * chIn + i)) (get_weight weights i o)) m (F * chOut));
      [nia|lia|nia|lia|].
    intros k x Hk Hx. by apply Hacc.
  - intros o m' Ho. cbv zeta. assert (Hbo : 0 <= f * chOut + o < F * chOut) by nia.
    assert (0 <= f * chOut /\ 0 <= f * chIn) by nia.
    unfold u32. rewrite (wrapu_id 32 (f * chOut)), (wrapu_id 32 (f * chIn)) by (split; nia).
    rewrite !(wrapu_id 32) by (split; nia). rewrite !sample_offset_exact by nia. done.
Qed.

Lemma weights_samples_spec out :
  F * chOut * w <= zlen out ->
  let r := weights_samples w acc chIn chOut weights out inn F in
  zlen r = zlen out
  /\ (forall f o, 0 <= f < F -> 0 <= o < chOut ->
       cell w r (f * chOut + o) =
       for_loop (Z.to_nat chIn) 0 (fun i x =>
         acc x (cell w inn (f * chIn + i)) (get_weight weights i o)) (cell w out (f * chOut + o)))
  /\ (forall j, F * chOut <= j -> cell w r j = cell w out j).
Proof.
  intros Hout. destruct Hchannels as (Hci & Hco & HF).
  destruct (update_frames w F chOut
    (fun f m => for_loop (Z.to_nat chIn) 0 (fun i m =>
      for_loop (Z.to_nat chOut) 0 (fun iChannelOut out =>
        let o := sample_offset w (u32 (u32 (f * chOut) + iChannelOut)) in
        let i' := sample_offset w (u32 (u32 (f * chIn) + i)) in
        wr out o (acc (rd out o w) (rd inn i' w) (get_weight weights i iChannelOut))) m) m)
    (fun f o x => for_loop (Z.to_nat chIn) 0 (fun i x =>
         acc x (cell w inn (f * chIn + i)) (get_weight weights i o)) x) out) as (Hl & Hc & Ht);
    [lia..| |split; [exact Hl|split; [exact Hc|exact Ht]]].
  intros f m Hf Hm. apply (update_rounds w chIn (f * chOut) chOut _
    (fun i o x => acc x (cell w inn (f * chIn + i)) (get_weight weights i o)) m); [lia|].
  intros i m' Hi Hm'. apply weights_row; [done|done|lia].
Qed.
End weights_loops.

(** The weights path computes every output sample on its own: as the input samples of its frame,
    weighted and accumulated channel after channel, whatever the interleaving of the three
    loops does to the buffer in between; the previous content of the buffer is irrelevant.
    All five formats; the indices must fit in the 32 bits the code has for them. *)
Theorem weights_path_reference c out inn F :
  cc_conversionPath c = ma_channel_conversion_path_weights -> cc_format c <> ma_format_unknown ->
  0 < cc_channelsIn c -> 0 < cc_channelsOut c -> 0 <= F ->
  frames_in c F inn -> frames_out c F out -> zlen inn < 2 ^ 32 -> zlen out < 2 ^ 32 ->
  exists out', ma_channel_converter_process_pcm_frames c out (Some inn) F = Some (MA_SUCCESS, out')
    /\ frames_out c F out'
    /\ forall f o, 0 <= f < F -> 0 <= o < cc_channelsOut c ->
         let w := ma_get_bytes_per_sample (cc_format c) in
         cell w out' (f * cc_channelsOut c + o) = mixed (accumulate_of (cc_format c)) w c inn f o.
Proof.
  intros Hp Hfmt Hi Ho HF Hin Hout Hbi Hbo. unfold frames_in, frames_out in *.
  set (w := ma_get_bytes_per_sample (cc_format c)) in *.
  assert (Hw : 0 < w) by (unfold w; by destruct (cc_format c)).
  set (z := wr out 0 (zrep (u64 (F * ma_get_bytes_per_frame (cc_format c) (cc_channelsOut c))) 0)).
  assert (Hz : F = 0 \/ z = zrep (F * cc_channelsOut c * w) 0).
  { destruct (decide (F = 0)) as [|HF0]; [by left|right]. unfold z, ma_get_bytes_per_frame. fold w.
    unfold u32, u64. rewrite (wrapu_id 32) by (split; nia). rewrite wrapu_id by (split; nia).
    rewrite wr_full by (rewrite zlen_zrep; nia). f_equal. lia. }
  assert (Hlz : zlen z = zlen out).
  { destruct Hz as [->| ->]; [|rewrite zlen_zrep; nia]. unfold z. rewrite Z.mul_0_l.
    change (zrep (u64 0) 0) with (@nil Z). by rewrite wr_nil. }
  destruct (weights_samples_spec w (accumulate_of (cc_format c)) (cc_channelsIn c) (cc_channelsOut c)
    (cc_weights c) inn F Hw ltac:(intros; by apply zlen_accumulate) ltac:(lia) ltac:(lia) z) as (Hl & Hc & _); [lia|].
  exists (weights_samples w (accumulate_of (cc_format c)) (cc_channelsIn c) (cc_channelsOut c)
    (cc_weights c) z inn F). split; [|split; [lia|]].
  - unfold ma_channel_converter_process_pcm_frames, ma_channel_converter_process_pcm_frames__weights.
    rewrite Hp. fold z. rewrite (proj2 (Z.ltb_lt F (2 ^ 32))) by nia.
    unfold w. by destruct (cc_format c).
  - intros f o Hf Hr. cbv zeta. rewrite Hc by done. unfold mixed. f_equal.
    destruct Hz as [->| ->]; [lia|]. apply cell_zrep; nia.
Qed.
