(* ===== verification/ChannelWeights.v ===== *)
(** * The table of weights of a channel converter

    What the loops of [ma_channel_converter_init_preallocated] leave in the table of weights,
    as a formula for each pair of channels. *)
From Stdlib Require Import ZArith Lia Bool SpecFloat.
From stdpp Require Import base numbers list option.
From S2P Require Import Prelude MaTypes CFloat Loops PcmFormat PcmFormatProps ChannelMap Biquad ChannelConverter ChannelConverterProps.

Local Open Scope Z_scope.

(** ** Tables and their cells *)


Definition in_table (chIn chOut i o : Z) : Prop := 0 <= i < chIn /\ 0 <= o < chOut.

(** Two descriptions of the same region of a table. *)
Ltac region := intros ? ? ?; unfold in_table in *; cbv beta; lia.

Section table.
Context (chIn chOut : Z).
Hypothesis Hchannels : 0 < chIn /\ 0 < chOut.

Abbreviation table := (list (list ma_biquad_coefficient)) (only parsing).

Definition table_ok (w : table) : Prop :=
  zlen w = chIn /\ forall row, row ∈ w -> zlen row = chOut.

Abbreviation in_table := (in_table chIn chOut) (only parsing).

Lemma table_row w i : table_ok w -> 0 <= i < chIn ->
  exists row, w !! Z.to_nat i = Some row /\ zlen row = chOut.
Proof.
  intros (Hl & Hr) Hi. destruct (lookup_lt_is_Some_2 w (Z.to_nat i)) as (row & E).
  - unfold zlen in Hl. lia.
  - exists row. split; [done|]. by eapply Hr, list_elem_of_lookup_2.
Qed.

Lemma get_weight_lookup w i o row :
  w !! Z.to_nat i = Some row -> get_weight w i o = default 0 (row !! Z.to_nat o).
Proof. intros E. unfold get_weight. by rewrite (nth_lookup w), E, nth_lookup. Qed.

Lemma set_weight_ok w i o v : table_ok w -> table_ok (set_weight w i o v).
Proof.
  intros (Hl & Hr). unfold table_ok, zlen, set_weight. rewrite length_alter. split; [done|].
  intros row (k & Hk)%list_elem_of_lookup_1. rewrite list_lookup_alter in Hk. case_decide.
  - apply fmap_Some in Hk as (old & Ho & ->). rewrite length_insert.
    by eapply Hr, list_elem_of_lookup_2.
  - by eapply Hr, list_elem_of_lookup_2.
Qed.

Lemma get_set_weight w i o v i' o' :
  table_ok w -> in_table i o -> in_table i' o' ->
  get_weight (set_weight w i o v) i' o' =
  if decide (i' = i /\ o' = o) then v else get_weight w i' o'.
Proof.
  intros Hw (Hi & Ho) (Hi' & Ho').
  destruct (table_row w i' Hw Hi') as (row' & E' & Hl').
  unfold set_weight. destruct (decide (i' = i)) as [->|Hne].
  - rewrite (get_weight_lookup _ _ _ (<[Z.to_nat o:=v]> row')).
    2:{ rewrite list_lookup_alter, decide_True by done. by rewrite E'. }
    rewrite (get_weight_lookup w i o' row' E'). rewrite list_lookup_insert.
    unfold zlen in Hl'. repeat case_decide; try lia; done.
  - rewrite decide_False by tauto.
    rewrite (get_weight_lookup _ _ _ row').
    2:{ rewrite list_lookup_alter, decide_False by lia. done. }
    by rewrite (get_weight_lookup w i' o' row' E').
Qed.

(** [w'] is [w] with [h] applied to the cells of a region [E]. *)
Definition cells_updated (E : Z -> Z -> Prop) (h : Z -> Z -> Z -> Z) (w w' : table) : Prop :=
  table_ok w' /\ forall i o, in_table i o ->
    (E i o -> get_weight w' i o = h i o (get_weight w i o))
    /\ (~ E i o -> get_weight w' i o = get_weight w i o).

(** A loop whose rounds treat disjoint regions: [key] tells the round of a cell. *)
Lemma cells_loop (E : Z -> Z -> Prop) (key : Z -> Z -> Z) h n (body : Z -> table -> option table) w :
  0 <= n -> table_ok w ->
  (forall k w, 0 <= k < n -> table_ok w -> exists w', body k w = Some w'
     /\ cells_updated (fun i o => E i o /\ key i o = k) h w w') ->
  exists w', for_opt (Z.to_nat n) 0 body w = Some w'
    /\ cells_updated (fun i o => E i o /\ 0 <= key i o < n) h w w'.
Proof.
  intros Hn Hw Hbody.
  apply (for_opt_inv (fun k w' => cells_updated (fun i o => E i o /\ 0 <= key i o < k) h w w'));
    [done|split; [done|intros i o _; split; [lia|done]]|].
  intros k w1 Hk (Hw1 & H1). destruct (Hbody k w1 Hk Hw1) as (w2 & E2 & Hw2 & H2).
  exists w2. split; [done|]. split; [done|]. intros i o Hr.
  destruct (H1 i o Hr) as (Hin1 & Hout1), (H2 i o Hr) as (Hin2 & Hout2).
  split.
  - intros (He & Hkey). destruct (decide (key i o = k)) as [Ek|Ek].
    + rewrite Hin2, Hout1 by first [lia | split; [done|lia]]. done.
    + rewrite Hout2, Hin1 by first [lia | split; [done|lia]]. done.
  - intros He. rewrite Hout2, Hout1; [done|intros (? & ?); apply He; split; [done|lia]..].
Qed.

Lemma cells_weaken E E' h h' w w' :
  (forall i o, in_table i o -> (E' i o <-> E i o)) ->
  (forall i o x, in_table i o -> E i o -> h i o x = h' i o x) ->
  cells_updated E h w w' -> cells_updated E' h' w w'.
Proof using Type.
  intros HE Hh (Hw & H). split; [done|]. intros i o Hr. destruct (H i o Hr) as (Hin & Hout).
  specialize (HE i o Hr). split.
  - intros He%HE. rewrite <- Hh by done. by apply Hin.
  - intros Hn. apply Hout. intros He. by apply Hn, HE.
Qed.

(** Storing in one cell, and leaving a region alone. *)
Lemma cells_set w i o v h :
  table_ok w -> in_table i o -> v = h i o (get_weight w i o) ->
  cells_updated (fun i' o' => i' = i /\ o' = o) h w (set_weight w i o v).
Proof.
  intros Hw Hr ->. split; [by apply set_weight_ok|]. intros i' o' Hr'.
  rewrite get_set_weight by done. split; [|intros; by rewrite decide_False].
  intros (-> & ->). by rewrite decide_True.
Qed.

Lemma cells_same (E : Z -> Z -> Prop) h w :
  table_ok w -> (forall i o, in_table i o -> E i o -> h i o (get_weight w i o) = get_weight w i o) ->
  cells_updated E h w w.
Proof. intros Hw H. split; [done|]. intros i o Hr. split; [|done]. intros He. by rewrite H. Qed.

(** The loop over the cells of row [i], and that over the cells of column [o]. *)
Lemma row_loop i h (body : Z -> table -> option table) w :
  0 <= i < chIn -> table_ok w ->
  (forall o w, 0 <= o < chOut -> table_ok w -> exists w', body o w = Some w'
     /\ cells_updated (fun i' o' => i' = i /\ o' = o) h w w') ->
  exists w', for_opt (Z.to_nat chOut) 0 body w = Some w'
    /\ cells_updated (fun i' _ => i' = i) h w w'.
Proof.
  intros Hi Hw Hbody.
  destruct (cells_loop (fun i' _ => i' = i) (fun _ o' => o') h chOut body w) as (w' & E & H);
    [lia|done|exact Hbody|]. exists w'. split; [done|].
  revert H. apply cells_weaken; [region|done].
Qed.

Lemma column_loop o h (body : Z -> table -> option table) w :
  0 <= o < chOut -> table_ok w ->
  (forall i w, 0 <= i < chIn -> table_ok w -> exists w', body i w = Some w'
     /\ cells_updated (fun i' o' => i' = i /\ o' = o) h w w') ->
  exists w', for_opt (Z.to_nat chIn) 0 body w = Some w'
    /\ cells_updated (fun _ o' => o' = o) h w w'.
Proof.
  intros Ho Hw Hbody.
  destruct (cells_loop (fun _ o' => o' = o) (fun i' _ => i') h chIn body w) as (w' & E & H);
    [lia|done| |].
  - intros k v Hk Hv. destruct (Hbody k v Hk Hv) as (v' & Ev & H). exists v'. split; [done|].
    revert H. apply cells_weaken; [region|done].
  - exists w'. split; [done|]. revert H. apply cells_weaken; [region|done].
Qed.

(** All rows, or all columns. *)
Lemma rows_loop h (body : Z -> table -> option table) w :
  table_ok w ->
  (forall i w, 0 <= i < chIn -> table_ok w -> exists w', body i w = Some w'
     /\ cells_updated (fun i' _ => i' = i) h w w') ->
  exists w', for_opt (Z.to_nat chIn) 0 body w = Some w' /\ cells_updated (fun _ _ => True) h w w'.
Proof.
  intros Hw Hbody.
  destruct (cells_loop (fun _ _ => True) (fun i' _ => i') h chIn body w) as (w' & E & H);
    [lia|done| |].
  - intros k v Hk Hv. destruct (Hbody k v Hk Hv) as (v' & Ev & H). exists v'. split; [done|].
    revert H. apply cells_weaken; [region|done].
  - exists w'. split; [done|]. revert H. apply cells_weaken; [region|done].
Qed.

Lemma columns_loop h (body : Z -> table -> option table) w :
  table_ok w ->
  (forall o w, 0 <= o < chOut -> table_ok w -> exists w', body o w = Some w'
     /\ cells_updated (fun _ o' => o' = o) h w w') ->
  exists w', for_opt (Z.to_nat chOut) 0 body w = Some w' /\ cells_updated (fun _ _ => True) h w w'.
Proof.
  intros Hw Hbody.
  destruct (cells_loop (fun _ _ => True) (fun _ o' => o') h chOut body w) as (w' & E & H);
    [lia|done| |].
  - intros k v Hk Hv. destruct (Hbody k v Hk Hv) as (v' & Ev & H). exists v'. split; [done|].
    revert H. apply cells_weaken; [region|done].
  - exists w'. split; [done|]. revert H. apply cells_weaken; [region|done].
Qed.

Lemma cells_compose h h' w w1 w2 :
  cells_updated (fun _ _ => True) h w w1 -> cells_updated (fun _ _ => True) h' w1 w2 ->
  cells_updated (fun _ _ => True) (fun i o x => h' i o (h i o x)) w w2.
Proof.
  intros (_ & H1) (Hw2 & H2). split; [done|]. intros i o Hr. split; [|done]. intros _.
  rewrite (proj1 (H2 i o Hr)) by done. by rewrite (proj1 (H1 i o Hr)).
Qed.

Lemma table_ok_zrep : table_ok (zrep chIn (zrep chOut 0)).
Proof.
  split; [apply zlen_zrep; lia|]. unfold zrep at 1. intros row (-> & _)%elem_of_replicate.
  apply zlen_zrep. lia.
Qed.
End table.

(** ** Weights that exist *)

(** The word of a weight that converts. *)
Definition word_of (format : ma_format) (weight : spec_float) : ma_biquad_coefficient :=
  default 0 (weight_word format weight).

(** In fixed point it is between 0 and 1, which is 4096. *)
Definition fits (weight : spec_float) : bool :=
  match ma_channel_converter_float_to_fixed weight with
  | Some z => (0 <=? z) && (z <=? 2 ^ MA_CHANNEL_CONVERTER_FIXED_POINT_SHIFT)
  | None => false
  end.

Lemma weight_word_fits format weight :
  fits weight = true -> weight_word format weight = Some (word_of format weight).
Proof.
  unfold fits, word_of, weight_word. intros H. case_decide; [done|].
  by destruct (ma_channel_converter_float_to_fixed weight).
Qed.

Lemma word_of_bounds format weight :
  fits weight = true -> format <> ma_format_f32 -> 0 <= co_s32 (word_of format weight) <= 4096.
Proof.
  unfold fits, word_of, weight_word. intros H Hf. rewrite decide_False by done.
  destruct (ma_channel_converter_float_to_fixed weight) as [z|]; [|done]. change (default 0 (option_map of_s32 (Some z))) with (of_s32 z).
  apply andb_true_iff in H as (H0%Z.leb_le & H1%Z.leb_le). change (2 ^ _) with 4096 in H1.
  unfold co_s32, of_s32, u32, s32. rewrite wraps_wrapu by (lia || cint). lia.
Qed.

(** Spatial positions are the first twenty. *)
Lemma spatial_range p : ma_is_spatial_channel_position p = true -> 0 <= p < 20.
Proof.
  intros H. destruct (decide (p < 0)) as [Hneg|].
  - exfalso. revert H. unfold ma_is_spatial_channel_position, plane_ratio.
    replace (Z.to_nat p) with 0%nat by lia.
    repeat (destruct (_ || _); [done|]). destruct (_ >=? _); [done|]. vm_compute. done.
  - unfold ma_is_spatial_channel_position in H. destruct (_ || _); [done|].
    destruct (Z.geb_spec p MA_CHANNEL_AUX_0) as [|Hlt]; [done|]. unfold MA_CHANNEL_AUX_0 in Hlt. lia.
Qed.

(** By evaluation of all pairs, as the table of planes has it. *)
Lemma rectangular_fits a b :
  ma_is_spatial_channel_position a = true -> ma_is_spatial_channel_position b = true ->
  fits (ma_calculate_channel_position_rectangular_weight a b) = true.
Proof.
  intros Ha%spatial_range Hb%spatial_range.
  apply (for_channels (fun a b => fits (ma_calculate_channel_position_rectangular_weight a b)) 20);
    [vm_compute; reflexivity|done|done].
Qed.

Lemma reciprocal_fits n : 0 < n <= 254 -> fits (f32_div f32_one (f32_of_Z n)) = true.
Proof.
  intros Hn.
  assert (H : forallb (fun k => fits (f32_div f32_one (f32_of_Z k))) (seqZ 1 254) = true)
    by (vm_compute; reflexivity).
  rewrite forallb_forall in H. apply H, list_elem_of_In, elem_of_seqZ. lia.
Qed.

Lemma spatial_count m channels :
  0 <= channels <= 254 ->
  0 <= ma_channel_map_get_spatial_channel_count m channels <= channels.
Proof.
  intros Hc. apply (for_loop_inv (fun k n => 0 <= n <= k)); [lia|lia|].
  intros k n Hk Hn. case_match; [|lia]. unfold u32. rewrite wrapu_id by (split; lia). lia.
Qed.

(** ** The loops *)

Section loops.
Variable c : ma_channel_converter.
Hypothesis Hchannels : 0 < cc_channelsIn c <= 254 /\ 0 < cc_channelsOut c <= 254.

Abbreviation ok := (table_ok (cc_channelsIn c) (cc_channelsOut c)) (only parsing).
Abbreviation upd := (cells_updated (cc_channelsIn c) (cc_channelsOut c)) (only parsing).
Abbreviation pIn := (posIn c).
Abbreviation pOut := (posOut c).
Abbreviation word := (word_of (cc_format c)).

(** What each group of loops does to the weight [x] of a pair of channels. *)
Definition h_shared (i o x : Z) : Z := if pIn i =? pOut o then word f32_one else x.

Definition h_if_zero (guard : bool) (weight : spec_float) (x : Z) : Z :=
  if guard && weight_is_zero (cc_format c) x then word weight else x.

Definition missing_out (i : Z) : bool :=
  negb (ma_channel_map_contains_channel_position (cc_channelsOut c) (cc_pChannelMapOut c) (pIn i)).
Definition missing_in (o : Z) : bool :=
  negb (ma_channel_map_contains_channel_position (cc_channelsIn c) (cc_pChannelMapIn c) (pOut o)).

Definition both_spatial (i o : Z) : bool :=
  ma_is_spatial_channel_position (pIn i) && ma_is_spatial_channel_position (pOut o).

Lemma put_weight_upd w i o weight :
  fits weight = true -> ok w -> in_table (cc_channelsIn c) (cc_channelsOut c) i o ->
  exists w', put_weight c w i o weight = Some w'
    /\ upd (fun i' o' => i' = i /\ o' = o) (fun _ _ _ => word weight) w w'.
Proof.
  intros Hf Hw Hr. unfold put_weight. rewrite weight_word_fits by done. eexists. split; [reflexivity|].
  apply cells_set; [lia|done|done|done].
Qed.

Lemma put_weight_if_zero_upd w i o weight :
  fits weight = true -> ok w -> in_table (cc_channelsIn c) (cc_channelsOut c) i o ->
  exists w', put_weight_if_zero c w i o weight = Some w'
    /\ upd (fun i' o' => i' = i /\ o' = o) (fun _ _ => h_if_zero true weight) w w'.
Proof.
  intros Hf Hw Hr. unfold put_weight_if_zero.
  destruct (weight_is_zero (cc_format c) (get_weight w i o)) eqn:Ez.
  - unfold put_weight. rewrite weight_word_fits by done. eexists. split; [reflexivity|].
    apply cells_set; [lia|done|done|]. unfold h_if_zero. by rewrite Ez.
  - exists w. split; [done|]. apply cells_same; [done|]. intros i' o' _ (-> & ->).
    unfold h_if_zero. by rewrite Ez.
Qed.

Lemma weights_silence_upd w :
  ok w -> exists w', weights_silence c w = Some w' /\ upd (fun _ _ => True) (fun _ _ _ => word f32_zero) w w'.
Proof.
  intros Hw. apply rows_loop; [lia|done|]. intros i v Hi Hv. apply row_loop; [lia|done|done|].
  intros o u Ho Hu. eexists. split; [reflexivity|]. apply cells_set; [lia|done|done|].
  unfold word_of, weight_word. by case_decide.
Qed.

Lemma weights_shared_upd w :
  ok w -> exists w', weights_shared c w = Some w' /\ upd (fun _ _ => True) h_shared w w'.
Proof.
  intros Hw. apply rows_loop; [lia|done|]. intros i v Hi Hv. apply row_loop; [lia|done|done|].
  intros o u Ho Hu. destruct (pIn i =? pOut o) eqn:E.
  - destruct (put_weight_upd u i o f32_one eq_refl Hu (conj Hi Ho)) as (w' & Ew & H).
    exists w'. split; [done|]. revert H. apply cells_weaken; [region|].
    intros i' o' x _ (-> & ->). unfold h_shared. by rewrite E.
  - exists u. split; [done|]. apply cells_same; [done|]. intros i' o' _ (-> & ->).
    unfold h_shared. by rewrite E.
Qed.

Hypothesis Hmode : cc_mixingMode c = ma_channel_mix_mode_rectangular.

Abbreviation rect i o := (ma_calculate_channel_position_rectangular_weight (pIn i) (pOut o)).

Lemma rect_pair_upd u i o (guard : Z -> Z -> bool) :
  ok u -> in_table (cc_channelsIn c) (cc_channelsOut c) i o ->
  ma_is_spatial_channel_position (pIn i) = true -> ma_is_spatial_channel_position (pOut o) = true ->
  guard i o = true ->
  exists w', put_weight_if_zero c u i o (rectangular_weight c i o) = Some w'
    /\ upd (fun i' o' => i' = i /\ o' = o)
         (fun i o => h_if_zero (both_spatial i o && guard i o) (rect i o)) u w'.
Proof.
  intros Hu Hr Hi Ho Hg. unfold rectangular_weight. rewrite decide_True by done.
  destruct (put_weight_if_zero_upd u i o (rect i o) (rectangular_fits _ _ Hi Ho) Hu Hr) as (w' & Ew & H).
  exists w'. split; [done|]. revert H. apply cells_weaken; [region|].
  intros i' o' x _ (-> & ->). unfold h_if_zero, both_spatial. by rewrite Hi, Ho, Hg.
Qed.

(** A cell whose guard is off keeps its weight. *)
Lemma guard_off (E : Z -> Z -> Prop) (guard : Z -> Z -> bool) u :
  ok u -> (forall i o, E i o -> guard i o = false) ->
  upd E (fun i o => h_if_zero (guard i o) (rect i o)) u u.
Proof.
  intros Hu H. apply cells_same; [done|]. intros i o _ He. unfold h_if_zero. by rewrite H.
Qed.

Lemma weights_unmapped_in_upd w :
  ok w -> exists w', weights_unmapped_in c w = Some w'
    /\ upd (fun _ _ => True) (fun i o => h_if_zero (both_spatial i o && missing_out i) (rect i o)) w w'.
Proof.
  intros Hw. apply rows_loop; [lia|done|]. intros i v Hi Hv. cbv beta.
  fold (missing_out i).
  destruct (ma_is_spatial_channel_position (pIn i)) eqn:Ei; [destruct (missing_out i) eqn:Em|]; cbn [andb].
  2,3: exists v; split; [done|]; apply guard_off; [done|]; intros i' o ->; unfold both_spatial;
    rewrite ?Ei, ?Em; by rewrite ?andb_false_r.
  apply row_loop; [lia|done|done|]. intros o u Ho Hu.
  destruct (ma_is_spatial_channel_position (pOut o)) eqn:Eo.
  - by apply (rect_pair_upd u i o (fun i _ => missing_out i)).
  - exists u. split; [done|]. apply guard_off; [done|]. intros i' o' (-> & ->). unfold both_spatial.
    by rewrite Eo, andb_false_r.
Qed.

Lemma weights_unmapped_out_upd w :
  ok w -> exists w', weights_unmapped_out c w = Some w'
    /\ upd (fun _ _ => True) (fun i o => h_if_zero (both_spatial i o && missing_in o) (rect i o)) w w'.
Proof.
  intros Hw. apply columns_loop; [lia|done|]. intros o v Ho Hv. cbv beta.
  fold (missing_in o).
  destruct (ma_is_spatial_channel_position (pOut o)) eqn:Eo; [destruct (missing_in o) eqn:Em|]; cbn [andb].
  2,3: exists v; split; [done|]; apply guard_off; [done|]; intros i o' ->; unfold both_spatial;
    rewrite ?Eo, ?Em; by rewrite ?andb_false_r.
  apply column_loop; [lia|done|done|]. intros i u Hi Hu.
  destruct (ma_is_spatial_channel_position (pIn i)) eqn:Ei.
  - by apply (rect_pair_upd u i o (fun _ o => missing_in o)).
  - exists u. split; [done|]. apply guard_off; [done|]. intros i' o' (-> & ->). unfold both_spatial.
    by rewrite Ei.
Qed.

Abbreviation count := (ma_channel_map_get_spatial_channel_count (cc_pChannelMapIn c) (cc_channelsIn c)).

(** Output channel [o] is the LFE that is computed because the input has none. *)
Definition lfe_target (o : Z) : bool :=
  let '(found, k) :=
    ma_channel_map_find_channel_position (cc_channelsOut c) (cc_pChannelMapOut c) MA_CHANNEL_LFE in
  negb (ma_channel_map_contains_channel_position (cc_channelsIn c) (cc_pChannelMapIn c) MA_CHANNEL_LFE)
  && (count >? 0) && found && (o =? k).

Definition lfe_weight : spec_float := f32_div f32_one (f32_of_Z count).

Lemma weights_lfe_upd w :
  ok w -> exists w', weights_lfe c w = Some w'
    /\ upd (fun _ _ => True)
         (fun i o => h_if_zero (lfe_target o && ma_is_spatial_channel_position (pIn i)) lfe_weight) w w'.
Proof.
  intros Hw. unfold weights_lfe.
  assert (Hoff : (forall o, lfe_target o = false) -> upd (fun _ _ => True)
    (fun i o => h_if_zero (lfe_target o && ma_is_spatial_channel_position (pIn i)) lfe_weight) w w).
  { intros H. apply cells_same; [done|]. intros i o _ _. unfold h_if_zero. by rewrite H. }
  unfold lfe_target in *.
  destruct (ma_channel_map_contains_channel_position (cc_channelsIn c) _ _) eqn:El.
  { exists w. split; [done|]. apply Hoff. intros o. by destruct (ma_channel_map_find_channel_position _ _ _). }
  pose proof (find_loop_spec (Z.to_nat (cc_channelsOut c)) (cc_channelsOut c) (cc_pChannelMapOut c)
    MA_CHANNEL_LFE 0) as Hfind.
  fold (ma_channel_map_find_channel_position (cc_channelsOut c) (cc_pChannelMapOut c) MA_CHANNEL_LFE) in Hfind.
  destruct (ma_channel_map_find_channel_position _ _ _) as [found k] eqn:Ef. cbn [negb andb] in *.
  destruct ((count >? 0) && found) eqn:Eg.
  2:{ by exists w. }
  apply andb_true_iff in Eg as (Hcount & ->). destruct Hfind as (Hk & _).
  assert (Hcol : 0 <= k < cc_channelsOut c) by lia.
  destruct (column_loop (cc_channelsIn c) (cc_channelsOut c) ltac:(lia) k
    (fun i o => h_if_zero (ma_is_spatial_channel_position (pIn i)) lfe_weight)
    (fun i w => if ma_is_spatial_channel_position (pIn i)
                then put_weight_if_zero c w i k lfe_weight else Some w) w Hcol Hw) as (w' & E & H).
  - intros i u Hi Hu. destruct (ma_is_spatial_channel_position (pIn i)) eqn:Es.
    + destruct (put_weight_if_zero_upd u i k lfe_weight) as (u' & Eu & H); [|done|done|].
      * apply reciprocal_fits. apply Z.gtb_lt in Hcount.
        pose proof (spatial_count (cc_pChannelMapIn c) (cc_channelsIn c)). lia.
      * exists u'. split; [done|]. revert H. apply cells_weaken; [region|].
        intros i' o' x _ (-> & ->). by rewrite Es.
    + exists u. split; [done|]. apply cells_same; [done|]. intros i' o' _ (-> & ->). unfold h_if_zero.
      by rewrite Es.
  - exists w'. split; [exact E|]. destruct H as (Hw' & H). split; [done|]. intros i o Hr. split; [|done].
    intros _. cbn [andb]. destruct (H i o Hr) as (Hin & Hout).
    destruct (Z.eqb_spec o k) as [->|Hne]; cbn [andb]; [by apply Hin|]. by apply Hout.
Qed.

(** The weight of input channel [i] in output channel [o]. *)
Definition channel_weight (calculateLFE : bool) (i o : Z) : spec_float :=
  if pIn i =? pOut o then f32_one
  else if both_spatial i o && (missing_out i || missing_in o) then rect i o
  else if calculateLFE && lfe_target o && ma_is_spatial_channel_position (pIn i) then lfe_weight
  else f32_zero.

Lemma word_zero_one :
  weight_is_zero (cc_format c) (word f32_zero) = true
  /\ weight_is_zero (cc_format c) (word f32_one) = false.
Proof. unfold weight_is_zero, word_of, weight_word. case_decide; split; vm_compute; done. Qed.

(** An LFE channel is not spatial, and if it is computed no input is LFE. *)
Lemma lfe_target_spec i o :
  in_table (cc_channelsIn c) (cc_channelsOut c) i o -> lfe_target o = true ->
  both_spatial i o = false /\ (pIn i =? pOut o) = false.
Proof.
  intros (Hi & Ho). unfold lfe_target.
  pose proof (find_loop_spec (Z.to_nat (cc_channelsOut c)) (cc_channelsOut c) (cc_pChannelMapOut c)
    MA_CHANNEL_LFE 0) as Hfind.
  fold (ma_channel_map_find_channel_position (cc_channelsOut c) (cc_pChannelMapOut c) MA_CHANNEL_LFE) in Hfind.
  destruct (ma_channel_map_find_channel_position _ _ _) as [found k].
  intros (((Hno & _)%andb_true_iff & ->)%andb_true_iff & ->%Z.eqb_eq)%andb_true_iff.
  destruct Hfind as (_ & Hk & _). unfold both_spatial, posOut. rewrite Hk. split; [apply andb_false_r|].
  apply Z.eqb_neq. intros E. apply negb_true_iff in Hno.
  assert (Hc : 0 <= cc_channelsIn c) by lia.
  rewrite (proj2 (contains_true _ _ _ Hc)) in Hno; [done|]. by exists i.
Qed.

Lemma rectangular_table calculateLFE pp w :
  ok w ->
  exists w', weights_table c calculateLFE pp w = Some (MA_SUCCESS, w')
    /\ forall i o, in_table (cc_channelsIn c) (cc_channelsOut c) i o ->
         get_weight w' i o = word (channel_weight calculateLFE i o).
Proof.
  intros Hw. unfold weights_table. rewrite Hmode.
  destruct (weights_silence_upd w Hw) as (w0 & -> & Hok0 & H0). cbn [option_bind mbind].
  destruct (weights_shared_upd w0 Hok0) as (w1 & E1 & Hok1 & H1). cbn. rewrite E1.
  destruct (weights_unmapped_in_upd w1 Hok1) as (w2 & E2 & Hok2 & H2). rewrite E2. cbn.
  destruct (weights_unmapped_out_upd w2 Hok2) as (w3 & E3 & Hok3 & H3). rewrite E3. cbn.
  destruct word_zero_one as (Ez & Eo).
  assert (H : forall i o, in_table (cc_channelsIn c) (cc_channelsOut c) i o ->
    get_weight w3 i o = word (channel_weight false i o)).
  { intros i o Hr. rewrite (proj1 (H3 i o Hr)), (proj1 (H2 i o Hr)), (proj1 (H1 i o Hr)),
      (proj1 (H0 i o Hr)) by done.
    unfold channel_weight, h_if_zero, h_shared. cbn [andb].
    destruct (pIn i =? pOut o); [by rewrite Eo, !andb_false_r, Eo, andb_false_r|]. rewrite Ez, !andb_true_r.
    destruct (both_spatial i o), (missing_out i), (missing_in o); cbn [andb orb]; rewrite ?Ez; try done.
    destruct (weight_is_zero (cc_format c) (word (rect i o))); reflexivity. }
  destruct calculateLFE; [|by exists w3].
  destruct (weights_lfe_upd w3 Hok3) as (w4 & E4 & _ & H4). rewrite E4. exists w4. split; [done|].
  intros i o Hr. rewrite (proj1 (H4 i o Hr)), (H i o Hr) by done. unfold channel_weight, h_if_zero. cbn [andb].
  destruct (lfe_target o) eqn:Et; [|done]. destruct (lfe_target_spec i o Hr Et) as (-> & ->).
  cbn [andb]. rewrite Ez, andb_true_r. by destruct (ma_is_spatial_channel_position _).
Qed.
End loops.

(** Every weight of the formula is between 0 and 1. *)
Lemma channel_weight_fits c calculateLFE i o :
  0 < cc_channelsIn c <= 254 -> fits (channel_weight c calculateLFE i o) = true.
Proof.
  intros Hc. unfold channel_weight. case_match; [vm_compute; reflexivity|].
  destruct (both_spatial c i o && _) eqn:Eb.
  - apply andb_true_iff in Eb as ((Ei & Eo)%andb_true_iff & _). by apply rectangular_fits.
  - destruct (calculateLFE && _ && _) eqn:El; [|vm_compute; reflexivity].
    apply andb_true_iff in El as ((_ & El)%andb_true_iff & _). apply reciprocal_fits.
    unfold lfe_target in El. destruct (ma_channel_map_find_channel_position _ _ _) as [found k].
    apply andb_true_iff in El as (((_ & El)%andb_true_iff & _)%andb_true_iff & _). apply Z.gtb_lt in El.
    pose proof (spatial_count (cc_pChannelMapIn c) (cc_channelsIn c)). lia.
Qed.

(** Initialising a converter in rectangular mode never fails once its maps are accepted, and
    where it mixes, the weight of each pair of channels is: 1 for the same position; for two
    spatial positions of which one has no counterpart on the other side, the volume they
    share over the planes of the room; for a computed LFE the same share of each spatial
    channel; and 0 otherwise.  Fixed point weights lie between 0 and 4096, so that no
    product of a 16-bit sample and a weight overflows. *)
Theorem channel_weights_rectangular cfg :
  config_ok cfg -> fst (ma_channel_converter_get_heap_layout (Some cfg)) = MA_SUCCESS ->
  ccc_mixingMode cfg = ma_channel_mix_mode_rectangular ->
  exists c, ma_channel_converter_init_preallocated (Some cfg) = Some (MA_SUCCESS, c)
    /\ (cc_conversionPath c = ma_channel_conversion_path_weights ->
        forall i o, 0 <= i < cc_channelsIn c -> 0 <= o < cc_channelsOut c ->
          get_weight (cc_weights c) i o
          = word_of (cc_format c) (channel_weight c (ccc_calculateLFEFromSpatialChannels cfg) i o)
          /\ (cc_format c <> ma_format_f32 -> 0 <= co_s32 (get_weight (cc_weights c) i o) <= 4096)).
Proof.
  intros Hok Hlay Hmode. pose proof Hok as (Hi & Ho & Hmi & Hmo). unfold MA_MAX_CHANNELS in *.
  unfold ma_channel_converter_init_preallocated.
  destruct (ma_channel_converter_get_heap_layout (Some cfg)) as [r l] eqn:El. cbn [fst] in Hlay. subst r.
  change (negb (MA_SUCCESS =? MA_SUCCESS)) with false. cbv iota.
  assert (Hpos : 0 < ccc_channelsIn cfg /\ 0 < ccc_channelsOut cfg).
  { cbn in El. destruct (ccc_channelsIn cfg =? 0) eqn:E1; [done|]. destruct (ccc_channelsOut cfg =? 0) eqn:E2; [done|].
    apply Z.eqb_neq in E1, E2. lia. }
  rewrite !own_map_opt by (try done; lia).
  destruct (decide (ma_channel_converter_config_get_conversion_path cfg = ma_channel_conversion_path_weights))
    as [Ew|Ew].
  - match goal with |- context [weights_table ?x _ _ _] => set (c0 := x) end.
    destruct (rectangular_table c0 ltac:(cbn; lia) Hmode (ccc_calculateLFEFromSpatialChannels cfg)
      (ccc_ppWeights cfg) _ (table_ok_zrep (cc_channelsIn c0) (cc_channelsOut c0) ltac:(cbn; lia)))
      as (w & E & H).
    change (ccc_channelsIn cfg) with (cc_channelsIn c0). change (ccc_channelsOut cfg) with (cc_channelsOut c0).
    rewrite E. exists (cc_with_weights c0 w). split; [done|]. intros _ i o Hir Hor.
    assert (Ec : get_weight (cc_weights (cc_with_weights c0 w)) i o
      = word_of (cc_format c0) (channel_weight c0 (ccc_calculateLFEFromSpatialChannels cfg) i o)).
    { apply H. split; done. }
    split; [exact Ec|]. intros Hf. rewrite Ec. apply word_of_bounds; [|exact Hf].
    apply channel_weight_fits. cbn. lia.
  - eexists. split; [reflexivity|]. cbn. intros Hp. done.
Qed.

(** 5.1 to stereo. *)
Definition demo_downmix : ma_channel_converter_config :=
  ma_channel_converter_config_init ma_format_s16 6 None 2 None ma_channel_mix_mode_rectangular.

(** The centre goes to each side at one half. *)
Lemma channel_weights_rectangular_witness :
  co_s32 (get_weight (cc_weights (converter_of demo_downmix)) 2 0) = 2048.
Proof.
  destruct (channel_weights_rectangular demo_downmix) as (c & E & H).
  - split_and!; vm_decide.
  - reflexivity.
  - reflexivity.
  - assert (Ec : converter_of demo_downmix = c) by (unfold converter_of; by rewrite E). rewrite Ec.
    assert (Hp : cc_conversionPath c = ma_channel_conversion_path_weights) by (rewrite <- Ec; vm_compute; reflexivity).
    assert (Hn : cc_channelsIn c = 6 /\ cc_channelsOut c = 2) by (rewrite <- Ec; split; vm_compute; reflexivity).
    rewrite (proj1 (H Hp 2 0 ltac:(lia) ltac:(lia))). rewrite <- Ec. vm_compute. reflexivity.
Defined.

(** The mixed path on the same converter: left is front left plus half of centre and side. *)
Lemma weights_path_reference_witness :
  let c := converter_of demo_downmix in
  let inn := flat_map bytes_s16 [100; 50; 40; 7; 20; 10] in
  mixed accumulate_s16 2 c inn 0 0 = bytes_s16 130.
Proof.
  cbv zeta.
  destruct (weights_path_reference (converter_of demo_downmix) (zrep 4 7)
    (flat_map bytes_s16 [100; 50; 40; 7; 20; 10]) 1) as (out & E & Hl & H);
    [vm_compute; first [reflexivity|discriminate]..|].
  specialize (H 0 0 ltac:(lia) ltac:(vm_compute; split; congruence)).
  etransitivity; [symmetry; exact H|].
  assert (Eo : Some (MA_SUCCESS, out) = Some (MA_SUCCESS, bytes_s16 130 ++ bytes_s16 75)).
  { rewrite <- E. vm_compute. reflexivity. }
  injection Eo as ->. reflexivity.
Defined.
