(* ===== verification/Resampler.v ===== *)
(** * Resampler with a choice of backends (miniaudio.h, [ma_resampler])

    A resampler calls its backend through a table of functions: the linear resampler of
    LinearResampler.v, or functions of the application.  The application's table and the
    state [C] its functions keep are parameters; the user data pointer that is handed to
    them is part of the functions here.

    Buffers are bytes, which the linear backend reads as samples of its format. *)
From Stdlib Require Import ZArith Lia Bool SpecFloat.
From stdpp Require Import base numbers list option.
From S2P Require Import Prelude MaTypes CFloat PcmFormat Biquad LowPass LinearResampler.

Local Open Scope Z_scope.

Inductive ma_resample_algorithm :=
| ma_resample_algorithm_linear
| ma_resample_algorithm_custom.

#[export] Instance ma_resample_algorithm_eq_dec : EqDecision ma_resample_algorithm.
Proof. solve_decision. Defined.

(** The configuration a backend is given. *)
Record ma_resampler_settings := mk_resampler_settings {
  rs_format : ma_format;
  rs_channels : Z;
  rs_sampleRateIn : Z;
  rs_sampleRateOut : Z;
  rs_algorithm : ma_resample_algorithm;
  rs_lpfOrder : Z }.

(** ** Buffers of samples *)

(** The samples of the formats the linear backend has, as LinearResampler.v keeps them: the
    value of an [ma_int16], the word of a [float]. *)
Definition sample_width (format : ma_format) : Z := ma_get_bytes_per_sample format.

Definition decode_sample (format : ma_format) (x : list Z) : Z :=
  match format with ma_format_s16 => sample_s16 x | _ => le_word x end.

Definition encode_sample (format : ma_format) (x : Z) : list Z :=
  match format with ma_format_s16 => bytes_s16 x | _ => le_bytes 4 x end.

(** All whole samples of a buffer. *)
Definition decode_samples (format : ma_format) (m : list Z) : list Z :=
  map (decode_sample format)
    (split_samples (Z.to_nat (sample_width format)) (Z.to_nat (zlen m / sample_width format)) m).

Definition encode_samples (format : ma_format) (xs : list Z) : list Z :=
  concat (map (encode_sample format) xs).

Section resampler.
Context (lm : libm).
(** The state of the application's backend. *)
Context {C : Type}.

Inductive ma_resampling_backend :=
| backend_linear (r : ma_linear_resampler)
| backend_custom (c : C).

(** The result, [*pFrameCountIn], [*pFrameCountOut], the output buffer and the state. *)
Definition process_result : Type :=
  ma_result * option Z * option Z * option (list Z) * ma_resampling_backend.

(** [None] in a field is a NULL function; [None] as a result is undefined behaviour. *)
Record ma_resampling_backend_vtable := mk_vtable {
  onGetHeapSize : option (ma_resampler_settings -> ma_result * Z);
  onInit : option (ma_resampler_settings -> option (ma_result * option ma_resampling_backend));
  onProcess : option (ma_resampling_backend -> option (list Z) -> option Z -> option (list Z) -> option Z
                -> option process_result);
  onSetRate : option (ma_resampling_backend -> Z -> Z -> option (ma_result * ma_resampling_backend));
  onGetInputLatency : option (ma_resampling_backend -> option Z);
  onGetOutputLatency : option (ma_resampling_backend -> option Z);
  onGetRequiredInputFrameCount : option (ma_resampling_backend -> Z -> option (ma_result * Z));
  onGetExpectedOutputFrameCount : option (ma_resampling_backend -> Z -> option (ma_result * Z));
  onReset : option (ma_resampling_backend -> option (ma_result * ma_resampling_backend)) }.

Record ma_resampler_config := mk_resampler_config {
  rc_settings : ma_resampler_settings;
  rc_pBackendVTable : option ma_resampling_backend_vtable }.

(** ** The linear backend *)

(** The linear functions get a linear backend; anything else would be a wrong pointer. *)
Definition on_linear {A} (b : ma_resampling_backend) (k : ma_linear_resampler -> option A) : option A :=
  match b with backend_linear r => k r | backend_custom _ => None end.

Definition as_linear {A} (r : option (A * ma_linear_resampler)) : option (A * ma_resampling_backend) :=
  option_map (fun '(a, r) => (a, backend_linear r)) r.

Definition ma_resampling_backend_get_config__linear (s : ma_resampler_settings)
    : ma_linear_resampler_config :=
  let c := ma_linear_resampler_config_init (rs_format s) (rs_channels s) (rs_sampleRateIn s)
             (rs_sampleRateOut s) in
  mk_lr_config (lrc_format c) (lrc_channels c) (lrc_sampleRateIn c) (lrc_sampleRateOut c)
    (rs_lpfOrder s) (lrc_lpfNyquistFactor c).

Definition ma_resampling_backend_get_heap_size__linear (s : ma_resampler_settings) : ma_result * Z :=
  ma_linear_resampler_get_heap_size lm (Some (ma_resampling_backend_get_config__linear s)).

Definition ma_resampling_backend_init__linear (s : ma_resampler_settings)
    : option (ma_result * option ma_resampling_backend) :=
  option_map (fun '(result, r) => (result, option_map backend_linear r))
    (ma_linear_resampler_init_preallocated lm (ma_resampling_backend_get_config__linear s)).

(** The processing functions read both frame counts without testing the pointers. *)
Definition ma_resampling_backend_process__linear (b : ma_resampling_backend)
    (pFramesIn : option (list Z)) (pFrameCountIn : option Z) (pFramesOut : option (list Z))
    (pFrameCountOut : option Z) : option process_result :=
  on_linear b (fun r =>
    let format := lrc_format (lr_config r) in
    match pFrameCountIn, pFrameCountOut with
    | Some n, Some m =>
        let '(result, k, M, ys, r) :=
          ma_linear_resampler_process_pcm_frames r (option_map (decode_samples format) pFramesIn) n
            (option_map (fun _ => []) pFramesOut) m in
        Some (result, Some k, Some M,
              match pFramesOut, ys with
              | Some out, Some ys => Some (wr out 0 (encode_samples format ys))
              | _, _ => pFramesOut
              end, backend_linear r)
    | _, _ => None
    end).

Definition ma_resampling_backend_set_rate__linear (b : ma_resampling_backend)
    (sampleRateIn sampleRateOut : Z) : option (ma_result * ma_resampling_backend) :=
  on_linear b (fun r => as_linear (ma_linear_resampler_set_rate lm r sampleRateIn sampleRateOut)).

Definition ma_resampling_backend_get_input_latency__linear (b : ma_resampling_backend) : option Z :=
  on_linear b (fun r => Some (ma_linear_resampler_get_input_latency r)).
Definition ma_resampling_backend_get_output_latency__linear (b : ma_resampling_backend) : option Z :=
  on_linear b (fun r => Some (ma_linear_resampler_get_output_latency r)).
Definition ma_resampling_backend_get_required_input_frame_count__linear (b : ma_resampling_backend)
    (outputFrameCount : Z) : option (ma_result * Z) :=
  on_linear b (fun r => Some (ma_linear_resampler_get_required_input_frame_count r outputFrameCount)).
Definition ma_resampling_backend_get_expected_output_frame_count__linear (b : ma_resampling_backend)
    (inputFrameCount : Z) : option (ma_result * Z) :=
  on_linear b (fun r => Some (ma_linear_resampler_get_expected_output_frame_count r inputFrameCount)).
Definition ma_resampling_backend_reset__linear (b : ma_resampling_backend)
    : option (ma_result * ma_resampling_backend) :=
  on_linear b (fun r => as_linear (Some (ma_linear_resampler_reset r))).

Definition g_ma_linear_resampler_vtable : ma_resampling_backend_vtable :=
  mk_vtable
    (Some ma_resampling_backend_get_heap_size__linear)
    (Some ma_resampling_backend_init__linear)
    (Some ma_resampling_backend_process__linear)
    (Some ma_resampling_backend_set_rate__linear)
    (Some ma_resampling_backend_get_input_latency__linear)
    (Some ma_resampling_backend_get_output_latency__linear)
    (Some ma_resampling_backend_get_required_input_frame_count__linear)
    (Some ma_resampling_backend_get_expected_output_frame_count__linear)
    (Some ma_resampling_backend_reset__linear).

(** ** The resampler *)

Record ma_resampler := mk_resampler {
  rsp_pBackend : option ma_resampling_backend;
  rsp_pBackendVTable : option ma_resampling_backend_vtable;
  rsp_format : ma_format;
  rsp_channels : Z;
  rsp_sampleRateIn : Z;
  rsp_sampleRateOut : Z;
  rsp_ownsHeap : bool }.

Definition ma_resampler_zero : ma_resampler := mk_resampler None None ma_format_unknown 0 0 0 false.

Definition rsp_with_backend (r : ma_resampler) (b : ma_resampling_backend) : ma_resampler :=
  mk_resampler (Some b) (rsp_pBackendVTable r) (rsp_format r) (rsp_channels r) (rsp_sampleRateIn r)
    (rsp_sampleRateOut r) (rsp_ownsHeap r).
Definition rsp_with_rates (r : ma_resampler) (sampleRateIn sampleRateOut : Z) : ma_resampler :=
  mk_resampler (rsp_pBackend r) (rsp_pBackendVTable r) (rsp_format r) (rsp_channels r) sampleRateIn
    sampleRateOut (rsp_ownsHeap r).
Definition rsp_with_ownsHeap (r : ma_resampler) : ma_resampler :=
  mk_resampler (rsp_pBackend r) (rsp_pBackendVTable r) (rsp_format r) (rsp_channels r)
    (rsp_sampleRateIn r) (rsp_sampleRateOut r) true.

Definition ma_resampler_config_init (format : ma_format)
    (channels sampleRateIn sampleRateOut : Z) (algorithm : ma_resample_algorithm) : ma_resampler_config :=
  mk_resampler_config
    (mk_resampler_settings format channels sampleRateIn sampleRateOut algorithm
       (ma_min MA_DEFAULT_RESAMPLER_LPF_ORDER MA_MAX_FILTER_ORDER)) None.

(** [*ppVTable] *)
Definition ma_resampler_get_vtable (c : ma_resampler_config) : option ma_resampling_backend_vtable :=
  match rs_algorithm (rc_settings c) with
  | ma_resample_algorithm_linear => Some g_ma_linear_resampler_vtable
  | ma_resample_algorithm_custom => rc_pBackendVTable c
  end.

(** Returns the result and [*pHeapSizeInBytes]. *)
Definition ma_resampler_get_heap_size (pConfig : option ma_resampler_config) : ma_result * Z :=
  match pConfig with
  | None => (MA_INVALID_ARGS, 0)
  | Some c =>
      match option_bind _ _ onGetHeapSize (ma_resampler_get_vtable c) with
      | None => (MA_NOT_IMPLEMENTED, 0)
      | Some f => f (rc_settings c)
      end
  end.

Definition ma_resampler_init_preallocated (pConfig : option ma_resampler_config)
    : option (ma_result * ma_resampler) :=
  match pConfig with
  | None => Some (MA_INVALID_ARGS, ma_resampler_zero)
  | Some c =>
      let s := rc_settings c in
      let r := mk_resampler None (ma_resampler_get_vtable c) (rs_format s) (rs_channels s)
                 (rs_sampleRateIn s) (rs_sampleRateOut s) false in
      match option_bind _ _ onInit (ma_resampler_get_vtable c) with
      | None => Some (MA_NOT_IMPLEMENTED, r)
      | Some f =>
          option_map (fun '(result, b) =>
            (result, match b with Some b => rsp_with_backend r b | None => r end)) (f s)
      end
  end.

(** [alloc] is whether the allocation succeeds, [before] what the resampler held. *)
Definition ma_resampler_init (pConfig : option ma_resampler_config) (alloc : bool) (before : ma_resampler)
    : option (ma_result * ma_resampler) :=
  let '(result, heapSizeInBytes) := ma_resampler_get_heap_size pConfig in
  if negb (result =? MA_SUCCESS) then Some (result, before)
  else if (heapSizeInBytes >? 0) && negb alloc then Some (MA_OUT_OF_MEMORY, before)
  else
    option_map (fun '(result, r) =>
      if result =? MA_SUCCESS then (MA_SUCCESS, rsp_with_ownsHeap r) else (result, r))
      (ma_resampler_init_preallocated pConfig).

(** A function of the table, called on the backend. *)
Definition call_backend {F A} (r : ma_resampler) (field : ma_resampling_backend_vtable -> option F)
    (missing : A) (k : F -> ma_resampling_backend -> option A) : option A :=
  match option_bind _ _ field (rsp_pBackendVTable r) with
  | None => Some missing
  | Some f => match rsp_pBackend r with Some b => k f b | None => None end
  end.

Definition ma_resampler_process_pcm_frames (r : ma_resampler) (pFramesIn : option (list Z))
    (pFrameCountIn : option Z) (pFramesOut : option (list Z)) (pFrameCountOut : option Z)
    : option (ma_result * option Z * option Z * option (list Z) * ma_resampler) :=
  let fail result := (result, pFrameCountIn, pFrameCountOut, pFramesOut, r) in
  match pFrameCountIn, pFrameCountOut with
  | None, None => Some (fail MA_INVALID_ARGS)
  | _, _ =>
      call_backend r onProcess (fail MA_NOT_IMPLEMENTED) (fun f b =>
        option_map (fun '(result, k, M, out, b) => (result, k, M, out, rsp_with_backend r b))
          (f b pFramesIn pFrameCountIn pFramesOut pFrameCountOut))
  end.

Definition ma_resampler_set_rate (r : ma_resampler) (sampleRateIn sampleRateOut : Z)
    : option (ma_result * ma_resampler) :=
  if (sampleRateIn =? 0) || (sampleRateOut =? 0) then Some (MA_INVALID_ARGS, r)
  else
    call_backend r onSetRate (MA_NOT_IMPLEMENTED, r) (fun f b =>
      option_map (fun '(result, b) =>
        let r := rsp_with_backend r b in
        if negb (result =? MA_SUCCESS) then (result, r)
        else (MA_SUCCESS, rsp_with_rates r sampleRateIn sampleRateOut))
        (f b sampleRateIn sampleRateOut)).

Definition ma_resampler_set_rate_ratio (r : ma_resampler) (ratio : spec_float)
    : option (ma_result * ma_resampler) :=
  if SFleb ratio f32_zero then Some (MA_INVALID_ARGS, r)
  else
    match sf_to_u 32 (f32_mul ratio (f32_of_Z 1000)) with
    | None => None
    | Some n => if n =? 0 then Some (MA_INVALID_ARGS, r) else ma_resampler_set_rate r n 1000
    end.

Definition ma_resampler_get_input_latency (r : ma_resampler) : option Z :=
  call_backend r onGetInputLatency 0 (fun f b => f b).

Definition ma_resampler_get_output_latency (r : ma_resampler) : option Z :=
  call_backend r onGetOutputLatency 0 (fun f b => f b).

(** Returns the result and [*pInputFrameCount]. *)
Definition ma_resampler_get_required_input_frame_count (r : ma_resampler) (outputFrameCount : Z)
    : option (ma_result * Z) :=
  call_backend r onGetRequiredInputFrameCount (MA_NOT_IMPLEMENTED, 0) (fun f b => f b outputFrameCount).

(** Returns the result and [*pOutputFrameCount]. *)
Definition ma_resampler_get_expected_output_frame_count (r : ma_resampler) (inputFrameCount : Z)
    : option (ma_result * Z) :=
  call_backend r onGetExpectedOutputFrameCount (MA_NOT_IMPLEMENTED, 0) (fun f b => f b inputFrameCount).

Definition ma_resampler_reset (r : ma_resampler) : option (ma_result * ma_resampler) :=
  call_backend r onReset (MA_NOT_IMPLEMENTED, r) (fun f b =>
    option_map (fun '(result, b) => (result, rsp_with_backend r b)) (f b)).
End resampler.

Arguments ma_resampling_backend : clear implicits.
Arguments ma_resampling_backend_vtable : clear implicits.
Arguments ma_resampler_config : clear implicits.
Arguments ma_resampler : clear implicits.
Arguments process_result : clear implicits.
