(* ===== verification/DataConverter.v ===== *)
(** * Data conversion (miniaudio.h, [ma_data_converter])

    Converts between formats, channel maps and sample rates in one pass, by a pipeline of
    format conversion, channel conversion and resampling whose order is chosen when the
    converter is initialised.  Where stages are combined the frames go through temporary
    buffers of 4096 bytes, a piece at a time.

    Buffers are byte lists and distinct.  The format conversions may draw random numbers
    for dithering, so everything that processes frames is in the monad of PcmFormat.v; a
    loop has fuel for the frames that are left, which DataConverterProps.v shows to be
    enough.  The temporary buffers start out with zero bytes here; the code never reads
    what it has not written. *)
From Stdlib Require Import ZArith Lia Bool SpecFloat.
From stdpp Require Import base numbers list option.
From S2P Require Import Prelude MaTypes CFloat PcmRing PcmFormat ChannelMap Biquad LowPass LinearResampler ChannelConverter Resampler.

Local Open Scope Z_scope.

Definition DATA_CONVERTER_STACK_BUFFER_SIZE : Z := 4096.

Inductive ma_data_converter_execution_path :=
| ma_data_converter_execution_path_passthrough
| ma_data_converter_execution_path_format_only
| ma_data_converter_execution_path_channels_only
| ma_data_converter_execution_path_resample_only
| ma_data_converter_execution_path_resample_first
| ma_data_converter_execution_path_channels_first.

#[export] Instance ma_data_converter_execution_path_eq_dec : EqDecision ma_data_converter_execution_path.
Proof. solve_decision. Defined.

Section data_converter.
Context (lm : libm).
(** The state of an application's resampler, and the vector unit of format conversion. *)
Context {C : Type}.
Context (simd : option (list spec_float -> list spec_float)).

(** The member [resampling] is the settings of the resampler, of which only the algorithm
    and the filter order are used, and the table of a custom backend. *)
Record ma_data_converter_config := mk_data_converter_config {
  dcc_formatIn : ma_format;
  dcc_formatOut : ma_format;
  dcc_channelsIn : Z;
  dcc_channelsOut : Z;
  dcc_sampleRateIn : Z;
  dcc_sampleRateOut : Z;
  dcc_pChannelMapIn : option (list ma_channel);
  dcc_pChannelMapOut : option (list ma_channel);
  dcc_ditherMode : ma_dither_mode;
  dcc_channelMixMode : ma_channel_mix_mode;
  dcc_calculateLFEFromSpatialChannels : bool;
  dcc_ppChannelWeights : option (list (list spec_float));
  dcc_allowDynamicSampleRate : bool;
  dcc_algorithm : ma_resample_algorithm;
  dcc_lpfOrder : Z;
  dcc_pBackendVTable : option (ma_resampling_backend_vtable C) }.

Definition ma_data_converter_config_init_default : ma_data_converter_config :=
  mk_data_converter_config ma_format_unknown ma_format_unknown 0 0 0 0 None None ma_dither_mode_none
    ma_channel_mix_mode_rectangular false None false ma_resample_algorithm_linear 1 None.

Definition ma_data_converter_config_init (formatIn formatOut : ma_format)
    (channelsIn channelsOut sampleRateIn sampleRateOut : Z) : ma_data_converter_config :=
  let c := ma_data_converter_config_init_default in
  mk_data_converter_config formatIn formatOut channelsIn channelsOut sampleRateIn sampleRateOut
    (dcc_pChannelMapIn c) (dcc_pChannelMapOut c) (dcc_ditherMode c) (dcc_channelMixMode c)
    (dcc_calculateLFEFromSpatialChannels c) (dcc_ppChannelWeights c) (dcc_allowDynamicSampleRate c)
    (dcc_algorithm c) (dcc_lpfOrder c) (dcc_pBackendVTable c).

Record ma_data_converter := mk_data_converter {
  dc_formatIn : ma_format;
  dc_formatOut : ma_format;
  dc_channelsIn : Z;
  dc_channelsOut : Z;
  dc_sampleRateIn : Z;
  dc_sampleRateOut : Z;
  dc_ditherMode : ma_dither_mode;
  dc_executionPath : ma_data_converter_execution_path;
  dc_channelConverter : ma_channel_converter;
  dc_resampler : ma_resampler C;
  dc_hasPreFormatConversion : bool;
  dc_hasPostFormatConversion : bool;
  dc_hasChannelConverter : bool;
  dc_hasResampler : bool;
  dc_isPassthrough : bool;
  dc_ownsHeap : bool }.

Definition ma_data_converter_zero : ma_data_converter :=
  mk_data_converter ma_format_unknown ma_format_unknown 0 0 0 0 ma_dither_mode_none
    ma_data_converter_execution_path_passthrough ma_channel_converter_zero ma_resampler_zero
    false false false false false false.

Definition dc_with_resampler (c : ma_data_converter) (r : ma_resampler C) : ma_data_converter :=
  mk_data_converter (dc_formatIn c) (dc_formatOut c) (dc_channelsIn c) (dc_channelsOut c)
    (dc_sampleRateIn c) (dc_sampleRateOut c) (dc_ditherMode c) (dc_executionPath c)
    (dc_channelConverter c) r (dc_hasPreFormatConversion c) (dc_hasPostFormatConversion c)
    (dc_hasChannelConverter c) (dc_hasResampler c) (dc_isPassthrough c) (dc_ownsHeap c).

Definition dc_with_ownsHeap (c : ma_data_converter) : ma_data_converter :=
  mk_data_converter (dc_formatIn c) (dc_formatOut c) (dc_channelsIn c) (dc_channelsOut c)
    (dc_sampleRateIn c) (dc_sampleRateOut c) (dc_ditherMode c) (dc_executionPath c)
    (dc_channelConverter c) (dc_resampler c) (dc_hasPreFormatConversion c)
    (dc_hasPostFormatConversion c) (dc_hasChannelConverter c) (dc_hasResampler c)
    (dc_isPassthrough c) true.

(** ** Initialisation *)

Definition ma_data_converter_config_is_resampler_required (c : ma_data_converter_config) : bool :=
  dcc_allowDynamicSampleRate c || negb (dcc_sampleRateIn c =? dcc_sampleRateOut c).

Definition s16_or_f32 (format : ma_format) : bool :=
  bool_decide (format = ma_format_s16) || bool_decide (format = ma_format_f32).

Definition ma_data_converter_config_get_mid_format (c : ma_data_converter_config) : ma_format :=
  if ma_data_converter_config_is_resampler_required c
     && bool_decide (dcc_algorithm c <> ma_resample_algorithm_linear)
  then ma_format_f32
  else if s16_or_f32 (dcc_formatOut c) then dcc_formatOut c
  else if s16_or_f32 (dcc_formatIn c) then dcc_formatIn c
  else ma_format_f32.

Definition ma_channel_converter_config_init_from_data_converter_config (c : ma_data_converter_config)
    : ma_channel_converter_config :=
  let cfg := ma_channel_converter_config_init (ma_data_converter_config_get_mid_format c)
               (dcc_channelsIn c) (dcc_pChannelMapIn c) (dcc_channelsOut c) (dcc_pChannelMapOut c)
               (dcc_channelMixMode c) in
  mk_channel_converter_config (ccc_format cfg) (ccc_channelsIn cfg) (ccc_channelsOut cfg)
    (ccc_pChannelMapIn cfg) (ccc_pChannelMapOut cfg) (ccc_mixingMode cfg)
    (dcc_calculateLFEFromSpatialChannels c) (dcc_ppChannelWeights c).

Definition ma_resampler_config_init_from_data_converter_config (c : ma_data_converter_config)
    : ma_resampler_config C :=
  let resamplerChannels :=
    if dcc_channelsIn c <? dcc_channelsOut c then dcc_channelsIn c else dcc_channelsOut c in
  let s := rc_settings (ma_resampler_config_init (C := C) (ma_data_converter_config_get_mid_format c)
             resamplerChannels (dcc_sampleRateIn c) (dcc_sampleRateOut c) (dcc_algorithm c)) in
  mk_resampler_config
    (mk_resampler_settings (rs_format s) (rs_channels s) (rs_sampleRateIn s) (rs_sampleRateOut s)
       (rs_algorithm s) (dcc_lpfOrder c))
    (dcc_pBackendVTable c).

Record ma_data_converter_heap_layout := mk_data_converter_layout {
  dcl_sizeInBytes : Z;
  dcl_channelConverterOffset : Z;
  dcl_resamplerOffset : Z }.

Definition ma_data_converter_get_heap_layout (pConfig : option ma_data_converter_config)
    : ma_result * ma_data_converter_heap_layout :=
  let zero := mk_data_converter_layout 0 0 0 in
  match pConfig with
  | None => (MA_INVALID_ARGS, zero)
  | Some c =>
      if (dcc_channelsIn c =? 0) || (dcc_channelsOut c =? 0) then (MA_INVALID_ARGS, zero)
      else
        let '(result, heapSizeInBytes) :=
          ma_channel_converter_get_heap_size
            (Some (ma_channel_converter_config_init_from_data_converter_config c)) in
        if negb (result =? MA_SUCCESS) then (result, zero)
        else
          let size := u64 (0 + heapSizeInBytes) in
          let resamplerOffset := size in
          if ma_data_converter_config_is_resampler_required c
          then
            let '(result, heapSizeInBytes) :=
              ma_resampler_get_heap_size lm
                (Some (ma_resampler_config_init_from_data_converter_config c)) in
            if negb (result =? MA_SUCCESS)
            then (result, mk_data_converter_layout size 0 resamplerOffset)
            else (MA_SUCCESS,
                  mk_data_converter_layout (ma_align_64 (u64 (size + heapSizeInBytes))) 0 resamplerOffset)
          else (MA_SUCCESS, mk_data_converter_layout (ma_align_64 size) 0 resamplerOffset)
  end.

(** Returns the result and [*pHeapSizeInBytes]. *)
Definition ma_data_converter_get_heap_size (pConfig : option ma_data_converter_config) : ma_result * Z :=
  let '(result, layout) := ma_data_converter_get_heap_layout pConfig in
  if result =? MA_SUCCESS then (MA_SUCCESS, dcl_sizeInBytes layout) else (result, 0).

(** Whether frames are converted to the mid format, and from it. *)
Definition format_conversions (formatIn formatOut midFormat : ma_format)
    (hasChannelConverter hasResampler : bool) : bool * bool :=
  if negb hasChannelConverter && negb hasResampler
  then if decide (formatIn = formatOut) then (false, false) else (false, true)
  else (bool_decide (formatIn <> midFormat), bool_decide (formatOut <> midFormat)).

Definition select_path (channelsIn channelsOut : Z)
    (hasChannelConverter hasResampler isPassthrough : bool) : ma_data_converter_execution_path :=
  if isPassthrough then ma_data_converter_execution_path_passthrough
  else if channelsIn <? channelsOut
  then
    if hasResampler then ma_data_converter_execution_path_resample_first
    else ma_data_converter_execution_path_channels_only
  else if hasChannelConverter
  then
    if hasResampler then ma_data_converter_execution_path_channels_first
    else ma_data_converter_execution_path_channels_only
  else
    if hasResampler then ma_data_converter_execution_path_resample_only
    else ma_data_converter_execution_path_format_only.

(** When a call fails the converter is not usable; it is then the zeroed one here. *)
Definition ma_data_converter_init_preallocated (pConfig : option ma_data_converter_config)
    : option (ma_result * ma_data_converter) :=
  let '(result, _) := ma_data_converter_get_heap_layout pConfig in
  match pConfig with
  | Some cfg =>
      if negb (result =? MA_SUCCESS) then Some (result, ma_data_converter_zero)
      else
        let isResamplingRequired := ma_data_converter_config_is_resampler_required cfg in
        let midFormat := ma_data_converter_config_get_mid_format cfg in
        match ma_channel_converter_init_preallocated
                (Some (ma_channel_converter_config_init_from_data_converter_config cfg)) with
        | None => None
        | Some (result, channelConverter) =>
            if negb (result =? MA_SUCCESS) then Some (result, ma_data_converter_zero)
            else
              let hasChannelConverter :=
                bool_decide (cc_conversionPath channelConverter <> ma_channel_conversion_path_passthrough) in
              match
                if isResamplingRequired
                then ma_resampler_init_preallocated lm
                       (Some (ma_resampler_config_init_from_data_converter_config cfg))
                else Some (MA_SUCCESS, ma_resampler_zero)
              with
              | None => None
              | Some (result, resampler) =>
                  if negb (result =? MA_SUCCESS) then Some (result, ma_data_converter_zero)
                  else
                    let hasResampler := isResamplingRequired in
                    let '(pre, post) :=
                      format_conversions (dcc_formatIn cfg) (dcc_formatOut cfg) midFormat
                        hasChannelConverter hasResampler in
                    let isPassthrough :=
                      negb pre && negb post && negb hasChannelConverter && negb hasResampler in
                    Some (MA_SUCCESS,
                      mk_data_converter (dcc_formatIn cfg) (dcc_formatOut cfg) (dcc_channelsIn cfg)
                        (dcc_channelsOut cfg) (dcc_sampleRateIn cfg) (dcc_sampleRateOut cfg)
                        (dcc_ditherMode cfg)
                        (select_path (dcc_channelsIn cfg) (dcc_channelsOut cfg) hasChannelConverter
                           hasResampler isPassthrough)
                        channelConverter resampler pre post hasChannelConverter hasResampler
                        isPassthrough false)
              end
        end
  | None => Some (result, ma_data_converter_zero)
  end.

(** [alloc] is whether the allocation succeeds, [before] what the converter held. *)
Definition ma_data_converter_init (pConfig : option ma_data_converter_config) (alloc : bool)
    (before : ma_data_converter) : option (ma_result * ma_data_converter) :=
  let '(result, heapSizeInBytes) := ma_data_converter_get_heap_size pConfig in
  if negb (result =? MA_SUCCESS) then Some (result, before)
  else if (heapSizeInBytes >? 0) && negb alloc then Some (MA_OUT_OF_MEMORY, before)
  else
    option_map (fun '(result, c) =>
      if result =? MA_SUCCESS then (MA_SUCCESS, dc_with_ownsHeap c) else (result, c))
      (ma_data_converter_init_preallocated pConfig).

(** ** Processing *)

(** The result, [*pFrameCountIn], [*pFrameCountOut], the output buffer and the converter. *)
Definition dc_result : Type :=
  ma_result * option Z * option Z * option (list Z) * ma_data_converter.

(** [if (p != NULL) x = *p;] with [x] zero before, and [if (p != NULL) *p = x;] *)
Definition load_count (p : option Z) : Z := default 0 p.
Definition store_count (p : option Z) (x : Z) : option Z := option_map (fun _ => x) p.

(** [if (x > cap) x = cap;] *)
Definition cap_at (x cap : Z) : Z := if x >? cap then cap else x.

Definition bytes_of_frames (n : Z) (format : ma_format) (channels : Z) : Z :=
  u64 (n * ma_get_bytes_per_frame format channels).

(** A pointer advanced by [n] frames: what a buffer holds from there on. *)
Definition advance (p : option (list Z)) (n : Z) (format : ma_format) (channels : Z) : option (list Z) :=
  option_map (drop (Z.to_nat (bytes_of_frames n format channels))) p.

(** Stores through a pointer advanced by [n] frames: [part] is the buffer from there on. *)
Definition put_back (p : option (list Z)) (n : Z) (format : ma_format) (channels : Z)
    (part : option (list Z)) : option (list Z) :=
  match p, part with
  | Some out, Some part => Some (take (Z.to_nat (bytes_of_frames n format channels)) out ++ part)
  | _, _ => p
  end.

(** A temporary buffer, with [d] stored at its start. *)
Definition temp_buffer : list Z := zrep DATA_CONVERTER_STACK_BUFFER_SIZE 0.
Definition in_temp (d : list Z) : list Z := wr temp_buffer 0 d.

Definition temp_cap (format : ma_format) (channels : Z) : Z :=
  DATA_CONVERTER_STACK_BUFFER_SIZE / ma_get_bytes_per_frame format channels.

(** The stages as the loops call them. *)
Definition convert_format (formatOut : ma_format) (src : list Z) (formatIn : ma_format)
    (frameCount channels : Z) (c : ma_data_converter) : lcgM (list Z) :=
  ma_convert_pcm_frames_format simd formatOut formatIn src frameCount channels (dc_ditherMode c).

(** With the test of the output pointer. *)
Definition convert_channels (c : ma_channel_converter) (pFramesOut pFramesIn : option (list Z))
    (frameCount : Z) : lcgM (ma_result * option (list Z)) :=
  match pFramesOut with
  | None => ret (MA_INVALID_ARGS, None)
  | Some out =>
      bind (lift (ma_channel_converter_process_pcm_frames c out pFramesIn frameCount))
        (fun '(result, out) => ret (result, Some out))
  end.

Definition resample (c : ma_data_converter) (pFramesIn : option (list Z)) (frameCountIn : Z)
    (pFramesOut : option (list Z)) (frameCountOut : Z)
    : lcgM (ma_result * Z * Z * option (list Z) * ma_data_converter) :=
  bind (lift (ma_resampler_process_pcm_frames (dc_resampler c) pFramesIn (Some frameCountIn) pFramesOut
                (Some frameCountOut))) (fun '(result, k, m, out, r) =>
    ret (result, default frameCountIn k, default frameCountOut m, out, dc_with_resampler c r)).

Definition ma_data_converter_process_pcm_frames__passthrough (c : ma_data_converter)
    (pFramesIn : option (list Z)) (pFrameCountIn : option Z) (pFramesOut : option (list Z))
    (pFrameCountOut : option Z) : lcgM dc_result :=
  let frameCount := ma_min (load_count pFrameCountIn) (load_count pFrameCountOut) in
  let n := bytes_of_frames frameCount (dc_formatOut c) (dc_channelsOut c) in
  let out :=
    option_map (fun out =>
      match pFramesIn with
      | Some src => wr out 0 (rd src 0 n)
      | None => wr out 0 (zrep n 0)
      end) pFramesOut in
  ret (MA_SUCCESS, store_count pFrameCountIn frameCount, store_count pFrameCountOut frameCount, out, c).

Definition ma_data_converter_process_pcm_frames__format_only (c : ma_data_converter)
    (pFramesIn : option (list Z)) (pFrameCountIn : option Z) (pFramesOut : option (list Z))
    (pFrameCountOut : option Z) : lcgM dc_result :=
  let frameCount := ma_min (load_count pFrameCountIn) (load_count pFrameCountOut) in
  let done out :=
    ret (MA_SUCCESS, store_count pFrameCountIn frameCount, store_count pFrameCountOut frameCount, out, c) in
  match pFramesOut with
  | None => done None
  | Some out =>
      match pFramesIn with
      | Some src =>
          bind (convert_format (dc_formatOut c) src (dc_formatIn c) frameCount (dc_channelsIn c) c)
            (fun d => done (Some (wr out 0 d)))
      | None =>
          done (Some (wr out 0 (zrep (bytes_of_frames frameCount (dc_formatOut c) (dc_channelsOut c)) 0)))
      end
  end.

(** *** Resampling with format conversion *)

(** One turn of the loop, on the frames that are left: the result, the frames read and
    produced, and the output buffer from the current frame on. *)
Definition resample_round (c : ma_data_converter) (pFramesIn : option (list Z)) (frameCountIn : Z)
    (pFramesOut : option (list Z)) (frameCountOut : Z)
    : lcgM (ma_result * Z * Z * option (list Z) * ma_data_converter) :=
  let format := rsp_format (dc_resampler c) in
  let channels := rsp_channels (dc_resampler c) in
  let tempBufferOutCap := temp_cap format channels in
  let post := dc_hasPostFormatConversion c in
  bind
    (if dc_hasPreFormatConversion c
     then
       let tempBufferInCap := temp_cap format channels in
       let n := cap_at frameCountIn tempBufferInCap in
       let n := if post then cap_at n tempBufferOutCap else n in
       bind (match pFramesIn with
             | Some src =>
                 bind (convert_format format src (dc_formatIn c) n (dc_channelsIn c) c)
                   (fun d => ret (in_temp d))
             | None => ret temp_buffer
             end) (fun pTempBufferIn =>
         if post
         then resample c (Some pTempBufferIn) n (Some temp_buffer) (cap_at frameCountOut tempBufferOutCap)
         else resample c (Some pTempBufferIn) n pFramesOut frameCountOut)
     else resample c pFramesIn frameCountIn (Some temp_buffer) (cap_at frameCountOut tempBufferOutCap))
    (fun '(result, k, m, out, c') =>
      if negb (result =? MA_SUCCESS)
      then ret (result, k, m, if dc_hasPreFormatConversion c && negb post then out else pFramesOut, c')
      else if post
      then
        match pFramesOut, out with
        | Some dst, Some pTempBufferOut =>
            bind (convert_format (dc_formatOut c) pTempBufferOut format m channels c)
              (fun d => ret (result, k, m, Some (wr dst 0 d), c'))
        | _, _ => ret (result, k, m, pFramesOut, c')
        end
      else ret (result, k, m, out, c')).

(** The [while] loops of the resampling paths, around a [round] on the frames that are left;
    [i] and [o] are [framesProcessedIn] and [framesProcessedOut].  The result is that of the
    stage that failed, with the counts so far. *)
Fixpoint rounds_loop (fuel : nat)
    (round : ma_data_converter -> option (list Z) -> Z -> option (list Z) -> Z ->
             lcgM (ma_result * Z * Z * option (list Z) * ma_data_converter))
    (c : ma_data_converter) (pFramesIn : option (list Z)) (frameCountIn : Z)
    (pFramesOut : option (list Z)) (frameCountOut i o : Z)
    : lcgM (ma_result * Z * Z * option (list Z) * ma_data_converter) :=
  match fuel with
  | O => lift None
  | S fuel =>
      if negb (o <? frameCountOut) then ret (MA_SUCCESS, i, o, pFramesOut, c)
      else
        bind (round c (advance pFramesIn i (dc_formatIn c) (dc_channelsIn c)) (u64 (frameCountIn - i))
                (advance pFramesOut o (dc_formatOut c) (dc_channelsOut c)) (u64 (frameCountOut - o)))
          (fun '(result, k, m, part, c') =>
            let out := put_back pFramesOut o (dc_formatOut c) (dc_channelsOut c) part in
            if negb (result =? MA_SUCCESS) then ret (result, i, o, out, c')
            else
              let i := u64 (i + k) in
              let o := u64 (o + m) in
              if m =? 0 then ret (MA_SUCCESS, i, o, out, c')
              else rounds_loop fuel round c' pFramesIn frameCountIn out frameCountOut i o)
  end.

(** Every turn but the last produces a frame. *)
Definition rounds_fuel (frameCountOut : Z) : nat := S (Z.to_nat frameCountOut).

(** The loop breaks when the resampler fails, and the counts are stored. *)
Definition ma_data_converter_process_pcm_frames__resample_with_format_conversion
    (c : ma_data_converter) (pFramesIn : option (list Z)) (pFrameCountIn : option Z)
    (pFramesOut : option (list Z)) (pFrameCountOut : option Z) : lcgM dc_result :=
  let frameCountOut := load_count pFrameCountOut in
  bind (rounds_loop (rounds_fuel frameCountOut) resample_round c pFramesIn (load_count pFrameCountIn)
          pFramesOut frameCountOut 0 0)
    (fun '(result, i, o, out, c) =>
      ret (result, store_count pFrameCountIn i, store_count pFrameCountOut o, out, c)).

Definition ma_data_converter_process_pcm_frames__resample_only
    (c : ma_data_converter) (pFramesIn : option (list Z)) (pFrameCountIn : option Z)
    (pFramesOut : option (list Z)) (pFrameCountOut : option Z) : lcgM dc_result :=
  if negb (dc_hasPreFormatConversion c) && negb (dc_hasPostFormatConversion c)
  then
    bind (lift (ma_resampler_process_pcm_frames (dc_resampler c) pFramesIn pFrameCountIn pFramesOut
                  pFrameCountOut))
      (fun '(result, k, m, out, r) => ret (result, k, m, out, dc_with_resampler c r))
  else
    ma_data_converter_process_pcm_frames__resample_with_format_conversion c pFramesIn pFrameCountIn
      pFramesOut pFrameCountOut.

(** *** Channel conversion *)

(** One turn of the loop with format conversion: the result, the number of frames and the
    output buffer from the current frame on. *)
Definition channels_round (c : ma_data_converter) (pFramesIn : option (list Z))
    (pFramesOut : option (list Z)) (frameCount : Z) : lcgM (ma_result * Z * option (list Z)) :=
  let cc := dc_channelConverter c in
  let tempBufferOutCap := temp_cap (cc_format cc) (cc_channelsOut cc) in
  let post := dc_hasPostFormatConversion c in
  bind
    (if dc_hasPreFormatConversion c
     then
       let tempBufferInCap := temp_cap (cc_format cc) (cc_channelsIn cc) in
       let n := cap_at frameCount tempBufferInCap in
       let n := if post then cap_at n tempBufferOutCap else n in
       bind (match pFramesIn with
             | Some src =>
                 bind (convert_format (cc_format cc) src (dc_formatIn c) n (dc_channelsIn c) c)
                   (fun d => ret (in_temp d))
             | None => ret temp_buffer
             end) (fun pTempBufferIn =>
         bind (convert_channels cc (if post then Some temp_buffer else pFramesOut) (Some pTempBufferIn) n)
           (fun '(result, out) => ret (result, n, out)))
     else
       let n := cap_at frameCount tempBufferOutCap in
       bind (convert_channels cc (Some temp_buffer) pFramesIn n)
         (fun '(result, out) => ret (result, n, out)))
    (fun '(result, n, out) =>
      if negb (result =? MA_SUCCESS)
      then ret (result, n, if dc_hasPreFormatConversion c && negb post then out else pFramesOut)
      else if post
      then
        match pFramesOut, out with
        | Some dst, Some pTempBufferOut =>
            bind (convert_format (dc_formatOut c) pTempBufferOut (cc_format cc) n (cc_channelsOut cc) c)
              (fun d => ret (result, n, Some (wr dst 0 d)))
        | _, _ => ret (result, n, pFramesOut)
        end
      else ret (result, n, out)).

(** The [while] loop; [p] is [framesProcessed]. It breaks when the channel converter
    fails. *)
Fixpoint channels_loop (fuel : nat) (c : ma_data_converter) (pFramesIn pFramesOut : option (list Z))
    (frameCount p : Z) : lcgM (option (list Z)) :=
  match fuel with
  | O => lift None
  | S fuel =>
      if negb (p <? frameCount) then ret pFramesOut
      else
        bind (channels_round c (advance pFramesIn p (dc_formatIn c) (dc_channelsIn c))
                (advance pFramesOut p (dc_formatOut c) (dc_channelsOut c)) (u64 (frameCount - p)))
          (fun '(result, n, part) =>
            let out := put_back pFramesOut p (dc_formatOut c) (dc_channelsOut c) part in
            if negb (result =? MA_SUCCESS) then ret out
            else channels_loop fuel c pFramesIn out frameCount (u64 (p + n)))
  end.

Definition ma_data_converter_process_pcm_frames__channels_only
    (c : ma_data_converter) (pFramesIn : option (list Z)) (pFrameCountIn : option Z)
    (pFramesOut : option (list Z)) (pFrameCountOut : option Z) : lcgM dc_result :=
  let frameCount := ma_min (load_count pFrameCountIn) (load_count pFrameCountOut) in
  let done out :=
    ret (MA_SUCCESS, store_count pFrameCountIn frameCount, store_count pFrameCountOut frameCount, out, c) in
  if negb (dc_hasPreFormatConversion c) && negb (dc_hasPostFormatConversion c)
  then
    bind (convert_channels (dc_channelConverter c) pFramesOut pFramesIn frameCount)
      (fun '(result, out) =>
        if negb (result =? MA_SUCCESS) then ret (result, pFrameCountIn, pFrameCountOut, out, c)
        else done out)
  else
    bind (channels_loop (rounds_fuel frameCount) c pFramesIn pFramesOut frameCount 0) done.

(** *** Both *)

(** The prediction of the input frames that are needed; a backend that has none is
    guessed at from the rates. *)
Definition required_frames (c : ma_data_converter) (frameCountOut : Z) : lcgM Z :=
  let r := dc_resampler c in
  bind (lift (ma_resampler_get_required_input_frame_count r frameCountOut)) (fun '(result, required) =>
    if negb (result =? MA_SUCCESS)
    then
      if rsp_sampleRateOut r =? 0 then lift None
      else ret (u64 (frameCountOut * rsp_sampleRateIn r) / rsp_sampleRateOut r)
    else ret required).

Definition resample_first_round (c : ma_data_converter) (pFramesIn : option (list Z)) (frameCountIn : Z)
    (pFramesOut : option (list Z)) (frameCountOut : Z)
    : lcgM (ma_result * Z * Z * option (list Z) * ma_data_converter) :=
  let r := dc_resampler c in
  let cc := dc_channelConverter c in
  let tempBufferInCap := temp_cap (rsp_format r) (rsp_channels r) in
  let tempBufferMidCap := temp_cap (rsp_format r) (rsp_channels r) in
  let tempBufferOutCap := temp_cap (cc_format cc) (cc_channelsOut cc) in
  let n := if dc_hasPreFormatConversion c then cap_at frameCountIn tempBufferInCap else frameCountIn in
  let m := cap_at frameCountOut tempBufferMidCap in
  let m := if dc_hasPostFormatConversion c then cap_at m tempBufferOutCap else m in
  bind (required_frames c m) (fun required =>
  let n := cap_at n required in
  bind (if dc_hasPreFormatConversion c
        then
          match pFramesIn with
          | Some src =>
              bind (convert_format (rsp_format r) src (dc_formatIn c) n (dc_channelsIn c) c)
                (fun d => ret (Some (in_temp d)))
          | None => ret None
          end
        else ret pFramesIn) (fun pResampleBufferIn =>
  bind (resample c pResampleBufferIn n (Some temp_buffer) m) (fun '(result, k, m, pTempBufferMid, c') =>
  if negb (result =? MA_SUCCESS) then ret (result, k, m, pFramesOut, c')
  else
    match pFramesOut with
    | None => ret (result, k, m, None, c')
    | Some dst =>
        bind (convert_channels cc
                (if dc_hasPostFormatConversion c then Some temp_buffer else pFramesOut) pTempBufferMid m)
          (fun '(result, pChannelsBufferOut) =>
        if negb (result =? MA_SUCCESS)
        then ret (result, k, m, if dc_hasPostFormatConversion c then pFramesOut else pChannelsBufferOut, c')
        else
          match dc_hasPostFormatConversion c, pChannelsBufferOut with
          | true, Some out =>
              bind (convert_format (dc_formatOut c) out (cc_format cc) m (cc_channelsOut cc) c)
                (fun d => ret (result, k, m, Some (wr dst 0 d), c'))
          | _, _ => ret (result, k, m, pChannelsBufferOut, c')
          end)
    end))).

Definition channels_first_round (c : ma_data_converter) (pFramesIn : option (list Z)) (frameCountIn : Z)
    (pFramesOut : option (list Z)) (frameCountOut : Z)
    : lcgM (ma_result * Z * Z * option (list Z) * ma_data_converter) :=
  let r := dc_resampler c in
  let cc := dc_channelConverter c in
  let tempBufferInCap := temp_cap (cc_format cc) (cc_channelsIn cc) in
  let tempBufferMidCap := temp_cap (cc_format cc) (cc_channelsOut cc) in
  let tempBufferOutCap := temp_cap (rsp_format r) (rsp_channels r) in
  let m := cap_at frameCountOut tempBufferMidCap in
  let m := if dc_hasPostFormatConversion c then cap_at m tempBufferOutCap else m in
  let n := if dc_hasPreFormatConversion c then cap_at frameCountIn tempBufferInCap else frameCountIn in
  let n := cap_at n tempBufferMidCap in
  bind (required_frames c m) (fun required =>
  let n := cap_at n required in
  bind (if dc_hasPreFormatConversion c
        then
          match pFramesIn with
          | Some src =>
              bind (convert_format (cc_format cc) src (dc_formatIn c) n (dc_channelsIn c) c)
                (fun d => ret (Some (in_temp d)))
          | None => ret None
          end
        else ret pFramesIn) (fun pChannelsBufferIn =>
  bind (convert_channels cc (Some temp_buffer) pChannelsBufferIn n) (fun '(result, pTempBufferMid) =>
  if negb (result =? MA_SUCCESS) then ret (result, n, m, pFramesOut, c)
  else
    bind (resample c pTempBufferMid n
            (if dc_hasPostFormatConversion c then Some temp_buffer else pFramesOut) m)
      (fun '(result, k, m, pResampleBufferOut, c') =>
    if negb (result =? MA_SUCCESS)
    then ret (result, k, m, if dc_hasPostFormatConversion c then pFramesOut else pResampleBufferOut, c')
    else
      match dc_hasPostFormatConversion c, pFramesOut, pResampleBufferOut with
      | true, Some dst, Some out =>
          bind (convert_format (dc_formatOut c) out (rsp_format r) m (dc_channelsOut c) c)
            (fun d => ret (result, k, m, Some (wr dst 0 d), c'))
      | true, _, _ => ret (result, k, m, pFramesOut, c')
      | false, _, _ => ret (result, k, m, pResampleBufferOut, c')
      end)))).

(** Both paths return at once when a stage fails, without storing the counts. *)
Definition process_both
    (round : ma_data_converter -> option (list Z) -> Z -> option (list Z) -> Z ->
             lcgM (ma_result * Z * Z * option (list Z) * ma_data_converter))
    (c : ma_data_converter) (pFramesIn : option (list Z)) (pFrameCountIn : option Z)
    (pFramesOut : option (list Z)) (pFrameCountOut : option Z) : lcgM dc_result :=
  let frameCountOut := load_count pFrameCountOut in
  bind (rounds_loop (rounds_fuel frameCountOut) round c pFramesIn (load_count pFrameCountIn)
          pFramesOut frameCountOut 0 0)
    (fun '(result, i, o, out, c) =>
      if negb (result =? MA_SUCCESS) then ret (result, pFrameCountIn, pFrameCountOut, out, c)
      else ret (result, store_count pFrameCountIn i, store_count pFrameCountOut o, out, c)).

Definition ma_data_converter_process_pcm_frames__resample_first := process_both resample_first_round.
Definition ma_data_converter_process_pcm_frames__channels_first := process_both channels_first_round.

Definition ma_data_converter_process_pcm_frames (c : ma_data_converter)
    : option (list Z) -> option Z -> option (list Z) -> option Z -> lcgM dc_result :=
  match dc_executionPath c with
  | ma_data_converter_execution_path_passthrough => ma_data_converter_process_pcm_frames__passthrough c
  | ma_data_converter_execution_path_format_only => ma_data_converter_process_pcm_frames__format_only c
  | ma_data_converter_execution_path_channels_only => ma_data_converter_process_pcm_frames__channels_only c
  | ma_data_converter_execution_path_resample_only => ma_data_converter_process_pcm_frames__resample_only c
  | ma_data_converter_execution_path_resample_first => ma_data_converter_process_pcm_frames__resample_first c
  | ma_data_converter_execution_path_channels_first => ma_data_converter_process_pcm_frames__channels_first c
  end.

(** ** Rates, latency, frame counts and maps *)

Definition on_resampler (c : ma_data_converter) (r : option (ma_result * ma_resampler C))
    : option (ma_result * ma_data_converter) :=
  option_map (fun '(result, r) => (result, dc_with_resampler c r)) r.

Definition ma_data_converter_set_rate (c : ma_data_converter) (sampleRateIn sampleRateOut : Z)
    : option (ma_result * ma_data_converter) :=
  if negb (dc_hasResampler c) then Some (MA_INVALID_OPERATION, c)
  else on_resampler c (ma_resampler_set_rate (dc_resampler c) sampleRateIn sampleRateOut).

Definition ma_data_converter_set_rate_ratio (c : ma_data_converter) (ratioInOut : spec_float)
    : option (ma_result * ma_data_converter) :=
  if negb (dc_hasResampler c) then Some (MA_INVALID_OPERATION, c)
  else on_resampler c (ma_resampler_set_rate_ratio (dc_resampler c) ratioInOut).

Definition ma_data_converter_get_input_latency (c : ma_data_converter) : option Z :=
  if dc_hasResampler c then ma_resampler_get_input_latency (dc_resampler c) else Some 0.

Definition ma_data_converter_get_output_latency (c : ma_data_converter) : option Z :=
  if dc_hasResampler c then ma_resampler_get_output_latency (dc_resampler c) else Some 0.

(** Returns the result and the count. *)
Definition ma_data_converter_get_required_input_frame_count (c : ma_data_converter)
    (outputFrameCount : Z) : option (ma_result * Z) :=
  if dc_hasResampler c
  then ma_resampler_get_required_input_frame_count (dc_resampler c) outputFrameCount
  else Some (MA_SUCCESS, outputFrameCount).

Definition ma_data_converter_get_expected_output_frame_count (c : ma_data_converter)
    (inputFrameCount : Z) : option (ma_result * Z) :=
  if dc_hasResampler c
  then ma_resampler_get_expected_output_frame_count (dc_resampler c) inputFrameCount
  else Some (MA_SUCCESS, inputFrameCount).

(** The code asks the channel converter for the map of the other side. *)
Definition ma_data_converter_get_input_channel_map (c : ma_data_converter)
    (pChannelMap : list ma_channel) (channelMapCap : Z) : ma_result * list ma_channel :=
  (MA_SUCCESS,
   if dc_hasChannelConverter c
   then snd (ma_channel_converter_get_output_channel_map (dc_channelConverter c) pChannelMap channelMapCap)
   else ma_channel_map_init_standard ma_standard_channel_map_default pChannelMap channelMapCap
          (dc_channelsOut c)).

Definition ma_data_converter_get_output_channel_map (c : ma_data_converter)
    (pChannelMap : list ma_channel) (channelMapCap : Z) : ma_result * list ma_channel :=
  (MA_SUCCESS,
   if dc_hasChannelConverter c
   then snd (ma_channel_converter_get_input_channel_map (dc_channelConverter c) pChannelMap channelMapCap)
   else ma_channel_map_init_standard ma_standard_channel_map_default pChannelMap channelMapCap
          (dc_channelsIn c)).

Definition ma_data_converter_reset (c : ma_data_converter) : option (ma_result * ma_data_converter) :=
  if negb (dc_hasResampler c) then Some (MA_SUCCESS, c)
  else on_resampler c (ma_resampler_reset (dc_resampler c)).
End data_converter.

Arguments ma_data_converter_config : clear implicits.
Arguments ma_data_converter : clear implicits.
Arguments dc_result : clear implicits.
