(* ===== verification/Stages.v ===== *)
(** * Stages of a conversion pipeline

    A stage turns interleaved frames into as many frames of another size, possibly drawing
    random numbers.  [FrameStage] states what lets a pipeline of stages work through small
    temporary buffers: a stage does not look past its frames, and it makes of two runs of
    frames what it makes of them together.  Format conversion and channel conversion
    discharge it; the loops of the data converter are verified against it. *)
From Stdlib Require Import ZArith Lia Bool SpecFloat Setoid Morphisms.
From stdpp Require Import base numbers list option.
From S2P Require Import Prelude MaTypes CFloat PcmFormat PcmFormatProps Loops.

Local Open Scope Z_scope.

(** ** Computations that agree from every state of the generator *)

Definition meq {A} (m m' : lcgM A) : Prop := forall st, m st = m' st.

Declare Scope lcg_scope.
Infix "≈" := meq (at level 70) : lcg_scope.
Local Open Scope lcg_scope.

#[export] Instance meq_equivalence A : Equivalence (@meq A).
Proof.
  split; [by intros m st|by intros m m' H st|]. intros m1 m2 m3 H H' st. by rewrite H.
Qed.

#[export] Instance bind_proper A B :
  Proper (meq ==> pointwise_relation A meq ==> meq) (@bind A B).
Proof.
  intros m m' Hm k k' Hk st. unfold bind. rewrite Hm. destruct (m' st) as [[x st']|]; [apply Hk|done].
Qed.

Section monad.
Context {A B C : Type}.

Lemma bind_assoc (m : lcgM A) (k : A -> lcgM B) (h : B -> lcgM C) :
  bind (bind m k) h ≈ bind m (fun x => bind (k x) h).
Proof. intros st. unfold bind. by destruct (m st) as [[x st']|]. Qed.

Lemma ret_bind (x : A) (k : A -> lcgM B) : bind (ret x) k ≈ k x.
Proof. done. Qed.

Lemma bind_ret (m : lcgM A) : bind m ret ≈ m.
Proof. intros st. apply bind_ret_r. Qed.

Lemma lift_some (x : A) : lift (Some x) ≈ ret x.
Proof. done. Qed.

(** Continuations only matter on the results that can occur. *)
Lemma bind_ext_post (m : lcgM A) (k k' : A -> lcgM B) :
  (forall x st st', m st = Some (x, st') -> k x ≈ k' x) -> bind m k ≈ bind m k'.
Proof.
  intros H st. unfold bind. destruct (m st) as [[x st']|] eqn:E; [by eapply H|done].
Qed.

(** A computation that leaves the generator alone can be done later. *)
Lemma bind_swap (m : lcgM A) (n : lcgM B) (o : option A) (k : A -> B -> lcgM C) :
  m ≈ lift o -> bind m (fun x => bind n (k x)) ≈ bind n (fun y => bind m (fun x => k x y)).
Proof.
  intros H st. unfold bind. rewrite H. destruct o as [x|]; cbn [lift].
  - destruct (n st) as [[y st']|]; [|done]. by rewrite H.
  - destruct (n st) as [[y st']|]; [|done]. by rewrite H.
Qed.
End monad.

(** What a computation that has a result guarantees of it. *)
Definition ensures {A} (P : A -> Prop) (m : lcgM A) : Prop :=
  forall st x st', m st = Some (x, st') -> P x.

Section ensures.
Context {A B : Type}.

Lemma ensures_ret (P : A -> Prop) x : P x -> ensures P (ret x).
Proof. by intros H st y st' [= <- <-]. Qed.

Lemma ensures_lift (P : A -> Prop) o : (forall x, o = Some x -> P x) -> ensures P (lift o).
Proof. intros H st y st'. destruct o; [|done]. intros [= <- <-]. by apply H. Qed.

Lemma ensures_bind (Q : A -> Prop) (P : B -> Prop) m k :
  ensures Q m -> (forall x, Q x -> ensures P (k x)) -> ensures P (bind m k).
Proof.
  intros Hm Hk st y st'. unfold bind. destruct (m st) as [[x st1]|] eqn:E; [|done].
  apply Hk. by apply Hm in E.
Qed.

Lemma ensures_bind_any (P : B -> Prop) (m : lcgM A) k : (forall x, ensures P (k x)) -> ensures P (bind m k).
Proof. intros H. by apply (ensures_bind (fun _ => True)); [by intros ?|]. Qed.
End ensures.

(** ** Buffers *)

(** Room for [n] frames of [w] bytes, in a buffer of whole groups of [g] bytes. *)
Definition holds_frames (g w : Z) (out : list Z) (n : Z) : Prop := n * w <= zlen out /\ (g | zlen out).

Lemma holds_fewer g w out n n' : 0 <= w -> n' <= n -> holds_frames g w out n -> holds_frames g w out n'.
Proof. intros Hw Hn (H & Hg). split; [|done]. assert (n' * w <= n * w) by (apply Z.mul_le_mono_nonneg_r; lia). lia. Qed.

Lemma holds_drop g w out n p :
  (g | w) -> 0 <= w -> 0 <= p <= n -> holds_frames g w out n -> holds_frames g w (drop (Z.to_nat (p * w)) out) (n - p).
Proof.
  intros Hgw Hw Hp (H & Hg). assert (p * w <= n * w) by (apply Z.mul_le_mono_nonneg_r; lia).
  assert (0 <= p * w) by (apply Z.mul_nonneg_nonneg; lia).
  split; rewrite zlen_drop by lia; [lia|]. apply Z.divide_sub_r; [done|]. by apply Z.divide_mul_r.
Qed.

Lemma holds_exactly g w out n : (g | w) -> zlen out = n * w -> holds_frames g w out n.
Proof. intros Hg H. split; [lia|]. rewrite H. by apply Z.divide_mul_r. Qed.

(** ** Stages *)

Abbreviation stage := (list Z -> Z -> lcgM (list Z)).

(** [wi] and [wo] are the sizes of a frame, [bound] limits the number of frames. *)
Class FrameStage (wi wo bound : Z) (f : stage) : Prop := {
  stage_none : forall x, f x 0 ≈ ret [];
  stage_len : forall x n st y st', 0 <= n <= bound -> n * wi <= zlen x ->
    f x n st = Some (y, st') -> zlen y = n * wo;
  stage_prefix : forall x n, 0 <= n <= bound -> n * wi <= zlen x -> f x n ≈ f (rd x 0 (n * wi)) n;
  stage_app : forall x y a b, 0 <= a -> 0 <= b -> a + b <= bound -> zlen x = a * wi -> zlen y = b * wi ->
    f (x ++ y) (a + b) ≈ bind (f x a) (fun u => bind (f y b) (fun v => ret (u ++ v))) }.

(** A stage that draws no random numbers. *)
Class Stateless (f : stage) : Prop :=
  stateless : exists g : list Z -> Z -> option (list Z), forall x n, f x n ≈ lift (g x n).

Definition then_stage (f g : stage) : stage := fun x n => bind (f x n) (fun y => g y n).

Definition no_stage (w : Z) : stage := fun x n => ret (rd x 0 (n * w)).

Section stage_laws.
Context (wi wo bound : Z) (f : stage) `{!FrameStage wi wo bound f}.
Hypothesis Hwi : 0 <= wi.

Lemma stage_split x a b :
  0 <= a -> 0 <= b -> a + b <= bound -> (a + b) * wi <= zlen x ->
  f x (a + b) ≈
    bind (f x a) (fun u => bind (f (drop (Z.to_nat (a * wi)) x) b) (fun v => ret (u ++ v))).
Proof.
  intros Ha Hb Hab Hx. pose proof (Z.mul_nonneg_nonneg a wi Ha Hwi). pose proof (Z.mul_nonneg_nonneg b wi Hb Hwi).
  assert (E : f (drop (Z.to_nat (a * wi)) x) b ≈ f (rd x (a * wi) (b * wi)) b).
  { rewrite (stage_prefix (drop _ x) b) by (rewrite ?zlen_drop; nia).
    by rewrite rd_drop, Z.add_0_r by lia. }
  setoid_rewrite E. rewrite (stage_prefix x (a + b)), (stage_prefix x a) by nia.
  rewrite Z.mul_add_distr_r, rd_split, Z.add_0_l by lia.
  apply stage_app; [done|done|done|apply zlen_rd; nia..].
Qed.

(** The stage sees a longer buffer as the one that starts it. *)
Lemma stage_of_app x y n :
  0 <= n <= bound -> n * wi <= zlen x -> f (x ++ y) n ≈ f x n.
Proof.
  intros Hn Hx. rewrite (stage_prefix (x ++ y) n) by (rewrite ?zlen_app; zl).
  rewrite (stage_prefix x n) by done. by rewrite rd_app_l by nia.
Qed.
End stage_laws.

#[export] Instance no_stage_frames w bound : 0 <= w -> FrameStage w w bound (no_stage w).
Proof.
  intros Hw. unfold no_stage. split.
  - intros x. by rewrite Z.mul_0_l, rd_0.
  - intros x n st y st' Hn Hx [= <- <-]. apply zlen_rd; nia.
  - intros x n Hn Hx. rewrite rd_rd by nia. by rewrite Z.add_0_l.
  - intros x y a b Ha Hb _ Hx Hy st. unfold bind, ret. do 2 f_equal.
    assert (0 <= a * w) by nia. assert (0 <= b * w) by nia.
    rewrite Z.mul_add_distr_r, <- Hx, <- Hy, <- zlen_app. by rewrite !rd_all.
Qed.

#[export] Instance no_stage_stateless w : Stateless (no_stage w).
Proof. exists (fun x n => Some (rd x 0 (n * w))). done. Qed.

Section composition.
Context (wi wm wo bound : Z) (f g : stage) `{!FrameStage wi wm bound f} `{!FrameStage wm wo bound g}.

Lemma then_stage_swap u y a b (k : list Z -> list Z -> lcgM (list Z)) :
  Stateless f \/ Stateless g ->
  bind (f y b) (fun v => bind (g u a) (fun p => k v p))
  ≈ bind (g u a) (fun p => bind (f y b) (fun v => k v p)).
Proof.
  intros [[h Hh]|[h Hh]].
  - apply (bind_swap _ _ (h y b)), Hh.
  - symmetry. apply (bind_swap _ _ (h u a) (fun p v => k v p)), Hh.
Qed.

(** Stages compose when at most one of them draws random numbers. *)
Lemma then_stage_frames :
  0 <= wm -> Stateless f \/ Stateless g -> FrameStage wi wo bound (then_stage f g).
Proof.
  intros Hwm Hpure. unfold then_stage. split.
  - intros x. rewrite (stage_none x), ret_bind. apply stage_none.
  - intros x n st y st' Hn Hx H. unfold bind in H. destruct (f x n st) as [[u st1]|] eqn:E; [|done].
    apply stage_len in E; [|done..]. apply (stage_len u n st1 y st'); [done|lia|done].
  - intros x n Hn Hx. by rewrite (stage_prefix x n).
  - intros x y a b Ha Hb Hab Hx Hy. rewrite (stage_app x y a b), !bind_assoc by done.
    apply bind_ext_post. intros u st st' Hu. apply stage_len in Hu; [|lia..].
    transitivity (bind (f y b) (fun v => bind (g u a) (fun p => bind (g v b) (fun q => ret (p ++ q))))).
    + rewrite bind_assoc. apply bind_ext_post. intros v st1 st2 Hv. apply stage_len in Hv; [|lia..].
      rewrite ret_bind. by apply stage_app.
    + rewrite (then_stage_swap u y a b (fun v p => bind (g v b) (fun q => ret (p ++ q)))) by done.
      apply bind_proper; [done|]. intros p. by rewrite bind_assoc.
Qed.

Lemma then_stage_stateless : Stateless f -> Stateless g -> Stateless (then_stage f g).
Proof.
  intros [h Hh] [h' Hh']. exists (fun x n => match h x n with Some y => h' y n | None => None end).
  intros x n st. unfold then_stage, bind. rewrite Hh. destruct (h x n) as [y|]; cbn [lift]; [|done].
  apply Hh'.
Qed.
End composition.

(** ** A stage that treats every frame on its own *)

Definition per_frame (wi : Z) (g : list Z -> list Z) : stage := fun x n =>
  ret (concat (map (fun f => g (rd x (f * wi) wi)) (seqZ 0 n))).

Lemma zlen_concat_map {A} (h : Z -> list A) w l :
  (forall k, k ∈ l -> zlen (h k) = w) -> zlen (concat (map h l)) = zlen l * w.
Proof.
  induction l as [|k l IH]; intros H; [done|]. cbn [map concat]. rewrite zlen_app, zlen_cons, IH, H.
  - lia.
  - apply list_elem_of_here.
  - intros j Hj. apply H. by apply list_elem_of_further.
Qed.

Lemma zlen_seqZ a n : 0 <= n -> zlen (seqZ a n) = n.
Proof. intros Hn. unfold zlen. rewrite length_seqZ. lia. Qed.

Lemma concat_map_ext {A} (h h' : Z -> list A) l :
  (forall k, k ∈ l -> h k = h' k) -> concat (map h l) = concat (map h' l).
Proof.
  induction l as [|k l IH]; intros H; [done|]. cbn [map concat]. rewrite H by apply list_elem_of_here.
  f_equal. apply IH. intros j Hj. apply H. by apply list_elem_of_further.
Qed.

Lemma seqZ_split a n m : 0 <= n -> 0 <= m -> seqZ a (n + m) = seqZ a n ++ seqZ (a + n) m.
Proof. intros. apply seqZ_app; lia. Qed.

Lemma per_frame_frames wi wo bound g :
  0 <= wi -> (forall fr, zlen fr = wi -> zlen (g fr) = wo) -> FrameStage wi wo bound (per_frame wi g).
Proof.
  intros Hwi Hg. unfold per_frame. split.
  - done.
  - intros x n st y st' Hn Hx [= <- <-]. rewrite (zlen_concat_map _ wo), zlen_seqZ by
      (try lia; intros k Hk%elem_of_seqZ; apply Hg, zlen_rd; nia). done.
  - intros x n Hn Hx st. unfold ret. do 2 f_equal. apply concat_map_ext.
    intros k Hk%elem_of_seqZ. rewrite rd_rd by nia. by rewrite Z.add_0_l.
  - intros x y a b Ha Hb _ Hx Hy st. unfold bind, ret. do 2 f_equal.
    rewrite seqZ_split, map_app, concat_app by lia. f_equal.
    + apply concat_map_ext. intros k Hk%elem_of_seqZ. by rewrite rd_app_l by nia.
    + rewrite Z.add_0_l. replace (seqZ a b) with (map (Z.add a) (seqZ 0 b))
        by (rewrite fmap_add_seqZ; f_equal; lia).
      rewrite map_map. apply concat_map_ext. intros k Hk%elem_of_seqZ.
      rewrite rd_app_r by nia. do 2 f_equal. nia.
Qed.

#[export] Instance per_frame_stateless wi g : Stateless (per_frame wi g).
Proof. exists (fun x n => Some (concat (map (fun f => g (rd x (f * wi) wi)) (seqZ 0 n)))). done. Qed.

(** ** Format conversion *)

Section sample_arrays.
Context {A B : Type} (w w' : Z) (dec : list Z -> A) (enc : B -> list Z).
Hypothesis Hw : 0 < w.
Hypothesis Henc : forall b, zlen (enc b) = w'.

Lemma lcg_mapM_app (conv : A -> lcgM B) l l' :
  lcg_mapM conv (l ++ l') ≈
    bind (lcg_mapM conv l) (fun ys => bind (lcg_mapM conv l') (fun zs => ret (ys ++ zs))).
Proof.
  induction l as [|x l IH]; cbn [lcg_mapM app].
  - rewrite ret_bind. cbn [app]. by rewrite bind_ret.
  - rewrite bind_assoc. apply bind_proper; [done|]. intros y. rewrite IH, !bind_assoc.
    apply bind_proper; [done|]. intros ys. rewrite !bind_assoc, ret_bind.
    apply bind_proper; [done|]. intros zs. by rewrite ret_bind.
Qed.

Lemma lcg_mapM_length (conv : A -> lcgM B) l st ys st' :
  lcg_mapM conv l st = Some (ys, st') -> length ys = length l.
Proof.
  revert st ys. induction l as [|x l IH]; intros st ys H; cbn [lcg_mapM] in H.
  - by injection H as <- <-.
  - unfold bind in H. destruct (conv x st) as [[y st1]|]; [|done].
    destruct (lcg_mapM conv l st1) as [[zs st2]|] eqn:E; [|done]. injection H as <- <-.
    cbn [length]. by rewrite (IH _ _ E).
Qed.

Lemma split_samples_app n m (x y : list Z) :
  length x = (Z.to_nat w * n)%nat ->
  split_samples (Z.to_nat w) (n + m) (x ++ y)
  = split_samples (Z.to_nat w) n x ++ split_samples (Z.to_nat w) m y.
Proof.
  revert x. induction n as [|n IH]; intros x Hx.
  - destruct x; [done|simpl in Hx; lia].
  - cbn [split_samples Nat.add app]. rewrite take_app_le, drop_app_le by lia. f_equal.
    apply IH. rewrite length_drop. lia.
Qed.

Lemma length_split_samples v n (x : list Z) : length (split_samples v n x) = n.
Proof. revert x. induction n as [|n IH]; intros x; [done|]. cbn [split_samples length]. by rewrite IH. Qed.

Lemma split_samples_prefix n (x : list Z) :
  split_samples (Z.to_nat w) n x = split_samples (Z.to_nat w) n (take (Z.to_nat w * n) x).
Proof.
  revert x. induction n as [|n IH]; intros x; [done|]. cbn [split_samples].
  rewrite take_take, skipn_firstn_comm. f_equal; [f_equal; lia|].
  replace (Z.to_nat w * S n - Z.to_nat w)%nat with (Z.to_nat w * n)%nat by lia. apply IH.
Qed.

Lemma zlen_encoded (ys : list B) : zlen (concat (map enc ys)) = zlen ys * w'.
Proof.
  induction ys as [|y ys IH]; [done|]. cbn [map concat]. rewrite zlen_app, zlen_cons, Henc, IH. lia.
Qed.

(** A loop over samples is a stage, for frames of any number of channels. *)
Lemma pcm_loop_frames (conv : A -> lcgM B) ch bound :
  0 <= ch -> bound * ch < 2 ^ 64 ->
  FrameStage (w * ch) (w' * ch) bound (fun x n => pcm_loop (Z.to_nat w) dec conv enc x (u64 (n * ch))).
Proof.
  intros Hch Hb. assert (Hid : forall n, 0 <= n <= bound -> u64 (n * ch) = n * ch).
  { intros n Hn. apply wrapu_id. split; nia. }
  unfold pcm_loop, pcm_array. split.
  - done.
  - intros x n st y st' Hn Hx H. unfold bind in H. destruct (lcg_mapM _ _ st) as [[ys st1]|] eqn:E; [|done].
    injection H as <- <-. apply lcg_mapM_length in E. rewrite zlen_encoded.
    unfold zlen. rewrite E, length_map, length_split_samples, Hid by done.
    rewrite Z2Nat.id by nia. lia.
  - intros x n Hn Hx st. unfold rd. rewrite drop_0, Hid by done.
    rewrite split_samples_prefix.
    do 6 f_equal. nia.
  - intros x y a b Ha Hb' Hab Hx Hy. rewrite !Hid by lia. unfold zlen in *.
    rewrite Z.mul_add_distr_r, Z2Nat.inj_add by nia. rewrite split_samples_app by nia.
    rewrite map_app, lcg_mapM_app, !bind_assoc. apply bind_proper; [done|]. intros ys.
    rewrite !bind_assoc, ret_bind, !bind_assoc. apply bind_proper; [done|]. intros zs.
    rewrite !ret_bind, map_app, concat_app. done.
Qed.
End sample_arrays.

Lemma FrameStage_ext wi wo bound (f g : stage) :
  0 <= bound -> (forall x n, 0 <= n <= bound -> f x n ≈ g x n) ->
  FrameStage wi wo bound g -> FrameStage wi wo bound f.
Proof.
  intros Hb E Hg. split.
  - intros x. rewrite E by lia. apply stage_none.
  - intros x n st y st' Hn Hx H. rewrite E in H by done. by eapply stage_len.
  - intros x n Hn Hx. rewrite !E by done. by apply stage_prefix.
  - intros x y a b Ha Hb' Hab Hx Hy. rewrite !E by lia. setoid_rewrite E; [|lia].
    by apply stage_app.
Qed.

(** The format conversion of miniaudio without the vector unit. *)
Definition format_stage (formatOut formatIn : ma_format) (channels : Z) (dm : ma_dither_mode) : stage :=
  fun x n => ma_convert_pcm_frames_format None formatOut formatIn x n channels dm.

(** The conversions that draw random numbers. *)
Definition format_draws (formatOut formatIn : ma_format) (dm : ma_dither_mode) : bool :=
  match dm with
  | ma_dither_mode_none => false
  | _ =>
      match formatOut, formatIn with
      | ma_format_u8, (ma_format_s16 | ma_format_s24 | ma_format_s32 | ma_format_f32)
      | ma_format_s16, (ma_format_s24 | ma_format_s32 | ma_format_f32) => true
      | _, _ => false
      end
  end.

Lemma ma_pcm_f32_to_s16_loop dm l : ma_pcm_f32_to_s16 None dm l ≈ lcg_mapM (ma_pcm_f32_to_s16__reference dm) l.
Proof. intros st. apply f32_unrolled. Qed.

#[export] Instance format_stage_frames fo fi ch dm bound :
  fo <> ma_format_unknown -> fi <> ma_format_unknown -> 0 <= bound -> 0 <= ch -> bound * ch * 4 < 2 ^ 64 ->
  FrameStage (ma_get_bytes_per_sample fi * ch) (ma_get_bytes_per_sample fo * ch) bound
    (format_stage fo fi ch dm).
Proof.
  intros Ho Hi Hb0 Hch Hb. unfold format_stage, ma_convert_pcm_frames_format, ma_pcm_convert.
  destruct (decide (fo = fi)) as [<-|Hne].
  - apply (FrameStage_ext _ _ _ _ (no_stage (ma_get_bytes_per_sample fo * ch))); [done| |].
    + intros x n Hn st. unfold no_stage, ret. do 3 f_equal. unfold u64.
      assert (0 <= n * ch) by nia. rewrite (wrapu_id 64 (n * ch)) by (split; nia).
      rewrite wrapu_id by (destruct fo; cbn [ma_get_bytes_per_sample] in *; split; nia). lia.
    + apply no_stage_frames. destruct fo; cbn [ma_get_bytes_per_sample]; lia.
  - destruct fi, fo; try done;
      try (match goal with |- FrameStage (ma_get_bytes_per_sample ?a * _) (ma_get_bytes_per_sample ?b * _) _ _ =>
             apply (pcm_loop_frames (ma_get_bytes_per_sample a) (ma_get_bytes_per_sample b)) end;
           [reflexivity|intros x; try destruct x as [[? ?] ?]; reflexivity|lia|lia]).
    apply (FrameStage_ext _ _ _ _ (fun x n => pcm_loop 4 sample_f32 (ma_pcm_f32_to_s16__reference dm) bytes_s16
             x (u64 (n * ch)))); [done| |].
    + intros x n Hn. unfold pcm_loop, pcm_array. by rewrite ma_pcm_f32_to_s16_loop.
    + apply (pcm_loop_frames 4 2); [lia|by intros|lia|lia].
Qed.

(** A conversion of a sample that draws nothing. *)
Definition draws_nothing {A B} (conv : A -> lcgM B) : Prop :=
  forall x, conv x ≈ lift (option_map fst (conv x 0)).

Lemma pure_draws_nothing {A B} (f : A -> B) : draws_nothing (pure f).
Proof. done. Qed.

Lemma part_draws_nothing {A B} (f : A -> option B) : draws_nothing (part f).
Proof. intros x st. unfold part, lift. by destruct (f x). Qed.

Lemma pcm_loop_stateless {A B} w dec (conv : A -> lcgM B) enc ch :
  draws_nothing conv -> Stateless (fun x n => pcm_loop w dec conv enc x (u64 (n * ch))).
Proof.
  intros Hg. set (g x := option_map fst (conv x 0)).
  assert (Hl : forall l, lcg_mapM conv l ≈ lift (mapM g l)).
  { induction l as [|x l IH]; intros st; [done|]. cbn [lcg_mapM]. unfold bind. rewrite Hg. simpl mapM.
    change (option_map fst (conv x 0)) with (g x).
    destruct (g x) as [y|]; cbn [lift mbind option_bind]; [|done]. rewrite IH.
    by destruct (mapM g l). }
  exists (fun x n => option_map (fun ys => concat (map enc ys))
    (mapM g (map dec (split_samples w (Z.to_nat (u64 (n * ch))) x)))).
  intros x n st. unfold pcm_loop, pcm_array, bind. rewrite Hl.
  by destruct (mapM g (map dec _)) as [ys|].
Qed.

Lemma Stateless_ext (f g : stage) : (forall x n, f x n ≈ g x n) -> Stateless g -> Stateless f.
Proof. intros E [h Hh]. exists h. intros x n. by rewrite E. Qed.

Lemma format_stage_stateless fo fi ch dm :
  format_draws fo fi dm = false -> Stateless (format_stage fo fi ch dm).
Proof.
  intros H. unfold format_stage, ma_convert_pcm_frames_format, ma_pcm_convert.
  destruct (decide (fo = fi)) as [<-|Hne].
  { by exists (fun x n => Some (rd x 0 (u64 (u64 (n * ch) * ma_get_bytes_per_sample fo)))). }
  destruct fi, fo; try done; try (by exists (fun _ _ => Some []));
    try (apply pcm_loop_stateless; apply pure_draws_nothing || apply part_draws_nothing);
    destruct dm; try discriminate H.
  all: try (apply pcm_loop_stateless; intros x st; reflexivity).
  - apply pcm_loop_stateless. apply (part_draws_nothing (fun x => sf_to_u 8 (f32_mul (f32_add
      (f32_clip (f32_add x f32_zero)) f32_one) (f32_lit 1275 10)))).
  - apply (Stateless_ext _ (fun x n => pcm_loop 4 sample_f32
      (part (fun x => f32_to_s16_scaled x f32_zero)) bytes_s16 x (u64 (n * ch)))).
    + intros x n. unfold pcm_loop, pcm_array. by rewrite ma_pcm_f32_to_s16_loop.
    + apply pcm_loop_stateless, part_draws_nothing.
Qed.

(** *** Conversions that are defined for all samples *)

Definition always {A B} (conv : A -> lcgM B) : Prop := forall x, exists y, conv x ≈ ret y.

Lemma lcg_mapM_always {A B} (conv : A -> lcgM B) : always conv -> always (lcg_mapM conv).
Proof.
  intros H l. induction l as [|x l (ys & Hl)]; [by exists []|]. destruct (H x) as (y & Hy).
  exists (y :: ys). cbn [lcg_mapM]. by rewrite Hy, ret_bind, Hl, ret_bind.
Qed.

Lemma pcm_loop_always {A B} w dec (conv : A -> lcgM B) enc x n :
  always conv -> exists y, pcm_loop w dec conv enc x n ≈ ret y.
Proof.
  intros H. unfold pcm_loop, pcm_array. destruct (lcg_mapM_always conv H (map dec (split_samples w (Z.to_nat n) x))) as (ys & Hy).
  exists (concat (map enc ys)). by rewrite Hy.
Qed.

Lemma format_stage_always fo fi ch dm x n :
  fi <> ma_format_f32 -> format_draws fo fi dm = false -> exists y, format_stage fo fi ch dm x n ≈ ret y.
Proof.
  intros Hi Hd. unfold format_stage, ma_convert_pcm_frames_format, ma_pcm_convert.
  destruct (decide (fo = fi)) as [<-|Hne]; [by eexists|].
  destruct fi, fo; try done; try (by eexists); apply pcm_loop_always; intros v; try (by eexists);
    destruct dm; try discriminate Hd; by eexists.
Qed.
