(* ===== verification/ChannelFrames.v ===== *)
(** * Channel conversion frame by frame

    Whatever its path, a channel converter treats every frame on its own: converting a
    buffer is converting its frames one after the other.  With this the channel converter
    is a stage in the sense of Stages.v. *)
From Stdlib Require Import ZArith Lia Bool SpecFloat.
From stdpp Require Import base numbers list option.
From S2P Require Import Prelude MaTypes CFloat PcmFormat PcmFormatProps ChannelMap Biquad Loops ChannelConverter ChannelConverterProps Stages.

Local Open Scope Z_scope.

(** What a converter that was initialised satisfies; a shuffle of 24-bit samples is left
    out, since its loop leaves the buffer. *)
Record cc_ready (c : ma_channel_converter) : Prop := {
  ready_in : 0 < cc_channelsIn c <= MA_MAX_CHANNELS;
  ready_out : 0 < cc_channelsOut c <= MA_MAX_CHANNELS;
  ready_format : cc_format c <> ma_format_unknown;
  ready_mono_in : cc_conversionPath c = ma_channel_conversion_path_mono_in -> cc_channelsIn c = 1;
  ready_mono_out : cc_conversionPath c = ma_channel_conversion_path_mono_out -> cc_channelsOut c = 1;
  ready_same : cc_conversionPath c = ma_channel_conversion_path_passthrough ->
    cc_channelsIn c = cc_channelsOut c;
  ready_shuffle : cc_conversionPath c = ma_channel_conversion_path_shuffle ->
    Forall (fun k => 0 <= k) (cc_pShuffleTable c) /\ cc_format c <> ma_format_s24 }.

Definition cc_width (c : ma_channel_converter) : Z := ma_get_bytes_per_sample (cc_format c).
Definition cc_frame_in (c : ma_channel_converter) : Z := cc_width c * cc_channelsIn c.
Definition cc_frame_out (c : ma_channel_converter) : Z := cc_width c * cc_channelsOut c.

(** One frame, converted by a call of its own. *)
Definition frame_out (c : ma_channel_converter) (fr : list Z) : list Z :=
  match ma_channel_converter_process_pcm_frames c (zrep (cc_frame_out c) 0) (Some fr) 1 with
  | Some (_, y) => y
  | None => []
  end.

(** The place of a sample in a buffer of [F] frames. *)
Lemma sample_place F f ch o w :
  0 <= f < F -> 0 <= o < ch -> 0 < w ->
  0 <= (f * ch + o) * w /\ (f * ch + o) * w + w <= F * (w * ch) /\ f * ch + o < F * ch.
Proof.
  intros Hf Ho Hw. assert (f * ch + o + 1 <= F * ch) by nia. assert (0 <= f * ch + o) by nia.
  split_and!; nia.
Qed.

(** ** The samples of the output *)

Definition mono_cell (c : ma_channel_converter) (x : list Z) (f : Z) : list Z :=
  let n := cc_channelsIn c in
  match cc_format c with
  | ma_format_u8 => bytes_u8 (ma_clip_u8 (s32 (u32 (mono_out_sum 1 (fun t x =>
      s32 (t + ma_pcm_sample_u8_to_s16_no_scale (sample_u8 x))) 0 n x f) / cc_channelsOut c)))
  | ma_format_s16 => bytes_s16 (s16 (u32 (mono_out_sum 2 (fun t x => s32 (t + sample_s16 x)) 0 n x f) / n))
  | ma_format_s24 => bytes_s24 (ma_pcm_sample_s32_to_s24_no_scale (Z.quot (mono_out_sum 3 (fun t x =>
      s64 (t + ma_pcm_sample_s24_to_s32_no_scale (sample_s24 x))) 0 n x f) n))
  | ma_format_s32 => bytes_s32 (s32 (Z.quot (mono_out_sum 4 (fun t x => s64 (t + sample_s32 x)) 0 n x f) n))
  | ma_format_f32 => bytes_f32 (f32_div (mono_out_sum 4 (fun t x => f32_add t (sample_f32 x)) f32_zero n x f)
      (f32_of_Z n))
  | ma_format_unknown => []
  end.

(** Sample [o] of frame [f], from the whole input. *)
Definition cc_cell (c : ma_channel_converter) (x : list Z) (f o : Z) : list Z :=
  let w := cc_width c in
  match cc_conversionPath c with
  | ma_channel_conversion_path_passthrough => cell w x (f * cc_channelsIn c + o)
  | ma_channel_conversion_path_mono_out => mono_cell c x f
  | ma_channel_conversion_path_mono_in => cell w x (f * cc_channelsIn c)
  | ma_channel_conversion_path_shuffle =>
      let i := nth (Z.to_nat o) (cc_pShuffleTable c) 0 in
      if i <? cc_channelsIn c then cell w x (f * cc_channelsIn c + i) else zrep w 0
  | _ => mixed (accumulate_of (cc_format c)) w c x f o
  end.

(** A sample depends on its frame only. *)
Section local.
Context (c : ma_channel_converter) (Hc : cc_ready c).
Context (x : list Z) (F f : Z).
Hypothesis HF : 0 <= f < F.
Hypothesis Hx : F * cc_frame_in c <= zlen x.
Hypothesis H32 : F * cc_frame_in c < 2 ^ 32.

Lemma cc_width_pos : 0 < cc_width c.
Proof using Hc. pose proof (ready_format _ Hc). unfold cc_width. by destruct (cc_format c). Qed.

Lemma frame_cell i :
  0 <= i < cc_channelsIn c ->
  cell (cc_width c) x (f * cc_channelsIn c + i)
  = cell (cc_width c) (rd x (f * cc_frame_in c) (cc_frame_in c)) (0 * cc_channelsIn c + i).
Proof using Hc HF Hx.
  intros Hi. pose proof cc_width_pos as Hw. unfold cell, cc_frame_in in *.
  assert (0 <= i * cc_width c) by nia. assert (i * cc_width c + cc_width c <= cc_width c * cc_channelsIn c) by nia.
  assert (0 <= f * (cc_width c * cc_channelsIn c)) by nia.
  rewrite rd_rd by lia. f_equal. lia.
Qed.

Lemma frame_sum_local {T} add (zero : T) :
  mono_out_sum (cc_width c) add zero (cc_channelsIn c) x f
  = mono_out_sum (cc_width c) add zero (cc_channelsIn c) (rd x (f * cc_frame_in c) (cc_frame_in c)) 0.
Proof using Hc HF Hx H32.
  pose proof cc_width_pos. pose proof (ready_in _ Hc). unfold mono_out_sum. apply for_loop_ext.
  intros i t Hi. f_equal. unfold cc_frame_in in *.
  assert (0 <= f * cc_channelsIn c) by nia.
  assert (cc_channelsIn c <= cc_width c * cc_channelsIn c) by nia.
  assert (F * cc_channelsIn c <= F * (cc_width c * cc_channelsIn c)) by (apply Z.mul_le_mono_nonneg_l; lia).
  assert (f * cc_channelsIn c + i < F * cc_channelsIn c) by nia.
  unfold u64. rewrite (wrapu_id 64 (f * _)), (wrapu_id 64 (0 * _)) by (split; lia).
  rewrite !wrapu_id by (split; lia). apply frame_cell. lia.
Qed.

Lemma cc_cell_local o :
  0 <= o < cc_channelsOut c ->
  cc_cell c x f o = cc_cell c (rd x (f * cc_frame_in c) (cc_frame_in c)) 0 o.
Proof using Hc HF Hx H32.
  intros Ho. pose proof (ready_in _ Hc). unfold cc_cell. destruct (cc_conversionPath c) eqn:Hp.
  - unfold mixed. apply for_loop_ext. intros i t Hi. f_equal. apply frame_cell. lia.
  - apply frame_cell. pose proof (ready_same _ Hc Hp). lia.
  - unfold mono_cell. pose proof (fun T => @frame_sum_local T) as E. unfold cc_width in E.
    destruct (cc_format c); cbn [ma_get_bytes_per_sample] in E; by rewrite ?E.
  - pose proof (frame_cell 0 ltac:(lia)) as E. by rewrite !Z.add_0_r in E.
  - cbv zeta. destruct (Z.ltb_spec (nth (Z.to_nat o) (cc_pShuffleTable c) 0) (cc_channelsIn c)); [|done].
    apply frame_cell. destruct (ready_shuffle _ Hc Hp) as (Ht & _). split; [|done].
    destruct (nth_in_or_default (Z.to_nat o) (cc_pShuffleTable c) 0) as [Hin| ->]; [|lia].
    rewrite Forall_forall in Ht. by apply Ht.
  - unfold mixed. apply for_loop_ext. intros i t Hi. f_equal. apply frame_cell. lia.
Qed.
End local.

(** ** Processing computes the samples *)

(** [r] is the output buffer [out] with its first [F] frames replaced by those of [x]. *)
Definition converted (c : ma_channel_converter) (x : list Z) (F : Z) (out r : list Z) : Prop :=
  zlen r = zlen out
  /\ (forall f o, 0 <= f < F -> 0 <= o < cc_channelsOut c ->
        cell (cc_width c) r (f * cc_channelsOut c + o) = cc_cell c x f o)
  /\ (forall j, F * cc_channelsOut c <= j -> cell (cc_width c) r j = cell (cc_width c) out j).

Section process.
Context (c : ma_channel_converter) (Hc : cc_ready c).
Context (x out : list Z) (F : Z).
Hypothesis HF : 0 <= F.
Hypothesis Hx : F * cc_frame_in c <= zlen x.
Hypothesis Hout : F * cc_frame_out c <= zlen out.
Hypothesis H32 : F * cc_frame_in c < 2 ^ 32 /\ F * cc_frame_out c < 2 ^ 32.

Abbreviation result := (ma_channel_converter_process_pcm_frames c out (Some x) F).

Lemma process_passthrough :
  cc_conversionPath c = ma_channel_conversion_path_passthrough ->
  exists r, result = Some (MA_SUCCESS, r) /\ converted c x F out r.
Proof using All.
  intros Hp. unfold ma_channel_converter_process_pcm_frames, ma_channel_converter_process_pcm_frames__passthrough.
  rewrite Hp. eexists. split; [done|].
  pose proof (cc_width_pos c Hc). pose proof (ready_same _ Hc Hp) as E. pose proof (ready_out _ Hc).
  unfold ma_get_bytes_per_frame. fold (cc_width c). fold (cc_frame_out c).
  unfold cc_frame_in in *. rewrite E in Hx, H32. fold (cc_frame_out c) in Hx, H32.
  assert (Hn : F = 0 \/ u64 (F * u32 (cc_frame_out c)) = F * cc_frame_out c).
  { destruct (decide (F = 0)); [by left|right]. unfold u64, u32. unfold cc_frame_out in *.
    rewrite (wrapu_id 32) by (split; nia). apply wrapu_id. split; nia. }
  destruct Hn as [->| ->].
  { rewrite Z.mul_0_l. change (u64 0) with 0. rewrite rd_0, wr_nil. split; [done|]. split; [lia|done]. }
  assert (Hl : zlen (rd x 0 (F * cc_frame_out c)) = F * cc_frame_out c) by (apply zlen_rd; unfold cc_frame_out in *; nia).
  split; [apply zlen_wr; lia|]. unfold cc_cell. rewrite Hp, E. unfold cell. split.
  - intros f o Hf Ho. unfold cc_frame_out in *.
    destruct (sample_place F f (cc_channelsOut c) o (cc_width c)) as (? & ? & _); [done..|].
    replace ((f * cc_channelsOut c + o) * cc_width c) with (0 + (f * cc_channelsOut c + o) * cc_width c) at 1 by lia.
    rewrite rd_wr_inside by (rewrite ?Hl; lia). by rewrite rd_rd by lia.
  - intros j Hj. apply rd_wr_after; rewrite ?Hl; [lia| |lia]. unfold cc_frame_out in *. nia.
Qed.
Lemma process_mono_in :
  cc_conversionPath c = ma_channel_conversion_path_mono_in ->
  exists r, result = Some (MA_SUCCESS, r) /\ converted c x F out r.
Proof using All.
  intros Hp. pose proof (cc_width_pos c Hc) as Hw. pose proof (ready_mono_in _ Hc Hp) as E1.
  pose proof (ready_out _ Hc). unfold cc_frame_in, cc_frame_out in *. rewrite E1 in Hx, H32.
  assert (cc_channelsOut c <= cc_width c * cc_channelsOut c) by nia.
  assert (F * cc_channelsOut c <= F * (cc_width c * cc_channelsOut c)) by (apply Z.mul_le_mono_nonneg_l; lia).
  destruct (mono_in_samples_spec (cc_width c) out (cc_channelsOut c) x F) as (Hl & Hcell & Ht);
    [lia|lia|lia|lia|lia|lia|].
  exists (mono_in_samples (cc_width c) (cc_channelsOut c) out x F). split.
  - unfold ma_channel_converter_process_pcm_frames, ma_channel_converter_process_pcm_frames__mono_in, cc_width.
    rewrite Hp. pose proof (ready_format _ Hc). destruct (cc_format c); try done;
      (destruct (Z.eqb_spec (cc_channelsOut c) 2) as [->|]; [|done]);
      by rewrite mono_in_stereo_eq by lia.
  - split; [done|]. unfold cc_cell. rewrite Hp, E1. split; [|done].
    intros f o Hf Ho. rewrite Z.mul_1_r. by apply Hcell.
Qed.

Lemma mono_out_converted {T} (add : T -> list Z -> T) zero store :
  cc_conversionPath c = ma_channel_conversion_path_mono_out ->
  (forall t, zlen (store t) = cc_width c) ->
  (forall f, mono_cell c x f = store (mono_out_sum (cc_width c) add zero (cc_channelsIn c) x f)) ->
  converted c x F out (mono_out_samples (cc_width c) add zero store (cc_channelsIn c) out x F).
Proof using All.
  intros Hp Hs Hm. pose proof (cc_width_pos c Hc) as Hw. pose proof (ready_mono_out _ Hc Hp) as E1.
  unfold cc_frame_out in Hout. rewrite E1 in Hout.
  destruct (mono_out_samples_spec (cc_width c) add zero store (cc_channelsIn c) out x F) as (Hl & Hcell & Ht);
    [lia|lia|lia|done|].
  split; [done|]. unfold cc_cell. rewrite Hp, E1. split.
  - intros f o Hf Ho. replace (f * 1 + o) with f by lia. by rewrite Hm, <- Hcell.
  - intros j Hj. apply Ht. lia.
Qed.

Lemma process_mono_out :
  cc_conversionPath c = ma_channel_conversion_path_mono_out ->
  exists r, result = Some (MA_SUCCESS, r) /\ converted c x F out r.
Proof using All.
  intros Hp. pose proof (ready_format _ Hc) as Hfmt.
  pose proof (fun T => @mono_out_converted T) as H. unfold mono_cell, cc_width in H.
  unfold ma_channel_converter_process_pcm_frames, ma_channel_converter_process_pcm_frames__mono_out.
  rewrite Hp. destruct (cc_format c); try done; cbn [ma_get_bytes_per_sample] in H;
    eexists; (split; [reflexivity|]); apply H; try done.
Qed.

Lemma process_shuffle :
  cc_conversionPath c = ma_channel_conversion_path_shuffle ->
  exists r, result = Some (MA_SUCCESS, r) /\ converted c x F out r.
Proof using All.
  intros Hp. pose proof (cc_width_pos c Hc) as Hw. destruct (ready_shuffle _ Hc Hp) as (Ht & H24).
  pose proof (ready_format _ Hc) as Hfmt. pose proof (ready_in _ Hc). pose proof (ready_out _ Hc).
  unfold cc_frame_in, cc_frame_out in *.
  destruct (shuffle_samples_spec (cc_width c) out (cc_channelsOut c) x (cc_channelsIn c) F
    (cc_pShuffleTable c)) as (Hl & Hcell & Htail); [lia..|done|].
  exists (shuffle_samples (cc_width c) out (cc_channelsOut c) x (cc_channelsIn c) F (cc_pShuffleTable c)).
  split.
  - unfold ma_channel_converter_process_pcm_frames. rewrite Hp.
    unfold ma_channel_converter_process_pcm_frames__shuffle, ma_channel_map_apply_shuffle_table, cc_width.
    rewrite (proj2 (Z.eqb_neq _ 0)) by lia. by destruct (cc_format c).
  - split; [done|]. unfold cc_cell. by rewrite Hp.
Qed.

Lemma process_weights :
  cc_conversionPath c = ma_channel_conversion_path_weights
  \/ cc_conversionPath c = ma_channel_conversion_path_unknown ->
  exists r, result = Some (MA_SUCCESS, r) /\ converted c x F out r.
Proof using All.
  intros Hp. pose proof (cc_width_pos c Hc) as Hw. pose proof (ready_format _ Hc).
  pose proof (ready_in _ Hc). pose proof (ready_out _ Hc). unfold cc_frame_in, cc_frame_out in *.
  set (w := cc_width c) in *.
  set (z := wr out 0 (zrep (u64 (F * ma_get_bytes_per_frame (cc_format c) (cc_channelsOut c))) 0)).
  assert (Hn : u64 (F * ma_get_bytes_per_frame (cc_format c) (cc_channelsOut c)) = F * cc_channelsOut c * w).
  { destruct (decide (F = 0)) as [->|HF0]; [done|]. unfold ma_get_bytes_per_frame. fold (cc_width c). fold w.
    unfold u64, u32. rewrite (wrapu_id 32) by (split; nia). rewrite wrapu_id by (split; nia). lia. }
  assert (Hlz : zlen (zrep (F * cc_channelsOut c * w) 0) = F * cc_channelsOut c * w) by (apply zlen_zrep; nia).
  assert (Hzl : zlen z = zlen out) by (apply zlen_wr; rewrite ?Hn, ?Hlz; lia).
  destruct (weights_samples_spec w (accumulate_of (cc_format c)) (cc_channelsIn c) (cc_channelsOut c)
    (cc_weights c) x F Hw ltac:(intros; by apply zlen_accumulate) ltac:(lia) ltac:(lia) z) as (Hl & Hcell & Ht); [lia|].
  exists (weights_samples w (accumulate_of (cc_format c)) (cc_channelsIn c) (cc_channelsOut c)
    (cc_weights c) z x F). split; [|split; [lia|split]].
  - unfold ma_channel_converter_process_pcm_frames, ma_channel_converter_process_pcm_frames__weights.
    fold z. rewrite (proj2 (Z.ltb_lt F (2 ^ 32))) by nia.
    destruct Hp as [-> | ->]; unfold w, cc_width; by destruct (cc_format c).
  - intros f o Hf Ho. destruct (sample_place F f (cc_channelsOut c) o w) as (? & ? & ?); [done..|].
    rewrite Hcell by done. unfold cc_cell. fold w.
    transitivity (mixed (accumulate_of (cc_format c)) w c x f o); [|by destruct Hp as [-> | ->]].
    unfold mixed. f_equal. unfold z, cell. rewrite Hn.
    rewrite <- (Z.add_0_l ((f * cc_channelsOut c + o) * w)), rd_wr_inside by (rewrite ?Hlz; lia).
    apply rd_zrep; lia.
  - intros j Hj. rewrite Ht by done. unfold z, cell. apply rd_wr_after; rewrite ?Hn, ?Hlz; nia.
Qed.
End process.

(** ** One frame at a time *)

Lemma process_converted c x out F :
  cc_ready c -> 0 <= F -> F * cc_frame_in c <= zlen x -> F * cc_frame_out c <= zlen out ->
  F * cc_frame_in c < 2 ^ 32 -> F * cc_frame_out c < 2 ^ 32 ->
  exists r, ma_channel_converter_process_pcm_frames c out (Some x) F = Some (MA_SUCCESS, r)
    /\ converted c x F out r.
Proof.
  intros Hc HF Hx Hout Hi Ho. destruct (cc_conversionPath c) eqn:Hp.
  - apply process_weights; auto.
  - by apply process_passthrough.
  - by apply process_mono_out.
  - by apply process_mono_in.
  - by apply process_shuffle.
  - apply process_weights; auto.
Qed.

Lemma frame_sizes c : cc_ready c -> 0 < cc_frame_in c <= 1016 /\ 0 < cc_frame_out c <= 1016.
Proof.
  intros Hc. pose proof (cc_width_pos c Hc). pose proof (ready_in _ Hc). pose proof (ready_out _ Hc).
  assert (cc_width c <= 4) by (unfold cc_width; destruct (cc_format c); cbn; lia).
  unfold cc_frame_in, cc_frame_out, MA_MAX_CHANNELS in *. split; nia.
Qed.

Lemma frame_out_spec c fr :
  cc_ready c -> zlen fr = cc_frame_in c ->
  zlen (frame_out c fr) = cc_frame_out c
  /\ forall o, 0 <= o < cc_channelsOut c -> cell (cc_width c) (frame_out c fr) o = cc_cell c fr 0 o.
Proof.
  intros Hc Hfr. pose proof (frame_sizes c Hc).
  destruct (process_converted c fr (zrep (cc_frame_out c) 0) 1) as (r & E & Hl & Hcell & _);
    rewrite ?zlen_zrep; try lia; [done|].
  unfold frame_out. rewrite E. rewrite zlen_zrep in Hl by lia. split; [done|]. intros o Ho.
  by rewrite <- Hcell, Z.mul_0_l, Z.add_0_l by lia.
Qed.

Lemma rd_concat_map (h : Z -> list Z) wo F f :
  0 <= f < F -> 0 <= wo -> (forall k, 0 <= k < F -> zlen (h k) = wo) ->
  rd (concat (map h (seqZ 0 F))) (f * wo) wo = h f.
Proof.
  intros Hf Hw Hh. replace F with (f + (1 + (F - f - 1))) by lia.
  rewrite !seqZ_split, !map_app, !concat_app by lia.
  assert (Hl : zlen (concat (map h (seqZ 0 f))) = f * wo).
  { rewrite (zlen_concat_map _ wo), zlen_seqZ by (try lia; intros k Hk%elem_of_seqZ; apply Hh; lia). done. }
  rewrite rd_app_r by lia. rewrite Hl, Z.sub_diag, seqZ_cons, (seqZ_nil _ (Z.pred 1)) by lia.
  cbn [map concat]. rewrite app_nil_r, Z.add_0_l.
  rewrite rd_app_l by (rewrite ?Hh; lia). transitivity (rd (h f) 0 (zlen (h f))); [f_equal; rewrite Hh; lia|].
  apply rd_all.
Qed.

(** The frames of [x], each converted by a call of its own. *)
Definition frames_of (c : ma_channel_converter) (x : list Z) (F : Z) : list Z :=
  concat (map (fun f => frame_out c (rd x (f * cc_frame_in c) (cc_frame_in c))) (seqZ 0 F)).

Lemma frames_of_spec c x F :
  cc_ready c -> 0 <= F -> F * cc_frame_in c <= zlen x -> F * cc_frame_in c < 2 ^ 32 ->
  zlen (frames_of c x F) = F * cc_frame_out c
  /\ forall f o, 0 <= f < F -> 0 <= o < cc_channelsOut c ->
       cell (cc_width c) (frames_of c x F) (f * cc_channelsOut c + o) = cc_cell c x f o.
Proof.
  intros Hc HF Hx H32. pose proof (frame_sizes c Hc) as (Hwi & Hwo).
  assert (Hfr : forall f, 0 <= f < F -> zlen (rd x (f * cc_frame_in c) (cc_frame_in c)) = cc_frame_in c).
  { intros f Hf. apply zlen_rd; nia. }
  assert (Hl : forall f, 0 <= f < F -> zlen (frame_out c (rd x (f * cc_frame_in c) (cc_frame_in c))) = cc_frame_out c).
  { intros f Hf. by apply frame_out_spec, Hfr. }
  unfold frames_of. split.
  { rewrite (zlen_concat_map _ (cc_frame_out c)), zlen_seqZ by
      (try lia; intros k Hk%elem_of_seqZ; apply Hl; lia). done. }
  intros f o Hf Ho. set (h f := frame_out c (rd x (f * cc_frame_in c) (cc_frame_in c))) in *.
  transitivity (cell (cc_width c) (rd (concat (map h (seqZ 0 F))) (f * cc_frame_out c) (cc_frame_out c)) o).
  - pose proof (cc_width_pos c Hc) as Hw. unfold cell, cc_frame_out in *.
    assert (0 <= o * cc_width c) by nia. assert (o * cc_width c + cc_width c <= cc_width c * cc_channelsOut c) by nia.
    rewrite rd_rd by nia. f_equal. lia.
  - rewrite rd_concat_map by (try lia; apply Hl). unfold h.
    destruct (frame_out_spec c (rd x (f * cc_frame_in c) (cc_frame_in c)) Hc (Hfr f Hf)) as (_ & Hcell).
    rewrite Hcell by done. symmetry. by apply (cc_cell_local c Hc x F f).
Qed.

(** A channel converter treats every frame on its own: on each of the five paths, and
    whatever the output buffer held, converting [F] frames writes what one call per frame
    writes, and leaves the rest of the buffer alone. *)
Lemma process_frames c x out F M :
  cc_ready c -> 0 <= F -> F * cc_frame_in c <= zlen x ->
  zlen out = M * cc_width c -> F * cc_channelsOut c <= M ->
  F * cc_frame_in c < 2 ^ 32 -> F * cc_frame_out c < 2 ^ 32 ->
  ma_channel_converter_process_pcm_frames c out (Some x) F
  = Some (MA_SUCCESS, wr out 0 (frames_of c x F)).
Proof.
  intros Hc HF Hx Hout HM Hi Ho. pose proof (frame_sizes c Hc) as (Hwi & Hwo).
  pose proof (cc_width_pos c Hc) as Hw. pose proof (ready_out _ Hc) as Hco.
  assert (HFo : F * cc_frame_out c <= zlen out) by (unfold cc_frame_out; nia).
  destruct (process_converted c x out F) as (r & -> & Hl & Hcell & Ht); [done..|].
  destruct (frames_of_spec c x F) as (Hfl & Hfc); [done|lia|done|done|].
  do 2 f_equal. apply (cells_eq (cc_width c) Hw) with (n := M); [nia| | |].
  - by rewrite Hl, Hout.
  - by rewrite zlen_wr by (rewrite ?Hfl; lia).
  - intros k Hk. destruct (Z.ltb_spec k (F * cc_channelsOut c)) as [Hlt|Hge].
    + pose proof (Z.div_mod k (cc_channelsOut c) ltac:(lia)) as Ek.
      pose proof (Z.mod_pos_bound k (cc_channelsOut c) ltac:(lia)) as Hm.
      assert (Hf : 0 <= k / cc_channelsOut c < F).
      { split; [apply Z.div_pos; lia|]. apply Z.div_lt_upper_bound; lia. }
      rewrite Ek, (Z.mul_comm (cc_channelsOut c)). rewrite Hcell, <- Hfc by done.
      destruct (sample_place F (k / cc_channelsOut c) (cc_channelsOut c) (k mod cc_channelsOut c) (cc_width c))
        as (? & ? & _); [done..|]. unfold cell.
      rewrite <- (Z.add_0_l (_ * cc_width c)) at 2. rewrite rd_wr_inside; [done|lia|zl|lia|].
      rewrite Hfl. unfold cc_frame_out. lia.
    + rewrite Ht by lia. unfold cell. symmetry. apply rd_wr_after; rewrite ?Hfl; unfold cc_frame_out in *; nia.
Qed.

(** ** The converter that initialisation makes *)

Lemma is_mono_channels m n : is_mono m n = true -> n = 1.
Proof. unfold is_mono. by intros [?%Z.eqb_eq _]%andb_true_iff. Qed.

(** What the choice of a path says of the channels. *)
Lemma conversion_path_channels mIn chIn mOut chOut mode :
  match ma_channel_map_get_conversion_path mIn chIn mOut chOut mode with
  | ma_channel_conversion_path_passthrough => chIn = chOut
  | ma_channel_conversion_path_mono_out => chOut = 1
  | ma_channel_conversion_path_mono_in => chIn = 1
  | ma_channel_conversion_path_shuffle => chIn = chOut
  | ma_channel_conversion_path_weights => True
  | ma_channel_conversion_path_unknown => False
  end.
Proof.
  unfold ma_channel_map_get_conversion_path. destruct (ma_channel_map_is_passthrough _ _ _ _) eqn:Ep.
  { unfold ma_channel_map_is_passthrough in Ep. by destruct (Z.eqb_spec chOut chIn). }
  destruct (is_mono mOut chOut) eqn:Eo; [by eapply is_mono_channels|].
  destruct (is_mono mIn chIn) eqn:Ei; [by eapply is_mono_channels|].
  destruct (decide _); [done|]. destruct ((chIn =? chOut) && _) eqn:Es; [|done].
  by apply andb_true_iff in Es as [?%Z.eqb_eq _].
Qed.

Lemma init_ready cfg c :
  config_ok cfg -> ccc_format cfg <> ma_format_unknown -> ccc_format cfg <> ma_format_s24 ->
  ma_channel_converter_init_preallocated (Some cfg) = Some (MA_SUCCESS, c) -> cc_ready c.
Proof.
  intros Hok Hf H24 Hinit. pose proof Hok as (Hri & Hro & _).
  destruct (init_preallocated_initialised _ _ Hok Hinit)
    as (Hci & Hco & Ef & Ei & Eo & _ & Emi & Emo & Ep & Htab & _).
  pose proof (conversion_path_channels (ccc_pChannelMapIn cfg) (ccc_channelsIn cfg) (ccc_pChannelMapOut cfg)
    (ccc_channelsOut cfg) (ccc_mixingMode cfg)) as H.
  fold (ma_channel_converter_config_get_conversion_path cfg) in H. rewrite <- Ep, <- Ei, <- Eo in H.
  split; [lia|lia|congruence| | | |]; intros Hp; try (by rewrite Hp in H).
  split; [|congruence]. destruct (Htab Hp) as (Hlt & Ht). apply Forall_forall. intros k Hk.
  apply (In_nth _ _ 0) in Hk as (j & Hj & <-). rewrite <- (Nat2Z.id j), Ht by (unfold zlen in *; lia).
  apply shuffle_entry_range. unfold MA_CHANNEL_INDEX_NULL. lia.
Qed.

(** ** The channel converter as a stage *)

Definition max_frames : Z := 2 ^ 22.

Definition channel_stage (c : ma_channel_converter) : stage := per_frame (cc_frame_in c) (frame_out c).

#[export] Instance channel_stage_frames c :
  cc_ready c -> FrameStage (cc_frame_in c) (cc_frame_out c) max_frames (channel_stage c).
Proof.
  intros Hc. pose proof (frame_sizes c Hc). apply per_frame_frames; [lia|].
  intros fr Hfr. by apply frame_out_spec.
Qed.

Lemma channel_stage_eq c x F : channel_stage c x F = ret (frames_of c x F).
Proof. done. Qed.

Lemma process_stage c x out F M :
  cc_ready c -> 0 <= F <= max_frames -> F * cc_frame_in c <= zlen x ->
  zlen out = M * cc_width c -> F * cc_channelsOut c <= M ->
  ma_channel_converter_process_pcm_frames c out (Some x) F
  = Some (MA_SUCCESS, wr out 0 (frames_of c x F)).
Proof.
  intros Hc HF Hx Hout HM. pose proof (frame_sizes c Hc). unfold max_frames in HF.
  apply (process_frames c x out F M); try done; nia.
Qed.
