(* ===== verification/DataConverterProps.v ===== *)
(** * Correctness of the data converter

    What initialisation leaves in a converter and no operation changes, and what the paths
    without a resampler compute: the pipeline of DataConverter.v, a few frames at a time
    through buffers of 4096 bytes, is the pipeline on the whole input. *)
From Stdlib Require Import ZArith Lia Bool SpecFloat Morphisms.
From stdpp Require Import base numbers list option.
From S2P Require Import Prelude MaTypes CFloat PcmFormat PcmFormatProps ChannelMap Biquad LowPass LowPassProps LinearResampler ChannelConverter ChannelConverterProps Resampler DataConverter Stages ChannelFrames.

Local Open Scope Z_scope.
Local Open Scope lcg_scope.

(** ** Well-formed converters *)

Section well_formed.
Context (lm : libm) {C : Type} (simd : option (list spec_float -> list spec_float)).
Implicit Types (cfg : ma_data_converter_config C) (c : ma_data_converter C).

Definition dcc_ok cfg : Prop :=
  dcc_formatIn cfg <> ma_format_unknown /\ dcc_formatOut cfg <> ma_format_unknown
  /\ 0 <= dcc_channelsIn cfg <= MA_MAX_CHANNELS /\ 0 <= dcc_channelsOut cfg <= MA_MAX_CHANNELS
  /\ map_ok (dcc_pChannelMapIn cfg) (dcc_channelsIn cfg)
  /\ map_ok (dcc_pChannelMapOut cfg) (dcc_channelsOut cfg).

Abbreviation mid cfg := (ma_data_converter_config_get_mid_format cfg).

Lemma mid_format cfg : mid cfg = ma_format_s16 \/ mid cfg = ma_format_f32.
Proof.
  unfold ma_data_converter_config_get_mid_format, s16_or_f32.
  destruct (_ && _); [by right|]. destruct (dcc_formatOut cfg), (dcc_formatIn cfg); auto.
Qed.

(** At most one of the two format conversions of a pipeline without a resampler draws
    random numbers. *)
Lemma one_conversion_draws cfg dm :
  format_draws (mid cfg) (dcc_formatIn cfg) dm = false \/ format_draws (dcc_formatOut cfg) (mid cfg) dm = false.
Proof.
  unfold ma_data_converter_config_get_mid_format, s16_or_f32.
  destruct (_ && _); [|destruct (dcc_formatOut cfg), (dcc_formatIn cfg)]; destruct dm; auto.
Qed.

(** The stages a converter has, and that they fit together; the last five are what the
    assertions of the code say. *)
Record dc_wf cfg c : Prop := {
  wf_formats : dc_formatIn c = dcc_formatIn cfg /\ dc_formatOut c = dcc_formatOut cfg;
  wf_channels : dc_channelsIn c = dcc_channelsIn cfg /\ dc_channelsOut c = dcc_channelsOut cfg;
  wf_dither : dc_ditherMode c = dcc_ditherMode cfg;
  wf_cc : cc_ready (dc_channelConverter c);
  wf_cc_format : cc_format (dc_channelConverter c) = mid cfg;
  wf_cc_channels : cc_channelsIn (dc_channelConverter c) = dc_channelsIn c
    /\ cc_channelsOut (dc_channelConverter c) = dc_channelsOut c;
  wf_has_cc : dc_hasChannelConverter c = false -> dc_channelsIn c = dc_channelsOut c;
  wf_conversions : (dc_hasPreFormatConversion c, dc_hasPostFormatConversion c)
    = format_conversions (dc_formatIn c) (dc_formatOut c) (mid cfg) (dc_hasChannelConverter c) (dc_hasResampler c);
  wf_passthrough : dc_isPassthrough c = negb (dc_hasPreFormatConversion c) && negb (dc_hasPostFormatConversion c)
    && negb (dc_hasChannelConverter c) && negb (dc_hasResampler c);
  wf_path : dc_executionPath c = select_path (dc_channelsIn c) (dc_channelsOut c) (dc_hasChannelConverter c)
    (dc_hasResampler c) (dc_isPassthrough c);
  wf_has_resampler : dc_hasResampler c = ma_data_converter_config_is_resampler_required cfg;
  wf_resampler : dc_hasResampler c = true ->
    rsp_format (dc_resampler c) = mid cfg
    /\ rsp_channels (dc_resampler c) = Z.min (dc_channelsIn c) (dc_channelsOut c) }.

Lemma cc_config_ok cfg :
  dcc_ok cfg -> config_ok (ma_channel_converter_config_init_from_data_converter_config cfg).
Proof. intros (_ & _ & Hi & Ho & Hmi & Hmo). unfold config_ok. cbn. auto. Qed.

Lemma resampler_init_format rc r :
  ma_resampler_init_preallocated (C := C) lm (Some rc) = Some (MA_SUCCESS, r) ->
  rsp_format r = rs_format (rc_settings rc) /\ rsp_channels r = rs_channels (rc_settings rc).
Proof.
  unfold ma_resampler_init_preallocated. destruct (option_bind _ _ _ _) as [f|]; [|done].
  destruct (f _) as [[res b]|]; [|done]. cbn. intros [= _ <-]. by destruct b.
Qed.

Lemma data_converter_init_wf cfg c :
  dcc_ok cfg -> ma_data_converter_init_preallocated lm (Some cfg) = Some (MA_SUCCESS, c) -> dc_wf cfg c.
Proof.
  intros Hok. unfold ma_data_converter_init_preallocated.
  destruct (ma_data_converter_get_heap_layout lm (Some cfg)) as [res lay]. 
  destruct (Z.eqb_spec res MA_SUCCESS) as [->|]; [|by intros [= ? ?]].
  cbn [negb]. destruct (ma_channel_converter_init_preallocated _) as [[res cc]|] eqn:Ecc; [|done].
  destruct (Z.eqb_spec res MA_SUCCESS) as [->|]; [|by intros [= ? ?]]. cbn [negb].
  set (need := ma_data_converter_config_is_resampler_required cfg).
  destruct (if need then _ else _) as [[res rs]|] eqn:Ers; [|done].
  destruct (Z.eqb_spec res MA_SUCCESS) as [->|]; [|by intros [= ? ?]]. cbn [negb].
  set (has := bool_decide (cc_conversionPath cc <> ma_channel_conversion_path_passthrough)).
  destruct (format_conversions _ _ _ has need) as [pre post] eqn:Efc. intros [= <-].
  pose proof (cc_config_ok cfg Hok) as Hcok.
  pose proof (mid_format cfg) as Hmid.
  pose proof (init_preallocated_initialised _ _ Hcok Ecc) as (_ & _ & Ef & Ei & Eo & _).
  assert (Hr : cc_ready cc).
  { apply (init_ready _ _ Hcok) with (3 := Ecc); cbn; destruct Hmid as [-> | ->]; done. }
  split; cbn; try done.
  - unfold has. intros H%bool_decide_eq_false. cbn in Ei, Eo. rewrite <- Ei, <- Eo.
    apply (ready_same _ Hr). by apply dec_stable.
  - intros Hn. change (need = true) in Hn. rewrite Hn in Ers. apply resampler_init_format in Ers as (-> & ->). cbn.
    split; [done|]. destruct (Z.ltb_spec (dcc_channelsIn cfg) (dcc_channelsOut cfg)); lia.
Qed.

(** *** Operations keep all but the state of the resampler *)

(** [c'] is [c] with another state, and perhaps other rates, in its resampler. *)
Definition same_stages c c' : Prop :=
  exists r, c' = dc_with_resampler c r
    /\ rsp_format r = rsp_format (dc_resampler c) /\ rsp_channels r = rsp_channels (dc_resampler c).

#[export] Instance same_stages_preorder : PreOrder same_stages.
Proof.
  split.
  - intros c. exists (dc_resampler c). by destruct c.
  - intros c1 c2 c3 (r & -> & Hf & Hn) (r' & -> & Hf' & Hn'). exists r'. cbn in *. by rewrite Hf', Hn'.
Qed.

Lemma same_stages_refl c : same_stages c c.
Proof. reflexivity. Qed.

Lemma same_stages_wf cfg c c' : same_stages c c' -> dc_wf cfg c -> dc_wf cfg c'.
Proof. intros (r & -> & Hf & Hn) []. split; cbn; try done. by rewrite Hf, Hn. Qed.

Lemma with_resampler_same c r :
  rsp_format r = rsp_format (dc_resampler c) -> rsp_channels r = rsp_channels (dc_resampler c) ->
  same_stages c (dc_with_resampler c r).
Proof. intros. by exists r. Qed.

(** The calls of the resampler change its backend and its rates only. *)
Definition rsp_same (r r' : ma_resampler C) : Prop :=
  rsp_format r' = rsp_format r /\ rsp_channels r' = rsp_channels r.

Lemma resampler_process_same r x n out m res k M y r' :
  ma_resampler_process_pcm_frames r x n out m = Some (res, k, M, y, r') -> rsp_same r r'.
Proof.
  unfold ma_resampler_process_pcm_frames, call_backend.
  destruct n, m; try (by intros [= <- <- <- <- <-]); destruct (option_bind _ _ _ _) as [f|];
    try (by intros [= <- <- <- <- <-]); (destruct (rsp_pBackend r) as [b|]; [|done]);
    destruct (f _ _ _ _ _) as [[[[[? ?] ?] ?] ?]|]; try done; by intros [= <- <- <- <- <-].
Qed.

Lemma resampler_set_rate_same r a b res r' :
  ma_resampler_set_rate r a b = Some (res, r') -> rsp_same r r'.
Proof.
  unfold ma_resampler_set_rate, call_backend. destruct (_ || _); [by intros [= <- <-]|].
  destruct (option_bind _ _ _ _) as [f|]; [|by intros [= <- <-]].
  destruct (rsp_pBackend r) as [bk|]; [|done]. destruct (f bk a b) as [[re bk']|]; [|done]. cbn.
  destruct (negb _); by intros [= <- <-].
Qed.

Lemma resampler_reset_same r res r' : ma_resampler_reset r = Some (res, r') -> rsp_same r r'.
Proof.
  unfold ma_resampler_reset, call_backend. destruct (option_bind _ _ _ _) as [f|]; [|by intros [= <- <-]].
  destruct (rsp_pBackend r) as [bk|]; [|done]. destruct (f bk) as [[re bk']|]; [|done]. by intros [= <- <-].
Qed.

Definition keeps_stages c (r : ma_result * Z * Z * option (list Z) * ma_data_converter C) : Prop :=
  same_stages c r.2.

Lemma resample_same c x n out m : ensures (keeps_stages c) (resample c x n out m).
Proof.
  unfold resample. apply (ensures_bind (fun '(_, _, _, _, r) => rsp_same (dc_resampler c) r)).
  - apply ensures_lift. intros [[[[res k] M] y] r] H. by apply resampler_process_same in H.
  - intros [[[[res k] M] y] r] [Hf Hn]. apply ensures_ret. by apply with_resampler_same.
Qed.

(** [ensure_stages] follows a computation to the converter it returns. *)
Ltac ensure_stages :=
  repeat first
    [ progress cbv zeta
    | match goal with
      | |- ensures _ (ret _) => apply ensures_ret
      | |- ensures (keeps_stages ?c) (bind (resample ?c _ _ _ _) _) =>
          apply (ensures_bind (keeps_stages c)); [apply resample_same|intros [[[[? ?] ?] ?] ?] ?]
      | |- ensures _ (bind _ _) => apply ensures_bind_any; intros ?
      | |- ensures _ (if ?b then _ else _) => destruct b
      | |- ensures _ (match ?x with _ => _ end) => destruct x
      end ]; try done; try exact (same_stages_refl _).

Definition round_same
    (round : ma_data_converter C -> option (list Z) -> Z -> option (list Z) -> Z ->
             lcgM (ma_result * Z * Z * option (list Z) * ma_data_converter C)) : Prop :=
  forall c x n out m, ensures (keeps_stages c) (round c x n out m).

Lemma resample_round_same : round_same (resample_round simd).
Proof.
  intros c x n out m. unfold resample_round.
  apply (ensures_bind (keeps_stages c)); [|intros [[[[? ?] ?] ?] ?] ?; ensure_stages].
  destruct (dc_hasPreFormatConversion c); [|apply resample_same]. cbv zeta.
  apply ensures_bind_any. intros t. destruct (dc_hasPostFormatConversion c); apply resample_same.
Qed.

Lemma resample_first_round_same : round_same (resample_first_round simd).
Proof. intros c x n out m. unfold resample_first_round. ensure_stages. Qed.

Lemma channels_first_round_same : round_same (channels_first_round simd).
Proof. intros c x n out m. unfold channels_first_round. ensure_stages. Qed.

Lemma rounds_loop_same round :
  round_same round ->
  forall fuel c x n out m i o, ensures (keeps_stages c) (rounds_loop fuel round c x n out m i o).
Proof.
  intros Hr fuel. induction fuel as [|fuel IH]; intros c x n out m i o; cbn [rounds_loop]; [by apply ensures_lift|].
  destruct (negb (o <? m)); [apply ensures_ret, same_stages_refl|].
  apply (ensures_bind (keeps_stages c)); [apply Hr|]. intros [[[[res k] M] y] c'] Hc. cbv zeta.
  destruct (negb _); [by apply ensures_ret|]. destruct (M =? 0); [by apply ensures_ret|].
  intros st r st' H. apply IH in H. unfold keeps_stages in *. cbn in Hc. by transitivity c'.
Qed.

Definition keeps c (r : dc_result C) : Prop := same_stages c r.2.

Lemma process_same c x n out m : ensures (keeps c) (ma_data_converter_process_pcm_frames simd c x n out m).
Proof.
  unfold ma_data_converter_process_pcm_frames. destruct (dc_executionPath c).
  - apply ensures_ret, same_stages_refl.
  - unfold ma_data_converter_process_pcm_frames__format_only. ensure_stages.
  - unfold ma_data_converter_process_pcm_frames__channels_only. ensure_stages.
  - unfold ma_data_converter_process_pcm_frames__resample_only. destruct (_ && _).
    + apply (ensures_bind (fun '(_, _, _, _, r) => rsp_same (dc_resampler c) r)).
      * apply ensures_lift. intros [[[[res k] M] y] r] H. by apply resampler_process_same in H.
      * intros [[[[res k] M] y] r] [Hf Hn]. apply ensures_ret. by apply with_resampler_same.
    + apply (ensures_bind (keeps_stages c)); [apply rounds_loop_same, resample_round_same|].
      intros [[[[res k] M] y] r] H. by apply ensures_ret.
  - apply (ensures_bind (keeps_stages c)); [apply rounds_loop_same, resample_first_round_same|].
    intros [[[[res k] M] y] r] H. destruct (negb _); by apply ensures_ret.
  - apply (ensures_bind (keeps_stages c)); [apply rounds_loop_same, channels_first_round_same|].
    intros [[[[res k] M] y] r] H. destruct (negb _); by apply ensures_ret.
Qed.

(** *** The operations of an application *)

Inductive dc_operation :=
| dc_process (pFramesIn : option (list Z)) (pFrameCountIn : option Z)
    (pFramesOut : option (list Z)) (pFrameCountOut : option Z)
| dc_set_rate (sampleRateIn sampleRateOut : Z)
| dc_set_rate_ratio (ratioInOut : spec_float)
| dc_reset.

(** The converter after an operation that has a defined result. *)
Definition dc_exec c (op : dc_operation) (st : Z) : option (ma_data_converter C * Z) :=
  match op with
  | dc_process x n out m =>
      option_map (fun '(r, st) => (r.2, st)) (ma_data_converter_process_pcm_frames simd c x n out m st)
  | dc_set_rate a b => option_map (fun '(_, c) => (c, st)) (ma_data_converter_set_rate c a b)
  | dc_set_rate_ratio x => option_map (fun '(_, c) => (c, st)) (ma_data_converter_set_rate_ratio c x)
  | dc_reset => option_map (fun '(_, c) => (c, st)) (ma_data_converter_reset c)
  end.

Lemma on_resampler_same c r res c' :
  (forall r', r = Some (res, r') -> rsp_same (dc_resampler c) r') ->
  on_resampler c r = Some (res, c') -> same_stages c c'.
Proof.
  intros H. destruct r as [[re r']|]; [|done]. cbn. intros [= -> <-].
  destruct (H r' eq_refl). by apply with_resampler_same.
Qed.

Lemma dc_exec_same c op st c' st' : dc_exec c op st = Some (c', st') -> same_stages c c'.
Proof.
  destruct op as [x n out m|a b|x|]; cbn [dc_exec].
  - destruct (ma_data_converter_process_pcm_frames _ _ _ _ _ _ _) as [[r st1]|] eqn:E; [|done].
    intros [= <- <-]. by apply process_same in E.
  - destruct (ma_data_converter_set_rate c a b) as [[res r]|] eqn:E; [|done]. intros [= <- <-].
    unfold ma_data_converter_set_rate in E. destruct (negb _); [injection E as <- <-; reflexivity|].
    apply on_resampler_same in E; [done|]. intros r' H. by apply resampler_set_rate_same in H.
  - destruct (ma_data_converter_set_rate_ratio c x) as [[res r]|] eqn:E; [|done]. intros [= <- <-].
    unfold ma_data_converter_set_rate_ratio in E. destruct (negb _); [injection E as <- <-; reflexivity|].
    apply on_resampler_same in E; [done|]. intros r'. unfold ma_resampler_set_rate_ratio.
    destruct (SFleb _ _); [by intros [= <- <-]|]. destruct (sf_to_u 32 _) as [k|]; [|done].
    destruct (k =? 0); [by intros [= <- <-]|]. apply resampler_set_rate_same.
  - destruct (ma_data_converter_reset c) as [[res r]|] eqn:E; [|done]. intros [= <- <-].
    unfold ma_data_converter_reset in E. destruct (negb _); [injection E as <- <-; reflexivity|].
    apply on_resampler_same in E; [done|]. intros r' H. by apply resampler_reset_same in H.
Qed.

(** The converters an application can have. *)
Inductive dc_reachable cfg : ma_data_converter C -> Prop :=
| dc_initial c :
    ma_data_converter_init_preallocated lm (Some cfg) = Some (MA_SUCCESS, c) -> dc_reachable cfg c
| dc_initial_heap c alloc before :
    ma_data_converter_init lm (Some cfg) alloc before = Some (MA_SUCCESS, c) -> dc_reachable cfg c
| dc_next c op st c' st' :
    dc_reachable cfg c -> dc_exec c op st = Some (c', st') -> dc_reachable cfg c'.

Lemma reachable_wf cfg c : dcc_ok cfg -> dc_reachable cfg c -> dc_wf cfg c.
Proof.
  intros Hok H. induction H as [c Hi|c alloc before Hi|c op st c' st' _ IH Hx].
  - by apply data_converter_init_wf.
  - unfold ma_data_converter_init in Hi. destruct (ma_data_converter_get_heap_size _ _) as [res size].
    destruct (Z.eqb_spec res MA_SUCCESS) as [->|Hne]; cbn [negb] in Hi; [|injection Hi as Hi _; done].
    destruct (_ && _); [done|].
    destruct (ma_data_converter_init_preallocated lm (Some cfg)) as [[r0 c0]|] eqn:E; [|done]. cbn in Hi.
    destruct (Z.eqb_spec r0 MA_SUCCESS) as [->|]; [|by injection Hi]. injection Hi as <-.
    apply data_converter_init_wf in E; [|done]. destruct E. by split.
  - apply (same_stages_wf _ _ _ (dc_exec_same _ _ _ _ _ Hx) IH).
Qed.

(** What the converters of one configuration have in common, path by path: in particular
    what the code asserts of the resampler and the channel converter on the combined
    paths. *)
Definition stages_fit cfg c : Prop :=
  let cc := dc_channelConverter c in
  let r := dc_resampler c in
  match dc_executionPath c with
  | ma_data_converter_execution_path_passthrough =>
      dc_formatIn c = dc_formatOut c /\ dc_channelsIn c = dc_channelsOut c /\ dc_hasResampler c = false
  | ma_data_converter_execution_path_format_only =>
      dc_formatIn c <> dc_formatOut c /\ dc_channelsIn c = dc_channelsOut c /\ dc_hasResampler c = false
  | ma_data_converter_execution_path_channels_only =>
      dc_hasChannelConverter c = true /\ dc_hasResampler c = false
  | ma_data_converter_execution_path_resample_only =>
      dc_hasResampler c = true /\ rsp_channels r = dc_channelsIn c /\ rsp_channels r = dc_channelsOut c
  | ma_data_converter_execution_path_resample_first =>
      rsp_format r = cc_format cc /\ rsp_channels r = cc_channelsIn cc /\ rsp_channels r < cc_channelsOut cc
  | ma_data_converter_execution_path_channels_first =>
      rsp_format r = cc_format cc /\ rsp_channels r = cc_channelsOut cc /\ rsp_channels r <= cc_channelsIn cc
  end
  /\ (dc_hasChannelConverter c || dc_hasResampler c = true ->
        dc_hasPreFormatConversion c = bool_decide (dc_formatIn c <> cc_format cc)
        /\ dc_hasPostFormatConversion c = bool_decide (dc_formatOut c <> cc_format cc))
  /\ (cc_format cc = ma_format_s16 \/ cc_format cc = ma_format_f32).

Lemma wf_stages_fit cfg c : dc_wf cfg c -> stages_fit cfg c.
Proof.
  intros W. pose proof (mid_format cfg) as Hmid. destruct (wf_cc_channels _ _ W) as (Ei & Eo).
  pose proof (wf_conversions _ _ W) as Hconv. pose proof (wf_passthrough _ _ W) as Hpass.
  pose proof (wf_has_cc _ _ W) as Hcc. pose proof (wf_resampler _ _ W) as Hr.
  unfold stages_fit. rewrite (wf_cc_format _ _ W), (wf_path _ _ W), Ei, Eo. unfold select_path.
  split; [|split; [|done]].
  - rewrite Hpass. unfold format_conversions in Hconv.
    destruct (dc_hasChannelConverter c), (dc_hasResampler c); cbn [negb andb] in *;
      try (destruct (Hr eq_refl) as (-> & ->)); try specialize (Hcc eq_refl);
      rewrite ?andb_false_r; try (destruct (Z.ltb_spec (dc_channelsIn c) (dc_channelsOut c)));
      try (split_and!; (done || lia)).
    all: destruct (decide (dc_formatIn c = dc_formatOut c)); injection Hconv as Hpre Hpost; rewrite Hpre, Hpost;
      cbn [negb andb]; try lia; done.
  - unfold format_conversions in Hconv.
    destruct (dc_hasChannelConverter c), (dc_hasResampler c); cbn in Hconv |- *; intros H; try done;
      by injection Hconv.
Qed.
End well_formed.

(** C39. The stages of a data converter fit together, from initialisation on and through every
    sequence of processing calls, rate changes and resets: the path is the one its flags
    call for, the stages of the path agree on format and channels as the assertions of the
    code demand, the frames between the stages are 16-bit or floating point, and a format
    conversion is present exactly where the formats differ. *)
Theorem data_converter_well_formed lm {C} simd (cfg : ma_data_converter_config C) c :
  dcc_ok cfg -> dc_reachable lm simd cfg c -> stages_fit cfg c.
Proof. intros Hok H. by apply wf_stages_fit, (reachable_wf lm simd). Qed.

(** ** The loop of the channel path *)

Lemma bytes_per_frame_exact format ch :
  0 <= ch <= MA_MAX_CHANNELS ->
  ma_get_bytes_per_frame format ch = ma_get_bytes_per_sample format * ch
  /\ 0 <= ma_get_bytes_per_sample format * ch <= 1016.
Proof.
  intros Hc. unfold MA_MAX_CHANNELS in Hc. unfold ma_get_bytes_per_frame, u32.
  assert (0 <= ma_get_bytes_per_sample format <= 4) by (destruct format; cbn; lia).
  rewrite wrapu_id by (split; nia). split; [done|nia].
Qed.

Lemma bytes_of_frames_exact n format ch :
  0 <= ch <= MA_MAX_CHANNELS -> 0 <= n <= max_frames ->
  bytes_of_frames n format ch = n * (ma_get_bytes_per_sample format * ch).
Proof.
  intros Hc Hn. destruct (bytes_per_frame_exact format ch Hc) as (E & Hb). unfold bytes_of_frames, u64.
  rewrite E. unfold max_frames in Hn. apply wrapu_id. split; nia.
Qed.

Section channels_loop.
Context {C : Type} (c : ma_data_converter C) (S : stage) (wi wo : Z).
Context `{!FrameStage wi wo max_frames S} (g : Z).
Hypothesis Hg : (g | wo).
Hypothesis Hwi : 0 <= wi.
Hypothesis Hwo : 0 <= wo.
Hypothesis Hin : forall n, 0 <= n <= max_frames -> bytes_of_frames n (dc_formatIn c) (dc_channelsIn c) = n * wi.
Hypothesis Hout : forall n, 0 <= n <= max_frames -> bytes_of_frames n (dc_formatOut c) (dc_channelsOut c) = n * wo.

(** A turn converts some of the frames it is given, at least one. *)
Definition round_converts : Prop :=
  forall x out n, 0 < n <= max_frames -> n * wi <= zlen x -> holds_frames g wo out n ->
  exists a, 0 < a <= n /\
    channels_round None c (Some x) (Some out) n
    ≈ bind (S x a) (fun d => ret (MA_SUCCESS, a, Some (wr out 0 d))).

Lemma wr_at_part (out d : list Z) off :
  0 <= off -> off <= zlen out -> take (Z.to_nat off) out ++ wr (drop (Z.to_nat off) out) 0 d = wr out off d.
Proof.
  intros H H'. unfold wr. rewrite Z2Nat.inj_0, take_0. cbn [app]. f_equal. f_equal.
  by rewrite drop_drop.
Qed.

Lemma channels_loop_converts fuel inn out F p :
  round_converts -> 0 <= p <= F -> F <= max_frames -> F * wi <= zlen inn -> holds_frames g wo out F ->
  (Z.to_nat (F - p) < fuel)%nat ->
  channels_loop None fuel c (Some inn) (Some out) F p
  ≈ bind (S (drop (Z.to_nat (p * wi)) inn) (F - p)) (fun d => ret (Some (wr out (p * wo) d))).
Proof.
  intros Hround. revert out p. induction fuel as [|fuel IH]; intros out p Hp HF Hi Ho Hfuel; [lia|].
  assert (HoF : F * wo <= zlen out) by apply Ho.
  cbn [channels_loop]. destruct (Z.ltb_spec p F) as [Hlt|Hge]; cbn [negb].
  2:{ replace p with F by lia. rewrite Z.sub_diag, (stage_none _), ret_bind. by rewrite wr_nil. }
  unfold advance. cbn [option_map]. rewrite Hin, Hout by lia.
  assert (Hu : u64 (F - p) = F - p) by (apply wrapu_id; unfold max_frames in *; split; lia). rewrite Hu.
  destruct (Hround (drop (Z.to_nat (p * wi)) inn) (drop (Z.to_nat (p * wo)) out) (F - p)) as (a & Ha & E).
  { lia. } { rewrite zlen_drop by nia. nia. } { apply holds_drop; (done || lia). }
  rewrite E, bind_assoc. replace (F - p) with (a + (F - p - a)) at 1 by lia.
  rewrite (stage_split wi wo max_frames S Hwi _ a) by (rewrite ?zlen_drop; nia).
  rewrite bind_assoc. apply bind_ext_post. intros d st st' Hd.
  apply stage_len in Hd; [|lia|rewrite zlen_drop by nia; nia].
  rewrite ret_bind. unfold put_back. rewrite Hout, wr_at_part by (try lia; nia).
  change (negb (MA_SUCCESS =? MA_SUCCESS)) with false. cbv iota.
  assert (Hpa : u64 (p + a) = p + a) by (apply wrapu_id; unfold max_frames in *; split; lia). rewrite Hpa.
  assert (Hlen : p * wo + zlen d <= zlen out) by nia.
  assert (Ho' : holds_frames g wo (wr out (p * wo) d) F) by (unfold holds_frames; rewrite zlen_wr by nia; exact Ho).
  rewrite IH by (try lia; try exact Ho'; rewrite ?zlen_wr; nia).
  rewrite drop_drop_Z by nia. rewrite bind_assoc.
  replace (p * wi + a * wi) with ((p + a) * wi) by lia. replace (F - p - a) with (F - (p + a)) by lia.
  apply bind_ext_post. intros e st1 st2 He. apply stage_len in He; [|lia|rewrite zlen_drop by nia; nia].
  rewrite ret_bind. replace ((p + a) * wo) with (p * wo + zlen d) by lia.
  by rewrite wr_wr_adj by nia.
Qed.
End channels_loop.

(** ** One turn *)

Lemma zlen_temp : zlen temp_buffer = 4096.
Proof. apply zlen_zrep. done. Qed.

Lemma in_temp_app d : zlen d <= 4096 -> exists z, in_temp d = d ++ z.
Proof.
  intros Hd. exists (drop (length d) temp_buffer). unfold in_temp, wr.
  rewrite Z2Nat.inj_0, take_0. done.
Qed.

(** A capacity of the temporary buffers: at least one frame, and no more than fit. *)
Lemma temp_cap_spec format ch :
  format <> ma_format_unknown -> 0 < ch <= MA_MAX_CHANNELS ->
  let w := ma_get_bytes_per_sample format * ch in
  0 < temp_cap format ch /\ temp_cap format ch * w <= 4096 /\ temp_cap format ch <= 4096.
Proof.
  intros Hf Hc w. destruct (bytes_per_frame_exact format ch) as (E & Hb); [lia|]. fold w in E, Hb.
  assert (Hw : 0 < w) by (unfold w; destruct format; cbn; try done; lia).
  unfold temp_cap, DATA_CONVERTER_STACK_BUFFER_SIZE. rewrite E.
  pose proof (Z.mul_div_le 4096 w Hw). pose proof (Z.div_le_lower_bound 4096 w 1 Hw).
  split_and!; [lia|lia|nia].
Qed.

Lemma cap_at_min x cap : cap_at x cap = Z.min x cap.
Proof. unfold cap_at. destruct (Z.gtb_spec x cap); lia. Qed.

Section conversion.
Context {C : Type} (cfg : ma_data_converter_config C) (c : ma_data_converter C).
Hypothesis Hok : dcc_ok cfg.
Hypothesis W : dc_wf cfg c.

Abbreviation cc := (dc_channelConverter c).

(** The conversions in front of the channel converter and behind it. *)
Definition pre_stage : stage :=
  if dc_hasPreFormatConversion c
  then format_stage (cc_format cc) (dc_formatIn c) (dc_channelsIn c) (dc_ditherMode c)
  else no_stage (cc_frame_in cc).
Definition post_stage : stage :=
  if dc_hasPostFormatConversion c
  then format_stage (dc_formatOut c) (cc_format cc) (dc_channelsOut c) (dc_ditherMode c)
  else no_stage (cc_frame_out cc).

Definition frame_size_in : Z := ma_get_bytes_per_sample (dc_formatIn c) * dc_channelsIn c.
Definition frame_size_out : Z := ma_get_bytes_per_sample (dc_formatOut c) * dc_channelsOut c.

Lemma dc_channels : 0 < dc_channelsIn c <= MA_MAX_CHANNELS /\ 0 < dc_channelsOut c <= MA_MAX_CHANNELS.
Proof using W.
  destruct (wf_cc_channels _ _ W) as (<- & <-). pose proof (wf_cc _ _ W) as Hr.
  split; [apply (ready_in _ Hr)|apply (ready_out _ Hr)].
Qed.

Lemma dc_formats :
  dc_formatIn c <> ma_format_unknown /\ dc_formatOut c <> ma_format_unknown /\ cc_format cc <> ma_format_unknown.
Proof using Hok W.
  destruct (wf_formats _ _ W) as (-> & ->). destruct Hok as (? & ? & _).
  by split_and!; [..|apply (ready_format _ (wf_cc _ _ W))].
Qed.

Lemma cc_frames :
  cc_frame_in cc = ma_get_bytes_per_sample (cc_format cc) * dc_channelsIn c
  /\ cc_frame_out cc = ma_get_bytes_per_sample (cc_format cc) * dc_channelsOut c.
Proof using W. unfold cc_frame_in, cc_frame_out, cc_width. by destruct (wf_cc_channels _ _ W) as (-> & ->). Qed.

Hypothesis Hstages : dc_hasChannelConverter c || dc_hasResampler c = true.

Lemma pre_absent : dc_hasPreFormatConversion c = false -> dc_formatIn c = cc_format cc.
Proof using W Hstages.
  intros H. destruct (wf_stages_fit _ _ W) as (_ & Hs & _). destruct (Hs Hstages) as (E & _).
  rewrite H in E. symmetry in E. apply bool_decide_eq_false in E. by apply dec_stable.
Qed.

Lemma post_absent : dc_hasPostFormatConversion c = false -> dc_formatOut c = cc_format cc.
Proof using W Hstages.
  intros H. destruct (wf_stages_fit _ _ W) as (_ & Hs & _). destruct (Hs Hstages) as (_ & E).
  rewrite H in E. symmetry in E. apply bool_decide_eq_false in E. by apply dec_stable.
Qed.

#[local] Instance pre_stage_frames : FrameStage frame_size_in (cc_frame_in cc) max_frames pre_stage.
Proof using Hok W Hstages.
  destruct dc_formats as (? & ? & ?). destruct dc_channels as (? & _). destruct cc_frames as (E & _).
  pose proof pre_absent as Ha. unfold pre_stage, frame_size_in, MA_MAX_CHANNELS, max_frames in *.
  destruct (dc_hasPreFormatConversion c).
  - rewrite E. apply format_stage_frames; try done; lia.
  - rewrite Ha, <- E by done. apply no_stage_frames. rewrite E. destruct (cc_format cc); cbn; lia.
Qed.

#[local] Instance post_stage_frames : FrameStage (cc_frame_out cc) frame_size_out max_frames post_stage.
Proof using Hok W Hstages.
  destruct dc_formats as (? & ? & ?). destruct dc_channels as (_ & ?). destruct cc_frames as (_ & E).
  pose proof post_absent as Ha. unfold post_stage, frame_size_out, MA_MAX_CHANNELS, max_frames in *.
  destruct (dc_hasPostFormatConversion c).
  - rewrite E. apply format_stage_frames; try done; lia.
  - rewrite Ha, <- E by done. apply no_stage_frames. rewrite E. destruct (cc_format cc); cbn; lia.
Qed.

Lemma pre_or_post_stateless : Stateless pre_stage \/ Stateless post_stage.
Proof using W.
  unfold pre_stage, post_stage. rewrite (wf_cc_format _ _ W). destruct (wf_formats _ _ W) as (-> & ->).
  destruct (one_conversion_draws cfg (dc_ditherMode c)) as [H|H].
  - left. destruct (dc_hasPreFormatConversion c); [by apply format_stage_stateless|apply no_stage_stateless].
  - right. destruct (dc_hasPostFormatConversion c); [by apply format_stage_stateless|apply no_stage_stateless].
Qed.

(** The whole pipeline around the channel converter. *)
Definition channels_pipeline : stage := then_stage pre_stage (then_stage (channel_stage cc) post_stage).

#[local] Instance channels_pipeline_frames :
  FrameStage frame_size_in frame_size_out max_frames channels_pipeline.
Proof using Hok W Hstages.
  pose proof (wf_cc _ _ W) as Hr. destruct (frame_sizes _ Hr) as (? & ?).
  apply (then_stage_frames _ (cc_frame_in cc)); [apply _| |lia|].
  - apply (then_stage_frames _ (cc_frame_out cc)); [by apply channel_stage_frames|apply _|lia|].
    left. apply per_frame_stateless.
  - destruct pre_or_post_stateless as [Hs|Hs]; [by left|right].
    apply then_stage_stateless; [apply per_frame_stateless|done].
Qed.

Lemma frame_size_bounds : 0 < frame_size_in <= 1016 /\ 0 < frame_size_out <= 1016.
Proof using Hok W.
  destruct dc_formats as (? & ? & _). destruct dc_channels. unfold frame_size_in, frame_size_out, MA_MAX_CHANNELS in *.
  split; [destruct (dc_formatIn c)|destruct (dc_formatOut c)]; cbn; try done; lia.
Qed.

(** *** The channel converter between the temporary buffers *)

Lemma mid_width : cc_width cc = 2 \/ cc_width cc = 4.
Proof using W.
  unfold cc_width. destruct (wf_stages_fit _ _ W) as (_ & _ & [-> | ->]); [by left|by right].
Qed.

(** A buffer of whole samples with room for [n] frames of the channel converter's output. *)
Definition room : list Z -> Z -> Prop := holds_frames (cc_width cc) (cc_frame_out cc).

Lemma convert_channels_frames x out n :
  0 <= n <= max_frames -> n * cc_frame_in cc <= zlen x -> room out n ->
  convert_channels cc (Some out) (Some x) n ≈ ret (MA_SUCCESS, Some (wr out 0 (frames_of cc x n))).
Proof using W.
  intros Hn Hx Hroom. pose proof (wf_cc _ _ W) as Hr. pose proof (cc_width_pos _ Hr) as Hw.
  pose proof (ready_out _ Hr) as Hco.
  assert (exists M, zlen out = M * cc_width cc /\ n * cc_channelsOut cc <= M) as (M & HM & Hle).
  { destruct Hroom as (Hfit & M & HM). exists M. split; [done|]. unfold cc_frame_out in Hfit. nia. }
  unfold convert_channels. rewrite (process_stage cc x out n M) by done. done.
Qed.

(** A stage on a temporary buffer that starts with [y]. *)
Lemma stage_on_temp w w' (S : stage) y n :
  FrameStage w w' max_frames S -> 0 <= n <= max_frames -> zlen y = n * w -> zlen y <= 4096 ->
  S (in_temp y) n ≈ S y n.
Proof using Type.
  intros HS Hn Hy Hle. destruct (in_temp_app y Hle) as (z & ->). apply (stage_of_app w w' max_frames); [done|lia|lia].
Qed.

Lemma room_in_temp n : n * cc_frame_out cc <= 4096 -> room temp_buffer n.
Proof using W.
  intros H. split; [by rewrite zlen_temp|]. rewrite zlen_temp.
  destruct mid_width as [-> | ->]; [by exists 2048|by exists 1024].
Qed.

(** What a buffer for output consists of: whole samples, where a stage writes it in place. *)
Definition out_grain : Z :=
  if dc_hasPostFormatConversion c || negb (dc_hasChannelConverter c || dc_hasResampler c) then 1 else cc_width cc.

Lemma out_grain_divides : (out_grain | frame_size_out).
Proof using W Hstages.
  unfold out_grain. rewrite Hstages. destruct (dc_hasPostFormatConversion c) eqn:Hp; [apply Z.divide_1_l|].
  unfold frame_size_out. rewrite (post_absent Hp). apply Z.divide_mul_l, Z.divide_refl.
Qed.

Lemma room_in_output out n :
  dc_hasPostFormatConversion c = false -> holds_frames out_grain frame_size_out out n -> room out n.
Proof using W Hstages.
  intros Hp. unfold room, out_grain, frame_size_out. rewrite Hstages, Hp, (post_absent Hp).
  by destruct cc_frames as (_ & ->).
Qed.

Lemma zlen_frames x n :
  0 <= n <= max_frames -> n * cc_frame_in cc <= zlen x -> zlen (frames_of cc x n) = n * cc_frame_out cc.
Proof using W.
  intros Hn Hx. pose proof (wf_cc _ _ W) as Hr. destruct (frame_sizes _ Hr) as (Hwi & Hwo).
  apply frames_of_spec; [done|lia|done|]. unfold max_frames in Hn. nia.
Qed.

(** Format conversion behind the channel converter, from the temporary buffer or not at all. *)
Lemma post_of_temp y n :
  dc_hasPostFormatConversion c = true -> 0 <= n <= max_frames ->
  zlen y = n * cc_frame_out cc -> zlen y <= 4096 ->
  convert_format None (dc_formatOut c) (wr temp_buffer 0 y) (cc_format cc) n (cc_channelsOut cc) c
  ≈ post_stage y n.
Proof using Hok W Hstages.
  intros Hp Hn Hy Hle. pose proof post_stage_frames as HS.
  rewrite <- (stage_on_temp _ _ post_stage y n HS) by done.
  unfold post_stage. rewrite Hp. by destruct (wf_cc_channels _ _ W) as (_ & ->).
Qed.

Lemma post_none y n :
  dc_hasPostFormatConversion c = false -> zlen y = n * cc_frame_out cc -> post_stage y n ≈ ret y.
Proof using Type. intros Hp Hy. unfold post_stage, no_stage. by rewrite Hp, <- Hy, rd_all. Qed.

(** Format conversion in front of it, into the temporary buffer. *)
Lemma pre_into_temp {A} x n (k : list Z -> lcgM A) :
  dc_hasPreFormatConversion c = true -> 0 <= n <= max_frames ->
  n * frame_size_in <= zlen x -> n * cc_frame_in cc <= 4096 ->
  (forall y, zlen y = n * cc_frame_in cc -> k (in_temp y) ≈ k y) ->
  bind (bind (convert_format None (cc_format cc) x (dc_formatIn c) n (dc_channelsIn c) c)
          (fun d => ret (in_temp d))) k
  ≈ bind (pre_stage x n) k.
Proof using Hok W Hstages.
  intros Hp Hn Hx Hle Hk. rewrite bind_assoc. pose proof pre_stage_frames as HS.
  transitivity (bind (pre_stage x n) (fun d => bind (ret (in_temp d)) k)).
  { unfold pre_stage. by rewrite Hp. }
  apply bind_ext_post. intros y st st' Hy. apply stage_len in Hy; [|done..]. rewrite ret_bind. by apply Hk.
Qed.

Lemma pre_none x n : dc_hasPreFormatConversion c = false -> pre_stage x n ≈ ret (rd x 0 (n * cc_frame_in cc)).
Proof using Type. intros Hp. unfold pre_stage, no_stage. by rewrite Hp. Qed.

Lemma frames_of_prefix x n :
  0 <= n <= max_frames -> n * cc_frame_in cc <= zlen x ->
  frames_of cc (rd x 0 (n * cc_frame_in cc)) n = frames_of cc x n.
Proof using W.
  intros Hn Hx. pose proof (stage_prefix (FrameStage := channel_stage_frames _ (wf_cc _ _ W)) x n Hn Hx 0) as E.
  rewrite !channel_stage_eq in E. by injection E.
Qed.

Lemma frames_of_temp y n :
  0 <= n <= max_frames -> zlen y = n * cc_frame_in cc -> zlen y <= 4096 ->
  frames_of cc (in_temp y) n = frames_of cc y n.
Proof using W.
  intros Hn Hy Hle. pose proof (channel_stage_frames _ (wf_cc _ _ W)) as HS.
  pose proof (stage_on_temp _ _ (channel_stage cc) y n HS Hn Hy Hle 0) as E.
  rewrite !channel_stage_eq in E. by injection E.
Qed.

(** *** One turn of the loop *)

Lemma channels_caps :
  0 < temp_cap (cc_format cc) (cc_channelsIn cc) <= 4096
  /\ temp_cap (cc_format cc) (cc_channelsIn cc) * cc_frame_in cc <= 4096
  /\ 0 < temp_cap (cc_format cc) (cc_channelsOut cc) <= 4096
  /\ temp_cap (cc_format cc) (cc_channelsOut cc) * cc_frame_out cc <= 4096.
Proof using Hok W.
  pose proof (wf_cc _ _ W) as Hr. destruct dc_formats as (_ & _ & Hf).
  destruct (temp_cap_spec _ _ Hf (ready_in _ Hr)) as (? & ? & ?).
  destruct (temp_cap_spec _ _ Hf (ready_out _ Hr)) as (? & ? & ?). done.
Qed.

Lemma pipeline_bind {A} x n (k : list Z -> lcgM A) :
  bind (channels_pipeline x n) k
  ≈ bind (pre_stage x n) (fun y => bind (post_stage (frames_of cc y n) n) k).
Proof using Type. unfold channels_pipeline, then_stage. rewrite bind_assoc. by setoid_rewrite ret_bind. Qed.

(** What a turn does after the channel converter wrote [y] to [t]. *)
Lemma finish_turn {A} (k : list Z -> A) out y n t :
  t = (if dc_hasPostFormatConversion c then temp_buffer else out) ->
  0 <= n <= max_frames -> zlen y = n * cc_frame_out cc ->
  (dc_hasPostFormatConversion c = true -> n * cc_frame_out cc <= 4096) ->
  (if dc_hasPostFormatConversion c
   then bind (convert_format None (dc_formatOut c) (wr t 0 y) (cc_format cc) n (cc_channelsOut cc) c)
          (fun d => ret (k (wr out 0 d)))
   else ret (k (wr t 0 y)))
  ≈ bind (post_stage y n) (fun d => ret (k (wr out 0 d))).
Proof using Hok W Hstages.
  intros -> Hn Hy Hfit. destruct (dc_hasPostFormatConversion c) eqn:Hp.
  - specialize (Hfit eq_refl). by rewrite post_of_temp by (try done; lia).
  - by rewrite post_none, ret_bind by done.
Qed.

Lemma channels_round_converts :
  dc_hasPreFormatConversion c || dc_hasPostFormatConversion c = true ->
  round_converts c channels_pipeline frame_size_in frame_size_out out_grain.
Proof using Hok W Hstages.
  intros Hfc x out n Hn Hx Hout. unfold channels_round.
  destruct channels_caps as (Hci & Hfi & Hco & Hfo). pose proof (wf_cc _ _ W) as Hr.
  destruct (frame_sizes _ Hr) as (Hwi & Hwo). pose proof pre_stage_frames as HS.
  destruct frame_size_bounds as (Hsi & _).
  set (capIn := temp_cap _ (cc_channelsIn cc)) in *. set (capOut := temp_cap _ (cc_channelsOut cc)) in *.
  rewrite !cap_at_min. destruct (dc_hasPreFormatConversion c) eqn:Hpre.
  - set (a := if dc_hasPostFormatConversion c then Z.min (Z.min n capIn) capOut else Z.min n capIn).
    assert (Ha : 0 < a <= n /\ a <= capIn /\ (dc_hasPostFormatConversion c = true -> a <= capOut))
      by (unfold a; destruct (dc_hasPostFormatConversion c); lia).
    destruct Ha as (Ha & Hac & Hao). exists a. split; [done|].
    assert (Hfit : dc_hasPostFormatConversion c = true -> a * cc_frame_out cc <= 4096) by (intros Hp; specialize (Hao Hp); nia).
    assert (Hroom : room (if dc_hasPostFormatConversion c then temp_buffer else out) a).
    { destruct (dc_hasPostFormatConversion c) eqn:Hp; [by apply room_in_temp, Hfit|apply room_in_output; [done|]].
      destruct frame_size_bounds. apply (holds_fewer _ _ _ n); [lia|lia|done]. }
    assert (Ham : 0 <= a <= max_frames) by lia. assert (Hax : a * frame_size_in <= zlen x) by nia.
    assert (Hin : a * cc_frame_in cc <= 4096) by nia.
    rewrite bind_assoc, pre_into_temp; [| |done|done|done|].
    3:{ intros y Hy. destruct (in_temp_app y) as (z & Ez); [lia|].
        assert (Hzl : a * cc_frame_in cc <= zlen (in_temp y)) by (rewrite Ez, zlen_app; zl).
        destruct (dc_hasPostFormatConversion c);
          by rewrite !convert_channels_frames, frames_of_temp by (done || lia). }
    2:{ done. }
    rewrite pipeline_bind. apply bind_ext_post. intros y st st' Hy. apply stage_len in Hy; [|done|done].
    etransitivity; [|apply (finish_turn (fun z => (MA_SUCCESS, a, Some z)) out _ a _ eq_refl Ham); [by apply zlen_frames; [|lia]|done]].
    destruct (dc_hasPostFormatConversion c); by rewrite convert_channels_frames by (done || lia).
  - cbn [orb] in Hfc. exists (Z.min n capOut). rewrite Hfc. split; [lia|]. set (a := Z.min n capOut).
    assert (Ham : 0 <= a <= max_frames) by lia.
    assert (Hfit : a * cc_frame_out cc <= 4096) by nia.
    assert (Hx' : a * cc_frame_in cc <= zlen x).
    { unfold frame_size_in in *. rewrite (pre_absent Hpre) in Hx. destruct cc_frames as (E & _).
      rewrite E in *. nia. }
    rewrite pipeline_bind, pre_none, ret_bind, frames_of_prefix by done.
    etransitivity; [|apply (finish_turn (fun z => (MA_SUCCESS, a, Some z)) out _ a _ eq_refl Ham); [by apply zlen_frames|done]].
    rewrite Hfc. by rewrite convert_channels_frames by (try done; by apply room_in_temp).
Qed.
End conversion.

(** ** Conversion without a resampler *)

(** What the frames go through: the channel converter between two format conversions, one
    format conversion, or nothing. *)
Definition convert_stage {C} (c : ma_data_converter C) : stage :=
  if dc_hasChannelConverter c then channels_pipeline c
  else if dc_hasPostFormatConversion c
  then format_stage (dc_formatOut c) (dc_formatIn c) (dc_channelsIn c) (dc_ditherMode c)
  else no_stage (frame_size_in c).

Section converts.
Context {C : Type} (cfg : ma_data_converter_config C) (c : ma_data_converter C).
Hypothesis Hok : dcc_ok cfg.
Hypothesis W : dc_wf cfg c.
Hypothesis Hres : dc_hasResampler c = false.
Context (inn out : list Z) (nIn nOut : Z).
Hypothesis HnIn : 0 <= nIn <= max_frames.
Hypothesis HnOut : 0 <= nOut <= max_frames.
Hypothesis Hinn : nIn * frame_size_in c <= zlen inn.
Hypothesis Hout : holds_frames (out_grain c) (frame_size_out c) out nOut.

Abbreviation F := (Z.min nIn nOut).

Lemma load_some n : load_count (Some n) = n.
Proof. done. Qed.

Lemma min_is : ma_min nIn nOut = F.
Proof. unfold ma_min. destruct (Z.ltb_spec nIn nOut); lia. Qed.

Abbreviation outcome := (bind (convert_stage c inn F) (fun d =>
  ret (MA_SUCCESS, Some F, Some F, Some (wr out 0 d), c))).

Lemma bytes_in n : 0 <= n <= max_frames -> bytes_of_frames n (dc_formatIn c) (dc_channelsIn c) = n * frame_size_in c.
Proof using Hok W. intros Hn. destruct (dc_channels cfg c W). apply bytes_of_frames_exact; [lia|done]. Qed.
Lemma bytes_out n : 0 <= n <= max_frames -> bytes_of_frames n (dc_formatOut c) (dc_channelsOut c) = n * frame_size_out c.
Proof using Hok W. intros Hn. destruct (dc_channels cfg c W). apply bytes_of_frames_exact; [lia|done]. Qed.

Lemma passthrough_converts :
  dc_executionPath c = ma_data_converter_execution_path_passthrough ->
  ma_data_converter_process_pcm_frames None c (Some inn) (Some nIn) (Some out) (Some nOut) ≈ outcome.
Proof using All.
  intros Hp. unfold ma_data_converter_process_pcm_frames. rewrite Hp.
  unfold ma_data_converter_process_pcm_frames__passthrough. cbv zeta.
  rewrite !load_some. cbn [store_count option_map].
  pose proof (wf_stages_fit _ _ W) as (Hfit & _). rewrite Hp in Hfit. destruct Hfit as (Ef & Ec & _).
  rewrite min_is. rewrite bytes_out by lia. unfold convert_stage, frame_size_out. rewrite <- Ef, <- Ec.
  pose proof (wf_path _ _ W) as Hpath. rewrite Hp in Hpath. unfold select_path in Hpath.
  destruct (dc_isPassthrough c) eqn:Hi.
  2:{ repeat match type of Hpath with context [if ?b then _ else _] => destruct b end; done. }
  rewrite (wf_passthrough _ _ W) in Hi. rewrite !andb_true_iff, !negb_true_iff in Hi.
  destruct Hi as (((_ & ->) & ->) & _). unfold no_stage. by rewrite ret_bind.
Qed.

Lemma format_only_converts :
  dc_executionPath c = ma_data_converter_execution_path_format_only ->
  ma_data_converter_process_pcm_frames None c (Some inn) (Some nIn) (Some out) (Some nOut) ≈ outcome.
Proof using All.
  intros Hp. unfold ma_data_converter_process_pcm_frames. rewrite Hp.
  unfold ma_data_converter_process_pcm_frames__format_only. cbv zeta.
  rewrite !load_some. cbn [store_count option_map].
  pose proof (wf_stages_fit _ _ W) as (Hfit & _). rewrite Hp in Hfit. destruct Hfit as (Ef & Ec & _).
  rewrite min_is. pose proof (wf_path _ _ W) as Hpath. rewrite Hp in Hpath. unfold select_path in Hpath.
  assert (Hcc : dc_hasChannelConverter c = false).
  { repeat match type of Hpath with context [if ?b then _ else _] => destruct b end; done. }
  pose proof (wf_conversions _ _ W) as Hconv. unfold format_conversions in Hconv.
  rewrite Hcc, Hres in Hconv. cbn [negb andb] in Hconv. rewrite decide_False in Hconv by done.
  injection Hconv as _ Hpost. unfold convert_stage. by rewrite Hcc, Hpost.
Qed.

Lemma channels_only_converts :
  dc_executionPath c = ma_data_converter_execution_path_channels_only ->
  ma_data_converter_process_pcm_frames None c (Some inn) (Some nIn) (Some out) (Some nOut) ≈ outcome.
Proof using All.
  intros Hp. unfold ma_data_converter_process_pcm_frames. rewrite Hp.
  unfold ma_data_converter_process_pcm_frames__channels_only. cbv zeta.
  rewrite !load_some. cbn [store_count option_map].
  pose proof (wf_stages_fit _ _ W) as (Hfit & _). rewrite Hp in Hfit. destruct Hfit as (Hcc & _).
  assert (Hs : dc_hasChannelConverter c || dc_hasResampler c = true) by (by rewrite Hcc).
  rewrite min_is. unfold convert_stage. rewrite Hcc.
  destruct (frame_size_bounds cfg c Hok W) as (Hsi & Hso).
  assert (Hx : F * frame_size_in c <= zlen inn) by nia.
  destruct (dc_hasPreFormatConversion c) eqn:Hpre; [|destruct (dc_hasPostFormatConversion c) eqn:Hpost];
    cbn [negb andb].
  3:{ assert (Hx' : F * cc_frame_in (dc_channelConverter c) <= zlen inn).
      { unfold frame_size_in in *. rewrite (pre_absent cfg c W Hs Hpre) in Hx. by destruct (cc_frames cfg c W) as (-> & _). }
      rewrite convert_channels_frames with (cfg := cfg); [|done|lia|done|].
      2:{ apply (room_in_output cfg c W Hs _ _ Hpost). apply (holds_fewer _ _ _ nOut); (done || lia). }
      rewrite ret_bind, (pipeline_bind c inn F), (pre_none c inn F Hpre), ret_bind.
      rewrite frames_of_prefix with (cfg := cfg) by (done || lia).
      assert (Hl := zlen_frames cfg c W inn F ltac:(lia) Hx').
      by rewrite (post_none c _ F Hpost Hl), ret_bind. }
  all: pose proof (channels_pipeline_frames cfg c Hok W Hs) as HS;
    rewrite (channels_loop_converts c (channels_pipeline c) (frame_size_in c) (frame_size_out c) (out_grain c))
      by (try lia; try done; try (by apply (out_grain_divides cfg c W)); try (apply (holds_fewer _ _ _ nOut); (done || lia)); try apply bytes_in; try apply bytes_out;
        try (apply (channels_round_converts cfg c Hok W Hs); by rewrite ?Hpre, ?Hpost); unfold rounds_fuel; lia);
    rewrite Z.sub_0_r, !Z.mul_0_l, drop_0, bind_assoc; by setoid_rewrite ret_bind.
Qed.
End converts.

Lemma unresampled_path {C} (cfg : ma_data_converter_config C) c :
  dc_wf cfg c -> dc_hasResampler c = false ->
  match dc_executionPath c with
  | ma_data_converter_execution_path_passthrough | ma_data_converter_execution_path_format_only
  | ma_data_converter_execution_path_channels_only => True
  | _ => False
  end.
Proof.
  intros W Hres. rewrite (wf_path _ _ W), Hres. unfold select_path.
  repeat match goal with |- context [if ?b then _ else _] => destruct b end; done.
Qed.


(** ** Examples *)

(** Stereo 8-bit frames to mono 16-bit frames. *)
Definition demo_mix_config : ma_data_converter_config unit :=
  ma_data_converter_config_init ma_format_u8 ma_format_s16 2 1 48000 48000.

(** Mono 24-bit frames at 48 kHz to stereo 16-bit frames at 24 kHz. *)
Definition demo_rate_config : ma_data_converter_config unit :=
  ma_data_converter_config_init ma_format_s24 ma_format_s16 1 2 48000 24000.

Definition data_converter_of (cfg : ma_data_converter_config unit) : ma_data_converter unit :=
  match ma_data_converter_init_preallocated demo_libm (Some cfg) with
  | Some (_, c) => c
  | None => ma_data_converter_zero
  end.

Lemma data_converter_of_init cfg :
  option_map fst (ma_data_converter_init_preallocated demo_libm (Some cfg)) = Some MA_SUCCESS ->
  ma_data_converter_init_preallocated demo_libm (Some cfg) = Some (MA_SUCCESS, data_converter_of cfg).
Proof.
  unfold data_converter_of. destruct (ma_data_converter_init_preallocated _ _) as [[r c]|]; [|done].
  by intros [= ->].
Qed.

Lemma demo_configs_ok : dcc_ok demo_mix_config /\ dcc_ok demo_rate_config.
Proof. unfold dcc_ok, MA_MAX_CHANNELS. cbn. split_and!; done || lia. Qed.


Lemma data_converter_well_formed_witness :
  exists c, dc_executionPath c = ma_data_converter_execution_path_resample_first
    /\ stages_fit demo_rate_config c.
Proof.
  exists (data_converter_of demo_rate_config). split; [vm_compute; reflexivity|].
  apply (data_converter_well_formed demo_libm None).
  - apply demo_configs_ok.
  - apply dc_initial, data_converter_of_init. vm_compute. reflexivity.
Defined.
