(* ===== verification/ResamplerStream.v ===== *)
(** * Resampling piece by piece

    [StreamResampler] is what the data converter relies on in a resampler: that handing it
    its input and taking its output in pieces gives what one call gives.  The linear
    resampler discharges it; an application's backend may. *)
From Stdlib Require Import ZArith Lia Bool SpecFloat.
From stdpp Require Import base numbers list option.
From S2P Require Import Prelude MaTypes CFloat PcmFormat PcmFormatProps Biquad LowPass LowPassProps LinearResampler LinearResamplerProps Resampler Stages ChannelFrames.

Local Open Scope Z_scope.

(** ** The loops of the linear resampler *)

Section split.
Context (on_load : ma_linear_resampler -> ma_linear_resampler).
Context (on_output : ma_linear_resampler -> list Z * ma_linear_resampler).
Context (Hload : forall r, same_time r (on_load r)).
Context (Houtput : forall r, same_time r (on_output r).2).

Local Abbreviation load_n := (load_n on_load).
Local Abbreviation loaded := (loaded on_load).
Local Abbreviation next_state := (next_state on_load on_output).
Local Abbreviation output_loop := (output_loop on_load on_output).

Lemma load_n_add a b r p :
  lr_wf r -> Z.of_nat (a + b) <= inTimeInt r ->
  load_n (a + b) r p = load_n b (load_n a r p) (skip_frames (lr_channels r) a p).
Proof using Hload.
  revert r p. induction a as [|a IH]; intros r p Hw Hn.
  - by rewrite skip_frames_0.
  - cbn [Nat.add LinearResamplerProps.load_n]. destruct (load_frame_time on_load Hload r p) as (_ & E1 & E2).
    destruct (load_step_wf on_load Hload r p Hw ltac:(lia)) as (W & _ & C1).
    rewrite E1, E2 in *. rewrite IH by (try done; simpl; lia). by rewrite C1, skip_frames_S.
Qed.

Lemma loaded_after a r p :
  lr_wf r -> Z.of_nat a <= inTimeInt r ->
  loaded (load_n a r p) (skip_frames (lr_channels r) a p) = loaded r p.
Proof using Hload.
  intros Hw Ha. destruct (load_n_spec on_load Hload a r p Hw Ha) as (_ & _ & _ & E & _).
  unfold LinearResamplerProps.loaded. rewrite E, <- load_n_add by (try done; lia). f_equal. lia.
Qed.

(** A run on [n] frames of input for [m] frames of output is a run on less, and then one
    on what that left. *)
Lemma output_loop_split m1 n1 m n r p w :
  lr_wf r -> (n1 <= n)%nat -> (m1 <= m)%nat ->
  output_loop m n r p w =
  let '(k1, M1, y1, r1) := output_loop m1 n1 r p w in
  let '(k2, M2, y2, r2) := output_loop (m - Z.to_nat M1) (n - Z.to_nat k1) r1
                             (skip_frames (lr_channels r) (Z.to_nat k1) p) w in
  (k1 + k2, M1 + M2, y1 ++ y2, r2).
Proof using Hload Houtput.
  revert m n1 n r p. induction m1 as [|m1 IH]; intros m n1 n r p Hw Hn Hm.
  { cbn [LinearResampler.output_loop]. rewrite skip_frames_0, !Nat.sub_0_r.
    by destruct (output_loop m n r p w) as [[[k M] y] r']. }
  destruct m as [|m]; [lia|]. pose proof (lr_time_int r Hw) as Ht.
  rewrite !(output_loop_S on_load on_output Hload) by done.
  destruct (Z.ltb_spec (Z.of_nat n1) (inTimeInt r)) as [L1|L1].
  - destruct (load_n_spec on_load Hload n1 r p Hw ltac:(lia)) as (W & _ & C & D & _).
    rewrite Nat2Z.id, Nat.sub_0_r, (output_loop_S on_load on_output Hload) by done. rewrite D, C.
    destruct (Z.ltb_spec (Z.of_nat n) (inTimeInt r)) as [L|L].
    + rewrite (proj2 (Z.ltb_lt _ _)) by lia. rewrite <- load_n_add by (try done; lia).
      replace (n1 + (n - n1))%nat with n by lia. cbn [app]. f_equal. f_equal. f_equal. lia.
    + rewrite (proj2 (Z.ltb_ge _ _)) by lia. unfold LinearResamplerProps.next_state.
      rewrite loaded_after, skip_frames_add by (try done; lia).
      replace (n - n1 - Z.to_nat (inTimeInt r - Z.of_nat n1))%nat with (n - Z.to_nat (inTimeInt r))%nat by lia.
      replace (n1 + Z.to_nat (inTimeInt r - Z.of_nat n1))%nat with (Z.to_nat (inTimeInt r)) by lia.
      destruct (output_loop m _ _ _ w) as [[[k M] y] r']. cbn [app]. f_equal. f_equal. f_equal. lia.
  - rewrite (proj2 (Z.ltb_ge (Z.of_nat n) _)) by lia.
    destruct (next_state_spec on_load on_output Hload Houtput w r p Hw) as (W & _ & C & _).
    rewrite (IH m (n1 - Z.to_nat (inTimeInt r))%nat (n - Z.to_nat (inTimeInt r))%nat) by (try done; lia).
    pose proof (output_loop_counts on_load on_output Hload Houtput m1 (n1 - Z.to_nat (inTimeInt r)) _
      (skip_frames (lr_channels r) (Z.to_nat (inTimeInt r)) p) w W) as Hcnt. cbv zeta in Hcnt.
    destruct (output_loop m1 _ _ _ w) as [[[k1 M1] y1] r1]. destruct Hcnt as (_ & EM & Hk & _).
    rewrite C, skip_frames_add.
    assert (0 <= M1).
    { rewrite EM. pose proof (out_count_nonneg (rateIn (next_state w r p)) (rateOut (next_state w r p))
        ltac:(apply W) (lr_pos (next_state w r p)) (Z.of_nat (n1 - Z.to_nat (inTimeInt r)))). lia. }
    replace (S m - Z.to_nat (1 + M1))%nat with (m - Z.to_nat M1)%nat by lia.
    replace (n - Z.to_nat (inTimeInt r + k1))%nat with (n - Z.to_nat (inTimeInt r) - Z.to_nat k1)%nat by lia.
    replace (Z.to_nat (inTimeInt r + k1)) with (Z.to_nat (inTimeInt r) + Z.to_nat k1)%nat by lia.
    destruct (output_loop (m - Z.to_nat M1) _ r1 _ w) as [[[k2 M2] y2] r2].
    rewrite app_assoc. f_equal. f_equal. f_equal; lia.
Qed.

(** A run that stops early has used up its input, and without more gives nothing more. *)
Lemma output_loop_starved m n r p w :
  lr_wf r ->
  let '(k, M, y, r') := output_loop m n r p w in
  M < Z.of_nat m -> k = Z.of_nat n /\ forall m' q, output_loop m' 0 r' q w = (0, 0, [], r').
Proof using Hload Houtput.
  revert n r p. induction m as [|m IH]; intros n r p Hw; [simpl; lia|].
  rewrite (output_loop_S on_load on_output Hload) by done. pose proof (lr_time_int r Hw) as Ht.
  destruct (Z.ltb_spec (Z.of_nat n) (inTimeInt r)) as [L|L].
  - intros _. split; [done|]. intros [|m'] q; [done|].
    destruct (load_n_spec on_load Hload n r p Hw ltac:(lia)) as (W & _ & _ & D & _).
    rewrite (output_loop_S on_load on_output Hload) by done. by rewrite (proj2 (Z.ltb_lt _ _)) by lia.
  - destruct (next_state_spec on_load on_output Hload Houtput w r p Hw) as (W & _ & _ & _).
    specialize (IH (n - Z.to_nat (inTimeInt r))%nat _ (skip_frames (lr_channels r) (Z.to_nat (inTimeInt r)) p) W).
    destruct (output_loop m _ _ _ w) as [[[k M] y] r']. intros HM.
    destruct IH as (-> & H); [lia|]. split; [lia|done].
Qed.

(** Only the frames of the input matter. *)
Definition agree (ch : Z) (n : nat) (p q : option (list Z)) : Prop :=
  forall i, (i < n)%nat -> next_frame ch (skip_frames ch i p) = next_frame ch (skip_frames ch i q).

Lemma agree_skip ch n k p q : agree ch n p q -> agree ch (n - k) (skip_frames ch k p) (skip_frames ch k q).
Proof using. intros H i Hi. rewrite !skip_frames_add. apply H. lia. Qed.

Lemma load_n_agree k n r p q :
  lr_wf r -> Z.of_nat k <= inTimeInt r -> (k <= n)%nat -> agree (lr_channels r) n p q ->
  load_n k r p = load_n k r q.
Proof using Hload.
  revert n r p q. induction k as [|k IH]; intros n r p q Hw Ht Hk Ha; [done|].
  cbn [LinearResamplerProps.load_n].
  assert (E : load_frame on_load r p = load_frame on_load r q).
  { unfold load_frame. pose proof (Ha 0%nat ltac:(lia)) as H0. rewrite !skip_frames_0 in H0.
    unfold next_frame in H0. by rewrite H0. }
  rewrite E. destruct (load_frame_time on_load Hload r q) as (_ & E1 & E2).
  destruct (load_step_wf on_load Hload r q Hw ltac:(lia)) as (W & _ & C1). rewrite E1, E2.
  apply (IH (n - 1)%nat); [done|simpl; lia|lia|]. rewrite C1.
  pose proof (agree_skip _ _ 1 _ _ Ha) as H1.
  rewrite <- !skip_frames_S, !skip_frames_0 in H1. exact H1.
Qed.

Lemma output_loop_agree m n r p q w :
  lr_wf r -> agree (lr_channels r) n p q -> output_loop m n r p w = output_loop m n r q w.
Proof using Hload Houtput.
  revert n r p q. induction m as [|m IH]; intros n r p q Hw Ha; [done|].
  rewrite !(output_loop_S on_load on_output Hload) by done. pose proof (lr_time_int r Hw) as Ht.
  destruct (Z.ltb_spec (Z.of_nat n) (inTimeInt r)) as [L|L].
  - by rewrite (load_n_agree n n r p q) by (done || lia).
  - unfold LinearResamplerProps.next_state, LinearResamplerProps.loaded.
    rewrite (load_n_agree (Z.to_nat (inTimeInt r)) n r p q) by (done || lia).
    destruct (next_state_spec on_load on_output Hload Houtput w r q Hw) as (W & _ & C & _).
    erewrite IH; [done|exact W|]. unfold LinearResamplerProps.next_state, LinearResamplerProps.loaded in C.
    rewrite C. by apply agree_skip.
Qed.

(** The clock never asks for more than [B] input frames, so [B] frames give an output frame. *)
Definition clock_within (B : Z) (r : ma_linear_resampler) : Prop :=
  inTimeInt r <= B /\ rateIn r / rateOut r + 1 <= B.

Lemma output_loop_productive B m n r p w :
  lr_wf r -> clock_within B r -> B <= Z.of_nat n -> (0 < m)%nat ->
  let '(_, M, _, _) := output_loop m n r p w in 0 < M.
Proof using Hload Houtput.
  intros Hw (HB & _) Hn Hm. destruct m as [|m]; [lia|].
  rewrite (output_loop_S on_load on_output Hload) by done. rewrite (proj2 (Z.ltb_ge _ _)) by lia.
  destruct (next_state_spec on_load on_output Hload Houtput w r p Hw) as (W & _).
  pose proof (output_loop_counts on_load on_output Hload Houtput m (n - Z.to_nat (inTimeInt r)) _
    (skip_frames (lr_channels r) (Z.to_nat (inTimeInt r)) p) w W) as H. cbv zeta in H.
  destruct (output_loop m _ _ _ w) as [[[k M] y] r']. destruct H as (_ & -> & _).
  pose proof (out_count_nonneg (rateIn (next_state w r p)) (rateOut (next_state w r p))
    ltac:(apply W) (lr_pos (next_state w r p)) (Z.of_nat (n - Z.to_nat (inTimeInt r)))). lia.
Qed.

Lemma advance_time_clock B r :
  lr_wf r -> inTimeInt r = 0 -> rateIn r / rateOut r + 1 <= B -> inTimeInt (advance_time r) <= B.
Proof using.
  intros Hw H0 HB. pose proof Hw as [Hi Ho Ha Hf _ Htf]. unfold advance_time. rewrite H0, Z.add_0_l.
  assert (0 <= rateIn r / rateOut r <= rateIn r) by
    (split; [apply Z.div_pos; lia|apply Z.div_le_upper_bound; nia]).
  assert (Hr : 0 <= rateIn r mod rateOut r < rateOut r) by (apply Z.mod_pos_bound; lia).
  assert (u32 (inAdvanceInt r) = inAdvanceInt r) as -> by (apply wrapu_id; split; lia).
  destruct (_ >=? _); cbn [inTimeInt lr_with_time]; [|lia].
  unfold u32, wrapu. pose proof (Z.mod_le (inAdvanceInt r + 1) (2 ^ 32) ltac:(lia) ltac:(lia)). lia.
Qed.

Lemma output_loop_clock B m n r p w :
  lr_wf r -> clock_within B r -> let '(_, _, _, r') := output_loop m n r p w in clock_within B r'.
Proof using Hload Houtput.
  revert n r p. induction m as [|m IH]; intros n r p Hw Hc; [done|].
  rewrite (output_loop_S on_load on_output Hload) by done. pose proof (lr_time_int r Hw) as Ht.
  destruct Hc as (HB & HA). destruct (Z.ltb_spec (Z.of_nat n) (inTimeInt r)) as [L|L].
  - destruct (load_n_spec on_load Hload n r p Hw ltac:(lia)) as (_ & (Ec & _) & _ & D & _).
    split; [lia|]. unfold rateIn, rateOut in *. by rewrite Ec.
  - destruct (next_state_spec on_load on_output Hload Houtput w r p Hw) as (W & (Ec & _) & _ & _).
    specialize (IH (n - Z.to_nat (inTimeInt r))%nat _ (skip_frames (lr_channels r) (Z.to_nat (inTimeInt r)) p) W).
    destruct (output_loop m _ _ _ w) as [[[k M] y] r']. apply IH.
    split; [|unfold rateIn, rateOut in *; by rewrite Ec].
    destruct (loaded_spec on_load Hload r p Hw) as (A & B' & _ & D & E).
    destruct (emit_time on_output Houtput w (loaded r p)) as (F & G & H).
    unfold LinearResamplerProps.next_state. apply advance_time_clock; [|by rewrite G|].
    + eapply lr_wf_same; [exact A|exact F|rewrite G, D; lia|]. rewrite H. pose proof (lr_time_frac _ A). lia.
    + unfold rateIn, rateOut in *. destruct F as (F & _), B' as (B' & _). by rewrite F, B'.
Qed.

(** The frames in the state, and the filter, keep their sizes. *)
Context (ch : Z) (D : ma_linear_resampler -> Prop).
Context (Dload : forall r x, D r -> zlen x = ch -> D (on_load (lr_with_frames r (lr_x1 r) x))).
Context (Dtime : forall r a b, D r -> D (lr_with_time r a b)).
Context (Doutput : forall r, D r -> zlen (on_output r).1 = ch /\ D (on_output r).2).

Lemma load_n_data k n r (p : list Z) :
  lr_wf r -> Z.of_nat k <= inTimeInt r -> lr_channels r = ch -> 0 <= ch -> (k <= n)%nat ->
  Z.of_nat n * ch <= zlen p -> D r -> D (load_n k r (Some p)).
Proof using Hload Dload Dtime.
  revert n r p. induction k as [|k IH]; intros n r p Hw Ht Hch Hc0 Hk Hp HD; [done|].
  cbn [LinearResamplerProps.load_n option_map]. destruct (load_frame_time on_load Hload r (Some p)) as (_ & E1 & E2).
  destruct (load_step_wf on_load Hload r (Some p) Hw ltac:(lia)) as (W & _ & C1). rewrite E1, E2.
  apply (IH (n - 1)%nat); [done|simpl; lia|by rewrite C1|done|lia| |].
  - rewrite Hch, zlen_drop by nia. nia.
  - apply Dtime, Dload; [done|]. rewrite Hch. rewrite zlen_take by lia. nia.
Qed.

Lemma output_loop_data m n r (p : list Z) :
  lr_wf r -> lr_channels r = ch -> 0 <= ch -> Z.of_nat n * ch <= zlen p -> D r ->
  let '(_, M, y, r') := output_loop m n r (Some p) true in zlen y = M * ch /\ D r'.
Proof using Hload Houtput Dload Dtime Doutput.
  revert n r p. induction m as [|m IH]; intros n r p Hw Hch Hc0 Hp HD; [done|].
  rewrite (output_loop_S on_load on_output Hload) by done. pose proof (lr_time_int r Hw) as Ht.
  destruct (Z.ltb_spec (Z.of_nat n) (inTimeInt r)) as [L|L].
  - split; [done|]. by apply (load_n_data n n); try done; lia.
  - destruct (next_state_spec on_load on_output Hload Houtput true r (Some p) Hw) as (W & _ & C & _).
    assert (HDl : D (loaded r (Some p))) by (by apply (load_n_data _ n); try done; lia).
    destruct (Doutput _ HDl) as (Hy & HDo).
    specialize (IH (n - Z.to_nat (inTimeInt r))%nat (next_state true r (Some p))
      (drop (Z.to_nat (inTimeInt r) * Z.to_nat ch) p)).
    cbn [skip_frames option_map]. rewrite Hch. destruct (output_loop m _ _ _ true) as [[[k M] y] r'].
    destruct IH as (Hl & HD'); [done|by rewrite C|done| | |].
    + replace (Z.to_nat (inTimeInt r) * Z.to_nat ch)%nat with (Z.to_nat (inTimeInt r * ch)) by nia.
      rewrite zlen_drop by nia. nia.
    + unfold LinearResamplerProps.next_state, advance_time. destruct (_ >=? _); by apply Dtime.
    + split; [|done]. cbn [emit fst]. rewrite zlen_app, Hy, Hl. lia.
Qed.
End split.

(** ** The interface *)

(** A resampler in state [r] that is offered [n] frames of [w] bytes, at the start of a
    buffer, and asked for [m]: the frames read, the frames written and the state after. *)
Abbreviation run_of C := (ma_resampler C -> list Z -> Z -> Z -> Z * Z * list Z * ma_resampler C).

(** [inv] describes the states, [B] input frames are enough for an output frame, and none
    gives more than [R]. *)
Class StreamResampler {C} (w B R : Z) (inv : ma_resampler C -> Prop) (run : run_of C) : Prop := {
  run_process : forall r x n m out,
    inv r -> 0 <= n -> 0 <= m -> n * w <= zlen x ->
    let '(k, M, y, r') := run r x n m in
    ma_resampler_process_pcm_frames r (Some x) (Some n) (Some out) (Some m)
    = Some (MA_SUCCESS, Some k, Some M, Some (wr out 0 y), r');
  run_keeps : forall r x n m,
    inv r -> 0 <= n -> 0 <= m -> n * w <= zlen x ->
    let '(k, M, y, r') := run r x n m in 0 <= k <= n /\ 0 <= M <= m /\ zlen y = M * w /\ inv r';
  run_prefix : forall r x n m,
    inv r -> 0 <= n -> 0 <= m -> n * w <= zlen x -> run r x n m = run r (rd x 0 (n * w)) n m;
  run_none : forall r x n, inv r -> run r x n 0 = (0, 0, [], r);
  run_split : forall r x n1 m1 n m,
    inv r -> 0 <= n1 <= n -> 0 <= m1 <= m -> n * w <= zlen x ->
    run r x n m =
    let '(k1, M1, y1, r1) := run r x n1 m1 in
    let '(k2, M2, y2, r2) := run r1 (drop (Z.to_nat (k1 * w)) x) (n - k1) (m - M1) in
    (k1 + k2, M1 + M2, y1 ++ y2, r2);
  run_starved : forall r x n m,
    inv r -> 0 <= n -> 0 <= m -> n * w <= zlen x ->
    let '(k, M, _, r') := run r x n m in
    M < m -> k = n /\ forall x' m', 0 <= m' -> run r' x' 0 m' = (0, 0, [], r');
  run_productive : forall r x n m,
    inv r -> B <= n -> 0 < m -> n * w <= zlen x -> let '(_, M, _, _) := run r x n m in 0 < M;
  run_bounded : forall r x n m,
    inv r -> 0 <= n -> 0 <= m -> n * w <= zlen x -> let '(_, M, _, _) := run r x n m in M <= (n + 1) * R;
  run_required : forall r m, inv r -> 0 < m <= max_frames ->
    exists q, ma_resampler_get_required_input_frame_count r m = Some (MA_SUCCESS, q) /\ 0 <= q
      /\ forall x n, 0 <= n -> n * w <= zlen x ->
         let '(k, M, _, _) := run r x n m in k = Z.min n q /\ (q <= n -> M = m) }.

(** ** Samples and bytes *)

Section bytes.
Context (fmt : ma_format) (Hfmt : fmt = ma_format_s16 \/ fmt = ma_format_f32).

Abbreviation sw := (sample_width fmt).

Lemma sample_width_pos : sw = 2 \/ sw = 4.
Proof using Hfmt. destruct Hfmt as [-> | ->]; [by left|by right]. Qed.

Lemma zlen_encode ys : zlen (encode_samples fmt ys) = zlen ys * sw.
Proof using Hfmt.
  unfold encode_samples. induction ys as [|y ys IH]; [done|]. cbn [map concat].
  rewrite zlen_app, zlen_cons, IH. destruct Hfmt as [-> | ->]; cbn [encode_sample];
    unfold bytes_s16; rewrite zlen_le_bytes; cbn; lia.
Qed.

Lemma split_samples_drop w j c (m : list Z) :
  (j <= c)%nat -> drop j (split_samples w c m) = split_samples w (c - j) (drop (j * w) m).
Proof.
  revert c m. induction j as [|j IH]; intros c m Hj; [by rewrite drop_0, Nat.sub_0_r, drop_0|].
  destruct c as [|c]; [lia|]. cbn [split_samples drop]. rewrite IH by lia.
  by rewrite drop_drop.
Qed.

Lemma split_samples_take w j c (m : list Z) :
  (j <= c)%nat -> take j (split_samples w c m) = split_samples w j m.
Proof.
  revert c m. induction j as [|j IH]; intros c m Hj; [done|].
  destruct c as [|c]; [lia|]. cbn [split_samples take]. by rewrite IH by lia.
Qed.

Lemma zlen_decode x : zlen (decode_samples fmt x) = zlen x / sw.
Proof using Hfmt.
  unfold decode_samples, zlen at 1. rewrite length_map, length_split_samples.
  assert (0 <= zlen x / sw) by (apply Z.div_pos; [zl|destruct sample_width_pos; lia]). lia.
Qed.

Lemma decode_drop x j :
  0 <= j -> j * sw <= zlen x ->
  decode_samples fmt (drop (Z.to_nat (j * sw)) x) = drop (Z.to_nat j) (decode_samples fmt x).
Proof using Hfmt.
  intros Hj Hx. pose proof sample_width_pos as Hw. unfold decode_samples.
  assert (Hjx : j <= zlen x / sw) by (apply Z.div_le_lower_bound; lia).
  rewrite skipn_map, split_samples_drop by lia. f_equal. rewrite zlen_drop by nia.
  replace (zlen x - j * sw) with (zlen x + (- j) * sw) by lia. rewrite Z.div_add by lia.
  f_equal; [lia|f_equal; nia].
Qed.

Lemma decode_prefix x j :
  0 <= j -> j * sw <= zlen x ->
  decode_samples fmt (rd x 0 (j * sw)) = take (Z.to_nat j) (decode_samples fmt x).
Proof using Hfmt.
  intros Hj Hx. pose proof sample_width_pos as Hw. unfold decode_samples.
  assert (Hjx : j <= zlen x / sw) by (apply Z.div_le_lower_bound; lia).
  rewrite firstn_map, split_samples_take by lia. f_equal.
  rewrite zlen_rd, Z.div_mul by nia. unfold rd. rewrite drop_0. symmetry.
  rewrite (split_samples_prefix sw ltac:(lia)). f_equal. f_equal. nia.
Qed.
End bytes.

(** ** The linear resampler *)

Section linear.
Context (lm : libm) {C : Type}.
Context (cfg : ma_linear_resampler_config) (B : Z).

Abbreviation fmt := (lrc_format cfg).
Abbreviation ch := (lrc_channels cfg).
Abbreviation down := (lrc_sampleRateIn cfg >? lrc_sampleRateOut cfg).
Abbreviation on_load := (load_with (unless_equal down fmt)).
Abbreviation on_output := (output_with (unless_equal (negb down) fmt) (mix_of fmt)).
Abbreviation loop := (output_loop on_load on_output).
Abbreviation width := (sample_width fmt * ch).

(** The frames in the state are whole, and the filter is for their channels. *)
Definition frames_whole (r : ma_linear_resampler) : Prop :=
  zlen (lr_x0 r) = ch /\ zlen (lr_x1 r) = ch /\ lpf_wf (lr_lpf r) /\ lpf_channels (lr_lpf r) = ch.

Record linear_ok (r : ma_linear_resampler) : Prop := {
  lo_config : lr_config r = cfg;
  lo_wf : lr_wf r;
  lo_data : frames_whole r;
  lo_clock : clock_within B r }.

Definition linear_inv (r : ma_resampler C) : Prop :=
  (fmt = ma_format_s16 \/ fmt = ma_format_f32) /\ 0 < ch
  /\ rsp_pBackendVTable r = Some (g_ma_linear_resampler_vtable lm)
  /\ exists lr, rsp_pBackend r = Some (backend_linear lr) /\ linear_ok lr.

Definition linear_run : run_of C := fun r x n m =>
  match rsp_pBackend r with
  | Some (backend_linear lr) =>
      let '(k, M, y, lr') := loop (Z.to_nat m) (Z.to_nat n) lr (Some (decode_samples fmt x)) true in
      (k, M, encode_samples fmt y, rsp_with_backend r (backend_linear lr'))
  | _ => (0, 0, [], r)
  end.

Lemma load_time r : same_time r (on_load r).
Proof using. apply load_with_time. Qed.
Lemma output_time r : same_time r (on_output r).2.
Proof using. apply output_with_time. Qed.

Lemma filter_keeps apply c l x :
  fmt = ma_format_s16 \/ fmt = ma_format_f32 -> lpf_wf l -> lpf_channels l = ch -> zlen x = ch ->
  zlen (unless_equal apply fmt c l x).1 = ch /\ lpf_wf (unless_equal apply fmt c l x).2
  /\ lpf_channels (unless_equal apply fmt c l x).2 = ch.
Proof using.
  intros Hf Hw Hc Hx. unfold unless_equal. destruct (apply && _); [|done].
  assert (E : filter_of fmt l x = step_of fmt l x) by (by destruct Hf as [-> | ->]). rewrite E.
  destruct (lpf_frame_step l fmt Hw l x) as (A & W & _ & D); [done|lia|]. split_and!; [lia|done|lia].
Qed.

Lemma load_whole r x :
  fmt = ma_format_s16 \/ fmt = ma_format_f32 -> frames_whole r -> zlen x = ch ->
  frames_whole (on_load (lr_with_frames r (lr_x1 r) x)).
Proof using.
  intros Hf (_ & H1 & Hw & Hc) Hx. unfold load_with. cbn [lr_config lr_with_frames lr_lpf lr_x1].
  destruct (filter_keeps down (lr_config r) (lr_lpf r) x Hf Hw Hc Hx) as (A & W & D).
  destruct (unless_equal _ _ _ _ _) as [y l]. by split_and!.
Qed.

Lemma output_whole r :
  fmt = ma_format_s16 \/ fmt = ma_format_f32 -> frames_whole r ->
  zlen (on_output r).1 = ch /\ frames_whole (on_output r).2.
Proof using.
  intros Hf (H0 & H1 & Hw & Hc). unfold output_with. set (y := mix_of fmt _ _ _ _).
  assert (Hy : zlen y = ch).
  { unfold y, mix_of, zlen in *. destruct fmt; rewrite length_zip_with; lia. }
  destruct (filter_keeps (negb down) (lr_config r) (lr_lpf r) y Hf Hw Hc Hy) as (A & W & D).
  destruct (unless_equal _ _ _ _ _) as [z l]. split; [done|]. by split_and!.
Qed.

(** The loop on the samples of a byte buffer. *)
Lemma loop_spec r x n m :
  fmt = ma_format_s16 \/ fmt = ma_format_f32 -> 0 < ch -> linear_ok r -> 0 <= n -> 0 <= m -> n * width <= zlen x ->
  let '(k, M, y, r') := loop (Z.to_nat m) (Z.to_nat n) r (Some (decode_samples fmt x)) true in
  0 <= k <= n /\ 0 <= M <= m /\ zlen y = M * ch /\ linear_ok r'.
Proof using.
  intros Hf Hch [Ec Hw Hd Hk] Hn Hm Hx. pose proof (sample_width_pos fmt Hf) as Hsw.
  assert (Hlen : Z.of_nat (Z.to_nat n) * ch <= zlen (decode_samples fmt x)).
  { rewrite (zlen_decode fmt Hf), Z2Nat.id by lia. apply Z.div_le_lower_bound; lia. }
  pose proof (output_loop_counts on_load on_output load_time output_time (Z.to_nat m) (Z.to_nat n) r
    (Some (decode_samples fmt x)) true Hw) as H1. cbv zeta in H1.
  pose proof (output_loop_data on_load on_output load_time output_time ch frames_whole
    (fun r x => load_whole r x Hf) (fun r a b H => H) (fun r => output_whole r Hf) (Z.to_nat m) (Z.to_nat n) r
    (decode_samples fmt x) Hw ltac:(unfold lr_channels; by rewrite Ec) ltac:(lia) Hlen Hd) as H2.
  pose proof (output_loop_clock on_load on_output load_time output_time B (Z.to_nat m) (Z.to_nat n) r
    (Some (decode_samples fmt x)) true Hw Hk) as H3.
  destruct (loop _ _ _ _ _) as [[[k M] y] r']. destruct H1 as (_ & EM & Hk' & W & (Ec' & _) & _).
  destruct H2 as (Hy & Hd'). rewrite !Z2Nat.id in * by lia.
  pose proof (out_count_nonneg (rateIn r) (rateOut r) ltac:(apply Hw) (lr_pos r) n).
  split_and!; try lia; try done. split; try done. congruence.
Qed.

Lemma wr_empty (y : list Z) : wr [] 0 y = y.
Proof using. unfold wr. rewrite Z2Nat.inj_0, take_0, drop_nil. apply app_nil_r. Qed.

(** Handing bytes over is handing samples over. *)
Lemma skip_decoded x k :
  fmt = ma_format_s16 \/ fmt = ma_format_f32 -> 0 < ch -> 0 <= k -> k * width <= zlen x ->
  skip_frames ch (Z.to_nat k) (Some (decode_samples fmt x))
  = Some (decode_samples fmt (drop (Z.to_nat (k * width)) x)).
Proof using.
  intros Hf Hch Hk Hx. cbn [skip_frames option_map]. f_equal.
  replace (k * width) with (k * ch * sample_width fmt) by lia.
  rewrite (decode_drop fmt Hf) by lia. f_equal. lia.
Qed.

Lemma decoded_agree x n :
  fmt = ma_format_s16 \/ fmt = ma_format_f32 -> 0 < ch -> 0 <= n -> n * width <= zlen x ->
  agree ch (Z.to_nat n) (Some (decode_samples fmt x)) (Some (decode_samples fmt (rd x 0 (n * width)))).
Proof using.
  intros Hf Hch Hn Hx i Hi. replace (n * width) with (n * ch * sample_width fmt) by lia.
  rewrite (decode_prefix fmt Hf) by lia. cbn [skip_frames option_map next_frame].
  rewrite skipn_firstn_comm, take_take. f_equal. nia.
Qed.

Lemma linear_process r x n m out :
  linear_inv r -> 0 <= n -> 0 <= m -> n * width <= zlen x ->
  let '(k, M, y, r') := linear_run r x n m in
  ma_resampler_process_pcm_frames r (Some x) (Some n) (Some out) (Some m)
  = Some (MA_SUCCESS, Some k, Some M, Some (wr out 0 y), r').
Proof using.
  intros (Hf & Hch & Hv & lr & Hb & [Ec Hw Hd Hk]) Hn Hm Hx.
  unfold linear_run, ma_resampler_process_pcm_frames, call_backend. rewrite Hv, Hb.
  cbn [option_bind onProcess g_ma_linear_resampler_vtable ma_resampling_backend_process__linear on_linear].
  rewrite process_as_loop by (unfold lr_format_ok; by rewrite Ec). unfold rateIn, rateOut. rewrite Ec.
  cbn [option_map]. unfold process_loops. cbn [bool_decide is_Some option_map].
  change (bool_decide (is_Some (Some (@nil Z)))) with true.
  destruct (loop _ _ _ _ _) as [[[k M] y] lr']. cbn [option_map]. by rewrite wr_empty.
Qed.

Lemma linear_split r x n1 m1 n m :
  linear_inv r -> 0 <= n1 <= n -> 0 <= m1 <= m -> n * width <= zlen x ->
  linear_run r x n m =
  let '(k1, M1, y1, r1) := linear_run r x n1 m1 in
  let '(k2, M2, y2, r2) := linear_run r1 (drop (Z.to_nat (k1 * width)) x) (n - k1) (m - M1) in
  (k1 + k2, M1 + M2, y1 ++ y2, r2).
Proof using.
  intros (Hf & Hch & Hv & lr & Hb & Hok) Hn Hm Hx. pose proof (lo_wf _ Hok) as Hw.
  assert (Hsw := sample_width_pos fmt Hf).
  pose proof (loop_spec lr x n1 m1 Hf Hch Hok ltac:(lia) ltac:(lia) ltac:(nia)) as H1.
  unfold linear_run at 1 2. rewrite Hb.
  rewrite (output_loop_split on_load on_output load_time output_time (Z.to_nat m1) (Z.to_nat n1)) by (done || lia).
  destruct (loop (Z.to_nat m1) _ _ _ _) as [[[k1 M1] y1] lr1]. destruct H1 as (H1 & H2 & _ & _).
  unfold linear_run. cbn [rsp_with_backend rsp_pBackend].
  unfold lr_channels. rewrite (lo_config _ Hok), skip_decoded by (done || nia).
  rewrite <- !Z2Nat.inj_sub by lia. destruct (loop (Z.to_nat (m - M1)) _ _ _ _) as [[[k2 M2] y2] lr2].
  unfold encode_samples. by rewrite map_app, concat_app.
Qed.

Lemma linear_frames r :
  linear_inv r ->
  forall x n m, 0 <= n -> 0 <= m -> n * width <= zlen x ->
  let '(k, M, y, r') := linear_run r x n m in 0 <= k <= n /\ 0 <= M <= m /\ zlen y = M * width /\ linear_inv r'.
Proof using.
  intros (Hf & Hch & Hv & lr & Hb & Hok) x n m Hn Hm Hx.
  pose proof (loop_spec lr x n m Hf Hch Hok Hn Hm Hx) as H. unfold linear_run. rewrite Hb.
  destruct (loop _ _ _ _ _) as [[[k M] y] lr']. destruct H as (H1 & H2 & Hy & Hok').
  split_and!; try lia; [rewrite (zlen_encode fmt Hf), Hy; lia|]. split_and!; try done. by exists lr'.
Qed.

Lemma linear_required r m :
  linear_inv r -> 0 < m <= max_frames ->
  exists q, ma_resampler_get_required_input_frame_count r m = Some (MA_SUCCESS, q) /\ 0 <= q
    /\ forall x n, 0 <= n -> n * width <= zlen x ->
       let '(k, M, _, _) := linear_run r x n m in k = Z.min n q /\ (q <= n -> M = m).
Proof using.
  intros (Hf & Hch & Hv & lr & Hb & Hok) Hm. pose proof (lo_wf _ Hok) as Hw. pose proof Hw as [Hi Ho _ _ Ht Htf].
  unfold max_frames in Hm.
  exists (need (lr_pos lr) (rateIn lr) (rateOut lr) (m - 1)). split; [|split].
  - unfold ma_resampler_get_required_input_frame_count, call_backend. rewrite Hv, Hb.
    cbn [option_bind onGetRequiredInputFrameCount g_ma_linear_resampler_vtable
         ma_resampling_backend_get_required_input_frame_count__linear on_linear].
    by rewrite required_eq by (done || lia).
  - unfold need, lr_pos. apply Z.div_pos; nia.
  - intros x n Hn Hx. unfold linear_run. rewrite Hb.
    pose proof (output_loop_counts on_load on_output load_time output_time (Z.to_nat m) (Z.to_nat n) lr
      (Some (decode_samples fmt x)) true Hw) as H1. cbv zeta in H1.
    destruct (loop _ _ _ _ _) as [[[k M] y] lr']. destruct H1 as (-> & -> & _). rewrite !Z2Nat.id by lia.
    pose proof (out_count_spec (rateIn lr) (rateOut lr) ltac:(lia) ltac:(lia) (lr_pos lr) n (m - 1) ltac:(lia)) as Hs.
    unfold in_count. destruct (Z.leb_spec m (out_count (lr_pos lr) (rateIn lr) (rateOut lr) n)) as [L|L].
    + rewrite (proj2 (Z.eqb_neq m 0)) by lia. split; [|lia].
      assert (need (lr_pos lr) (rateIn lr) (rateOut lr) (m - 1) <= n) by (apply Hs; lia). lia.
    + split; [|intros H; apply Hs in H; lia].
      destruct (Z.le_gt_cases (need (lr_pos lr) (rateIn lr) (rateOut lr) (m - 1)) n) as [H|H]; [apply Hs in H|]; lia.
Qed.

(** An input frame gives at most the ratio of the rates, rounded up, and what was pending. *)
Definition outputs_per_input : Z := lrc_sampleRateOut cfg / lrc_sampleRateIn cfg + 2.

Lemma linear_bounded r x n m :
  linear_inv r -> 0 <= n -> 0 <= m -> n * width <= zlen x ->
  let '(_, M, _, _) := linear_run r x n m in M <= (n + 1) * outputs_per_input.
Proof using.
  intros (Hf & Hch & Hv & lr & Hb & Hok) Hn Hm Hx. pose proof (lo_wf _ Hok) as Hw. pose proof Hw as [Hi Ho _ _ Ht Htf].
  unfold linear_run. rewrite Hb.
  pose proof (output_loop_counts on_load on_output load_time output_time (Z.to_nat m) (Z.to_nat n) lr
    (Some (decode_samples fmt x)) true Hw) as H1. cbv zeta in H1.
  destruct (loop _ _ _ _ _) as [[[k M] y] lr']. destruct H1 as (_ & -> & _). rewrite !Z2Nat.id by lia.
  unfold outputs_per_input. rewrite <- (lo_config _ Hok). change (lrc_sampleRateOut (lr_config lr)) with (rateOut lr).
  change (lrc_sampleRateIn (lr_config lr)) with (rateIn lr).
  etransitivity; [apply Z.le_min_r|]. unfold out_count. set (a := rateIn lr) in *. set (b := rateOut lr) in *.
  assert (Hq : 0 <= b / a) by (apply Z.div_pos; lia).
  destruct (_ <=? _); [nia|]. assert (Hpos : 0 <= lr_pos lr) by (unfold lr_pos; fold b; nia).
  pose proof (Z.mul_succ_div_gt b a ltac:(lia)) as Hb'.
  assert (((n + 1) * b - 1 - lr_pos lr) / a <= (n + 1) * (b / a + 1)); [|nia].
  apply Z.div_le_upper_bound; [lia|]. assert ((n + 1) * b <= (n + 1) * (a * Z.succ (b / a))) by (apply Z.mul_le_mono_nonneg_l; lia).
  lia.
Qed.

#[export] Instance linear_streams : StreamResampler width B outputs_per_input linear_inv linear_run.
Proof using.
  split.
  - intros. by apply linear_process.
  - intros r x n m H. by apply linear_frames.
  - intros r x n m (Hf & Hch & Hv & lr & Hb & Hok) Hn Hm Hx. unfold linear_run. rewrite Hb.
    erewrite (output_loop_agree on_load on_output load_time output_time); [done|apply Hok|].
    unfold lr_channels. rewrite (lo_config _ Hok). by apply decoded_agree.
  - intros r x n (Hf & Hch & Hv & lr & Hb & Hok). unfold linear_run. rewrite Hb.
    cbn [Z.to_nat output_loop]. destruct r. cbn in *. by rewrite Hb.
  - intros. by apply linear_split.
  - intros r x n m (Hf & Hch & Hv & lr & Hb & Hok) Hn Hm Hx. unfold linear_run. rewrite Hb.
    pose proof (output_loop_starved on_load on_output load_time output_time (Z.to_nat m) (Z.to_nat n) lr
      (Some (decode_samples fmt x)) true (lo_wf _ Hok)) as H.
    destruct (loop _ _ _ _ _) as [[[k M] y] lr']. intros HM. destruct H as (-> & H); [lia|].
    split; [lia|]. intros x' m' Hm'. cbn [rsp_with_backend rsp_pBackend Z.to_nat]. by rewrite H.
  - intros r x n m (Hf & Hch & Hv & lr & Hb & Hok) Hn Hm Hx. unfold linear_run. rewrite Hb.
    pose proof (lo_clock _ Hok) as Hck. pose proof (lo_wf _ Hok) as Hw. pose proof (lr_time_int _ Hw).
    pose proof (output_loop_productive on_load on_output load_time output_time B (Z.to_nat m) (Z.to_nat n) lr
      (Some (decode_samples fmt x)) true Hw Hck ltac:(destruct Hck; lia) ltac:(lia)) as Hp.
    by destruct (loop _ _ _ _ _) as [[[k M] y] lr'].
  - intros r x n m H. by apply linear_bounded.
  - intros r m H. by apply linear_required.
Qed.
End linear.

(** ** The resampler that initialisation makes *)

Lemma set_rate_internal_lpf lm r a b r' :
  0 < lr_channels r < 2 ^ 32 -> 0 <= lrc_lpfOrder (lr_config r) -> 0 < a < 2 ^ 32 -> 0 < b < 2 ^ 32 ->
  ma_linear_resampler_set_rate_internal lm r a b false = Some (MA_SUCCESS, r') ->
  lpf_wf (lr_lpf r') /\ lpf_channels (lr_lpf r') = lr_channels r
  /\ lr_config r' = with_rates (lr_config r) (a / Z.gcd a b) (b / Z.gcd a b).
Proof.
  intros Hc Hl Ha Hb. unfold ma_linear_resampler_set_rate_internal.
  rewrite (proj2 (Z.eqb_neq a 0)), (proj2 (Z.eqb_neq b 0)) by lia. cbn [orb].
  rewrite ma_gcf_u32_spec by done. cbv zeta.
  destruct (_ >? MA_MAX_FILTER_ORDER); [by intros [? _]%some_result_inj|].
  destruct (ma_lpf_init_preallocated lm _) as [[res lpf]|] eqn:E; [|done].
  destruct (res =? MA_SUCCESS) eqn:Er; cbn [negb]; [|intros [-> _]%some_result_inj; done].
  apply Z.eqb_eq in Er as ->. intros [_ <-]%some_result_inj.
  unfold ma_lpf_init_preallocated in E.
  unshelve epose proof (ma_lpf_reinit__internal_wf lm _ _ _ _ _ _ _ E) as (W & _ & Ec);
    [exact Hc|cbn; unfold ma_min, MA_MAX_FILTER_ORDER; case_match; lia|done|].
  by split.
Qed.

(** The configuration that the linear resampler keeps: the rates are divided by their greatest
    common divisor. *)
Definition reduced_config (s : ma_resampler_settings) : ma_linear_resampler_config :=
  let g := Z.gcd (rs_sampleRateIn s) (rs_sampleRateOut s) in
  with_rates (ma_resampling_backend_get_config__linear s) (rs_sampleRateIn s / g) (rs_sampleRateOut s / g).

Lemma linear_initial lm {C} (s : ma_resampler_settings) vt (r : ma_resampler C) :
  rs_algorithm s = ma_resample_algorithm_linear ->
  rs_format s = ma_format_s16 \/ rs_format s = ma_format_f32 ->
  0 < rs_channels s < 2 ^ 32 -> 0 <= rs_lpfOrder s ->
  0 < rs_sampleRateIn s < 2 ^ 32 -> 0 < rs_sampleRateOut s < 2 ^ 32 ->
  let g := Z.gcd (rs_sampleRateIn s) (rs_sampleRateOut s) in
  rs_sampleRateOut s / g <= 2 ^ 31 ->
  ma_resampler_init_preallocated lm (Some (mk_resampler_config s vt)) = Some (MA_SUCCESS, r) ->
  forall B, rs_sampleRateIn s / rs_sampleRateOut s + 1 <= B ->
  linear_inv lm (reduced_config s) B r.
Proof.
  intros Ha Hf Hc Hl Hi Ho g Hg. unfold ma_resampler_init_preallocated, ma_resampler_get_vtable. cbn [rc_settings].
  rewrite Ha. cbn [option_bind onInit g_ma_linear_resampler_vtable].
  unfold ma_resampling_backend_init__linear. set (c := ma_resampling_backend_get_config__linear s).
  destruct (ma_linear_resampler_init_preallocated lm c) as [[res o]|] eqn:E; [|done]. cbn [option_map].
  intros [= -> <-]. unfold ma_linear_resampler_init_preallocated in E.
  destruct (ma_linear_resampler_get_heap_layout lm (Some c)) as [res lay].
  destruct (res =? MA_SUCCESS) eqn:Er; cbn [negb] in E; [|apply some_result_inj in E as [-> _]; done].
  destruct (ma_linear_resampler_set_rate_internal _ _ _ _ _) as [[res' lr]|] eqn:Es; [|done].
  destruct (res' =? MA_SUCCESS) eqn:Er'; cbn [negb] in E; [|apply some_result_inj in E as [-> _]; done].
  apply Z.eqb_eq in Er' as ->. apply some_result_inj in E as [_ <-].
  unshelve epose proof (set_rate_internal_lpf _ _ _ _ _ _ _ _ _ Es) as (Wl & Cl & Cc); [exact Hc|exact Hl|done|done|].
  apply set_rate_internal_spec in Es as (W & E1 & E2 & E3 & E4 & _ & _ & E5 & E6);
    [|done|done|done|cbn; lia|cbn; unfold rateOut; cbn; lia|cbn; lia].
  intros B HB. fold (reduced_config s) in Cc.
  split_and!; [exact Hf|cbn; lia|done|].
  exists (lr_with_time lr 1 0). split; [done|]. split; [done| | |].
  - eapply lr_wf_same; [exact W|done|cbn; lia|cbn; destruct W; lia].
  - assert (Hz : zlen (zrep (rs_channels s) 0) = rs_channels s) by (apply zlen_zrep; lia).
    split_and!; cbn; [by rewrite E5|by rewrite E6|done|]. by rewrite Cl, <- E4.
  - assert (0 <= rs_sampleRateIn s / rs_sampleRateOut s) by (apply Z.div_pos; lia).
    split; [cbn; lia|]. unfold rateIn, rateOut in *. cbn. rewrite E1, E2. cbn.
    destruct (gcd_quotients (rs_sampleRateIn s) (rs_sampleRateOut s)) as (Q1 & Q2 & Q3); [lia..|].
    fold g in Q1, Q2, Q3 |- *. enough (rs_sampleRateIn s / g / (rs_sampleRateOut s / g) = rs_sampleRateIn s / rs_sampleRateOut s) by lia.
    rewrite <- (Z.div_mul_cancel_l _ _ (rs_sampleRateOut s)), <- Q3, Z.div_mul_cancel_r by lia. done.
Qed.

(** C37. The linear resampler can be fed piece by piece: in the state that initialisation makes,
    and in every state processing leads to, a call on the whole input has the effect of a
    call on a part of it followed by a call on the frames that one left; a call that
    produces less than was asked for has used up its input and kept nothing back; [B] frames
    of input, for any [B] above the ratio of the rates, always give a frame of output, and [n] frames never more than [n + 1] times the inverse
    ratio and two; and as many frames as the resampler says it requires give all the output asked for. *)
Theorem linear_resampler_streams lm {C} (s : ma_resampler_settings) vt (r : ma_resampler C) B :
  rs_algorithm s = ma_resample_algorithm_linear ->
  rs_format s = ma_format_s16 \/ rs_format s = ma_format_f32 ->
  0 < rs_channels s < 2 ^ 32 -> 0 <= rs_lpfOrder s ->
  0 < rs_sampleRateIn s < 2 ^ 32 -> 0 < rs_sampleRateOut s < 2 ^ 32 ->
  rs_sampleRateOut s / Z.gcd (rs_sampleRateIn s) (rs_sampleRateOut s) <= 2 ^ 31 ->
  rs_sampleRateIn s / rs_sampleRateOut s + 1 <= B ->
  ma_resampler_init_preallocated lm (Some (mk_resampler_config s vt)) = Some (MA_SUCCESS, r) ->
  linear_inv lm (reduced_config s) B r
  /\ StreamResampler (sample_width (rs_format s) * rs_channels s) B (outputs_per_input (reduced_config s))
       (linear_inv (C := C) lm (reduced_config s) B) (linear_run (reduced_config s)).
Proof.
  intros Ha Hf Hc Hl Hi Ho Hg HB Hr. split; [by apply (linear_initial lm s vt)|].
  apply (linear_streams lm (reduced_config s) B).
Qed.

(** Mono 16-bit frames from 48 kHz to 32 kHz. *)
Definition demo_settings : ma_resampler_settings :=
  mk_resampler_settings ma_format_s16 1 48000 32000 ma_resample_algorithm_linear 4.

Lemma linear_resampler_streams_witness :
  exists r, ma_resampler_init_preallocated (C := unit) demo_libm (Some (mk_resampler_config demo_settings None))
    = Some (MA_SUCCESS, r)
    /\ linear_inv demo_libm (reduced_config demo_settings) 2 r
    /\ StreamResampler 2 2 2 (linear_inv (C := unit) demo_libm (reduced_config demo_settings) 2)
         (linear_run (reduced_config demo_settings)).
Proof.
  destruct (ma_resampler_init_preallocated (C := unit) demo_libm (Some (mk_resampler_config demo_settings None)))
    as [[res r]|] eqn:E.
  - assert (res = MA_SUCCESS) as ->.
    { assert (H : option_map fst (ma_resampler_init_preallocated (C := unit) demo_libm
        (Some (mk_resampler_config demo_settings None))) = Some MA_SUCCESS) by (vm_compute; reflexivity).
      rewrite E in H. by injection H. }
    exists r. split; [reflexivity|].
    apply (linear_resampler_streams demo_libm demo_settings None r 2).
    + reflexivity.
    + by left.
    + split; vm_compute; congruence.
    + vm_compute. congruence.
    + split; vm_compute; congruence.
    + split; vm_compute; congruence.
    + vm_compute. congruence.
    + vm_compute. congruence.
    + exact E.
  - assert (H : is_Some (option_map fst (ma_resampler_init_preallocated (C := unit) demo_libm
        (Some (mk_resampler_config demo_settings None))))) by (vm_compute; eexists; reflexivity).
    rewrite E in H. by destruct H.
Defined.
