(* ===== verification/DataConverterStream.v ===== *)
(** * Resampling in the data converter

    The loops of the three resampling paths pass the frames through temporary buffers of
    4096 bytes.  Against the interface of ResamplerStream.v they are shown to compute what
    the stages in front of the resampler, the resampler and the stages behind it compute on
    the whole input in one call. *)
From Stdlib Require Import ZArith Lia Bool SpecFloat Morphisms.
From stdpp Require Import base numbers list option.
From S2P Require Import Prelude MaTypes CFloat PcmFormat PcmFormatProps ChannelMap Biquad LowPass LowPassProps LinearResampler ChannelConverter ChannelConverterProps Resampler DataConverter Stages ChannelFrames DataConverterProps ResamplerStream.

Local Open Scope Z_scope.
Local Open Scope lcg_scope.

Lemma within a cap wd : a <= cap -> 0 <= wd -> cap * wd <= 4096 -> a * wd <= 4096.
Proof. intros H Hw Hc. assert (a * wd <= cap * wd) by (apply Z.mul_le_mono_nonneg_r; lia). lia. Qed.

(** ** A stage whose result on the whole input is known *)

Section known.
Context (wi wo : Z) (S : stage) `{!FrameStage wi wo max_frames S}.
Hypothesis Hwi : 0 <= wi.
Hypothesis Hpure : Stateless S.

Lemma stage_known x n u :
  0 <= n <= max_frames -> n * wi <= zlen x -> S x n ≈ ret u -> zlen u = n * wo.
Proof using All. intros Hn Hx E. by apply (stage_len x n 0 u 0 Hn Hx), E. Qed.

(** Then so are the results on the frames in front and behind. *)
Lemma stage_known_split x a n u :
  0 <= a <= n -> n <= max_frames -> n * wi <= zlen x -> S x n ≈ ret u ->
  S x a ≈ ret (rd u 0 (a * wo)) /\ S (drop (Z.to_nat (a * wi)) x) (n - a) ≈ ret (drop (Z.to_nat (a * wo)) u).
Proof using All.
  intros Ha Hn Hx E. destruct Hpure as [g Hg]. set (x2 := drop (Z.to_nat (a * wi)) x).
  replace n with (a + (n - a)) in E by lia.
  assert (Es : bind (S x a) (fun p => bind (S x2 (n - a)) (fun q => ret (p ++ q))) ≈ ret u).
  { etransitivity; [|exact E]. symmetry. apply (stage_split wi wo max_frames S Hwi); nia. }
  specialize (Es 0). unfold bind in Es. rewrite (Hg x a 0) in Es.
  destruct (g x a) as [p|] eqn:Ep; [|done]. cbn [lift] in Es. rewrite (Hg x2 (n - a) 0) in Es.
  destruct (g x2 (n - a)) as [q|] eqn:Eq; [|done]. cbn [lift] in Es.
  injection Es as <-. pose proof (Hg x a) as Ha'. rewrite Ep in Ha'. pose proof (Hg x2 (n - a)) as Hb'. rewrite Eq in Hb'.
  assert (Hp : zlen p = a * wo) by (apply (stage_known x a p); [lia|nia|exact Ha']).
  rewrite Ha', Hb'. split; [by rewrite <- Hp, rd_app_l, rd_all by lia|].
  rewrite <- Hp. unfold zlen. rewrite Nat2Z.id. by rewrite drop_app_length.
Qed.
End known.

(** ** The loop *)

Section loop.
Context {C : Type} (c : ma_data_converter C) (In Out : stage) (wi wo w B R g : Z).
Context (inv : ma_resampler C -> Prop) (run : run_of C) `{!StreamResampler w B R inv run}.
Context `{!FrameStage wi w max_frames In} `{!FrameStage w wo max_frames Out}.
Hypothesis Hwi : 0 <= wi.
Hypothesis Hwo : 0 <= wo.
Hypothesis Hg : (g | wo).
Hypothesis Hw : 0 <= w.
Hypothesis Hpure : Stateless In.
Hypothesis Hin : forall n, 0 <= n <= max_frames -> bytes_of_frames n (dc_formatIn c) (dc_channelsIn c) = n * wi.
Hypothesis Hout : forall n, 0 <= n <= max_frames -> bytes_of_frames n (dc_formatOut c) (dc_channelsOut c) = n * wo.
Context (round : ma_data_converter C -> option (list Z) -> Z -> option (list Z) -> Z ->
             lcgM (ma_result * Z * Z * option (list Z) * ma_data_converter C)).

(** The outcome of handing the converted frames [u] to the resampler and its output to the
    stages behind it; [e] places the bytes. *)
Definition resampled (r : ma_resampler C) (u : list Z) (n m i o : Z) (place : list Z -> list Z)
    : lcgM (ma_result * Z * Z * option (list Z) * ma_data_converter C) :=
  let '(k, M, y, r') := run r u n m in
  bind (Out y M) (fun d => ret (MA_SUCCESS, i + k, o + M, Some (place d), dc_with_resampler c r')).

(** A turn uses some of the frames and of the room; without output, it uses every frame. *)
Definition round_resamples : Prop :=
  forall r x u out n m, inv r -> 0 <= n <= max_frames -> 0 < m <= max_frames ->
    n * wi <= zlen x -> In x n ≈ ret u -> holds_frames g wo out m ->
    exists n1 m1, 0 <= n1 <= n /\ 0 < m1 <= m /\
      (let '(_, M, _, _) := run r u n1 m1 in 0 < M \/ n1 = n) /\
      round (dc_with_resampler c r) (Some x) n (Some out) m ≈ resampled r u n1 m1 0 0 (wr out 0).

Lemma u64_frames n : 0 <= n <= max_frames -> u64 n = n.
Proof using. intros Hn. apply wrapu_id. unfold max_frames in *. split; lia. Qed.

(** Splitting the whole at what one turn does. *)
Lemma resampled_split r u n1 m1 n m i o place :
  inv r -> 0 <= n1 <= n -> n <= max_frames -> 0 <= m1 <= m -> m <= max_frames -> n * w <= zlen u ->
  resampled r u n m i o place ≈
  let '(k, M, y, r1) := run r u n1 m1 in
  bind (Out y M) (fun d =>
    resampled r1 (drop (Z.to_nat (k * w)) u) (n - k) (m - M) (i + k) (o + M) (fun e => place (d ++ e))).
Proof using All.
  intros Hr Hn1 Hn Hm1 Hm Hu. unfold resampled.
  rewrite (run_split (w:=w) r u n1 m1 n m) by (done || lia).
  assert (n1 * w <= n * w) by (apply Z.mul_le_mono_nonneg_r; lia).
  pose proof (run_keeps (w:=w) r u n1 m1 Hr ltac:(lia) ltac:(lia) ltac:(lia)) as H1.
  destruct (run r u n1 m1) as [[[k M] y] r1]. destruct H1 as (Hk & HM & Hy & Hr1).
  pose proof (run_keeps (w:=w) r1 (drop (Z.to_nat (k * w)) u) (n - k) (m - M) Hr1 ltac:(lia) ltac:(lia)) as H2.
  destruct (run r1 _ (n - k) (m - M)) as [[[k2 M2] y2] r2]. destruct H2 as (Hk2 & HM2 & Hy2 & Hr2).
  { assert (k * w <= n1 * w) by (apply Z.mul_le_mono_nonneg_r; lia). rewrite zlen_drop by nia. lia. }
  rewrite (stage_app y y2 M M2) by (try done; lia). rewrite !bind_assoc.
  apply bind_proper; [done|]. intros d. rewrite bind_assoc. apply bind_proper; [done|]. intros e.
  rewrite ret_bind. by rewrite !Z.add_assoc.
Qed.

Lemma rounds_loop_resamples fuel r inn u out n m i o :
  round_resamples -> inv r -> 0 <= i <= n -> n <= max_frames -> 0 <= o <= m -> m <= max_frames ->
  n * wi <= zlen inn -> holds_frames g wo out m -> In (drop (Z.to_nat (i * wi)) inn) (n - i) ≈ ret u ->
  (Z.to_nat (m - o) < fuel)%nat ->
  rounds_loop fuel round (dc_with_resampler c r) (Some inn) n (Some out) m i o
  ≈ resampled r u (n - i) (m - o) i o (wr out (o * wo)).
Proof using All.
  intros Hround. revert r u out i o.
  induction fuel as [|fuel IH]; intros r u out i o Hr Hi Hn Ho HNm Hx Hl Hu Hfuel; [lia|].
  assert (HoF : m * wo <= zlen out) by apply Hl.
  cbn [rounds_loop]. set (x := drop (Z.to_nat (i * wi)) inn) in *.
  assert (i * wi <= n * wi) by (apply Z.mul_le_mono_nonneg_r; lia).
  assert (o * wo <= m * wo) by (apply Z.mul_le_mono_nonneg_r; lia).
  assert (0 <= o * wo) by (apply Z.mul_nonneg_nonneg; lia).
  assert (Hxl : (n - i) * wi <= zlen x) by (unfold x; rewrite zlen_drop by nia; lia).
  assert (Hul : zlen u = (n - i) * w) by (apply (stage_known wi w In Hwi Hpure x); [lia|done|done]).
  destruct (Z.ltb_spec o m) as [Hlt|Hge]; cbn [negb].
  2:{ replace (m - o) with 0 by lia. unfold resampled. rewrite run_none by done.
      by rewrite (stage_none _), ret_bind, wr_nil, !Z.add_0_r. }
  unfold advance. cbn [option_map dc_formatIn dc_channelsIn dc_formatOut dc_channelsOut dc_with_resampler].
  rewrite Hin, Hout by lia. rewrite !u64_frames by lia. fold x.
  destruct (Hround r x u (drop (Z.to_nat (o * wo)) out) (n - i) (m - o)) as (n1 & m1 & Hn1 & Hm1 & HM1 & E).
  { done. } { lia. } { lia. } { done. } { done. } { apply holds_drop; (done || lia). }
  rewrite E. rewrite (resampled_split r u n1 m1 (n - i) (m - o)) by (done || lia). unfold resampled at 1.
  assert (n1 * w <= (n - i) * w) by (apply Z.mul_le_mono_nonneg_r; lia).
  pose proof (run_keeps (w:=w) r u n1 m1 Hr ltac:(lia) ltac:(lia) ltac:(lia)) as Hk.
  pose proof (run_starved (w:=w) r u n1 m1 Hr ltac:(lia) ltac:(lia) ltac:(lia)) as Hs.
  destruct (run r u n1 m1) as [[[k M] y] r1]. destruct Hk as (Hk & HM & Hy & Hr1).
  rewrite bind_assoc. apply bind_ext_post. intros d st st' Hd.
  apply stage_len in Hd; [|lia|lia]. rewrite ret_bind, !Z.add_0_l.
  change (negb (MA_SUCCESS =? MA_SUCCESS)) with false. cbv iota. rewrite !u64_frames by lia.
  unfold put_back. rewrite Hout by lia. rewrite wr_at_part by nia.
  assert (M * wo <= (m - o) * wo) by (apply Z.mul_le_mono_nonneg_r; lia).
  assert (o * wo + zlen d <= zlen out) by nia.
  destruct (Z.eqb_spec M 0) as [->|HM0].
  - destruct HM1 as [?| ->]; [lia|]. destruct Hs as (-> & Hs); [lia|]. unfold resampled.
    rewrite Z.sub_diag, Hs by lia. rewrite (stage_none _), ret_bind, app_nil_r. by rewrite !Z.add_0_r.
  - destruct (stage_known_split wi w In Hwi Hpure x k (n - i) u) as (_ & Hrest); [lia|lia|done|done|].
    unfold x in Hrest. rewrite drop_drop_Z in Hrest by nia.
    replace (i * wi + k * wi) with ((i + k) * wi) in Hrest by lia.
    replace (n - i - k) with (n - (i + k)) in * by lia.
    assert (Hl' : holds_frames g wo (wr out (o * wo) d) m) by (unfold holds_frames; rewrite zlen_wr by lia; exact Hl).
    rewrite (IH r1 _ (wr out (o * wo) d) (i + k) (o + M) Hr1) by (done || lia).
    replace (m - o - M) with (m - (o + M)) by lia. unfold resampled.
    assert (k * w <= zlen u) by (assert (k * w <= (n - i) * w) by (apply Z.mul_le_mono_nonneg_r; lia); lia).
    assert (0 <= k * w) by (apply Z.mul_nonneg_nonneg; lia).
    pose proof (run_keeps (w:=w) r1 (drop (Z.to_nat (k * w)) u) (n - (i + k)) (m - (o + M)) Hr1 ltac:(lia) ltac:(lia)
      ltac:(rewrite zlen_drop by lia; lia)) as Hk2.
    destruct (run r1 _ _ _) as [[[k2 M2] y2] r2]. destruct Hk2 as (Hk2 & HM2 & Hy2 & _).
    apply bind_ext_post. intros e st1 st2 He. apply stage_len in He; [|lia|lia].
    assert ((o + M + M2) * wo <= m * wo) by (apply Z.mul_le_mono_nonneg_r; lia).
    assert (0 <= M2 * wo) by (apply Z.mul_nonneg_nonneg; lia).
    replace ((o + M) * wo) with (o * wo + zlen d) by lia. by rewrite wr_wr_adj by lia.
Qed.
End loop.

(** The interface, with what a resampler never changes. *)
#[export] Instance stream_same {C} w B R (inv : ma_resampler C -> Prop) run r0 :
  StreamResampler w B R inv run -> StreamResampler w B R (fun r => inv r /\ rsp_same r0 r) run.
Proof.
  intros HS. split.
  - intros r x n m out (H & _). by apply (run_process (w:=w)).
  - intros r x n m (H & Hf & Hc) Hn Hm Hx. pose proof (run_keeps (w:=w) r x n m H Hn Hm Hx) as Hk.
    pose proof (run_process (w:=w) r x n m [] H Hn Hm Hx) as Hp.
    destruct (run r x n m) as [[[k M] y] r']. destruct Hk as (? & ? & ? & ?).
    apply resampler_process_same in Hp as (Hf' & Hc'). split_and!; try done; try lia.
    split; congruence.
  - intros r x n m (H & _). by apply run_prefix.
  - intros r x n (H & _). by apply (run_none (w:=w)).
  - intros r x n1 m1 n m (H & _). by apply run_split.
  - intros r x n m (H & _). by apply (run_starved (w:=w)).
  - intros r x n m (H & _). by apply (run_productive (w:=w)).
  - intros r x n m (H & _). by apply (run_bounded (w:=w)).
  - intros r m (H & _). by apply run_required.
Qed.

(** ** The turns of the three paths *)

Section turns.
Context {C : Type} (cfg : ma_data_converter_config C) (c : ma_data_converter C).
Hypothesis Hok : dcc_ok cfg.
Hypothesis W : dc_wf cfg c.
Hypothesis Hres : dc_hasResampler c = true.

Abbreviation cc := (dc_channelConverter c).

(** No random numbers are drawn in front of the resampler. *)
Definition draws_behind : Prop :=
  dc_hasPreFormatConversion c = true -> format_draws (cc_format cc) (dc_formatIn c) (dc_ditherMode c) = false.
Hypothesis Hdraw : draws_behind.

Context (w B R : Z) (inv : ma_resampler C -> Prop) (run : run_of C).
Context (HS : StreamResampler w B R inv run).

(** Enough input for an output frame fits every temporary buffer. *)
Hypothesis HB : B * Z.max (cc_frame_in cc) (cc_frame_out cc) <= 4096.

Abbreviation alike := (fun r => inv r /\ rsp_same (dc_resampler c) r).

Lemma stages_on : dc_hasChannelConverter c || dc_hasResampler c = true.
Proof using Hres. rewrite Hres. apply orb_true_r. Qed.

Lemma pre_frames : FrameStage (frame_size_in c) (cc_frame_in cc) max_frames (pre_stage c).
Proof using Hok W Hres. apply (pre_stage_frames cfg); try done. apply stages_on. Qed.
Lemma post_frames : FrameStage (cc_frame_out cc) (frame_size_out c) max_frames (post_stage c).
Proof using Hok W Hres. apply (post_stage_frames cfg); try done. apply stages_on. Qed.

Lemma pre_stateless : Stateless (pre_stage c).
Proof using Hdraw.
  unfold pre_stage, draws_behind in *. destruct (dc_hasPreFormatConversion c); [|apply no_stage_stateless].
  by apply format_stage_stateless, Hdraw.
Qed.

Lemma widths : 0 < cc_frame_in cc <= 1016 /\ 0 < cc_frame_out cc <= 1016.
Proof using W. apply frame_sizes, (wf_cc _ _ W). Qed.

Lemma caps_enough :
  B <= temp_cap (cc_format cc) (cc_channelsIn cc) /\ B <= temp_cap (cc_format cc) (cc_channelsOut cc).
Proof using W HB.
  pose proof widths. pose proof (wf_cc _ _ W) as Hr. destruct (frame_sizes _ Hr).
  pose proof (ready_in _ Hr). pose proof (ready_out _ Hr).
  destruct (bytes_per_frame_exact (cc_format cc) (cc_channelsIn cc)) as (E1 & _); [lia|].
  destruct (bytes_per_frame_exact (cc_format cc) (cc_channelsOut cc)) as (E2 & _); [lia|].
  unfold temp_cap, DATA_CONVERTER_STACK_BUFFER_SIZE. rewrite E1, E2.
  unfold cc_frame_in, cc_frame_out, cc_width in *. split; apply Z.div_le_lower_bound; nia.
Qed.

Lemma resampler_like r : rsp_same (dc_resampler c) r ->
  rsp_format r = cc_format cc /\ rsp_channels r = Z.min (dc_channelsIn c) (dc_channelsOut c).
Proof using W Hres.
  intros (-> & ->). destruct (wf_resampler _ _ W Hres) as (-> & ->). by rewrite (wf_cc_format _ _ W).
Qed.

(** The resampler as the rounds call it. *)
Lemma resample_runs r x n t m :
  inv r -> 0 <= n -> 0 <= m -> n * w <= zlen x ->
  resample (dc_with_resampler c r) (Some x) n (Some t) m
  ≈ let '(k, M, y, r') := run r x n m in ret (MA_SUCCESS, k, M, Some (wr t 0 y), dc_with_resampler c r').
Proof using All.
  intros Hr Hn Hm Hx. pose proof (run_process (w:=w) r x n m t Hr Hn Hm Hx) as H. unfold resample.
  cbn [dc_resampler dc_with_resampler]. destruct (run r x n m) as [[[k M] y] r']. by rewrite H.
Qed.

(** Frames in a temporary buffer are the frames. *)
Lemma run_of_temp r v n m :
  inv r -> 0 <= n -> 0 <= m -> zlen v = n * w -> zlen v <= 4096 -> run r (in_temp v) n m = run r v n m.
Proof using All.
  intros Hr Hn Hm Hv Hle. destruct (in_temp_app v Hle) as (z & ->).
  rewrite (run_prefix (w:=w) r (v ++ z)) by (try done; rewrite zlen_app; zl).
  rewrite rd_app_l by lia. by rewrite <- Hv, rd_all.
Qed.

(** Format conversion in front, when its result is known. *)
Lemma pre_known x n u :
  dc_hasPreFormatConversion c = true -> pre_stage c x n ≈ ret u ->
  convert_format None (cc_format cc) x (dc_formatIn c) n (dc_channelsIn c) c ≈ ret u.
Proof using Type. intros Hp E. rewrite <- E. unfold pre_stage. by rewrite Hp. Qed.

Lemma convert_format_with r fo x fi n ch :
  convert_format None fo x fi n ch (dc_with_resampler c r) = convert_format None fo x fi n ch c.
Proof using Type. done. Qed.

(** The resampler on frames that lie in a temporary buffer. *)
Lemma resample_temp r u n n1 t m :
  inv r -> 0 <= n1 <= n -> 0 <= m -> zlen u = n * w -> n1 * w <= 4096 -> 0 <= w ->
  resample (dc_with_resampler c r) (Some (in_temp (rd u 0 (n1 * w)))) n1 (Some t) m
  ≈ let '(k, M, y, r') := run r u n1 m in ret (MA_SUCCESS, k, M, Some (wr t 0 y), dc_with_resampler c r').
Proof using All.
  intros Hr Hn Hm Hu Hle Hw. assert (n1 * w <= n * w) by (apply Z.mul_le_mono_nonneg_r; lia).
  assert (Hvl : zlen (rd u 0 (n1 * w)) = n1 * w) by (apply zlen_rd; nia).
  destruct (in_temp_app (rd u 0 (n1 * w))) as (z & Ez); [lia|].
  rewrite resample_runs by (try done; try lia; rewrite Ez, zlen_app; zl).
  by rewrite run_of_temp, <- (run_prefix (w:=w)) by (done || lia).
Qed.

(** And on frames that need no conversion in front. *)
Lemma frames_given x n u :
  dc_hasPreFormatConversion c = false -> 0 <= n <= max_frames -> n * frame_size_in c <= zlen x -> pre_stage c x n ≈ ret u ->
  n * cc_frame_in cc <= zlen x /\ u = rd x 0 (n * cc_frame_in cc).
Proof using All.
  intros Hp Hn Hx Hu. rewrite (pre_none c x n Hp) in Hu. specialize (Hu 0). injection Hu as <-. split; [|done].
  unfold frame_size_in in Hx. rewrite (pre_absent cfg c W stages_on Hp) in Hx. by destruct (cc_frames cfg c W) as (-> & _).
Qed.

Lemma resample_given r x u n n1 t m :
  inv r -> w = cc_frame_in cc -> dc_hasPreFormatConversion c = false ->
  0 <= n1 <= n -> n <= max_frames -> 0 <= m -> n * frame_size_in c <= zlen x -> pre_stage c x n ≈ ret u ->
  resample (dc_with_resampler c r) (Some x) n1 (Some t) m
  ≈ let '(k, M, y, r') := run r u n1 m in ret (MA_SUCCESS, k, M, Some (wr t 0 y), dc_with_resampler c r').
Proof using All.
  intros Hr Ew Hp Hn1 Hn Hm Hx Hu. destruct (frames_given x n u) as (Hxw & ->); [done|lia|done|done|].
  pose proof widths as ((Hw0 & _) & _). rewrite <- Ew in Hxw, Hw0 |- *.
  assert (n1 * w <= n * w) by (apply Z.mul_le_mono_nonneg_r; lia).
  rewrite resample_runs by (done || lia).
  rewrite (run_prefix (w:=w) r x), (run_prefix (w:=w) r (rd x 0 (n * w))) by (rewrite ?zlen_rd; done || nia).
  rewrite rd_rd by nia. by rewrite Z.add_0_l.
Qed.

(** A turn that is given all the frames, or enough of them, gets on. *)
Lemma turn_progress r u n n1 m1 :
  inv r -> 0 < m1 -> n1 * w <= zlen u -> n1 = n \/ B <= n1 ->
  let '(_, M, _, _) := run r u n1 m1 in 0 < M \/ n1 = n.
Proof using All.
  intros Hr Hm Hu [->|HBn]; [destruct (run r u n m1) as [[[? ?] ?] ?]; by right|].
  pose proof (run_productive (w:=w) r u n1 m1 Hr HBn Hm Hu) as Hp.
  destruct (run r u n1 m1) as [[[? ?] ?] ?]. by left.
Qed.

(** The same with the prediction of the frames needed in front. *)
Lemma turn_predicted r m1 :
  inv r -> 0 < m1 <= max_frames ->
  exists q, required_frames (dc_with_resampler c r) m1 ≈ ret q /\ 0 <= q
    /\ forall u n n', 0 <= n' <= n -> n * w <= zlen u -> 0 <= w -> n' = n \/ B <= n' ->
      let n1 := Z.min n' q in
      let '(_, M, _, _) := run r u n1 m1 in 0 < M \/ n1 = n.
Proof using All.
  intros Hr Hm. destruct (run_required (w:=w) r m1 Hr Hm) as (q & Eq & Hq & Hrun). exists q. split_and!; [|done|].
  - unfold required_frames. cbn [dc_resampler dc_with_resampler]. by rewrite Eq.
  - intros u n n' Hn Hu Hw Hn' n1. assert (n' * w <= n * w) by (apply Z.mul_le_mono_nonneg_r; lia).
    destruct (Z.le_gt_cases q n') as [Hle|Hgt].
    + assert (q * w <= n' * w) by (apply Z.mul_le_mono_nonneg_r; lia). unfold n1. rewrite Z.min_r by lia.
      pose proof (Hrun u q ltac:(lia) ltac:(lia)) as Hp. destruct (run r u q m1) as [[[? ?] ?] ?]. destruct Hp. left. lia.
    + unfold n1. rewrite Z.min_l by lia. apply turn_progress; (done || lia).
Qed.

(** *** Resampling only *)

Lemma resample_only_turn :
  dc_channelsIn c = dc_channelsOut c -> w = cc_frame_in cc ->
  dc_hasPreFormatConversion c || dc_hasPostFormatConversion c = true ->
  round_resamples c (pre_stage c) (post_stage c) (frame_size_in c) (frame_size_out c) (out_grain c) alike run (resample_round None).
Proof using All.
  intros Hch Ew Hfc r x u out n m (Hr & Hlike) Hn Hm Hx Hu Hout.
  destruct (resampler_like r Hlike) as (Ef & Ec). rewrite Hch, Z.min_id in Ec.
  destruct widths as (Hwi & Hwo). destruct caps_enough as (_ & HBo).
  destruct (channels_caps cfg c Hok W) as (_ & _ & Hco & Hfo).
  destruct (cc_frames cfg c W) as (Ei & Eo). assert (Eio : cc_frame_out cc = cc_frame_in cc) by (rewrite Ei, Eo, Hch; done).
  pose proof (wf_cc_channels _ _ W) as (_ & Ecc).
  pose proof pre_frames as HSi. pose proof pre_stateless as Hst.
  assert (Hul : zlen u = n * w).
  { rewrite Ew. apply (stage_known (frame_size_in c) (cc_frame_in cc) (pre_stage c)) with (x := x); try done.
    destruct (frame_size_bounds cfg c Hok W); lia. }
  unfold resample_round. cbn [dc_resampler dc_hasPreFormatConversion dc_hasPostFormatConversion dc_formatIn
    dc_channelsIn dc_formatOut dc_with_resampler].
  rewrite Ef, Ec, <- Ecc, !cap_at_min. set (cap := temp_cap (cc_format cc) (cc_channelsOut cc)) in *.
  set (m1 := if dc_hasPostFormatConversion c then Z.min m cap else m).
  set (n1 := if dc_hasPreFormatConversion c then Z.min n cap else n).
  exists n1, m1.
  assert (Hn1 : 0 <= n1 <= n /\ (n1 = n \/ B <= n1) /\ (dc_hasPreFormatConversion c = true -> n1 * w <= 4096)).
  { unfold n1. destruct (dc_hasPreFormatConversion c); [|split_and!; try lia; done]. split_and!; try lia. nia. }
  assert (Hm1 : 0 < m1 <= m /\ (dc_hasPostFormatConversion c = true -> m1 * cc_frame_out cc <= 4096)).
  { unfold m1. destruct (dc_hasPostFormatConversion c); [|split; [lia|done]]. split; [lia|nia]. }
  destruct Hn1 as (Hn1 & HBn & Hfi). destruct Hm1 as (Hm1 & Hfo1).
  assert (Hle : n1 * w <= n * w) by (apply Z.mul_le_mono_nonneg_r; lia).
  split; [done|]. split; [done|]. split; [apply turn_progress; done || lia|].
  set (t := if dc_hasPostFormatConversion c then temp_buffer else out).
  transitivity (bind (let '(k, M, y, r') := run r u n1 m1 in
    ret (MA_SUCCESS, k, M, Some (wr t 0 y), dc_with_resampler c r'))
    (fun '(result, k, M, o, c') => match o with
      | Some o => if dc_hasPostFormatConversion c
                  then bind (convert_format None (dc_formatOut c) o (cc_format cc) M (cc_channelsOut cc) c)
                         (fun d => ret (MA_SUCCESS, k, M, Some (wr out 0 d), c'))
                  else ret (MA_SUCCESS, k, M, Some o, c')
      | None => ret (MA_SUCCESS, k, M, None, c')
      end)).
  { assert (Hv : pre_stage c x n1 ≈ ret (rd u 0 (n1 * w))).
    { rewrite Ew. apply (stage_known_split (frame_size_in c) (cc_frame_in cc) (pre_stage c)) with (n := n); try done.
      - destruct (frame_size_bounds cfg c Hok W); lia.
      - lia. }
    assert (Hvl : zlen (rd u 0 (n1 * w)) = n1 * w) by (apply zlen_rd; nia).
    unfold n1, t, m1 in *. clear n1 t m1. destruct (dc_hasPreFormatConversion c) eqn:Hpre.
    - specialize (Hfi eq_refl). set (n1 := Z.min n cap) in *.
      replace (if dc_hasPostFormatConversion c then Z.min n1 cap else n1) with n1
        by (unfold n1; destruct (dc_hasPostFormatConversion c); lia).
      rewrite convert_format_with, pre_known, !ret_bind by done.
      destruct (dc_hasPostFormatConversion c); rewrite (resample_temp r u n n1) by (done || lia);
        by destruct (run r u n1 _) as [[[k M] y] r'].
    - cbn [orb] in Hfc. rewrite Hfc, (resample_given r x u n n) by (done || lia).
      by destruct (run r u n _) as [[[k M] y] r']. }
  pose proof (run_keeps (w:=w) r u n1 m1 Hr ltac:(lia) ltac:(lia) ltac:(lia)) as Hk. unfold resampled.
  destruct (run r u n1 m1) as [[[k M] y] r']. destruct Hk as (Hk & HM & Hy & _). rewrite ret_bind.
  apply (finish_turn cfg c Hok W stages_on (fun z => (MA_SUCCESS, 0 + k, 0 + M, Some z, dc_with_resampler c r')));
    [done|lia|lia|]. intros Hp. specialize (Hfo1 Hp). nia.
Qed.

(** *** Resampling before the channels are converted *)

(** Format conversion, where there is any, and the resampler behind it. *)
Lemma front_resamples {A} r x u n n1 t m (k : ma_result * Z * Z * option (list Z) * ma_data_converter C -> lcgM A) :
  inv r -> w = cc_frame_in cc -> 0 <= n1 <= n -> n <= max_frames -> 0 <= m ->
  n * frame_size_in c <= zlen x -> pre_stage c x n ≈ ret u ->
  (dc_hasPreFormatConversion c = true -> n1 * w <= 4096) ->
  bind (if dc_hasPreFormatConversion c
        then bind (convert_format None (cc_format cc) x (dc_formatIn c) n1 (dc_channelsIn c) (dc_with_resampler c r))
               (fun d => ret (Some (in_temp d)))
        else ret (Some x))
    (fun b => bind (resample (dc_with_resampler c r) b n1 (Some t) m) k)
  ≈ bind (let '(i, M, y, r') := run r u n1 m in ret (MA_SUCCESS, i, M, Some (wr t 0 y), dc_with_resampler c r')) k.
Proof using All.
  intros Hr Ew Hn1 Hn Hm Hx Hu Hfit. pose proof widths as ((Hw0 & _) & _).
  destruct (frame_size_bounds cfg c Hok W) as (Hsi & _).
  destruct (dc_hasPreFormatConversion c) eqn:Hp.
  - pose proof pre_frames as HSi. pose proof pre_stateless as Hst.
    destruct (stage_known_split (frame_size_in c) (cc_frame_in cc) (pre_stage c) ltac:(lia) Hst x n1 n u)
      as (Hv & _); try done.
    assert (Hul : zlen u = n * w).
    { rewrite Ew. by apply (stage_known (frame_size_in c) (cc_frame_in cc) (pre_stage c) ltac:(lia) Hst x); [lia|..]. }
    specialize (Hfit eq_refl).
    rewrite convert_format_with, (pre_known _ _ _ Hp Hv), !ret_bind.
    rewrite <- Ew. by rewrite (resample_temp r u n n1) by (done || lia).
  - rewrite ret_bind. by rewrite (resample_given r x u n n1) by (done || lia).
Qed.

(** The channel converter behind the resampler, and format conversion behind that. *)
Lemma channels_behind {A} (k : list Z -> A) y M out (K : ma_result * option (list Z) -> lcgM A) :
  (forall z, K (MA_SUCCESS, Some z) =
    if dc_hasPostFormatConversion c
    then bind (convert_format None (dc_formatOut c) z (cc_format cc) M (cc_channelsOut cc) c) (fun d => ret (k (wr out 0 d)))
    else ret (k z)) ->
  0 <= M <= max_frames -> zlen y = M * cc_frame_in cc -> M * cc_frame_in cc <= 4096 ->
  holds_frames (out_grain c) (frame_size_out c) out M -> (dc_hasPostFormatConversion c = true -> M * cc_frame_out cc <= 4096) ->
  bind (convert_channels cc (if dc_hasPostFormatConversion c then Some temp_buffer else Some out) (Some (in_temp y)) M)
    K
  ≈ bind (then_stage (channel_stage cc) (post_stage c) y M) (fun d => ret (k (wr out 0 d))).
Proof using All.
  intros HK HM Hy Hyl Hout Hfit. destruct widths as (Hwi & Hwo).
  set (t := if dc_hasPostFormatConversion c then temp_buffer else out).
  destruct (in_temp_app y) as (z & Ez); [lia|].
  assert (Hxl : M * cc_frame_in cc <= zlen (in_temp y)) by (rewrite Ez, zlen_app; zl).
  assert (Hroom : room c t M).
  { unfold t. destruct (dc_hasPostFormatConversion c) eqn:Hp; [by apply (room_in_temp cfg c W), Hfit|].
    by apply (room_in_output cfg c W stages_on). }
  assert (E : convert_channels cc (if dc_hasPostFormatConversion c then Some temp_buffer else Some out) (Some (in_temp y)) M
    ≈ ret (MA_SUCCESS, Some (wr t 0 (frames_of cc y M)))).
  { rewrite <- (frames_of_temp cfg c W y M) by lia. unfold t in *.
    destruct (dc_hasPostFormatConversion c); apply (convert_channels_frames cfg c W); (done || lia). }
  rewrite E, ret_bind, HK. unfold then_stage. rewrite channel_stage_eq, ret_bind.
  apply (finish_turn cfg c Hok W stages_on k); [done|lia| |done]. apply (zlen_frames cfg c W); lia.
Qed.

Lemma resample_first_turn :
  dc_channelsIn c <= dc_channelsOut c -> w = cc_frame_in cc ->
  round_resamples c (pre_stage c) (then_stage (channel_stage cc) (post_stage c)) (frame_size_in c) (frame_size_out c)
    (out_grain c) alike run (resample_first_round None).
Proof using All.
  intros Hch Ew r x u out n m (Hr & Hlike) Hn Hm Hx Hu Hout.
  destruct (resampler_like r Hlike) as (Ef & Ec). rewrite Z.min_l in Ec by done.
  destruct widths as (Hwi & Hwo). destruct caps_enough as (HBi & _).
  destruct (channels_caps cfg c Hok W) as (Hci & Hfi & Hco & Hfo).
  pose proof (wf_cc_channels _ _ W) as (Eci & _).
  pose proof pre_frames as HSi. pose proof pre_stateless as Hst.
  assert (Hul : zlen u = n * w).
  { rewrite Ew. apply (stage_known (frame_size_in c) (cc_frame_in cc) (pre_stage c)) with (x := x); try done.
    destruct (frame_size_bounds cfg c Hok W); lia. }
  unfold resample_first_round. cbn [dc_resampler dc_hasPreFormatConversion dc_hasPostFormatConversion dc_formatIn
    dc_channelsIn dc_formatOut dc_channelConverter dc_with_resampler].
  rewrite Eci in *. rewrite Ef, Ec, !cap_at_min.
  set (capIn := temp_cap (cc_format cc) (dc_channelsIn c)) in *.
  set (capOut := temp_cap (cc_format cc) (cc_channelsOut cc)) in *. cbv zeta.
  set (m1 := if dc_hasPostFormatConversion c then Z.min (Z.min m capIn) capOut else Z.min m capIn).
  set (n' := if dc_hasPreFormatConversion c then Z.min n capIn else n).
  assert (Hm1 : 0 < m1 <= m /\ m1 <= capIn /\ (dc_hasPostFormatConversion c = true -> m1 <= capOut))
    by (unfold m1; destruct (dc_hasPostFormatConversion c); lia).
  destruct Hm1 as (Hm1 & Hm1c & Hm1o).
  assert (Hn' : 0 <= n' <= n /\ (n' = n \/ B <= n') /\ (dc_hasPreFormatConversion c = true -> n' <= capIn))
    by (unfold n'; destruct (dc_hasPreFormatConversion c); lia).
  destruct Hn' as (Hn' & HBn & Hni). clearbody m1 n'.
  destruct (turn_predicted r m1 Hr ltac:(lia)) as (q & Eq & Hq & Hrun). set (n1 := Z.min n' q).
  exists n1, m1. split; [lia|]. split; [done|]. split; [apply Hrun; (done || lia)|].
  rewrite Eq, ret_bind, cap_at_min. fold n1.
  assert (Hnw : dc_hasPreFormatConversion c = true -> n1 * w <= 4096).
  { intros Hp. rewrite Ew. apply (within n1 capIn); [specialize (Hni Hp)|..]; lia. }
  rewrite (front_resamples r x u n n1) by (done || lia).
  assert (n1 * w <= n * w) by (apply Z.mul_le_mono_nonneg_r; lia).
  pose proof (run_keeps (w:=w) r u n1 m1 Hr ltac:(lia) ltac:(lia) ltac:(lia)) as Hk. unfold resampled.
  destruct (run r u n1 m1) as [[[k M] y] r']. destruct Hk as (Hk & HM & Hy & _). rewrite ret_bind.
  change (negb (MA_SUCCESS =? MA_SUCCESS)) with false. cbv iota. change (wr temp_buffer 0 y) with (in_temp y).
  apply (channels_behind (fun z => (MA_SUCCESS, 0 + k, 0 + M, Some z, dc_with_resampler c r')) y M);
    [by destruct (dc_hasPostFormatConversion c)|lia|congruence|apply (within M capIn); lia|destruct (frame_size_bounds cfg c Hok W); apply (holds_fewer _ _ _ m); (done || lia)|].
  intros Hp. apply (within M capOut); [specialize (Hm1o Hp)|..]; lia.
Qed.

(** *** Converting the channels before resampling *)

Definition front_channels : stage := then_stage (pre_stage c) (channel_stage cc).

Lemma front_channels_frames : FrameStage (frame_size_in c) (cc_frame_out cc) max_frames front_channels.
Proof using Hok W Hres Hdraw.
  pose proof pre_frames. pose proof (wf_cc _ _ W) as Hr. pose proof (channel_stage_frames cc Hr).
  apply (then_stage_frames _ (cc_frame_in cc)); [done|done|destruct widths; lia|left; apply pre_stateless].
Qed.

Lemma front_channels_stateless : Stateless front_channels.
Proof using Hdraw.
  apply then_stage_stateless; [apply pre_stateless|apply per_frame_stateless].
Qed.

(** The channel converter behind format conversion, where there is any. *)
Lemma channels_in_front {A} r x v n (k : ma_result * option (list Z) -> lcgM A) :
  0 <= n <= max_frames -> n * frame_size_in c <= zlen x -> front_channels x n ≈ ret v ->
  (dc_hasPreFormatConversion c = true -> n * cc_frame_in cc <= 4096) -> n * cc_frame_out cc <= 4096 ->
  bind (if dc_hasPreFormatConversion c
        then bind (convert_format None (cc_format cc) x (dc_formatIn c) n (dc_channelsIn c) (dc_with_resampler c r))
               (fun d => ret (Some (in_temp d)))
        else ret (Some x))
    (fun b => bind (convert_channels cc (Some temp_buffer) b n) k)
  ≈ k (MA_SUCCESS, Some (in_temp v)).
Proof using All.
  intros Hn Hx Hv Hfit Hfo. destruct pre_stateless as [g Hg]. pose proof pre_frames as HSi.
  destruct (frame_size_bounds cfg c Hok W) as (Hsi & _). pose proof widths as (Hwi & _).
  unfold front_channels, then_stage in Hv. pose proof (Hv 0) as H0. unfold bind in H0. rewrite (Hg x n 0) in H0.
  destruct (g x n) as [p|] eqn:Ep; [|done]. cbn [lift] in H0. rewrite channel_stage_eq in H0. injection H0 as <-.
  assert (Hp : pre_stage c x n ≈ ret p) by (rewrite (Hg x n), Ep; done).
  assert (Hpl : zlen p = n * cc_frame_in cc) by (apply (stage_len x n 0 p 0 Hn Hx), Hp).
  destruct (dc_hasPreFormatConversion c) eqn:Hpre.
  - specialize (Hfit eq_refl). rewrite convert_format_with, (pre_known _ _ _ Hpre Hp), !ret_bind.
    destruct (in_temp_app p) as (z & Ez); [lia|].
    assert (Hxl : n * cc_frame_in cc <= zlen (in_temp p)) by (rewrite Ez, zlen_app; zl).
    rewrite (convert_channels_frames cfg c W _ temp_buffer n Hn Hxl (room_in_temp cfg c W n Hfo)).
    by rewrite ret_bind, (frames_of_temp cfg c W) by (done || lia).
  - destruct (frames_given x n p Hpre Hn Hx Hp) as (Hxw & ->). rewrite ret_bind.
    rewrite (convert_channels_frames cfg c W _ temp_buffer n Hn Hxw (room_in_temp cfg c W n Hfo)).
    by rewrite ret_bind, (frames_of_prefix cfg c W) by done.
Qed.

Lemma channels_first_turn :
  dc_channelsOut c <= dc_channelsIn c -> w = cc_frame_out cc ->
  round_resamples c front_channels (post_stage c) (frame_size_in c) (frame_size_out c)
    (out_grain c) alike run (channels_first_round None).
Proof using All.
  intros Hch Ew r x u out n m (Hr & Hlike) Hn Hm Hx Hu Hout.
  destruct (resampler_like r Hlike) as (Ef & Ec). rewrite Z.min_r in Ec by done.
  destruct widths as (Hwi & Hwo). destruct caps_enough as (HBi & HBo).
  destruct (channels_caps cfg c Hok W) as (Hci & Hfi & Hco & Hfo).
  pose proof (wf_cc_channels _ _ W) as (_ & Eco). destruct (frame_size_bounds cfg c Hok W) as (Hsi & _).
  pose proof front_channels_frames as HSi. pose proof front_channels_stateless as Hst.
  assert (Hul : zlen u = n * w).
  { rewrite Ew. by apply (stage_known (frame_size_in c) (cc_frame_out cc) front_channels ltac:(lia) Hst x). }
  unfold channels_first_round. cbn [dc_resampler dc_hasPreFormatConversion dc_hasPostFormatConversion dc_formatIn
    dc_channelsIn dc_channelsOut dc_formatOut dc_channelConverter dc_with_resampler].
  rewrite Ef, Ec, <- Eco, !cap_at_min.
  set (capIn := temp_cap (cc_format cc) (cc_channelsIn cc)) in *.
  set (capOut := temp_cap (cc_format cc) (cc_channelsOut cc)) in *. cbv zeta.
  replace (if dc_hasPostFormatConversion c then Z.min (Z.min m capOut) capOut else Z.min m capOut) with (Z.min m capOut)
    by (destruct (dc_hasPostFormatConversion c); lia).
  set (m1 := Z.min m capOut). assert (Hm1 : 0 < m1 <= m /\ m1 <= capOut) by lia.
  set (n' := Z.min (if dc_hasPreFormatConversion c then Z.min n capIn else n) capOut).
  assert (Hn' : 0 <= n' <= n /\ n' <= capOut /\ (n' = n \/ B <= n') /\ (dc_hasPreFormatConversion c = true -> n' <= capIn))
    by (unfold n'; destruct (dc_hasPreFormatConversion c); lia).
  destruct Hn' as (Hn' & Hno & HBn & Hni). clearbody m1 n'.
  destruct (turn_predicted r m1 Hr ltac:(lia)) as (q & Eq & Hq & Hrun). set (n1 := Z.min n' q).
  exists n1, m1. split; [lia|]. split; [lia|]. split; [apply Hrun; (done || lia)|].
  rewrite Eq, ret_bind, cap_at_min. fold n1.
  destruct (stage_known_split (frame_size_in c) (cc_frame_out cc) front_channels ltac:(lia) Hst x n1 n u)
    as (Hv & _); [lia|lia|done|done|]. rewrite <- Ew in Hv.
  assert (n1 * w <= n * w) by (apply Z.mul_le_mono_nonneg_r; lia).
  assert (n1 * frame_size_in c <= n * frame_size_in c) by (apply Z.mul_le_mono_nonneg_r; lia).
  assert (Hn1o : n1 * w <= 4096) by (rewrite Ew; apply (within n1 capOut); lia).
  rewrite (channels_in_front r x (rd u 0 (n1 * w)) n1); [|lia|lia|done| |by rewrite <- Ew].
  2:{ intros Hp. apply (within n1 capIn); [specialize (Hni Hp)|..]; lia. }
  change (negb (MA_SUCCESS =? MA_SUCCESS)) with false. cbv iota.
  set (t := if dc_hasPostFormatConversion c then temp_buffer else out).
  replace (if dc_hasPostFormatConversion c then Some temp_buffer else Some out) with (Some t)
    by (unfold t; by destruct (dc_hasPostFormatConversion c)).
  rewrite (resample_temp r u n n1) by (done || lia). unfold resampled.
  pose proof (run_keeps (w:=w) r u n1 m1 Hr ltac:(lia) ltac:(lia) ltac:(lia)) as Hk.
  destruct (run r u n1 m1) as [[[k M] y] r']. destruct Hk as (Hk & HM & Hy & _). rewrite ret_bind.
  etransitivity; [|apply (finish_turn cfg c Hok W stages_on (fun z => (MA_SUCCESS, 0 + k, 0 + M, Some z, dc_with_resampler c r')) out y M t)];
    [by destruct (dc_hasPostFormatConversion c)|done|lia|congruence|].
  intros _. apply (within M capOut); lia.
Qed.
End turns.

(** ** Processing with a resampler *)

(** What lies in front of the resampler and behind it, and the size of its frames. *)
Definition in_stage {C} (c : ma_data_converter C) : stage :=
  match dc_executionPath c with
  | ma_data_converter_execution_path_channels_first => front_channels c
  | _ => pre_stage c
  end.

Definition out_stage {C} (c : ma_data_converter C) : stage :=
  match dc_executionPath c with
  | ma_data_converter_execution_path_resample_first =>
      then_stage (channel_stage (dc_channelConverter c)) (post_stage c)
  | _ => post_stage c
  end.

Definition resampler_frame {C} (c : ma_data_converter C) : Z :=
  Z.min (cc_frame_in (dc_channelConverter c)) (cc_frame_out (dc_channelConverter c)).

Section resamples.
Context {C : Type} (cfg : ma_data_converter_config C) (c : ma_data_converter C).
Hypothesis Hok : dcc_ok cfg.
Hypothesis W : dc_wf cfg c.
Hypothesis Hres : dc_hasResampler c = true.
Hypothesis Hdraw : draws_behind c.
Context (w B R : Z) (inv : ma_resampler C -> Prop) (run : run_of C).
Context (HS : StreamResampler w B R inv run).
Hypothesis HB : B * Z.max (cc_frame_in (dc_channelConverter c)) (cc_frame_out (dc_channelConverter c)) <= 4096.
Hypothesis Hinv : inv (dc_resampler c).
Hypothesis Ew : w = resampler_frame c.

Lemma resampled_widths :
  match dc_executionPath c with
  | ma_data_converter_execution_path_resample_only =>
      w = cc_frame_in (dc_channelConverter c) /\ w = cc_frame_out (dc_channelConverter c)
      /\ dc_channelsIn c = dc_channelsOut c
  | ma_data_converter_execution_path_resample_first =>
      w = cc_frame_in (dc_channelConverter c) /\ dc_channelsIn c <= dc_channelsOut c
  | ma_data_converter_execution_path_channels_first =>
      w = cc_frame_out (dc_channelConverter c) /\ dc_channelsOut c <= dc_channelsIn c
  | _ => False
  end.
Proof using W Hres Ew.
  pose proof (wf_stages_fit _ _ W) as (Hfit & _). destruct (cc_frames cfg c W) as (Fi & Fo).
  destruct (wf_cc_channels _ _ W) as (Ci & Co). rewrite Ew. unfold resampler_frame. rewrite Fi, Fo.
  destruct (dc_executionPath c).
  1-3: destruct Hfit as (? & ?); intuition congruence.
  - destruct Hfit as (_ & Ei & Eo). assert (dc_channelsIn c = dc_channelsOut c) as -> by congruence.
    rewrite Z.min_id. done.
  - destruct Hfit as (_ & Ei & Hlt). destruct (cc_format (dc_channelConverter c)); cbn; lia.
  - destruct Hfit as (_ & Eo & Hle). destruct (cc_format (dc_channelConverter c)); cbn; lia.
Qed.

Lemma in_stage_frames : FrameStage (frame_size_in c) w max_frames (in_stage c).
Proof using Hok W Hres Hdraw Ew.
  clear HS. pose proof resampled_widths as Hw. unfold in_stage. destruct (dc_executionPath c); try done.
  - destruct Hw as (-> & _). by apply pre_frames with (cfg := cfg).
  - destruct Hw as (-> & _). by apply pre_frames with (cfg := cfg).
  - destruct Hw as (-> & _). by apply front_channels_frames with (cfg := cfg).
Qed.

Lemma out_stage_frames : FrameStage w (frame_size_out c) max_frames (out_stage c).
Proof using Hok W Hres Ew.
  clear HS. pose proof resampled_widths as Hw. unfold out_stage. destruct (dc_executionPath c); try done.
  - destruct Hw as (_ & -> & _). by apply post_frames with (cfg := cfg).
  - destruct (frame_sizes _ (wf_cc _ _ W)) as (? & ?). destruct Hw as (-> & _).
    apply (then_stage_frames _ (cc_frame_out (dc_channelConverter c)));
      [apply channel_stage_frames, (wf_cc _ _ W)|by apply post_frames with (cfg := cfg)|lia|left; apply per_frame_stateless].
  - destruct Hw as (-> & _). by apply post_frames with (cfg := cfg).
Qed.

Lemma in_stage_stateless : Stateless (in_stage c).
Proof using Hdraw.
  unfold in_stage. destruct (dc_executionPath c); first [by apply front_channels_stateless|by apply pre_stateless].
Qed.

Context (inn u out : list Z) (n m : Z).
Hypothesis Hn : 0 <= n <= max_frames.
Hypothesis Hm : 0 <= m <= max_frames.
Hypothesis Hx : n * frame_size_in c <= zlen inn.
Hypothesis Hout : holds_frames (out_grain c) (frame_size_out c) out m.
Hypothesis Hu : in_stage c inn n ≈ ret u.

Abbreviation alike := (fun r => inv r /\ rsp_same (dc_resampler c) r).

(** The loop of a path whose turns resample. *)
Lemma path_resamples In Out round :
  FrameStage (frame_size_in c) w max_frames In -> FrameStage w (frame_size_out c) max_frames Out -> Stateless In ->
  round_resamples c In Out (frame_size_in c) (frame_size_out c) (out_grain c) alike run round -> In inn n ≈ ret u ->
  rounds_loop (rounds_fuel m) round c (Some inn) n (Some out) m 0 0
  ≈ resampled c Out run (dc_resampler c) u n m 0 0 (wr out 0).
Proof using All.
  intros HIn HOut Hst Hround HuIn. destruct (frame_size_bounds cfg c Hok W) as (Hsi & Hso).
  destruct (frame_sizes _ (wf_cc _ _ W)) as (Hwi & Hwo).
  assert (Ec : c = dc_with_resampler c (dc_resampler c)) by (by destruct c). rewrite Ec at 1.
  rewrite (rounds_loop_resamples c In Out (frame_size_in c) (frame_size_out c) w B R (out_grain c) alike run) with (u := u);
    try done; try (unfold rounds_fuel; lia).
  - by rewrite !Z.sub_0_r, Z.mul_0_l.
  - apply (out_grain_divides cfg c W). by rewrite Hres, orb_true_r.
  - rewrite Ew. unfold resampler_frame. lia.
  - intros k Hk. by apply (bytes_in cfg c Hok W).
  - intros k Hk. by apply (bytes_out cfg c Hok W).
  - by rewrite Z.sub_0_r, Z.mul_0_l, drop_0.
Qed.

Definition outcome : lcgM (dc_result C) :=
  let '(k, M, y, r') := run (dc_resampler c) u n m in
  bind (out_stage c y M) (fun d => ret (MA_SUCCESS, Some k, Some M, Some (wr out 0 d), dc_with_resampler c r')).

Lemma outcome_of_resampled k :
  (forall i M d c', k (MA_SUCCESS, i, M, Some d, c') ≈ ret (MA_SUCCESS, Some i, Some M, Some d, c')) ->
  bind (resampled c (out_stage c) run (dc_resampler c) u n m 0 0 (wr out 0)) k ≈ outcome.
Proof using Type.
  intros Hk. unfold resampled, outcome. destruct (run (dc_resampler c) u n m) as [[[i M] y] r'].
  rewrite bind_assoc. apply bind_proper; [done|]. intros d. by rewrite ret_bind, Hk.
Qed.

Lemma stream_alike : StreamResampler w B R alike run.
Proof using HS. by apply stream_same. Qed.

Lemma path_turns round :
  round_resamples c (in_stage c) (out_stage c) (frame_size_in c) (frame_size_out c) (out_grain c) alike run round ->
  rounds_loop (rounds_fuel m) round c (Some inn) n (Some out) m 0 0
  ≈ resampled c (out_stage c) run (dc_resampler c) u n m 0 0 (wr out 0).
Proof using All.
  intros Hround. apply (path_resamples (in_stage c));
    [apply in_stage_frames|apply out_stage_frames|apply in_stage_stateless|done|done].
Qed.

(** The resampler alone is called on the buffers themselves. *)
Lemma direct_resamples :
  dc_executionPath c = ma_data_converter_execution_path_resample_only ->
  dc_hasPreFormatConversion c = false -> dc_hasPostFormatConversion c = false ->
  bind (lift (ma_resampler_process_pcm_frames (dc_resampler c) (Some inn) (Some n) (Some out) (Some m)))
    (fun '(result, k, m, out, r) => ret (result, k, m, out, dc_with_resampler c r)) ≈ outcome.
Proof using All.
  intros Hp Hpre Hpost. pose proof resampled_widths as Hw. rewrite Hp in Hw. destruct Hw as (Ewi & Ewo & _).
  pose proof Hu as Hu'. unfold in_stage in Hu'. rewrite Hp in Hu'.
  destruct (frames_given cfg c Hok W Hres Hdraw w B R inv run HS HB inn n u Hpre Hn Hx Hu') as (Hxw & Eu).
  pose proof (run_process (w:=w) (dc_resampler c) inn n m out Hinv ltac:(lia) ltac:(lia) ltac:(lia)) as Hrun.
  pose proof (run_keeps (w:=w) (dc_resampler c) inn n m Hinv ltac:(lia) ltac:(lia) ltac:(lia)) as Hk.
  unfold outcome. rewrite Eu, <- Ewi, <- (run_prefix (w:=w)) by (done || lia).
  destruct (run (dc_resampler c) inn n m) as [[[k M] y] r']. rewrite Hrun, lift_some, ret_bind.
  unfold out_stage. rewrite Hp, post_none, ret_bind by (try done; rewrite <- Ewo; apply Hk). done.
Qed.

Lemma process_resamples :
  ma_data_converter_process_pcm_frames None c (Some inn) (Some n) (Some out) (Some m) ≈ outcome.
Proof using All.
  pose proof resampled_widths as Hw. pose proof path_turns as Hturns.
  unfold ma_data_converter_process_pcm_frames. destruct (dc_executionPath c) eqn:Hp; try done.
  - destruct Hw as (Ewi & Ewo & Hch). unfold ma_data_converter_process_pcm_frames__resample_only.
    destruct (negb (dc_hasPreFormatConversion c) && negb (dc_hasPostFormatConversion c)) eqn:Hb.
    + apply andb_true_iff in Hb as (Hpre & Hpost). rewrite negb_true_iff in Hpre, Hpost. by apply direct_resamples.
    + unfold ma_data_converter_process_pcm_frames__resample_with_format_conversion. rewrite !load_some.
      rewrite Hturns; [by apply outcome_of_resampled|]. unfold in_stage, out_stage. rewrite Hp.
      apply (resample_only_turn cfg c Hok W Hres Hdraw w B R); try done.
      by destruct (dc_hasPreFormatConversion c), (dc_hasPostFormatConversion c).
  - unfold ma_data_converter_process_pcm_frames__resample_first, process_both. rewrite !load_some.
    rewrite Hturns; [by apply outcome_of_resampled|]. unfold in_stage, out_stage. rewrite Hp.
    apply (resample_first_turn cfg c Hok W Hres Hdraw w B R); (done || apply Hw).
  - unfold ma_data_converter_process_pcm_frames__channels_first, process_both. rewrite !load_some.
    rewrite Hturns; [by apply outcome_of_resampled|]. unfold in_stage, out_stage. rewrite Hp.
    apply (channels_first_turn cfg c Hok W Hres Hdraw w B R); (done || apply Hw).
Qed.
End resamples.


(** *** Example *)

Lemma init_resampler lm {C} (cfg : ma_data_converter_config C) c :
  ma_data_converter_init_preallocated lm (Some cfg) = Some (MA_SUCCESS, c) -> dc_hasResampler c = true ->
  ma_resampler_init_preallocated lm (Some (ma_resampler_config_init_from_data_converter_config cfg))
  = Some (MA_SUCCESS, dc_resampler c).
Proof.
  unfold ma_data_converter_init_preallocated.
  destruct (ma_data_converter_get_heap_layout lm (Some cfg)) as [res lay].
  destruct (Z.eqb_spec res MA_SUCCESS) as [->|]; [|by intros [= ? ?]]. cbn [negb].
  destruct (ma_channel_converter_init_preallocated _) as [[res cc]|]; [|done].
  destruct (Z.eqb_spec res MA_SUCCESS) as [->|]; [|by intros [= ? ?]]. cbn [negb].
  destruct (ma_data_converter_config_is_resampler_required cfg) eqn:En.
  - destruct (ma_resampler_init_preallocated _ _) as [[res rs]|]; [|done].
    destruct (Z.eqb_spec res MA_SUCCESS) as [->|]; [|by intros [= ? ?]]. cbn [negb].
    destruct (format_conversions _ _ _ _ _) as [pre post]. by intros [= <-].
  - change (negb (MA_SUCCESS =? MA_SUCCESS)) with false. cbv iota.
    destruct (format_conversions _ _ _ _ _) as [pre post]. by intros [= <-].
Qed.

(** The settings of the resampler of the example, which halves the rate. *)
Definition demo_rate_settings : ma_resampler_settings :=
  rc_settings (ma_resampler_config_init_from_data_converter_config demo_rate_config).

Lemma demo_rate_linear :
  linear_inv demo_libm (reduced_config demo_rate_settings) 3 (dc_resampler (data_converter_of demo_rate_config)).
Proof.
  assert (Hi : ma_data_converter_init_preallocated demo_libm (Some demo_rate_config)
    = Some (MA_SUCCESS, data_converter_of demo_rate_config)).
  { apply data_converter_of_init. vm_compute. reflexivity. }
  apply (linear_initial demo_libm demo_rate_settings None).
  - reflexivity.
  - left. reflexivity.
  - split; vm_compute; congruence.
  - vm_compute. congruence.
  - split; vm_compute; congruence.
  - split; vm_compute; congruence.
  - vm_compute. congruence.
  - apply (init_resampler demo_libm demo_rate_config); [exact Hi|vm_compute; reflexivity].
  - vm_compute. congruence.
Qed.

