(* ===== verification/ConverterStream.v ===== *)
(** * The data converter as a stream

    [StreamConverter] is what the loops of a device rely on in a data converter, whatever
    its path: what a call does to the frames, that calls on pieces add up to a call on the
    whole, and that the announced number of input frames is the number it takes.  A
    converter without a resampler discharges it, and one with a resampler that discharges
    [StreamResampler]. *)
From Stdlib Require Import ZArith Lia Bool SpecFloat Morphisms.
From stdpp Require Import base numbers list option.
From S2P Require Import Prelude MaTypes CFloat PcmFormat PcmFormatProps ChannelMap Biquad LowPass LowPassProps LinearResampler ChannelConverter ChannelConverterProps Resampler DataConverter Stages ChannelFrames DataConverterProps ResamplerStream DataConverterStream.

Local Open Scope Z_scope.
Local Open Scope lcg_scope.

(** A call with [n] frames of input and room for [m]: the frames read and written, the
    bytes written, and the converter afterwards. *)
Abbreviation conv_of C := (ma_data_converter C -> list Z -> Z -> Z -> lcgM (Z * Z * list Z * ma_data_converter C)).

(** [wi] and [wo] are the sizes of a frame; [B] frames of input are enough for a frame of
    output, and none gives more than [R]. *)
Class StreamConverter {C} (wi wo g B R : Z) (inv : ma_data_converter C -> Prop) (conv : conv_of C) : Prop := {
  conv_process : forall c x n m out,
    inv c -> 0 <= n <= max_frames -> 0 <= m <= max_frames -> n * wi <= zlen x -> holds_frames g wo out m ->
    ma_data_converter_process_pcm_frames None c (Some x) (Some n) (Some out) (Some m)
    ≈ bind (conv c x n m) (fun '(k, M, d, c') => ret (MA_SUCCESS, Some k, Some M, Some (wr out 0 d), c'));
  conv_keeps : forall c x n m,
    inv c -> 0 <= n <= max_frames -> 0 <= m <= max_frames -> n * wi <= zlen x ->
    ensures (fun '(k, M, d, c') => 0 <= k <= n /\ 0 <= M <= m /\ zlen d = M * wo /\ inv c') (conv c x n m);
  conv_prefix : forall c x n m,
    inv c -> 0 <= n <= max_frames -> 0 <= m -> n * wi <= zlen x -> conv c x n m ≈ conv c (rd x 0 (n * wi)) n m;
  conv_split : forall c x n1 m1 n m,
    inv c -> 0 <= n1 <= n -> n <= max_frames -> 0 <= m1 <= m -> m <= max_frames -> n * wi <= zlen x ->
    conv c x n m ≈
    bind (conv c x n1 m1) (fun '(k1, M1, d1, c1) =>
      bind (conv c1 (drop (Z.to_nat (k1 * wi)) x) (n - k1) (m - M1)) (fun '(k2, M2, d2, c2) =>
        ret (k1 + k2, M1 + M2, d1 ++ d2, c2)));
  conv_starved : forall c x n m,
    inv c -> 0 <= n <= max_frames -> 0 <= m <= max_frames -> n * wi <= zlen x ->
    ensures (fun '(k, M, _, c') =>
      M < m -> k = n /\ forall x' m', 0 <= m' -> conv c' x' 0 m' ≈ ret (0, 0, [], c')) (conv c x n m);
  conv_productive : forall c x n m,
    inv c -> B <= n -> 0 <= n <= max_frames -> 0 < m <= max_frames -> n * wi <= zlen x ->
    ensures (fun '(_, M, _, _) => 0 < M) (conv c x n m);
  conv_none : forall c x n, inv c -> 0 <= n <= max_frames -> n * wi <= zlen x -> conv c x n 0 ≈ ret (0, 0, [], c);
  conv_bounded : forall c x n m,
    inv c -> 0 <= n <= max_frames -> 0 <= m <= max_frames -> n * wi <= zlen x ->
    ensures (fun '(_, M, _, _) => M <= (n + 1) * R) (conv c x n m);
  conv_required : forall c m, inv c -> 0 < m <= max_frames ->
    exists q, ma_data_converter_get_required_input_frame_count c m = Some (MA_SUCCESS, q) /\ 0 <= q
      /\ forall x n, 0 <= n <= max_frames -> n * wi <= zlen x ->
         ensures (fun '(k, M, _, _) => k = Z.min n q /\ (q <= n -> M = m)) (conv c x n m) }.

(** ** Without a resampler *)

Section unresampled.
Context {C : Type} (cfg : ma_data_converter_config C) (c0 : ma_data_converter C).
Hypothesis Hok : dcc_ok cfg.
Hypothesis W : dc_wf cfg c0.
Hypothesis Hres : dc_hasResampler c0 = false.

Definition plain_conv : conv_of C := fun c x n m =>
  let F := Z.min n m in bind (convert_stage c x F) (fun d => ret (F, F, d, c)).

Lemma convert_stage_frames : FrameStage (frame_size_in c0) (frame_size_out c0) max_frames (convert_stage c0).
Proof using All.
  destruct (dc_channels cfg c0 W) as (Hci & Hco). destruct (dc_formats cfg c0 Hok W) as (Hfi & Hfo & _).
  unfold MA_MAX_CHANNELS in *. pose proof (wf_has_cc _ _ W) as Hsame. pose proof (wf_conversions _ _ W) as Hconv.
  unfold convert_stage. destruct (dc_hasChannelConverter c0) eqn:Hcc.
  { apply (channels_pipeline_frames cfg c0 Hok W). by rewrite Hcc. }
  specialize (Hsame eq_refl). unfold frame_size_in, frame_size_out. rewrite <- Hsame.
  unfold format_conversions in Hconv. rewrite Hres in Hconv. cbn [negb andb] in Hconv.
  destruct (dc_hasPostFormatConversion c0) eqn:Hpost.
  - apply format_stage_frames; unfold max_frames; (done || lia).
  - destruct (decide (dc_formatIn c0 = dc_formatOut c0)) as [<-|]; [|done].
    apply no_stage_frames. destruct (dc_formatIn c0); cbn; lia.
Qed.

#[export] Instance plain_stream :
  StreamConverter (frame_size_in c0) (frame_size_out c0) (out_grain c0) 1 1 (fun c => c = c0) plain_conv.
Proof using All.
  pose proof convert_stage_frames as HS. destruct (frame_size_bounds cfg c0 Hok W) as (Hsi & Hso).
  assert (Hmul : forall a b, 0 <= a <= b -> a * frame_size_in c0 <= b * frame_size_in c0)
    by (intros a b ?; apply Z.mul_le_mono_nonneg_r; lia).
  split; unfold plain_conv.
  - intros c x n m out -> Hn Hm Hx Hout st. rewrite bind_assoc.
    pose proof (unresampled_path _ _ W Hres) as Hp.
    destruct (dc_executionPath c0) eqn:E; try done.
    + rewrite (passthrough_converts cfg c0 Hok W Hres x out n m) by done. done.
    + rewrite (format_only_converts cfg c0 Hok W Hres x out n m) by done. done.
    + rewrite (channels_only_converts cfg c0 Hok W Hres x out n m) by done. done.
  - intros c x n m -> Hn Hm Hx. pose proof (Hmul (Z.min n m) n ltac:(lia)). intros st r st' H0.
    unfold bind in H0. destruct (convert_stage c0 x (Z.min n m) st) as [[d st1]|] eqn:E; [|done].
    injection H0 as <- <-. apply stage_len in E; [|lia|lia]. split_and!; (done || lia).
  - intros c x n m -> Hn Hm Hx. pose proof (Hmul (Z.min n m) n ltac:(lia)).
    rewrite (stage_prefix x (Z.min n m)), (stage_prefix (rd x 0 (n * frame_size_in c0)) (Z.min n m)) by
      (rewrite ?zlen_rd; nia).
    rewrite rd_rd by nia. by rewrite Z.add_0_l.
  - intros c x n1 m1 n m -> Hn1 Hn Hm1 Hm Hx. set (F1 := Z.min n1 m1). set (F2 := Z.min (n - F1) (m - F1)).
    replace (Z.min n m) with (F1 + F2) by lia. pose proof (Hmul (F1 + F2) n ltac:(lia)).
    rewrite (stage_split (frame_size_in c0) (frame_size_out c0) max_frames (convert_stage c0)) by lia.
    rewrite !bind_assoc. apply bind_proper; [done|]. intros d. rewrite ret_bind, !bind_assoc. fold F2.
    apply bind_proper; [done|]. intros e. by rewrite !ret_bind.
  - intros c x n m -> Hn Hm Hx. apply ensures_bind_any. intros d. apply ensures_ret. intros HF.
    split; [lia|]. intros x' m' Hm'. rewrite Z.min_l by lia. by rewrite (stage_none _), ret_bind.
  - intros c x n m -> HB Hn Hm Hx. apply ensures_bind_any. intros d. apply ensures_ret. lia.
  - intros c x n -> Hn Hx. rewrite Z.min_r by lia. by rewrite (stage_none _), ret_bind.
  - intros c x n m -> Hn Hm Hx. apply ensures_bind_any. intros d. apply ensures_ret. lia.
  - intros c m -> Hm. exists m. unfold ma_data_converter_get_required_input_frame_count. rewrite Hres.
    split; [done|]. split; [lia|]. intros x n Hn Hx. apply ensures_bind_any. intros d. apply ensures_ret. lia.
Qed.
End unresampled.

(** ** With a resampler *)

Section resampled.
Context {C : Type} (cfg : ma_data_converter_config C) (c0 : ma_data_converter C).
Hypothesis Hok : dcc_ok cfg.
Hypothesis W : dc_wf cfg c0.
Hypothesis Hres : dc_hasResampler c0 = true.
Hypothesis Hdraw : draws_behind c0.
Context (w B R : Z) (inv : ma_resampler C -> Prop) (run : run_of C).
Context (HS : StreamResampler w B R inv run).
Hypothesis HB : B * Z.max (cc_frame_in (dc_channelConverter c0)) (cc_frame_out (dc_channelConverter c0)) <= 4096.
Hypothesis Ew : w = resampler_frame c0.

(** The conversion in front of the resampler is defined for all samples. *)
Hypothesis Htotal : forall x n, exists u, in_stage c0 x n ≈ ret u.

(** [c0] in the course of its use. *)
Definition with_state (c : ma_data_converter C) : Prop :=
  exists r, c = dc_with_resampler c0 r /\ inv r /\ rsp_same (dc_resampler c0) r.

Definition resampled_conv : conv_of C := fun c x n m =>
  bind (in_stage c x n) (fun u =>
    let '(k, M, y, r') := run (dc_resampler c) u n m in
    bind (out_stage c y M) (fun d => ret (k, M, d, dc_with_resampler c r'))).

Lemma stages_in : FrameStage (frame_size_in c0) w max_frames (in_stage c0).
Proof using All. by apply (in_stage_frames cfg c0 Hok W Hres Hdraw w Ew). Qed.
Lemma stages_out : FrameStage w (frame_size_out c0) max_frames (out_stage c0).
Proof using All. by apply (out_stage_frames cfg c0 Hok W Hres w Ew). Qed.

Lemma resampled_known r x n m u :
  in_stage c0 x n ≈ ret u ->
  resampled_conv (dc_with_resampler c0 r) x n m
  ≈ let '(k, M, y, r') := run r u n m in bind (out_stage c0 y M) (fun d => ret (k, M, d, dc_with_resampler c0 r')).
Proof using Type.
  intros Hu. unfold resampled_conv. change (in_stage (dc_with_resampler c0 r)) with (in_stage c0). rewrite Hu, ret_bind.
  cbn [dc_resampler dc_with_resampler]. by destruct (run r u n m) as [[[k M] y] r'].
Qed.

(** What is known of the frames [u]. *)
Lemma known_frames x n : 0 <= n <= max_frames -> n * frame_size_in c0 <= zlen x ->
  exists u, in_stage c0 x n ≈ ret u /\ zlen u = n * w.
Proof using All.
  intros Hn Hx. destruct (Htotal x n) as (u & Hu). exists u. split; [done|].
  destruct (frame_size_bounds cfg c0 Hok W). pose proof stages_in as HSi.
  apply (stage_known (frame_size_in c0) w (in_stage c0)) with (x := x); try done; [lia|by apply in_stage_stateless].
Qed.

Lemma resampled_ensures r x n m u (P : Z * Z * list Z * ma_data_converter C -> Prop) :
  in_stage c0 x n ≈ ret u ->
  (let '(k, M, _, r') := run r u n m in forall d, P (k, M, d, dc_with_resampler c0 r')) ->
  ensures P (resampled_conv (dc_with_resampler c0 r) x n m).
Proof using Type.
  intros Hu HP st res st' H. rewrite (resampled_known r x n m u Hu st) in H.
  destruct (run r u n m) as [[[k M] y] r']. unfold bind in H.
  destruct (out_stage c0 y M st) as [[d st1]|]; [|done]. by injection H as <- <-.
Qed.

Abbreviation alike := (fun r => inv r /\ rsp_same (dc_resampler c0) r).

Lemma width_pos : 0 < w <= 1016.
Proof using W Ew.
  destruct (frame_sizes _ (wf_cc _ _ W)). rewrite Ew. unfold resampler_frame. lia.
Qed.

Lemma run_alike r u n m :
  alike r -> 0 <= n -> 0 <= m -> n * w <= zlen u ->
  let '(k, M, y, r') := run r u n m in 0 <= k <= n /\ 0 <= M <= m /\ zlen y = M * w /\ alike r'.
Proof using HS. intros Hr. pose proof (stream_same w B R inv run (dc_resampler c0) HS). by apply (run_keeps (w:=w) (inv:=alike)). Qed.

#[export] Instance resampled_stream :
  StreamConverter (frame_size_in c0) (frame_size_out c0) (out_grain c0) B R with_state resampled_conv.
Proof using All.
  destruct (frame_size_bounds cfg c0 Hok W) as (Hsi & Hso). pose proof width_pos as Hw.
  pose proof stages_in as HSi. pose proof stages_out as HSo.
  assert (Hst : Stateless (in_stage c0)) by (by apply in_stage_stateless).
  assert (Hmul : forall a b, 0 <= a <= b -> a * frame_size_in c0 <= b * frame_size_in c0)
    by (intros a b ?; apply Z.mul_le_mono_nonneg_r; lia).
  split.
  - intros c x n m out (r & -> & Hr) Hn Hm Hx Hout. destruct (known_frames x n) as (u & Hu & Hul); [done|done|].
    assert (Wr : dc_wf cfg (dc_with_resampler c0 r)).
    { apply (same_stages_wf _ c0); [|done]. apply with_resampler_same; apply Hr. }
    rewrite (process_resamples cfg (dc_with_resampler c0 r) Hok Wr Hres Hdraw w B R inv run HS HB (proj1 Hr) Ew
      x u out n m Hn Hm Hx Hout Hu).
    rewrite (resampled_known r x n m u Hu). unfold outcome. cbn [dc_resampler dc_with_resampler].
    destruct (run r u n m) as [[[k M] y] r']. rewrite bind_assoc. apply bind_proper; [done|]. intros d.
    by rewrite ret_bind.
  - intros c x n m (r & -> & Hr) Hn Hm Hx. destruct (known_frames x n) as (u & Hu & Hul); [done|done|].
    intros st res st' H. rewrite (resampled_known r x n m u Hu st) in H.
    pose proof (run_alike r u n m Hr ltac:(lia) ltac:(lia) ltac:(lia)) as Hk.
    destruct (run r u n m) as [[[k M] y] r']. destruct Hk as (Hk & HM & Hy & Hr').
    unfold bind in H. destruct (out_stage c0 y M st) as [[d st1]|] eqn:E; [|done]. injection H as <- <-.
    apply stage_len in E; [|lia|lia]. split_and!; try (done || lia). by exists r'.
  - intros c x n m (r & -> & Hr) Hn Hm Hx. unfold resampled_conv.
    change (in_stage (dc_with_resampler c0 r)) with (in_stage c0). by rewrite (stage_prefix x n).
  - intros c x n1 m1 n m (r & -> & Hr) Hn1 Hn Hm1 Hm Hx.
    destruct (known_frames x n) as (u & Hu & Hul); [lia|done|].
    assert (n1 * w <= n * w) by (apply Z.mul_le_mono_nonneg_r; lia).
    destruct (stage_known_split (frame_size_in c0) w (in_stage c0) ltac:(lia) Hst x n1 n u) as (Hu1 & _); try done.
    rewrite (resampled_known r x n m u Hu), (resampled_known r x n1 m1 _ Hu1).
    rewrite (run_split (w:=w) r u n1 m1 n m), <- (run_prefix (w:=w) r u n1 m1) by (try apply Hr; lia).
    pose proof (run_alike r u n1 m1 Hr ltac:(lia) ltac:(lia) ltac:(lia)) as Hk.
    destruct (run r u n1 m1) as [[[k1 M1] y1] r1]. destruct Hk as (Hk & HM & Hy & Hr1).
    destruct (stage_known_split (frame_size_in c0) w (in_stage c0) ltac:(lia) Hst x k1 n u) as (_ & Hu2); [lia|lia|done|done|].
    assert (k1 * w <= n * w) by (apply Z.mul_le_mono_nonneg_r; lia).
    pose proof (run_alike r1 (drop (Z.to_nat (k1 * w)) u) (n - k1) (m - M1) Hr1 ltac:(lia) ltac:(lia)
      ltac:(rewrite zlen_drop by nia; lia)) as Hk2.
    destruct (run r1 _ _ _) as [[[k2 M2] y2] r2] eqn:E2. destruct Hk2 as (Hk2 & HM2 & Hy2 & _).
    rewrite (stage_app y1 y2 M1 M2) by (done || lia). rewrite !bind_assoc.
    apply bind_proper; [done|]. intros d. rewrite ret_bind, bind_assoc, (resampled_known r1 _ (n - k1) (m - M1) _ Hu2), E2, bind_assoc.
    apply bind_proper; [done|]. intros e. by rewrite !ret_bind.
  - intros c x n m (r & -> & Hr) Hn Hm Hx. destruct (known_frames x n) as (u & Hu & Hul); [done|done|].
    apply (resampled_ensures r x n m u _ Hu).
    pose proof (run_starved (w:=w) r u n m (proj1 Hr) ltac:(lia) ltac:(lia) ltac:(lia)) as Hs.
    destruct (run r u n m) as [[[k M] y] r']. intros d HM. destruct (Hs HM) as (-> & Hn0). split; [done|].
    intros x' m' Hm'. rewrite (resampled_known r' x' 0 m' []) by apply (stage_none _). rewrite Hn0 by done.
    by rewrite (stage_none _), ret_bind.
  - intros c x n m (r & -> & Hr) HBn Hn Hm Hx. destruct (known_frames x n) as (u & Hu & Hul); [done|done|].
    apply (resampled_ensures r x n m u _ Hu).
    pose proof (run_productive (w:=w) (B:=B) r u n m (proj1 Hr) ltac:(lia) ltac:(lia) ltac:(lia)) as Hp.
    by destruct (run r u n m) as [[[k M] y] r'].
  - intros c x n (r & -> & Hr) Hn Hx. destruct (known_frames x n) as (u & Hu & Hul); [done|done|].
    rewrite (resampled_known r x n 0 u Hu), (run_none (w:=w)) by apply Hr. by rewrite (stage_none _), ret_bind.
  - intros c x n m (r & -> & Hr) Hn Hm Hx. destruct (known_frames x n) as (u & Hu & Hul); [done|done|].
    apply (resampled_ensures r x n m u _ Hu).
    pose proof (run_bounded (w:=w) (R:=R) r u n m (proj1 Hr) ltac:(lia) ltac:(lia) ltac:(lia)) as Hp.
    by destruct (run r u n m) as [[[k M] y] r'].
  - intros c m (r & -> & Hr) Hm. destruct (run_required (w:=w) r m (proj1 Hr) Hm) as (q & Eq & Hq & Hrun).
    exists q. unfold ma_data_converter_get_required_input_frame_count. cbn [dc_hasResampler dc_resampler dc_with_resampler].
    rewrite Hres. split; [done|]. split; [done|]. intros x n Hn Hx.
    destruct (known_frames x n) as (u & Hu & Hul); [done|done|]. apply (resampled_ensures r x n m u _ Hu).
    pose proof (Hrun u n ltac:(lia) ltac:(lia)) as Hp. by destruct (run r u n m) as [[[k M] y] r'].
Qed.
End resampled.

(** The conversion in front of the resampler is defined for all samples, unless it is one
    from floating point. *)
Lemma in_stage_always {C} (c : ma_data_converter C) x n :
  draws_behind c -> (dc_hasPreFormatConversion c = true -> dc_formatIn c <> ma_format_f32) ->
  exists u, in_stage c x n ≈ ret u.
Proof.
  intros Hdraw Hf. assert (Hp : forall x n, exists u, pre_stage c x n ≈ ret u).
  { intros x' n'. unfold pre_stage, draws_behind in *. destruct (dc_hasPreFormatConversion c); [|by eexists].
    apply format_stage_always; auto. }
  unfold in_stage. destruct (dc_executionPath c); try apply Hp.
  destruct (Hp x n) as (u & Hu). exists (frames_of (dc_channelConverter c) u n).
  unfold front_channels, then_stage. rewrite Hu, ret_bind. by rewrite channel_stage_eq.
Qed.
