(* ===== verification/DeviceIO.v ===== *)
(** * Device input and output (miniaudio.h)

    What a backend calls with frames in the device's own format: the frames are taken from
    or handed to the client through the data converter of the direction, in pieces that fit
    buffers on the stack.  [ma_device__read_frames_from_client] and
    [ma_device__send_frames_to_client], the two callbacks of a duplex device with the ring
    between them, [ma_device_handle_backend_data_callback], and the read-write loop of the
    backends without a loop of their own.

    Computations thread the state of the generator that dithering draws from; [lift None] is
    undefined behaviour in a callee, or a loop that is not over when the fuel is.  A buffer
    on the stack holds [stack] when its function is entered. *)
From Stdlib Require Import ZArith Lia Bool SpecFloat.
From stdpp Require Import base numbers list option.
From S2P Require Import Prelude MaTypes Ring PcmRing CFloat PcmFormat ChannelMap ChannelConverter Resampler DataConverter DeviceData.

Local Open Scope Z_scope.

Section device_io.
Context {C S : Type}.

(** One direction in the device's own format. *)
Record io_side := mk_io_side {
  internalFormat : ma_format;
  internalChannels : Z;
  internalSampleRate : Z;
  internalPeriodSizeInFrames : Z;
  converter : ma_data_converter C }.

(** The client's frames that the playback converter has not taken yet. *)
Record input_cache := mk_cache {
  pInputCache : option (list Z);
  inputCacheCap : Z;
  inputCacheConsumed : Z;
  inputCacheRemaining : Z }.

Record io_device := mk_io {
  io_dev : ma_device S;
  io_capture : io_side;
  io_playback : io_side;
  io_cache : input_cache;
  io_rb : ma_pcm_rb }.

Definition io_with_dev (x : io_device) (d : ma_device S) : io_device :=
  mk_io d (io_capture x) (io_playback x) (io_cache x) (io_rb x).
Definition io_with_cache (x : io_device) (k : input_cache) : io_device :=
  mk_io (io_dev x) (io_capture x) (io_playback x) k (io_rb x).
Definition io_with_rb (x : io_device) (p : ma_pcm_rb) : io_device :=
  mk_io (io_dev x) (io_capture x) (io_playback x) (io_cache x) p.
Definition side_with_converter (sd : io_side) (c : ma_data_converter C) : io_side :=
  mk_io_side (internalFormat sd) (internalChannels sd) (internalSampleRate sd)
    (internalPeriodSizeInFrames sd) c.
Definition io_with_capture (x : io_device) (c : ma_data_converter C) : io_device :=
  mk_io (io_dev x) (side_with_converter (io_capture x) c) (io_playback x) (io_cache x) (io_rb x).
Definition io_with_playback (x : io_device) (c : ma_data_converter C) : io_device :=
  mk_io (io_dev x) (io_capture x) (side_with_converter (io_playback x) c) (io_cache x) (io_rb x).

Definition internal_bpf (sd : io_side) : Z :=
  ma_get_bytes_per_frame (internalFormat sd) (internalChannels sd).

(** Frames that fit a buffer on the stack. *)
Definition stack_cap (bpf : Z) : Z := MA_DATA_CONVERTER_STACK_BUFFER_SIZE / bpf.

Context (simd : option (list spec_float -> list spec_float)).
Context (onData : option (ma_device_data_proc S)) (stack : list Z).

(** The client's callback, with volume and clipping. *)
Definition handle_data (x : io_device) (pFramesOut pFramesIn : option (list Z)) (frameCount : Z)
    : lcgM (option (list Z) * io_device) :=
  bind (lift (ma_device__handle_data_callback onData (io_dev x) pFramesOut pFramesIn (u32 frameCount)))
    (fun '(out, d) => ret (out, io_with_dev x d)).

(** A call of a converter: the result, the two counts, the output buffer and the converter. *)
Definition run_converter (c : ma_data_converter C) (src : list Z) (n : Z) (out : list Z) (m : Z)
    : lcgM (ma_result * Z * Z * list Z * ma_data_converter C) :=
  bind (ma_data_converter_process_pcm_frames simd c (Some src) (Some n) (Some out) (Some m))
    (fun '(result, k, M, o, c) => ret (result, default n k, default m M, default out o, c)).

(** ** Playback *)

(** The loop without an input cache; [off] is [pRunningFramesOut] in [out]. *)
Fixpoint read_loop (fuel : nat) (x : io_device) (out : list Z) (off total frameCount : Z)
    : lcgM (list Z * io_device) :=
  match fuel with
  | O => lift None
  | Datatypes.S fuel =>
      if negb (total <? frameCount) then ret (out, x)
      else
        let intermediaryBufferCap := stack_cap (side_bpf (dev_playback (io_dev x))) in
        let m := u64 (frameCount - total) in
        let n := if m >? intermediaryBufferCap then intermediaryBufferCap else m in
        bind (lift (ma_data_converter_get_required_input_frame_count (converter (io_playback x)) m))
          (fun '(_, required) =>
        let n := if n >? required then required else n in
        bind (handle_data x (Some stack) None n) (fun '(buf, x) =>
        bind (run_converter (converter (io_playback x)) (default stack buf) n (drop (Z.to_nat off) out) m)
          (fun '(result, k, M, part, c) =>
        let x := io_with_playback x c in
        let out := take (Z.to_nat off) out ++ part in
        if negb (result =? MA_SUCCESS) then ret (out, x)
        else
          let total := u64 (total + M) in
          let off := off + u64 (M * internal_bpf (io_playback x)) in
          if (k =? 0) && (M =? 0) then ret (out, x)
          else read_loop fuel x out off total frameCount)))
  end.

(** The refill of the cache: whole blocks of [inputCacheCap] frames. *)
Definition refill_cache (x : io_device) (cache : list Z) : lcgM io_device :=
  let k := io_cache x in
  if inputCacheRemaining k =? 0 then
    bind (handle_data x (Some cache) None (inputCacheCap k)) (fun '(buf, x) =>
      ret (io_with_cache x (mk_cache (Some (default cache buf)) (inputCacheCap k) 0 (inputCacheCap k))))
  else ret x.

(** The frames of the cache from the first that is not consumed. *)
Definition cache_frames (x : io_device) (cache : list Z) : list Z :=
  let p := dev_playback (io_dev x) in
  drop (Z.to_nat (ma_offset_pcm_frames_ptr 0 (inputCacheConsumed (io_cache x)) (side_format p) (side_channels p))) cache.

Definition consume_cache (k : input_cache) (n : Z) : input_cache :=
  mk_cache (pInputCache k) (inputCacheCap k) (u64 (inputCacheConsumed k + n)) (u64 (inputCacheRemaining k - n)).

(** The loop with an input cache. *)
Fixpoint cached_read_loop (fuel : nat) (x : io_device) (out : list Z) (off total frameCount : Z)
    : lcgM (list Z * io_device) :=
  match fuel, pInputCache (io_cache x) with
  | Datatypes.S fuel, Some cache =>
      if negb (total <? frameCount) then ret (out, x)
      else
        let r := inputCacheRemaining (io_cache x) in
        if r >? 0 then
          let m := u64 (frameCount - total) in
          let n := if m >? r then r else m in
          bind (run_converter (converter (io_playback x)) (cache_frames x cache) n (drop (Z.to_nat off) out) m)
            (fun '(result, k, M, part, c) =>
          let x := io_with_playback x c in
          let out := take (Z.to_nat off) out ++ part in
          if negb (result =? MA_SUCCESS) then ret (out, x)
          else
            let x := io_with_cache x (consume_cache (io_cache x) k) in
            let total := u64 (total + M) in
            let off := off + u64 (M * internal_bpf (io_playback x)) in
            if (k =? 0) && (M =? 0) then ret (out, x)
            else bind (refill_cache x cache) (fun x => cached_read_loop fuel x out off total frameCount))
        else bind (refill_cache x cache) (fun x => cached_read_loop fuel x out off total frameCount)
  | _, _ => lift None
  end.

Definition ma_device__read_frames_from_client (fuel : nat) (x : io_device) (frameCount : Z)
    (pFramesOut : list Z) : lcgM (list Z * io_device) :=
  if dc_isPassthrough (converter (io_playback x)) then
    bind (handle_data x (Some pFramesOut) None frameCount) (fun '(out, x) => ret (default pFramesOut out, x))
  else
    match pInputCache (io_cache x) with
    | Some _ => cached_read_loop fuel x pFramesOut 0 0 frameCount
    | None => read_loop fuel x pFramesOut 0 0 frameCount
    end.

(** ** Capture *)

(** [off] is [pRunningFramesInDeviceFormat] in [src], [buf] is [pFramesInClientFormat]. *)
Fixpoint send_loop (fuel : nat) (x : io_device) (src buf : list Z) (off total frameCount : Z)
    : lcgM io_device :=
  match fuel with
  | O => lift None
  | Datatypes.S fuel =>
      let n := u64 (frameCount - total) in
      let m := stack_cap (side_bpf (dev_capture (io_dev x))) in
      bind (run_converter (converter (io_capture x)) (drop (Z.to_nat off) src) n buf m)
        (fun '(result, k, M, buf, c) =>
      let x := io_with_capture x c in
      if negb (result =? MA_SUCCESS) then ret x
      else
        bind (if M >? 0 then bind (handle_data x None (Some buf) M) (fun '(_, x) => ret x) else ret x)
          (fun x =>
        let off := off + u64 (k * internal_bpf (io_capture x)) in
        let total := u64 (total + k) in
        if (k =? 0) && (M =? 0) then ret x
        else send_loop fuel x src buf off total frameCount))
  end.

Definition ma_device__send_frames_to_client (fuel : nat) (x : io_device) (frameCount : Z)
    (pFramesInDeviceFormat : list Z) : lcgM io_device :=
  if dc_isPassthrough (converter (io_capture x)) then
    bind (handle_data x None (Some pFramesInDeviceFormat) frameCount) (fun '(_, x) => ret x)
  else send_loop fuel x pFramesInDeviceFormat stack 0 0 frameCount.

(** ** Duplex devices of backends with callbacks *)

(** The captured frames go through the converter into the ring, in the client's format. *)
Fixpoint duplex_capture_loop (fuel : nat) (x : io_device) (src : list Z) (off total frameCount : Z)
    : lcgM io_device :=
  match fuel with
  | O => lift None
  | Datatypes.S fuel =>
      let n := u32 (frameCount - total) in
      let '(result, m, ptr, pRB) :=
        ma_pcm_rb_acquire_write (io_rb x) (u32 (stack_cap (side_bpf (dev_capture (io_dev x))))) in
      let x := io_with_rb x pRB in
      if negb (result =? MA_SUCCESS) then ret x
      else if (m =? 0) && (ma_pcm_rb_pointer_distance pRB =? s32 (ma_pcm_rb_get_subbuffer_size pRB)) then ret x
      else
        let mem := pBuffer (rb pRB) in
        bind (run_converter (converter (io_capture x)) (drop (Z.to_nat off) src) n (drop (Z.to_nat ptr) mem) m)
          (fun '(result, k, M, part, c) =>
        let x := io_with_capture x c in
        let pRB := with_rb pRB (with_buffer (rb pRB) (take (Z.to_nat ptr) mem ++ part)) in
        if negb (result =? MA_SUCCESS) then ret (io_with_rb x pRB)
        else
          let '(result, pRB) := ma_pcm_rb_commit_write pRB (u32 M) in
          let x := io_with_rb x pRB in
          if negb (result =? MA_SUCCESS) then ret x
          else
            let off := off + u64 (k * internal_bpf (io_capture x)) in
            let total := u32 (total + u32 k) in
            if (M =? 0) && (k =? 0) then ret x
            else duplex_capture_loop fuel x src off total frameCount)
  end.

Definition ma_device__handle_duplex_callback_capture (fuel : nat) (x : io_device) (frameCount : Z)
    (pFramesInDeviceFormat : list Z) : lcgM io_device :=
  duplex_capture_loop fuel x pFramesInDeviceFormat 0 0 frameCount.

(** The refill of the cache from the ring, through the client: the device, and whether the
    ring has run dry or the result of the commit ends the loop. *)
Definition duplex_refill (x : io_device) (cache : list Z) : lcgM (io_device * option ma_result) :=
  let k := io_cache x in
  let '(result, n, ptr) := ma_pcm_rb_acquire_read (io_rb x) (u32 (inputCacheCap k)) in
  let finish (n : Z) (buf : list Z) (x : io_device) :=
    let x := io_with_cache x (mk_cache (Some buf) (inputCacheCap k) 0 n) in
    let '(result, pRB) := ma_pcm_rb_commit_read (io_rb x) n in
    ret (io_with_rb x pRB, if result =? MA_SUCCESS then None else Some result) in
  if result =? MA_SUCCESS then
    if n >? 0 then
      bind (handle_data x (Some cache) (Some (drop (Z.to_nat ptr) (pBuffer (rb (io_rb x))))) n)
        (fun '(buf, x) => finish n (default cache buf) x)
    else if ma_pcm_rb_pointer_distance (io_rb x) =? 0 then ret (x, Some MA_SUCCESS)
    else finish n cache x
  else
    let silentInputFrames := zrep MA_DATA_CONVERTER_STACK_BUFFER_SIZE 0 in
    let n := u32 (ma_min (inputCacheCap k) (stack_cap (side_bpf (dev_capture (io_dev x))))) in
    bind (handle_data x (Some cache) (Some silentInputFrames) n)
      (fun '(buf, x) => finish n (default cache buf) x).

(** [started k] is whether the [k]-th look at the state of the device finds it started; the
    result of the conversion is not looked at. *)
Fixpoint duplex_playback_loop (fuel : nat) (started : nat -> bool) (x : io_device) (out : list Z)
    (off total frameCount : Z) : lcgM (ma_result * list Z * io_device) :=
  match fuel, pInputCache (io_cache x) with
  | Datatypes.S fuel, Some cache =>
      if negb ((total <? frameCount) && started O) then ret (MA_SUCCESS, out, x)
      else
        bind
          (if inputCacheRemaining (io_cache x) >? 0 then
             bind (run_converter (converter (io_playback x)) (cache_frames x cache)
                     (inputCacheRemaining (io_cache x)) (drop (Z.to_nat off) out) (u64 (u32 (frameCount - total))))
               (fun '(_, k, M, part, c) =>
             let x := io_with_cache (io_with_playback x c) (consume_cache (io_cache x) k) in
             ret (take (Z.to_nat off) out ++ part, off + u64 (M * internal_bpf (io_playback x)),
                  u32 (total + u32 M), x))
           else ret (out, off, total, x))
          (fun '(out, off, total, x) =>
        if (total <? frameCount) && (inputCacheRemaining (io_cache x) =? 0) then
          bind (duplex_refill x cache) (fun '(x, stop) =>
            match stop with
            | Some result => ret (result, out, x)
            | None => duplex_playback_loop fuel (fun k => started (Datatypes.S k)) x out off total frameCount
            end)
        else duplex_playback_loop fuel (fun k => started (Datatypes.S k)) x out off total frameCount)
  | _, _ => lift None
  end.

Definition ma_device__handle_duplex_callback_playback (fuel : nat) (started : nat -> bool) (x : io_device)
    (frameCount : Z) (pFramesInInternalFormat : list Z) : lcgM (ma_result * list Z * io_device) :=
  duplex_playback_loop fuel started x pFramesInInternalFormat 0 0 frameCount.

(** ** The callback of a backend *)

Definition ma_device_handle_backend_data_callback (fuel : nat) (started : nat -> bool)
    (pDevice : option io_device) (pOutput pInput : option (list Z)) (frameCount : Z)
    : lcgM (ma_result * option (list Z) * option io_device) :=
  match pDevice with
  | None => ret (MA_INVALID_ARGS, pOutput, None)
  | Some x =>
      if negb (bool_decide (is_Some pOutput) || bool_decide (is_Some pInput)) || (frameCount =? 0)
      then ret (MA_INVALID_ARGS, pOutput, Some x)
      else
        match dev_type (io_dev x) with
        | ma_device_type_duplex =>
            bind (match pInput with
                  | Some src => ma_device__handle_duplex_callback_capture fuel x frameCount src
                  | None => ret x
                  end) (fun x =>
            match pOutput with
            | Some out =>
                bind (ma_device__handle_duplex_callback_playback fuel started x frameCount out)
                  (fun '(_, out, x) => ret (MA_SUCCESS, Some out, Some x))
            | None => ret (MA_SUCCESS, None, Some x)
            end)
        | ma_device_type_capture | ma_device_type_loopback =>
            match pInput with
            | None => ret (MA_INVALID_ARGS, pOutput, Some x)
            | Some src =>
                bind (ma_device__send_frames_to_client fuel x frameCount src)
                  (fun x => ret (MA_SUCCESS, pOutput, Some x))
            end
        | ma_device_type_playback =>
            match pOutput with
            | None => ret (MA_INVALID_ARGS, None, Some x)
            | Some out =>
                bind (ma_device__read_frames_from_client fuel x frameCount out)
                  (fun '(out, x) => ret (MA_SUCCESS, Some out, Some x))
            end
        end
  end.

(** ** The loop of the backends with blocking reads and writes *)

Context {W : Type}.

(** [onDeviceRead] and [onDeviceWrite] of the backend, over its own state: the buffer after
    a read, and the frames read or written. *)
Abbreviation device_read_proc := (W -> list Z -> Z -> ma_result * list Z * Z * W).
Abbreviation device_write_proc := (W -> list Z -> Z -> ma_result * Z * W).

(** The device, the backend, and the two buffers of
    [ma_device_audio_thread__default_read_write]. *)
Record rw_state := mk_rw {
  rw_io : io_device;
  rw_backend : W;
  capturedDeviceData : list Z;
  playbackDeviceData : list Z }.

Context (onDeviceRead : device_read_proc) (onDeviceWrite : device_write_proc).

(** Fuel of the loops inside a turn. *)
Context (inner : nat).

(** One period; the booleans are [exitLoop], [result] is what it was before. *)
Fixpoint playback_period (fuel : nat) (result : ma_result) (s : rw_state) (period cap total : Z)
    : lcgM (ma_result * bool * rw_state) :=
  match fuel with
  | O => lift None
  | Datatypes.S fuel =>
      if negb (total <? period) then ret (result, false, s)
      else
        let n := u32 (period - total) in
        let n := if n >? cap then cap else n in
        bind (ma_device__read_frames_from_client inner (rw_io s) n (playbackDeviceData s)) (fun '(buf, x) =>
        let '(result, processed, w) := onDeviceWrite (rw_backend s) buf n in
        let s := mk_rw x w (capturedDeviceData s) buf in
        if negb (result =? MA_SUCCESS) then ret (result, true, s)
        else if processed =? 0 then ret (result, false, s)
        else playback_period fuel result s period cap (u32 (total + processed)))
  end.

Fixpoint capture_period (fuel : nat) (result : ma_result) (s : rw_state) (period cap total : Z)
    : lcgM (ma_result * bool * rw_state) :=
  match fuel with
  | O => lift None
  | Datatypes.S fuel =>
      if negb (total <? period) then ret (result, false, s)
      else
        let n := u32 (period - total) in
        let n := if n >? cap then cap else n in
        let '(result, buf, processed, w) := onDeviceRead (rw_backend s) (capturedDeviceData s) n in
        let s := mk_rw (rw_io s) w buf (playbackDeviceData s) in
        if negb (result =? MA_SUCCESS) then ret (result, true, s)
        else if processed =? 0 then ret (result, false, s)
        else
          bind (ma_device__send_frames_to_client inner (rw_io s) processed buf) (fun x =>
            capture_period fuel result (mk_rw x w buf (playbackDeviceData s)) period cap (u32 (total + processed)))
  end.

(** The client's output of a duplex device on its way to the backend; [src] is
    [playbackClientData], of which [remaining] frames are still to be converted. *)
Fixpoint duplex_write_loop (fuel : nat) (s : rw_state) (src : list Z) (remaining cap : Z)
    : lcgM (ma_result * bool * rw_state) :=
  match fuel with
  | O => lift None
  | Datatypes.S fuel =>
      bind (run_converter (converter (io_playback (rw_io s))) src remaining (playbackDeviceData s) cap)
        (fun '(result, k, M, buf, c) =>
      let s := mk_rw (io_with_playback (rw_io s) c) (rw_backend s) (capturedDeviceData s) buf in
      if negb (result =? MA_SUCCESS) then ret (result, false, s)
      else
        let '(result, _, w) := onDeviceWrite (rw_backend s) buf (u32 M) in
        let s := mk_rw (rw_io s) w (capturedDeviceData s) buf in
        if negb (result =? MA_SUCCESS) then ret (result, true, s)
        else
          let remaining := u64 (remaining - u32 k) in
          if remaining =? 0 then ret (result, false, s)
          else duplex_write_loop fuel s src remaining cap)
  end.

(** The captured frames of one read, through the client and back; the third component of
    the result is [capturedDeviceFramesProcessed]. *)
Fixpoint duplex_convert_loop (fuel : nat) (s : rw_state) (remaining processed cap : Z)
    : lcgM (ma_result * bool * Z * rw_state) :=
  match fuel with
  | O => lift None
  | Datatypes.S fuel =>
      let d := io_dev (rw_io s) in
      let m := ma_min (stack_cap (side_bpf (dev_capture d))) (stack_cap (side_bpf (dev_playback d))) in
      let off := u32 (processed * internal_bpf (io_capture (rw_io s))) in
      bind (run_converter (converter (io_capture (rw_io s))) (drop (Z.to_nat off) (capturedDeviceData s))
              remaining stack m) (fun '(result, k, M, capturedClientData, c) =>
      let x := io_with_capture (rw_io s) c in
      let s := mk_rw x (rw_backend s) (capturedDeviceData s) (playbackDeviceData s) in
      if negb (result =? MA_SUCCESS) then ret (result, false, processed, s)
      else if M =? 0 then ret (result, false, processed, s)
      else
        bind (handle_data x (Some stack) (Some capturedClientData) M) (fun '(playbackClientData, x) =>
        let s := mk_rw x (rw_backend s) (capturedDeviceData s) (playbackDeviceData s) in
        let processed := u32 (processed + u32 k) in
        let remaining := u32 (remaining - u32 k) in
        bind (duplex_write_loop inner s (default stack playbackClientData) M cap) (fun '(result, exitLoop, s) =>
        if negb (result =? MA_SUCCESS) then ret (result, true, processed, s)
        else duplex_convert_loop fuel s remaining processed cap)))
  end.

(** [exitLoop] is looked at when the period is over. *)
Fixpoint duplex_period (fuel : nat) (result : ma_result) (exitLoop : bool) (s : rw_state)
    (period capIn capOut total : Z) : lcgM (ma_result * bool * rw_state) :=
  match fuel with
  | O => lift None
  | Datatypes.S fuel =>
      if negb (total <? period) then ret (result, exitLoop, s)
      else
        let n := u32 (period - total) in
        let n := if n >? capIn then capIn else n in
        let '(result, buf, toProcess, w) := onDeviceRead (rw_backend s) (capturedDeviceData s) n in
        let s := mk_rw (rw_io s) w buf (playbackDeviceData s) in
        if negb (result =? MA_SUCCESS) then ret (result, true, s)
        else
          bind (duplex_convert_loop inner s toProcess 0 capOut) (fun '(result, exit, processed, s) =>
          let exitLoop := exitLoop || exit in
          if processed =? 0 then ret (result, exitLoop, s)
          else duplex_period fuel result exitLoop s period capIn capOut (u32 (total + processed)))
  end.

Fixpoint read_write_loop (fuel : nat) (started : nat -> bool) (result : ma_result) (s : rw_state)
    (capIn capOut : Z) : lcgM (ma_result * rw_state) :=
  match fuel with
  | O => lift None
  | Datatypes.S fuel =>
      if negb (started O) then ret (result, s)
      else
        let x := rw_io s in
        bind
          (match dev_type (io_dev x) with
           | ma_device_type_duplex =>
               duplex_period inner result false s
                 (ma_min (internalPeriodSizeInFrames (io_capture x)) (internalPeriodSizeInFrames (io_playback x)))
                 capIn capOut 0
           | ma_device_type_capture | ma_device_type_loopback =>
               capture_period inner result s (internalPeriodSizeInFrames (io_capture x)) capIn 0
           | ma_device_type_playback =>
               playback_period inner result s (internalPeriodSizeInFrames (io_playback x)) capOut 0
           end)
          (fun '(result, exitLoop, s) =>
        if exitLoop : bool then ret (result, s)
        else read_write_loop fuel (fun k => started (Datatypes.S k)) result s capIn capOut)
  end.
End device_io.

Section default_read_write.
Context {C S W : Type}.
Context (simd : option (list spec_float -> list spec_float)).
Context (onData : option (ma_device_data_proc S)) (stack : list Z).
Context (onDeviceRead : option (W -> list Z -> Z -> ma_result * list Z * Z * W)).
Context (onDeviceWrite : option (W -> list Z -> Z -> ma_result * Z * W)).

Definition device_captures (ty : ma_device_type) : bool :=
  match ty with ma_device_type_playback => false | _ => true end.
Definition device_plays (ty : ma_device_type) : bool :=
  match ty with ma_device_type_playback | ma_device_type_duplex => true | _ => false end.

(** A callback that is not needed may be NULL. *)
Definition ma_device_audio_thread__default_read_write (inner fuel : nat) (started : nat -> bool)
    (x : @io_device C S) (w : W) : lcgM (ma_result * @io_device C S * W) :=
  let ty := dev_type (io_dev x) in
  if device_captures ty && negb (bool_decide (is_Some onDeviceRead)) then ret (MA_NOT_IMPLEMENTED, x, w)
  else if device_plays ty && negb (bool_decide (is_Some onDeviceWrite)) then ret (MA_NOT_IMPLEMENTED, x, w)
  else
    let capIn := if device_captures ty then u32 (stack_cap (internal_bpf (io_capture x))) else 0 in
    let capOut := if device_plays ty then u32 (stack_cap (internal_bpf (io_playback x))) else 0 in
    let read := default (fun w buf _ => (MA_NOT_IMPLEMENTED, buf, 0, w)) onDeviceRead in
    let write := default (fun w _ _ => (MA_NOT_IMPLEMENTED, 0, w)) onDeviceWrite in
    bind (read_write_loop simd onData stack read write inner fuel started MA_SUCCESS
            (mk_rw x w stack stack) capIn capOut) (fun '(result, s) => ret (result, rw_io s, rw_backend s)).
End default_read_write.
