(* ===== verification/DeviceIOProps.v ===== *)
(** * Correctness of device input and output

    The loops of [DeviceIO] against the interfaces of their neighbours: the data converter
    is a [StreamConverter], the client behind [ma_device__handle_data_callback] is a
    [PlaybackSource] or a [CaptureSink].  A playback device gets exactly the frames it asks
    for, the conversion of what the client supplied, in order and each frame once; a client
    that records gets the conversion of all frames of the device. *)
From Stdlib Require Import ZArith Lia Bool SpecFloat Morphisms.
From stdpp Require Import base numbers list option.
From S2P Require Import Prelude MaTypes Ring PcmRing CFloat PcmFormat ChannelMap ChannelConverter Resampler DataConverter DeviceData Stages ChannelFrames DataConverterProps DataConverterStream ConverterStream DeviceIO.

Local Open Scope Z_scope.
Local Open Scope lcg_scope.

(** ** The client behind the callback *)

(** [supplies d u d']: a device in state [d] that is asked for the frames [u] is left in
    state [d']; [J] holds of the states the device can be in. *)
Class PlaybackSource {S} (onData : option (ma_device_data_proc S)) (bw : Z) (J : ma_device S -> Prop)
    (supplies : ma_device S -> list Z -> ma_device S -> Prop) : Prop := {
  source_frame : forall d, J d -> side_bpf (dev_playback d) = bw;
  source_call : forall d out n, J d -> 0 <= n <= max_frames -> n * bw <= zlen out ->
    exists b d', ma_device__handle_data_callback onData d (Some out) None n = Some (Some (wr out 0 b), d')
      /\ zlen b = n * bw /\ supplies d b d' /\ J d';
  supplies_nil : forall d, J d -> supplies d [] d;
  supplies_app : forall d a d1 b d2, supplies d a d1 -> supplies d1 b d2 -> supplies d (a ++ b) d2 }.

(** [accepts d u d']: the client has been handed the frames [u]. *)
Class CaptureSink {S} (onData : option (ma_device_data_proc S)) (bw : Z) (J : ma_device S -> Prop)
    (accepts : ma_device S -> list Z -> ma_device S -> Prop) : Prop := {
  sink_frame : forall d, J d -> side_bpf (dev_capture d) = bw;
  sink_call : forall d src n, J d -> 0 < n <= max_frames -> n * bw <= zlen src ->
    exists d', ma_device__handle_data_callback onData d None (Some src) n = Some (None, d')
      /\ accepts d (rd src 0 (n * bw)) d' /\ J d';
  accepts_nil : forall d, J d -> accepts d [] d;
  accepts_app : forall d a d1 b d2, accepts d a d1 -> accepts d1 b d2 -> accepts d (a ++ b) d2 }.

(** ** Buffers *)

Lemma take_wr_drop {A} (out e : list A) off :
  0 <= off <= zlen out -> take (Z.to_nat off) out ++ wr (drop (Z.to_nat off) out) 0 e = wr out off e.
Proof.
  intros H. unfold wr. change (Z.to_nat 0) with 0%nat. cbn [take app Nat.add]. by rewrite drop_drop.
Qed.

(** Frames that are written, read back. *)
Lemma rd_wr_0 {A} (m d : list A) : rd (wr m 0 d) 0 (zlen d) = d.
Proof. apply rd_wr_same; [lia|apply zlen_nonneg]. Qed.

Section loops.
Context {C S : Type} (onData : option (ma_device_data_proc S)) (stack : list Z).
Hypothesis Hstack : zlen stack = MA_DATA_CONVERTER_STACK_BUFFER_SIZE.
Context (wi wo g B R : Z) (inv : ma_data_converter C -> Prop) (conv : conv_of C).
Context `{HS : !StreamConverter wi wo g B R inv conv}.
Hypothesis Hwi : 0 < wi <= 1016.
Hypothesis Hwo : 0 < wo <= 1016.
Hypothesis HB : 0 < B.
Hypothesis Hg : (g | wo).
Context (J : ma_device S -> Prop) (moves : ma_device S -> list Z -> ma_device S -> Prop).

Implicit Types (c : ma_data_converter C) (x : @io_device C S) (d : ma_device S).

Lemma run_converter_spec c src n out m :
  inv c -> 0 <= n <= max_frames -> 0 <= m <= max_frames -> n * wi <= zlen src -> holds_frames g wo out m ->
  run_converter None c src n out m
  ≈ bind (conv c src n m) (fun '(k, M, e, c') => ret (MA_SUCCESS, k, M, wr out 0 e, c')).
Proof using HS.
  intros Hc Hn Hm Hsrc Hout. unfold run_converter.
  rewrite (conv_process (g := g)) by done. rewrite bind_assoc. apply bind_proper; [done|].
  intros [[[k M] e] c']. by rewrite ret_bind.
Qed.

(** A call in the state the generator is in. *)
Lemma conv_split_at c u n1 m1 n m st k1 M1 e1 c1 st1 :
  inv c -> 0 <= n1 <= n -> n <= max_frames -> 0 <= m1 <= m -> m <= max_frames -> n * wi <= zlen u ->
  conv c u n1 m1 st = Some ((k1, M1, e1, c1), st1) ->
  conv c u n m st =
    match conv c1 (drop (Z.to_nat (k1 * wi)) u) (n - k1) (m - M1) st1 with
    | Some ((k2, M2, e2, c2), st2) => Some ((k1 + k2, M1 + M2, e1 ++ e2, c2), st2)
    | None => None
    end.
Proof using HS.
  intros Hc Hn1 Hn Hm1 Hm Hu E. rewrite (conv_split c u n1 m1 n m Hc Hn1 Hn Hm1 Hm Hu st). unfold bind at 1.
  rewrite E. unfold bind. by destruct (conv c1 _ _ _ st1) as [[[[[k2 M2] e2] c2] st2]|].
Qed.

Lemma conv_split_none c u n1 m1 n m st :
  inv c -> 0 <= n1 <= n -> n <= max_frames -> 0 <= m1 <= m -> m <= max_frames -> n * wi <= zlen u ->
  conv c u n1 m1 st = None -> conv c u n m st = None.
Proof using HS.
  intros Hc Hn1 Hn Hm1 Hm Hu E. rewrite (conv_split c u n1 m1 n m Hc Hn1 Hn Hm1 Hm Hu st). unfold bind at 1.
  by rewrite E.
Qed.

(** Every [B] frames of input give a frame of output. *)
Lemma conv_rate j : forall c u T F st total e c' st',
  inv c -> 0 <= T <= max_frames -> T * wi <= zlen u -> 0 <= F <= max_frames ->
  conv c u T F st = Some ((T, total, e, c'), st') -> total = Z.of_nat j -> T < (total + 1) * B.
Proof using HS Hwi Hwo HB.
  induction j as [|j IH]; intros c u T F st total e c' st' Hc HT Hu HF E Hj;
    (destruct (decide (T < B)) as [|HTB]; [nia|]).
  - exfalso. destruct (decide (F = 0)) as [->|].
    { rewrite (conv_none c u T Hc HT Hu st) in E. injection E as <- _ _ _ _. lia. }
    pose proof (conv_productive (wi:=wi) (B := B) c u T F Hc ltac:(lia) HT ltac:(lia) Hu st _ _ E) as HM. cbn in HM. lia.
  - destruct (decide (F = 0)) as [->|].
    { rewrite (conv_none c u T Hc HT Hu st) in E. injection E as <- _ _ _ _. lia. }
    assert (B * wi <= T * wi) by (apply Z.mul_le_mono_nonneg_r; lia).
    destruct (conv c u B 1 st) as [[[[[k1 M1] e1] c1] st1]|] eqn:E1.
    2:{ rewrite (conv_split_none c u B 1 T F st) in E by (done || lia). done. }
    destruct (conv_keeps (wi:=wi) (wo:=wo) c u B 1 Hc ltac:(lia) ltac:(lia) ltac:(lia) st _ _ E1) as (Hk1 & HM1 & _ & Hc1).
    pose proof (conv_productive (wi:=wi) (B := B) c u B 1 Hc ltac:(lia) ltac:(lia) ltac:(lia) ltac:(lia) st _ _ E1) as Hp.
    cbn in Hp.
    rewrite (conv_split_at c u B 1 T F st k1 M1 e1 c1 st1) in E by (done || lia).
    assert (k1 * wi <= T * wi) by (apply Z.mul_le_mono_nonneg_r; lia). assert (0 <= k1 * wi) by nia.
    destruct (conv c1 _ (T - k1) (F - M1) st1) as [[[[[k2 M2] e2] c2] st2]|] eqn:E2; [|done].
    injection E as Hk <- <- <- <-.
    replace k2 with (T - k1) in E2 by lia.
    pose proof (IH c1 (drop (Z.to_nat (k1 * wi)) u) (T - k1) (F - M1) st1 M2 e2 c2 st2 Hc1 ltac:(lia)
      ltac:(rewrite zlen_drop by lia; lia) ltac:(lia) E2 ltac:(lia)). nia.
Qed.

(** *** Playback *)

Section playback.
Context `{HP : !PlaybackSource onData wi J moves}.
Variables (c0 : ma_data_converter C) (d0 : ma_device S) (st0 F : Z) (out0 : list Z).
Hypothesis Hc0 : inv c0.
Hypothesis HF : 0 < F.
Hypothesis Hmax : (F + 1) * B + 2 * MA_DATA_CONVERTER_STACK_BUFFER_SIZE <= max_frames.
Hypothesis Hout : holds_frames g wo out0 F.

(** The loop has taken the [T] frames [u] from the client and has written the [total]
    frames [e]. *)
Definition reached (u : list Z) (T total : Z) (e : list Z) c (st : Z) : Prop :=
  zlen u = T * wi /\ zlen e = total * wo /\ 0 <= total <= F /\ inv c /\ 0 <= T < (total + 1) * B /\ (u = [] /\ T = 0 /\ total = 0 /\ e = [] /\ c = c0 /\ st = st0
   \/ conv c0 u T F st0 = Some ((T, total, e, c), st)).

Lemma reached_further u T total e c st b n1 :
  reached u T total e c st -> total < F -> zlen b = n1 * wi -> 0 <= n1 <= MA_DATA_CONVERTER_STACK_BUFFER_SIZE ->
  conv c0 (u ++ b) (T + n1) F st0 =
    match conv c b n1 (F - total) st with
    | Some ((k, M, e2, c2), st2) => Some ((T + k, total + M, e ++ e2, c2), st2)
    | None => None
    end.
Proof using Type*.
  intros (Hu & He & Htot & Hc & HT & [(-> & -> & -> & -> & -> & ->)|H]) Hlt Hb Hn1; unfold max_frames in *;
    change MA_DATA_CONVERTER_STACK_BUFFER_SIZE with 4096 in *.
  - cbn [app]. rewrite Z.sub_0_r, Z.add_0_l. by destruct (conv c0 b n1 F st0) as [[[[[k M] e2] c2] st2]|].
  - assert (T <= (F + 1) * B) by nia. assert (HF' : F <= (F + 1) * B) by nia.
    assert (Hall : (T + n1) * wi <= zlen (u ++ b)) by (rewrite zlen_app; lia).
    rewrite (conv_split_at c0 (u ++ b) T F (T + n1) F st0 T total e c st); unfold max_frames; try (done || lia).
    + rewrite <- Hu. unfold zlen at 1. rewrite Nat2Z.id, skipn_app, drop_all, Nat.sub_diag. cbn [app drop].
      by replace (T + n1 - T) with n1 by lia.
    + rewrite (conv_prefix (wi:=wi) c0 (u ++ b) T F) by (unfold max_frames; done || lia).
      rewrite rd_app_l by lia. rewrite <- Hu, rd_all. done.
Qed.

Lemma supplied x buf n :
  J (io_dev x) -> 0 <= n <= max_frames -> n * wi <= zlen buf ->
  exists b d', zlen b = n * wi /\ moves (io_dev x) b d' /\ J d'
    /\ handle_data onData x (Some buf) None n ≈ ret (Some (wr buf 0 b), io_with_dev x d').
Proof using HP.
  intros HJ Hn Hbuf. destruct (source_call (bw:=wi) (io_dev x) buf n HJ Hn Hbuf) as (b & d' & E & Hb & Hm & HJ').
  exists b, d'. split_and!; try done. unfold handle_data, u32.
  rewrite wrapu_id by (unfold in_u, max_frames in *; lia).
  rewrite E. by rewrite lift_some, ret_bind.
Qed.

(** The frames of a buffer on the stack. *)
Lemma stack_cap_fits w : 0 < w <= 1016 -> 4 <= stack_cap w /\ stack_cap w * w <= MA_DATA_CONVERTER_STACK_BUFFER_SIZE
  /\ stack_cap w <= MA_DATA_CONVERTER_STACK_BUFFER_SIZE.
Proof using Type.
  intros Hw. unfold stack_cap. change MA_DATA_CONVERTER_STACK_BUFFER_SIZE with 4096. split_and!.
  - apply Z.div_le_lower_bound; lia.
  - rewrite Z.mul_comm. apply Z.mul_div_le. lia.
  - apply Z.div_le_upper_bound; nia.
Qed.

(** A turn of the loop takes the [n1] frames [b] from the client. *)
Lemma read_turn x u T total e st :
  J (io_dev x) -> internal_bpf (io_playback x) = wo -> moves d0 u (io_dev x) ->
  reached u T total e (converter (io_playback x)) st -> total < F ->
  exists n1 b d1, 0 <= n1 <= MA_DATA_CONVERTER_STACK_BUFFER_SIZE /\ zlen b = n1 * wi /\ moves d0 (u ++ b) d1 /\ J d1 /\
    match conv (converter (io_playback x)) b n1 (F - total) st with
    | None => forall fuel, read_loop None onData stack (Datatypes.S fuel) x (wr out0 0 e) (total * wo) total F st = None
    | Some ((k, M, e2, c2), st2) =>
        k = n1 /\ 0 < n1 + M /\ reached (u ++ b) (T + n1) (total + M) (e ++ e2) c2 st2 /\
        forall fuel, read_loop None onData stack (Datatypes.S fuel) x (wr out0 0 e) (total * wo) total F st
          = read_loop None onData stack fuel (io_with_playback (io_with_dev x d1) c2) (wr out0 0 (e ++ e2))
              ((total + M) * wo) (total + M) F st2
    end.
Proof using Type*.
  intros HJ Hbpf Hmv Hr Hlt. pose proof Hr as (Hu & He & Htot & Hc & HT & _).
  set (c := converter (io_playback x)) in *. set (m := F - total).
  assert (HF' : F <= (F + 1) * B) by nia. unfold max_frames in Hmax. change MA_DATA_CONVERTER_STACK_BUFFER_SIZE with 4096 in *.
  destruct (conv_required (wi:=wi) c m Hc) as (q & Eq & Hq & Hreq); [unfold max_frames; lia|].
  destruct (stack_cap_fits wi Hwi) as (Hcap & Hfit & Hcap'). change MA_DATA_CONVERTER_STACK_BUFFER_SIZE with 4096 in *.
  set (cap := stack_cap wi) in *. set (n1 := Z.min (Z.min m cap) q).
  assert (n1 * wi <= cap * wi) by (apply Z.mul_le_mono_nonneg_r; lia).
  destruct (supplied x stack n1) as (b & d1 & Hb & Hmv1 & HJ1 & Hcall); [done|unfold max_frames; lia|lia|].
  exists n1, b, d1. split; [lia|]. split; [done|]. split; [by eapply supplies_app|]. split; [done|].
  set (out := wr out0 0 e). assert (Hzout : zlen out = zlen out0).
  { apply zlen_wr; [lia|]. destruct Hout as [Ho _]. rewrite He. nia. }
  assert (Hroom : holds_frames g wo (drop (Z.to_nat (total * wo)) out) m).
  { apply holds_drop; [done|lia|lia|]. destruct Hout as [Ho ?]. by split; rewrite Hzout. }
  set (x1 := io_with_dev x d1).
  assert (Hloop : forall fuel, read_loop None onData stack (Datatypes.S fuel) x out (total * wo) total F st =
    match conv c b n1 m st with
    | None => None
    | Some ((k, M, e2, c2), st2) =>
        (let out := take (Z.to_nat (total * wo)) out ++ wr (drop (Z.to_nat (total * wo)) out) 0 e2 in
        let x2 := io_with_playback x1 c2 in
        if (k =? 0) && (M =? 0) then ret (out, x2)
        else read_loop None onData stack fuel x2 out (total * wo + u64 (M * internal_bpf (io_playback x2))) (u64 (total + M)) F) st2
    end).
  { intros fuel. cbn [read_loop]. destruct (Z.ltb_spec total F) as [_|]; [|lia]. cbn [negb]. fold c.
    rewrite (source_frame (io_dev x) HJ). fold cap.
    replace (u64 (F - total)) with m by (unfold u64; rewrite wrapu_id; [done|unfold in_u; lia]).
    unfold lift. rewrite Eq. unfold bind at 1.
    replace (if (if m >? cap then cap else m) >? q then q else if m >? cap then cap else m) with n1
      by (unfold n1; destruct (Z.gtb_spec m cap); [destruct (Z.gtb_spec cap q)|destruct (Z.gtb_spec m q)]; lia).
    unfold bind at 1. rewrite (Hcall st). cbn [ret default].
    unfold bind at 1. change (converter (io_playback (io_with_dev x d1))) with c. change (id (wr stack 0 b)) with (wr stack 0 b).
    rewrite (run_converter_spec c (wr stack 0 b) n1 _ m Hc ltac:(unfold max_frames; lia) ltac:(unfold max_frames; lia)
      ltac:(rewrite zlen_wr; lia) Hroom st).
    unfold bind at 1. rewrite (conv_prefix (wi:=wi) c (wr stack 0 b) n1 m Hc ltac:(unfold max_frames; lia) ltac:(lia) ltac:(rewrite zlen_wr; lia) st).
    rewrite <- Hb, rd_wr_0. destruct (conv c b n1 m st) as [[[[[k M] e2] c2] st2]|]; [|done].
    done. }
  fold m. pose proof (reached_further u T total e c st b n1 Hr Hlt Hb ltac:(change MA_DATA_CONVERTER_STACK_BUFFER_SIZE with 4096; lia)) as Hfurther. fold m in Hfurther.
  destruct (conv c b n1 m st) as [[[[[k M] e2] c2] st2]|] eqn:E; [|intros fuel; apply Hloop].
  destruct (conv_keeps (wi:=wi) (wo:=wo) c b n1 m Hc ltac:(unfold max_frames; lia) ltac:(unfold max_frames; lia) ltac:(lia) st _ _ E)
    as (Hk & HM & He2 & Hc2).
  destruct (Hreq b n1 ltac:(unfold max_frames; lia) ltac:(lia) st _ _ E) as (-> & Hfull).
  rewrite Z.min_l in * by lia. split; [done|].
  assert (0 < n1 + M) by (destruct (decide (q = 0)); lia). split; [done|].
  assert (Hr2 : reached (u ++ b) (T + n1) (total + M) (e ++ e2) c2 st2).
  { split_and!; rewrite ?zlen_app; try (done || lia); [|by right].
    apply (conv_rate (Z.to_nat (total + M)) c0 (u ++ b) (T + n1) F st0 (total + M) (e ++ e2) c2 st2); unfold max_frames;
      rewrite ?zlen_app; try (done || lia). }
  split; [done|]. intros fuel. rewrite Hloop. cbv zeta.
  change (internal_bpf (io_playback (io_with_playback x1 c2))) with (internal_bpf (io_playback x)). rewrite Hbpf.
  assert (M * wo <= F * wo) by (apply Z.mul_le_mono_nonneg_r; lia).
  assert (total * wo + M * wo <= F * wo) by (rewrite <- Z.mul_add_distr_r; apply Z.mul_le_mono_nonneg_r; lia).
  assert (0 <= M * wo) by nia. assert (0 <= total * wo) by nia. destruct Hout as [Ho _].
  assert (Eout : take (Z.to_nat (total * wo)) out ++ wr (drop (Z.to_nat (total * wo)) out) 0 e2 = wr out0 0 (e ++ e2)).
  { rewrite take_wr_drop by lia. unfold out. replace (total * wo) with (0 + zlen e) by lia. apply wr_wr_adj; lia. }
  rewrite Eout.
  assert (F * wo <= 2 ^ 22 * 1016) by (apply Z.mul_le_mono_nonneg; lia).
  unfold u64. rewrite !wrapu_id by (unfold in_u; lia).
  replace (total * wo + M * wo) with ((total + M) * wo) by ring.
  destruct (Z.eqb_spec n1 0); destruct (Z.eqb_spec M 0); cbn [andb]; (lia || done).
Qed.

Lemma read_loop_playback fuel : forall x u T total e st,
  J (io_dev x) -> internal_bpf (io_playback x) = wo -> moves d0 u (io_dev x) ->
  reached u T total e (converter (io_playback x)) st ->
  (F + 1) * B - T + (F - total) <= Z.of_nat fuel ->
  exists n v d', 0 <= n <= (F + 1) * B + MA_DATA_CONVERTER_STACK_BUFFER_SIZE /\ zlen v = n * wi /\ moves d0 v d' /\ J d' /\
    match conv c0 v n F st0 with
    | None => read_loop None onData stack fuel x (wr out0 0 e) (total * wo) total F st = None
    | Some ((k, M, e', c'), st') => k = n /\ M = F /\
        read_loop None onData stack fuel x (wr out0 0 e) (total * wo) total F st
        = Some ((wr out0 0 e', io_with_playback (io_with_dev x d') c'), st')
    end.
Proof using Type*.
  induction fuel as [|fuel IH]; intros x u T total e st HJ Hbpf Hmv Hr Hfuel;
    pose proof Hr as (Hu & He & Htot & Hc & HT & Hhist).
  { nia. }
  assert (T < (F + 1) * B) by nia. assert (MA_DATA_CONVERTER_STACK_BUFFER_SIZE = 4096) by done.
  destruct (decide (total = F)) as [->|Hne].
  - destruct Hhist as [(_ & _ & HF0 & _)|Hall]; [lia|]. exists T, u, (io_dev x). split; [lia|]. split; [done|]. split; [done|].
    split; [done|]. rewrite Hall. split; [done|split; [done|]]. cbn [read_loop]. rewrite Z.ltb_irrefl. cbn [negb].
    destruct x as [dv cap [? ? ? ? ?] ? ?]. done.
  - destruct (read_turn x u T total e st HJ Hbpf Hmv Hr ltac:(lia)) as (n1 & b & d1 & Hn1 & Hb & Hmv1 & HJ1 & Hturn).
    pose proof (reached_further u T total e _ st b n1 Hr ltac:(lia) Hb Hn1) as Hfurther.
    destruct (conv (converter (io_playback x)) b n1 (F - total) st) as [[[[[k M] e2] c2] st2]|].
    + destruct Hturn as (-> & Hmore & Hr2 & Hstep).
      destruct (IH (io_with_playback (io_with_dev x d1) c2) (u ++ b) (T + n1) (total + M) (e ++ e2) st2) as
        (n & v & d' & Hn & Hv & Hmv' & HJ' & Hres); [done|done|done|done|lia|].
      exists n, v, d'. split; [done|]. split; [done|]. split; [done|]. split; [done|]. rewrite Hstep. exact Hres.
    + exists (T + n1), (u ++ b), d1. split; [lia|]. split; [rewrite zlen_app; lia|]. split; [done|]. split; [done|].
      rewrite Hfurther. apply Hturn.
Qed.
End playback.

(** *** Capture *)

Section capture.
Context `{HK : !CaptureSink onData wo J moves}.
Variables (c0 : ma_data_converter C) (d0 : ma_device S) (st0 F : Z) (src : list Z).
Hypothesis Hc0 : inv c0.
Hypothesis HF : 0 < F.
Hypothesis HR : 0 < R.
Hypothesis Hmax : (F + 1) * R + MA_DATA_CONVERTER_STACK_BUFFER_SIZE <= max_frames.
Hypothesis Hsrc : F * wi <= zlen src.
Hypothesis Hgrain : (g | MA_DATA_CONVERTER_STACK_BUFFER_SIZE).

(** Room for all that [F] frames can give. *)
Definition all_room : Z := (F + 1) * R + MA_DATA_CONVERTER_STACK_BUFFER_SIZE.

(** The loop has read [T] frames and has handed the [total] frames [e] to the client, always
    a full buffer. *)
Definition sent (T total : Z) (e : list Z) (c : ma_data_converter C) (st : Z) : Prop :=
  inv c /\ 0 <= T <= F /\ 0 <= total <= (F + 1) * R /\ conv c0 src F total st0 = Some ((T, total, e, c), st).

Lemma handed x buf n :
  J (io_dev x) -> 0 < n <= max_frames -> n * wo <= zlen buf ->
  exists d', moves (io_dev x) (rd buf 0 (n * wo)) d' /\ J d'
    /\ handle_data onData x None (Some buf) n ≈ ret (None, io_with_dev x d').
Proof using HK.
  intros HJ Hn Hbuf. destruct (sink_call (bw:=wo) (io_dev x) buf n HJ Hn Hbuf) as (d' & E & Hm & HJ').
  exists d'. split_and!; try done. unfold handle_data, u32.
  rewrite wrapu_id by (unfold in_u, max_frames in *; lia). rewrite E. by rewrite lift_some, ret_bind.
Qed.

(** The buffer of a turn, after the conversion. *)
Lemma send_room buf :
  zlen buf = MA_DATA_CONVERTER_STACK_BUFFER_SIZE -> holds_frames g wo buf (stack_cap wo).
Proof using Hwo Hgrain.
  intros Hb. destruct (stack_cap_fits wo Hwo) as (_ & Hfit & _). by split; rewrite Hb.
Qed.

(** A turn of the loop, before it looks whether it is the last one. *)
Lemma send_turn x buf T st :
  J (io_dev x) -> inv (converter (io_capture x)) -> internal_bpf (io_capture x) = wi ->
  zlen buf = MA_DATA_CONVERTER_STACK_BUFFER_SIZE -> 0 <= T <= F ->
  match conv (converter (io_capture x)) (drop (Z.to_nat (T * wi)) src) (F - T) (stack_cap wo) st with
  | None => forall fuel, send_loop None onData (Datatypes.S fuel) x src buf (T * wi) T F st = None
  | Some ((k, M, e, c), st1) =>
      exists d1 buf1, moves (io_dev x) e d1 /\ J d1 /\ zlen buf1 = MA_DATA_CONVERTER_STACK_BUFFER_SIZE /\
      let x1 := io_with_dev (io_with_capture x c) d1 in
      forall fuel, send_loop None onData (Datatypes.S fuel) x src buf (T * wi) T F st
        = if (k =? 0) && (M =? 0) then Some (x1, st1)
          else send_loop None onData fuel x1 src buf1 ((T + k) * wi) (T + k) F st1
  end.
Proof using Type* - HB.
  intros HJ Hc Hbpf Hbuf HT. set (c := converter (io_capture x)) in *. set (n := F - T).
  destruct (stack_cap_fits wo Hwo) as (Hcap & Hfit & Hcap'). assert (HS4 : MA_DATA_CONVERTER_STACK_BUFFER_SIZE = 4096) by done.
  unfold max_frames in *. assert (HFm : F <= (F + 1) * R) by nia.
  assert (HTw : T * wi <= F * wi) by (apply Z.mul_le_mono_nonneg_r; lia). assert (0 <= T * wi) by nia.
  set (rest := drop (Z.to_nat (T * wi)) src).
  assert (Hrest : n * wi <= zlen rest) by (unfold rest, n; rewrite zlen_drop by lia; lia).
  assert (Hcall : run_converter None c rest n buf (stack_cap wo)
    ≈ bind (conv c rest n (stack_cap wo)) (fun '(k, M, e, c') => ret (MA_SUCCESS, k, M, wr buf 0 e, c'))).
  { apply run_converter_spec; unfold max_frames; try done; try lia. by apply send_room. }
  assert (Hstep : forall fuel, send_loop None onData (Datatypes.S fuel) x src buf (T * wi) T F st
    = bind (run_converter None c rest n buf (stack_cap wo)) (fun '(result, k, M, buf, c) =>
      let x := io_with_capture x c in
      if negb (result =? MA_SUCCESS) then ret x
      else
        bind (if M >? 0 then bind (handle_data onData x None (Some buf) M) (fun '(_, x) => ret x) else ret x)
          (fun x =>
        let off := T * wi + u64 (k * internal_bpf (io_capture x)) in
        let total := u64 (T + k) in
        if (k =? 0) && (M =? 0) then ret x
        else send_loop None onData fuel x src buf off total F)) st).
  { intros fuel. cbn [send_loop]. rewrite (sink_frame (bw:=wo) (io_dev x) HJ).
    replace (u64 (F - T)) with n by (unfold u64; rewrite wrapu_id; [done|unfold in_u; lia]). done. }
  destruct (conv c rest n (stack_cap wo) st) as [[[[[k M] e] c1] st1]|] eqn:E.
  2:{ intros fuel. rewrite Hstep. unfold bind at 1. rewrite (Hcall st). unfold bind at 1. by rewrite E. }
  destruct (conv_keeps (wi:=wi) (wo:=wo) c rest n (stack_cap wo) Hc ltac:(unfold max_frames; lia) ltac:(unfold max_frames; lia)
    Hrest st _ _ E) as (Hk & HM & He & Hc1).
  assert (M * wo <= stack_cap wo * wo) by (apply Z.mul_le_mono_nonneg_r; lia).
  assert (Hbuf1 : zlen (wr buf 0 e) = zlen buf) by (apply zlen_wr; lia).
  assert (Hu : u64 (k * wi) = k * wi /\ u64 (T + k) = T + k).
  { unfold u64. assert (k * wi <= F * wi) by (apply Z.mul_le_mono_nonneg_r; lia).
    assert (F * wi <= 2 ^ 22 * 1016) by (apply Z.mul_le_mono_nonneg; lia). assert (0 <= k * wi) by nia.
    rewrite !wrapu_id by (unfold in_u; lia). done. }
  destruct Hu as (Hu1 & Hu2). set (x0 := io_with_capture x c1).
  assert (Hhand : exists d1, moves (io_dev x) e d1 /\ J d1 /\
    (if M >? 0 then bind (handle_data onData x0 None (Some (wr buf 0 e)) M) (fun '(_, x) => ret x) else ret x0)
    ≈ ret (io_with_dev x0 d1)).
  { destruct (Z.gtb_spec M 0).
    - destruct (handed x0 (wr buf 0 e) M HJ ltac:(unfold max_frames; lia) ltac:(lia)) as (d1 & Hm & HJ1 & Eh).
      rewrite <- He, rd_wr_0 in Hm. exists d1. split; [done|split; [done|]]. rewrite Eh, ret_bind. done.
    - replace M with 0 in He by lia. rewrite Z.mul_0_l in He. assert (e = []) as -> by (destruct e; [done|unfold zlen in He; simpl in He; lia]).
      exists (io_dev x). split; [by apply (accepts_nil (bw:=wo))|split; [done|]]. by destruct x. }
  destruct Hhand as (d1 & Hm & HJ1 & Eh). exists d1, (wr buf 0 e). do 2 (split; [done|]). split; [lia|].
  cbv zeta. intros fuel. rewrite Hstep. unfold bind at 1. rewrite (Hcall st). unfold bind at 1. rewrite E. cbn [ret].
  change (MA_SUCCESS =? MA_SUCCESS) with true. cbn [negb]. unfold bind at 1. fold x0. rewrite (Eh st1). cbn [ret].
  change (internal_bpf (io_capture (io_with_dev x0 d1))) with (internal_bpf (io_capture x)). rewrite Hbpf, Hu1, Hu2.
  rewrite Z.mul_add_distr_r. by destruct ((k =? 0) && (M =? 0)).
Qed.

Lemma send_loop_capture fuel : forall x buf T total e st,
  J (io_dev x) -> internal_bpf (io_capture x) = wi -> zlen buf = MA_DATA_CONVERTER_STACK_BUFFER_SIZE ->
  moves d0 e (io_dev x) -> sent T total e (converter (io_capture x)) st ->
  (F + 1) * R - total + 2 <= Z.of_nat fuel ->
  match conv c0 src F all_room st0 with
  | None => send_loop None onData fuel x src buf (T * wi) T F st = None
  | Some ((k, M, e', c'), st') => k = F /\ exists d', moves d0 e' d' /\ J d' /\
      send_loop None onData fuel x src buf (T * wi) T F st = Some (io_with_capture (io_with_dev x d') c', st')
  end.
Proof using Type* - HB.
  induction fuel as [|fuel IH]; intros x buf T total e st HJ Hbpf Hbuf Hmv Hs Hfuel;
    pose proof Hs as (Hc & HT & Htot & Hhist); [lia|].
  destruct (stack_cap_fits wo Hwo) as (Hcap & _ & Hcap'). assert (HS4 : MA_DATA_CONVERTER_STACK_BUFFER_SIZE = 4096) by done.
  assert (HFm : F <= (F + 1) * R) by nia. set (cap := stack_cap wo) in *.
  assert (Hall : total + cap <= all_room <= max_frames) by (unfold all_room in *; lia).
  pose proof (send_turn x buf T st HJ Hc Hbpf Hbuf HT) as Hturn. fold cap in Hturn.
  pose proof (conv_split_at c0 src F total F (total + cap) st0 T total e _ st Hc0 ltac:(lia) ltac:(lia) ltac:(lia) ltac:(lia) Hsrc Hhist) as Hnext.
  replace (total + cap - total) with cap in Hnext by lia.
  destruct (conv (converter (io_capture x)) (drop (Z.to_nat (T * wi)) src) (F - T) cap st) as [[[[[k M] e2] c1] st1]|] eqn:E.
  2:{ rewrite (conv_split_none c0 src F (total + cap) F all_room st0) by (done || lia). apply Hturn. }
  destruct Hturn as (d1 & buf1 & Hm1 & HJ1 & Hbuf1 & Hstep). set (x1 := io_with_dev (io_with_capture x c1) d1) in *.
  assert (Hmv1 : moves d0 (e ++ e2) d1) by (by eapply accepts_app).
  destruct (conv_keeps (wi:=wi) (wo:=wo) c0 src F (total + cap) Hc0 ltac:(lia) ltac:(lia) Hsrc st0 _ _ Hnext) as (Hk & HM & _ & Hc1).
  pose proof (conv_bounded (wi:=wi) (R:=R) c0 src F (total + cap) Hc0 ltac:(lia) ltac:(lia) Hsrc st0 _ _ Hnext) as HMR. cbn in HMR.
  destruct (decide (M = cap)) as [->|Hless].
  - rewrite Hstep. assert ((k =? 0) && (cap =? 0) = false) as -> by (apply andb_false_intro2, Z.eqb_neq; lia).
    pose proof (IH x1 buf1 (T + k) (total + cap) (e ++ e2) st1 HJ1 Hbpf Hbuf1 Hmv1) as Hres.
    destruct (conv c0 src F all_room st0) as [[[[[k' M'] e'] c'] st']|]; apply Hres; try lia; split_and!; done || lia.
  - pose proof (conv_starved (wi:=wi) c0 src F (total + cap) Hc0 ltac:(lia) ltac:(lia) Hsrc st0 _ _ Hnext) as Hdead. cbn in Hdead.
    destruct (Hdead ltac:(lia)) as (HTk & Hnone). clear Hdead.
    rewrite (conv_split_at c0 src F (total + cap) F all_room st0 _ _ _ _ _ Hc0 ltac:(lia) ltac:(lia) ltac:(lia) ltac:(lia) Hsrc Hnext).
    rewrite HTk, Z.sub_diag, (Hnone _ (all_room - (total + M)) ltac:(lia) st1). cbn [ret]. rewrite app_nil_r. split; [lia|]. rewrite Hstep.
    destruct ((k =? 0) && (M =? 0)); [by exists d1|]. rewrite HTk. destruct fuel as [|fuel]; [lia|].
    pose proof (send_turn x1 buf1 F st1 HJ1 Hc1 Hbpf Hbuf1 ltac:(lia)) as Hlast. fold cap in Hlast.
    change (converter (io_capture x1)) with c1 in Hlast. rewrite Z.sub_diag, (Hnone _ cap ltac:(lia) st1) in Hlast.
    destruct Hlast as (d2 & buf2 & Hm2 & HJ2 & _ & Hstop). exists d2. split; [|split; [done|]].
    + rewrite <- (app_nil_r (e ++ e2)). by eapply accepts_app.
    + rewrite Hstop. done.
Qed.
End capture.
End loops.

(** The converter passes the frames through. *)
Definition passes {C} (w wo : Z) (conv : conv_of C) (c : ma_data_converter C) (F : Z) : Prop :=
  w = wo /\ forall u m, zlen u = F * w -> F <= m -> conv c u F m ≈ ret (F, F, u, c).

Lemma read_frames_playback {C S} (onData : option (ma_device_data_proc S)) stack wi wo g B R
    (inv : ma_data_converter C -> Prop) (conv : conv_of C) J supplies
    `{!StreamConverter wi wo g B R inv conv} `{!PlaybackSource onData wi J supplies}
    fuel (x : @io_device C S) F out st :
  zlen stack = MA_DATA_CONVERTER_STACK_BUFFER_SIZE -> 0 < wi <= 1016 -> 0 < wo <= 1016 -> (g | wo) -> 0 < B ->
  let c := converter (io_playback x) in
  inv c -> J (io_dev x) -> internal_bpf (io_playback x) = wo -> pInputCache (io_cache x) = None ->
  (dc_isPassthrough c = true -> passes wi wo conv c F) ->
  0 < F -> (F + 1) * B + 2 * MA_DATA_CONVERTER_STACK_BUFFER_SIZE <= max_frames -> holds_frames g wo out F ->
  (F + 1) * B + F <= Z.of_nat fuel ->
  exists n u d', 0 <= n <= (F + 1) * B + MA_DATA_CONVERTER_STACK_BUFFER_SIZE /\ supplies (io_dev x) u d' /\ zlen u = n * wi /\ J d' /\
    match conv c u n F st with
    | Some ((k, M, e, c'), st') => k = n /\ M = F /\
        ma_device__read_frames_from_client None onData stack fuel x F out st
        = Some ((wr out 0 e, io_with_playback (io_with_dev x d') c'), st')
    | None => ma_device__read_frames_from_client None onData stack fuel x F out st = None
    end.
Proof.
  intros Hstack Hwi Hwo Hg HB c Hc HJ Hbpf Hcache Hpass HF Hmax Hout Hfuel.
  assert (F <= (F + 1) * B) by nia. unfold max_frames in Hmax.
  assert (MA_DATA_CONVERTER_STACK_BUFFER_SIZE = 4096) by done.
  unfold ma_device__read_frames_from_client. fold c. destruct (dc_isPassthrough c) eqn:Hp.
  - destruct (Hpass eq_refl) as (<- & Hid). destruct Hout as [Hout _].
    destruct (supplied onData wi J supplies x out F HJ ltac:(unfold max_frames; lia) Hout) as (b & d' & Hb & Hmv & HJ' & E).
    exists F, b, d'. split; [lia|]. do 3 (split; [done|]). rewrite (Hid b F Hb ltac:(lia) st). cbn [ret]. split; [done|split; [done|]].
    unfold bind. rewrite (E st). cbn [ret default]. destruct x as [dv cap [? ? ? ? ?] ? ?]. done.
  - rewrite Hcache.
    destruct (read_loop_playback onData stack Hstack wi wo g B R inv conv Hwi Hwo HB Hg J supplies c (io_dev x) st F out
      Hc HF ltac:(unfold max_frames; lia) Hout fuel x [] 0 0 [] st) as (n & v & d' & Hn & Hv & Hmv & HJ' & Hres); try done.
    + by apply (supplies_nil (bw:=wi)).
    + split_and!; try (done || lia). by left.
    + lia.
    + exists n, v, d'. rewrite wr_nil in Hres. done.
Qed.


