(* ===== verification/DeviceClients.v ===== *)
(** * Who supplies and who receives the frames of a device

    The interfaces of [DeviceIOProps] discharged for devices with fixed-size callbacks at
    the default volume: any client whose samples are not clipped, the adapter, whose samples
    clipping leaves alone, and any client that records. *)
From Stdlib Require Import ZArith Lia Bool SpecFloat.
From stdpp Require Import base numbers list option.
From S2P Require Import Prelude MaTypes CFloat Ring FrameRing PcmRing FrameCopy Adapter AdapterProps PcmFormat DeviceData DeviceDataProps AdapterDevice DataConverter Stages ChannelFrames DataConverterProps DataConverterStream ConverterStream DeviceIO DeviceIOProps.

Local Open Scope Z_scope.

(** ** What delivery leaves alone *)

Definition same_config {S} (d d' : ma_device S) : Prop :=
  noClip d = noClip d' /\ masterVolumeFactor d = masterVolumeFactor d'.

Section config.
Context {S : Type} (onData : ma_device_data_proc S).
Implicit Types d : ma_device S.

Lemma same_config_trans d1 d2 d3 : same_config d1 d2 -> same_config d2 d3 -> same_config d1 d3.
Proof. unfold same_config. intuition congruence. Qed.

Lemma on_data_inner_config d out inp n r d' :
  ma_device__on_data_inner onData d out inp n = Some (r, d') -> same_config d d'.
Proof. unfold ma_device__on_data_inner. intros H. by repeat case_match; simplify_eq. Qed.

Lemma on_data_capture_config d src total remaining n d' :
  on_data_capture onData d src total remaining = Some (n, d') -> same_config d d'.
Proof.
  unfold on_data_capture. intros H. repeat case_match; simplify_eq; try done.
  match goal with E : ma_device__on_data_inner _ _ _ _ _ = _ |- _ => exact (on_data_inner_config _ _ _ _ _ _ E) end.
Qed.

Lemma on_data_playback_config d out total remaining n0 n out' d' :
  on_data_playback onData d out total remaining n0 = Some (n, out', d') -> same_config d d'.
Proof.
  unfold on_data_playback. intros H. repeat case_match; simplify_eq; try done.
  match goal with E : ma_device__on_data_inner _ _ _ _ _ = _ |- _ => exact (on_data_inner_config _ _ _ _ _ _ E) end.
Qed.

Lemma on_data_duplex_config d d' : on_data_duplex onData d = Some d' -> same_config d d'.
Proof.
  unfold on_data_duplex. intros H. repeat case_match; simplify_eq; try done.
  match goal with E : ma_device__on_data_inner _ _ _ _ _ = _ |- _ => exact (on_data_inner_config _ _ _ _ _ _ E) end.
Qed.

Lemma on_data_loop_config fuel : forall d out inp total n r d',
  on_data_loop fuel onData d out inp total n = Some (r, d') -> same_config d d'.
Proof.
  induction fuel as [|fuel IH]; intros d out inp total n r d'; cbn [on_data_loop].
  { by case_match; intros; simplify_eq. }
  destruct (total <? n); [|by intros; simplify_eq].
  set (captured := match inp with Some src => _ | None => _ end).
  destruct captured as [[n1 d1]|] eqn:E1; [|done].
  set (played := match out with Some out => _ | None => _ end).
  destruct played as [[[n2 out2] d2]|] eqn:E2; [|done].
  destruct (on_data_duplex onData d2) as [d3|] eqn:E3; [|done]. intros H.
  assert (same_config d d1).
  { subst captured. destruct inp; [by eapply on_data_capture_config|by simplify_eq]. }
  assert (same_config d1 d2).
  { subst played. destruct out as [o|]; [|by simplify_eq].
    destruct (on_data_playback _ _ _ _ _ _) as [[[? ?] ?]|] eqn:E; simplify_eq. by eapply on_data_playback_config. }
  apply on_data_duplex_config in E3. apply IH in H.
  eauto using same_config_trans.
Qed.

Lemma on_data_config d out inp n r d' :
  ma_device__on_data onData d out inp n = Some (r, d') -> same_config d d'.
Proof.
  unfold ma_device__on_data. repeat case_match; [by intros; simplify_eq|apply on_data_inner_config|apply on_data_loop_config].
Qed.
End config.

(** ** Any client whose samples are not clipped *)

Section fixed_playback.
Context {S : Type} (onData : ma_device_data_proc S) (I : S -> Prop) (b cap : Z) (silent : list Z).
Context `{HC : !PlaybackClient onData I silent cap}.

Definition unclipped (d : ma_device S) : Prop :=
  noClip d = true \/ side_format (dev_playback d) <> ma_format_f32.

Definition playing (d : ma_device S) : Prop :=
  play_dev I b cap d /\ silent_period b (dev_playback d) = silent /\ masterVolumeFactor d = f32_one /\ unclipped d.

(** The frames [u] continue what was left of the last period with the client's next periods. *)
Definition played_periods (d : ma_device S) (u : list Z) (d' : ma_device S) : Prop :=
  exists k new, produced onData silent cap k (dev_client d) = Some (new, dev_client d')
    /\ u ++ play_left b (dev_playback d') = play_left b (dev_playback d) ++ new.

Lemma play_dev_bpf d : play_dev I b cap d -> side_bpf (dev_playback d) = b.
Proof using Type. intros H. apply (side_ok_bpf b cap), H. Qed.

#[export] Instance fixed_playback_source : PlaybackSource (Some onData) b playing played_periods.
Proof using HC.
  split.
  - intros d (Hd & _). by apply play_dev_bpf.
  - intros d out n (Hd & Hsil & Hv & Hclip) Hn Hout.
    destruct (on_data_playback_prefix onData I b cap d out n Hd ltac:(by rewrite Hsil)) as
      (k & new & u & d' & E & P & L & Hu & Hd' & Hsame & _); [unfold max_frames in *; lia|done|].
    pose proof (on_data_config onData _ _ _ _ _ _ E) as (Enc & Ev). pose proof Hsame as (Ef & Ec & Ecap).
    exists u, d'. split_and!; [|done| |].
    + unfold ma_device__handle_data_callback. rewrite E. unfold handle_output. rewrite Hv.
      change (SFeqb f32_one f32_one) with true. cbn [negb andb]. rewrite <- Enc, Ef.
      destruct Hclip as [-> |Hf]; [done|]. by rewrite (bool_decide_eq_false_2 _ Hf), andb_false_r.
    + exists k, new. by rewrite <- Hsil.
    + split; [done|]. split; [by rewrite (same_side_silent b _ _ Hsame)|]. split; [by rewrite <- Ev|].
      unfold unclipped in *. by rewrite <- Enc, Ef.
  - intros d _. exists O, []. by rewrite app_nil_r.
  - intros d u1 d1 u2 d2 (k1 & n1 & P1 & L1) (k2 & n2 & P2 & L2). exists (k1 + k2)%nat, (n1 ++ n2).
    split; [by eapply produced_app|]. by rewrite <- app_assoc, L2, !app_assoc, L1.
Qed.
End fixed_playback.

(** ** Any client that records *)

Section fixed_capture.
Context {S : Type} (onData : ma_device_data_proc S) (I : S -> Prop) (b cap : Z).
Context `{HC : !CaptureClient onData I (cap * b) cap}.

Definition recording (d : ma_device S) : Prop := capture_dev I b cap d /\ masterVolumeFactor d = f32_one.

(** The client received whole periods; the rest is in the buffer. *)
Definition recorded_periods (d : ma_device S) (u : list Z) (d' : ma_device S) : Prop :=
  exists blocks, delivered onData cap blocks (dev_client d) = Some (dev_client d')
    /\ Forall (fun p => zlen p = cap * b) blocks
    /\ cap_left b (dev_capture d) ++ u = concat blocks ++ cap_left b (dev_capture d').

#[export] Instance fixed_capture_sink : CaptureSink (Some onData) b recording recorded_periods.
Proof using HC.
  split.
  - intros d (Hd & _). apply (side_ok_bpf b cap), Hd.
  - intros d src n (Hd & Hv) Hn Hsrc.
    destruct (on_data_capture_prefix onData I b cap d src n Hd HC) as (blocks & d' & E & P & Hf & L & Hd' & _);
      [unfold max_frames in *; lia|done|].
    pose proof (on_data_config onData _ _ _ _ _ _ E) as (_ & Ev).
    exists d'. split; [|split; [by exists blocks|split; [done|by rewrite <- Ev]]].
    unfold ma_device__handle_data_callback. rewrite Hv. change (SFeqb f32_one f32_one) with true. cbn [negb].
    by rewrite E.
  - intros d _. exists []. by rewrite app_nil_r.
  - intros d u1 d1 u2 d2 (l1 & P1 & F1 & L1) (l2 & P2 & F2 & L2). exists (l1 ++ l2).
    split; [by rewrite (delivered_app _ _ _ _ _ _ P1)|]. split; [by apply Forall_app|].
    by rewrite app_assoc, L1, <- app_assoc, L2, concat_app, !app_assoc.
Qed.
End fixed_capture.

(** ** The adapter *)

Lemma wr_wr_same {A} (m d e : list A) : zlen d = zlen e -> zlen d <= zlen m -> wr (wr m 0 d) 0 e = wr m 0 e.
Proof.
  intros Hde Hd. unfold wr at 1 3. change (Z.to_nat 0) with 0%nat. cbn [take app Nat.add]. f_equal.
  unfold zlen in Hde. replace (length e) with (Z.to_nat (zlen d)) by (unfold zlen; lia).
  f_equal. apply drop_wr; lia.
Qed.

Lemma split_samples_of_app n w (x y : list Z) :
  length x = (w * n)%nat -> split_samples w n (x ++ y) = split_samples w n x.
Proof.
  revert x. induction n as [|n IH]; intros x Hx; [done|]. cbn [split_samples].
  rewrite take_app_le, drop_app_le by lia. f_equal. apply IH. rewrite length_drop. lia.
Qed.

(** Clipping the frames at the start of a buffer. *)
Lemma clip_in_place_prefix out raw count :
  unit_samples raw -> 0 <= count -> zlen raw = 4 * count -> zlen raw <= zlen out ->
  exists u, clip_in_place (wr out 0 raw) count = wr out 0 u /\ zlen u = zlen raw
    /\ forall j, 0 <= j < count -> ld_f32 u j = ld_f32 raw j.
Proof.
  intros Hu Hc Hz Hout. destruct (clip_in_place_unit raw count Hu Hc Hz) as (Hlen & Hsame).
  exists (clip_in_place raw count). split_and!; [|done|done].
  unfold clip_in_place in *. rewrite (wr_full raw) by (rewrite zlen_clipped; lia).
  rewrite (wr_full raw) in Hlen by (rewrite zlen_clipped; lia).
  assert (E : split_samples 4 (Z.to_nat count) (wr out 0 raw) = split_samples 4 (Z.to_nat count) raw).
  { unfold wr. change (Z.to_nat 0) with 0%nat. rewrite take_0. cbn [app]. apply split_samples_of_app. unfold zlen in Hz. lia. }
  rewrite E. by apply wr_wr_same.
Qed.

Section adapter_source.
Context {R : Type} `{HL : FrameRingLaws R 8}.
Context (epoch_at : Z -> Z) (now_at : Z -> spec_float) (local : list Z).
Hypothesis Hlocal : zlen local = RA_FRAME * 8.

Abbreviation client := (adapter_client epoch_at now_at local).
Abbreviation period := (zrep (RA_FRAME * 8) 0).

(** A playback device of the adapter, as [open_device] configures it. *)
Definition adapter_output (d : ma_device (ra_device R)) : Prop :=
  play_dev dev_inv 8 RA_FRAME d /\ side_format (dev_playback d) = ma_format_f32 /\ side_channels (dev_playback d) = 2
  /\ masterVolumeFactor d = f32_one /\ unit_samples (play_left 8 (dev_playback d)).

(** The frames [u] are, sample for sample, the next frames of the adapter's periods. *)
Definition adapter_plays_on (d : ma_device (ra_device R)) (u : list Z) (d' : ma_device (ra_device R)) : Prop :=
  exists k new stream n, produced client period RA_FRAME k (dev_client d) = Some (new, dev_client d')
    /\ stream ++ play_left 8 (dev_playback d') = play_left 8 (dev_playback d) ++ new
    /\ zlen u = 8 * n /\ zlen stream = 8 * n /\ forall j, 0 <= j < 2 * n -> ld_f32 u j = ld_f32 stream j.

#[export] Instance adapter_source : PlaybackSource (Some client) 8 adapter_output adapter_plays_on.
Proof using Hlocal HL.
  split.
  - intros d (Hd & _). by apply (side_ok_bpf 8 RA_FRAME), Hd.
  - intros d out n (Hd & Hfmt & Hch & Hv & Hu) Hn Hout.
    assert (Hsil : silent_period 8 (dev_playback d) = period).
    { unfold silent_period. by rewrite (so_cap _ _ _ (pd_side _ _ _ _ Hd)), Hfmt. }
    assert (HC : PlaybackClient client dev_inv (silent_period 8 (dev_playback d)) RA_FRAME).
    { rewrite Hsil. apply adapter_plays; [done|constructor]. }
    destruct (on_data_playback_prefix client dev_inv 8 RA_FRAME d out n Hd HC) as
      (k & new & raw & d' & E & P & L & Hz & Hd' & Hsame & _); [unfold max_frames in *; lia|done|].
    pose proof (on_data_config client _ _ _ _ _ _ E) as (_ & Ev).
    rewrite Hsil in P. pose proof (produced_unit epoch_at now_at local Hlocal period _ _ _ _ eq_refl
      (do_client _ _ (pd_dev _ _ _ _ Hd)) P) as Hnew.
    pose proof (pd_side _ _ _ _ Hd) as Hs. assert (Hleft : zlen (play_left 8 (dev_playback d)) = 4 * (2 * intermediaryBufferLen (dev_playback d))).
    { destruct Hs. unfold play_left. rewrite zlen_drop; lia. }
    assert (Hall : unit_samples (raw ++ play_left 8 (dev_playback d'))).
    { rewrite L. by apply (unit_samples_app _ _ _ Hleft). }
    apply (unit_samples_app _ _ (2 * n)) in Hall as [Hraw Hleft']; [|lia].
    pose proof Hsame as (Ef & Ec & _).
    assert (HJ : adapter_output d') by (split_and!; [done|by rewrite Ef|by rewrite Ec|by rewrite <- Ev|done]).
    destruct (clip_in_place_prefix out raw (n * 2) Hraw) as (u & Eu & Hzu & Hsu); [lia..|].
    unfold ma_device__handle_data_callback. rewrite E. unfold handle_output.
    rewrite Hv, Ef, Ec, Hfmt, Hch. change (SFeqb f32_one f32_one) with true. cbn [negb andb].
    rewrite bool_decide_eq_true_2, andb_true_r by done.
    unfold u32. rewrite wrapu_id by (unfold in_u, max_frames in *; lia). rewrite Eu.
    exists (if negb (noClip d') then u else raw), d'. split_and!.
    + by destruct (negb (noClip d')).
    + destruct (negb (noClip d')); lia.
    + exists k, new, raw, n. split_and!; try done; try lia; [destruct (negb (noClip d')); lia|].
      intros j Hj. destruct (negb (noClip d')); [apply Hsu; lia|done].
    + done.
  - intros d _. exists O, [], [], 0. split_and!; try done. by rewrite app_nil_r.
  - intros d u1 d1 u2 d2 (k1 & w1 & s1 & n1 & P1 & L1 & Hu1 & Hs1 & E1) (k2 & w2 & s2 & n2 & P2 & L2 & Hu2 & Hs2 & E2).
    exists (k1 + k2)%nat, (w1 ++ w2), (s1 ++ s2), (n1 + n2). split; [by eapply produced_app|].
    split; [by rewrite <- app_assoc, L2, !app_assoc, L1|]. rewrite !zlen_app. split; [lia|]. split; [lia|].
    intros j Hj. destruct (Z.lt_ge_cases j (2 * n1)).
    + rewrite !ld_app_l by lia. apply E1. lia.
    + rewrite (ld_app_r u1 u2 (2 * n1)), (ld_app_r s1 s2 (2 * n1)) by lia. apply E2. lia.
Qed.
End adapter_source.
