(* ===== verification/DeviceLoop.v ===== *)
(** * The read-write loop of a playback device

    What [ma_device_audio_thread__default_read_write] promises for playback: while the
    device is started the backend is handed whole periods, which taken together are the
    conversion of the client's stream.  The backend is a [BackendWriter]. *)
From Stdlib Require Import ZArith Lia Bool SpecFloat Morphisms.
From stdpp Require Import base numbers list option.
From S2P Require Import Prelude MaTypes CFloat PcmFormat DataConverter DeviceData Stages ChannelFrames DataConverterProps DataConverterStream ConverterStream DeviceIO DeviceIOProps.

Local Open Scope Z_scope.
Local Open Scope lcg_scope.

(** A backend that takes all frames of a write; [K] holds of its states, and [writes w u w']:
    it has taken the frames [u]. *)
Class BackendWriter {W} (write : W -> list Z -> Z -> ma_result * Z * W) (wo : Z) (K : W -> Prop)
    (writes : W -> list Z -> W -> Prop) : Prop := {
  write_call : forall w buf n, K w -> 0 < n <= max_frames -> n * wo <= zlen buf ->
    exists w', write w buf n = (MA_SUCCESS, n, w') /\ writes w (rd buf 0 (n * wo)) w' /\ K w';
  writes_nil : forall w, K w -> writes w [] w;
  writes_app : forall w a w1 b w2, writes w a w1 -> writes w1 b w2 -> writes w (a ++ b) w2 }.

Section stream.
Context {C S : Type} (wi wo g B R : Z) (inv : ma_data_converter C -> Prop) (conv : conv_of C).
Context `{HS : !StreamConverter wi wo g B R inv conv}.
Context (onData : option (ma_device_data_proc S)) (J : ma_device S -> Prop)
  (supplies : ma_device S -> list Z -> ma_device S -> Prop).
Context `{HP : !PlaybackSource onData wi J supplies}.
Hypothesis Hwi : 0 < wi <= 1016.
Hypothesis Hwo : 0 < wo <= 1016.
Hypothesis Hg : (g | wo).
Hypothesis HB : 0 < B.

(** The [F] frames [e] are the conversion of what the client supplied. *)
Definition streams (c : ma_data_converter C) (d : ma_device S) (st F : Z) (e : list Z)
    (c' : ma_data_converter C) (d' : ma_device S) (st' : Z) : Prop :=
  exists n u, 0 <= n <= max_frames /\ supplies d u d' /\ zlen u = n * wi /\
    conv c u n F st = Some ((n, F, e, c'), st').

(** The conversion of what the client supplied is undefined. *)
Definition undefined (c : ma_data_converter C) (d : ma_device S) (st F : Z) : Prop :=
  exists n u d', 0 <= n <= max_frames /\ supplies d u d' /\ zlen u = n * wi /\ conv c u n F st = None.

Lemma streams_keeps c d st F e c' d' st' :
  inv c -> 0 <= F <= max_frames -> streams c d st F e c' d' st' -> inv c' /\ zlen e = F * wo.
Proof using All.
  intros Hc HF (n & u & Hn & _ & Hu & E).
  destruct (conv_keeps (wi:=wi) (wo:=wo) c u n F Hc Hn HF ltac:(lia) st _ _ E) as (_ & _ & He & Hc'). done.
Qed.

(** The client's frames of a run that gave [F] frames. *)
Lemma streams_rate c u n F st e c' st' :
  inv c -> 0 <= n <= max_frames -> 0 <= F <= max_frames -> zlen u = n * wi ->
  conv c u n F st = Some ((n, F, e, c'), st') -> n < (F + 1) * B.
Proof using All.
  intros Hc Hn HF Hu E.
  apply (conv_rate wi wo g B R inv conv Hwi Hwo HB (Z.to_nat F) c u n F st F e c' st'); try done; lia.
Qed.

Lemma conv_of_prefix c u v n1 n2 F st :
  inv c -> 0 <= n1 -> 0 <= n2 -> n1 + n2 <= max_frames -> 0 <= F <= max_frames -> zlen u = n1 * wi -> zlen v = n2 * wi ->
  conv c (u ++ v) n1 F st = conv c u n1 F st.
Proof using All.
  intros Hc Hn1 Hn2 Hn HF Hu Hv.
  rewrite (conv_prefix (wi:=wi) c (u ++ v) n1 F Hc ltac:(lia) ltac:(lia) ltac:(rewrite zlen_app; pose proof (zlen_nonneg v); lia) st).
  rewrite rd_app_l by lia. by rewrite <- Hu, rd_all.
Qed.

Lemma stream_next c u n1 F1 st e1 c1 st1 v n2 F2 :
  inv c -> 0 <= n1 -> 0 <= n2 -> n1 + n2 <= max_frames -> 0 <= F1 -> 0 <= F2 -> F1 + F2 <= max_frames ->
  zlen u = n1 * wi -> zlen v = n2 * wi -> conv c u n1 F1 st = Some ((n1, F1, e1, c1), st1) ->
  conv c (u ++ v) (n1 + n2) (F1 + F2) st =
    match conv c1 v n2 F2 st1 with
    | Some ((k, M, e2, c2), st2) => Some ((n1 + k, F1 + M, e1 ++ e2, c2), st2)
    | None => None
    end.
Proof using All.
  intros Hc Hn1 Hn2 Hn HF1 HF2 HF Hu Hv E.
  rewrite (conv_split_at wi wo g B R inv conv c (u ++ v) n1 F1 (n1 + n2) (F1 + F2) st n1 F1 e1 c1 st1) by
    (rewrite ?zlen_app, ?(conv_of_prefix c u v n1 n2 F1 st); done || lia).
  replace (n1 + n2 - n1) with n2 by lia. replace (F1 + F2 - F1) with F2 by lia.
  rewrite <- Hu. unfold zlen at 1. by rewrite Nat2Z.id, skipn_app, drop_all, Nat.sub_diag.
Qed.

Lemma streams_0 c d st : inv c -> J d -> streams c d st 0 [] c d st.
Proof using All.
  intros Hc Hd. exists 0, []. split; [unfold max_frames; lia|]. split; [by apply (supplies_nil (bw:=wi))|]. split; [done|].
  by rewrite (conv_none (wi:=wi) c [] 0 Hc ltac:(unfold max_frames; lia) ltac:(done) st).
Qed.

Section two_runs.
Context (c : ma_data_converter C) (d : ma_device S) (st F1 F2 : Z).
Hypothesis Hc : inv c.
Hypothesis HF1 : 0 <= F1.
Hypothesis HF2 : 0 <= F2.
Hypothesis Hmax : (F1 + 1) * B + (F2 + 1) * B + F1 + F2 + MA_DATA_CONVERTER_STACK_BUFFER_SIZE <= max_frames.

Lemma streams_app e1 c1 d1 st1 e2 c2 d2 st2 :
  streams c d st F1 e1 c1 d1 st1 -> streams c1 d1 st1 F2 e2 c2 d2 st2 ->
  streams c d st (F1 + F2) (e1 ++ e2) c2 d2 st2.
Proof using All.
  assert (MA_DATA_CONVERTER_STACK_BUFFER_SIZE = 4096) by done. intros (n1 & u & Hn1 & Hs1 & Hu & E1) (n2 & v & Hn2 & Hs2 & Hv & E2).
  pose proof (conv_keeps (wi:=wi) (wo:=wo) c u n1 F1 Hc Hn1 ltac:(nia) ltac:(lia) st _ _ E1) as (_ & _ & _ & Hc1).
  pose proof (streams_rate c u n1 F1 st e1 c1 st1 Hc Hn1 ltac:(nia) Hu E1).
  pose proof (streams_rate c1 v n2 F2 st1 e2 c2 st2 Hc1 Hn2 ltac:(nia) Hv E2).
  exists (n1 + n2), (u ++ v). split; [nia|]. split; [by eapply supplies_app|]. split; [rewrite zlen_app; lia|].
  rewrite (stream_next c u n1 F1 st e1 c1 st1 v n2 F2) by (done || nia). by rewrite E2.
Qed.

Lemma undefined_first : undefined c d st F1 -> undefined c d st (F1 + F2).
Proof using All.
  assert (MA_DATA_CONVERTER_STACK_BUFFER_SIZE = 4096) by done. intros (n & u & d' & Hn & Hs & Hu & E). exists n, u, d'. do 3 (split; [done|]).
  apply (conv_split_none wi wo g B R inv conv c u n F1); try done; nia.
Qed.

Lemma undefined_next e1 c1 d1 st1 n2 v d2 :
  streams c d st F1 e1 c1 d1 st1 -> 0 <= n2 <= (F2 + 1) * B + MA_DATA_CONVERTER_STACK_BUFFER_SIZE -> supplies d1 v d2 -> zlen v = n2 * wi ->
  conv c1 v n2 F2 st1 = None -> undefined c d st (F1 + F2).
Proof using All.
  assert (MA_DATA_CONVERTER_STACK_BUFFER_SIZE = 4096) by done. intros (n1 & u & Hn1 & Hs1 & Hu & E1) Hn2 Hs2 Hv E2.
  pose proof (streams_rate c u n1 F1 st e1 c1 st1 Hc Hn1 ltac:(nia) Hu E1).
  exists (n1 + n2), (u ++ v), d2. split; [nia|]. split; [by eapply supplies_app|]. split; [rewrite zlen_app; lia|].
  rewrite (stream_next c u n1 F1 st e1 c1 st1 v n2 F2) by (done || nia). by rewrite E2.
Qed.
End two_runs.

(** ** The loop *)

Section loop.
Context {W : Type} (read : W -> list Z -> Z -> ma_result * list Z * Z * W) (write : W -> list Z -> Z -> ma_result * Z * W).
Context (K : W -> Prop) (writes : W -> list Z -> W -> Prop) `{HW : !BackendWriter write wo K writes}.
Context (stack : list Z) (inner : nat).
Hypothesis Hstack : zlen stack = MA_DATA_CONVERTER_STACK_BUFFER_SIZE.
Hypothesis Hgrain : (g | MA_DATA_CONVERTER_STACK_BUFFER_SIZE).
Hypothesis Htype : forall d, J d -> dev_type d = ma_device_type_playback.
Hypothesis Hpass : forall c, inv c -> dc_isPassthrough c = true -> forall F, passes wi wo conv c F.
Hypothesis Hinner : (stack_cap wo + 1) * B + stack_cap wo <= Z.of_nat inner.

(** The state of the loop when the device can go on. *)
Definition rw_ready (s : @rw_state C S W) : Prop :=
  inv (converter (io_playback (rw_io s))) /\ J (io_dev (rw_io s)) /\ internal_bpf (io_playback (rw_io s)) = wo
  /\ pInputCache (io_cache (rw_io s)) = None /\ K (rw_backend s)
  /\ zlen (playbackDeviceData s) = MA_DATA_CONVERTER_STACK_BUFFER_SIZE.

(** [s'] is [s] after [F] frames went to the backend. *)
Definition rw_played (s : @rw_state C S W) (st F : Z) (s' : @rw_state C S W) (st' : Z) : Prop :=
  rw_ready s' /\ io_capture (rw_io s') = io_capture (rw_io s)
  /\ internalPeriodSizeInFrames (io_playback (rw_io s')) = internalPeriodSizeInFrames (io_playback (rw_io s))
  /\ exists e, zlen e = F * wo /\ writes (rw_backend s) e (rw_backend s')
     /\ streams (converter (io_playback (rw_io s))) (io_dev (rw_io s)) st F e
          (converter (io_playback (rw_io s'))) (io_dev (rw_io s')) st'.

Abbreviation rw_undefined s st F := (undefined (converter (io_playback (rw_io s))) (io_dev (rw_io s)) st F).

Lemma rw_played_0 s st : rw_ready s -> rw_played s st 0 s st.
Proof using All.
  intros Hs. pose proof Hs as (Hc & HJ & _ & _ & HK & _). split; [done|]. do 2 (split; [done|]).
  exists []. split; [done|]. split; [by apply (writes_nil (wo:=wo) (write:=write))|]. by apply streams_0.
Qed.

Lemma rw_played_app s st F1 s1 st1 F2 s2 st2 :
  rw_ready s -> 0 <= F1 -> 0 <= F2 ->
  (F1 + 1) * B + (F2 + 1) * B + F1 + F2 + MA_DATA_CONVERTER_STACK_BUFFER_SIZE <= max_frames ->
  rw_played s st F1 s1 st1 -> rw_played s1 st1 F2 s2 st2 -> rw_played s st (F1 + F2) s2 st2.
Proof using All.
  intros (Hc & _) HF1 HF2 Hmax (_ & Hcap1 & Hper1 & e1 & He1 & Hw1 & Hs1) (Hr & Hcap2 & Hper2 & e2 & He2 & Hw2 & Hs2).
  split; [done|]. split; [congruence|]. split; [congruence|]. exists (e1 ++ e2). split; [rewrite zlen_app; lia|].
  split; [by eapply writes_app|]. by eapply streams_app.
Qed.

(** One call of the client's side and one write. *)
Lemma playback_turn s st n :
  rw_ready s -> 0 < n <= stack_cap wo -> (n + 1) * B + 2 * MA_DATA_CONVERTER_STACK_BUFFER_SIZE <= max_frames ->
  let r := ma_device__read_frames_from_client None onData stack inner (rw_io s) n (playbackDeviceData s) st in
  (r = None /\ exists m u d', 0 <= m <= (n + 1) * B + MA_DATA_CONVERTER_STACK_BUFFER_SIZE /\
     supplies (io_dev (rw_io s)) u d' /\ zlen u = m * wi /\ conv (converter (io_playback (rw_io s))) u m n st = None)
  \/ exists buf x st' w', r = Some ((buf, x), st') /\ write (rw_backend s) buf n = (MA_SUCCESS, n, w')
     /\ rw_played s st n (mk_rw x w' (capturedDeviceData s) buf) st'.
Proof using All.
  intros (Hc & HJ & Hbpf & Hcache & HK & Hbuf) Hn Hmax. assert (HS4 : MA_DATA_CONVERTER_STACK_BUFFER_SIZE = 4096) by done.
  destruct (stack_cap_fits wo Hwo) as (Hcap & Hfit & Hcap').
  assert (n * wo <= stack_cap wo * wo) by (apply Z.mul_le_mono_nonneg_r; lia).
  destruct (read_frames_playback onData stack wi wo g B R inv conv J supplies inner (rw_io s) n (playbackDeviceData s) st)
    as (m & u & d' & Hm & Hs & Hu & HJ' & Hres); try (done || nia).
  { intros Hp. by apply Hpass. }
  { split; [lia|]. by rewrite Hbuf. }
  cbv zeta. destruct (conv _ u m n st) as [[[[[k M] e] c'] st']|] eqn:E.
  2:{ left. split; [done|]. by exists m, u, d'. }
  destruct Hres as (-> & -> & ->). right.
  destruct (conv_keeps (wi:=wi) (wo:=wo) _ u m n Hc ltac:(lia) ltac:(lia) ltac:(lia) st _ _ E) as (_ & _ & He & Hc').
  assert (Hz : zlen (wr (playbackDeviceData s) 0 e) = MA_DATA_CONVERTER_STACK_BUFFER_SIZE) by (rewrite zlen_wr; lia).
  destruct (write_call (wo:=wo) (write:=write) (rw_backend s) (wr (playbackDeviceData s) 0 e) n HK ltac:(lia) ltac:(lia))
    as (w' & Ew & Hw & HK'). rewrite <- He, rd_wr_0 in Hw.
  exists (wr (playbackDeviceData s) 0 e), (io_with_playback (io_with_dev (rw_io s) d') c'), st', w'.
  do 2 (split; [done|]). split; [by split_and!|]. do 2 (split; [done|]). exists e. do 2 (split; [done|]).
  exists m, u. split; [lia|]. done.
Qed.

Section run.
Context (s0 : @rw_state C S W) (st0 limit : Z).
Hypothesis Hs0 : rw_ready s0.
Hypothesis Hlimit : 2 * (limit + 2) * B + limit + 3 * MA_DATA_CONVERTER_STACK_BUFFER_SIZE <= max_frames.

(** The backend has all the frames [F], unless the conversion is undefined. *)
Definition plays_out (F : Z) (r : option (ma_result * bool * rw_state * Z)) : Prop :=
  r = None /\ rw_undefined s0 st0 limit
  \/ exists s' st', r = Some ((MA_SUCCESS, false, s'), st') /\ rw_played s0 st0 F s' st'.

(** One period, after [base] frames have gone out. *)
Lemma playback_period_streams base period fuel : forall s st total,
  rw_played s0 st0 (base + total) s st -> 0 <= base -> 0 <= total <= period -> base + period <= limit ->
  period - total + 1 <= Z.of_nat fuel ->
  plays_out (base + period) (playback_period None onData stack write inner fuel MA_SUCCESS s period (stack_cap wo) total st).
Proof using All.
  induction fuel as [|fuel IH]; intros s st total Hpl Hbase Ht Hlim Hfuel; [lia|]. cbn [playback_period].
  assert (HS4 : MA_DATA_CONVERTER_STACK_BUFFER_SIZE = 4096) by done.
  destruct (Z.ltb_spec total period) as [Hlt|]; cbn [negb].
  2:{ right. exists s, st. split; [done|]. by replace period with total by lia. }
  destruct (stack_cap_fits wo Hwo) as (Hcap & Hfit & Hcap'). unfold max_frames in Hlimit.
  assert (Hsmall : forall a, 0 <= a <= limit -> a <= (a + 1) * B /\ (a + 1) * B <= (limit + 1) * B).
  { intros a Ha. split; [nia|]. apply Z.mul_le_mono_nonneg_r; lia. }
  destruct (Hsmall period) as (Hp1 & Hp2); [lia|].
  unfold u32. rewrite (wrapu_id 32 (period - total)) by (unfold in_u; nia).
  set (n := if period - total >? stack_cap wo then stack_cap wo else period - total).
  assert (Hn : 0 < n <= stack_cap wo /\ n <= period - total) by (unfold n; destruct (Z.gtb_spec (period - total) (stack_cap wo)); lia).
  destruct (Hsmall n) as (Hn1 & Hn2); [lia|]. destruct (Hsmall (base + total)) as (Hb1 & Hb2); [lia|].
  destruct (playback_turn s st n (proj1 Hpl)) as [(E & m & u & d' & Hm & Hsup & Hu & Econv)|(buf & x & st1 & w1 & E & Ew & Hnext)];
    [lia|unfold max_frames; nia| |].
  - left. unfold bind at 1. rewrite E. split; [done|].
    replace limit with (base + total + n + (limit - (base + total + n))) by lia.
    apply undefined_first; unfold max_frames; [apply Hs0|lia|lia|nia|].
    destruct Hpl as (_ & _ & _ & e & _ & _ & Hst).
    eapply (undefined_next _ _ _ (base + total) n); [apply Hs0|lia|lia|unfold max_frames; nia|done|done|done|done|done].
  - unfold bind at 1. rewrite E, Ew. change (MA_SUCCESS =? MA_SUCCESS) with true. cbn [negb].
    destruct (Z.eqb_spec n 0); [lia|]. rewrite (wrapu_id 32 (total + n)) by (unfold in_u; nia).
    apply IH; try lia. replace (base + (total + n)) with (base + total + n) by lia.
    eapply (rw_played_app s0 st0 (base + total)); try done; try lia. unfold max_frames. nia.
Qed.

(** The loop, when the device is found started [k] more times. *)
Lemma read_write_loop_streams period capIn k : forall fuel started s st base,
  (forall i, started i = (i <? k)%nat) -> rw_played s0 st0 base s st ->
  internalPeriodSizeInFrames (io_playback (rw_io s)) = period -> 0 <= base -> 0 <= period ->
  base + Z.of_nat k * period <= limit -> (k < fuel)%nat -> period + 1 <= Z.of_nat inner ->
  let r := read_write_loop None onData stack read write inner fuel started MA_SUCCESS s capIn (stack_cap wo) st in
  r = None /\ rw_undefined s0 st0 limit
  \/ exists s' st', r = Some ((MA_SUCCESS, s'), st') /\ rw_played s0 st0 (base + Z.of_nat k * period) s' st'.
Proof using All.
  induction k as [|k IH]; intros [|fuel] started s st base Hst Hpl Hper Hbase Hp Hlim Hfuel Hin; try lia;
    cbv zeta; cbn [read_write_loop]; rewrite Hst.
  - cbn [Nat.ltb Nat.leb negb]. right. exists s, st. split; [done|]. by replace (base + Z.of_nat 0 * period) with base by lia.
  - replace (0 <? Datatypes.S k)%nat with true by done. cbn [negb].
    assert (HJ : J (io_dev (rw_io s))) by apply Hpl. rewrite (Htype _ HJ), Hper.
    pose proof (playback_period_streams base period inner s st 0) as Hone.
    rewrite Z.add_0_r in Hone. specialize (Hone Hpl Hbase ltac:(lia) ltac:(nia) ltac:(lia)).
    destruct Hone as [(E & Hund)|(s1 & st1 & E & Hpl1)].
    + left. unfold bind. by rewrite E.
    + destruct (IH fuel (fun i => started (Datatypes.S i)) s1 st1 (base + period)) as [(E2 & Hund)|(s2 & st2 & E2 & Hpl2)];
        [intros i; by rewrite Hst|done| |lia|lia|lia|lia|lia| |].
      * destruct Hpl as (_ & _ & Hq & _), Hpl1 as (_ & _ & Hq1 & _). congruence.
      * left. unfold bind. by rewrite E.
      * right. exists s2, st2. unfold bind. rewrite E. split; [done|].
        by replace (base + Z.of_nat (Datatypes.S k) * period) with (base + period + Z.of_nat k * period) by lia.
Qed.
End run.
End loop.
End stream.


(** ** Playback in a duplex device *)

Section duplex_write.
Context {C S W : Type} (cfg : ma_data_converter_config C) (c0 : ma_data_converter C).
Hypothesis Hok : dcc_ok cfg.
Hypothesis Hwf : dc_wf cfg c0.
Hypothesis Hres : dc_hasResampler c0 = false.
Context (write : W -> list Z -> Z -> ma_result * Z * W) (K : W -> Prop) (writes : W -> list Z -> W -> Prop).
Context `{HW : !BackendWriter write (frame_size_out c0) K writes}.
Context (src : list Z) (converted : Z -> list Z).
Variable cap : Z.
Hypothesis Hcap : 0 < cap <= max_frames.
Hypothesis Hfit : cap * frame_size_out c0 <= MA_DATA_CONVERTER_STACK_BUFFER_SIZE.
Hypothesis Hgrain : (out_grain c0 | MA_DATA_CONVERTER_STACK_BUFFER_SIZE).

(** The conversion of the first frames of the buffer. *)
Hypothesis Hstage : forall n, 0 <= n <= cap -> n * frame_size_in c0 <= zlen src -> convert_stage c0 src n ≈ ret (converted n).

(** What goes out for [r] frames of input: never more than [cap] frames at a time. *)
Fixpoint first_frames (turns : nat) (r : Z) : list Z :=
  match turns with
  | O => []
  | Datatypes.S turns => converted (Z.min cap r) ++ first_frames turns (r - Z.min cap r)
  end.

Lemma duplex_write_turns fuel : forall (s : @rw_state C S W) r st,
  converter (io_playback (rw_io s)) = c0 -> K (rw_backend s) ->
  zlen (playbackDeviceData s) = MA_DATA_CONVERTER_STACK_BUFFER_SIZE ->
  0 < r <= max_frames -> r * frame_size_in c0 <= zlen src -> r <= Z.of_nat fuel ->
  exists turns s' , duplex_write_loop None write fuel s src r cap st = Some ((MA_SUCCESS, false, s'), st)
    /\ r <= Z.of_nat turns * cap /\ (Z.of_nat turns - 1) * cap < r
    /\ writes (rw_backend s) (first_frames turns r) (rw_backend s') /\ K (rw_backend s').
Proof using All.
  pose proof (plain_stream cfg c0 Hok Hwf Hres) as HS. destruct (frame_size_bounds cfg c0 Hok Hwf) as (Hsi & Hso).
  induction fuel as [|fuel IH]; intros s r st Hc HK Hbuf Hr Hsrc Hfuel; [lia|]. cbn [duplex_write_loop].
  set (n := Z.min cap r). assert (Hn : 0 < n <= cap) by lia.
  assert (n * frame_size_in c0 <= r * frame_size_in c0) by (apply Z.mul_le_mono_nonneg_r; lia).
  assert (Hbytes : n * frame_size_out c0 <= cap * frame_size_out c0) by (apply Z.mul_le_mono_nonneg_r; lia).
  assert (Erun : run_converter None c0 src r (playbackDeviceData s) cap
    ≈ ret (MA_SUCCESS, n, n, wr (playbackDeviceData s) 0 (converted n), c0)).
  { etransitivity; [apply (run_converter_spec (frame_size_in c0) (frame_size_out c0) (out_grain c0) 1 1 (fun c => c = c0) plain_conv);
      (done || lia || (split; [lia|by rewrite Hbuf]))|].
    unfold plain_conv. rewrite Z.min_comm. fold n. rewrite Hstage, !ret_bind by lia. done. }
  assert (Hz : zlen (converted n) = n * frame_size_out c0).
  { pose proof (convert_stage_frames cfg c0 Hok Hwf Hres) as HF.
    apply (stage_len (FrameStage := HF) src n st (converted n) st); [lia|lia|by rewrite (Hstage n ltac:(lia) ltac:(lia) st)]. }
  set (buf := wr (playbackDeviceData s) 0 (converted n)) in *.
  assert (Hbuf' : zlen buf = MA_DATA_CONVERTER_STACK_BUFFER_SIZE) by (unfold buf; rewrite zlen_wr; lia).
  rewrite Hc. unfold bind at 1. rewrite (Erun st). cbn [ret]. change (MA_SUCCESS =? MA_SUCCESS) with true. cbn [negb].
  unfold max_frames in *. unfold u32. rewrite !(wrapu_id 32 n) by (unfold in_u; lia).
  destruct (write_call (wo:=frame_size_out c0) (write:=write) (rw_backend s) buf n HK ltac:(unfold max_frames; lia) ltac:(lia))
    as (w' & Ew & Hw & HK'). cbn [rw_backend]. rewrite Ew. change (MA_SUCCESS =? MA_SUCCESS) with true. cbn [negb].
  unfold u64. rewrite wrapu_id by (unfold in_u; lia).
  assert (Hw1 : writes (rw_backend s) (converted n) w') by (unfold buf in Hw; by rewrite <- Hz, rd_wr_0 in Hw).
  destruct (Z.eqb_spec (r - n) 0) as [|Hmore].
  - exists 1%nat. eexists. split; [reflexivity|]. split; [lia|]. split; [lia|]. split; [|done].
    cbn [first_frames]. fold n. by rewrite app_nil_r.
  - assert (cap < r) by lia. assert (n = cap) as -> by lia. edestruct (IH (mk_rw (io_with_playback (rw_io s) c0) w' (capturedDeviceData s) buf) (r - cap) st)
      as (turns & s' & E & Ht1 & Ht2 & Hw2 & HK2); [done|done|done|unfold max_frames; lia|nia|lia|].
    exists (Datatypes.S turns), s'. split; [exact E|]. split; [lia|]. split; [lia|]. split; [|done].
    cbn [first_frames]. replace (Z.min cap r) with cap by lia. eapply writes_app; [exact Hw1|]. done.
Qed.

Lemma first_frames_repeat q : first_frames q (Z.of_nat q * cap) = concat (replicate q (converted cap)).
Proof using Hcap.
  induction q as [|q IH]; [done|]. cbn [first_frames replicate concat].
  rewrite Z.min_l by nia. replace (Z.of_nat (Datatypes.S q) * cap - cap) with (Z.of_nat q * cap) by lia. by rewrite IH.
Qed.
End duplex_write.

