(* ===== verification/DeviceStreams.v ===== *)
(** * Devices end to end

    The theorems on device input and output at concrete devices: the adapter behind a device
    that plays 16-bit samples, a client of a device at another rate, and a client that
    records through a mixing converter. *)
From Stdlib Require Import ZArith Lia Bool SpecFloat Morphisms.
From stdpp Require Import base numbers list option.
From S2P Require Import Prelude MaTypes CFloat Ring FrameRing PcmRing FrameCopy Adapter AdapterProps PcmFormat DeviceData DeviceDataProps AdapterDevice LowPassProps LinearResampler Resampler ChannelConverter DataConverter Stages ChannelFrames DataConverterProps ResamplerStream DataConverterStream ConverterStream DeviceIO DeviceIOProps DeviceClients DeviceLoop.

Local Open Scope Z_scope.
Local Open Scope lcg_scope.

(** A converter that reports that nothing is to be converted passes the frames through. *)
Lemma plain_passes {C} cfg (c : ma_data_converter C) F :
  dc_wf cfg c -> dc_isPassthrough c = true -> passes (frame_size_in c) (frame_size_out c) (plain_conv (C:=C)) c F.
Proof.
  intros W Hp. pose proof (wf_path _ _ W) as Hpath. rewrite Hp in Hpath. cbn [select_path] in Hpath.
  pose proof (wf_stages_fit _ _ W) as (Hfit & _). rewrite Hpath in Hfit. destruct Hfit as (Ef & Ec & _).
  rewrite (wf_passthrough _ _ W), !andb_true_iff, !negb_true_iff in Hp. destruct Hp as (((_ & Hpost) & Hcc) & _).
  assert (Ew : frame_size_in c = frame_size_out c) by (unfold frame_size_in, frame_size_out; by rewrite Ef, Ec).
  split; [done|]. intros u m Hu HF. unfold plain_conv, convert_stage. rewrite Hcc, Hpost, Z.min_l by done.
  unfold no_stage. rewrite ret_bind, <- Hu, rd_all. done.
Qed.

(** ** The adapter on a device with 16-bit samples *)

(** From the 32-bit floating-point samples of the adapter, at the same rate. *)
Definition demo_play_config : ma_data_converter_config unit :=
  ma_data_converter_config_init ma_format_f32 ma_format_s16 2 2 48000 48000.

Lemma demo_play_ok : dcc_ok demo_play_config.
Proof. unfold dcc_ok, MA_MAX_CHANNELS. cbn. split_and!; done || lia. Qed.

Lemma demo_play_wf : dc_wf demo_play_config (data_converter_of demo_play_config).
Proof.
  apply (reachable_wf demo_libm None); [exact demo_play_ok|]. apply dc_initial, data_converter_of_init.
  vm_compute. reflexivity.
Qed.

Definition demo_stack : list Z := zrep MA_DATA_CONVERTER_STACK_BUFFER_SIZE 7.

Lemma demo_stack_size : zlen demo_stack = MA_DATA_CONVERTER_STACK_BUFFER_SIZE.
Proof. by apply zlen_zrep. Qed.

(** A device with one side in use and no input cache. *)
Definition demo_io {S} (d : ma_device S) (cap play : io_side) : @io_device unit S :=
  mk_io d cap play (mk_cache None 0 0 0) ma_pcm_rb_zero.

Definition demo_side_of (f : ma_format) (channels : Z) (c : ma_data_converter unit) : io_side :=
  mk_io_side f channels 48000 10 c.

(** A backend that keeps what it is given. *)
Definition demo_write (w : nat) : list Z -> list Z -> Z -> ma_result * Z * list Z := fun log buf n =>
  (MA_SUCCESS, n, log ++ rd buf 0 (n * Z.of_nat w)).

#[export] Instance demo_writer w :
  BackendWriter (demo_write w) (Z.of_nat w) (fun _ => True) (fun log u log' => log' = log ++ u).
Proof.
  split.
  - intros log buf n _ _ _. by eexists.
  - intros log _. by rewrite app_nil_r.
  - intros log a log1 b log2 -> ->. by rewrite app_assoc.
Qed.

Definition demo_adapter_io : @io_device unit (ra_device ma_pcm_rb) :=
  demo_io demo_output (demo_side_of ma_format_s16 2 ma_data_converter_zero)
    (demo_side_of ma_format_s16 2 (data_converter_of demo_play_config)).

Lemma demo_adapter_ready : adapter_output demo_output.
Proof.
  split; [exact demo_output_ok|]. do 3 (split; [reflexivity|]).
  intros j Hj Hl. change (zlen (play_left 8 (dev_playback demo_output))) with 0 in Hl. lia.
Qed.


(** ** A client of a device with another rate *)

(** The client plays 24-bit frames, three in a period. *)
Definition demo_player : ma_device Z :=
  mk_ma_device Z ma_device_type_playback ma_device_state_started false false false f32_one
    (mk_side ma_format_unknown 0 [] 0 0) (mk_side ma_format_s24 1 (zrep 9 1) 3 2) 7.

#[export] Instance demo_plays_any silent cap : PlaybackClient demo_client (fun _ => True) silent cap.
Proof. split. intros s _. exists (zrep (zlen silent) s), (s + 1). split_and!; try done. apply zlen_zrep, zlen_nonneg. Qed.

Lemma demo_player_ready : playing (fun _ => True) 3 3 (zrep 9 0) demo_player.
Proof.
  split; [split; [by split|reflexivity|by split]|]. split; [reflexivity|split; [reflexivity|]]. right. done.
Qed.

Definition demo_rate_io : @io_device unit Z :=
  demo_io demo_player (demo_side_of ma_format_s16 2 ma_data_converter_zero)
    (demo_side_of ma_format_s16 2 (data_converter_of demo_rate_config)).

Abbreviation demo_rate_conv := (resampled_conv (linear_run (reduced_config demo_rate_settings))).

Lemma demo_rate_stream :
  let c0 := data_converter_of demo_rate_config in
  let inv := linear_inv demo_libm (reduced_config demo_rate_settings) 3 in
  StreamConverter 3 4 (out_grain c0) 3 2 (with_state c0 inv) demo_rate_conv /\ with_state c0 inv c0.
Proof.
  intros c0 inv. assert (Ei : frame_size_in c0 = 3) by (vm_compute; reflexivity).
  assert (Eo : frame_size_out c0 = 4) by (vm_compute; reflexivity).
  assert (W : dc_wf demo_rate_config c0).
  { apply (reachable_wf demo_libm None); [apply demo_configs_ok|]. apply dc_initial, data_converter_of_init.
    vm_compute. reflexivity. }
  assert (HS : StreamResampler 2 3 2 inv (linear_run (reduced_config demo_rate_settings)))
    by apply (linear_streams demo_libm (reduced_config demo_rate_settings) 3).
  assert (Hdraw : draws_behind c0) by (intros _; vm_compute; reflexivity).
  assert (Hres : dc_hasResampler c0 = true) by (vm_compute; reflexivity).
  assert (HB : 3 * Z.max (cc_frame_in (dc_channelConverter c0)) (cc_frame_out (dc_channelConverter c0)) <= 4096)
    by (vm_compute; congruence).
  assert (Ew : 2 = resampler_frame c0) by (vm_compute; reflexivity).
  assert (Hf : dc_formatIn c0 <> ma_format_f32) by (vm_compute; congruence).
  assert (Hr : with_state c0 inv c0).
  { exists (dc_resampler c0). split; [by destruct c0|]. split; [exact demo_rate_linear|done]. }
  split; [|done]. clearbody c0 inv.
  pose proof (resampled_stream demo_rate_config c0 (proj2 demo_configs_ok) W Hres Hdraw 2 3 2 inv _ HS HB Ew
    (fun x n => in_stage_always c0 x n Hdraw (fun _ => Hf))) as HC.
  by rewrite Ei, Eo in HC.
Qed.


(** ** A client that records *)

(** The client records 16-bit frames in periods of three, from a stereo device with 8-bit
    samples. *)
Definition demo_recorder : ma_device Z :=
  mk_ma_device Z ma_device_type_capture ma_device_state_started false false false f32_one
    (mk_side ma_format_s16 1 (zrep 6 1) 3 2) (mk_side ma_format_unknown 0 [] 0 0) 7.

#[export] Instance demo_records_any size cap : CaptureClient demo_client (fun _ => True) size cap.
Proof. split. intros s p _ _. by exists (s + zlen p). Qed.

Lemma demo_recorder_ready : recording (fun _ => True) 2 3 demo_recorder.
Proof. split; [split; [by split|by left|by split]|reflexivity]. Qed.

Definition demo_mix_io : @io_device unit Z :=
  demo_io demo_recorder (demo_side_of ma_format_u8 2 (data_converter_of demo_mix_config))
    (demo_side_of ma_format_s16 2 ma_data_converter_zero).

Lemma demo_mix_stream :
  let c0 := data_converter_of demo_mix_config in
  StreamConverter 2 2 (out_grain c0) 1 1 (fun c => c = c0) plain_conv.
Proof.
  intros c0. assert (Ei : frame_size_in c0 = 2) by (vm_compute; reflexivity).
  assert (Eo : frame_size_out c0 = 2) by (vm_compute; reflexivity).
  assert (W : dc_wf demo_mix_config c0).
  { apply (reachable_wf demo_libm None); [apply demo_configs_ok|]. apply dc_initial, data_converter_of_init.
    vm_compute. reflexivity. }
  assert (Hres : dc_hasResampler c0 = false) by (vm_compute; reflexivity).
  clearbody c0. pose proof (plain_stream demo_mix_config c0 (proj1 demo_configs_ok) W Hres) as HC. by rewrite Ei, Eo in HC.
Qed.


(** ** A duplex device whose output needs two buffers *)

Definition demo_four_frames : list Z := [128; 128; 192; 192; 0; 0; 64; 64].

Definition demo_rw (c : ma_data_converter unit) : @rw_state unit Z (list Z) :=
  mk_rw (demo_io demo_recorder (demo_side_of ma_format_u8 2 c) (demo_side_of ma_format_s16 1 c)) [] demo_stack demo_stack.

