(* ===== verification/Ledger.v ===== *)
(** * Resources acquired and released

    Initialisation code acquires mutexes, events, threads and memory one by one, and
    releases what it has when a step fails.  [ledM] is the effect of such code: a value
    and the trace of what it acquired and released, undefined behaviour being [None].
    [ledger] replays a trace: what is held at its end, or [None] when something is
    released that is not held (released twice, or never acquired). *)
From Stdlib Require Import Permutation.
From stdpp Require Import base list option.

Inductive event (R : Type) :=
| Acquire (r : R)
| Release (r : R).
Arguments Acquire {R} r.
Arguments Release {R} r.

Definition ledM (R A : Type) : Type := option (A * list (event R)).

Definition led_ret {R A} (x : A) : ledM R A := Some (x, []).

Definition led_bind {R A B} (m : ledM R A) (f : A -> ledM R B) : ledM R B :=
  match m with
  | None => None
  | Some (x, t) =>
      match f x with
      | None => None
      | Some (y, t') => Some (y, t ++ t')
      end
  end.

Declare Scope led_scope.
Delimit Scope led_scope with led.
Notation "'let*' x ':=' m 'in' k" := (led_bind m (fun x => k))
  (at level 10, x pattern, m at level 100, k at level 200) : led_scope.
Notation "m ;; k" := (led_bind m (fun _ => k)) : led_scope.

(** The same effects under other names. *)
Definition event_map {R Q} (f : R -> Q) (e : event R) : event Q :=
  match e with Acquire r => Acquire (f r) | Release r => Release (f r) end.
Definition led_map {R Q A} (f : R -> Q) (m : ledM R A) : ledM Q A :=
  option_map (fun '(x, t) => (x, map (event_map f) t)) m.

(** A value that may be undefined. *)
Definition led_opt {R A} (x : option A) : ledM R A := option_map (fun x => (x, [])) x.

Lemma led_bind_opt {R A B} (x : A) (f : A -> ledM R B) : led_bind (led_opt (Some x)) f = f x.
Proof. cbn. by destruct (f x) as [[]|]. Qed.

Definition acquire {R} (r : R) : ledM R unit := Some (tt, [Acquire r]).
Definition release {R} (r : R) : ledM R unit := Some (tt, [Release r]).

(** [if (p != NULL) release(p)]. *)
Definition release_if {R} (b : bool) (r : R) : ledM R unit :=
  if b then release r else led_ret tt.

Section ledger.
Context {R : Type} `{EqDecision R}.
Implicit Types (h : list R) (t : list (event R)).

Fixpoint remove_one (r : R) (h : list R) : option (list R) :=
  match h with
  | [] => None
  | x :: h => if decide (r = x) then Some h else option_map (cons x) (remove_one r h)
  end.

Fixpoint ledger (h : list R) (t : list (event R)) : option (list R) :=
  match t with
  | [] => Some h
  | Acquire r :: t => ledger (r :: h) t
  | Release r :: t => match remove_one r h with Some h => ledger h t | None => None end
  end.

Lemma ledger_app h t1 t2 :
  ledger h (t1 ++ t2) = match ledger h t1 with Some h => ledger h t2 | None => None end.
Proof.
  revert h. induction t1 as [|[r|r] t1 IH]; intros h; [done|apply IH|].
  cbn. destruct (remove_one r h); [apply IH|done].
Qed.

Lemma remove_one_perm r h h' : h ≡ₚ r :: h' -> exists h1, remove_one r h = Some h1 /\ h1 ≡ₚ h'.
Proof.
  revert h'. induction h as [|x h IH]; intros h' P.
  { by apply Permutation_nil_cons in P. }
  cbn [remove_one]. destruct (decide (r = x)) as [<-|N].
  { exists h. split; [done|]. by apply Permutation_cons_inv in P. }
  assert (Hin : In r h).
  { destruct (Permutation_in r (Permutation_sym P)) as [E|E]; [by left|congruence|done]. }
  apply in_split in Hin as (a & b & E).
  destruct (IH (a ++ b)) as (h1 & E1 & P1).
  { rewrite E. symmetry. apply Permutation_middle. }
  rewrite E1. exists (x :: h1). split; [done|].
  apply (Permutation_cons_inv (a := r)). rewrite <- P, E, P1.
  rewrite <- Permutation_middle. apply perm_swap.
Qed.

(** The order in which resources are held does not matter. *)
Lemma remove_one_ext r h1 h2 h1' :
  h1 ≡ₚ h2 -> remove_one r h1 = Some h1' -> exists h2', remove_one r h2 = Some h2' /\ h1' ≡ₚ h2'.
Proof.
  intros P E. assert (Q : h1 ≡ₚ r :: h1').
  { clear P. revert h1' E. induction h1 as [|x h1 IH]; intros h1'; cbn; [done|].
    destruct (decide (r = x)) as [<-|]; [by intros [= <-]|].
    destruct (remove_one r h1) as [h|]; [|done]. intros [= <-].
    rewrite (IH h) by done. apply perm_swap. }
  destruct (remove_one_perm r h2 h1') as (h & -> & Ph); [by rewrite <- P|].
  by exists h.
Qed.

Lemma ledger_ext t : forall h1 h2 h1',
  h1 ≡ₚ h2 -> ledger h1 t = Some h1' -> exists h2', ledger h2 t = Some h2' /\ h1' ≡ₚ h2'.
Proof.
  induction t as [|[r|r] t IH]; intros h1 h2 h1' P; cbn.
  - intros [= <-]. by exists h2.
  - apply IH. by f_equiv.
  - destruct (remove_one r h1) as [h|] eqn:E; [|done]. intros Ht.
    destruct (remove_one_ext _ _ _ _ P E) as (h' & -> & P'). by apply (IH h).
Qed.

(** What a trace does to the resources held by others is nothing. *)
Lemma ledger_frame t : forall h h' f,
  ledger h t = Some h' -> exists g, ledger (h ++ f) t = Some g /\ g ≡ₚ h' ++ f.
Proof.
  induction t as [|[r|r] t IH]; intros h h' f; cbn.
  - intros [= <-]. by exists (h ++ f).
  - intros E. apply (IH (r :: h)). done.
  - destruct (remove_one r h) as [h1|] eqn:E; [|done]. intros Ht.
    assert (E1 : remove_one r (h ++ f) = Some (h1 ++ f)).
    { clear Ht. revert h1 E. induction h as [|x h IHh]; intros h1; cbn; [done|].
      destruct (decide (r = x)); [by intros [= <-]|].
      destruct (remove_one r h) as [h2|]; [|done]. intros [= <-]. by rewrite (IHh h2). }
    rewrite E1. by apply IH.
Qed.

(** A trace that releases everything cannot run when something is already gone. *)
Lemma ledger_short t h h' r : ledger h t = Some [] -> h ≡ₚ r :: h' -> ledger h' t = None.
Proof.
  intros E P. destruct (ledger h' t) as [g|] eqn:E'; [|done]. exfalso.
  destruct (ledger_frame t h' g [r] E') as (k & Ek & Pk).
  assert (Ph : h ≡ₚ h' ++ [r]) by (rewrite P; apply Permutation_cons_append).
  destruct (ledger_ext t _ _ _ Ph E) as (k' & Ek' & Pk'). rewrite Ek in Ek'. injection Ek' as <-.
  apply Permutation_nil in Pk'. subst k. apply Permutation_nil, app_eq_nil in Pk as [_ Pk]. done.
Qed.

(** [runs_to m x h h']: from holding [h] the code returns [x] and holds [h']. *)
Definition runs_to {A} (m : ledM R A) (x : A) (h h' : list R) : Prop :=
  exists t, m = Some (x, t) /\ exists g, ledger h t = Some g /\ g ≡ₚ h'.

Lemma runs_ret {A} (x : A) h h' : h ≡ₚ h' -> runs_to (led_ret x) x h h'.
Proof. intros P. exists []. split; [done|]. by exists h. Qed.

Lemma runs_bind {A B} (m : ledM R A) (f : A -> ledM R B) x y h1 h2 h3 :
  runs_to m x h1 h2 -> runs_to (f x) y h2 h3 -> runs_to (led_bind m f) y h1 h3.
Proof.
  intros (t1 & -> & g1 & E1 & P1) (t2 & E2 & g2 & L2 & P2).
  exists (t1 ++ t2). cbn. rewrite E2. split; [done|]. rewrite ledger_app, E1.
  destruct (ledger_ext t2 h2 g1 g2) as (g3 & -> & P3); [by symmetry|done|].
  exists g3. split; [done|]. by rewrite <- P3.
Qed.

Lemma runs_acquire r h : runs_to (acquire r) tt h (r :: h).
Proof. exists [Acquire r]. split; [done|]. by exists (r :: h). Qed.

Lemma runs_release r h h' : h ≡ₚ r :: h' -> runs_to (release r) tt h h'.
Proof.
  intros P. exists [Release r]. split; [done|]. cbn.
  destruct (remove_one_perm r h h' P) as (h1 & -> & P1). by exists h1.
Qed.

Lemma runs_release_head r h : runs_to (release r) tt (r :: h) h.
Proof. by apply runs_release. Qed.

Lemma runs_release_if (b : bool) r h h' :
  h ≡ₚ (if b then [r] else []) ++ h' -> runs_to (release_if b r) tt h h'.
Proof. destruct b; cbn; intros P; [by apply runs_release|by apply runs_ret]. Qed.

Lemma runs_held_ext {A} (m : ledM R A) x h1 h2 h1' h2' :
  h1 ≡ₚ h2 -> h1' ≡ₚ h2' -> runs_to m x h1 h1' -> runs_to m x h2 h2'.
Proof.
  intros P P' (t & -> & g & E & Pg). exists t. split; [done|].
  destruct (ledger_ext t h1 h2 g P E) as (g' & -> & Pg'). exists g'. split; [done|].
  by rewrite <- Pg', Pg.
Qed.

Lemma runs_frame {A} (m : ledM R A) x h h' f :
  runs_to m x h h' -> runs_to m x (h ++ f) (h' ++ f).
Proof.
  intros (t & -> & g & E & Pg). exists t. split; [done|].
  destruct (ledger_frame t h g f E) as (k & -> & Pk). exists k. split; [done|].
  by rewrite Pk, Pg.
Qed.

(** *** Weakest preconditions, for code that may be undefined *)

Definition led_wp {A} (m : ledM R A) (h : list R) (Q : A -> list R -> Prop) : Prop :=
  match m with
  | None => True
  | Some (x, t) => exists g, ledger h t = Some g /\ Q x g
  end.

Lemma wp_ret {A} (x : A) h (Q : A -> list R -> Prop) : Q x h -> led_wp (led_ret x) h Q.
Proof. intros HQ. by exists h. Qed.

Lemma wp_bind {A B} (m : ledM R A) (f : A -> ledM R B) h (Q : B -> list R -> Prop) :
  led_wp m h (fun x g => led_wp (f x) g Q) -> led_wp (led_bind m f) h Q.
Proof.
  unfold led_wp, led_bind. destruct m as [[x t]|]; [|done]. intros (g & E & H).
  destruct (f x) as [[y t']|]; [|done]. destruct H as (k & Ek & HQ).
  exists k. by rewrite ledger_app, E.
Qed.

Lemma wp_mono {A} (m : ledM R A) h (P Q : A -> list R -> Prop) :
  led_wp m h P -> (forall x t g, m = Some (x, t) -> P x g -> Q x g) -> led_wp m h Q.
Proof. unfold led_wp. destruct m as [[x t]|]; [|done]. intros (g & E & H) HPQ. exists g. eauto. Qed.

Lemma wp_opt {A} (x : option A) h (Q : A -> list R -> Prop) :
  (forall v, x = Some v -> Q v h) -> led_wp (led_opt x) h Q.
Proof. destruct x as [v|]; intros H; [|done]. exists h. split; [done|by apply H]. Qed.

Lemma wp_acquire r h (Q : unit -> list R -> Prop) : Q tt (r :: h) -> led_wp (acquire r) h Q.
Proof. intros HQ. by exists (r :: h). Qed.

Lemma wp_release r h h' (Q : unit -> list R -> Prop) :
  h ≡ₚ r :: h' -> (forall g, g ≡ₚ h' -> Q tt g) -> led_wp (release r) h Q.
Proof.
  intros P HQ. destruct (remove_one_perm r h h' P) as (g & E & Pg).
  exists g. cbn. rewrite E. split; [done|by apply HQ].
Qed.

Lemma wp_release_if (b : bool) r h h' (Q : unit -> list R -> Prop) :
  h ≡ₚ (if b then [r] else []) ++ h' -> (forall g, g ≡ₚ h' -> Q tt g) -> led_wp (release_if b r) h Q.
Proof. destruct b; cbn; intros P HQ; [by eapply wp_release|by apply wp_ret, HQ]. Qed.

Lemma wp_runs {A} (m : ledM R A) x h h' k (Q : A -> list R -> Prop) :
  runs_to m x h h' -> h ≡ₚ k -> (forall g, g ≡ₚ h' -> Q x g) -> led_wp m k Q.
Proof.
  intros (t & -> & g & E & P) Pk HQ. destruct (ledger_ext t h k g Pk E) as (g' & E' & P').
  exists g'. split; [done|]. apply HQ. by rewrite <- P'.
Qed.
End ledger.

(** Injective renaming keeps what is held. *)
Section renaming.
Context {R Q : Type} `{EqDecision R, EqDecision Q} (f : R -> Q) `{Hf : !Inj (=) (=) f}.

Lemma remove_one_map r h : remove_one (f r) (map f h) = option_map (map f) (remove_one r h).
Proof using Hf.
  induction h as [|x h IH]; [done|]. cbn.
  destruct (decide (r = x)) as [<-|N]; [by rewrite decide_True|].
  rewrite decide_False by (intros E; by apply N, (inj f)). rewrite IH. by destruct (remove_one r h).
Qed.

Lemma ledger_map t : forall h h',
  ledger h t = Some h' -> ledger (map f h) (map (event_map f) t) = Some (map f h').
Proof using Hf.
  induction t as [|[r|r] t IH]; intros h h'; cbn.
  - by intros [= <-].
  - apply (IH (r :: h)).
  - rewrite remove_one_map. destruct (remove_one r h); [apply IH|done].
Qed.

Lemma runs_map {A} (m : ledM R A) x h h' : runs_to m x h h' -> runs_to (led_map f m) x (map f h) (map f h').
Proof using Hf.
  intros (t & -> & g & E & P). eexists. split; [reflexivity|].
  exists (map f g). split; [by apply ledger_map|]. by apply Permutation_map.
Qed.
End renaming.
