(* ===== verification/Context.v ===== *)
(** * The context: backends, logging and the list of devices (miniaudio.h)

    [ma_context_init] tries backends until one initialises and [ma_context_uninit]
    releases what it acquired; [ma_context_get_devices] collects what the backend
    enumerates into one array, the playback devices before the others.  The functions
    of a backend are arguments, as they are function pointers of the program; [I] is
    [ma_device_info] and [D] what a backend does for devices.  The mutexes themselves
    are not modelled: these operations run under [deviceEnumLock] and [deviceInfoLock]. *)
From Stdlib Require Import ZArith Lia Bool Permutation.
From stdpp Require Import base numbers list option.
From S2P Require Import Prelude MaTypes Ring DeviceData Ledger.

Local Open Scope Z_scope.
Local Open Scope led_scope.

Definition MA_NO_SPACE : ma_result := -18.
Definition MA_NO_BACKEND : ma_result := -203.
Definition MA_BACKEND_NOT_ENABLED : ma_result := -208.

(** ** Backends *)

Inductive ma_backend :=
| ma_backend_wasapi
| ma_backend_dsound
| ma_backend_winmm
| ma_backend_coreaudio
| ma_backend_sndio
| ma_backend_audio4
| ma_backend_oss
| ma_backend_pulseaudio
| ma_backend_alsa
| ma_backend_jack
| ma_backend_aaudio
| ma_backend_opensl
| ma_backend_webaudio
| ma_backend_custom
| ma_backend_null.

#[export] Instance ma_backend_eq_dec : EqDecision ma_backend.
Proof. solve_decision. Defined.

(** The enumeration in its order, which is the order of priority. *)
Definition all_backends : list ma_backend :=
  [ma_backend_wasapi; ma_backend_dsound; ma_backend_winmm; ma_backend_coreaudio; ma_backend_sndio;
   ma_backend_audio4; ma_backend_oss; ma_backend_pulseaudio; ma_backend_alsa; ma_backend_jack;
   ma_backend_aaudio; ma_backend_opensl; ma_backend_webaudio; ma_backend_custom; ma_backend_null].

Definition ma_is_loopback_supported (backend : ma_backend) : bool :=
  match backend with ma_backend_wasapi => true | _ => false end.

(** The loop over the backends that are left; returns the result, the array and the count. *)
Fixpoint enabled_loop (enabled : ma_backend -> bool) (l pBackends : list ma_backend)
    (backendCap backendCount : Z) : ma_result * list ma_backend * Z :=
  match l with
  | [] => (MA_SUCCESS, pBackends, backendCount)
  | backend :: l =>
      if enabled backend
      then
        if backendCount =? backendCap then (MA_NO_SPACE, pBackends, backendCount)
        else enabled_loop enabled l (wr pBackends backendCount [backend]) backendCap (backendCount + 1)
      else enabled_loop enabled l pBackends backendCap backendCount
  end.

(** [enabled] is [ma_is_backend_enabled], which the build configuration decides. *)
Definition ma_get_enabled_backends (enabled : ma_backend -> bool) (pBackends : list ma_backend)
    (backendCap : Z) (pBackendCount : option Z) : ma_result * list ma_backend * option Z :=
  match pBackendCount with
  | None => (MA_INVALID_ARGS, pBackends, None)
  | Some _ =>
      let '(result, out, n) := enabled_loop enabled all_backends pBackends backendCap 0 in
      (result, out, Some n)
  end.

Section context.
Context {I D : Type}.

(** The members of [ma_backend_callbacks] for contexts; those for devices are [D].
    Enumeration is what the backend reports, in order, and what it returns. *)
Record ma_backend_callbacks := mk_callbacks {
  onContextUninit : bool;
  onContextEnumerateDevices : option (ma_result * list (ma_device_type * I));
  onContextGetDeviceInfo : option (ma_device_type -> option (list Z) -> option (list Z) -> ma_result * I);
  deviceCallbacks : D }.

(** [ctx_ownsLog]: [pLog == &log]. *)
Record ma_context := mk_context {
  ctx_backend : ma_backend;
  ctx_callbacks : ma_backend_callbacks;
  ctx_ownsLog : bool;
  pDeviceInfos : option (list I);
  deviceInfoCapacity : Z;
  playbackDeviceInfoCount : Z;
  captureDeviceInfoCount : Z }.

(** ** What is acquired, and what the operating system answers *)

Inductive ctx_resource :=
| CtxLog
| CtxBackend
| CtxEnumLock
| CtxInfoLock
| CtxDeviceInfos.

#[export] Instance ctx_resource_eq_dec : EqDecision ctx_resource.
Proof. solve_decision. Defined.

Abbreviation ctxM := (ledM ctx_resource).

Record ctx_os := mk_ctx_os {
  os_mutex_init : ctx_resource -> ma_result;
  os_realloc : Z -> bool }.

Definition ma_log_init (os : ctx_os) : ctxM ma_result :=
  let result := os_mutex_init os CtxLog in
  if negb (result =? MA_SUCCESS) then led_ret result
  else acquire CtxLog;; led_ret MA_SUCCESS.

(** A context's mutex; a failure is only logged. *)
Definition context_mutex (os : ctx_os) (lock : ctx_resource) : ctxM ma_result :=
  let result := os_mutex_init os lock in
  if negb (result =? MA_SUCCESS) then led_ret result
  else acquire lock;; led_ret result.

(** The loop over the backends to try.  [onContextInit] is NULL for a backend the build
    does not have; otherwise it returns its result and fills in the callbacks. *)
Fixpoint backends_loop (os : ctx_os)
    (onContextInit : ma_backend -> option (ma_result * ma_backend_callbacks))
    (l : list ma_backend) (ownsLog : bool) : ctxM (option (ma_result * ma_context)) :=
  match l with
  | [] => led_ret None
  | backend :: l =>
      match onContextInit backend with
      | None => backends_loop os onContextInit l ownsLog
      | Some (result, callbacks) =>
          if result =? MA_SUCCESS
          then
            acquire CtxBackend;;
            let* _ := context_mutex os CtxEnumLock in
            let* result := context_mutex os CtxInfoLock in
            led_ret (Some (result, mk_context backend callbacks ownsLog None 0 0 0))
          else backends_loop os onContextInit l ownsLog
      end
  end.

(** [hasLog]: whether [pConfig->pLog] is set.  [ma_context_init_backend_apis] does nothing
    outside Windows.  The context is [None] where it is left zeroed. *)
Definition ma_context_init (os : ctx_os)
    (onContextInit : ma_backend -> option (ma_result * ma_backend_callbacks))
    (backends : option (list ma_backend)) (pAllocationCallbacks : option ma_allocation_callbacks)
    (hasLog : bool) (pContext : bool) : ctxM (ma_result * option ma_context) :=
  if negb pContext then led_ret (MA_INVALID_ARGS, None)
  else
    let '(result, _) := ma_allocation_callbacks_init_copy pAllocationCallbacks in
    if negb (result =? MA_SUCCESS) then led_ret (result, None)
    else
      let* ownsLog :=
        if hasLog then led_ret false
        else let* result := ma_log_init os in led_ret (result =? MA_SUCCESS) in
      let* found := backends_loop os onContextInit (default all_backends backends) ownsLog in
      match found with
      | Some (result, c) => led_ret (result, Some c)
      | None => led_ret (MA_NO_BACKEND, None)
      end.

Definition ma_context_uninit (pContext : option ma_context) : ctxM ma_result :=
  match pContext with
  | None => led_ret MA_INVALID_ARGS
  | Some c =>
      release_if (onContextUninit (ctx_callbacks c)) CtxBackend;;
      release CtxEnumLock;;
      release CtxInfoLock;;
      release_if (bool_decide (is_Some (pDeviceInfos c))) CtxDeviceInfos;;
      release_if (ctx_ownsLog c) CtxLog;;
      led_ret MA_SUCCESS
  end.

(** ** Enumerating devices *)

(** [sizeof(ma_device_info)] *)
Definition sizeof_ma_device_info : Z := 1544.

(** Moves the [n] entries before [i] down a slot, from the last. *)
Fixpoint shift_infos (n : nat) (m : list I) (i : Z) : list I :=
  match n with
  | O => m
  | S n => shift_infos n (wr m i (rd m (i - 1) 1)) (i - 1)
  end.

Definition with_infos (c : ma_context) (m : list I) (capacity playback capture : Z) : ma_context :=
  mk_context (ctx_backend c) (ctx_callbacks c) (ctx_ownsLog c) (Some m) capacity playback capture.

(** Room for one more; [fresh] is what new memory holds.  [None] is out of memory. *)
Definition expand_infos (os : ctx_os) (fresh : I) (c : ma_context) : ctxM (option ma_context) :=
  let total := u32 (playbackDeviceInfoCount c + captureDeviceInfoCount c) in
  if total >=? deviceInfoCapacity c
  then
    let newCapacity := u32 (deviceInfoCapacity c + 2) in
    if os_realloc os (u64 (sizeof_ma_device_info * newCapacity))
    then
      release_if (bool_decide (is_Some (pDeviceInfos c))) CtxDeviceInfos;;
      acquire CtxDeviceInfos;;
      led_ret (Some (with_infos c (default [] (pDeviceInfos c) ++ zrep (newCapacity - deviceInfoCapacity c) fresh)
                       newCapacity (playbackDeviceInfoCount c) (captureDeviceInfoCount c)))
    else led_ret None
  else led_ret (Some c).

(** Returns whether to go on. *)
Definition ma_context_get_devices__enum_callback (os : ctx_os) (fresh : I) (c : ma_context)
    (deviceType : ma_device_type) (pInfo : I) : ctxM (bool * ma_context) :=
  let total := u32 (playbackDeviceInfoCount c + captureDeviceInfoCount c) in
  let* room := expand_infos os fresh c in
  match room with
  | None => led_ret (false, c)
  | Some c =>
      let m := default [] (pDeviceInfos c) in
      if decide (deviceType = ma_device_type_playback)
      then
        let first := playbackDeviceInfoCount c in
        let m := shift_infos (Z.to_nat (total - first)) m total in
        led_ret (true, with_infos c (wr m first [pInfo]) (deviceInfoCapacity c)
                         (u32 (playbackDeviceInfoCount c + 1)) (captureDeviceInfoCount c))
      else
        led_ret (true, with_infos c (wr m total [pInfo]) (deviceInfoCapacity c)
                         (playbackDeviceInfoCount c) (u32 (captureDeviceInfoCount c + 1)))
  end.

(** The backend reports devices until the callback tells it to stop. *)
Fixpoint enumerate (os : ctx_os) (fresh : I) (c : ma_context) (l : list (ma_device_type * I))
    : ctxM ma_context :=
  match l with
  | [] => led_ret c
  | (ty, info) :: l =>
      let* (more, c) := ma_context_get_devices__enum_callback os fresh c ty info in
      if more : bool then enumerate os fresh c l else led_ret c
  end.

(** What the out parameters receive: an offset into [pDeviceInfos] and a count for each
    kind of device. *)
Record device_lists := mk_lists {
  ppPlaybackDeviceInfos : option Z;
  pPlaybackDeviceCount : Z;
  ppCaptureDeviceInfos : option Z;
  pCaptureDeviceCount : Z }.

Definition no_lists : device_lists := mk_lists None 0 None 0.

Definition ma_context_get_devices (os : ctx_os) (fresh : I) (pContext : option ma_context)
    : ctxM (ma_result * option ma_context * device_lists) :=
  match pContext with
  | None => led_ret (MA_INVALID_ARGS, None, no_lists)
  | Some c =>
      match onContextEnumerateDevices (ctx_callbacks c) with
      | None => led_ret (MA_INVALID_OPERATION, Some c, no_lists)
      | Some (result, reported) =>
          let c := mk_context (ctx_backend c) (ctx_callbacks c) (ctx_ownsLog c) (pDeviceInfos c)
                     (deviceInfoCapacity c) 0 0 in
          let* c := enumerate os fresh c reported in
          let base := option_map (fun _ => 0) (pDeviceInfos c) in
          led_ret (result, Some c,
            if result =? MA_SUCCESS
            then mk_lists base (playbackDeviceInfoCount c)
                   (if playbackDeviceInfoCount c >? 0
                    then option_map (fun p => p + playbackDeviceInfoCount c) base else base)
                   (captureDeviceInfoCount c)
            else no_lists)
      end
  end.

(** The backend gets the identifier and a structure that is zero but for its member [id]. *)
Definition ma_context_get_device_info (pContext : option ma_context) (deviceType : ma_device_type)
    (pDeviceID : option (list Z)) (pDeviceInfo : option I) : ma_result * option I :=
  match pContext, pDeviceInfo with
  | Some c, Some _ =>
      match onContextGetDeviceInfo (ctx_callbacks c) with
      | None => (MA_INVALID_OPERATION, pDeviceInfo)
      | Some get =>
          let '(result, info) := get deviceType pDeviceID pDeviceID in (result, Some info)
      end
  | _, _ => (MA_INVALID_ARGS, pDeviceInfo)
  end.

Definition ma_context_is_loopback_supported (pContext : option ma_context) : bool :=
  match pContext with None => false | Some c => ma_is_loopback_supported (ctx_backend c) end.
End context.
Arguments ma_backend_callbacks : clear implicits.
Arguments ma_context : clear implicits.

(** ** Logging

    A function pointer is an address, 0 being NULL. *)

Definition MA_MAX_LOG_CALLBACKS : Z := 4.

Record ma_log_callback := mk_log_callback { onLog : Z; log_pUserData : Z }.

Definition ma_log_callback_init (onLog pUserData : Z) : ma_log_callback := mk_log_callback onLog pUserData.

Record ma_log := mk_log { log_callbacks : list ma_log_callback; callbackCount : Z }.

Definition no_callback : ma_log_callback := mk_log_callback 0 0.

Definition callback_at (l : ma_log) (i : Z) : ma_log_callback := nth (Z.to_nat i) (log_callbacks l) no_callback.

Definition ma_log_register_callback (pLog : option ma_log) (callback : ma_log_callback)
    : ma_result * option ma_log :=
  match pLog with
  | None => (MA_INVALID_ARGS, None)
  | Some l =>
      if onLog callback =? 0 then (MA_INVALID_ARGS, pLog)
      else if callbackCount l =? MA_MAX_LOG_CALLBACKS then (MA_OUT_OF_MEMORY, pLog)
      else (MA_SUCCESS,
            Some (mk_log (wr (log_callbacks l) (callbackCount l) [callback]) (callbackCount l + 1)))
  end.

(** Moves the entries after [j] down a slot, [n] of them left. *)
Fixpoint move_down (n : nat) (m : list ma_log_callback) (j : Z) : list ma_log_callback :=
  match n with
  | O => m
  | S n => move_down n (wr m j (rd m (j + 1) 1)) (j + 1)
  end.

(** The loop from [iLog]; every turn either advances it or shortens the list. *)
Fixpoint unregister_loop (fuel : nat) (l : ma_log) (address iLog : Z) : ma_log :=
  match fuel with
  | O => l
  | S fuel =>
      if iLog <? callbackCount l
      then
        if onLog (callback_at l iLog) =? address
        then
          unregister_loop fuel
            (mk_log (move_down (Z.to_nat (callbackCount l - 1 - iLog)) (log_callbacks l) iLog)
               (callbackCount l - 1)) address iLog
        else unregister_loop fuel l address (iLog + 1)
      else l
  end.

Definition ma_log_unregister_callback (pLog : option ma_log) (callback : ma_log_callback)
    : ma_result * option ma_log :=
  match pLog with
  | None => (MA_INVALID_ARGS, None)
  | Some l => (MA_SUCCESS, Some (unregister_loop (Z.to_nat (callbackCount l)) l (onLog callback) 0))
  end.

(** The calls made: each callback's address and user data, with the level and message. *)
Fixpoint post_loop (n : nat) (l : ma_log) (level : Z) (message : list Z) (iLog : Z)
    : list (Z * Z * Z * list Z) :=
  match n with
  | O => []
  | S n =>
      let c := callback_at l iLog in
      (if onLog c =? 0 then [] else [(onLog c, log_pUserData c, level, message)])
      ++ post_loop n l level message (iLog + 1)
  end.

Definition ma_log_post (pLog : option ma_log) (level : Z) (pMessage : option (list Z))
    : ma_result * list (Z * Z * Z * list Z) :=
  match pLog, pMessage with
  | Some l, Some message => (MA_SUCCESS, post_loop (Z.to_nat (callbackCount l)) l level message 0)
  | _, _ => (MA_INVALID_ARGS, [])
  end.

(** Compares the [sizeof(ma_device_id)] bytes. *)
Definition ma_device_id_equal (pA pB : option (list Z)) : bool :=
  match pA, pB with
  | Some a, Some b => forallb (fun i => nth i a 0 =? nth i b 0) (seq 0 256)
  | _, _ => false
  end.
