(* ===== verification/ContextProps.v ===== *)
(** * What the context guarantees

    The array of devices is the playback devices followed by the others, each in the
    order the backend reported them; what a context acquires it releases, except the
    log of a context that could not be initialised; unregistering a log callback
    removes every registration of its function. *)
From Stdlib Require Import ZArith Lia Bool Permutation.
From stdpp Require Import base numbers list option.
From S2P Require Import Prelude MaTypes Ring DeviceData Ledger Context.

Local Open Scope Z_scope.
Local Open Scope led_scope.

(** ** Arrays with a known beginning *)

Section arrays.
Context {A : Type}.
Implicit Types a r : list A.

Lemma rd_at a x r : rd (a ++ x :: r) (zlen a) 1 = [x].
Proof. unfold rd, zlen. rewrite Nat2Z.id, drop_app_length. done. Qed.

Lemma rd_at_prefix a b r : rd (a ++ b ++ r) (zlen a) (zlen b) = b.
Proof. unfold rd, zlen. rewrite !Nat2Z.id, drop_app_length. apply take_app_length. Qed.

Lemma wr_at a x r y : wr (a ++ x :: r) (zlen a) [y] = a ++ y :: r.
Proof.
  unfold wr, zlen. rewrite Nat2Z.id, take_app_length. f_equal. cbn [length app]. f_equal.
  replace (length a + 1)%nat with (length (a ++ [x])) by (rewrite length_app; done).
  replace (a ++ x :: r) with ((a ++ [x]) ++ r) by (by rewrite <- app_assoc).
  apply drop_app_length.
Qed.

Lemma nth_at a x r d : nth (Z.to_nat (zlen a)) (a ++ x :: r) d = x.
Proof. unfold zlen. by rewrite Nat2Z.id, app_nth2, Nat.sub_diag by lia. Qed.
End arrays.

Section context_props.
Context {I D : Type}.
Implicit Types c : ma_context I D.

(** ** What a context holds *)

Definition ctx_infos c : list ctx_resource :=
  if bool_decide (is_Some (pDeviceInfos c)) then [CtxDeviceInfos] else [].

Definition ctx_owned c : list ctx_resource :=
  [CtxBackend; CtxEnumLock; CtxInfoLock] ++ ctx_infos c ++ (if ctx_ownsLog c then [CtxLog] else []).

(** A backend without [onContextUninit] is not told. *)
Definition ctx_left c : list ctx_resource := if onContextUninit (ctx_callbacks c) then [] else [CtxBackend].

Lemma context_uninit_releases c : runs_to (ma_context_uninit (Some c)) MA_SUCCESS (ctx_owned c) (ctx_left c).
Proof.
  unfold ma_context_uninit, ctx_owned, ctx_left. destruct (onContextUninit _); cbn [app].
  - eapply runs_bind; [apply runs_release_head|].
    eapply runs_bind; [apply runs_release_head|]. eapply runs_bind; [apply runs_release_head|].
    eapply runs_bind; [apply runs_release_if; reflexivity|].
    eapply runs_bind; [apply runs_release_if; by rewrite app_nil_r|]. by apply runs_ret.
  - eapply runs_bind; [by apply runs_ret|]. eapply runs_bind; [apply runs_release, perm_swap|].
    eapply runs_bind; [apply runs_release, perm_swap|].
    eapply runs_bind; [apply runs_release_if, Permutation_middle|].
    eapply runs_bind; [apply runs_release_if, Permutation_cons_append|]. by apply runs_ret.
Qed.

(** ** The array of devices *)

Definition plays (x : ma_device_type * I) : bool := bool_decide (x.1 = ma_device_type_playback).
Definition playback_infos (l : list (ma_device_type * I)) : list I := map snd (List.filter plays l).
Definition other_infos (l : list (ma_device_type * I)) : list I :=
  map snd (List.filter (fun x => negb (plays x)) l).

(** The array holds [P], then [Q], then [R]. *)
Record infos_hold (P Q R : list I) c : Prop := {
  hold_array : default [] (pDeviceInfos c) = P ++ Q ++ R;
  hold_capacity : deviceInfoCapacity c = zlen (P ++ Q ++ R);
  hold_playback : playbackDeviceInfoCount c = zlen P;
  hold_capture : captureDeviceInfoCount c = zlen Q }.

Lemma shift_infos_eq (Q : list I) : forall (P : list I) x R, exists y,
  shift_infos (length Q) (P ++ Q ++ x :: R) (zlen P + zlen Q) = P ++ y :: Q ++ R.
Proof.
  induction Q as [|q Q IH] using rev_ind; intros P x R; [by exists x|].
  rewrite length_app, Nat.add_comm. cbn [length Nat.add shift_infos].
  assert (E : zlen P + zlen (Q ++ [q]) - 1 = zlen (P ++ Q)) by (rewrite !zlen_app, zlen_cons, zlen_nil; lia).
  assert (E' : zlen P + zlen (Q ++ [q]) = zlen (P ++ Q ++ [q])) by (by rewrite (zlen_app P)).
  rewrite E, E'.
  replace (P ++ (Q ++ [q]) ++ x :: R) with ((P ++ Q) ++ q :: x :: R) by (by rewrite <- !app_assoc).
  rewrite rd_at.
  replace ((P ++ Q) ++ q :: x :: R) with ((P ++ Q ++ [q]) ++ x :: R) by (by rewrite <- !app_assoc).
  rewrite wr_at.
  replace ((P ++ Q ++ [q]) ++ q :: R) with (P ++ Q ++ q :: q :: R) by (by rewrite <- !app_assoc).
  rewrite zlen_app. destruct (IH P q (q :: R)) as (y & ->). exists y. by rewrite <- !app_assoc.
Qed.

(** Room for one more device, whether or not memory is needed for it. *)
Lemma expand_infos_room os fresh P Q R c h :
  infos_hold P Q R c -> zlen (P ++ Q ++ R) + 2 < 2 ^ 32 ->
  exists room, runs_to (expand_infos os fresh c) room (ctx_infos c ++ h)
      (match room with Some c => ctx_infos c | None => ctx_infos c end ++ h)
    /\ ((forall n, os_realloc os n = true) -> room <> None)
    /\ forall c', room = Some c' -> exists x R',
         infos_hold P Q (x :: R') c' /\ zlen (x :: R') <= Z.max (zlen R) 2
         /\ ctx_callbacks c' = ctx_callbacks c /\ ctx_ownsLog c' = ctx_ownsLog c
         /\ pDeviceInfos c' <> None.
Proof.
  intros [Ha Hc Hp Hq] Hb. unfold expand_infos. rewrite Hp, Hq, Hc.
  pose proof (zlen_nonneg P). pose proof (zlen_nonneg Q). pose proof (zlen_nonneg R).
  pose proof (zlen_app P (Q ++ R)). pose proof (zlen_app Q R).
  unfold u32. rewrite (wrapu_id 32 (zlen P + zlen Q)), (wrapu_id 32 (_ + 2)) by cint.
  destruct (Z.geb_spec (zlen P + zlen Q) (zlen (P ++ Q ++ R))) as [Hge|Hlt].
  - assert (ER : zlen R = 0) by lia. apply (f_equal Z.to_nat) in ER. unfold zlen in ER.
    rewrite Nat2Z.id in ER. apply length_zero_iff_nil in ER. subst R. rewrite !app_nil_r in *.
    destruct (os_realloc os _) eqn:Er.
    + eexists (Some _). split; [|split; [done|]].
      * eapply runs_bind; [apply runs_release_if; reflexivity|].
        eapply runs_bind; [apply runs_acquire|]. by apply runs_ret.
      * intros c' [= <-]. rewrite Ha.
        replace (zlen (P ++ Q) + 2 - zlen (P ++ Q)) with 2 by lia.
        exists fresh, [fresh]. split; [|done]. split; cbn; [by rewrite <- app_assoc| |done|done].
        rewrite !zlen_app, !zlen_cons, zlen_nil. lia.
    + exists None. split; [by apply runs_ret|]. split; [|done]. intros He. by rewrite He in Er.
  - exists (Some c). split; [by apply runs_ret|]. split; [done|]. intros c' [= <-].
    destruct R as [|x R]; [rewrite zlen_nil in *; lia|]. exists x, R. repeat split; try done; [lia|].
    intros En. rewrite En in Ha. cbn in Ha. symmetry in Ha. apply app_eq_nil in Ha as [_ Ha].
    by apply app_eq_nil in Ha as [_ Ha].
Qed.

Lemma enum_callback_holds os fresh P Q R c ty info h :
  infos_hold P Q R c -> zlen (P ++ Q ++ R) + 2 < 2 ^ 32 ->
  exists more c', runs_to (ma_context_get_devices__enum_callback os fresh c ty info) (more, c')
      (ctx_infos c ++ h) (ctx_infos c' ++ h)
    /\ ((forall n, os_realloc os n = true) -> more = true)
    /\ ctx_callbacks c' = ctx_callbacks c /\ ctx_ownsLog c' = ctx_ownsLog c
    /\ if more : bool
       then exists R', zlen R' + 1 <= Z.max (zlen R) 2
         /\ infos_hold (P ++ playback_infos [(ty, info)]) (Q ++ other_infos [(ty, info)]) R' c'
       else infos_hold P Q R c'.
Proof.
  intros H Hb. unfold ma_context_get_devices__enum_callback.
  destruct (expand_infos_room os fresh P Q R c h H Hb) as (room & Hrun & Hroom & Hok).
  pose proof H as [_ _ Hp Hq]. rewrite Hp, Hq.
  pose proof (zlen_nonneg P). pose proof (zlen_nonneg Q). pose proof (zlen_nonneg R).
  pose proof (zlen_app P (Q ++ R)). pose proof (zlen_app Q R).
  unfold u32. rewrite (wrapu_id 32 (zlen P + zlen Q)) by cint.
  destruct room as [c1|]; cycle 1.
  { eexists false, c. split; [eapply runs_bind; [exact Hrun|by apply runs_ret]|].
    split; [|done]. intros E. by destruct (Hroom E). }
  destruct (Hok c1 eq_refl) as (x & R' & [Ha1 Hc1 Hp1 Hq1] & Hlen & Ecb & Elog & Hn).
  rewrite zlen_cons in Hlen.
  assert (Eq : shift_infos (Z.to_nat (zlen P + zlen Q - zlen P)) (P ++ Q ++ x :: R') (zlen P + zlen Q)
    = shift_infos (length Q) (P ++ Q ++ x :: R') (zlen P + zlen Q)) by (f_equal; unfold zlen; lia).
  destruct (shift_infos_eq Q P x R') as (y & Ey). rewrite Ey in Eq.
  assert (Ew : wr (P ++ Q ++ x :: R') (zlen P + zlen Q) [info] = P ++ Q ++ info :: R')
    by (rewrite <- zlen_app, !(app_assoc P Q), wr_at; done).
  destruct (decide (ty = ma_device_type_playback)) as [E|E]; eexists true, _.
  all: split; [eapply runs_bind; [exact Hrun|]; cbv beta iota; rewrite Ha1, Hp1, Hq1, Hc1, ?Eq, ?Ew, ?wr_at;
    rewrite (wrapu_id 32 (_ + 1)) by cint; apply runs_ret; unfold ctx_infos; destruct (pDeviceInfos c1); done|].
  all: split; [done|]. all: split; [done|]. all: split; [done|].
  all: exists R'. all: split; [lia|].
  all: unfold playback_infos, other_infos, plays; cbn [List.filter fst].
  - rewrite bool_decide_eq_true_2 by done. cbn.
    split; cbn; rewrite ?app_nil_r, <- ?app_assoc; [done| |by rewrite zlen_app, zlen_cons, zlen_nil; lia|done].
    zl.
  - rewrite bool_decide_eq_false_2 by done. cbn.
    split; cbn; rewrite ?app_nil_r, <- ?app_assoc; [done| |done|by rewrite zlen_app, zlen_cons, zlen_nil; lia].
    zl.
Qed.

Lemma enumerate_holds os fresh l : forall P Q R c h,
  infos_hold P Q R c -> zlen P + zlen Q + Z.max (zlen R) 2 + zlen l + 2 < 2 ^ 32 ->
  exists k R' c', runs_to (enumerate os fresh c l) c' (ctx_infos c ++ h) (ctx_infos c' ++ h)
    /\ (k <= length l)%nat /\ ((forall n, os_realloc os n = true) -> k = length l)
    /\ ctx_callbacks c' = ctx_callbacks c /\ ctx_ownsLog c' = ctx_ownsLog c
    /\ infos_hold (P ++ playback_infos (take k l)) (Q ++ other_infos (take k l)) R' c'.
Proof.
  induction l as [|[ty info] l IH]; intros P Q R c h H Hb.
  { exists 0%nat, R, c. split; [by apply runs_ret|]. cbn. by rewrite !app_nil_r. }
  rewrite zlen_cons in Hb. pose proof (zlen_nonneg l).
  destruct (enum_callback_holds os fresh P Q R c ty info h H) as (more & c1 & Hrun & Hmore & Ecb & Elog & H1).
  { rewrite !zlen_app. lia. }
  destruct more.
  - destruct H1 as (R1 & HR1 & H1).
    assert (Hlen : zlen (P ++ playback_infos [(ty, info)]) + zlen (Q ++ other_infos [(ty, info)])
      = zlen P + zlen Q + 1).
    { unfold playback_infos, other_infos. cbn [List.filter]. destruct (plays _); cbn [negb map]; zl. }
    destruct (IH _ _ _ _ h H1) as (k & R' & c' & Hrun' & Hk & Hall & Ecb' & Elog' & H'); [lia|].
    exists (S k), R', c'. split; [by eapply runs_bind; [exact Hrun|exact Hrun']|].
    split; [cbn; lia|]. split; [intros E; cbn; by rewrite Hall|].
    split; [congruence|]. split; [congruence|].
    cbn [take]. unfold playback_infos, other_infos in *. cbn [List.filter] in *.
    destruct (plays _); cbn [negb map] in *; by rewrite <- !app_assoc in H'.
  - exists 0%nat, R, c1. split; [by eapply runs_bind; [exact Hrun|apply runs_ret]|].
    split; [lia|]. split; [intros E; by specialize (Hmore E)|]. cbn. by rewrite !app_nil_r.
Qed.
(** What a caller finds behind an out parameter. *)
Definition listed c (p : option Z) (n : Z) : list I :=
  match p with Some off => rd (default [] (pDeviceInfos c)) off n | None => [] end.

Definition infos_wf c : Prop :=
  deviceInfoCapacity c = zlen (default [] (pDeviceInfos c)) /\ deviceInfoCapacity c < 2 ^ 31.

(** C29. [ma_context_get_devices] returns what the backend returned; the two lists hold the
    playback devices and the other devices the backend reported, each in the order of the
    reports, with their counts, and the previous array is released if a new one replaces it.
    When memory runs out the lists are those of the first reports, and the result is the
    backend's all the same. *)
Theorem get_devices_lists os fresh c result reported :
  onContextEnumerateDevices (ctx_callbacks c) = Some (result, reported) ->
  infos_wf c -> zlen reported < 2 ^ 31 - 4 ->
  exists k c' lists,
    runs_to (ma_context_get_devices os fresh (Some c)) (result, Some c', lists) (ctx_owned c) (ctx_owned c')
    /\ (k <= length reported)%nat /\ ((forall n, os_realloc os n = true) -> k = length reported)
    /\ if decide (result = MA_SUCCESS)
       then listed c' (ppPlaybackDeviceInfos lists) (pPlaybackDeviceCount lists)
              = playback_infos (take k reported)
            /\ listed c' (ppCaptureDeviceInfos lists) (pCaptureDeviceCount lists)
              = other_infos (take k reported)
            /\ pPlaybackDeviceCount lists = zlen (playback_infos (take k reported))
            /\ pCaptureDeviceCount lists = zlen (other_infos (take k reported))
       else lists = no_lists.
Proof.
  intros Ee [Hcap Hb] Hl. unfold ma_context_get_devices. rewrite Ee.
  set (c0 := mk_context _ (ctx_callbacks c) _ _ _ 0 0).
  assert (H0 : infos_hold [] [] (default [] (pDeviceInfos c)) c0) by done.
  rewrite Hcap in Hb. pose proof (zlen_nonneg reported).
  destruct (enumerate_holds os fresh reported [] [] _ c0
    ([CtxBackend; CtxEnumLock; CtxInfoLock] ++ (if ctx_ownsLog c then [CtxLog] else [])) H0)
    as (k & R' & c' & Hrun & Hk & Hall & Ecb & Elog & [Ha _ Hp Hq]); [change (zlen []) with 0; lia|].
  cbn [app] in Ha, Hp, Hq. set (P := playback_infos _) in *. set (Q := other_infos _) in *.
  eexists k, c', _. split; [|split; [done|split; [done|]]].
  - eapply runs_bind; [|by apply runs_ret]. eapply runs_held_ext, Hrun; unfold ctx_owned.
    + change (ctx_infos c0) with (ctx_infos c). rewrite !app_assoc. f_equiv. apply Permutation_app_comm.
    + rewrite Elog. change (ctx_ownsLog c0) with (ctx_ownsLog c). rewrite !app_assoc. f_equiv.
      apply Permutation_app_comm.
  - destruct (decide (result = MA_SUCCESS)) as [-> |N]; [|by rewrite (proj2 (Z.eqb_neq _ _) N)].
    rewrite Z.eqb_refl. cbn [ppPlaybackDeviceInfos pPlaybackDeviceCount ppCaptureDeviceInfos pCaptureDeviceCount].
    unfold listed. rewrite Hp, Hq. destruct (pDeviceInfos c') as [m|]; cbn [default option_map from_option id] in *.
    + rewrite Ha. split; [apply (rd_at_prefix [] P (Q ++ R'))|]. split; [|done].
      destruct (Z.gtb_spec (zlen P) 0) as [|E0]; [rewrite Z.add_0_l; apply rd_at_prefix|].
      assert (EP : P = []) by (destruct P as [|x l]; [done|rewrite zlen_cons in E0; pose proof (zlen_nonneg l); lia]).
      rewrite EP. apply (rd_at_prefix [] Q R').
    + symmetry in Ha. apply app_eq_nil in Ha as [EP Ha]. apply app_eq_nil in Ha as [EQ _].
      split; [done|]. split; [|done]. by destruct (_ >? 0).
Qed.

(** ** Initialising a context *)

Definition starts (onContextInit : ma_backend -> option (ma_result * ma_backend_callbacks I D))
    (backend : ma_backend) : bool :=
  match onContextInit backend with Some (result, _) => result =? MA_SUCCESS | None => false end.

Lemma context_mutex_acquires os lock h :
  os_mutex_init os lock = MA_SUCCESS -> runs_to (context_mutex os lock) MA_SUCCESS h (lock :: h).
Proof.
  intros E. unfold context_mutex. rewrite E, Z.eqb_refl. cbn [negb]. eapply runs_bind; [apply runs_acquire|by apply runs_ret].
Qed.

Lemma backends_loop_first os onContextInit ownsLog l :
  (forall r, os_mutex_init os r = MA_SUCCESS) ->
  exists found, runs_to (backends_loop os onContextInit l ownsLog) found (if ownsLog then [CtxLog] else [])
      match found with Some (_, c) => ctx_owned c | None => if ownsLog then [CtxLog] else [] end
    /\ option_map (fun x => ctx_backend (snd x)) found = List.find (starts onContextInit) l
    /\ match found with
       | Some (result, c) => result = MA_SUCCESS /\ pDeviceInfos c = None
           /\ onContextInit (ctx_backend c) = Some (MA_SUCCESS, ctx_callbacks c)
       | None => True
       end.
Proof.
  intros Hm. induction l as [|b l IH]; cbn [backends_loop List.find].
  { exists None. split; [by apply runs_ret|done]. }
  unfold starts at 1. destruct (onContextInit b) as [[result cb]|] eqn:Eb; [|done].
  destruct (result =? MA_SUCCESS) eqn:E; [|done]. apply Z.eqb_eq in E as ->.
  exists (Some (MA_SUCCESS, mk_context b cb ownsLog None 0 0 0)). split; [|done].
  eapply runs_bind; [apply runs_acquire|]. eapply runs_bind; [by apply context_mutex_acquires|].
  eapply runs_bind; [by apply context_mutex_acquires|]. apply runs_ret.
  unfold ctx_owned, ctx_infos. cbn. destruct ownsLog; cbn.
  - etransitivity; [apply perm_swap|]. etransitivity; [apply perm_skip, perm_swap|]. apply perm_swap.
  - etransitivity; [apply perm_swap|]. etransitivity; [apply perm_skip, perm_swap|]. apply perm_swap.
Qed.

(** When the mutexes can be created, [ma_context_init] takes the first backend of the
    list that initialises, and returns an error if there is none.  A context that is
    initialised holds its backend, two locks and, if the caller gave no log, a log, all of
    which [ma_context_uninit] releases (the backend only if it has [onContextUninit]).
    A context that is not keeps the log it created: the structure is zeroed and nothing
    can release it. *)
Theorem context_init_takes_first os onContextInit backends hasLog :
  (forall r, os_mutex_init os r = MA_SUCCESS) ->
  exists result found,
    runs_to (ma_context_init os onContextInit backends None hasLog true) (result, found) []
      match found with Some c => ctx_owned c | None => if hasLog then [] else [CtxLog] end
    /\ option_map (@ctx_backend I D) found = List.find (starts onContextInit) (default all_backends backends)
    /\ result = (if found is Some _ then MA_SUCCESS else MA_NO_BACKEND)
    /\ forall c, found = Some c ->
         runs_to (ma_context_uninit (Some c)) MA_SUCCESS (ctx_owned c) (ctx_left c).
Proof.
  intros Hm. unfold ma_context_init. cbn [negb].
  destruct (backends_loop_first os onContextInit (negb hasLog) (default all_backends backends) Hm)
    as (found & Hrun & Hfind & Hok).
  replace (if hasLog then [] else [CtxLog]) with (if negb hasLog then [CtxLog] else []) by (by destruct hasLog).
  exists (if found is Some _ then MA_SUCCESS else MA_NO_BACKEND), (option_map snd found).
  split; [|split; [by destruct found|split; [by destruct found|]]].
  - eapply (runs_bind _ _ (negb hasLog) _ _ (if negb hasLog then [CtxLog] else [])).
    { destruct hasLog; cbn [negb]; [by apply runs_ret|].
      unfold ma_log_init. rewrite Hm, Z.eqb_refl. cbn [negb].
      eapply runs_bind; [eapply runs_bind; [apply runs_acquire|by apply runs_ret]|by apply runs_ret]. }
    eapply runs_bind; [exact Hrun|]. destruct found as [[r c]|]; [destruct Hok as [-> _]|]; by apply runs_ret.
  - intros c _. apply context_uninit_releases.
Qed.
End context_props.

(** ** Log callbacks *)

(** The callbacks a log has, in the order they were registered. *)
Definition registered (l : ma_log) : list ma_log_callback := rd (log_callbacks l) 0 (callbackCount l).

Definition log_wf (l : ma_log) : Prop :=
  zlen (log_callbacks l) = MA_MAX_LOG_CALLBACKS /\ 0 <= callbackCount l <= MA_MAX_LOG_CALLBACKS.

Lemma move_down_eq B : forall A x r,
  exists y, move_down (length B) (A ++ x :: B ++ r) (zlen A) = A ++ B ++ y :: r.
Proof.
  induction B as [|b B IH]; intros A x r; [by exists x|]. cbn [length move_down].
  assert (E : zlen A + 1 = zlen (A ++ [x])) by (by rewrite zlen_app).
  rewrite E. replace (A ++ x :: (b :: B) ++ r) with ((A ++ [x]) ++ b :: B ++ r) by (by rewrite <- app_assoc).
  rewrite rd_at, <- app_assoc. cbn [app]. rewrite wr_at.
  assert (Eb : zlen (A ++ [x]) = zlen (A ++ [b])) by (by rewrite !zlen_app).
  rewrite Eb. replace (A ++ b :: b :: B ++ r) with ((A ++ [b]) ++ b :: B ++ r) by (by rewrite <- app_assoc).
  destruct (IH (A ++ [b]) b r) as (y & ->). exists y. by rewrite <- app_assoc.
Qed.

Lemma unregister_loop_filter address fuel : forall A B r,
  (length B <= fuel)%nat ->
  let l' := unregister_loop fuel (mk_log (A ++ B ++ r) (zlen A + zlen B)) address (zlen A) in
  let kept := A ++ List.filter (fun c => negb (onLog c =? address)) B in
  exists r', log_callbacks l' = kept ++ r' /\ callbackCount l' = zlen kept
    /\ length (kept ++ r') = length (A ++ B ++ r).
Proof.
  induction fuel as [|fuel IH]; intros A B r Hf.
  { destruct B; [|cbn in Hf; lia]. exists r. cbn. by rewrite app_nil_r, Z.add_0_r. }
  cbn [unregister_loop callbackCount].
  destruct B as [|b B].
  { rewrite zlen_nil, Z.add_0_r, Z.ltb_irrefl. exists r. cbn. by rewrite app_nil_r. }
  pose proof (zlen_nonneg B). rewrite zlen_cons.
  rewrite (proj2 (Z.ltb_lt (zlen A) _)) by lia.
  assert (Eb : callback_at (mk_log (A ++ (b :: B) ++ r) (zlen A + (1 + zlen B))) (zlen A) = b).
  { apply nth_at. }
  rewrite Eb. cbn [List.filter log_callbacks]. destruct (onLog b =? address); cbn [negb].
  - replace (Z.to_nat _) with (length B) by (unfold zlen; lia).
    destruct (move_down_eq B A b r) as (y & Ey). cbn [app]. rewrite Ey.
    replace (zlen A + (1 + zlen B) - 1) with (zlen A + zlen B) by lia.
    destruct (IH A B (y :: r)) as (r' & E1 & E2 & E3); [cbn in Hf; lia|].
    exists r'. split; [done|]. split; [done|]. rewrite E3, !length_app. cbn. rewrite length_app. lia.
  - replace (A ++ (b :: B) ++ r) with ((A ++ [b]) ++ B ++ r) by (by rewrite <- app_assoc).
    replace (zlen A + (1 + zlen B)) with (zlen (A ++ [b]) + zlen B) by (rewrite zlen_app, zlen_cons, zlen_nil; lia).
    replace (zlen A + 1) with (zlen (A ++ [b])) by (by rewrite zlen_app).
    replace (A ++ b :: List.filter _ B) with ((A ++ [b]) ++ List.filter (fun c => negb (onLog c =? address)) B)
      by (by rewrite <- app_assoc).
    apply IH. cbn in Hf. lia.
Qed.

(** Every registration of the function is removed, the others keep their order. *)
Lemma log_unregister_filters l callback :
  log_wf l ->
  exists l', ma_log_unregister_callback (Some l) callback = (MA_SUCCESS, Some l') /\ log_wf l'
    /\ registered l' = List.filter (fun c => negb (onLog c =? onLog callback)) (registered l).
Proof.
  intros [Hlen Hn]. unfold ma_log_unregister_callback. eexists. split; [reflexivity|].
  set (B := registered l). set (r := drop (Z.to_nat (callbackCount l)) (log_callbacks l)).
  assert (El : log_callbacks l = B ++ r) by (unfold B, registered, rd, r; by rewrite take_drop).
  assert (EB : zlen B = callbackCount l) by (unfold B, registered; rewrite zlen_rd; lia).
  assert (E0 : unregister_loop (Z.to_nat (callbackCount l)) l (onLog callback) 0
    = unregister_loop (Z.to_nat (callbackCount l)) (mk_log ([] ++ B ++ r) (0 + zlen B)) (onLog callback) 0)
    by (f_equal; cbn [app]; rewrite <- El, Z.add_0_l, EB; by destruct l).
  rewrite E0.
  destruct (unregister_loop_filter (onLog callback) (Z.to_nat (callbackCount l)) [] B r)
    as (r' & E1 & E2 & E3); [unfold zlen in EB; lia|].
  change (zlen (@nil ma_log_callback)) with 0 in *. cbn [app] in *. unfold log_wf, registered.
  set (kept := List.filter _ B) in *. split.
  - rewrite E1, E2. rewrite El in Hlen. unfold zlen in *. rewrite E3.
    split; [done|]. rewrite <- E3, length_app in Hlen. lia.
  - rewrite E1, E2. apply (rd_at_prefix [] kept r').
Qed.

(** A registration goes last, until [MA_MAX_LOG_CALLBACKS] are registered. *)
Lemma log_register_appends l callback :
  log_wf l -> onLog callback <> 0 ->
  if callbackCount l =? MA_MAX_LOG_CALLBACKS
  then ma_log_register_callback (Some l) callback = (MA_OUT_OF_MEMORY, Some l)
  else exists l', ma_log_register_callback (Some l) callback = (MA_SUCCESS, Some l') /\ log_wf l'
    /\ registered l' = registered l ++ [callback].
Proof.
  intros [Hlen Hn] Hc. unfold ma_log_register_callback. rewrite (proj2 (Z.eqb_neq _ _) Hc).
  destruct (Z.eqb_spec (callbackCount l) MA_MAX_LOG_CALLBACKS) as [E|E]; [done|].
  eexists. split; [reflexivity|]. unfold log_wf, registered. cbn [log_callbacks callbackCount].
  assert (E1 : zlen [callback] = 1) by done. split.
  - rewrite zlen_wr by lia. lia.
  - rewrite (rd_split _ 0 (callbackCount l) 1) by lia. rewrite Z.add_0_l.
    rewrite (rd_wr_before _ (callbackCount l)) by lia. f_equal.
    rewrite <- E1. apply rd_wr_same; lia.
Qed.

(** ** Witnesses *)

Definition demo_reports : list (ma_device_type * Z) :=
  [(ma_device_type_capture, 10); (ma_device_type_playback, 20); (ma_device_type_capture, 30);
   (ma_device_type_playback, 40); (ma_device_type_playback, 50)].

Definition demo_os : ctx_os := mk_ctx_os (fun _ => MA_SUCCESS) (fun _ => true).

Definition demo_callbacks : ma_backend_callbacks Z unit :=
  mk_callbacks true (Some (MA_SUCCESS, demo_reports)) None tt.

Definition demo_context : ma_context Z unit := mk_context ma_backend_null demo_callbacks true None 0 0 0.

Lemma get_devices_lists_witness :
  exists c' lists,
    runs_to (ma_context_get_devices demo_os 0 (Some demo_context)) (MA_SUCCESS, Some c', lists)
      (ctx_owned demo_context) (ctx_owned c')
    /\ listed c' (ppPlaybackDeviceInfos lists) (pPlaybackDeviceCount lists) = [20; 40; 50]
    /\ listed c' (ppCaptureDeviceInfos lists) (pCaptureDeviceCount lists) = [10; 30].
Proof.
  destruct (get_devices_lists demo_os 0 demo_context MA_SUCCESS demo_reports) as (k & c' & l & Hrun & _ & Hk & H);
    [reflexivity|split; reflexivity|reflexivity|].
  rewrite Hk in H by reflexivity. destruct (decide (MA_SUCCESS = MA_SUCCESS)); [|done].
  destruct H as (Hp & Hq & _ & _). exists c', l. split; [exact Hrun|]. split; [exact Hp|exact Hq].
Defined.

(** PulseAudio is not there, ALSA starts. *)
Definition demo_backend (backend : ma_backend) : option (ma_result * ma_backend_callbacks Z unit) :=
  match backend with
  | ma_backend_pulseaudio => Some (MA_ERROR, demo_callbacks)
  | ma_backend_alsa | ma_backend_null => Some (MA_SUCCESS, demo_callbacks)
  | _ => None
  end.

Lemma context_init_takes_first_witness :
  (exists c, runs_to (ma_context_init demo_os demo_backend None None false true) (MA_SUCCESS, Some c) [] (ctx_owned c)
     /\ ctx_backend c = ma_backend_alsa)
  /\ runs_to (ma_context_init (I:=Z) (D:=unit) demo_os (fun _ => None) None None false true)
       (MA_NO_BACKEND, None) [] [CtxLog].
Proof.
  split.
  - destruct (context_init_takes_first demo_os demo_backend None false (fun _ => eq_refl))
      as (r & [c|] & Hrun & Hb & -> & _); [|discriminate Hb].
    exists c. split; [exact Hrun|]. injection Hb as E. exact E.
  - destruct (context_init_takes_first (I:=Z) (D:=unit) demo_os (fun _ => None) None false (fun _ => eq_refl))
      as (r & [c|] & Hrun & Hb & -> & _); [discriminate Hb|exact Hrun].
Defined.
