(* ===== verification/DeviceSetup.v ===== *)
(** * Initialising and releasing a device (miniaudio.h)

    [ma_device_init]: the configuration is checked and copied, the locks and events are
    created, the backend opens the device and says what format it has, the converters and
    buffers between the client's format and the device's are made, and the worker thread
    is started.  [ma_device_post_init] is also what a backend calls when the device is
    rerouted while it runs.  The effect [ledM] records every acquisition and release.

    The backend's functions are arguments ([ma_device_callbacks]); so are the answers of
    the operating system and the allocator ([dev_os]).  Names, identifiers of the log and
    members that are only stored ([noDisableDenormals], the notification callbacks, the
    backends' own settings) are left out. *)
From Stdlib Require Import ZArith Lia Bool SpecFloat.
From stdpp Require Import base numbers list option.
From S2P Require Import Prelude MaTypes CFloat Ring PcmRing PcmFormat ChannelMap Biquad LowPass LinearResampler ChannelConverter Resampler DataConverter DeviceData DeviceIO Ledger Context.

Local Open Scope Z_scope.
Local Open Scope led_scope.

Definition MA_DEFAULT_PERIODS : Z := 3.

(** ** What is acquired *)

Inductive dev_resource :=
| StartStopLock
| WakeupEvent
| StartEvent
| StopEvent
| BackendDevice
| WorkerThread
| DuplexRing
| CaptureConverter
| PlaybackConverter
| InputCache
| CaptureBuffer
| PlaybackBuffer
| ContextMemory
| OfContext (r : ctx_resource).

#[export] Instance dev_resource_eq_dec : EqDecision dev_resource.
Proof. solve_decision. Defined.

Abbreviation ctxM := (ledM ctx_resource).
Abbreviation devM := (ledM dev_resource).

(** What the operating system answers; [dos_alloc] is whether a block of a size is given. *)
Record dev_os := mk_dev_os {
  dos_mutex_init : ma_result;
  dos_event_init : dev_resource -> ma_result;
  dos_thread_create : ma_result;
  dos_alloc : dev_resource -> Z -> bool }.

Section setup.
Context (lm : libm) {C S I : Type}.

(** ** Configurations and descriptors *)

Record side_config := mk_side_config {
  scf_pDeviceID : option (list Z);
  scf_shareMode : Z;
  scf_format : ma_format;
  scf_channels : Z;
  scf_pChannelMap : option (list ma_channel);
  scf_channelMixMode : ma_channel_mix_mode;
  scf_calculateLFEFromSpatialChannels : bool }.

Record ma_device_config := mk_device_config {
  dcf_deviceType : ma_device_type;
  dcf_sampleRate : Z;
  dcf_periodSizeInFrames : Z;
  dcf_periodSizeInMilliseconds : Z;
  dcf_periods : Z;
  dcf_noPreSilencedOutputBuffer : bool;
  dcf_noClip : bool;
  dcf_noFixedSizedCallback : bool;
  dcf_dataCallback : option (ma_device_data_proc S);
  dcf_pUserData : S;
  dcf_algorithm : ma_resample_algorithm;
  dcf_lpfOrder : Z;
  dcf_pBackendVTable : option (ma_resampling_backend_vtable C);
  dcf_playback : side_config;
  dcf_capture : side_config }.

Definition side_config_zero : side_config :=
  mk_side_config None 0 ma_format_unknown 0 None ma_channel_mix_mode_rectangular false.

(** [null] is what a zeroed [pUserData] stands for. *)
Definition ma_device_config_init (null : S) (deviceType : ma_device_type) : ma_device_config :=
  let resampling := ma_resampler_config_init (C:=C) ma_format_unknown 0 0 0 ma_resample_algorithm_linear in
  mk_device_config deviceType 0 0 0 0 false false false None null
    (rs_algorithm (rc_settings resampling)) (rs_lpfOrder (rc_settings resampling)) (rc_pBackendVTable resampling)
    side_config_zero side_config_zero.

(** [channelMap] is an array of [MA_MAX_CHANNELS]. *)
Record ma_device_descriptor := mk_descriptor {
  dsc_pDeviceID : option (list Z);
  dsc_shareMode : Z;
  dsc_format : ma_format;
  dsc_channels : Z;
  dsc_sampleRate : Z;
  dsc_channelMap : list ma_channel;
  dsc_periodSizeInFrames : Z;
  dsc_periodSizeInMilliseconds : Z;
  dsc_periodCount : Z }.

Definition ma_device_descriptor_is_valid (pDeviceDescriptor : option ma_device_descriptor) : bool :=
  match pDeviceDescriptor with
  | None => false
  | Some d =>
      if decide (dsc_format d = ma_format_unknown) then false
      else if (dsc_channels d =? 0) || (dsc_channels d >? MA_MAX_CHANNELS) then false
      else if dsc_sampleRate d =? 0 then false
      else true
  end.

Definition ma_calculate_buffer_size_in_frames_from_milliseconds
    (bufferSizeInMilliseconds sampleRate : Z) : Z :=
  if sampleRate =? 0 then 0 else u32 (bufferSizeInMilliseconds * sampleRate) / 1000.

(** Whether a channel from [iChannel] on is at a later index too; [n] and [k] of them left. *)
Fixpoint repeated_after (k : nat) (m : list ma_channel) (x : ma_channel) (jChannel : Z) : bool :=
  match k with
  | O => false
  | Datatypes.S k =>
      if x =? nth (Z.to_nat jChannel) m 0 then true else repeated_after k m x (jChannel + 1)
  end.

Fixpoint unique_loop (n : nat) (m : list ma_channel) (iChannel : Z) : bool :=
  match n with
  | O => true
  | Datatypes.S n =>
      if repeated_after n m (nth (Z.to_nat iChannel) m 0) (iChannel + 1) then false
      else unique_loop n m (iChannel + 1)
  end.

Definition ma__is_channel_map_valid (pChannelMap : option (list ma_channel)) (channels : Z) : bool :=
  match pChannelMap with
  | None => true
  | Some m =>
      if nth 0 m 0 =? MA_CHANNEL_NONE then true
      else if (channels =? 0) || (channels >? MA_MAX_CHANNELS) then false
      else unique_loop (Z.to_nat channels) m 0
  end.

(** ** The device *)

(** The members of one direction that are not in [device_side] or [io_side]; [ss_heap] and
    [ss_buffer] are whether the converter's [_pHeap] and [pIntermediaryBuffer] are set. *)
Record setup_side := mk_setup_side {
  ss_pID : option (list Z);
  ss_shareMode : Z;
  ss_channelMap : list ma_channel;
  ss_channelMixMode : ma_channel_mix_mode;
  ss_calculateLFEFromSpatialChannels : bool;
  ss_internalChannelMap : list ma_channel;
  ss_internalPeriods : Z;
  ss_heap : bool;
  ss_buffer : bool }.

Record setup := mk_setup {
  su_io : @io_device C S;
  su_onData : option (ma_device_data_proc S);
  su_sampleRate : Z;
  su_algorithm : ma_resample_algorithm;
  su_lpfOrder : Z;
  su_pBackendVTable : option (ma_resampling_backend_vtable C);
  su_capture : setup_side;
  su_playback : setup_side;
  su_isOwnerOfContext : bool }.

Definition no_map : list ma_channel := zrep MA_MAX_CHANNELS MA_CHANNEL_NONE.
Definition setup_side_zero : setup_side :=
  mk_setup_side None 0 no_map ma_channel_mix_mode_rectangular false no_map 0 false false.
Definition device_side_zero : device_side := mk_side ma_format_unknown 0 [] 0 0.
Definition io_side_zero : @io_side C := mk_io_side ma_format_unknown 0 0 0 ma_data_converter_zero.

(** [MA_ZERO_OBJECT(pDevice)]; the type it leaves is not a device type and is not read. *)
Definition setup_zero (null : S) : setup :=
  mk_setup
    (mk_io (mk_ma_device S ma_device_type_playback ma_device_state_uninitialized false false false f32_zero
              device_side_zero device_side_zero null)
       io_side_zero io_side_zero (mk_cache None 0 0 0) ma_pcm_rb_zero)
    None 0 ma_resample_algorithm_linear 0 None setup_side_zero setup_side_zero false.

Definition su_dev (d : setup) : ma_device S := io_dev (su_io d).
Definition su_with_io (d : setup) (x : @io_device C S) : setup :=
  mk_setup x (su_onData d) (su_sampleRate d) (su_algorithm d) (su_lpfOrder d) (su_pBackendVTable d)
    (su_capture d) (su_playback d) (su_isOwnerOfContext d).
Definition su_with_dev (d : setup) (v : ma_device S) : setup := su_with_io d (io_with_dev (su_io d) v).
Definition su_with_rate (d : setup) (rate : Z) : setup :=
  mk_setup (su_io d) (su_onData d) rate (su_algorithm d) (su_lpfOrder d) (su_pBackendVTable d)
    (su_capture d) (su_playback d) (su_isOwnerOfContext d).
Definition su_with_sides (d : setup) (c p : setup_side) : setup :=
  mk_setup (su_io d) (su_onData d) (su_sampleRate d) (su_algorithm d) (su_lpfOrder d) (su_pBackendVTable d)
    c p (su_isOwnerOfContext d).
Definition su_with_owner (d : setup) : setup :=
  mk_setup (su_io d) (su_onData d) (su_sampleRate d) (su_algorithm d) (su_lpfOrder d) (su_pBackendVTable d)
    (su_capture d) (su_playback d) true.
Definition ma_device__set_state (d : setup) (x : ma_device_state) : setup :=
  let v := su_dev d in
  su_with_dev d (mk_ma_device S (dev_type v) x (noPreSilencedOutputBuffer v) (noClip v) (noFixedSizedCallback v)
    (masterVolumeFactor v) (dev_capture v) (dev_playback v) (dev_client v)).

(** One direction, read and written as a whole. *)
Definition get_side (capture : bool) (d : setup) : device_side * @io_side C * setup_side :=
  if capture then (dev_capture (su_dev d), io_capture (su_io d), su_capture d)
  else (dev_playback (su_dev d), io_playback (su_io d), su_playback d).
Definition set_side (capture : bool) (d : setup) (sd : device_side) (i : @io_side C) (ss : setup_side) : setup :=
  let x := su_io d in
  if capture
  then su_with_sides (su_with_io d (mk_io (with_capture (io_dev x) sd) i (io_playback x) (io_cache x) (io_rb x)))
         ss (su_playback d)
  else su_with_sides (su_with_io d (mk_io (with_playback (io_dev x) sd) (io_capture x) i (io_cache x) (io_rb x)))
         (su_capture d) ss.

Definition ss_with_map (ss : setup_side) (m : list ma_channel) : setup_side :=
  mk_setup_side (ss_pID ss) (ss_shareMode ss) m (ss_channelMixMode ss) (ss_calculateLFEFromSpatialChannels ss)
    (ss_internalChannelMap ss) (ss_internalPeriods ss) (ss_heap ss) (ss_buffer ss).
Definition ss_with_heap (ss : setup_side) (heap : bool) : setup_side :=
  mk_setup_side (ss_pID ss) (ss_shareMode ss) (ss_channelMap ss) (ss_channelMixMode ss)
    (ss_calculateLFEFromSpatialChannels ss) (ss_internalChannelMap ss) (ss_internalPeriods ss) heap (ss_buffer ss).
Definition ss_with_buffer (ss : setup_side) (buffer : bool) : setup_side :=
  mk_setup_side (ss_pID ss) (ss_shareMode ss) (ss_channelMap ss) (ss_channelMixMode ss)
    (ss_calculateLFEFromSpatialChannels ss) (ss_internalChannelMap ss) (ss_internalPeriods ss) (ss_heap ss) buffer.

(** ** Channel maps in the device's arrays

    Writing past the [MA_MAX_CHANNELS] entries of an array is undefined. *)

Definition map_fits (channels : Z) (m : list ma_channel) : option (list ma_channel) :=
  if channels >? MA_MAX_CHANNELS then None else Some m.

Definition copy_map (out : list ma_channel) (pIn : option (list ma_channel)) (channels : Z)
    : option (list ma_channel) :=
  match pIn with
  | None => Some out
  | Some _ => map_fits channels (ma_channel_map_copy out pIn channels)
  end.

Definition copy_map_or_default (out : list ma_channel) (pIn : option (list ma_channel)) (channels : Z)
    : option (list ma_channel) :=
  match pIn with
  | None => Some (ma_channel_map_copy_or_default out MA_MAX_CHANNELS pIn channels)
  | Some _ => map_fits channels (ma_channel_map_copy_or_default out MA_MAX_CHANNELS pIn channels)
  end.

(** ** After the backend has opened the device *)

(** The client's settings that were left open take the device's. *)
Definition default_settings (capture : bool) (d : setup) : option setup :=
  let '(sd, i, ss) := get_side capture d in
  let format := if decide (side_format sd = ma_format_unknown) then internalFormat i else side_format sd in
  let channels := if side_channels sd =? 0 then internalChannels i else side_channels sd in
  let sd := mk_side format channels (pIntermediaryBuffer sd) (intermediaryBufferCap sd) (intermediaryBufferLen sd) in
  option_map (fun m => set_side capture d sd i (ss_with_map ss m))
    (if nth 0 (ss_channelMap ss) 0 =? MA_CHANNEL_NONE
     then
       if internalChannels i =? channels
       then copy_map (ss_channelMap ss) (Some (ss_internalChannelMap ss)) channels
       else if decide (ss_channelMixMode ss = ma_channel_mix_mode_simple)
       then map_fits channels (ma_channel_map_init_blank (ss_channelMap ss) channels)
       else Some (ma_channel_map_init_standard ma_standard_channel_map_default (ss_channelMap ss)
                    MA_MAX_CHANNELS channels)
     else Some (ss_channelMap ss)).

(** From the device's format to the client's for capture, the other way for playback.  The
    maps are pointers into the device's arrays: the converter reads an entry per channel. *)
Definition converter_config (capture : bool) (d : setup) : ma_data_converter_config C :=
  let '(sd, i, ss) := get_side capture d in
  let client := (side_format sd, side_channels sd, su_sampleRate d, ss_channelMap ss) in
  let device := (internalFormat i, internalChannels i, internalSampleRate i, ss_internalChannelMap ss) in
  let '(formatIn, channelsIn, rateIn, mapIn) := if capture then device else client in
  let '(formatOut, channelsOut, rateOut, mapOut) := if capture then client else device in
  let c := ma_data_converter_config_init_default (C:=C) in
  mk_data_converter_config formatIn formatOut channelsIn channelsOut rateIn rateOut
    (Some (rd mapIn 0 channelsIn)) (Some (rd mapOut 0 channelsOut))
    (dcc_ditherMode c) (ss_channelMixMode ss) (ss_calculateLFEFromSpatialChannels ss) (dcc_ppChannelWeights c)
    false (su_algorithm d) (su_lpfOrder d) (su_pBackendVTable d).

Definition converter_resource (capture : bool) : dev_resource :=
  if capture then CaptureConverter else PlaybackConverter.

(** Its resampler and channel converter live in the same block. *)
Definition ma_data_converter_uninit (which : dev_resource) (c : ma_data_converter C) (heap : bool)
    : devM unit :=
  release_if (dc_ownsHeap c && heap) which.

(** [ma_data_converter_init] with the block it allocates: the result, the converter and
    whether [_pHeap] is set.  [heap] is what [_pHeap] was. *)
Definition init_converter (os : dev_os) (which : dev_resource) (cfg : ma_data_converter_config C)
    (before : ma_data_converter C) (heap : bool) : devM (ma_result * ma_data_converter C * bool) :=
  let '(result, size) := ma_data_converter_get_heap_size lm (Some cfg) in
  let alloc := dos_alloc os which size in
  let* (r, c) := led_opt (ma_data_converter_init lm (Some cfg) alloc before) in
  if negb (result =? MA_SUCCESS) || (size >? 0) && negb alloc then led_ret (r, c, heap)
  else
    (if size >? 0 then acquire which else led_ret tt);;
    (if r =? MA_SUCCESS then led_ret tt else release_if (size >? 0) which);;
    led_ret (r, c, size >? 0).

(** One direction: the old converter goes first, unless the device is being initialised. *)
Definition setup_converter (os : dev_os) (capture : bool) (d : setup) : devM (ma_result * setup) :=
  let '(sd, i, ss) := get_side capture d in
  let which := converter_resource capture in
  (if decide (dev_state (su_dev d) = ma_device_state_uninitialized) then led_ret tt
   else ma_data_converter_uninit which (converter i) (ss_heap ss));;
  let* (result, c, heap) := init_converter os which (converter_config capture d) (converter i) (ss_heap ss) in
  led_ret (result, set_side capture d sd (side_with_converter i c) (ss_with_heap ss heap)).

Definition with_input_cache (d : setup) (p : option (list Z)) (cap : Z) : setup :=
  su_with_io d (io_with_cache (su_io d) (mk_cache p cap 0 0)).

(** The client's frames that wait for the converter of a playback device. *)
Definition setup_input_cache (os : dev_os) (d : setup) : devM (ma_result * setup) :=
  let '(sd, i, _) := get_side false d in
  let k := io_cache (su_io d) in
  let set := bool_decide (is_Some (pInputCache k)) in
  let* needed :=
    if decide (dev_type (su_dev d) = ma_device_type_duplex) then led_ret true
    else
      let* (result, _) := led_opt (ma_data_converter_get_required_input_frame_count (converter i) 1) in
      led_ret (negb (result =? MA_SUCCESS)) in
  if needed : bool
  then
    let newInputCacheCap :=
      ma_calculate_frame_count_after_resampling (internalSampleRate i) (su_sampleRate d)
        (internalPeriodSizeInFrames i) in
    let size := u64 (newInputCacheCap * ma_get_bytes_per_frame (side_format sd) (side_channels sd)) in
    if dos_alloc os InputCache size
    then
      release_if set InputCache;;
      acquire InputCache;;
      led_ret (MA_SUCCESS, with_input_cache d
                (Some (wr (zrep size 0) 0 (rd (default [] (pInputCache k)) 0 size))) newInputCacheCap)
    else
      release_if set InputCache;;
      led_ret (MA_OUT_OF_MEMORY, with_input_cache d None 0)
  else
    release_if set InputCache;;
    led_ret (MA_SUCCESS, with_input_cache d None 0).

(** A step for a direction the device has; [skip] when it has not. *)
Definition for_side (has : bool) (step : setup -> devM (ma_result * setup)) (d : setup)
    : devM (ma_result * setup) :=
  if has then step d else led_ret (MA_SUCCESS, d).

(** Goes on unless the result is an error. *)
Definition and_then {A} (m : devM (ma_result * A)) (f : A -> devM (ma_result * A)) : devM (ma_result * A) :=
  let* (result, d) := m in
  if negb (result =? MA_SUCCESS) then led_ret (result, d) else f d.

Definition ma_device__post_init_setup (os : dev_os) (d : setup) (deviceType : ma_device_type)
    : devM (ma_result * setup) :=
  let* d := led_opt (if device_captures deviceType then default_settings true d else Some d) in
  let* d := led_opt (if device_plays deviceType then default_settings false d else Some d) in
  let d :=
    if su_sampleRate d =? 0
    then su_with_rate d (if device_captures deviceType then internalSampleRate (io_capture (su_io d))
                         else internalSampleRate (io_playback (su_io d)))
    else d in
  and_then (and_then (for_side (device_captures deviceType) (setup_converter os true) d)
                     (for_side (device_plays deviceType) (setup_converter os false)))
           (for_side (device_plays deviceType) (setup_input_cache os)).

(** What the descriptor says goes into the internal members. *)
Definition set_internal (capture : bool) (d : setup) (dsc : ma_device_descriptor) : setup :=
  let '(sd, i, ss) := get_side capture d in
  let period :=
    if dsc_periodSizeInFrames dsc =? 0
    then ma_calculate_buffer_size_in_frames_from_milliseconds (dsc_periodSizeInMilliseconds dsc) (dsc_sampleRate dsc)
    else dsc_periodSizeInFrames dsc in
  set_side capture d sd
    (mk_io_side (dsc_format dsc) (dsc_channels dsc) (dsc_sampleRate dsc) period (converter i))
    (mk_setup_side (ss_pID ss) (ss_shareMode ss) (ss_channelMap ss) (ss_channelMixMode ss)
       (ss_calculateLFEFromSpatialChannels ss) (dsc_channelMap dsc) (dsc_periodCount dsc) (ss_heap ss) (ss_buffer ss)).

Definition post_init_side (has capture : bool) (pDescriptor : option ma_device_descriptor) (d : setup)
    : option setup :=
  if has
  then
    match pDescriptor with
    | Some dsc => if ma_device_descriptor_is_valid pDescriptor then Some (set_internal capture d dsc) else None
    | None => None
    end
  else Some d.

Definition ma_device_post_init (os : dev_os) (pDevice : option setup) (deviceType : ma_device_type)
    (pDescriptorPlayback pDescriptorCapture : option ma_device_descriptor) : devM (ma_result * option setup) :=
  match pDevice with
  | None => led_ret (MA_INVALID_ARGS, None)
  | Some d =>
      match post_init_side (device_captures deviceType) true pDescriptorCapture d with
      | None => led_ret (MA_INVALID_ARGS, Some d)
      | Some d =>
          match post_init_side (device_plays deviceType) false pDescriptorPlayback d with
          | None => led_ret (MA_INVALID_ARGS, Some d)
          | Some d =>
              let* (result, d) := ma_device__post_init_setup os d deviceType in
              led_ret (result, Some d)
          end
      end
  end.

(** ** [ma_device_init] *)

(** The functions of a backend; those the loops call are only tested for NULL here.
    [onDeviceInit] returns the descriptors as it leaves them, playback first. *)
Record ma_device_callbacks := mk_device_callbacks {
  onDeviceInit : option (ma_device_config -> ma_device_descriptor -> ma_device_descriptor ->
                         ma_result * ma_device_descriptor * ma_device_descriptor);
  onDeviceUninit : bool;
  hasDeviceRead : bool;
  hasDeviceWrite : bool;
  hasDeviceDataLoop : bool }.

Definition ma_context_is_backend_asynchronous (b : ma_device_callbacks) : bool :=
  if negb (hasDeviceRead b) && negb (hasDeviceWrite b) then negb (hasDeviceDataLoop b) else false.

(** The checks of one direction. *)
Definition side_config_valid (c : side_config) : bool :=
  if scf_channels c >? MA_MAX_CHANNELS then false
  else ma__is_channel_map_valid (scf_pChannelMap c) (scf_channels c).

(** The code checks the playback side, and only that, of a loopback device, which captures. *)
Definition config_valid (c : ma_device_config) : bool :=
  match dcf_deviceType c with
  | ma_device_type_capture => side_config_valid (dcf_capture c)
  | ma_device_type_duplex => side_config_valid (dcf_capture c) && side_config_valid (dcf_playback c)
  | ma_device_type_playback | ma_device_type_loopback => side_config_valid (dcf_playback c)
  end.

Definition config_side (capture : bool) (c : side_config) (d : setup) : option setup :=
  let '(sd, i, ss) := get_side capture d in
  option_map (fun m =>
    set_side capture d
      (mk_side (scf_format c) (scf_channels c) (pIntermediaryBuffer sd) (intermediaryBufferCap sd)
         (intermediaryBufferLen sd)) i
      (mk_setup_side (scf_pDeviceID c) (scf_shareMode c) m (scf_channelMixMode c)
         (scf_calculateLFEFromSpatialChannels c) (ss_internalChannelMap ss) (ss_internalPeriods ss)
         (ss_heap ss) (ss_buffer ss)))
    (copy_map_or_default (ss_channelMap ss) (scf_pChannelMap c) (scf_channels c)).

(** The members the configuration sets in a zeroed device. *)
Definition config_device (null : S) (c : ma_device_config) : option setup :=
  let d := setup_zero null in
  let v := su_dev d in
  let v := mk_ma_device S (dcf_deviceType c) (dev_state v) (dcf_noPreSilencedOutputBuffer c) (dcf_noClip c)
             (dcf_noFixedSizedCallback c) f32_one (dev_capture v) (dev_playback v) (dcf_pUserData c) in
  let d := mk_setup (io_with_dev (su_io d) v) (dcf_dataCallback c) (dcf_sampleRate c) (dcf_algorithm c)
             (dcf_lpfOrder c) (dcf_pBackendVTable c) (su_capture d) (su_playback d) false in
  option_bind _ _ (config_side false (dcf_playback c)) (config_side true (dcf_capture c) d).

(** What the backend is asked for. *)
Definition config_descriptor (c : ma_device_config) (s : side_config) : option ma_device_descriptor :=
  option_map (fun m =>
    mk_descriptor (scf_pDeviceID s) (scf_shareMode s) (scf_format s) (scf_channels s) (dcf_sampleRate c) m
      (dcf_periodSizeInFrames c) (dcf_periodSizeInMilliseconds c)
      (if dcf_periods c =? 0 then MA_DEFAULT_PERIODS else dcf_periods c))
    (copy_map_or_default no_map (scf_pChannelMap s) (scf_channels s)).

(** The lock and the events; a failure undoes the ones before it. *)
Definition init_sync (os : dev_os) : devM ma_result :=
  let failed r undo := undo;; led_ret r in
  let result := dos_mutex_init os in
  if negb (result =? MA_SUCCESS) then led_ret result
  else
    acquire StartStopLock;;
    let result := dos_event_init os WakeupEvent in
    if negb (result =? MA_SUCCESS) then failed result (release StartStopLock)
    else
      acquire WakeupEvent;;
      let result := dos_event_init os StartEvent in
      if negb (result =? MA_SUCCESS) then failed result (release WakeupEvent;; release StartStopLock)
      else
        acquire StartEvent;;
        let result := dos_event_init os StopEvent in
        if negb (result =? MA_SUCCESS)
        then failed result (release StartEvent;; release WakeupEvent;; release StartStopLock)
        else acquire StopEvent;; led_ret MA_SUCCESS.

Definition buffer_resource (capture : bool) : dev_resource := if capture then CaptureBuffer else PlaybackBuffer.

(** Allocates and silences one intermediary buffer of [cap] frames.  The size given to the
    allocator is a product of 32-bit integers, what is silenced a product of 64-bit ones:
    silencing more than was allocated is undefined. *)
Definition init_buffer (os : dev_os) (capture : bool) (cap : Z) (d : setup) : devM (ma_result * setup) :=
  let '(sd, i, ss) := get_side capture d in
  let bpf := ma_get_bytes_per_frame (side_format sd) (side_channels sd) in
  let size := u32 (cap * bpf) in
  let which := buffer_resource capture in
  if dos_alloc os which size
  then
    acquire which;;
    if u64 (cap * bpf) >? size then None
    else
      led_ret (MA_SUCCESS,
        set_side capture d
          (mk_side (side_format sd) (side_channels sd)
             (ma_silence_pcm_frames (zrep size 0) 0 cap (side_format sd) (side_channels sd)) cap
             (if capture then cap else 0)) i (ss_with_buffer ss true))
  else
    led_ret (MA_OUT_OF_MEMORY,
      set_side capture d
        (mk_side (side_format sd) (side_channels sd) (pIntermediaryBuffer sd) cap 0) i (ss_with_buffer ss false)).

(** The number of frames of a buffer. *)
Definition buffer_cap (cap : Z) (i : @io_side C) : Z := if cap =? 0 then internalPeriodSizeInFrames i else cap.

Definition init_buffers (os : dev_os) (c : ma_device_config) (d : setup) : devM (ma_result * setup) :=
  if dcf_noFixedSizedCallback c then led_ret (MA_SUCCESS, d)
  else
    let cap :=
      if dcf_periodSizeInFrames c =? 0
      then ma_calculate_buffer_size_in_frames_from_milliseconds (dcf_periodSizeInMilliseconds c) (su_sampleRate d)
      else dcf_periodSizeInFrames c in
    let ty := dcf_deviceType c in
    and_then
      (for_side (device_captures ty)
         (fun d => init_buffer os true (buffer_cap cap (io_capture (su_io d))) d) d)
      (for_side (device_plays ty)
         (fun d => init_buffer os false
            (if decide (ty = ma_device_type_duplex) then intermediaryBufferCap (dev_capture (su_dev d))
             else buffer_cap cap (io_playback (su_io d))) d)).

(** The beginning of [ma_worker_thread]: it puts the device in its stopped state and
    signals [stopEvent], which [ma_device_init] waits for. *)
Definition worker_thread_entry (d : setup) : setup := ma_device__set_state d ma_device_state_stopped.

(** The worker thread, or the ring of a duplex device of an asynchronous backend. *)
Definition init_thread (os : dev_os) (async : bool) (c : ma_device_config) (d : setup) : devM (ma_result * setup) :=
  if negb async
  then
    if negb (dos_thread_create os =? MA_SUCCESS) then led_ret (dos_thread_create os, d)
    else acquire WorkerThread;; led_ret (MA_SUCCESS, worker_thread_entry d)
  else
    let stopped d := led_ret (MA_SUCCESS, ma_device__set_state d ma_device_state_stopped) in
    if decide (dcf_deviceType c = ma_device_type_duplex)
    then
      let '(sd, i, _) := get_side true d in
      let '(result, rb) :=
        ma_duplex_rb_init (dos_alloc os DuplexRing) (side_format sd) (side_channels sd) (su_sampleRate d)
          (internalSampleRate i) (internalPeriodSizeInFrames i) None (io_rb (su_io d)) in
      let d := su_with_io d (io_with_rb (su_io d) rb) in
      if negb (result =? MA_SUCCESS) then led_ret (result, d)
      else acquire DuplexRing;; stopped d
    else stopped d.

Definition ma_device__is_initialized (pDevice : option setup) : bool :=
  match pDevice with
  | None => false
  | Some d => bool_decide (dev_state (su_dev d) <> ma_device_state_uninitialized)
  end.

(** The context's resources among the device's. *)
Definition of_context {A} (m : ctxM A) : devM A := led_map OfContext m.

Definition ma_device_uninit (ctx : ma_context I ma_device_callbacks) (null : S) (pDevice : option setup)
    : devM (option setup) :=
  let b := deviceCallbacks (ctx_callbacks ctx) in
  match pDevice with
  | None => led_ret None
  | Some d =>
      if negb (ma_device__is_initialized pDevice) then led_ret pDevice
      else
        let d := ma_device__set_state d ma_device_state_uninitialized in
        let async := ma_context_is_backend_asynchronous b in
        let ty := dev_type (su_dev d) in
        release_if (negb async) WorkerThread;;
        release_if (onDeviceUninit b) BackendDevice;;
        release StopEvent;;
        release StartEvent;;
        release WakeupEvent;;
        release StartStopLock;;
        release_if (async && bool_decide (ty = ma_device_type_duplex)) DuplexRing;;
        (if device_captures ty
         then ma_data_converter_uninit CaptureConverter (converter (io_capture (su_io d))) (ss_heap (su_capture d))
         else led_ret tt);;
        (if device_plays ty
         then ma_data_converter_uninit PlaybackConverter (converter (io_playback (su_io d))) (ss_heap (su_playback d))
         else led_ret tt);;
        release_if (bool_decide (is_Some (pInputCache (io_cache (su_io d))))) InputCache;;
        release_if (ss_buffer (su_capture d)) CaptureBuffer;;
        release_if (ss_buffer (su_playback d)) PlaybackBuffer;;
        (if su_isOwnerOfContext d then let* _ := of_context (ma_context_uninit (Some ctx)) in release ContextMemory
         else led_ret tt);;
        led_ret (Some (setup_zero null))
  end.

(** [if (result != MA_SUCCESS) { ma_device_uninit(pDevice); return result; }] *)
Definition or_uninit (ctx : ma_context I ma_device_callbacks) (null : S) (m : devM (ma_result * setup))
    (f : setup -> devM (ma_result * setup)) : devM (ma_result * setup) :=
  let* (result, d) := m in
  if negb (result =? MA_SUCCESS)
  then let* d' := ma_device_uninit ctx null (Some d) in led_ret (result, default d d')
  else f d.

(** From the call of [onDeviceInit] on. *)
Definition init_backend_device (os : dev_os) (ctx : ma_context I ma_device_callbacks) (null : S) (c : ma_device_config)
    (onInit : ma_device_config -> ma_device_descriptor -> ma_device_descriptor ->
              ma_result * ma_device_descriptor * ma_device_descriptor) (d : setup)
    : devM (ma_result * setup) :=
  let* playback := led_opt (config_descriptor c (dcf_playback c)) in
  let* capture := led_opt (config_descriptor c (dcf_capture c)) in
  let '(result, playback, capture) := onInit c playback capture in
  if negb (result =? MA_SUCCESS)
  then release StartEvent;; release WakeupEvent;; release StartStopLock;; led_ret (result, d)
  else
    acquire BackendDevice;;
    let post_init d :=
      let* (result, d') := ma_device_post_init os (Some d) (dcf_deviceType c) (Some playback) (Some capture) in
      led_ret (result, default d d') in
    or_uninit ctx null (post_init d) (fun d =>
    or_uninit ctx null (init_buffers os c d) (fun d =>
    or_uninit ctx null (init_thread os (ma_context_is_backend_asynchronous (deviceCallbacks (ctx_callbacks ctx))) c d) (fun d =>
    led_ret (MA_SUCCESS, d)))).

(** [pContext] and [pDevice] are not NULL ([ma_device_init_ex] is the other case).  The
    device that is returned is what [*pDevice] then holds. *)
Definition ma_device_init (os : dev_os) (ctx : ma_context I ma_device_callbacks) (null : S) (pConfig : option ma_device_config)
    : devM (ma_result * setup) :=
  let zero := setup_zero null in
  match pConfig with
  | None => led_ret (MA_INVALID_ARGS, zero)
  | Some c =>
      match onDeviceInit (deviceCallbacks (ctx_callbacks ctx)) with
      | None => led_ret (MA_INVALID_OPERATION, zero)
      | Some onInit =>
          if negb (config_valid c) then led_ret (MA_INVALID_ARGS, zero)
          else
            let* d := led_opt (config_device null c) in
            let* result := init_sync os in
            if negb (result =? MA_SUCCESS) then led_ret (result, d)
            else init_backend_device os ctx null c onInit d
      end
  end.
(** ** With a context of its own

    [ma_device_init] without a context: backends are tried one after another, each with a
    new context.  [os n] answers for the [n]th attempt. *)

Fixpoint init_ex_loop (os : nat -> dev_os) (cos : ctx_os)
    (onContextInit : ma_backend -> option (ma_result * ma_backend_callbacks I ma_device_callbacks))
    (callbacks : option ma_allocation_callbacks) (hasLog : bool) (null : S) (c : ma_device_config)
    (n : nat) (l : list ma_backend) (result : ma_result) (d : setup)
    : devM (ma_result * setup * option (ma_context I ma_device_callbacks)) :=
  match l with
  | [] => led_ret (result, d, None)
  | backend :: l =>
      let next := init_ex_loop os cos onContextInit callbacks hasLog null c (Datatypes.S n) l in
      let* (result, found) :=
        of_context (ma_context_init cos onContextInit (Some [backend]) callbacks hasLog true) in
      match found with
      | Some ctx =>
          if negb (result =? MA_SUCCESS) then next result d
          else
            let* (result, d) := ma_device_init (os n) ctx null (Some c) in
            if result =? MA_SUCCESS then led_ret (result, d, Some ctx)
            else
              let* _ := of_context (ma_context_uninit (Some ctx)) in
              next result d
      | None => next result d
      end
  end.

(** [alloc] is whether there is memory for the context. *)
Definition ma_device_init_ex (os : nat -> dev_os) (cos : ctx_os)
    (onContextInit : ma_backend -> option (ma_result * ma_backend_callbacks I ma_device_callbacks))
    (alloc : bool) (backends : option (list ma_backend)) (callbacks : option ma_allocation_callbacks)
    (hasLog : bool) (null : S) (pConfig : option ma_device_config) (d : setup)
    : devM (ma_result * setup * option (ma_context I ma_device_callbacks)) :=
  match pConfig with
  | None => led_ret (MA_INVALID_ARGS, d, None)
  | Some c =>
      let '(result, _) := ma_allocation_callbacks_init_copy callbacks in
      if negb (result =? MA_SUCCESS) then led_ret (result, d, None)
      else if negb alloc then led_ret (MA_OUT_OF_MEMORY, d, None)
      else
        acquire ContextMemory;;
        let* (result, d, found) :=
          init_ex_loop os cos onContextInit callbacks hasLog null c 0 (default all_backends backends) MA_NO_BACKEND d in
        if negb (result =? MA_SUCCESS) then release ContextMemory;; led_ret (result, d, None)
        else led_ret (result, su_with_owner d, found)
  end.
End setup.
