(* ===== verification/DeviceSetupProps.v ===== *)
(** * What device initialisation guarantees

    A device that is initialised is stopped, holds exactly what its members say, which
    [ma_device_uninit] releases, and is in the state that data delivery assumes.  When
    initialisation fails part of what was acquired is kept. *)
From Stdlib Require Import ZArith Lia Bool SpecFloat Permutation.
From stdpp Require Import base numbers list option.
From S2P Require Import Prelude MaTypes CFloat Ring PcmRing PcmFormat ChannelMap Biquad LowPass LinearResampler ChannelConverter Resampler DataConverter ChannelConverterProps DataConverterProps DeviceData DeviceDataProps DeviceIO Ledger Context ContextProps DeviceSetup.

Local Open Scope Z_scope.
Local Open Scope led_scope.

Section setup_props.
Context (lm : libm) {C S I : Type}.
Implicit Types (d : @setup C S) (ctx : ma_context I (@ma_device_callbacks C S)).

(** ** What a device holds *)

Abbreviation async ctx := (ma_context_is_backend_asynchronous (deviceCallbacks (ctx_callbacks ctx))).
Abbreviation state d := (dev_state (su_dev d)).
Abbreviation type d := (dev_type (su_dev d)).

(** A converter's block, by direction. *)
Definition converter_held (capture : bool) d : list dev_resource :=
  let '(_, i, ss) := get_side capture d in
  if dc_ownsHeap (converter i) && ss_heap ss then [converter_resource capture] else [].

Definition buffer_held (capture : bool) d : list dev_resource :=
  let '(_, _, ss) := get_side capture d in if ss_buffer ss then [buffer_resource capture] else [].

Definition cache_held d : list dev_resource :=
  if bool_decide (is_Some (pInputCache (io_cache (su_io d)))) then [InputCache] else [].

Definition data_held d : list dev_resource :=
  converter_held true d ++ converter_held false d ++ cache_held d ++ buffer_held true d ++ buffer_held false d.

Definition sync_held : list dev_resource := [StopEvent; StartEvent; WakeupEvent; StartStopLock].

Definition thread_held ctx d : list dev_resource :=
  if async ctx then if bool_decide (type d = ma_device_type_duplex) then [DuplexRing] else []
  else [WorkerThread].

(** What an initialised device holds. *)
Definition dev_owned ctx d : list dev_resource :=
  thread_held ctx d ++ [BackendDevice] ++ sync_held ++ data_held d.

(** Only the directions of the device's type have converters. *)
Definition sides_match d : Prop :=
  (device_captures (type d) = false -> converter_held true d = [])
  /\ (device_plays (type d) = false -> converter_held false d = []).

Ltac perm := rewrite ?app_nil_r; cbn [app]; solve [reflexivity | solve_Permutation].

Lemma perm_two {A} (a b c f : list A) : a ++ b ++ c ++ f ≡ₚ c ++ b ++ a ++ f.
Proof. solve_Permutation. Qed.

Lemma perm_first {A} (a b c f : list A) : a ++ b ++ c ++ f ≡ₚ (b ++ a ++ c) ++ f.
Proof. solve_Permutation. Qed.

Lemma perm_skip_mid {A} (a b f : list A) : a ++ b ++ f ≡ₚ b ++ a ++ f.
Proof. solve_Permutation. Qed.

Lemma perm_owned {A} (a b c x y f : list A) z :
  x ++ y ++ (a ++ b ++ c) ++ z :: f ≡ₚ [z] ++ f ++ a ++ b ++ c ++ x ++ y.
Proof. solve_Permutation. Qed.

Lemma perm_three {A} (a b c f : list A) : a ++ b ++ c ++ f ≡ₚ (b ++ c ++ a) ++ f.
Proof. solve_Permutation. Qed.

(** ** Release *)

Lemma converter_uninit_wp capture d h f (Q : unit -> list dev_resource -> Prop) :
  let '(_, i, ss) := get_side capture d in
  h ≡ₚ converter_held capture d ++ f -> (forall g, g ≡ₚ f -> Q tt g) ->
  led_wp (ma_data_converter_uninit (converter_resource capture) (converter i) (ss_heap ss)) h Q.
Proof.
  unfold converter_held. destruct (get_side capture d) as [[sd i] ss]. intros P HQ.
  unfold ma_data_converter_uninit. by eapply wp_release_if.
Qed.

Lemma device_uninit_releases ctx null d :
  state d <> ma_device_state_uninitialized -> su_isOwnerOfContext d = false -> sides_match d ->
  onDeviceUninit (deviceCallbacks (ctx_callbacks ctx)) = true ->
  runs_to (ma_device_uninit ctx null (Some d)) (Some (setup_zero null)) (dev_owned ctx d) [].
Proof.
  intros Hs Ho [Hc Hp] Hu.
  eapply (runs_held_ext _ _
    ((if negb (async ctx) then [WorkerThread] else []) ++ BackendDevice :: StopEvent :: StartEvent :: WakeupEvent
      :: StartStopLock :: (if async ctx && bool_decide (type d = ma_device_type_duplex) then [DuplexRing] else [])
      ++ data_held d) _ [] []); [|done|].
  { unfold dev_owned, thread_held, sync_held. destruct (async ctx); cbn [negb andb app]; [|done].
    rewrite <- !Permutation_middle. done. }
  unfold ma_device_uninit, ma_device__is_initialized. rewrite bool_decide_eq_true_2 by done. cbn [negb].
  rewrite Hu. change (dev_type (su_dev (ma_device__set_state d _))) with (type d).
  change (su_isOwnerOfContext (ma_device__set_state d _)) with (su_isOwnerOfContext d). rewrite Ho.
  eapply runs_bind; [by apply runs_release_if|].
  do 5 (eapply runs_bind; [apply runs_release_head|]).
  eapply runs_bind; [by apply runs_release_if|]. unfold data_held, ma_data_converter_uninit.
  eapply runs_bind.
  { instantiate (1 := converter_held false d ++ cache_held d ++ buffer_held true d ++ buffer_held false d).
    destruct (device_captures (type d)) eqn:E; [by apply runs_release_if|].
    rewrite Hc by done. by apply runs_ret. }
  eapply runs_bind.
  { instantiate (1 := cache_held d ++ buffer_held true d ++ buffer_held false d).
    destruct (device_plays (type d)) eqn:E; [by apply runs_release_if|].
    rewrite Hp by done. by apply runs_ret. }
  eapply runs_bind; [by apply runs_release_if|]. eapply runs_bind; [by apply runs_release_if|].
  eapply runs_bind; [by apply runs_release_if; rewrite app_nil_r|].
  eapply runs_bind; by apply runs_ret.
Qed.

(** ** The converters *)

(** What initialisation made of a configuration. *)
Definition converter_made (cfg : ma_data_converter_config C) (c : ma_data_converter C) : Prop :=
  exists c0, ma_data_converter_init_preallocated lm (Some cfg) = Some (MA_SUCCESS, c0) /\ c = dc_with_ownsHeap c0.

Lemma init_converter_wp os which cfg before heap h (Q : ma_result * ma_data_converter C * bool -> list dev_resource -> Prop) :
  (forall r c hp g,
     (r = MA_SUCCESS -> converter_made cfg c) ->
     g ≡ₚ (if (r =? MA_SUCCESS) && (dc_ownsHeap c && hp) then [which] else []) ++ h -> Q (r, c, hp) g) ->
  led_wp (init_converter lm os which cfg before heap) h Q.
Proof.
  intros HQ. unfold init_converter, ma_data_converter_init.
  destruct (ma_data_converter_get_heap_size lm (Some cfg)) as [result size].
  destruct (Z.eqb_spec result MA_SUCCESS) as [-> |N]; cbn [negb orb].
  - destruct ((size >? 0) && negb (dos_alloc os which size)) eqn:E.
    { apply wp_bind, wp_opt. intros [r c] [= <- <-]. apply wp_ret, HQ; [done|]. done. }
    apply wp_bind, wp_opt. intros [r c].
    destruct (ma_data_converter_init_preallocated lm (Some cfg)) as [[r0 c0]|] eqn:E0; [|done].
    cbn [option_map]. destruct (Z.eqb_spec r0 MA_SUCCESS) as [-> |N0]; intros [= <- <-].
    + rewrite Z.eqb_refl. apply wp_bind. destruct (size >? 0) eqn:Es; cbn [andb].
      * apply wp_acquire, wp_bind, wp_ret, wp_ret, HQ; [by exists c0|]. done.
      * apply wp_ret, wp_bind, wp_ret, wp_ret, HQ; [by exists c0|]. done.
    + rewrite (proj2 (Z.eqb_neq _ _) N0). apply wp_bind. destruct (size >? 0) eqn:Es; cbn [andb].
      * apply wp_acquire, wp_bind. apply (wp_release_if true _ _ h); [done|]. intros g Pg.
        apply wp_ret, HQ; [done|]. by rewrite (proj2 (Z.eqb_neq _ _) N0).
      * apply wp_ret, wp_bind, wp_ret, wp_ret, HQ; [done|]. by rewrite (proj2 (Z.eqb_neq _ _) N0).
  - apply wp_bind, wp_opt. intros [r c] [= <- <-]. apply wp_ret, HQ; [done|].
    by rewrite (proj2 (Z.eqb_neq _ _) N).
Qed.

(** [d'] is [d] with another converter. *)
Definition new_converter (capture : bool) d d' : Prop :=
  let '(sd, i, ss) := get_side capture d in
  exists c heap, d' = set_side capture d sd (side_with_converter i c) (ss_with_heap ss heap).

Lemma get_set_side capture d sd i ss : get_side capture (set_side capture d sd i ss) = (sd, i, ss).
Proof. by destruct capture. Qed.

Lemma setup_converter_wp os (capture : bool) d h f (Q : ma_result * setup -> list dev_resource -> Prop) :
  h ≡ₚ converter_held capture d ++ f ->
  (state d = ma_device_state_uninitialized -> converter_held capture d = []) ->
  (forall r d' g, new_converter capture d d' ->
     (r = MA_SUCCESS -> converter_made (converter_config capture d) (converter (get_side capture d').1.2)) ->
     g ≡ₚ (if r =? MA_SUCCESS then converter_held capture d' else []) ++ f -> Q (r, d') g) ->
  led_wp (setup_converter lm os capture d) h Q.
Proof.
  intros P Hu HQ. unfold setup_converter, converter_held, new_converter in *.
  destruct (get_side capture d) as [[sd i] ss]. apply wp_bind.
  assert (K : forall g, g ≡ₚ f ->
    led_wp (let* (result, c, heap) := init_converter lm os (converter_resource capture) (converter_config capture d)
              (converter i) (ss_heap ss) in
            led_ret (result, set_side capture d sd (side_with_converter i c) (ss_with_heap ss heap))) g Q).
  { intros g Pg. apply wp_bind, init_converter_wp. intros r c hp g' Hmade Pg'. apply wp_ret, HQ.
    - by exists c, hp.
    - by rewrite get_set_side.
    - rewrite get_set_side. rewrite Pg', Pg. by destruct (r =? MA_SUCCESS). }
  destruct (decide (state d = ma_device_state_uninitialized)) as [E|E].
  - apply wp_ret, K. by rewrite P, Hu.
  - by eapply wp_release_if, K.
Qed.

(** ** What the steps leave alone *)

(** Everything that the steps after the backend's do not change. *)
Definition rest d :=
  let v := su_dev d in
  (dev_state v, dev_type v, su_isOwnerOfContext d, su_onData d, dev_client v, masterVolumeFactor v,
   (noPreSilencedOutputBuffer v, noClip v, noFixedSizedCallback v)).

(** The intermediary buffers. *)
Definition buffers d :=
  let buf (sd : device_side) (ss : setup_side) :=
    (pIntermediaryBuffer sd, intermediaryBufferCap sd, intermediaryBufferLen sd, ss_buffer ss) in
  (buf (dev_capture (su_dev d)) (su_capture d), buf (dev_playback (su_dev d)) (su_playback d)).

Definition setup_cache d := io_cache (su_io d).

(** The client's and the device's format of one direction. *)
Definition formats (capture : bool) d :=
  let '(sd, i, _) := get_side capture d in
  (side_format sd, side_channels sd, (internalFormat i, internalChannels i, internalSampleRate i), su_sampleRate d).

Definition side_converter (capture : bool) d : ma_data_converter C := converter (get_side capture d).1.2.

(** The converter of a direction is one for its formats. *)
Definition converter_fits (capture : bool) d : Prop :=
  converter_made (converter_config capture d) (side_converter capture d).

Lemma new_converter_facts capture d d' :
  new_converter capture d d' ->
  rest d' = rest d /\ buffers d' = buffers d /\ setup_cache d' = setup_cache d
  /\ (forall k, formats k d' = formats k d) /\ (forall k, converter_config k d' = converter_config k d)
  /\ converter_held (negb capture) d' = converter_held (negb capture) d
  /\ side_converter (negb capture) d' = side_converter (negb capture) d.
Proof.
  unfold new_converter. destruct capture; cbn; intros (c & hp & ->);
    (split; [done|]; split; [done|]; split; [done|]; split; [by intros []|]; split; [by intros []|done]).
Qed.

Definition new_cache d d' : Prop := exists p n, d' = with_input_cache d p n.

Lemma new_cache_facts d d' :
  new_cache d d' ->
  rest d' = rest d /\ buffers d' = buffers d /\ (forall k, formats k d' = formats k d)
  /\ (forall k, converter_config k d' = converter_config k d)
  /\ (forall k, converter_held k d' = converter_held k d) /\ (forall k, side_converter k d' = side_converter k d).
Proof. intros (p & n & ->). do 2 (split; [done|]). repeat split; by intros []. Qed.

Lemma setup_input_cache_wp os d h f (Q : ma_result * setup -> list dev_resource -> Prop) :
  h ≡ₚ cache_held d ++ f ->
  (forall r d' g, new_cache d d' -> g ≡ₚ cache_held d' ++ f ->
     (type d <> ma_device_type_duplex -> forall n,
        ma_data_converter_get_required_input_frame_count (side_converter false d) 1 = Some (MA_SUCCESS, n) ->
        r = MA_SUCCESS /\ pInputCache (setup_cache d') = None) ->
     Q (r, d') g) ->
  led_wp (setup_input_cache os d) h Q.
Proof.
  intros P HQ. unfold setup_input_cache, side_converter, cache_held, setup_cache in *.
  destruct (get_side false d) as [[sd i] ss]. cbn [fst snd] in HQ.
  apply (wp_bind _ _ _ _). apply (wp_mono _ _ (fun needed g => g = h /\
    (type d <> ma_device_type_duplex -> forall n,
       ma_data_converter_get_required_input_frame_count (converter i) 1 = Some (MA_SUCCESS, n) -> needed = false))).
  { destruct (decide (type d = ma_device_type_duplex)) as [Et|Et]; [by apply wp_ret|].
    apply wp_bind, wp_opt. intros [r n] E. apply wp_ret. split; [done|]. intros _ n'. rewrite E.
    intros [= -> _]. done. }
  intros needed t g _ [-> Hn]. destruct needed.
  - destruct (dos_alloc os InputCache _).
    + apply wp_bind. eapply wp_release_if; [exact P|]. intros g Pg.
      apply wp_bind, wp_acquire, wp_ret, HQ; [by eexists _, _|cbn; by rewrite Pg|].
      intros Ht n E. by specialize (Hn Ht n E).
    + apply wp_bind. eapply wp_release_if; [exact P|]. intros g Pg.
      apply wp_ret, HQ; [by eexists _, _|done|]. intros Ht n E. by specialize (Hn Ht n E).
  - apply wp_bind. eapply wp_release_if; [exact P|]. intros g Pg. apply wp_ret, HQ; [by eexists _, _|done|done].
Qed.

(** ** Channel maps *)

Lemma zlen_rd_le {A} (m : list A) off n : 0 <= n -> zlen (rd m off n) <= n.
Proof. unfold zlen, rd. rewrite length_take. lia. Qed.

Lemma init_standard_loop_len n map : forall m cap channels i,
  0 <= i -> i + cap <= zlen m -> 0 <= cap -> zlen (init_standard_loop n map m cap channels i) = zlen m.
Proof.
  induction n as [|n IH]; intros m cap channels i Hi Hc H0; [done|]. cbn [init_standard_loop].
  destruct (Z.eqb_spec cap 0); [done|].
  assert (E : forall x, zlen (wr m i [x]) = zlen m) by (intros x; apply zlen_wr; [done|change (zlen [x]) with 1; lia]).
  rewrite IH by (rewrite ?E; lia). apply E.
Qed.

Lemma init_standard_len map m channels :
  zlen m = MA_MAX_CHANNELS -> zlen (ma_channel_map_init_standard map m MA_MAX_CHANNELS channels) = MA_MAX_CHANNELS.
Proof.
  intros Hm. unfold ma_channel_map_init_standard. destruct (_ || _); [done|].
  rewrite init_standard_loop_len; [done|done|lia|done].
Qed.

Lemma copy_map_len m p channels m' :
  zlen m = MA_MAX_CHANNELS -> copy_map m p channels = Some m' -> zlen m' = MA_MAX_CHANNELS.
Proof.
  intros Hm. unfold copy_map, map_fits, ma_channel_map_copy. destruct p as [l|]; [|by intros [= <-]].
  destruct (Z.gtb_spec channels MA_MAX_CHANNELS); [done|]. intros [= <-].
  destruct (Z.gtb_spec channels 0); [|done]. rewrite zlen_wr; [done|done|].
  pose proof (zlen_rd_le l 0 channels). lia.
Qed.

Lemma copy_map_or_default_len m p channels m' :
  zlen m = MA_MAX_CHANNELS -> copy_map_or_default m p channels = Some m' -> zlen m' = MA_MAX_CHANNELS.
Proof.
  intros Hm. unfold copy_map_or_default, ma_channel_map_copy_or_default. destruct p as [l|].
  - unfold map_fits. destruct (Z.gtb_spec channels MA_MAX_CHANNELS); [done|]. intros [= <-].
    destruct (channels =? 0); [done|]. unfold ma_channel_map_copy.
    destruct (Z.gtb_spec channels 0); [|done]. rewrite zlen_wr; [done|done|].
    pose proof (zlen_rd_le l 0 channels). lia.
  - intros [= <-]. destruct (channels =? 0); [done|]. by apply init_standard_len.
Qed.

(** The arrays of a direction keep their size. *)
Definition maps_full (k : bool) d : Prop :=
  let '(_, _, ss) := get_side k d in
  zlen (ss_channelMap ss) = MA_MAX_CHANNELS /\ zlen (ss_internalChannelMap ss) = MA_MAX_CHANNELS.

Lemma default_settings_maps capture d d' :
  default_settings capture d = Some d' -> forall k, maps_full k d -> maps_full k d'.
Proof.
  unfold default_settings. destruct (get_side capture d) as [[sd i] ss] eqn:E.
  set (channels := if side_channels sd =? 0 then _ else _).
  intros (m & Em & ->)%fmap_Some k H. destruct (Bool.eqb_spec k capture) as [->|N].
  - unfold maps_full in *. rewrite get_set_side, E in *. cbn. destruct H as [H1 H2]. split; [|done]. revert Em.
    destruct (nth 0 (ss_channelMap ss) 0 =? MA_CHANNEL_NONE); [|by intros [= <-]].
    destruct (internalChannels i =? channels); [by apply copy_map_len|].
    destruct (decide _); [|intros [= <-]; by apply init_standard_len].
    unfold map_fits. destruct (Z.gtb_spec channels MA_MAX_CHANNELS); [done|]. intros [= <-].
    unfold ma_channel_map_init_blank. rewrite zlen_wr; [done|done|].
    unfold zrep, zlen at 1. rewrite length_replicate. unfold MA_MAX_CHANNELS in *. lia.
  - by destruct k, capture.
Qed.

(** A converter's configuration is in order when its formats are. *)
Lemma converter_config_ok k d :
  maps_full k d ->
  let '(f, n, (fi, ni, _), _) := formats k d in
  f <> ma_format_unknown -> fi <> ma_format_unknown -> 0 <= n <= MA_MAX_CHANNELS -> 0 <= ni <= MA_MAX_CHANNELS ->
  dcc_ok (converter_config k d).
Proof.
  unfold maps_full, formats, converter_config. destruct (get_side k d) as [[sd i] ss]. intros [H1 H2] Hf Hfi Hn Hni.
  unfold dcc_ok. destruct k; cbn; split_and!; try (done || lia); apply zlen_rd; lia.
Qed.

(** ** [ma_device__post_init_setup] *)

Lemma and_then_wp {A} (m : devM (ma_result * A)) f h (Q : ma_result * A -> list dev_resource -> Prop) :
  led_wp m h (fun x g => if x.1 =? MA_SUCCESS then led_wp (f x.2) g Q else Q x g) ->
  led_wp (and_then m f) h Q.
Proof.
  intros H. apply wp_bind. eapply wp_mono; [exact H|]. intros [r d] t g _. cbn.
  destruct (r =? MA_SUCCESS); cbn; [done|]. intros HQ. by apply wp_ret.
Qed.

(** The client's open settings filled in. *)
Definition defaulted (x : ma_format * Z * (ma_format * Z * Z) * Z) :=
  let '(f, n, (fi, ni, ri), rate) := x in
  (if decide (f = ma_format_unknown) then fi else f, if n =? 0 then ni else n, (fi, ni, ri), rate).

Lemma defaulted_internal x : (defaulted x).1.2 = x.1.2.
Proof. by destruct x as [[[? ?] [[? ?] ?]] ?]. Qed.

Lemma default_settings_facts (capture : bool) d d' :
  default_settings capture d = Some d' ->
  rest d' = rest d /\ buffers d' = buffers d /\ setup_cache d' = setup_cache d /\ su_sampleRate d' = su_sampleRate d
  /\ (forall k, converter_held k d' = converter_held k d)
  /\ forall k, formats k d' = if Bool.eqb k capture then defaulted (formats k d) else formats k d.
Proof.
  unfold default_settings. destruct (get_side capture d) as [[sd i] ss] eqn:E.
  set (m := if _ =? MA_CHANNEL_NONE then _ else _). destruct m as [m|]; [|done].
  cbn [option_map]. intros [= <-].
  destruct capture; cbn in E; injection E as <- <- <-;
    (do 4 (split; [done|])); (split; [by intros []|]); intros []; done.
Qed.

Definition has_side (capture : bool) (ty : ma_device_type) : bool :=
  if capture then device_captures ty else device_plays ty.

Definition chosen_rate (ty : ma_device_type) d : Z :=
  if su_sampleRate d =? 0
  then internalSampleRate (if device_captures ty then io_capture (su_io d) else io_playback (su_io d))
  else su_sampleRate d.

(** The formats that a device ends up with. *)
Definition settled (ty : ma_device_type) (capture : bool) d :=
  let '(f, n, internal, _) := if has_side capture ty then defaulted (formats capture d) else formats capture d in
  (f, n, internal, chosen_rate ty d).

Lemma defaults_side (has capture : bool) d d' :
  (if has then default_settings capture d else Some d) = Some d' ->
  rest d' = rest d /\ buffers d' = buffers d /\ setup_cache d' = setup_cache d /\ su_sampleRate d' = su_sampleRate d
  /\ (forall k, converter_held k d' = converter_held k d)
  /\ forall k, formats k d' = if has && Bool.eqb k capture then defaulted (formats k d) else formats k d.
Proof. destruct has; [apply default_settings_facts|]. by intros [= <-]. Qed.

Lemma with_rate_formats d rate k :
  formats k (su_with_rate d rate) = let '(f, n, internal, _) := formats k d in (f, n, internal, rate).
Proof. by destruct k. Qed.

(** Before the converters are made. *)
Lemma settle_facts ty d d1 d2 :
  (if device_captures ty then default_settings true d else Some d) = Some d1 ->
  (if device_plays ty then default_settings false d1 else Some d1) = Some d2 ->
  let d3 :=
    if su_sampleRate d2 =? 0
    then su_with_rate d2 (if device_captures ty then internalSampleRate (io_capture (su_io d2))
                          else internalSampleRate (io_playback (su_io d2)))
    else d2 in
  rest d3 = rest d /\ buffers d3 = buffers d /\ setup_cache d3 = setup_cache d
  /\ (forall k, converter_held k d3 = converter_held k d) /\ (forall k, formats k d3 = settled ty k d)
  /\ forall k, maps_full k d -> maps_full k d3.
Proof.
  intros E1 E2.
  assert (M2 : forall k, maps_full k d -> maps_full k d2).
  { intros k M. assert (M1 : maps_full k d1).
    { destruct (device_captures ty); [by eapply default_settings_maps|]. by injection E1 as <-. }
    destruct (device_plays ty); [by eapply default_settings_maps|]. by injection E2 as <-. }
  apply defaults_side in E1 as (R1 & B1 & K1 & S1 & H1 & F1).
  apply defaults_side in E2 as (R2 & B2 & K2 & S2 & H2 & F2).
  assert (Fi : forall k, (formats k d2).1.2 = (formats k d).1.2).
  { intros k. rewrite F2, F1. destruct (device_plays ty), (device_captures ty), k; cbn [andb Bool.eqb];
      by rewrite ?defaulted_internal. }
  assert (Fk : forall k, formats k d2 = if has_side k ty then defaulted (formats k d) else formats k d).
  { intros k. rewrite F2, F1. unfold has_side. destruct (device_plays ty), (device_captures ty), k; done. }
  assert (Ei : forall k, internalSampleRate (get_side k d2).1.2 = internalSampleRate (get_side k d).1.2).
  { intros k. specialize (Fi k). unfold formats in Fi. destruct (get_side k d2) as [[? ?] ?], (get_side k d) as [[? ?] ?].
    by injection Fi. }
  pose proof (Ei true) as Et. pose proof (Ei false) as Ef. cbn in Et, Ef. cbv zeta.
  unfold settled, chosen_rate. rewrite S2, S1, Et, Ef. destruct (su_sampleRate d =? 0) eqn:E.
  - split; [by rewrite <- R1, <- R2|]. split; [by rewrite <- B1, <- B2|]. split; [by rewrite <- K1, <- K2|].
    split; [intros k; by rewrite <- H1, <- H2; destruct k|].
    split; [|intros k M; specialize (M2 k M); by destruct k].
    intros k. rewrite with_rate_formats, Fk.
    destruct (if has_side k ty then _ else _) as [[[f n] internal] r]. by destruct (device_captures ty).
  - split; [by rewrite R2, R1|]. split; [by rewrite B2, B1|]. split; [by rewrite K2, K1|].
    split; [intros k; by rewrite H2, H1|]. split; [|done].
    intros k. rewrite Fk. unfold defaulted, formats. destruct (get_side k d) as [[sd i] ss]. by destruct (has_side k ty).
Qed.

(** The step for one direction, if the device has it. *)
Record converter_step (has k : bool) d d' (r : ma_result) : Prop := {
  cs_rest : rest d' = rest d;
  cs_buffers : buffers d' = buffers d;
  cs_cache : setup_cache d' = setup_cache d;
  cs_formats : forall j, formats j d' = formats j d;
  cs_config : forall j, converter_config j d' = converter_config j d;
  cs_held : converter_held (negb k) d' = converter_held (negb k) d;
  cs_converter : side_converter (negb k) d' = side_converter (negb k) d;
  cs_fits : r = MA_SUCCESS -> has = true -> converter_fits k d';
  cs_absent : has = false -> d' = d }.

Lemma for_converter_wp os (has k : bool) d h f (Q : ma_result * setup -> list dev_resource -> Prop) :
  h ≡ₚ converter_held k d ++ f ->
  (state d = ma_device_state_uninitialized -> converter_held k d = []) ->
  (forall r d' g, converter_step has k d d' r ->
     g ≡ₚ (if r =? MA_SUCCESS then converter_held k d' else []) ++ f -> Q (r, d') g) ->
  led_wp (for_side has (setup_converter lm os k) d) h Q.
Proof.
  intros P Hu HQ. destruct has; cbn [for_side].
  - eapply setup_converter_wp; [exact P|exact Hu|]. intros r d' g Hn Hf Pg. apply HQ; [|exact Pg].
    destruct (new_converter_facts _ _ _ Hn) as (? & ? & ? & ? & Hc & ? & ?). split; try done.
    intros E _. unfold converter_fits. rewrite Hc. by apply Hf.
  - by apply wp_ret, HQ.
Qed.

(** What a successful setup leaves. *)
Record setup_done (ty : ma_device_type) d d' : Prop := {
  sd_rest : rest d' = rest d;
  sd_buffers : buffers d' = buffers d;
  sd_formats : forall k, formats k d' = settled ty k d;
  sd_maps : forall k, maps_full k d -> exists d3, maps_full k d3 /\ formats k d' = formats k d3
    /\ converter_config k d' = converter_config k d3;
  sd_fits : forall k, has_side k ty = true -> converter_fits k d';
  sd_absent : forall k, has_side k ty = false -> converter_held k d' = converter_held k d;
  sd_cache : type d = ma_device_type_playback -> ty = ma_device_type_playback -> forall n,
    ma_data_converter_get_required_input_frame_count (side_converter false d') 1 = Some (MA_SUCCESS, n) ->
    pInputCache (setup_cache d') = None }.

Definition converters_held d : list dev_resource :=
  converter_held true d ++ converter_held false d ++ cache_held d.

Lemma cache_held_eq d d' : setup_cache d' = setup_cache d -> cache_held d' = cache_held d.
Proof. unfold setup_cache, cache_held. by intros ->. Qed.

Lemma post_init_setup_wp os d ty h f (Q : ma_result * setup -> list dev_resource -> Prop) :
  h ≡ₚ converters_held d ++ f ->
  (state d = ma_device_state_uninitialized -> forall k, converter_held k d = []) ->
  (forall r d' g, rest d' = rest d ->
     (if r =? MA_SUCCESS then setup_done ty d d' /\ g ≡ₚ converters_held d' ++ f else exists e, g ≡ₚ e ++ f) ->
     Q (r, d') g) ->
  led_wp (ma_device__post_init_setup lm os d ty) h Q.
Proof.
  intros P Hu HQ. unfold ma_device__post_init_setup.
  apply wp_bind, wp_opt. intros d1 E1. apply wp_bind, wp_opt. intros d2 E2.
  destruct (settle_facts ty d d1 d2 E1 E2) as (R3 & B3 & K3 & H3 & F3 & M3). cbv zeta in R3, B3, K3, H3, F3, M3.
  set (d3 := if su_sampleRate d2 =? 0 then _ else d2) in *. clearbody d3. clear E1 E2 d1 d2.
  assert (Hu3 : state d3 = ma_device_state_uninitialized -> forall k, converter_held k d3 = []).
  { intros E k. rewrite H3. apply Hu. unfold rest in R3. congruence. }
  apply and_then_wp, and_then_wp.
  apply (for_converter_wp os (device_captures ty) true d3 h (converter_held false d3 ++ cache_held d3 ++ f));
    [rewrite P; unfold converters_held; rewrite !H3, (cache_held_eq _ _ K3), <- !app_assoc; done|auto|].
  intros r4 d4 g4 C4 P4. cbn [fst snd]. destruct (r4 =? MA_SUCCESS) eqn:Er4; cycle 1.
  { apply HQ; [by rewrite (cs_rest _ _ _ _ _ C4)|]. rewrite Er4.
    exists (converter_held false d3 ++ cache_held d3). by rewrite P4, <- app_assoc. }
  pose proof (cs_held _ _ _ _ _ C4) as N4. cbn [negb] in N4.
  apply (for_converter_wp os (device_plays ty) false d4 g4 (converter_held true d4 ++ cache_held d3 ++ f)).
  { rewrite P4, N4, !app_assoc. f_equiv. f_equiv. apply Permutation_app_comm. }
  { intros E. rewrite N4. apply Hu3. pose proof (cs_rest _ _ _ _ _ C4) as R4. unfold rest in R4. congruence. }
  intros r5 d5 g5 C5 P5. cbn [fst snd]. destruct (r5 =? MA_SUCCESS) eqn:Er5; cycle 1.
  { apply HQ; [by rewrite (cs_rest _ _ _ _ _ C5), (cs_rest _ _ _ _ _ C4)|]. rewrite Er5.
    exists (converter_held true d4 ++ cache_held d3). by rewrite P5, <- app_assoc. }
  apply Z.eqb_eq in Er4, Er5.
  pose proof (cs_held _ _ _ _ _ C5) as N5. cbn [negb] in N5.
  assert (K5 : setup_cache d5 = setup_cache d3) by (by rewrite (cs_cache _ _ _ _ _ C5), (cs_cache _ _ _ _ _ C4)).
  assert (Done : forall d6, rest d6 = rest d5 -> buffers d6 = buffers d5 -> (forall k, formats k d6 = formats k d5) ->
    (forall k, converter_config k d6 = converter_config k d5) -> (forall k, converter_held k d6 = converter_held k d5) ->
    (forall k, side_converter k d6 = side_converter k d5) ->
    (type d = ma_device_type_playback -> ty = ma_device_type_playback -> forall n,
      ma_data_converter_get_required_input_frame_count (side_converter false d5) 1 = Some (MA_SUCCESS, n) ->
      pInputCache (setup_cache d6) = None) -> setup_done ty d d6).
  { intros d6 R6 B6 F6 G6 H6 V6 K6. split.
    - by rewrite R6, (cs_rest _ _ _ _ _ C5), (cs_rest _ _ _ _ _ C4).
    - by rewrite B6, (cs_buffers _ _ _ _ _ C5), (cs_buffers _ _ _ _ _ C4).
    - intros k. by rewrite F6, (cs_formats _ _ _ _ _ C5), (cs_formats _ _ _ _ _ C4), F3.
    - intros k M. exists d3. split; [by apply M3|].
      by rewrite F6, G6, (cs_formats _ _ _ _ _ C5), (cs_formats _ _ _ _ _ C4), (cs_config _ _ _ _ _ C5), (cs_config _ _ _ _ _ C4).
    - intros k Hk. unfold converter_fits. rewrite G6, V6. destruct k.
      + rewrite (cs_config _ _ _ _ _ C5). pose proof (cs_converter _ _ _ _ _ C5) as V5. cbn [negb] in V5. rewrite V5.
        by apply (cs_fits _ _ _ _ _ C4).
      + by apply (cs_fits _ _ _ _ _ C5).
    - intros k Hk. rewrite H6. destruct k.
      + rewrite N5, (cs_absent _ _ _ _ _ C4 Hk). apply H3.
      + rewrite (cs_absent _ _ _ _ _ C5 Hk), N4. apply H3.
    - intros Et1 Et2 n. rewrite V6. by apply K6. }
  destruct (device_plays ty) eqn:Ep; cbn [for_side].
  - apply (setup_input_cache_wp os d5 g5 (converter_held true d4 ++ converter_held false d5 ++ f)).
    { rewrite P5, (cache_held_eq _ _ K5). apply perm_two. }
    intros r6 d6 g6 Hn P6 Hc. destruct (new_cache_facts _ _ Hn) as (R6 & B6 & F6 & G6 & H6 & V6).
    apply HQ; [by rewrite R6, (cs_rest _ _ _ _ _ C5), (cs_rest _ _ _ _ _ C4)|].
    destruct (r6 =? MA_SUCCESS); [|exists (cache_held d6 ++ converter_held true d4 ++ converter_held false d5);
      by rewrite P6, <- !app_assoc].
    split.
    + apply Done; try done. intros Et1 Et2 n En. eapply Hc; [|exact En].
      pose proof (cs_rest _ _ _ _ _ C5) as R5. pose proof (cs_rest _ _ _ _ _ C4) as R4.
      unfold rest in *. congruence.
    + rewrite P6. unfold converters_held. rewrite !H6, N5. apply perm_three.
  - apply wp_ret, HQ; [by rewrite (cs_rest _ _ _ _ _ C5), (cs_rest _ _ _ _ _ C4)|]. rewrite Z.eqb_refl. split.
    + apply Done; try done. by intros _ ->.
    + rewrite P5, (cs_absent _ _ _ _ _ C5 eq_refl) in *. unfold converters_held.
      rewrite (cache_held_eq d3 d4 (cs_cache _ _ _ _ _ C4)). apply perm_first.
Qed.

(** ** [ma_device_post_init] *)

Definition with_internal (dsc : ma_device_descriptor) (x : ma_format * Z * (ma_format * Z * Z) * Z) :=
  let '(f, n, _, rate) := x in (f, n, (dsc_format dsc, dsc_channels dsc, dsc_sampleRate dsc), rate).

Lemma post_init_side_facts (has k : bool) dsc d d' :
  post_init_side has k (Some dsc) d = Some d' ->
  rest d' = rest d /\ buffers d' = buffers d /\ setup_cache d' = setup_cache d /\ su_sampleRate d' = su_sampleRate d
  /\ (forall j, converter_held j d' = converter_held j d)
  /\ (forall j, formats j d' = if has && Bool.eqb j k then with_internal dsc (formats j d) else formats j d)
  /\ (has = true -> ma_device_descriptor_is_valid (Some dsc) = true)
  /\ (zlen (dsc_channelMap dsc) = MA_MAX_CHANNELS -> forall j, maps_full j d -> maps_full j d').
Proof.
  unfold post_init_side. destruct has; [|intros [= <-]; done].
  destruct (ma_device_descriptor_is_valid (Some dsc)); [|done]. intros [= <-].
  unfold set_internal. destruct k; cbn;
    (do 4 (split; [done|])); (split; [by intros []|]); (split; [by intros []|]); (split; [done|]);
    intros Hm [] [M1 M2]; done.
Qed.

(** The device with its internal formats. *)
Definition internal_of (ty : ma_device_type) (playback capture : ma_device_descriptor) d d' : Prop :=
  rest d' = rest d /\ buffers d' = buffers d /\ setup_cache d' = setup_cache d /\ su_sampleRate d' = su_sampleRate d
  /\ (forall j, converter_held j d' = converter_held j d)
  /\ (forall j, formats j d'
       = if has_side j ty then with_internal (if j then capture else playback) (formats j d) else formats j d)
  /\ (zlen (dsc_channelMap playback) = MA_MAX_CHANNELS -> zlen (dsc_channelMap capture) = MA_MAX_CHANNELS ->
      forall j, maps_full j d -> maps_full j d').

Definition descriptors_valid (ty : ma_device_type) (playback capture : ma_device_descriptor) : Prop :=
  forall j, has_side j ty = true -> ma_device_descriptor_is_valid (Some (if j then capture else playback)) = true.

Lemma post_init_wp os d ty playback capture h f (Q : ma_result * option setup -> list dev_resource -> Prop) :
  h ≡ₚ converters_held d ++ f ->
  (state d = ma_device_state_uninitialized -> forall k, converter_held k d = []) ->
  (forall r d' g, rest d' = rest d ->
     (if r =? MA_SUCCESS
      then (exists d1, internal_of ty playback capture d d1 /\ setup_done ty d1 d')
        /\ descriptors_valid ty playback capture /\ g ≡ₚ converters_held d' ++ f
      else exists e, g ≡ₚ e ++ f) -> Q (r, Some d') g) ->
  led_wp (ma_device_post_init lm os (Some d) ty (Some playback) (Some capture)) h Q.
Proof.
  intros P Hu HQ. unfold ma_device_post_init.
  destruct (post_init_side (device_captures ty) true (Some capture) d) as [d1|] eqn:E1; cycle 1.
  { apply wp_ret, HQ; [done|]. by exists (converters_held d). }
  apply post_init_side_facts in E1 as (R1 & B1 & K1 & S1 & H1 & F1 & V1 & M1).
  destruct (post_init_side (device_plays ty) false (Some playback) d1) as [d2|] eqn:E2; cycle 1.
  { apply wp_ret, HQ; [done|]. by exists (converters_held d). }
  apply post_init_side_facts in E2 as (R2 & B2 & K2 & S2 & H2 & F2 & V2 & M2).
  assert (Hi : internal_of ty playback capture d d2).
  { split; [by rewrite R2|]. split; [by rewrite B2|]. split; [by rewrite K2|]. split; [by rewrite S2|].
    split; [intros j; by rewrite H2|]. split; [|intros Hp Hc j M; by apply M2, M1]. intros j. rewrite F2, F1.
    unfold has_side. by destruct j, (device_plays ty), (device_captures ty). }
  assert (Hv : descriptors_valid ty playback capture) by (intros []; cbn [has_side]; done).
  apply wp_bind, (post_init_setup_wp os d2 ty h f).
  - rewrite P. unfold converters_held. rewrite !H2, !H1.
    assert (Ek : setup_cache d2 = setup_cache d) by (by rewrite K2). by rewrite (cache_held_eq _ _ Ek).
  - intros E k. rewrite H2, H1. apply Hu. unfold rest in *. congruence.
  - intros r d' g R3 H3. apply wp_ret, HQ; [by rewrite R3, R2|].
    destruct (r =? MA_SUCCESS); [|done]. destruct H3 as [H3 P3]. split; [by exists d2|done].
Qed.

(** ** Intermediary buffers *)

(** A buffer of [cap] frames, silent; the capture side's counts as full. *)
Definition buffer_made (k : bool) (cap : Z) d : Prop :=
  let '(sd, _, _) := get_side k d in
  let bpf := ma_get_bytes_per_frame (side_format sd) (side_channels sd) in
  u64 (cap * bpf) <= u32 (cap * bpf)
  /\ pIntermediaryBuffer sd
     = ma_silence_pcm_frames (zrep (u32 (cap * bpf)) 0) 0 cap (side_format sd) (side_channels sd)
  /\ intermediaryBufferCap sd = cap /\ intermediaryBufferLen sd = (if k then cap else 0).

Record buffer_step (has k : bool) (cap : Z) d d' (r : ma_result) : Prop := {
  bs_rest : rest d' = rest d;
  bs_cache : setup_cache d' = setup_cache d;
  bs_formats : forall j, formats j d' = formats j d;
  bs_config : forall j, converter_config j d' = converter_config j d;
  bs_converter : forall j, side_converter j d' = side_converter j d;
  bs_held : forall j, converter_held j d' = converter_held j d;
  bs_other : get_side (negb k) d' = get_side (negb k) d;
  bs_io : internalPeriodSizeInFrames (get_side k d').1.2 = internalPeriodSizeInFrames (get_side k d).1.2;
  bs_made : r = MA_SUCCESS -> has = true -> buffer_made k cap d';
  bs_absent : has = false -> d' = d }.

Lemma for_buffer_wp os (has k : bool) F cap d h f (Q : ma_result * setup -> list dev_resource -> Prop) :
  F d = init_buffer os k cap d -> h ≡ₚ f -> buffer_held k d = [] ->
  (forall r d' g, buffer_step has k cap d d' r ->
     g ≡ₚ (if r =? MA_SUCCESS then buffer_held k d' else []) ++ f -> Q (r, d') g) ->
  led_wp (for_side has F d) h Q.
Proof.
  intros EF P Hb HQ. destruct has; cbn [for_side].
  2: { apply wp_ret, HQ; [done|]. by rewrite Z.eqb_refl, Hb. }
  rewrite EF. unfold init_buffer. destruct (get_side k d) as [[sd i] ss] eqn:E.
  assert (Step : forall b n cap' buf r, (r = MA_SUCCESS -> buffer_made k cap
      (set_side k d (mk_side (side_format sd) (side_channels sd) buf cap' n) i (ss_with_buffer ss b))) ->
    buffer_step true k cap d (set_side k d (mk_side (side_format sd) (side_channels sd) buf cap' n) i (ss_with_buffer ss b)) r).
  { intros b n cap' buf r Hm. destruct k; cbn in E; injection E as <- <- <-; split; try done; try (by intros []);
      by intros E _; apply Hm. }
  destruct (dos_alloc os _ _).
  - apply wp_bind, wp_acquire. destruct (Z.gtb_spec (u64 (cap * ma_get_bytes_per_frame (side_format sd) (side_channels sd)))
      (u32 (cap * ma_get_bytes_per_frame (side_format sd) (side_channels sd)))) as [|Hle]; [done|].
    apply wp_ret, HQ.
    + apply Step. intros _. unfold buffer_made. rewrite get_set_side. split_and!; done.
    + rewrite Z.eqb_refl. unfold buffer_held. rewrite get_set_side. cbn. by rewrite P.
  - apply wp_ret, HQ; [by apply Step|]. cbn. by rewrite P.
Qed.

(** The frames asked for, and those of each direction's buffer. *)
Definition asked_cap (c : @ma_device_config C S) d : Z :=
  if dcf_periodSizeInFrames c =? 0
  then ma_calculate_buffer_size_in_frames_from_milliseconds (dcf_periodSizeInMilliseconds c) (su_sampleRate d)
  else dcf_periodSizeInFrames c.

Definition side_cap (c : @ma_device_config C S) (k : bool) d : Z :=
  if k || bool_decide (dcf_deviceType c = ma_device_type_duplex)
  then buffer_cap (asked_cap c d) (io_capture (su_io d))
  else buffer_cap (asked_cap c d) (io_playback (su_io d)).

Record buffers_done (c : @ma_device_config C S) d d' : Prop := {
  bd_rest : rest d' = rest d;
  bd_cache : setup_cache d' = setup_cache d;
  bd_formats : forall j, formats j d' = formats j d;
  bd_config : forall j, converter_config j d' = converter_config j d;
  bd_converter : forall j, side_converter j d' = side_converter j d;
  bd_held : forall j, converter_held j d' = converter_held j d;
  bd_cap : forall j, side_cap c j d' = side_cap c j d;
  bd_made : dcf_noFixedSizedCallback c = false -> forall k, has_side k (dcf_deviceType c) = true ->
    buffer_made k (side_cap c k d) d';
  bd_absent : forall k, has_side k (dcf_deviceType c) = false -> get_side k d' = get_side k d }.

Lemma buffer_step_cap has k cap d d' r c j : buffer_step has k cap d d' r -> side_cap c j d' = side_cap c j d.
Proof.
  intros B. pose proof (bs_formats _ _ _ _ _ _ B true) as F. pose proof (bs_io _ _ _ _ _ _ B) as Ei.
  pose proof (bs_other _ _ _ _ _ _ B) as Eo.
  assert (Er : su_sampleRate d' = su_sampleRate d).
  { unfold formats in F. destruct (get_side true d') as [[? ?] ?], (get_side true d) as [[? ?] ?]. by injection F. }
  unfold side_cap, asked_cap, buffer_cap. rewrite Er. destruct k; cbn in Ei, Eo; rewrite Ei; by injection Eo as _ -> _.
Qed.

Lemma init_buffers_wp os c d h f (Q : ma_result * setup -> list dev_resource -> Prop) :
  h ≡ₚ f -> (forall k, buffer_held k d = []) ->
  (forall r d' g, rest d' = rest d ->
     (if r =? MA_SUCCESS
      then buffers_done c d d' /\ g ≡ₚ buffer_held true d' ++ buffer_held false d' ++ f
      else exists e, g ≡ₚ e ++ f) -> Q (r, d') g) ->
  led_wp (init_buffers os c d) h Q.
Proof.
  intros P Hb HQ. unfold init_buffers. destruct (dcf_noFixedSizedCallback c) eqn:En.
  { apply wp_ret, HQ; [done|]. rewrite Z.eqb_refl, !Hb. split; [|done].
    split; try done. by rewrite En. }
  fold (asked_cap c d). apply and_then_wp.
  set (cap1 := buffer_cap (asked_cap c d) (io_capture (su_io d))).
  apply (for_buffer_wp os (device_captures (dcf_deviceType c)) true _ cap1 d h f); [done|done|done|].
  intros r1 d1 g1 B1 P1. cbn [fst snd]. destruct (r1 =? MA_SUCCESS) eqn:E1; cycle 1.
  { apply HQ; [apply (bs_rest _ _ _ _ _ _ B1)|]. rewrite E1. by exists []. }
  set (cap2 := if decide (dcf_deviceType c = ma_device_type_duplex) then intermediaryBufferCap (dev_capture (su_dev d1))
    else buffer_cap (asked_cap c d) (io_playback (su_io d1))).
  assert (Hb1 : buffer_held false d1 = []).
  { rewrite <- (Hb false). unfold buffer_held. by rewrite (bs_other _ _ _ _ _ _ B1 : get_side false d1 = _). }
  apply (for_buffer_wp os (device_plays (dcf_deviceType c)) false _ cap2 d1 g1 (buffer_held true d1 ++ f)); [done|done|done|].
  intros r2 d2 g2 B2 P2. apply Z.eqb_eq in E1. apply HQ.
  { by rewrite (bs_rest _ _ _ _ _ _ B2), (bs_rest _ _ _ _ _ _ B1). }
  destruct (r2 =? MA_SUCCESS) eqn:E2; [|by exists (buffer_held true d1)].
  pose proof (bs_other _ _ _ _ _ _ B2) as O2. cbn [negb] in O2.
  assert (M1 : device_captures (dcf_deviceType c) = true -> buffer_made true cap1 d2).
  { intros Hc. pose proof (bs_made _ _ _ _ _ _ B1 E1 Hc) as M. unfold buffer_made in *. by rewrite O2. }
  apply Z.eqb_eq in E2. split.
  - split.
    + by rewrite (bs_rest _ _ _ _ _ _ B2), (bs_rest _ _ _ _ _ _ B1).
    + by rewrite (bs_cache _ _ _ _ _ _ B2), (bs_cache _ _ _ _ _ _ B1).
    + intros j. by rewrite (bs_formats _ _ _ _ _ _ B2), (bs_formats _ _ _ _ _ _ B1).
    + intros j. by rewrite (bs_config _ _ _ _ _ _ B2), (bs_config _ _ _ _ _ _ B1).
    + intros j. by rewrite (bs_converter _ _ _ _ _ _ B2), (bs_converter _ _ _ _ _ _ B1).
    + intros j. by rewrite (bs_held _ _ _ _ _ _ B2), (bs_held _ _ _ _ _ _ B1).
    + intros j. by rewrite (buffer_step_cap _ _ _ _ _ _ _ _ B2), (buffer_step_cap _ _ _ _ _ _ _ _ B1).
    + intros _ k Hk. destruct k; [by apply M1|]. cbn [has_side] in Hk.
      enough (cap2 = side_cap c false d) as <- by (by apply (bs_made _ _ _ _ _ _ B2)).
      unfold cap2, side_cap. cbn [orb]. destruct (decide (dcf_deviceType c = ma_device_type_duplex)) as [Ed|Ed].
      * rewrite bool_decide_eq_true_2 by done.
        destruct (bs_made _ _ _ _ _ _ B1 E1) as (_ & _ & Hcap & _); [by rewrite Ed|]. exact Hcap.
      * rewrite bool_decide_eq_false_2 by done.
        pose proof (bs_other _ _ _ _ _ _ B1) as O1. cbn [negb get_side] in O1. by injection O1 as _ -> _.
    + intros k Hk. destruct k; cbn [has_side] in Hk.
      * by rewrite O2, (bs_absent _ _ _ _ _ _ B1 Hk).
      * rewrite (bs_absent _ _ _ _ _ _ B2 Hk). apply (bs_other _ _ _ _ _ _ B1).
  - rewrite P2. enough (buffer_held true d1 = buffer_held true d2) as -> by (apply perm_skip_mid).
    unfold buffer_held. by rewrite O2.
Qed.

(** ** The whole of [ma_device_init] *)

Lemma set_state_facts d x :
  setup_cache (ma_device__set_state d x) = setup_cache d
  /\ (forall j, get_side j (ma_device__set_state d x) = get_side j d)
  /\ (forall j, converter_config j (ma_device__set_state d x) = converter_config j d)
  /\ su_sampleRate (ma_device__set_state d x) = su_sampleRate d.
Proof. repeat split; by intros []. Qed.

Lemma data_held_eq d d' :
  setup_cache d' = setup_cache d -> (forall j, get_side j d' = get_side j d) -> data_held d' = data_held d.
Proof.
  intros K G. unfold data_held, converter_held, buffer_held. rewrite (cache_held_eq _ _ K), !G. done.
Qed.

(** What [init_thread] adds. *)
Record thread_done d d' : Prop := {
  td_state : state d' = ma_device_state_stopped;
  td_type : type d' = type d;
  td_owner : su_isOwnerOfContext d' = su_isOwnerOfContext d;
  td_config : (dev_client (su_dev d'), su_onData d', masterVolumeFactor (su_dev d'))
    = (dev_client (su_dev d), su_onData d, masterVolumeFactor (su_dev d));
  td_flags : (noPreSilencedOutputBuffer (su_dev d'), noClip (su_dev d'), noFixedSizedCallback (su_dev d'))
    = (noPreSilencedOutputBuffer (su_dev d), noClip (su_dev d), noFixedSizedCallback (su_dev d));
  td_cache : setup_cache d' = setup_cache d;
  td_sides : forall j, get_side j d' = get_side j d;
  td_converters : forall j, converter_config j d' = converter_config j d;
  td_rate : su_sampleRate d' = su_sampleRate d }.

Lemma init_thread_wp os ctx c d h (Q : ma_result * setup -> list dev_resource -> Prop) :
  type d = dcf_deviceType c ->
  (forall r d' g,
     (if r =? MA_SUCCESS then thread_done d d' /\ g ≡ₚ thread_held ctx d' ++ h
      else state d' = state d /\ g = h) -> Q (r, d') g) ->
  led_wp (init_thread os (async ctx) c d) h Q.
Proof.
  intros Ht HQ. unfold init_thread.
  destruct (async ctx) eqn:Ea; cbn [negb].
  - destruct (decide (dcf_deviceType c = ma_device_type_duplex)) as [Ed|Ed].
    + cbn [get_side]. destruct (ma_duplex_rb_init _ _ _ _ _ _ _ _) as [r rb].
      destruct (Z.eqb_spec r MA_SUCCESS) as [-> |N]; cbn [negb].
      * apply wp_bind, wp_acquire, wp_ret, HQ. rewrite Z.eqb_refl. split; [split; try done; by intros []|].
        unfold thread_held. rewrite Ea.
        change (dev_type (su_dev (ma_device__set_state (su_with_io d (io_with_rb (su_io d) rb)) ma_device_state_stopped)))
          with (type d). rewrite Ht, Ed, bool_decide_eq_true_2 by done. done.
      * apply wp_ret, HQ. by rewrite (proj2 (Z.eqb_neq _ _) N).
    + apply wp_ret, HQ. rewrite Z.eqb_refl. split; [split; try done; by intros []|].
      unfold thread_held. rewrite Ea. change (dev_type (su_dev (ma_device__set_state d ma_device_state_stopped)))
        with (type d). rewrite Ht, bool_decide_eq_false_2 by done. done.
  - destruct (Z.eqb_spec (dos_thread_create os) MA_SUCCESS) as [E|N]; cbn [negb].
    + apply wp_bind, wp_acquire, wp_ret, HQ. rewrite Z.eqb_refl. split; [split; try done; by intros []|].
      unfold thread_held. by rewrite Ea.
    + apply wp_ret, HQ. by rewrite (proj2 (Z.eqb_neq _ _) N).
Qed.

Lemma or_uninit_wp ctx null m f h (Q : ma_result * setup -> list dev_resource -> Prop) :
  led_wp m h (fun x g => if x.1 =? MA_SUCCESS then led_wp (f x.2) g Q
                         else state x.2 = ma_device_state_uninitialized /\ Q x g) ->
  led_wp (or_uninit ctx null m f) h Q.
Proof.
  intros H. apply wp_bind. eapply wp_mono; [exact H|]. intros [r d] t g _. cbn.
  destruct (r =? MA_SUCCESS); cbn [negb]; [done|]. intros [Hs HQ].
  unfold ma_device_uninit, ma_device__is_initialized. rewrite bool_decide_eq_false_2 by (intros N; by apply N).
  by apply wp_bind, wp_ret, wp_ret.
Qed.

(** The device as the configuration leaves it. *)
Record configured (c : @ma_device_config C S) d : Prop := {
  cd_rest : rest d = (ma_device_state_uninitialized, dcf_deviceType c, false, dcf_dataCallback c, dcf_pUserData c,
    f32_one, (dcf_noPreSilencedOutputBuffer c, dcf_noClip c, dcf_noFixedSizedCallback c));
  cd_held : forall k, converter_held k d = [];
  cd_buffers : forall k, buffer_held k d = [];
  cd_cache : pInputCache (setup_cache d) = None;
  cd_formats : forall k : bool, let s := if k then dcf_capture c else dcf_playback c in
    formats k d = (scf_format s, scf_channels s, (ma_format_unknown, 0, 0), dcf_sampleRate c);
  cd_maps : forall k, maps_full k d }.

Lemma config_device_configured null c d : config_device null c = Some d -> configured c d.
Proof.
  unfold config_device, config_side. cbn [get_side].
  destruct (copy_map_or_default _ (scf_pChannelMap (dcf_capture c)) _) as [m1|] eqn:E1; [|done]. cbn [option_map option_bind].
  destruct (copy_map_or_default _ (scf_pChannelMap (dcf_playback c)) _) as [m2|] eqn:E2; [|done].
  intros [= <-]. apply copy_map_or_default_len in E1, E2; try done. split; try done; by intros [].
Qed.

(** What the backend answers when it is asked for the device. *)
Definition opened (c : @ma_device_config C S) onInit : option (ma_result * ma_device_descriptor * ma_device_descriptor) :=
  match config_descriptor c (dcf_playback c), config_descriptor c (dcf_capture c) with
  | Some playback, Some capture => Some (onInit c playback capture)
  | _, _ => None
  end.

(** The client's format of a direction, the device's, and the client's rate. *)
Definition agreed (c : @ma_device_config C S) (playback capture : ma_device_descriptor) (k : bool) :=
  let s := if k then dcf_capture c else dcf_playback c in
  let dsc (k : bool) := if k then capture else playback in
  (if decide (scf_format s = ma_format_unknown) then dsc_format (dsc k) else scf_format s,
   if scf_channels s =? 0 then dsc_channels (dsc k) else scf_channels s,
   (dsc_format (dsc k), dsc_channels (dsc k), dsc_sampleRate (dsc k)),
   if dcf_sampleRate c =? 0 then dsc_sampleRate (dsc (device_captures (dcf_deviceType c))) else dcf_sampleRate c).

(** A device that has been initialised. *)
Record init_done (c : @ma_device_config C S) (playback capture : ma_device_descriptor) d : Prop := {
  id_state : state d = ma_device_state_stopped;
  id_type : type d = dcf_deviceType c;
  id_owner : su_isOwnerOfContext d = false;
  id_config : (dev_client (su_dev d), su_onData d, masterVolumeFactor (su_dev d))
    = (dcf_pUserData c, dcf_dataCallback c, f32_one);
  id_flags : (noPreSilencedOutputBuffer (su_dev d), noClip (su_dev d), noFixedSizedCallback (su_dev d))
    = (dcf_noPreSilencedOutputBuffer c, dcf_noClip c, dcf_noFixedSizedCallback c);
  id_valid : descriptors_valid (dcf_deviceType c) playback capture;
  id_formats : forall k, has_side k (dcf_deviceType c) = true -> formats k d = agreed c playback capture k;
  id_fits : forall k, has_side k (dcf_deviceType c) = true -> converter_fits k d;
  id_maps : zlen (dsc_channelMap playback) = MA_MAX_CHANNELS -> zlen (dsc_channelMap capture) = MA_MAX_CHANNELS ->
    forall k, exists d3, maps_full k d3 /\ formats k d = formats k d3 /\ converter_config k d = converter_config k d3;
  id_absent : forall k, has_side k (dcf_deviceType c) = false -> converter_held k d = [];
  id_buffers : dcf_noFixedSizedCallback c = false -> forall k, has_side k (dcf_deviceType c) = true ->
    buffer_made k (side_cap c k d) d;
  id_cache : dcf_deviceType c = ma_device_type_playback -> forall n,
    ma_data_converter_get_required_input_frame_count (side_converter false d) 1 = Some (MA_SUCCESS, n) ->
    pInputCache (setup_cache d) = None }.

Lemma agreed_settled c playback capture d0 d1 d2 :
  configured c d0 -> internal_of (dcf_deviceType c) playback capture d0 d1 ->
  setup_done (dcf_deviceType c) d1 d2 ->
  forall k, has_side k (dcf_deviceType c) = true -> formats k d2 = agreed c playback capture k.
Proof.
  intros H0 (_ & _ & _ & Es & _ & Fi & _) H2 k Hk. rewrite (sd_formats _ _ _ H2). unfold settled. rewrite Hk, Fi, Hk.
  rewrite (cd_formats _ _ H0 k). unfold with_internal, defaulted, agreed. f_equal.
  assert (E0 : su_sampleRate d0 = dcf_sampleRate c).
  { pose proof (cd_formats _ _ H0 true) as F. unfold formats in F. cbn [get_side] in F. by injection F. }
  assert (Ei : forall j, has_side j (dcf_deviceType c) = true ->
    internalSampleRate (get_side j d1).1.2 = dsc_sampleRate (if j then capture else playback)).
  { intros j Hj. specialize (Fi j). rewrite Hj, (cd_formats _ _ H0 j) in Fi. unfold formats, with_internal in Fi.
    destruct (get_side j d1) as [[sd i] ss]. by injection Fi. }
  unfold chosen_rate. rewrite Es, E0. destruct (dcf_sampleRate c =? 0); [|done].
  destruct (device_captures (dcf_deviceType c)) eqn:Ec; [by apply (Ei true)|].
  apply (Ei false). destruct k; cbn [has_side] in *; [congruence|done].
Qed.

Definition init_outcome ctx (c : @ma_device_config C S) (answer : option (ma_result * ma_device_descriptor * ma_device_descriptor))
    (r : ma_result) d (g : list dev_resource) : Prop :=
  exists r0 playback capture, answer = Some (r0, playback, capture) /\
  if r0 =? MA_SUCCESS
  then
    if r =? MA_SUCCESS
    then init_done c playback capture d /\ g ≡ₚ dev_owned ctx d
    else state d = ma_device_state_uninitialized /\ exists e, g ≡ₚ e ++ BackendDevice :: sync_held
  else r = r0 /\ g ≡ₚ [StopEvent].

Lemma buffer_held_eq d d' k : buffers d' = buffers d -> buffer_held k d' = buffer_held k d.
Proof. unfold buffers, buffer_held. intros [= ? ? ? E1 ? ? ? E2]. destruct k; cbn; by rewrite ?E1, ?E2. Qed.

Lemma buffer_made_eq k cap d d' : get_side k d' = get_side k d -> buffer_made k cap d -> buffer_made k cap d'.
Proof. unfold buffer_made. by intros ->. Qed.

Lemma formats_eq k d d' : get_side k d' = get_side k d -> su_sampleRate d' = su_sampleRate d -> formats k d' = formats k d.
Proof. unfold formats. by intros -> ->. Qed.

Lemma side_cap_eq c k d d' :
  (forall j, get_side j d' = get_side j d) -> su_sampleRate d' = su_sampleRate d -> side_cap c k d' = side_cap c k d.
Proof.
  intros G R. pose proof (G true) as Gt. pose proof (G false) as Gf. cbn in Gt, Gf.
  injection Gt as _ Gt _. injection Gf as _ Gf _. unfold side_cap, asked_cap. by rewrite R, Gt, Gf.
Qed.

Lemma init_done_of c ctx playback capture d0 d1 d2 d3 d4 :
  configured c d0 -> internal_of (dcf_deviceType c) playback capture d0 d1 ->
  setup_done (dcf_deviceType c) d1 d2 -> descriptors_valid (dcf_deviceType c) playback capture ->
  buffers_done c d2 d3 -> thread_done d3 d4 -> init_done c playback capture d4.
Proof.
  intros H0 H1 H2 Hv H3 H4.
  assert (R3 : rest d3 = rest d0).
  { rewrite (bd_rest _ _ _ H3), (sd_rest _ _ _ H2). apply H1. }
  rewrite (cd_rest _ _ H0) in R3. unfold rest in R3. injection R3 as Es Et Eo Ed Ec Ev En1 En2 En3.
  assert (G4 : forall j, get_side j d4 = get_side j d3) by apply H4.
  assert (V4 : forall j, side_converter j d4 = side_converter j d2).
  { intros j. unfold side_converter. rewrite G4. apply (bd_converter _ _ _ H3). }
  split.
  - apply H4.
  - by rewrite (td_type _ _ H4).
  - by rewrite (td_owner _ _ H4).
  - rewrite (td_config _ _ H4). congruence.
  - rewrite (td_flags _ _ H4). congruence.
  - done.
  - intros k Hk. rewrite (formats_eq k d3 d4 (G4 k) (td_rate _ _ H4)), (bd_formats _ _ _ H3).
    by eapply agreed_settled.
  - intros k Hk. unfold converter_fits. rewrite (td_converters _ _ H4), (bd_config _ _ _ H3), V4.
    by apply (sd_fits _ _ _ H2).
  - intros Hp Hc k. destruct H1 as (_ & _ & _ & _ & _ & _ & M1).
    destruct (sd_maps _ _ _ H2 k) as (d5 & M5 & F5 & G5); [by apply M1, H0|]. exists d5. split; [done|].
    by rewrite (formats_eq k d3 d4 (G4 k) (td_rate _ _ H4)), (bd_formats _ _ _ H3), (td_converters _ _ H4), (bd_config _ _ _ H3).
  - intros k Hk. assert (Eh : converter_held k d4 = converter_held k d3) by (unfold converter_held; by rewrite G4).
    rewrite Eh, (bd_held _ _ _ H3), (sd_absent _ _ _ H2) by done.
    destruct H1 as (_ & _ & _ & _ & Hh & _ & _). rewrite Hh. apply H0.
  - intros Hn k Hk. rewrite (side_cap_eq c k d3 d4 G4 (td_rate _ _ H4)), (bd_cap _ _ _ H3).
    apply (buffer_made_eq k _ d3); [apply G4|]. by apply (bd_made _ _ _ H3).
  - intros Hp n. rewrite V4, (td_cache _ _ H4), (bd_cache _ _ _ H3). intros Hn.
    apply (sd_cache _ _ _ H2) in Hn; [done| |done].
    destruct H1 as (R1 & _). rewrite (cd_rest _ _ H0) in R1. unfold rest in R1. congruence.
Qed.

Lemma init_backend_device_wp os ctx null c onInit d0 h (Q : ma_result * setup -> list dev_resource -> Prop) :
  configured c d0 -> h ≡ₚ sync_held ->
  (forall r d g, init_outcome ctx c (opened c onInit) r d g -> Q (r, d) g) ->
  led_wp (init_backend_device lm os ctx null c onInit d0) h Q.
Proof.
  intros H0 P HQ. unfold init_backend_device.
  apply wp_bind, wp_opt. intros p0 Ep. apply wp_bind, wp_opt. intros q0 Eq.
  assert (Eo : opened c onInit = Some (onInit c p0 q0)) by (unfold opened; by rewrite Ep, Eq).
  destruct (onInit c p0 q0) as [[r0 p] q]. clear Ep Eq.
  destruct (Z.eqb_spec r0 MA_SUCCESS) as [E0|N0]; cbn [negb]; cycle 1.
  { apply wp_bind. apply (wp_release _ _ [StopEvent; WakeupEvent; StartStopLock]); [rewrite P; apply perm_swap|].
    intros g1 P1. apply wp_bind. apply (wp_release _ _ [StopEvent; StartStopLock]); [rewrite P1; apply perm_swap|].
    intros g2 P2. apply wp_bind. apply (wp_release _ _ [StopEvent]); [rewrite P2; apply perm_swap|].
    intros g3 P3. apply wp_ret, HQ. exists r0, p, q. split; [done|]. by rewrite (proj2 (Z.eqb_neq _ _) N0). }
  subst r0.
  assert (Fail : forall r d g, r <> MA_SUCCESS -> rest d = rest d0 -> (exists e, g ≡ₚ e ++ BackendDevice :: sync_held) ->
    state d = ma_device_state_uninitialized /\ Q (r, d) g).
  { intros r d g N R He. rewrite (cd_rest _ _ H0) in R. unfold rest in R.
    assert (Es : state d = ma_device_state_uninitialized) by congruence. split; [done|].
    apply HQ. exists MA_SUCCESS, p, q. split; [done|]. rewrite Z.eqb_refl, (proj2 (Z.eqb_neq _ _) N). done. }
  assert (Hc0 : converters_held d0 = []).
  { unfold converters_held, cache_held. rewrite !(cd_held _ _ H0).
    change (io_cache (su_io d0)) with (setup_cache d0). by rewrite (cd_cache _ _ H0). }
  apply wp_bind, wp_acquire, or_uninit_wp, wp_bind.
  apply (post_init_wp os d0 (dcf_deviceType c) p q _ (BackendDevice :: sync_held)).
  { rewrite Hc0, P. done. }
  { intros _. apply H0. }
  intros r2 d2 g2 R2 H2. apply wp_ret. cbn [default from_option id fst snd].
  destruct (Z.eqb_spec r2 MA_SUCCESS) as [->|N2]; [|by apply Fail].
  destruct H2 as ((d1 & H1 & H2) & Hv & P2).
  apply or_uninit_wp, (init_buffers_wp os c d2 g2 (converters_held d2 ++ BackendDevice :: sync_held)); [done| |].
  { intros k. rewrite (buffer_held_eq d1 d2 k (sd_buffers _ _ _ H2)).
    destruct H1 as (_ & B1 & _). rewrite (buffer_held_eq d0 d1 k B1). apply H0. }
  intros r3 d3 g3 R3 H3. cbn [fst snd].
  destruct (Z.eqb_spec r3 MA_SUCCESS) as [->|N3].
  2: { apply Fail; [done|by rewrite R3|]. destruct H3 as (e & Pe). exists (e ++ converters_held d2).
       by rewrite Pe, <- app_assoc. }
  destruct H3 as [H3 P3].
  assert (R30 : rest d3 = rest d0) by (by rewrite R3).
  apply or_uninit_wp, init_thread_wp.
  { rewrite (cd_rest _ _ H0) in R30. unfold rest in R30. congruence. }
  intros r4 d4 g4 H4. cbn [fst snd].
  destruct (Z.eqb_spec r4 MA_SUCCESS) as [->|N4].
  - destruct H4 as [H4 P4]. apply wp_ret, HQ. exists MA_SUCCESS, p, q. split; [done|]. rewrite Z.eqb_refl.
    split; [by eapply init_done_of|]. rewrite P4, P3. unfold dev_owned. f_equiv.
    rewrite (data_held_eq d3 d4 (td_cache _ _ H4) (td_sides _ _ H4)). unfold data_held, converters_held.
    rewrite !(bd_held _ _ _ H3), (cache_held_eq d2 d3 (bd_cache _ _ _ H3)). apply perm_owned.
  - destruct H4 as [Es ->]. split; [rewrite Es; rewrite (cd_rest _ _ H0) in R30; unfold rest in R30; congruence|].
    apply HQ. exists MA_SUCCESS, p, q. split; [done|]. rewrite Z.eqb_refl, (proj2 (Z.eqb_neq _ _) N4).
    split; [rewrite Es; rewrite (cd_rest _ _ H0) in R30; unfold rest in R30; congruence|].
    exists (buffer_held true d3 ++ buffer_held false d3 ++ converters_held d2). by rewrite P3, <- !app_assoc.
Qed.
End setup_props.
