(* ===== verification/DeviceInit.v ===== *)
(** * Initialised devices

    The properties of [ma_device_init], [ma_device_uninit] and [ma_device_post_init] that
    follow from DeviceSetupProps.v, and that an initialised device is one that the theorems
    on data delivery (DeviceDataProps.v, DeviceClients.v) start from. *)
From Stdlib Require Import ZArith Lia Bool SpecFloat Permutation.
From stdpp Require Import base numbers list option.
From S2P Require Import Prelude MaTypes CFloat Ring PcmRing PcmFormat ChannelMap Biquad LowPass LinearResampler LowPassProps ChannelConverter ChannelConverterProps Resampler DataConverter DataConverterProps DeviceData DeviceDataProps DeviceIO Ledger Context ContextProps DeviceSetup DeviceSetupProps.

Local Open Scope Z_scope.
Local Open Scope led_scope.

Section device_init.
Context (lm : libm) {C S I : Type}.
Implicit Types (d : @setup C S) (ctx : ma_context I (@ma_device_callbacks C S)) (c : @ma_device_config C S).

(** ** What is held *)

(** Whether the lock and the events can be created. *)
Definition sync_created (os : dev_os) : bool :=
  (dos_mutex_init os =? MA_SUCCESS) && (dos_event_init os WakeupEvent =? MA_SUCCESS)
  && (dos_event_init os StartEvent =? MA_SUCCESS) && (dos_event_init os StopEvent =? MA_SUCCESS).

Lemma init_sync_wp os h (Q : ma_result -> list dev_resource -> Prop) :
  (forall r, (r =? MA_SUCCESS) = sync_created os -> Q r (if r =? MA_SUCCESS then sync_held ++ h else h)) ->
  led_wp (init_sync os) h Q.
Proof.
  intros HQ. unfold sync_created in HQ.
  assert (HF : forall r, r <> MA_SUCCESS -> (r =? MA_SUCCESS) = sync_created os -> Q r h).
  { intros r N E. specialize (HQ r E). by rewrite (proj2 (Z.eqb_neq _ _) N) in HQ. }
  unfold sync_created in HF. unfold init_sync.
  destruct (Z.eqb_spec (dos_mutex_init os) MA_SUCCESS) as [_|N1]; cbn [negb andb] in *;
    [|apply wp_ret, HF; [done|by apply Z.eqb_neq]].
  apply wp_bind, wp_acquire.
  destruct (Z.eqb_spec (dos_event_init os WakeupEvent) MA_SUCCESS) as [_|N2]; cbn [negb andb] in *; cycle 1.
  { eexists. split; [reflexivity|]. apply HF; [done|by apply Z.eqb_neq]. }
  apply wp_bind, wp_acquire.
  destruct (Z.eqb_spec (dos_event_init os StartEvent) MA_SUCCESS) as [_|N3]; cbn [negb andb] in *; cycle 1.
  { eexists. split; [reflexivity|]. apply HF; [done|by apply Z.eqb_neq]. }
  apply wp_bind, wp_acquire.
  destruct (Z.eqb_spec (dos_event_init os StopEvent) MA_SUCCESS) as [_|N4]; cbn [negb] in *; cycle 1.
  { eexists. split; [reflexivity|]. apply HF; [done|by apply Z.eqb_neq]. }
  apply wp_bind, wp_acquire, wp_ret. by apply (HQ MA_SUCCESS).
Qed.

(** What initialisation can end with. *)
Lemma device_init_wp os ctx null c onInit (Q : ma_result * setup -> list dev_resource -> Prop) :
  onDeviceInit (deviceCallbacks (ctx_callbacks ctx)) = Some onInit ->
  (forall r d, r <> MA_SUCCESS -> config_valid c && sync_created os = false -> Q (r, d) []) ->
  (forall r d g, config_valid c && sync_created os = true ->
     init_outcome lm ctx c (opened c onInit) r d g -> Q (r, d) g) ->
  led_wp (ma_device_init lm os ctx null (Some c)) [] Q.
Proof.
  intros Ho HF HQ. unfold ma_device_init. rewrite Ho.
  destruct (config_valid c) eqn:Ev; cbn [negb andb] in *; [|by apply wp_ret, HF].
  apply wp_bind, wp_opt. intros d0 E0. apply config_device_configured in E0.
  apply wp_bind, init_sync_wp. intros r Er. rewrite <- Er in HF, HQ.
  destruct (Z.eqb_spec r MA_SUCCESS) as [_|N]; cbn [negb].
  - apply init_backend_device_wp; [done|done|]. intros r1 d g. by apply HQ.
  - by apply wp_ret, HF.
Qed.

(** An outcome that is defined is what the precondition says. *)
Lemma wp_outcome {R A} `{EqDecision R} (m : ledM R A) h Q x t :
  led_wp m h Q -> m = Some (x, t) -> exists g, ledger h t = Some g /\ Q x g.
Proof. intros H E. by rewrite E in H. Qed.

Lemma no_backend_init os ctx null c r d t :
  onDeviceInit (deviceCallbacks (ctx_callbacks ctx)) = None ->
  ma_device_init lm os ctx null (Some c) = Some ((r, d), t) -> r = MA_INVALID_OPERATION.
Proof. intros Ho. unfold ma_device_init. rewrite Ho. by intros [= <- _ _]. Qed.

Lemma init_outcome_success ctx c answer d g :
  init_outcome lm ctx c answer MA_SUCCESS d g ->
  exists playback capture, answer = Some (MA_SUCCESS, playback, capture)
    /\ init_done lm c playback capture d /\ g ≡ₚ dev_owned ctx d.
Proof.
  intros (r0 & p & q & Ea & H). rewrite Z.eqb_refl in H.
  destruct (Z.eqb_spec r0 MA_SUCCESS) as [->|N]; [by exists p, q|]. by destruct H as [<- _].
Qed.

Lemma device_init_success os ctx null c d t :
  ma_device_init lm os ctx null (Some c) = Some ((MA_SUCCESS, d), t) ->
  exists onInit playback capture g,
    onDeviceInit (deviceCallbacks (ctx_callbacks ctx)) = Some onInit
    /\ opened c onInit = Some (MA_SUCCESS, playback, capture) /\ config_valid c = true
    /\ ledger [] t = Some g /\ init_done lm c playback capture d /\ g ≡ₚ dev_owned ctx d.
Proof.
  intros E. destruct (onDeviceInit (deviceCallbacks (ctx_callbacks ctx))) as [onInit|] eqn:Ho.
  2: { by apply (no_backend_init os ctx null c _ _ _ Ho) in E. }
  assert (W : led_wp (ma_device_init lm os ctx null (Some c)) [] (fun x g => x.1 = MA_SUCCESS ->
    config_valid c = true /\ init_outcome lm ctx c (opened c onInit) MA_SUCCESS x.2 g)).
  { apply (device_init_wp os ctx null c onInit _ Ho); [done|].
    intros r d' g [Hv _]%andb_true_iff H Er. cbn in *. by subst r. }
  destruct (wp_outcome _ _ _ _ _ W E) as (g & Eg & H). destruct (H eq_refl) as (Hv & Hout).
  apply init_outcome_success in Hout as (p & q & Ea & Hd & Pg). by exists onInit, p, q, g.
Qed.

(** ** The state that data delivery starts from *)

Lemma fits_wf k d :
  dcc_ok (converter_config k d) -> converter_fits lm k d -> dc_wf (converter_config k d) (side_converter k d).
Proof.
  intros Hok (c0 & E & ->). apply data_converter_init_wf in E; [|done]. destruct E. by split.
Qed.

(** A descriptor that a backend can return. *)
Definition descriptor_ok (x : ma_device_descriptor) : Prop :=
  0 <= dsc_channels x /\ zlen (dsc_channelMap x) = MA_MAX_CHANNELS.

Definition channels_in_range c : Prop :=
  0 <= scf_channels (dcf_capture c) <= MA_MAX_CHANNELS /\ 0 <= scf_channels (dcf_playback c) <= MA_MAX_CHANNELS.

Lemma descriptor_valid_bounds x :
  ma_device_descriptor_is_valid (Some x) = true -> 0 <= dsc_channels x ->
  dsc_format x <> ma_format_unknown /\ 0 < dsc_channels x <= MA_MAX_CHANNELS.
Proof.
  unfold ma_device_descriptor_is_valid. destruct (decide _) as [|Hf]; [done|].
  destruct (Z.eqb_spec (dsc_channels x) 0); [done|]. destruct (Z.gtb_spec (dsc_channels x) MA_MAX_CHANNELS); [done|].
  intros _ ?. split; [done|lia].
Qed.

Lemma agreed_bounds c playback capture k :
  channels_in_range c -> descriptor_ok playback -> descriptor_ok capture ->
  descriptors_valid (dcf_deviceType c) playback capture -> has_side k (dcf_deviceType c) = true ->
  let '(f, n, (fi, ni, _), _) := agreed c playback capture k in
  f <> ma_format_unknown /\ fi <> ma_format_unknown /\ 0 < n <= MA_MAX_CHANNELS /\ 0 < ni <= MA_MAX_CHANNELS.
Proof.
  intros [Hc Hp] [Hdp _] [Hdc _] Hv Hk. specialize (Hv k Hk). unfold agreed.
  assert (Hd : 0 <= dsc_channels (if k then capture else playback)) by by destruct k.
  apply descriptor_valid_bounds in Hv as [Hf Hn]; [|done].
  assert (Hs : 0 <= scf_channels (if k then dcf_capture c else dcf_playback c) <= MA_MAX_CHANNELS) by by destruct k.
  split_and!; try (done || lia).
  - by destruct (decide _).
  - destruct (Z.eqb_spec (scf_channels (if k then dcf_capture c else dcf_playback c)) 0); lia.
  - destruct (Z.eqb_spec (scf_channels (if k then dcf_capture c else dcf_playback c)) 0); lia.
Qed.

Lemma bpf_exact_32 f n :
  f <> ma_format_unknown -> 0 < n <= MA_MAX_CHANNELS ->
  ma_get_bytes_per_frame f n = ma_get_bytes_per_sample f * n /\ 0 < ma_get_bytes_per_frame f n < 2 ^ 10.
Proof.
  intros Hf Hn. unfold MA_MAX_CHANNELS in Hn. unfold ma_get_bytes_per_frame.
  assert (0 < ma_get_bytes_per_sample f <= 4) by (destruct f; cbn; (done || lia)).
  unfold u32. rewrite wrapu_id by (unfold in_u; nia). split; [done|nia].
Qed.

Lemma silence_len m cap f n :
  zlen m = u64 (cap * ma_get_bytes_per_frame f n) -> f <> ma_format_unknown -> 0 < n <= MA_MAX_CHANNELS ->
  zlen (ma_silence_pcm_frames m 0 cap f n) = zlen m.
Proof.
  intros Hm Hf Hn. destruct (bpf_exact_32 f n Hf Hn) as [Eb _].
  assert (H0 : forall z, 0 <= u64 z) by (intros z; apply wrapu_range; lia).
  unfold ma_silence_pcm_frames. destruct (decide (f = ma_format_u8)) as [->|N].
  - apply zlen_wr; [done|]. rewrite zlen_zrep by apply H0. rewrite Hm, Eb. cbn [ma_get_bytes_per_sample].
    rewrite Z.mul_1_l. lia.
  - apply zlen_wr; [done|]. rewrite zlen_zrep by apply H0. rewrite Hm. lia.
Qed.

Lemma buffer_side_ok k cap d :
  let sd := (get_side k d).1.1 in
  side_format sd <> ma_format_unknown -> 0 < side_channels sd <= MA_MAX_CHANNELS -> 0 < cap < 2 ^ 32 ->
  buffer_made k cap d -> side_ok (side_bpf sd) cap sd /\ intermediaryBufferLen sd = (if k then cap else 0).
Proof.
  unfold buffer_made. destruct (get_side k d) as [[sd i] ss]. cbn [fst snd]. intros Hf Hn Hcap (Hle & Ebuf & Ecap & Elen).
  destruct (bpf_exact_32 _ _ Hf Hn) as [Eb Hb]. fold (side_bpf sd) in *.
  set (b := side_bpf sd) in *.
  assert (E64 : u64 (cap * b) = cap * b) by (apply wrapu_id; unfold in_u; nia).
  assert (H32 : 0 <= u32 (cap * b) < 2 ^ 32) by (apply wrapu_range; lia).
  assert (Hsize : cap * b < 2 ^ 32) by lia.
  assert (E32 : u32 (cap * b) = cap * b) by (apply wrapu_id; unfold in_u; nia).
  split; [|done]. split; try (done || lia).
  - rewrite Ebuf, silence_len by (try done; rewrite zlen_zrep by lia; fold (side_bpf sd); fold b; lia).
    rewrite zlen_zrep by lia. by rewrite E32.
  - rewrite Elen. destruct k; lia.
Qed.

(** The directions of a device, ready for [ma_device__on_data] with buffers of the
    configuration's periods. *)
Definition ready (J : S -> Prop) c d : Prop :=
  let v := su_dev d in
  let capture := side_bpf (dev_capture v) in
  let playback := side_bpf (dev_playback v) in
  match dcf_deviceType c with
  | ma_device_type_playback => play_dev J playback (side_cap c false d) v
  | ma_device_type_capture | ma_device_type_loopback => capture_dev J capture (side_cap c true d) v
  | ma_device_type_duplex => duplex_dev J capture playback (side_cap c true d) v
  end.

Lemma init_done_ready J c playback capture d :
  init_done lm c playback capture d ->
  dcf_noFixedSizedCallback c = false -> dcf_noPreSilencedOutputBuffer c = false -> J (dcf_pUserData c) ->
  channels_in_range c -> descriptor_ok playback -> descriptor_ok capture ->
  (forall k, has_side k (dcf_deviceType c) = true -> 0 < side_cap c k d < 2 ^ 32) ->
  (forall k, has_side k (dcf_deviceType c) = true -> dc_wf (converter_config k d) (side_converter k d))
  /\ ready J c d.
Proof.
  intros H Hnf Hns HJ Hch Hp Hc Hcap.
  assert (Hf : forall k, has_side k (dcf_deviceType c) = true ->
    let '(f, n, (fi, ni, _), _) := formats k d in
    f <> ma_format_unknown /\ fi <> ma_format_unknown /\ 0 < n <= MA_MAX_CHANNELS /\ 0 < ni <= MA_MAX_CHANNELS).
  { intros k Hk. rewrite (id_formats _ _ _ _ _ H k Hk). by apply agreed_bounds; try done; apply H. }
  split.
  { intros k Hk. apply fits_wf; [|by apply H]. destruct Hp as [_ Mp], Hc as [_ Mc].
    destruct (id_maps _ _ _ _ _ H Mp Mc k) as (d3 & M3 & F3 & ->). specialize (Hf k Hk). rewrite F3 in Hf.
    pose proof (converter_config_ok k d3 M3) as Hok.
    destruct (formats k d3) as [[[f n] [[fi ni] ri]] rate]. destruct Hf as (? & ? & ? & ?). apply Hok; (done || lia). }
  assert (Hs : forall k, has_side k (dcf_deviceType c) = true ->
    side_ok (side_bpf (get_side k d).1.1) (side_cap c k d) (get_side k d).1.1
    /\ intermediaryBufferLen (get_side k d).1.1 = (if k then side_cap c k d else 0)).
  { intros k Hk. specialize (Hf k Hk). specialize (Hcap k Hk). unfold formats in Hf.
    pose proof (id_buffers _ _ _ _ _ H Hnf k Hk) as Hm.
    apply (buffer_side_ok k); [..|done|done]; destruct (get_side k d) as [[sd i] ss]; cbn; apply Hf. }
  pose proof (id_config _ _ _ _ _ H) as [= Ec Eo Ev]. pose proof (id_flags _ _ _ _ _ H) as [= E1 E2 E3].
  assert (Hd : dev_ok J (su_dev d)).
  { split; [by rewrite (id_state _ _ _ _ _ H)|by rewrite E3|by rewrite E1|by rewrite Ec]. }
  pose proof (Hs true) as St. pose proof (Hs false) as Sf. pose proof (id_type _ _ _ _ _ H) as Et.
  cbn [get_side fst snd has_side] in St, Sf.
  assert (Eq : dcf_deviceType c = ma_device_type_duplex -> side_cap c false d = side_cap c true d).
  { intros E. unfold side_cap. rewrite E, bool_decide_eq_true_2 by done. done. }
  unfold ready. destruct (dcf_deviceType c).
  - split; [done|done|by apply Sf].
  - split; [done|by left|by apply St].
  - destruct St as [St Lt]; [done|]. destruct Sf as [Sf Lf]; [done|]. rewrite Eq in Sf by done.
    split; try done. rewrite Lt, Lf. lia.
  - split; [done|by right|by apply St].
Qed.
End device_init.

(** ** Properties *)

(** C27. A device that [ma_device_init] has initialised is stopped, and what was acquired
    and not released on the way is what its members say it holds: its lock and three
    events, the backend's device, the converters and buffers of its directions, and the
    worker thread or the duplex ring.  [ma_device_uninit] then releases each of them once
    and nothing else, whatever the configuration, the backend and the allocator were. *)
Theorem device_init_uninit_balanced lm {C S I : Type} os (ctx : ma_context I (@ma_device_callbacks C S)) null
    (c : @ma_device_config C S) d t :
  ma_device_init lm os ctx null (Some c) = Some ((MA_SUCCESS, d), t) ->
  dev_state (su_dev d) = ma_device_state_stopped /\
  exists g, ledger [] t = Some g /\ g ≡ₚ dev_owned ctx d /\
    (onDeviceUninit (deviceCallbacks (ctx_callbacks ctx)) = true ->
     exists t', ma_device_uninit ctx null (Some d) = Some (Some (setup_zero null), t') /\ ledger g t' = Some []).
Proof.
  intros E. destruct (device_init_success lm os ctx null c d t E) as (onInit & p & q & g & _ & _ & _ & Eg & H & Pg).
  split; [apply H|]. exists g. split; [done|]. split; [done|]. intros Hu.
  assert (Hm : sides_match d).
  { split; intros Hs; rewrite (id_type _ _ _ _ _ H) in Hs; by apply (id_absent _ _ _ _ _ H). }
  destruct (device_uninit_releases ctx null d) as (t' & Et & g' & Eg' & Pg'); try done.
  { by rewrite (id_state _ _ _ _ _ H). }
  { by rewrite (id_owner _ _ _ _ _ H). }
  exists t'. split; [done|]. symmetry in Pg. destruct (ledger_ext t' _ _ _ Pg Eg') as (k & -> & Pk).
  f_equal. apply Permutation_nil. by rewrite <- Pk, Pg'.
Qed.

(** C28. When [ma_device_init] fails after its lock and events have been created, part of
    what it acquired is kept and cannot be released.  If the backend refuses the device,
    [stopEvent] is not uninitialised.  If anything fails after the backend has opened the
    device, [ma_device_uninit] is called but returns at once, because the device is still
    in its uninitialised state: the backend's device, the lock and the events are all
    still held. *)
Theorem device_init_failure_keeps lm {C S I : Type} os (ctx : ma_context I (@ma_device_callbacks C S)) null
    (c : @ma_device_config C S) onInit r d t :
  onDeviceInit (deviceCallbacks (ctx_callbacks ctx)) = Some onInit ->
  config_valid c = true -> sync_created os = true ->
  ma_device_init lm os ctx null (Some c) = Some ((r, d), t) -> r <> MA_SUCCESS ->
  exists r0 playback capture g, opened c onInit = Some (r0, playback, capture) /\ ledger [] t = Some g /\
    if r0 =? MA_SUCCESS
    then (exists e, g ≡ₚ e ++ BackendDevice :: sync_held) /\ ma_device_uninit ctx null (Some d) = Some (Some d, [])
    else r = r0 /\ g = [StopEvent].
Proof.
  intros Ho Hv Hs E N.
  assert (W : led_wp (ma_device_init lm os ctx null (Some c)) [] (fun x g =>
    init_outcome lm ctx c (opened c onInit) x.1 x.2 g)).
  { apply (device_init_wp lm os ctx null c onInit _ Ho); [by rewrite Hv, Hs|]. by intros r1 d1 g1 _. }
  destruct (wp_outcome _ _ _ _ _ W E) as (g & Eg & r0 & p & q & Ea & H). cbn [fst snd] in H.
  exists r0, p, q, g. split; [done|]. split; [done|].
  destruct (r0 =? MA_SUCCESS).
  - rewrite (proj2 (Z.eqb_neq _ _) N) in H. destruct H as [Hst He]. split; [done|].
    unfold ma_device_uninit, ma_device__is_initialized. rewrite bool_decide_eq_false_2; [done|]. intros K. by apply K.
  - destruct H as [-> Pg]. split; [done|]. by apply Permutation_singleton_r.
Qed.


(** When a running device is rerouted and there is no memory for its new converter,
    the old one has been released but its members are left as they were: releasing the
    device afterwards releases the converter's block a second time. *)
Theorem reroute_releases_twice lm {C S I : Type} os (ctx : ma_context I (@ma_device_callbacks C S)) null
    (d : @setup C S) size :
  dev_state (su_dev d) <> ma_device_state_uninitialized -> dev_type (su_dev d) = ma_device_type_playback ->
  su_isOwnerOfContext d = false -> onDeviceUninit (deviceCallbacks (ctx_callbacks ctx)) = true ->
  converter_held true d = [] -> converter_held false d = [PlaybackConverter] ->
  default_settings false d = Some d -> su_sampleRate d <> 0 ->
  ma_data_converter_get_heap_size lm (Some (converter_config false d)) = (MA_SUCCESS, size) -> 0 < size ->
  dos_alloc os PlaybackConverter size = false ->
  exists t t', ma_device__post_init_setup lm os d ma_device_type_playback = Some ((MA_OUT_OF_MEMORY, d), t)
    /\ ma_device_uninit ctx null (Some d) = Some (Some (setup_zero null), t')
    /\ (exists g, ledger (dev_owned ctx d) t' = Some g)
    /\ ledger (dev_owned ctx d) (t ++ t') = None.
Proof.
  intros Hs Ht Ho Hu Hc Hp Hd Hr Hsz Hpos Hal.
  assert (Hm : sides_match d) by (split; [done|by rewrite Ht]).
  destruct (device_uninit_releases ctx null d Hs Ho Hm Hu) as (t' & Et & g & Eg & Pg).
  symmetry in Pg; apply Permutation_nil in Pg. subst g.
  exists [Release PlaybackConverter], t'. split; [|split; [done|split; [by eexists|]]].
  - assert (Ec : setup_converter lm os false d = Some ((MA_OUT_OF_MEMORY, d), [Release PlaybackConverter])).
    { unfold setup_converter. unfold converter_held in Hp.
      destruct (get_side false d) as [[sd i] ss] eqn:E. rewrite decide_False by done.
      unfold ma_data_converter_uninit, init_converter, ma_data_converter_init.
      cbn [converter_resource]. rewrite Hsz, Hal.
      rewrite (proj2 (Z.gtb_lt _ _)) by done. rewrite Z.eqb_refl. cbn [negb andb].
      destruct (dc_ownsHeap (converter i) && ss_heap ss); [|done]. cbn. do 3 f_equal.
      cbn in E. injection E as <- <- <-. by destruct d as [[[] ? [] ? ?] ? ? ? ? ? ? [] ?]. }
    unfold ma_device__post_init_setup. cbn [device_captures device_plays].
    rewrite led_bind_opt, Hd, led_bind_opt, (proj2 (Z.eqb_neq _ _) Hr).
    unfold and_then, for_side. change (led_ret (MA_SUCCESS, d)) with (led_opt (R:=dev_resource) (Some (MA_SUCCESS, d))).
    rewrite led_bind_opt, Z.eqb_refl. cbn [negb]. by rewrite Ec.
  - cbn [app ledger]. assert (P : dev_owned ctx d ≡ₚ PlaybackConverter :: (thread_held ctx d ++ [BackendDevice]
      ++ sync_held ++ cache_held d ++ buffer_held true d ++ buffer_held false d)).
    { unfold dev_owned, data_held. rewrite Hc, Hp. solve_Permutation. }
    destruct (remove_one_perm _ _ _ P) as (h1 & -> & P1). apply (ledger_short t' (dev_owned ctx d) h1 PlaybackConverter Eg).
    by rewrite P1.
Qed.

(** Allocating and silencing an intermediary buffer stays within the block exactly when
    the size of the buffer in bytes is less than [2 ^ 32]: the size that is allocated is a
    product of 32-bit integers, and a configuration with longer periods gets a block that
    is too small for the silence written to it. *)
Theorem intermediary_buffer_bounds {C S} os (k : bool) cap (d : @setup C S) :
  let sd := (get_side k d).1.1 in
  let bpf := ma_get_bytes_per_frame (side_format sd) (side_channels sd) in
  0 <= cap < 2 ^ 32 -> (forall n, dos_alloc os (buffer_resource k) n = true) ->
  (init_buffer os k cap d = None <-> 2 ^ 32 <= cap * bpf)
  /\ (cap * bpf < 2 ^ 32 -> exists d', init_buffer os k cap d = Some ((MA_SUCCESS, d'), [Acquire (buffer_resource k)])).
Proof.
  unfold init_buffer. destruct (get_side k d) as [[sd i] ss]. cbn [fst snd]. intros Hcap Hal. rewrite Hal.
  set (b := ma_get_bytes_per_frame (side_format sd) (side_channels sd)).
  assert (Hb : 0 <= b < 2 ^ 32) by (apply wrapu_range; lia).
  assert (E64 : u64 (cap * b) = cap * b) by (apply wrapu_id; unfold in_u; nia).
  assert (H32 : 0 <= u32 (cap * b) < 2 ^ 32) by (apply wrapu_range; lia).
  rewrite E64. destruct (Z.gtb_spec (cap * b) (u32 (cap * b))) as [H|H].
  - assert (2 ^ 32 <= cap * b).
    { destruct (Z.lt_ge_cases (cap * b) (2 ^ 32)); [|done].
      assert (u32 (cap * b) = cap * b) by (apply wrapu_id; unfold in_u; nia). lia. }
    split; [done|lia].
  - split; [|by eexists]. split; [done|lia].
Qed.

(** A loopback device captures, but its capture settings are not checked: with more channels
    than [MA_MAX_CHANNELS] and a map, the map is copied past the end of the device's. *)
Lemma loopback_channels_unchecked lm {C S I : Type} os (ctx : ma_context I (@ma_device_callbacks C S)) null
    (c : @ma_device_config C S) onInit m :
  onDeviceInit (deviceCallbacks (ctx_callbacks ctx)) = Some onInit ->
  dcf_deviceType c = ma_device_type_loopback -> side_config_valid (dcf_playback c) = true ->
  MA_MAX_CHANNELS < scf_channels (dcf_capture c) -> scf_pChannelMap (dcf_capture c) = Some m ->
  config_valid c = true /\ ma_device_init lm os ctx null (Some c) = None.
Proof.
  intros Ho Ht Hp Hn Hm. assert (Hv : config_valid c = true) by (unfold config_valid; by rewrite Ht).
  split; [done|]. unfold ma_device_init. rewrite Ho, Hv. cbn [negb].
  unfold config_device, config_side at 2. cbn [get_side]. unfold copy_map_or_default at 1. rewrite Hm.
  unfold map_fits. by rewrite (proj2 (Z.gtb_lt _ _)) by lia.
Qed.

(** ** Witnesses

    A stereo device of 960-frame periods in 32-bit floats, as the adapter asks for it, on a
    backend whose device is stereo in 16-bit integers. *)

Definition demo_descriptor (x : ma_device_descriptor) : ma_device_descriptor :=
  mk_descriptor None 0 ma_format_s16 2 48000 (wr no_map 0 [MA_CHANNEL_FRONT_LEFT; MA_CHANNEL_FRONT_RIGHT])
    (dsc_periodSizeInFrames x) 0 (dsc_periodCount x).

Definition demo_backend_init (answer : ma_result) (c : @ma_device_config unit Z) (p q : ma_device_descriptor)
    : ma_result * ma_device_descriptor * ma_device_descriptor := (answer, demo_descriptor p, demo_descriptor q).

Definition demo_init_context (answer : ma_result) : ma_context unit (@ma_device_callbacks unit Z) :=
  mk_context ma_backend_alsa
    (mk_callbacks true None None (mk_device_callbacks (Some (demo_backend_init answer)) true true true false))
    true None 0 0 0.

Definition demo_init_config (ty : ma_device_type) : @ma_device_config unit Z :=
  let c := ma_device_config_init (C:=unit) 0 ty in
  let side := mk_side_config None 0 ma_format_f32 2 None ma_channel_mix_mode_rectangular false in
  mk_device_config ty 48000 960 0 0 false false false None 7 (dcf_algorithm c) (dcf_lpfOrder c) None side side.

(** Everything is granted but the blocks of [refused]. *)
Definition demo_dev_os (refused : dev_resource) : dev_os :=
  mk_dev_os MA_SUCCESS (fun _ => MA_SUCCESS) MA_SUCCESS (fun r _ => bool_decide (r <> refused)).

Abbreviation demo_init answer refused ty :=
  (ma_device_init demo_libm (demo_dev_os refused) (demo_init_context answer) 0 (Some (demo_init_config ty))).

Definition demo_initialised (answer : ma_result) (refused : dev_resource) (ty : ma_device_type) : @setup unit Z :=
  match demo_init answer refused ty with Some ((_, d), _) => d | None => setup_zero 0 end.

Definition demo_trace (answer : ma_result) (refused : dev_resource) (ty : ma_device_type) : list (event dev_resource) :=
  match demo_init answer refused ty with Some (_, t) => t | None => [] end.

Lemma demo_init_eq answer refused ty r :
  option_map (fun x => x.1.1) (demo_init answer refused ty) = Some r ->
  demo_init answer refused ty = Some ((r, demo_initialised answer refused ty), demo_trace answer refused ty).
Proof.
  unfold demo_initialised, demo_trace. destruct (ma_device_init _ _ _ _ _) as [[[r' d] t]|]; [|done].
  by intros [= ->].
Qed.

Definition demo_playing : @setup unit Z := demo_initialised MA_SUCCESS (OfContext CtxLog) ma_device_type_playback.

Lemma demo_playing_init :
  demo_init MA_SUCCESS (OfContext CtxLog) ma_device_type_playback
  = Some ((MA_SUCCESS, demo_playing), demo_trace MA_SUCCESS (OfContext CtxLog) ma_device_type_playback).
Proof. apply demo_init_eq. vm_compute. reflexivity. Qed.

Lemma device_init_uninit_balanced_witness :
  exists g, ledger [] (demo_trace MA_SUCCESS (OfContext CtxLog) ma_device_type_playback) = Some g
    /\ g ≡ₚ dev_owned (demo_init_context MA_SUCCESS) demo_playing
    /\ length g = 8%nat.
Proof.
  destruct (device_init_uninit_balanced demo_libm (demo_dev_os (OfContext CtxLog)) (demo_init_context MA_SUCCESS) 0
    (demo_init_config ma_device_type_playback) demo_playing _ demo_playing_init) as (_ & g & Eg & Pg & _).
  exists g. split; [exact Eg|]. split; [exact Pg|]. rewrite Pg. vm_compute. reflexivity.
Defined.

(** The backend refuses the device; and there is no memory for the playback buffer. *)
Lemma device_init_failure_keeps_witness :
  ledger [] (demo_trace MA_NO_DEVICE (OfContext CtxLog) ma_device_type_playback) = Some [StopEvent]
  /\ ma_device_uninit (demo_init_context MA_SUCCESS) 0
       (Some (demo_initialised MA_SUCCESS PlaybackBuffer ma_device_type_playback))
     = Some (Some (demo_initialised MA_SUCCESS PlaybackBuffer ma_device_type_playback), []).
Proof.
  split.
  - destruct (device_init_failure_keeps demo_libm (demo_dev_os (OfContext CtxLog)) (demo_init_context MA_NO_DEVICE) 0
      (demo_init_config ma_device_type_playback) (demo_backend_init MA_NO_DEVICE) MA_NO_DEVICE
      (demo_initialised MA_NO_DEVICE (OfContext CtxLog) ma_device_type_playback)
      (demo_trace MA_NO_DEVICE (OfContext CtxLog) ma_device_type_playback)) as (r0 & p & q & g & Ea & Eg & H);
      [reflexivity|vm_compute; reflexivity|vm_compute; reflexivity|apply demo_init_eq; vm_compute; reflexivity
      |vm_compute; discriminate|].
    injection Ea as <- _ _. change (MA_NO_DEVICE =? MA_SUCCESS) with false in H. destruct H as [_ ->]. exact Eg.
  - destruct (device_init_failure_keeps demo_libm (demo_dev_os PlaybackBuffer) (demo_init_context MA_SUCCESS) 0
      (demo_init_config ma_device_type_playback) (demo_backend_init MA_SUCCESS) MA_OUT_OF_MEMORY
      (demo_initialised MA_SUCCESS PlaybackBuffer ma_device_type_playback)
      (demo_trace MA_SUCCESS PlaybackBuffer ma_device_type_playback)) as (r0 & p & q & g & Ea & Eg & H);
      [reflexivity|vm_compute; reflexivity|vm_compute; reflexivity|apply demo_init_eq; vm_compute; reflexivity
      |vm_compute; discriminate|].
    injection Ea as <- _ _. change (MA_SUCCESS =? MA_SUCCESS) with true in H. apply H.
Defined.

Lemma demo_descriptor_ok x : descriptor_ok (demo_descriptor x).
Proof. split; vm_compute; congruence. Qed.


Lemma reroute_releases_twice_witness :
  exists t t', ma_device__post_init_setup demo_libm (demo_dev_os PlaybackConverter) demo_playing ma_device_type_playback
      = Some ((MA_OUT_OF_MEMORY, demo_playing), t)
    /\ ma_device_uninit (demo_init_context MA_SUCCESS) 0 (Some demo_playing) = Some (Some (setup_zero 0), t')
    /\ ledger (dev_owned (demo_init_context MA_SUCCESS) demo_playing) (t ++ t') = None.
Proof.
  assert (Hs : ma_data_converter_get_heap_size demo_libm (Some (converter_config false demo_playing)) = (MA_SUCCESS, 8))
    by (vm_compute; reflexivity).
  assert (Hd : default_settings false demo_playing = Some demo_playing) by (vm_compute; reflexivity).
  assert (Hst : dev_state (su_dev demo_playing) <> ma_device_state_uninitialized) by (vm_compute; discriminate).
  assert (Hr : su_sampleRate demo_playing <> 0) by (vm_compute; discriminate).
  assert (Hh : converter_held true demo_playing = [] /\ converter_held false demo_playing = [PlaybackConverter])
    by (split; vm_compute; reflexivity).
  assert (Ht : dev_type (su_dev demo_playing) = ma_device_type_playback /\ su_isOwnerOfContext demo_playing = false)
    by (split; vm_compute; reflexivity).
  destruct (reroute_releases_twice demo_libm (demo_dev_os PlaybackConverter) (demo_init_context MA_SUCCESS) 0 demo_playing
    8 Hst (proj1 Ht) (proj2 Ht) eq_refl (proj1 Hh) (proj2 Hh) Hd Hr Hs eq_refl eq_refl)
    as (t & t' & H1 & H2 & _ & H3).
  exists t, t'. split; [exact H1|]. split; [exact H2|exact H3].
Defined.

Lemma intermediary_buffer_bounds_witness :
  init_buffer (demo_dev_os (OfContext CtxLog)) false 536870912 demo_playing = None.
Proof.
  apply (intermediary_buffer_bounds (demo_dev_os (OfContext CtxLog)) false 536870912 demo_playing);
    [split; [discriminate|reflexivity]|reflexivity|].
  vm_compute. discriminate.
Defined.
