(* ===== verification/FloatBlocks.v ===== *)
(** * Arrays of floats

    The signal processing code keeps its state in arrays of [float] that are allocated once
    and never change size.  A [memory] is the list of these arrays, an array being named by
    an enumeration of the component ([BlockName]); [sigM] is the effect of code that reads
    and writes them, undefined where an index is out of range.

    [safe sz m Q]: in every memory whose arrays have the sizes [sz], [m] is defined, leaves
    the sizes as they are and returns a value with [Q].  One rule per construct. *)
From Stdlib Require Import ZArith Lia Bool SpecFloat.
From stdpp Require Import base numbers list option.
From S2P Require Import Prelude Loops CFloat.

Local Open Scope Z_scope.

(** ** Expressions of [float] and [double] *)

Declare Scope cfloat_scope.
Delimit Scope cfloat_scope with cfloat.
Infix "+f" := f32_add (at level 50, left associativity) : cfloat_scope.
Infix "-f" := f32_sub (at level 50, left associativity) : cfloat_scope.
Infix "*f" := f32_mul (at level 40, left associativity) : cfloat_scope.
Infix "/f" := f32_div (at level 40, left associativity) : cfloat_scope.
Infix "+d" := f64_add (at level 50, left associativity) : cfloat_scope.
Infix "-d" := f64_sub (at level 50, left associativity) : cfloat_scope.
Infix "*d" := f64_mul (at level 40, left associativity) : cfloat_scope.
Infix "/d" := f64_div (at level 40, left associativity) : cfloat_scope.
Infix "<." := SFltb (at level 70) : cfloat_scope.
Infix "<=." := SFleb (at level 70) : cfloat_scope.

(** [floor], of either width. *)
Definition sf_floor (f : spec_float) : option Z :=
  match f with
  | S754_zero _ => Some 0
  | S754_finite s m e =>
      Some (if 0 <=? e then cond_Zopp s (Z.pos m) * 2 ^ e else cond_Zopp s (Z.pos m) / 2 ^ (- e))
  | _ => None
  end.

(** ** Memory *)

Abbreviation memory := (list (list spec_float)).
Definition sigM (A : Type) : Type := memory -> option (A * memory).

Class BlockName (B : Type) := block_index : B -> nat.

Definition sig_ret {A} (x : A) : sigM A := fun m => Some (x, m).
Definition sig_bind {A B} (c : sigM A) (f : A -> sigM B) : sigM B := fun m =>
  match c m with None => None | Some (x, m) => f x m end.
Definition sig_opt {A} (x : option A) : sigM A := fun m =>
  match x with None => None | Some x => Some (x, m) end.

Declare Scope sig_scope.
Delimit Scope sig_scope with sig.
Notation "'let*' x ':=' c 'in' k" := (sig_bind c (fun x => k))
  (at level 10, x pattern, c at level 100, k at level 200) : sig_scope.
Notation "c ;; k" := (sig_bind c (fun _ => k)) : sig_scope.

(** The elements of an array, by index. *)
Definition at_index {A} (l : list A) (i : Z) : option A :=
  if 0 <=? i then l !! Z.to_nat i else None.
Definition set_index {A} (l : list A) (i : Z) (x : A) : option (list A) :=
  if (0 <=? i) && (i <? zlen l) then Some (<[Z.to_nat i := x]> l) else None.

(** The [n] elements from [off] on. *)
Definition part {A} (l : list A) (off n : Z) : option (list A) :=
  if (0 <=? off) && (0 <=? n) && (off + n <=? zlen l) then Some (rd l off n) else None.

Section blocks.
Context {B : Type} `{BlockName B}.

Definition get_block (b : B) : sigM (list spec_float) := fun m =>
  match m !! block_index b with None => None | Some l => Some (l, m) end.
Definition set_block (b : B) (l : list spec_float) : sigM unit := fun m =>
  Some (tt, <[block_index b := l]> m).

(** [b[i]], [b[i] = x] *)
Definition ld_f (b : B) (i : Z) : sigM spec_float :=
  sig_bind (get_block b) (fun l => sig_opt (at_index l i)).
Definition st_f (b : B) (i : Z) (x : spec_float) : sigM unit :=
  sig_bind (get_block b) (fun l => sig_bind (sig_opt (set_index l i x)) (set_block b)).

(** What a function reads through [b + off] and writes through [b + off]. *)
Definition read_part (b : B) (off n : Z) : sigM (list spec_float) :=
  sig_bind (get_block b) (fun l => sig_opt (part l off n)).
Definition write_part (b : B) (off : Z) (d : list spec_float) : sigM unit :=
  sig_bind (get_block b) (fun l =>
  sig_bind (sig_opt (part l off (zlen d))) (fun _ => set_block b (wr l off d))).

(** A pointer into an array. *)
Definition ptr : Type := B * Z.
Definition padd (p : ptr) (k : Z) : ptr := (p.1, p.2 + k).
Definition ldp (p : ptr) (i : Z) : sigM spec_float := ld_f p.1 (p.2 + i).
Definition stp (p : ptr) (i : Z) (x : spec_float) : sigM unit := st_f p.1 (p.2 + i) x.
Definition read_p (p : ptr) (n : Z) : sigM (list spec_float) := read_part p.1 p.2 n.
Definition write_p (p : ptr) (d : list spec_float) : sigM unit := write_part p.1 p.2 d.
End blocks.
Arguments ptr B : clear implicits.

(** [for (i = i0; i < i0 + n; i++) body(i);] *)
Fixpoint sig_for (n : nat) (i : Z) (body : Z -> sigM unit) : sigM unit :=
  match n with
  | O => sig_ret tt
  | S n => sig_bind (body i) (fun _ => sig_for n (i + 1) body)
  end.
Definition for_sig (i0 i1 : Z) (body : Z -> sigM unit) : sigM unit := sig_for (Z.to_nat (i1 - i0)) i0 body.

(** The same with a value that the turns change. *)
Fixpoint sig_fold {A} (n : nat) (i : Z) (body : Z -> A -> sigM A) (x : A) : sigM A :=
  match n with
  | O => sig_ret x
  | S n => sig_bind (body i x) (fun x => sig_fold n (i + 1) body x)
  end.
Definition fold_sig {A} (i0 i1 : Z) (body : Z -> A -> sigM A) (x : A) : sigM A :=
  sig_fold (Z.to_nat (i1 - i0)) i0 body x.

(** ** Safety *)

Lemma zlen_insert {A} (l : list A) i x : zlen (<[i := x]> l) = zlen l.
Proof. unfold zlen. by rewrite length_insert. Qed.

Lemma at_index_some {A} (l : list A) i : 0 <= i < zlen l -> exists x, at_index l i = Some x.
Proof.
  intros Hi. unfold at_index. rewrite (proj2 (Z.leb_le 0 i)) by lia.
  apply lookup_lt_is_Some. unfold zlen in Hi. lia.
Qed.

Lemma at_index_range {A} (l : list A) i x : at_index l i = Some x -> 0 <= i < zlen l.
Proof.
  unfold at_index. destruct (Z.leb_spec 0 i); [|done]. intros E%lookup_lt_Some. unfold zlen. lia.
Qed.

Lemma set_index_some {A} (l : list A) i x :
  0 <= i < zlen l -> set_index l i x = Some (<[Z.to_nat i := x]> l).
Proof. intros. unfold set_index. by rewrite (proj2 (Z.leb_le 0 i)), (proj2 (Z.ltb_lt i _)) by lia. Qed.

Lemma part_some {A} (l : list A) off n :
  0 <= off -> 0 <= n -> off + n <= zlen l -> part l off n = Some (rd l off n).
Proof. intros. unfold part. by rewrite !(proj2 (Z.leb_le _ _)) by lia. Qed.

Definition sized (sz : nat -> Z) (m : memory) : Prop :=
  forall i l, m !! i = Some l -> zlen l = sz i.

Section safety.
Context (sz : nat -> Z) (blocks : nat).
Implicit Types m : memory.

(** The arrays of [m], [blocks] many, have the sizes [sz]. *)
Definition shaped m : Prop := length m = blocks /\ sized sz m.

Definition safe {A} (c : sigM A) (Q : A -> Prop) : Prop :=
  forall m, shaped m -> exists x m', c m = Some (x, m') /\ shaped m' /\ Q x.

Lemma safe_ret {A} (x : A) (Q : A -> Prop) : Q x -> safe (sig_ret x) Q.
Proof. intros HQ m Hm. eauto. Qed.

Lemma safe_bind {A C} (c : sigM A) (f : A -> sigM C) Q R :
  safe c Q -> (forall x, Q x -> safe (f x) R) -> safe (sig_bind c f) R.
Proof.
  intros Hc Hf m Hm. destruct (Hc m Hm) as (x & m' & E & Hm' & Hx).
  unfold sig_bind. rewrite E. by apply (Hf x).
Qed.

Lemma safe_mono {A} (c : sigM A) (Q R : A -> Prop) : safe c Q -> (forall x, Q x -> R x) -> safe c R.
Proof. intros Hc HQR m Hm. destruct (Hc m Hm) as (x & m' & ? & ? & ?). exists x, m'. auto. Qed.

Lemma safe_opt {A} (x : option A) (Q : A -> Prop) : (exists y, x = Some y /\ Q y) -> safe (sig_opt x) Q.
Proof. intros (y & -> & HQ) m Hm. exists y, m. done. Qed.

Lemma safe_for n i body :
  (forall k, i <= k < i + Z.of_nat n -> safe (body k) (fun _ => True)) ->
  safe (sig_for n i body) (fun _ => True).
Proof.
  revert i. induction n as [|n IH]; intros i Hb; cbn [sig_for]; [by apply safe_ret|].
  eapply safe_bind; [apply Hb; lia|]. intros _ _. apply IH. intros k Hk. apply Hb. lia.
Qed.

Lemma safe_for_sig i0 i1 body :
  (forall k, i0 <= k < i1 -> safe (body k) (fun _ => True)) ->
  safe (for_sig i0 i1 body) (fun _ => True).
Proof. intros Hb. apply safe_for. intros k Hk. apply Hb. lia. Qed.

Lemma safe_fold {A} n i body (x : A) (Q : A -> Prop) :
  Q x -> (forall k y, i <= k < i + Z.of_nat n -> Q y -> safe (body k y) Q) ->
  safe (sig_fold n i body x) Q.
Proof.
  revert i x. induction n as [|n IH]; intros i x Hx Hb; cbn [sig_fold]; [by apply safe_ret|].
  eapply safe_bind; [apply Hb; [lia|done]|]. intros y Hy. apply IH; [done|].
  intros k z Hk. apply Hb. lia.
Qed.

Lemma safe_fold_sig {A} i0 i1 body (x : A) (Q : A -> Prop) :
  Q x -> (forall k y, i0 <= k < i1 -> Q y -> safe (body k y) Q) -> safe (fold_sig i0 i1 body x) Q.
Proof. intros Hx Hb. apply safe_fold; [done|]. intros k y Hk. apply Hb. lia. Qed.

(** With an invariant that counts the turns. *)
Lemma safe_fold_at {A} i0 i1 body (x : A) (Q : Z -> A -> Prop) :
  i0 <= i1 -> Q i0 x -> (forall k y, i0 <= k < i1 -> Q k y -> safe (body k y) (Q (k + 1))) ->
  safe (fold_sig i0 i1 body x) (Q i1).
Proof.
  intros Hi. unfold fold_sig. remember (Z.to_nat (i1 - i0)) as n eqn:En.
  assert (E : i1 = i0 + Z.of_nat n) by lia. clear En Hi. revert i0 x E.
  induction n as [|n IH]; intros i x E Hx Hb; cbn [sig_fold]; [apply safe_ret; by replace i1 with i by lia|].
  eapply safe_bind; [apply Hb; [lia|done]|]. intros y Hy. apply IH; [lia|done|]. intros k z Hk. apply Hb. lia.
Qed.

Section names.
Context {B : Type} `{BlockName B} (Hnames : forall b : B, (block_index b < blocks)%nat).
Implicit Types b : B.

(** The size of an array by its name. *)
Definition size_of b : Z := sz (block_index b).

Lemma safe_get_block b : safe (get_block b) (fun l => zlen l = size_of b).
Proof using Hnames.
  intros m [Hl Hm]. unfold get_block.
  destruct (lookup_lt_is_Some_2 m (block_index b)) as [l E]; [rewrite Hl; apply Hnames|].
  rewrite E. exists l, m. split; [done|]. split; [done|]. by apply Hm.
Qed.

Lemma safe_set_block b l : zlen l = size_of b -> safe (set_block b l) (fun _ => True).
Proof.
  intros Hl m [Hm Hs]. exists tt, (<[block_index b := l]> m). split; [done|]. split; [|done].
  split; [by rewrite length_insert|]. intros i k. rewrite list_lookup_insert_Some.
  intros [(<- & <- & _)|[_ E]]; [done|]. by apply Hs.
Qed.

Lemma safe_ld b i : 0 <= i < size_of b -> safe (ld_f b i) (fun _ => True).
Proof using Hnames.
  intros Hi. eapply safe_bind; [apply safe_get_block|]. intros l Hl. cbv beta in Hl. apply safe_opt.
  destruct (at_index_some l i) as [x E]; [lia|]. eauto.
Qed.

Lemma safe_st b i x : 0 <= i < size_of b -> safe (st_f b i x) (fun _ => True).
Proof using Hnames.
  intros Hi. eapply safe_bind; [apply safe_get_block|]. intros l Hl. cbv beta in Hl.
  eapply (safe_bind _ _ (fun l' => zlen l' = size_of b)).
  - apply safe_opt. rewrite set_index_some by lia. eexists. split; [done|]. by rewrite zlen_insert.
  - intros l' Hl'. by apply safe_set_block.
Qed.

Lemma safe_read_part b off n :
  0 <= off -> 0 <= n -> off + n <= size_of b -> safe (read_part b off n) (fun l => zlen l = n).
Proof using Hnames.
  intros H0 Hn Hb. eapply safe_bind; [apply safe_get_block|]. intros l Hl. cbv beta in Hl. apply safe_opt.
  rewrite part_some by lia. eexists. split; [done|]. apply zlen_rd; lia.
Qed.

Lemma safe_write_part b off d :
  0 <= off -> off + zlen d <= size_of b -> safe (write_part b off d) (fun _ => True).
Proof using Hnames.
  intros H0 Hb. eapply safe_bind; [apply safe_get_block|]. intros l Hl. cbv beta in Hl.
  pose proof (zlen_nonneg d). rewrite part_some by lia.
  eapply (safe_bind _ _ (fun _ => True)); [apply safe_opt; eauto|]. intros _ _.
  apply safe_set_block. rewrite zlen_wr; lia.
Qed.

(** [n] elements at [p] are in range. *)
Definition room (p : ptr B) (n : Z) : Prop := 0 <= p.2 /\ p.2 + n <= size_of p.1.

Lemma safe_ldp p i n : room p n -> 0 <= i < n -> safe (ldp p i) (fun _ => True).
Proof using Hnames. unfold room. intros. apply safe_ld. lia. Qed.

Lemma safe_stp p i x n : room p n -> 0 <= i < n -> safe (stp p i x) (fun _ => True).
Proof using Hnames. unfold room. intros. apply safe_st. lia. Qed.

Lemma safe_read_p p n : room p n -> 0 <= n -> safe (read_p p n) (fun l => zlen l = n).
Proof using Hnames. unfold room. intros. apply safe_read_part; lia. Qed.

Lemma safe_write_p p d : room p (zlen d) -> safe (write_p p d) (fun _ => True).
Proof using Hnames. unfold room. intros. apply safe_write_part; lia. Qed.
End names.
End safety.
