(* ===== verification/SpeexArith.v ===== *)
(** * SpeexDSP: arithmetic and Fourier transforms (arch.h, math_approx.h, pseudofloat.h, fftwrap.c)

    The library is built with [FLOATING_POINT] and [USE_SMALLFT]: [spx_word16_t],
    [spx_word32_t] and [spx_float_t] are [float], and the macros for fixed point are plain
    operators.  Constants without the suffix [f] are [double], and so are the operations
    that have such an operand.

    The functions of the C library are a class, and so is what the components ask of the
    transform; [SmallFt] models [smallft.c], and [SmallFtPure] shows that it is an instance. *)
From Stdlib Require Import ZArith Lia Bool SpecFloat.
From stdpp Require Import base numbers list option.
From S2P Require Import Prelude CFloat FloatBlocks.

Local Open Scope Z_scope.
Local Open Scope cfloat_scope.

(** [exp], [cos], [sin], [atan], [log] and [pow] of [math.h]; [int16_undefined] and
    [int32_undefined] are what the conversion of a number that is out of the range of the
    type gives (undefined in C). *)
Class SpeexLibm := {
  c_exp : spec_float -> spec_float;
  c_cos : spec_float -> spec_float;
  c_sin : spec_float -> spec_float;
  c_atan : spec_float -> spec_float;
  c_log : spec_float -> spec_float;
  c_pow : spec_float -> spec_float -> spec_float;
  int16_undefined : Z;
  int16_undefined_range : in_s 16 int16_undefined;
  int32_undefined : Z;
  int32_undefined_range : in_s 32 int32_undefined }.

Definition M_PI : spec_float := f64_lit 314159265358979323846 (10 ^ 20).

(** [(float)(x)] and the promotion of a [float] operand. *)
Definition flt (x : spec_float) : spec_float := f32_of_f64 x.
Definition dbl (x : spec_float) : spec_float := f64_of_f32 x.

(** [sqrt] of the C library, on [double]. *)
Definition spx_sqrt (x : spec_float) : spec_float := SFsqrt 53 1024 x.

Definition ABS32 (x : spec_float) : spec_float := if x <. f32_zero then SFopp x else x.
Definition MIN32 (a b : spec_float) : spec_float := if a <. b then a else b.
Definition MAX32 (a b : spec_float) : spec_float := if b <. a then a else b.

Section arith.
Context `{SpeexLibm}.

(** [(spx_int16_t)x] of a [double]. *)
Definition int16_of_f64 (x : spec_float) : Z :=
  match sf_to_s 16 x with Some z => z | None => int16_undefined end.

Definition int32_of_f32 (x : spec_float) : Z :=
  match sf_to_s 32 x with Some z => z | None => int32_undefined end.

(** [floor] gives a [double] again. *)
Definition f64_floor (x : spec_float) : spec_float :=
  match x with
  | S754_finite s m e => match sf_floor x with Some z => f64_of_Z z | None => x end
  | _ => x
  end.

Definition WORD2INT (x : spec_float) : Z :=
  if x <. SFopp (f32_lit 327675 10) then -32768
  else if f32_lit 327665 10 <. x then 32767
  else int16_of_f64 (f64_floor (f64_lit 1 2 +d dbl x)).
End arith.

Lemma word2int_range `{SpeexLibm} x : in_s 16 (WORD2INT x).
Proof.
  unfold WORD2INT, int16_of_f64, sf_to_s.
  repeat case_match; simplify_eq; try (vm_compute; split; congruence); try exact int16_undefined_range.
  match goal with E : in_sb 16 _ = true |- _ => revert E end. unfold in_sb, in_s.
  rewrite andb_true_iff, Z.leb_le, Z.ltb_lt. done.
Qed.

(** ** Fourier transforms

    What [fftwrap.c] and its callers ask of [smallft.c]: transforms of [n] numbers in place,
    half-complex (the real part of coefficient 0, then real and imaginary parts
    alternating).  [SmallFtPure.smallft] is the instance. *)
Class Drft := {
  spx_drft_forward : Z -> list spec_float -> list spec_float;
  spx_drft_backward : Z -> list spec_float -> list spec_float;
  drft_forward_length n l : zlen (spx_drft_forward n l) = zlen l;
  drft_backward_length n l : zlen (spx_drft_backward n l) = zlen l }.

Section transforms.
Context `{Drft}.

(** What [spx_fft] and [spx_ifft] leave in [out] for the [n] numbers at [in]. *)
Definition spx_fft (n : Z) (l : list spec_float) : list spec_float :=
  let scale := flt (f64_of_Z 1 /d f64_of_Z n) in
  spx_drft_forward n (map (fun x => scale *f x) l).

Definition spx_ifft (n : Z) (l : list spec_float) : list spec_float := spx_drft_backward n l.

Lemma zlen_map {A C} (f : A -> C) l : zlen (map f l) = zlen l.
Proof. unfold zlen. by rewrite length_map. Qed.

Lemma zlen_fft n l : zlen (spx_fft n l) = zlen l.
Proof. unfold spx_fft. by rewrite drft_forward_length, zlen_map. Qed.

Lemma zlen_ifft n l : zlen (spx_ifft n l) = zlen l.
Proof. apply drft_backward_length. Qed.
End transforms.
