(* ===== verification/FloatDeps.v ===== *)
(** * What a computation on arrays of floats depends on

    [deps D c Q W]: two runs of [c] from memories that agree on the places [D] give the same
    value [x], with [Q x]; the memories they leave agree on the places [W x] and wherever
    they agreed before; and no run changes a place of [kept].  So a result in [W x] depends
    on nothing outside [D].  One rule per construct, as for [safe]. *)
From Stdlib Require Import ZArith Lia Bool SpecFloat.
From stdpp Require Import base numbers list option.
From S2P Require Import Prelude CFloat FloatBlocks.

Local Open Scope Z_scope.

Section places.
Context {B : Type} `{BlockName B}.

Definition place : Type := B * Z.

(** What a memory has at a place. *)
Definition cell_at (m : memory) (p : place) : option spec_float :=
  l ← m !! block_index p.1; at_index l p.2.

Definition agree (D : place -> Prop) (m1 m2 : memory) : Prop := forall p, D p -> cell_at m1 p = cell_at m2 p.

(** The [n] places from a pointer on. *)
Definition full (p : ptr B) (n : Z) : place -> Prop := fun q => q.1 = p.1 /\ p.2 <= q.2 < p.2 + n.
Definition spot (p : ptr B) (i : Z) : place -> Prop := eq (p.1, p.2 + i).
Definition none : place -> Prop := fun _ => False.
Definition either (D W : place -> Prop) : place -> Prop := fun p => D p \/ W p.
Definition within (W D : place -> Prop) : Prop := forall p, W p -> D p.

Lemma at_index_set (l : list spec_float) i x l' j :
  set_index l i x = Some l' -> at_index l' j = if decide (j = i) then Some x else at_index l j.
Proof.
  unfold set_index. destruct ((0 <=? i) && (i <? zlen l)) eqn:E; [|done]. intros [= <-].
  apply andb_true_iff in E as [Hi%Z.leb_le Hl%Z.ltb_lt]. unfold at_index, zlen in *. case_decide.
  - subst j. rewrite (proj2 (Z.leb_le 0 i)) by lia. apply list_lookup_insert_eq. lia.
  - destruct (Z.leb_spec 0 j); [|done]. apply list_lookup_insert_ne. lia.
Qed.

(** A store changes its place only. *)
Lemma cell_at_st (b : B) i x m u m' :
  st_f b i x m = Some (u, m') ->
  forall p : place, cell_at m' p = if decide (block_index p.1 = block_index b /\ p.2 = i) then Some x else cell_at m p.
Proof.
  unfold st_f, sig_bind, get_block, sig_opt, set_block.
  destruct (m !! block_index b) as [l|] eqn:El; [|done]. destruct (set_index l i x) as [l'|] eqn:E; [|done].
  intros [= _ <-] [c j]. unfold cell_at. cbn [fst snd]. pose proof (lookup_lt_Some _ _ _ El).
  destruct (decide (block_index c = block_index b)) as [Ec|Ec].
  - rewrite Ec, list_lookup_insert_eq by done. rewrite El. cbn [mbind option_bind].
    rewrite (at_index_set _ _ _ _ _ E). destruct (decide (j = i)); [by rewrite decide_True|].
    rewrite decide_False; [done|]. by intros [].
  - rewrite list_lookup_insert_ne by done. rewrite decide_False; [done|]. by intros [].
Qed.

Section deps.
Context (kept : place -> Prop).

Definition deps {A} (D : place -> Prop) (c : sigM A) (Q : A -> Prop) (W : A -> place -> Prop) : Prop :=
  forall m1 m2 x1 x2 m1' m2', agree D m1 m2 -> c m1 = Some (x1, m1') -> c m2 = Some (x2, m2') ->
    x1 = x2 /\ Q x1 /\ (forall p, cell_at m1 p = cell_at m2 p \/ W x1 p -> cell_at m1' p = cell_at m2' p) /\
    (forall p, kept p -> cell_at m1' p = cell_at m1 p).

(** The common case: no more is known of the value. *)
Definition writes {A} (D : place -> Prop) (c : sigM A) (W : place -> Prop) : Prop :=
  deps D c (fun _ => True) (fun _ => W).

Lemma deps_ret {A} D (x : A) (Q : A -> Prop) (W : A -> place -> Prop) :
  Q x -> within (W x) D -> deps D (sig_ret x) Q W.
Proof.
  intros HQ HW m1 m2 x1 x2 m1' m2' Hm [= <- <-] [= <- <-]. repeat split; auto.
  intros p [?|?]; auto.
Qed.

Lemma deps_bind {A C} D (c : sigM A) (f : A -> sigM C) Q Q' W W' :
  deps D c Q W -> (forall x, Q x -> deps (either D (W x)) (f x) Q' W') -> deps D (sig_bind c f) Q' W'.
Proof.
  intros Hc Hf m1 m2 x1 x2 m1' m2' Hm. unfold sig_bind.
  destruct (c m1) as [[y1 k1]|] eqn:E1; [|done]. destruct (c m2) as [[y2 k2]|] eqn:E2; [|done]. intros F1 F2.
  destruct (Hc _ _ _ _ _ _ Hm E1 E2) as (<- & HQ & Ha & Hk).
  destruct (Hf y1 HQ k1 k2 x1 x2 m1' m2') as (-> & HQ' & Ha' & Hk'); [|done..|].
  { intros p [HD|HW]; auto. }
  repeat split; [done| |]. 
  - intros p [Hp|Hp]; auto.
  - intros p Hp. rewrite Hk' by done. auto.
Qed.

Lemma deps_mono {A} D D' (c : sigM A) (Q Q' : A -> Prop) (W W' : A -> place -> Prop) :
  deps D c Q W -> within D D' -> (forall x, Q x -> Q' x) -> (forall x, Q x -> within (W' x) (either D' (W x))) ->
  deps D' c Q' W'.
Proof.
  intros Hc HD HQ HW m1 m2 x1 x2 m1' m2' Hm E1 E2.
  destruct (Hc m1 m2 x1 x2 m1' m2') as (-> & Hq & Ha & Hk); [intros p Hp; auto|done..|].
  repeat split; [auto| |done]. intros p [Hp|Hp]; [auto|]. destruct (HW x2 Hq p Hp); auto.
Qed.

Lemma deps_opt {A} D (x : option A) (Q : A -> Prop) : (forall y, x = Some y -> Q y) -> deps D (sig_opt x) Q (fun _ => none).
Proof.
  intros HQ m1 m2 x1 x2 m1' m2' Hm E1 E2. unfold sig_opt in *. destruct x as [y|]; [|done].
  injection E1 as <- <-. injection E2 as <- <-.
  split; [done|]. split; [by apply HQ|]. split; [|done]. intros p [?|[]]. done.
Qed.

Lemma deps_fold_at {A} i0 i1 body (x : A) (D : place -> Prop) (Q : Z -> A -> Prop) (W : Z -> A -> place -> Prop) :
  i0 <= i1 -> Q i0 x -> within (W i0 x) D ->
  (forall k y, i0 <= k < i1 -> Q k y -> deps (either D (W k y)) (body k y) (Q (k + 1)) (W (k + 1))) ->
  deps D (fold_sig i0 i1 body x) (Q i1) (W i1).
Proof.
  intros Hi. unfold fold_sig. remember (Z.to_nat (i1 - i0)) as n eqn:En.
  assert (E : i1 = i0 + Z.of_nat n) by lia. clear En Hi. revert i0 x D E.
  induction n as [|n IH]; intros i x D E Hx HW Hb; cbn [sig_fold].
  { replace i1 with i by lia. by apply deps_ret. }
  eapply (deps_bind _ _ _ (Q (i + 1)) _ (W (i + 1))).
  - eapply deps_mono; [apply (Hb i x); [lia|done]| |auto|].
    + intros p [?|?]; auto.
    + intros y _ p Hp. by right.
  - intros y Hy. apply IH; [lia|done|intros p; by right|]. intros k z Hk Hz.
    eapply deps_mono; [apply (Hb k z); [lia|done]| |auto|].
    + intros p [?|?]; [by left; left|by right].
    + intros w _ p Hp. by right.
Qed.

(** ** The rules for [writes] *)

Lemma w_ret {A} D (x : A) W : within W D -> writes D (sig_ret x) W.
Proof. intros HW. by apply deps_ret. Qed.

Lemma w_bind {A C} D (c : sigM A) (f : A -> sigM C) W W' :
  writes D c W -> (forall x, writes (either D W) (f x) W') -> writes D (sig_bind c f) W'.
Proof. intros Hc Hf. eapply deps_bind; [exact Hc|]. intros x _. apply Hf. Qed.

Lemma w_mono {A} D D' (c : sigM A) W W' :
  writes D c W -> within D D' -> within W' (either D' W) -> writes D' c W'.
Proof. intros Hc HD HW. by eapply deps_mono. Qed.

(** What was there before is still there. *)
Lemma w_have {A} D (c : sigM A) W : writes D c none -> within W D -> writes D c W.
Proof. intros Hc HW. eapply w_mono; [exact Hc|by intros p|]. intros p Hp. left. auto. Qed.

Lemma w_then {A C} D (c : sigM A) (f : A -> sigM C) W :
  writes D c none -> (forall x, writes D (f x) W) -> writes D (sig_bind c f) W.
Proof.
  intros Hc Hf. eapply w_bind; [exact Hc|]. intros x. eapply w_mono; [apply Hf|intros p; by left|intros p; by right].
Qed.

Lemma w_first {A C} D (c : sigM A) (f : A -> sigM C) W :
  writes D c W -> (forall x, writes D (f x) none) -> writes D (sig_bind c f) W.
Proof.
  intros Hc Hf. eapply w_bind; [exact Hc|]. intros x. apply w_have; [|intros p; by right].
  eapply w_mono; [apply Hf|intros p; by left|by intros p []].
Qed.

Lemma w_all {A} D (c : sigM A) W : writes D c none -> (forall p, W p -> writes D c (eq p)) -> writes D c W.
Proof.
  intros Hc HW m1 m2 x1 x2 m1' m2' Hm E1 E2. destruct (Hc _ _ _ _ _ _ Hm E1 E2) as (-> & _ & Ha & Hk).
  repeat split; [|done]. intros p [Hp|Hp]; [auto|].
  destruct (HW p Hp _ _ _ _ _ _ Hm E1 E2) as (_ & _ & Hb & _). auto.
Qed.

Lemma w_opt {A} D (x : option A) : writes D (sig_opt x) none.
Proof. by apply deps_opt. Qed.

Lemma w_ldp D (p : ptr B) i n : within (full p n) D -> 0 <= i < n -> writes D (ldp p i) none.
Proof.
  intros HD Hi m1 m2 x1 x2 m1' m2' Hm. assert (Hp : D (p.1, p.2 + i)) by (apply HD; split; cbn; [done|lia]).
  pose proof (Hm _ Hp) as E. unfold cell_at in E. cbn [fst snd] in E.
  unfold ldp, ld_f, get_block, sig_bind, sig_opt.
  destruct (m1 !! block_index p.1) as [l1|]; [|done]. destruct (m2 !! block_index p.1) as [l2|]; [|done].
  cbn [mbind option_bind] in E. rewrite E. destruct (at_index l2 (p.2 + i)); [|done].
  intros [= <- <-] [= <- <-]. repeat split. intros q [?|[]]. done.
Qed.

Lemma w_stp D (p : ptr B) i x : ~ kept (p.1, p.2 + i) -> (forall c : B, block_index c = block_index p.1 -> c = p.1) ->
  writes D (stp p i x) (spot p i).
Proof.
  intros Hk Hinj m1 m2 x1 x2 m1' m2' Hm E1 E2. destruct x1, x2. unfold stp in *.
  pose proof (cell_at_st _ _ _ _ _ _ E1) as F1. pose proof (cell_at_st _ _ _ _ _ _ E2) as F2.
  repeat split.
  - intros q Hq. rewrite F1, F2. case_decide as Hd; [done|]. destruct Hq as [Hq|<-]; [done|]. by destruct Hd.
  - intros q Hq. rewrite F1. rewrite decide_False; [done|]. intros [Hb Hi]. apply Hk.
    destruct q as [c j]. cbn in *. by rewrite <- (Hinj c Hb), <- Hi.
Qed.

Lemma w_fold {A} D i0 i1 body (x : A) : (forall k y, i0 <= k < i1 -> writes D (body k y) none) ->
  writes D (fold_sig i0 i1 body x) none.
Proof.
  intros Hb. unfold fold_sig. assert (Hr : forall k, i0 <= k < i0 + Z.of_nat (Z.to_nat (i1 - i0)) -> i0 <= k < i1) by lia.
  revert Hr. generalize (Z.to_nat (i1 - i0)) as n. intros n Hr.
  assert (Hb' : forall k y, i0 <= k < i0 + Z.of_nat n -> writes D (body k y) none) by (intros; apply Hb; auto).
  clear Hb Hr. revert i0 x Hb'. induction n as [|n IH]; intros i x Hb; cbn [sig_fold]; [apply w_ret; by intros p|].
  apply w_then; [apply Hb; lia|]. intros y. apply IH. intros k z Hk. apply Hb. lia.
Qed.

Lemma w_for_n D n i body : (forall k, i <= k < i + Z.of_nat n -> writes D (body k) none) ->
  writes D (sig_for n i body) none.
Proof.
  revert i. induction n as [|n IH]; intros i Hb; cbn [sig_for]; [apply w_ret; by intros p|].
  apply w_then; [apply Hb; lia|]. intros _. apply IH. intros k Hk. apply Hb. lia.
Qed.

Lemma w_for_none D i0 i1 body :
  (forall k, i0 <= k < i1 -> writes D (body k) none) -> writes D (for_sig i0 i1 body) none.
Proof. intros Hb. apply w_for_n. intros k Hk. apply Hb. lia. Qed.

(** Turn [k] does it. *)
Lemma w_for_hit D i0 i1 body W k :
  (forall k, i0 <= k < i1 -> writes D (body k) none) -> i0 <= k < i1 -> writes D (body k) W ->
  writes D (for_sig i0 i1 body) W.
Proof.
  intros Hb Hk Hw. unfold for_sig.
  assert (Hb' : forall j, i0 <= j < i0 + Z.of_nat (Z.to_nat (i1 - i0)) -> writes D (body j) none) by (intros; apply Hb; lia).
  assert (Hk' : i0 <= k < i0 + Z.of_nat (Z.to_nat (i1 - i0))) by lia. clear Hb Hk. revert Hb' Hk'.
  generalize (Z.to_nat (i1 - i0)) as n. intros n. revert i0.
  induction n as [|n IH]; intros i Hb Hk; cbn [sig_for]; [lia|]. destruct (decide (k = i)) as [->|].
  - apply w_first; [done|]. intros _. apply w_for_n. intros j Hj. apply Hb. lia.
  - apply w_then; [apply Hb; lia|]. intros _. apply IH; [|lia]. intros j Hj. apply Hb. lia.
Qed.
End deps.
End places.
