(* ===== verification/SmallFt.v ===== *)
(** * SpeexDSP: the transform of smallft.c

    The mixed-radix transform of real data: [spx_drft_init] factors the length and computes
    the twiddle factors, [spx_drft_forward] and [spx_drft_backward] make one pass per
    factor, between the data and the scratch part of the table.  The running indices
    [t1], [t2], ... of the code are written as what they are in each turn of its loops. *)
From Stdlib Require Import ZArith Lia Bool SpecFloat.
From stdpp Require Import base numbers list option.
From S2P Require Import Prelude CFloat Loops FloatBlocks SpeexArith.

Local Open Scope Z_scope.
Local Open Scope cfloat_scope.

(** The data of the caller, and the two parts of [trigcache]: the first [n] elements are
    scratch space, the other [2 * n] hold the twiddle factors ([wsave + n]). *)
Inductive ft_block := f_data | f_scratch | f_wa.
#[export] Instance ft_block_name : BlockName ft_block := fun b =>
  match b with f_data => 0 | f_scratch => 1 | f_wa => 2 end%nat.

#[local] Abbreviation int := f32_of_Z.
#[local] Abbreviation pointer := (ptr ft_block).

(** ** Factors *)

Definition ntryh (j : Z) : Z := if j =? 0 then 4 else if j =? 1 then 2 else if j =? 2 then 3 else 5.

(** Label [L101]. *)
Definition next_try (j ntry : Z) : Z * Z :=
  let j := j + 1 in (j, if j <? 4 then ntryh j else ntry + 2).

(** [for (i=1;i<nf;i++) { ib=nf-i+1; ifac[ib+1]=ifac[ib]; }] *)
Definition shift_factors (nf : Z) (ifac : list Z) : option (list Z) :=
  for_opt (Z.to_nat (nf - 1)) 1 (fun i l => let ib := nf - i + 1 in v ← at_index l ib; set_index l (ib + 1) v) ifac.

(** The factor [ntry] is the [nf]-th; a 2 goes to the front. *)
Definition record_factor (ntry nf : Z) (ifac : list Z) : option (list Z) :=
  ifac ← set_index ifac (nf + 1) ntry;
  if negb (ntry =? 2) || (nf =? 1) then Some ifac
  else ifac ← shift_factors nf ifac; set_index ifac 2 2.

(** Labels [L101] to [L107]: gives [nf] and the factors. *)
Fixpoint factor_loop (fuel : nat) (j ntry nl nf : Z) (ifac : list Z) : option (Z * list Z) :=
  match fuel with
  | O => None
  | S fuel =>
      let nq := Z.quot nl ntry in
      let nr := nl - ntry * nq in
      if negb (nr =? 0) then let '(j, ntry) := next_try j ntry in factor_loop fuel j ntry nl nf ifac
      else
        ifac ← record_factor ntry (nf + 1) ifac;
        if nq =? 1 then Some (nf + 1, ifac) else factor_loop fuel j ntry nq (nf + 1) ifac
  end.

(** The number of trials is at most this. *)
Definition factor_fuel (n : Z) : nat := Z.to_nat (2 * n + 8).

Definition drft_factors (n : Z) (ifac : list Z) : option (Z * list Z) :=
  let '(j, ntry) := next_try (-1) 0 in
  '(nf, ifac) ← factor_loop (factor_fuel n) j ntry n 0 ifac;
  ifac ← set_index ifac 0 n;
  ifac ← set_index ifac 1 nf;
  Some (nf, ifac).

Section smallft.
Context `{SpeexLibm}.

(** [for (i=2;i<ido;i+=2)]: [turns] of them, [at_turn t] is [i]. *)
Definition turns (ido : Z) : Z := (ido - 1) / 2.
Definition at_turn (t : Z) : Z := 2 + 2 * t.

Definition f_cos (x : spec_float) : spec_float := flt (c_cos (dbl x)).
Definition f_sin (x : spec_float) : spec_float := flt (c_sin (dbl x)).

(** The twiddle factors of factor [ip] from [is] on. *)
Definition twiddles_of (n : Z) (wa : pointer) (argh : spec_float) (is_ l1 ip ido : Z) : sigM unit :=
  for_sig 0 (ip - 1) (fun j =>
    (let ld := (j + 1) * l1 in
     let argld := int ld *f argh in
     let* _ := fold_sig 0 (turns ido) (fun t fi =>
       let fi := fi +f int 1 in
       let arg := fi *f argld in
       stp wa (is_ + j * ido + 2 * t) (f_cos arg);;
       stp wa (is_ + j * ido + 2 * t + 1) (f_sin arg);;
       sig_ret fi) (int 0) in
     sig_ret tt)%sig).

Definition drfti1 (n : Z) (wa : pointer) (ifac : list Z) : sigM (list Z) :=
  (let tpi := f32_lit 628318530717958648 (10 ^ 17) in
   let* (nf, ifac) := sig_opt (drft_factors n ifac) in
   let argh := tpi /f int n in
   let* _ := fold_sig 0 (nf - 1) (fun k1 s =>
     let '(is_, l1) := s in
     let* ip := sig_opt (at_index ifac (k1 + 2)) in
     let l2 := l1 * ip in
     let ido := Z.quot n l2 in
     twiddles_of n wa argh is_ l1 ip ido;;
     sig_ret (is_ + (ip - 1) * ido, l2)) (0, 1) in
   sig_ret ifac)%sig.

(** [wa] is [wsave + n]. *)
Definition fdrffti (n : Z) (wa : pointer) (ifac : list Z) : sigM (list Z) :=
  if n =? 1 then sig_ret ifac else drfti1 n wa ifac.

(** ** Passes *)

(** [wa[i-2]*a + wa[i-1]*b] and [wa[i-2]*a - wa[i-1]*b] *)
Definition twist_add (wa : pointer) (i : Z) (a b : spec_float) : sigM spec_float :=
  (let* w0 := ldp wa (i - 2) in let* w1 := ldp wa (i - 1) in sig_ret (w0 *f a +f w1 *f b))%sig.
Definition twist_sub (wa : pointer) (i : Z) (a b : spec_float) : sigM spec_float :=
  (let* w0 := ldp wa (i - 2) in let* w1 := ldp wa (i - 1) in sig_ret (w0 *f a -f w1 *f b))%sig.

(** [b[i] = a[j]] *)
Definition copy_at (b : pointer) (i : Z) (a : pointer) (j : Z) : sigM unit :=
  (let* v := ldp a j in stp b i v)%sig.
(** [b[i] = a[j] + c[k]], [b[i] = a[j] - c[k]] *)
Definition sum_at (b : pointer) (i : Z) (a : pointer) (j : Z) (c : pointer) (k : Z) : sigM unit :=
  (let* v := ldp a j in let* w := ldp c k in stp b i (v +f w))%sig.
Definition diff_at (b : pointer) (i : Z) (a : pointer) (j : Z) (c : pointer) (k : Z) : sigM unit :=
  (let* v := ldp a j in let* w := ldp c k in stp b i (v -f w))%sig.

Section pass.
Context (ido l1 : Z).
Let t0 := l1 * ido.

(** The frame of the passes of radix 2 and 4: a part for [i = 0], one for the pairs, and,
    where [ido] is even, one for the last element. *)
Definition pass_parts (first : Z -> sigM unit) (pair : Z -> Z -> sigM unit) (last : Z -> sigM unit) : sigM unit :=
  (for_sig 0 l1 first;;
   if ido <? 2 then sig_ret tt
   else
     (if ido =? 2 then sig_ret tt
      else for_sig 0 l1 (fun k => for_sig 0 (turns ido) (fun t => pair k (at_turn t))));;
     if Z.odd ido then sig_ret tt else for_sig 0 l1 last)%sig.

Definition dradf2 (cc ch wa1 : pointer) : sigM unit :=
  pass_parts
    (fun k =>
      (let t1 := k * ido in let t2 := t0 + k * ido in
       sum_at ch (2 * t1) cc t1 cc t2;;
       diff_at ch (2 * t1 + 2 * ido - 1) cc t1 cc t2)%sig)
    (fun k i =>
      (let t3 := t0 + k * ido + i in let t4 := 2 * (k * ido) + 2 * ido - i in
       let t5 := k * ido + i in let t6 := 2 * (k * ido) + i in
       let* r := ldp cc (t3 - 1) in let* m := ldp cc t3 in
       let* tr2 := twist_add wa1 i r m in
       let* ti2 := twist_sub wa1 i m r in
       let* b := ldp cc t5 in
       stp ch t6 (b +f ti2);;
       stp ch t4 (ti2 -f b);;
       let* a := ldp cc (t5 - 1) in
       stp ch (t6 - 1) (a +f tr2);;
       stp ch (t4 - 1) (a -f tr2))%sig)
    (fun k =>
      (let t1 := ido + 2 * (k * ido) in let t2 := ido - 1 + t0 + k * ido in
       let t3 := ido - 1 + k * ido in
       let* v := ldp cc t2 in
       stp ch t1 (SFopp v);;
       copy_at ch (t1 - 1) cc t3)%sig).

Definition dradf4 (cc ch wa1 wa2 wa3 : pointer) : sigM unit :=
  pass_parts
    (fun k =>
      (let t1 := t0 + k * ido in let t2 := 3 * t0 + k * ido in
       let t3 := k * ido in let t4 := 2 * t0 + k * ido in
       let* a1 := ldp cc t1 in let* a2 := ldp cc t2 in let tr1 := a1 +f a2 in
       let* a3 := ldp cc t3 in let* a4 := ldp cc t4 in let tr2 := a3 +f a4 in
       let t5 := 4 * t3 in
       stp ch t5 (tr1 +f tr2);;
       stp ch (4 * ido + t5 - 1) (tr2 -f tr1);;
       let t5 := t5 + 2 * ido in
       diff_at ch (t5 - 1) cc t3 cc t4;;
       diff_at ch t5 cc t2 cc t1)%sig)
    (fun k i =>
      (let t2 := k * ido + i in let t4 := 4 * (k * ido) + i in
       let t6 := 2 * ido in let t5 := t6 + 4 * (k * ido) - i in
       let t3 := t2 + t0 in
       let* r := ldp cc (t3 - 1) in let* m := ldp cc t3 in
       let* cr2 := twist_add wa1 i r m in let* ci2 := twist_sub wa1 i m r in
       let t3 := t3 + t0 in
       let* r := ldp cc (t3 - 1) in let* m := ldp cc t3 in
       let* cr3 := twist_add wa2 i r m in let* ci3 := twist_sub wa2 i m r in
       let t3 := t3 + t0 in
       let* r := ldp cc (t3 - 1) in let* m := ldp cc t3 in
       let* cr4 := twist_add wa3 i r m in let* ci4 := twist_sub wa3 i m r in
       let tr1 := cr2 +f cr4 in let tr4 := cr4 -f cr2 in
       let ti1 := ci2 +f ci4 in let ti4 := ci2 -f ci4 in
       let* b := ldp cc t2 in
       let ti2 := b +f ci3 in let ti3 := b -f ci3 in
       let* a := ldp cc (t2 - 1) in
       let tr2 := a +f cr3 in let tr3 := a -f cr3 in
       stp ch (t4 - 1) (tr1 +f tr2);;
       stp ch t4 (ti1 +f ti2);;
       stp ch (t5 - 1) (tr3 -f ti4);;
       stp ch t5 (tr4 -f ti3);;
       stp ch (t4 + t6 - 1) (ti4 +f tr3);;
       stp ch (t4 + t6) (tr4 +f ti3);;
       stp ch (t5 + t6 - 1) (tr2 -f tr1);;
       stp ch (t5 + t6) (ti1 -f ti2))%sig)
    (fun k =>
      (let hsqt2 := f32_lit 70710678118654752 (10 ^ 17) in
       let t1 := t0 + ido - 1 + k * ido in let t2 := 3 * t0 + ido - 1 + k * ido in
       let t4 := ido + 4 * (k * ido) in let t5 := 2 * ido in let t6 := ido + k * ido in
       let* a := ldp cc t1 in let* b := ldp cc t2 in
       let ti1 := SFopp hsqt2 *f (a +f b) in let tr1 := hsqt2 *f (a -f b) in
       let* d := ldp cc (t6 - 1) in
       stp ch (t4 - 1) (tr1 +f d);;
       stp ch (t4 + t5 - 1) (d -f tr1);;
       let* e := ldp cc (t1 + t0) in
       stp ch t4 (ti1 -f e);;
       stp ch (t4 + t5) (ti1 +f e))%sig).

Definition dradb2 (cc ch wa1 : pointer) : sigM unit :=
  pass_parts
    (fun k =>
      (let t1 := k * ido in let t2 := 2 * t1 in let t3 := 2 * ido - 1 in
       sum_at ch t1 cc t2 cc (t3 + t2);;
       diff_at ch (t1 + t0) cc t2 cc (t3 + t2))%sig)
    (fun k i =>
      (let t3 := k * ido + i in let t4 := 2 * (k * ido) + i in
       let t5 := 2 * (k * ido) + 2 * ido - i in let t6 := t0 + k * ido + i in
       sum_at ch (t3 - 1) cc (t4 - 1) cc (t5 - 1);;
       let* a := ldp cc (t4 - 1) in let* b := ldp cc (t5 - 1) in let tr2 := a -f b in
       diff_at ch t3 cc t4 cc t5;;
       let* a := ldp cc t4 in let* b := ldp cc t5 in let ti2 := a +f b in
       let* v := twist_sub wa1 i tr2 ti2 in stp ch (t6 - 1) v;;
       let* v := twist_add wa1 i ti2 tr2 in stp ch t6 v)%sig)
    (fun k =>
      (let t1 := ido - 1 + k * ido in let t2 := ido - 1 + 2 * (k * ido) in
       sum_at ch t1 cc t2 cc t2;;
       let* v := ldp cc (t2 + 1) in
       stp ch (t1 + t0) (SFopp (v +f v)))%sig).

Definition dradb3 (cc ch wa1 wa2 : pointer) : sigM unit :=
  (let taur := SFopp (f32_lit 1 2) in
   let taui := f32_lit 8660254037844386 (10 ^ 16) in
   for_sig 0 l1 (fun k =>
     let t1 := k * ido in let t2 := 2 * t0 in
     let t3 := 2 * ido + 3 * (k * ido) in let t5 := 3 * (k * ido) in
     let* a := ldp cc (t3 - 1) in let tr2 := a +f a in
     let* b := ldp cc t5 in let cr2 := b +f taur *f tr2 in
     stp ch t1 (b +f tr2);;
     let* d := ldp cc t3 in let ci3 := taui *f (d +f d) in
     stp ch (t1 + t0) (cr2 -f ci3);;
     stp ch (t1 + t2) (cr2 +f ci3));;
   if ido =? 1 then sig_ret tt
   else for_sig 0 l1 (fun k => for_sig 0 (turns ido) (fun t =>
     let i := at_turn t in
     let t5 := 3 * (k * ido) + 2 * ido + i in let t6 := 3 * (k * ido) + 2 * ido - i in
     let t7 := 3 * (k * ido) + i in let t8 := k * ido + i in
     let t9 := k * ido + t0 + i in let t10 := k * ido + 2 * t0 + i in
     let* a := ldp cc (t5 - 1) in let* b := ldp cc (t6 - 1) in
     let tr2 := a +f b in
     let* d := ldp cc (t7 - 1) in let cr2 := d +f taur *f tr2 in
     stp ch (t8 - 1) (d +f tr2);;
     let* e := ldp cc t5 in let* f := ldp cc t6 in
     let ti2 := e -f f in
     let* g := ldp cc t7 in let ci2 := g +f taur *f ti2 in
     stp ch t8 (g +f ti2);;
     let cr3 := taui *f (a -f b) in let ci3 := taui *f (e +f f) in
     let dr2 := cr2 -f ci3 in let dr3 := cr2 +f ci3 in
     let di2 := ci2 +f cr3 in let di3 := ci2 -f cr3 in
     let* v := twist_sub wa1 i dr2 di2 in stp ch (t9 - 1) v;;
     let* v := twist_add wa1 i di2 dr2 in stp ch t9 v;;
     let* v := twist_sub wa2 i dr3 di3 in stp ch (t10 - 1) v;;
     let* v := twist_add wa2 i di3 dr3 in stp ch t10 v)))%sig.

Definition dradb4 (cc ch wa1 wa2 wa3 : pointer) : sigM unit :=
  let t6 := 2 * ido in
  pass_parts
    (fun k =>
      (let t3 := 4 * (k * ido) in let t4 := t3 + t6 in let t5 := k * ido in
       let* a := ldp cc (t4 - 1) in let tr3 := a +f a in
       let* b := ldp cc t4 in let tr4 := b +f b in
       let t4 := t4 + t6 in
       let* d := ldp cc t3 in let* e := ldp cc (t4 - 1) in
       let tr1 := d -f e in let tr2 := d +f e in
       stp ch t5 (tr2 +f tr3);;
       stp ch (t5 + t0) (tr1 -f tr4);;
       stp ch (t5 + 2 * t0) (tr2 -f tr3);;
       stp ch (t5 + 3 * t0) (tr1 +f tr4))%sig)
    (fun k i =>
      (let t2 := 4 * (k * ido) + i in let t3 := 4 * (k * ido) + t6 + i in
       let t4 := 4 * (k * ido) + t6 - i in let t5 := 4 * (k * ido) + 2 * t6 - i in
       let t7 := k * ido + i in
       let* a := ldp cc t2 in let* b := ldp cc t5 in
       let ti1 := a +f b in let ti2 := a -f b in
       let* d := ldp cc t3 in let* e := ldp cc t4 in
       let ti3 := d -f e in let tr4 := d +f e in
       let* a := ldp cc (t2 - 1) in let* b := ldp cc (t5 - 1) in
       let tr1 := a -f b in let tr2 := a +f b in
       let* d := ldp cc (t3 - 1) in let* e := ldp cc (t4 - 1) in
       let ti4 := d -f e in let tr3 := d +f e in
       stp ch (t7 - 1) (tr2 +f tr3);;
       let cr3 := tr2 -f tr3 in
       stp ch t7 (ti2 +f ti3);;
       let ci3 := ti2 -f ti3 in
       let cr2 := tr1 -f tr4 in let cr4 := tr1 +f tr4 in
       let ci2 := ti1 +f ti4 in let ci4 := ti1 -f ti4 in
       let t8 := t7 + t0 in
       let* v := twist_sub wa1 i cr2 ci2 in stp ch (t8 - 1) v;;
       let* v := twist_add wa1 i ci2 cr2 in stp ch t8 v;;
       let t8 := t8 + t0 in
       let* v := twist_sub wa2 i cr3 ci3 in stp ch (t8 - 1) v;;
       let* v := twist_add wa2 i ci3 cr3 in stp ch t8 v;;
       let t8 := t8 + t0 in
       let* v := twist_sub wa3 i cr4 ci4 in stp ch (t8 - 1) v;;
       let* v := twist_add wa3 i ci4 cr4 in stp ch t8 v)%sig)
    (fun k =>
      (let sqrt2 := f32_lit 1414213562373095 (10 ^ 15) in
       let t1 := ido + 4 * (k * ido) in let t4 := 3 * ido + 4 * (k * ido) in
       let t5 := ido - 1 + k * ido in
       let* a := ldp cc t1 in let* b := ldp cc t4 in
       let ti1 := a +f b in let ti2 := b -f a in
       let* d := ldp cc (t1 - 1) in let* e := ldp cc (t4 - 1) in
       let tr1 := d -f e in let tr2 := d +f e in
       stp ch t5 (tr2 +f tr2);;
       stp ch (t5 + t0) (sqrt2 *f (tr1 -f ti1));;
       stp ch (t5 + 2 * t0) (ti2 +f ti2);;
       stp ch (t5 + 3 * t0) (SFopp sqrt2 *f (tr1 +f ti1)))%sig).
End pass.

(** ** Passes of any odd radix *)

Section general.
Context (ido ip l1 idl1 : Z).
Let t0 := l1 * ido.
Let t10 := ip * ido.
Let nbd := Z.shiftr (ido - 1) 1.
Let ipph := Z.shiftr (ip + 1) 1.

(** [for(k=0;k<l1;k++) for(i=2;i<ido;i+=2)], or with the loops exchanged. *)
Definition pair_loop (k_first : bool) (body : Z -> Z -> sigM unit) : sigM unit :=
  if k_first then for_sig 0 l1 (fun k => for_sig 0 (turns ido) (fun t => body k (at_turn t)))
  else for_sig 0 (turns ido) (fun t => for_sig 0 l1 (fun k => body k (at_turn t))).

(** [to[a(k) + i] = from[b(k) + i]] over the [l1] rows of [ido] elements. *)
Definition copy_rows (to from : pointer) (a b : Z) : sigM unit :=
  if ido <? l1
  then for_sig 0 ido (fun i => for_sig 0 l1 (fun k => copy_at to (k * a + i) from (k * b + i)))
  else for_sig 0 l1 (fun k => for_sig 0 ido (fun i => copy_at to (k * a + i) from (k * b + i))).

(** [b[j * t0 + k * ido] = a[j * t0 + k * ido]] *)
Definition copy_heads (b a : pointer) : sigM unit :=
  for_sig 1 ip (fun j => for_sig 0 l1 (fun k => copy_at b (j * t0 + k * ido) a (j * t0 + k * ido))).

(** [b[ik] = a[ik]] *)
Definition copy_block (b a : pointer) : sigM unit := for_sig 0 idl1 (fun ik => copy_at b ik a ik).

(** [c2[ik] += ...]: the rotations by the powers of the root of unity. *)
Definition rotate_block (to from : pointer) (l : Z) (ar1 ai1 : spec_float) : sigM unit :=
  (let t1 := l * idl1 in let t2 := ip * idl1 - l * idl1 in let t3 := (ip - 1) * idl1 in
   for_sig 0 idl1 (fun ik =>
     let* a := ldp from ik in let* b := ldp from (idl1 + ik) in
     stp to (t1 + ik) (a +f ar1 *f b);;
     let* d := ldp from (t3 + ik) in
     stp to (t2 + ik) (ai1 *f d));;
   let* _ := fold_sig 2 ipph (fun j '(ar2, ai2) =>
     let ar2h := ar1 *f ar2 -f ai1 *f ai2 in
     let ai2 := ar1 *f ai2 +f ai1 *f ar2 in
     let ar2 := ar2h in
     let t4 := j * idl1 in let t5 := (ip - j) * idl1 in
     for_sig 0 idl1 (fun ik =>
       let* a := ldp to (t1 + ik) in let* b := ldp from (t4 + ik) in
       stp to (t1 + ik) (a +f ar2 *f b);;
       let* a := ldp to (t2 + ik) in let* b := ldp from (t5 + ik) in
       stp to (t2 + ik) (a +f ai2 *f b));;
     sig_ret (ar2, ai2)) (ar1, ai1) in
   sig_ret tt)%sig.

Definition rotate_blocks (to from : pointer) : sigM unit :=
  (let tpi := f32_lit 6283185307179586 (10 ^ 15) in
   let arg := tpi /f int ip in
   let dcp := f_cos arg in let dsp := f_sin arg in
   let* _ := fold_sig 1 ipph (fun l '(ar1, ai1) =>
     let ar1h := dcp *f ar1 -f dsp *f ai1 in
     let ai1 := dcp *f ai1 +f dsp *f ar1 in
     let ar1 := ar1h in
     rotate_block to from l ar1 ai1;;
     sig_ret (ar1, ai1)) (int 1, int 0) in
   sig_ret tt)%sig.

(** [b[ik] += a[j * idl1 + ik]] *)
Definition add_blocks (b a : pointer) : sigM unit :=
  for_sig 1 ipph (fun j => for_sig 0 idl1 (fun ik => sum_at b ik b ik a (j * idl1 + ik))).

Definition dradfg (cc c1 c2 ch ch2 wa : pointer) : sigM unit :=
  (let j1 j := j * t0 in let j2 j := ip * t0 - j * t0 in
   (if ido =? 1 then sig_ret tt
    else
      copy_block ch2 c2;;
      copy_heads ch c1;;
      for_sig 1 ip (fun j => pair_loop (nbd >? l1) (fun k i =>
        let idij := (j - 1) * ido - 1 + i in let t3 := j1 j + k * ido + i in
        let* w0 := ldp wa (idij - 1) in let* w1 := ldp wa idij in
        let* r := ldp c1 (t3 - 1) in let* m := ldp c1 t3 in
        stp ch (t3 - 1) (w0 *f r +f w1 *f m);;
        stp ch t3 (w0 *f m -f w1 *f r)));;
      for_sig 1 ipph (fun j => pair_loop (negb (nbd <? l1)) (fun k i =>
        let t5 := j1 j + k * ido + i in let t6 := j2 j + k * ido + i in
        sum_at c1 (t5 - 1) ch (t5 - 1) ch (t6 - 1);;
        diff_at c1 (t6 - 1) ch t5 ch t6;;
        sum_at c1 t5 ch t5 ch t6;;
        diff_at c1 t6 ch (t6 - 1) ch (t5 - 1))));;
   copy_block c2 ch2;;
   for_sig 1 ipph (fun j => for_sig 0 l1 (fun k =>
     let t3 := j1 j + k * ido in let t4 := ip * idl1 - j * t0 + k * ido in
     sum_at c1 t3 ch t3 ch t4;;
     diff_at c1 t4 ch t4 ch t3));;
   rotate_blocks ch2 c2;;
   add_blocks ch2 c2;;
   copy_rows cc ch t10 ido;;
   for_sig 1 ipph (fun j => for_sig 0 l1 (fun k =>
     let t5 := 2 * (j * ido) + k * t10 in
     copy_at cc (t5 - 1) ch (j1 j + k * ido);;
     copy_at cc t5 ch (j2 j + k * ido)));;
   if ido =? 1 then sig_ret tt
   else for_sig 1 ipph (fun j => pair_loop (negb (nbd <? l1)) (fun k i =>
     let t6 := ido - i + (2 * (j * ido) - ido) + k * t10 in
     let t7 := i + 2 * (j * ido) + k * t10 in
     let t8 := i + j1 j + k * ido in let t9 := i + j2 j + k * ido in
     sum_at cc (t7 - 1) ch (t8 - 1) ch (t9 - 1);;
     diff_at cc (t6 - 1) ch (t8 - 1) ch (t9 - 1);;
     sum_at cc t7 ch t8 ch t9;;
     diff_at cc t6 ch t9 ch t8)))%sig.

Definition dradbg (cc c1 c2 ch ch2 wa : pointer) : sigM unit :=
  (let j1 j := j * t0 in let j2 j := ip * t0 - j * t0 in
   copy_rows ch cc ido t10;;
   for_sig 1 ipph (fun j => for_sig 0 l1 (fun k =>
     let t6 := 2 * (j * ido) + k * t10 in
     sum_at ch (j1 j + k * ido) cc (t6 - 1) cc (t6 - 1);;
     sum_at ch (j2 j + k * ido) cc t6 cc t6));;
   (if ido =? 1 then sig_ret tt
    else for_sig 1 ipph (fun j => pair_loop (negb (nbd <? l1)) (fun k i =>
      let t5 := j1 j + k * ido + i in let t6 := j2 j + k * ido + i in
      let t9 := 2 * (j * ido) + k * t10 + i in let t11 := 2 * (j * ido) + k * t10 - i in
      sum_at ch (t5 - 1) cc (t9 - 1) cc (t11 - 1);;
      diff_at ch (t6 - 1) cc (t9 - 1) cc (t11 - 1);;
      diff_at ch t5 cc t9 cc t11;;
      sum_at ch t6 cc t9 cc t11)));;
   rotate_blocks c2 ch2;;
   add_blocks ch2 ch2;;
   for_sig 1 ipph (fun j => for_sig 0 l1 (fun k =>
     let t3 := j1 j + k * ido in let t4 := j2 j + k * ido in
     diff_at ch t3 c1 t3 c1 t4;;
     sum_at ch t4 c1 t3 c1 t4));;
   if ido =? 1 then sig_ret tt
   else
     for_sig 1 ipph (fun j => pair_loop (negb (nbd <? l1)) (fun k i =>
       let t5 := j1 j + k * ido + i in let t6 := j2 j + k * ido + i in
       diff_at ch (t5 - 1) c1 (t5 - 1) c1 t6;;
       sum_at ch (t6 - 1) c1 (t5 - 1) c1 t6;;
       sum_at ch t5 c1 t5 c1 (t6 - 1);;
       diff_at ch t6 c1 t5 c1 (t6 - 1)));;
     copy_block c2 ch2;;
     copy_heads c1 ch;;
     for_sig 1 ip (fun j => pair_loop (nbd >? l1) (fun k i =>
       let idij := (j - 1) * ido - 1 + i in let t3 := j1 j + k * ido + i in
       let* w0 := ldp wa (idij - 1) in let* w1 := ldp wa idij in
       let* r := ldp ch (t3 - 1) in let* m := ldp ch t3 in
       stp c1 (t3 - 1) (w0 *f r -f w1 *f m);;
       stp c1 t3 (w0 *f m +f w1 *f r))))%sig.
End general.

(** ** The transforms *)

(** One factor, from the last to the first: [na] tells which array has the data
    (1: [c]). *)
Definition forward_pass (n nf : Z) (c ch wa : pointer) (ifac : list Z) (k1 : Z) (s : Z * Z * Z)
    : sigM (Z * Z * Z) :=
  (let '(na, l2, iw) := s in
   let* ip := sig_opt (at_index ifac (nf - k1 + 1)) in
   let l1 := Z.quot l2 ip in
   let ido := Z.quot n l2 in
   let idl1 := ido * l1 in
   let iw := iw - (ip - 1) * ido in
   let na := 1 - na in
   let w k := padd wa (iw + k * ido - 1) in
   let* na :=
     (if ip =? 4 then
        (if negb (na =? 0) then dradf4 ido l1 ch c (w 0) (w 1) (w 2)
         else dradf4 ido l1 c ch (w 0) (w 1) (w 2));; sig_ret na
      else if ip =? 2 then
        (if negb (na =? 0) then dradf2 ido l1 ch c (w 0) else dradf2 ido l1 c ch (w 0));; sig_ret na
      else
        let na := if ido =? 1 then 1 - na else na in
        if negb (na =? 0) then dradfg ido ip l1 idl1 ch ch ch c c (w 0);; sig_ret 0
        else dradfg ido ip l1 idl1 c c c ch ch (w 0);; sig_ret 1) in
   sig_ret (na, l1, iw))%sig.

(** [for(i=0;i<n;i++)c[i]=ch[i];] *)
Definition copy_back (n : Z) (c ch : pointer) : sigM unit := for_sig 0 n (fun i => copy_at c i ch i).

Definition drftf1 (n : Z) (c ch wa : pointer) (ifac : list Z) : sigM unit :=
  (let* nf := sig_opt (at_index ifac 1) in
   let* (na, l2, iw) := fold_sig 0 nf (forward_pass n nf c ch wa ifac) (1, n, n) in
   if na =? 1 then sig_ret tt else copy_back n c ch)%sig.

(** One factor, from the first to the last: [na] is 0 where [c] has the data. *)
Definition backward_pass (n : Z) (c ch wa : pointer) (ifac : list Z) (k1 : Z) (s : Z * Z * Z)
    : sigM (Z * Z * Z) :=
  (let '(na, l1, iw) := s in
   let* ip := sig_opt (at_index ifac (k1 + 2)) in
   let l2 := ip * l1 in
   let ido := Z.quot n l2 in
   let idl1 := ido * l1 in
   let w k := padd wa (iw + k * ido - 1) in
   let* na :=
     (if ip =? 4 then
        (if negb (na =? 0) then dradb4 ido l1 ch c (w 0) (w 1) (w 2)
         else dradb4 ido l1 c ch (w 0) (w 1) (w 2));; sig_ret (1 - na)
      else if ip =? 2 then
        (if negb (na =? 0) then dradb2 ido l1 ch c (w 0) else dradb2 ido l1 c ch (w 0));; sig_ret (1 - na)
      else if ip =? 3 then
        (if negb (na =? 0) then dradb3 ido l1 ch c (w 0) (w 1) else dradb3 ido l1 c ch (w 0) (w 1));; sig_ret (1 - na)
      else
        (if negb (na =? 0) then dradbg ido ip l1 idl1 ch ch ch c c (w 0)
         else dradbg ido ip l1 idl1 c c c ch ch (w 0));;
        sig_ret (if ido =? 1 then 1 - na else na)) in
   sig_ret (na, l2, iw + (ip - 1) * ido))%sig.

Definition drftb1 (n : Z) (c ch wa : pointer) (ifac : list Z) : sigM unit :=
  (let* nf := sig_opt (at_index ifac 1) in
   let* (na, l1, iw) := fold_sig 0 nf (backward_pass n c ch wa ifac) (0, 1, 1) in
   if na =? 0 then sig_ret tt else copy_back n c ch)%sig.

Record drft_lookup := mk_lookup {
  dl_n : Z;
  trigcache : list spec_float;
  splitcache : list Z }.

(** The data and the table while a function runs. *)
Definition with_table (l : drft_lookup) (data : list spec_float) (run : sigM unit)
    : option (drft_lookup * list spec_float) :=
  let n := Z.to_nat (dl_n l) in
  match run [data; take n (trigcache l); drop n (trigcache l)] with
  | Some (_, [data; scratch; wa]) => Some (mk_lookup (dl_n l) (scratch ++ wa) (splitcache l), data)
  | _ => None
  end.

Definition drft_forward (l : drft_lookup) (data : list spec_float) : option (drft_lookup * list spec_float) :=
  if dl_n l =? 1 then Some (l, data)
  else with_table l data (drftf1 (dl_n l) (f_data, 0) (f_scratch, 0) (f_wa, 0) (splitcache l)).

Definition drft_backward (l : drft_lookup) (data : list spec_float) : option (drft_lookup * list spec_float) :=
  if dl_n l =? 1 then Some (l, data)
  else with_table l data (drftb1 (dl_n l) (f_data, 0) (f_scratch, 0) (f_wa, 0) (splitcache l)).

(** [speex_alloc] gives cleared memory. *)
Definition spx_drft_init (n : Z) : option drft_lookup :=
  match fdrffti n (f_wa, 0) (zrep 32 0) [[]; zrep n f32_zero; zrep (2 * n) f32_zero] with
  | Some (ifac, [_; scratch; wa]) => Some (mk_lookup n (scratch ++ wa) ifac)
  | _ => None
  end.
End smallft.
