(* ===== verification/SmallFtFactors.v ===== *)
(** * SpeexDSP: the factors of a transform length

    [drft_factors] (labels L101 to L107 of [drfti1]) divides the length by trial factors
    until nothing is left.  It stops for every length from 2 on, and what it leaves in the
    table is a factorisation of the length that fits there. *)
From Stdlib Require Import ZArith Lia Bool SpecFloat.
From stdpp Require Import base numbers list option.
From S2P Require Import Prelude CFloat Loops FloatBlocks SpeexArith SmallFt.

Local Open Scope Z_scope.

(** The [nf] factors in [splitcache]. *)
Definition factors (nf : Z) (ifac : list Z) : list Z := rd ifac 2 nf.

Definition product (l : list Z) : Z := foldr Z.mul 1 l.

(** What the passes are for: 4 and 2, which come first, and odd factors. *)
Definition even_radix (f : Z) : Prop := f = 4 \/ f = 2.
Definition odd_radix (f : Z) : Prop := 3 <= f /\ Z.odd f = true.
Definition radix (f : Z) : Prop := even_radix f \/ odd_radix f.
Definition evens_first (l : list Z) : Prop := exists a b, l = a ++ b /\ Forall even_radix a /\ Forall odd_radix b.

Lemma product_app l k : product (l ++ k) = product l * product k.
Proof.
  unfold product. induction l as [|x l IH]; cbn [app foldr]; [by rewrite Z.mul_1_l|]. rewrite IH. lia.
Qed.

Lemma product_pow l : Forall (fun f => 2 <= f) l -> 2 ^ zlen l <= product l.
Proof.
  induction 1 as [|x l Hx _ IH]; [done|]. rewrite zlen_cons, Z.pow_add_r by (pose proof (zlen_nonneg l); lia).
  change (product (x :: l)) with (x * product l). pose proof (Z.pow_pos_nonneg 2 (zlen l) ltac:(lia) (zlen_nonneg l)). nia.
Qed.

Lemma radix_two f : radix f -> 2 <= f.
Proof. intros [[->| ->]|[? _]]; lia. Qed.

Lemma factors_length n l : 0 <= n -> n + 2 <= zlen l -> length (factors n l) = Z.to_nat n.
Proof. intros. unfold factors. pose proof (zlen_rd l 2 n ltac:(lia) ltac:(lia) ltac:(lia)) as E. unfold zlen in E. lia. Qed.

Lemma lookup_factors l k n : (k < Z.to_nat n)%nat -> factors n l !! k = l !! (2 + k)%nat.
Proof. intros. unfold factors, rd. rewrite lookup_take_lt by done. by rewrite lookup_drop. Qed.

Lemma evens_first_radix l : evens_first l -> Forall radix l.
Proof.
  intros (a & b & -> & Ha & Hb). apply Forall_app. split.
  - induction Ha; constructor; [by left|done].
  - induction Hb; constructor; [by right|done].
Qed.

Lemma radixes_two l : Forall radix l -> Forall (fun f => 2 <= f) l.
Proof. induction 1; constructor; auto using radix_two. Qed.

(** ** Recording a factor *)

Section record.
Context (nf : Z) (Hnf : 1 <= nf <= 30).

Lemma shift_turns m i (l : list Z) :
  zlen l = 32 -> 1 <= i -> i + Z.of_nat m = nf ->
  exists l' : list Z, for_opt m i (fun i l => let ib := nf - i + 1 in v ← at_index l ib; set_index l (ib + 1) v) l = Some l' /\
    zlen l' = 32 /\
    forall k : nat, l' !! k = if decide (3 <= Z.of_nat k <= nf - i + 2) then l !! (k - 1)%nat else l !! k.
Proof using Hnf.
  revert i l. induction m as [|m IH]; intros i l Hl Hi Hm; cbn [for_opt].
  - exists l. split; [done|]. split; [done|]. intros k. case_decide; [lia|done].
  - destruct (at_index_some l (nf - i + 1)) as [v Ev]; [lia|]. rewrite Ev. cbn [mbind option_bind].
    rewrite set_index_some by lia.
    destruct (IH (i + 1) (<[Z.to_nat (nf - i + 1 + 1) := v]> l)) as (l' & E & Hl' & Hk); [by rewrite zlen_insert|lia|lia|].
    exists l'. split; [exact E|]. split; [done|]. intros k. rewrite Hk.
    unfold at_index in Ev. rewrite (proj2 (Z.leb_le _ _)) in Ev by lia. unfold zlen in Hl.
    repeat case_decide; try lia.
    + by rewrite list_lookup_insert_ne by lia.
    + replace (k - 1)%nat with (Z.to_nat (nf - i + 1)) by lia. rewrite Ev.
      apply list_lookup_insert_Some. left. split; [lia|]. split; [done|lia].
    + by rewrite list_lookup_insert_ne by lia.
Qed.

Lemma record_factor_spec f l :
  zlen l = 32 ->
  exists l', record_factor f nf l = Some l' /\ zlen l' = 32 /\
    (factors nf l' = factors (nf - 1) l ++ [f] \/ f = 2 /\ factors nf l' = f :: factors (nf - 1) l).
Proof using Hnf.
  intros Hl. unfold record_factor. rewrite set_index_some by lia. cbn [mbind option_bind].
  set (l1 := <[Z.to_nat (nf + 1) := f]> l).
  assert (Hl1 : zlen l1 = 32) by (unfold l1; by rewrite zlen_insert).
  assert (E1 : factors nf l1 = factors (nf - 1) l ++ [f]).
  { assert (Hn : length (factors (nf - 1) l) = Z.to_nat (nf - 1)) by (apply factors_length; lia).
    apply list_eq. intros k. destruct (decide (k < Z.to_nat nf)%nat).
    - rewrite lookup_factors by done. unfold l1. unfold zlen in Hl.
      destruct (decide (k = Z.to_nat (nf - 1))) as [->|].
      + replace (2 + Z.to_nat (nf - 1))%nat with (Z.to_nat (nf + 1)) by lia. rewrite list_lookup_insert_eq by lia.
        rewrite lookup_app_r by lia. by rewrite Hn, Nat.sub_diag.
      + rewrite list_lookup_insert_ne by lia. rewrite lookup_app_l by lia. by rewrite lookup_factors by lia.
    - rewrite !lookup_ge_None_2; [done| |]; [rewrite length_app, Hn; cbn; lia|].
      rewrite factors_length; lia. }
  destruct (negb (f =? 2) || (nf =? 1)) eqn:E.
  - exists l1. split; [done|]. split; [done|]. by left.
  - apply orb_false_iff in E as [Ef%negb_false_iff%Z.eqb_eq _]. subst f.
    destruct (shift_turns (Z.to_nat (nf - 1)) 1 l1) as (l2 & E2 & Hl2 & Hk); [done|lia|lia|].
    change (shift_factors nf l1 = Some l2) in E2. rewrite E2. cbn [mbind option_bind]. rewrite set_index_some by lia.
    eexists. split; [done|]. split; [by rewrite zlen_insert|]. right. split; [done|].
    apply list_eq. intros k. unfold zlen in Hl2.
    destruct (decide (k < Z.to_nat nf)%nat).
    + rewrite lookup_factors by done. destruct k as [|k]; [by rewrite list_lookup_insert_eq by (cbn; lia)|].
      rewrite list_lookup_insert_ne by (cbn; lia). rewrite Hk. cbn [lookup list_lookup].
      rewrite decide_True by lia. replace (2 + S k - 1)%nat with (2 + k)%nat by lia.
      rewrite lookup_factors by lia. unfold l1. by rewrite list_lookup_insert_ne by lia.
    + rewrite !lookup_ge_None_2; [done| |].
      * cbn [length]. rewrite factors_length; lia.
      * rewrite factors_length; [lia..|rewrite zlen_insert; unfold zlen; lia].
Qed.
End record.

(** ** The loop *)

(** The trial factor after [j] steps. *)
Definition trial (j ntry : Z) : Prop :=
  j = 0 /\ ntry = 4 \/ j = 1 /\ ntry = 2 \/
  2 <= j /\ 3 <= ntry /\ Z.odd ntry = true /\ (j = 2 -> ntry = 3).

(** Smaller factors are used up. *)
Definition tried (j ntry nl : Z) : Prop := 1 <= j -> forall d, 2 <= d < ntry -> ~ (d | nl).

Definition work (j ntry nl : Z) : Z :=
  if j =? 0 then 2 * nl + 3 else if j =? 1 then 2 * nl + 2 else 2 * nl - ntry.

(** [nl] is left over when the factors so far are taken out of [n]. *)
Definition split_off (n j nl nf : Z) (ifac : list Z) : Prop :=
  zlen ifac = 32 /\ 0 <= nf <= 30 /\ product (factors nf ifac) * nl = n /\ evens_first (factors nf ifac) /\
  (j <= 1 -> Forall even_radix (factors nf ifac)).

Lemma trial_radix j ntry : trial j ntry -> radix ntry.
Proof. unfold radix, even_radix, odd_radix. intros [(_ & ->)|[(_ & ->)|(_ & ? & ? & _)]]; auto. Qed.

Lemma trial_even j ntry : trial j ntry -> j <= 1 -> even_radix ntry.
Proof. unfold even_radix. intros [(_ & ->)|[(_ & ->)|(? & _)]] ?; [auto..|lia]. Qed.

Lemma trial_odd j ntry : trial j ntry -> 2 <= j -> odd_radix ntry.
Proof. unfold odd_radix. intros [(-> & _)|[(-> & _)|(_ & ? & ? & _)]] ?; [lia..|auto]. Qed.

Lemma trial_le j ntry nl : trial j ntry -> tried j ntry nl -> 2 <= nl -> 2 <= j -> ntry <= nl.
Proof.
  intros Ht Hd Hn Hj. destruct (Z.le_gt_cases ntry nl); [done|]. exfalso.
  apply (Hd ltac:(lia) nl); [lia|]. apply Z.divide_refl.
Qed.

Lemma odd_not_even d : Z.odd d = true -> (2 | d + 1).
Proof. intros E. apply Z.odd_spec in E as [k ->]. exists (k + 1). lia. Qed.

Lemma next_trial j ntry nl :
  trial j ntry -> tried j ntry nl -> 2 <= nl -> ~ (ntry | nl) ->
  let s := next_try j ntry in trial s.1 s.2 /\ tried s.1 s.2 nl /\ work s.1 s.2 nl < work j ntry nl.
Proof.
  intros Ht Hd Hn Hnd. unfold next_try. cbv zeta. cbn [fst snd].
  destruct Ht as [(-> & ->)|[(-> & ->)|(Hj & H3 & Hodd & H2)]].
  - change (if 0 + 1 <? 4 then ntryh (0 + 1) else 4 + 2) with 2. change (0 + 1) with 1. unfold work, trial. cbn.
    split; [auto|]. split; [intros _ d Hd'; lia|lia].
  - change (if 1 + 1 <? 4 then ntryh (1 + 1) else 2 + 2) with 3. change (1 + 1) with 2. unfold work, trial. cbn.
    split; [right; right; repeat split; lia|]. split; [|lia]. intros _ d Hd'. by replace d with 2 by lia.
  - assert (E : (if j + 1 <? 4 then ntryh (j + 1) else ntry + 2) = ntry + 2).
    { destruct (Z.ltb_spec (j + 1) 4); [|done]. replace j with 2 in * by lia. rewrite H2 by done. done. }
    rewrite E. split.
    + right. right. split; [lia|]. split; [lia|]. split; [by rewrite Z.odd_add, Hodd|]. lia.
    + split.
      * intros _ d Hd'. destruct (decide (d < ntry)); [apply Hd; lia|]. destruct (decide (d = ntry)) as [->|]; [done|].
        replace d with (ntry + 1) by lia. intros Hdv. apply (Hd ltac:(lia) 2); [lia|].
        eapply Z.divide_trans; [by apply odd_not_even|done].
      * unfold work. rewrite !(proj2 (Z.eqb_neq _ _)) by lia. lia.
Qed.

Lemma split_off_room n j nl nf ifac : split_off n j nl nf ifac -> 2 <= nl -> n < 2 ^ 31 -> nf + 1 <= 30.
Proof.
  intros (Hl & Hf & Hp & HF & _) Hn H31.
  assert (HZ : zlen (factors nf ifac) = nf) by (unfold zlen; rewrite factors_length; lia).
  pose proof (product_pow (factors nf ifac)) as P. rewrite HZ in P.
  specialize (P (radixes_two _ (evens_first_radix _ HF))).
  assert (H : 2 ^ (nf + 1) < 2 ^ 31) by (rewrite Z.pow_add_r by lia; nia).
  apply Z.pow_lt_mono_r_iff in H; lia.
Qed.

(** The order stays: 2 and 4 are tried first, and a 2 goes to the front. *)
Lemma evens_first_add j f l l' :
  trial j f -> evens_first l -> (j <= 1 -> Forall even_radix l) -> l' = l ++ [f] \/ f = 2 /\ l' = f :: l ->
  evens_first l' /\ (j <= 1 -> Forall even_radix l').
Proof.
  intros Ht Hl Hj Hl'. assert (He : j <= 1 -> Forall even_radix l').
  { intros Hj1. specialize (Hj Hj1). pose proof (trial_even _ _ Ht Hj1).
    destruct Hl' as [->|[_ ->]]; [apply Forall_app|]; auto. }
  split; [|done]. destruct (Z.le_gt_cases j 1) as [Hj1|Hj1]; [by exists l', []; rewrite app_nil_r; auto|].
  pose proof (trial_odd _ _ Ht ltac:(lia)) as Ho. destruct Hl' as [->|[-> _]]; [|by destruct Ho].
  destruct Hl as (a & b & -> & Ha & Hb). exists a, (b ++ [f]). rewrite app_assoc. split; [done|].
  split; [done|]. apply Forall_app. auto.
Qed.

Lemma split_off_step n j ntry nl nf ifac :
  trial j ntry -> split_off n j nl nf ifac -> 2 <= nl -> n < 2 ^ 31 -> nl - ntry * Z.quot nl ntry = 0 ->
  exists ifac', record_factor ntry (nf + 1) ifac = Some ifac' /\ split_off n j (Z.quot nl ntry) (nf + 1) ifac'.
Proof.
  intros Ht Hs Hn H31 E. pose proof (split_off_room _ _ _ _ _ Hs Hn H31) as Hf.
  destruct Hs as (Hl & H0 & Hp & HF & Hj).
  destruct (record_factor_spec (nf + 1) ltac:(lia) ntry ifac Hl) as (ifac' & E' & Hl' & HP).
  replace (nf + 1 - 1) with nf in HP by lia. exists ifac'. split; [done|].
  destruct (evens_first_add _ _ _ _ Ht HF Hj HP) as [? ?].
  split; [done|]. split; [lia|]. split; [|done].
  assert (Hpp : product (factors (nf + 1) ifac') = product (factors nf ifac) * ntry).
  { destruct HP as [->|[_ ->]].
    - rewrite product_app. change (product [ntry]) with (ntry * 1). lia.
    - change (product (ntry :: factors nf ifac)) with (ntry * product (factors nf ifac)). lia. }
  rewrite Hpp. nia.
Qed.

Lemma split_off_next n j nl nf ifac : split_off n j nl nf ifac -> split_off n (j + 1) nl nf ifac.
Proof. intros (? & ? & ? & ? & Hj). repeat split; try done; try lia. intros. apply Hj. lia. Qed.

Lemma factor_loop_spec n fuel j ntry nl nf ifac :
  n < 2 ^ 31 -> trial j ntry -> tried j ntry nl -> 2 <= nl -> split_off n j nl nf ifac ->
  work j ntry nl < Z.of_nat fuel ->
  exists nf' ifac' j', factor_loop fuel j ntry nl nf ifac = Some (nf', ifac') /\ 1 <= nf' /\ split_off n j' 1 nf' ifac'.
Proof.
  intros H31. revert j ntry nl nf ifac. induction fuel as [|fuel IH]; intros j ntry nl nf ifac Ht Hd Hn Hs Hw.
  { exfalso. revert Hw. unfold work. pose proof (trial_le j ntry nl Ht Hd Hn).
    destruct Ht as [(-> & ->)|[(-> & ->)|(Hj & _)]]; cbn; try lia. rewrite !(proj2 (Z.eqb_neq _ _)) by lia. lia. }
  cbn [factor_loop]. cbv zeta. pose proof (radix_two _ (trial_radix _ _ Ht)) as H2.
  destruct (Z.eqb_spec (nl - ntry * Z.quot nl ntry) 0) as [E|E]; cbn [negb].
  - destruct (split_off_step n j ntry nl nf ifac Ht Hs Hn H31 E) as (ifac' & -> & Hs'). cbn [mbind option_bind].
    assert (Hq : 1 <= Z.quot nl ntry < nl) by nia.
    destruct (Z.eqb_spec (Z.quot nl ntry) 1) as [E1|E1].
    + exists (nf + 1), ifac', j. split; [done|]. rewrite E1 in Hs'. destruct Hs as (_ & H0 & _). split; [lia|done].
    + apply IH; [done| |lia|done|].
      * intros Hj d Hd' Hdv. apply (Hd Hj d Hd'). apply (Z.divide_trans _ _ _ Hdv). exists ntry. lia.
      * revert Hw. unfold work. repeat case_match; lia.
  - assert (Hnd : ~ (ntry | nl)).
    { intros [k ->]. rewrite Z.quot_mul in E by lia. lia. }
    pose proof (next_trial j ntry nl Ht Hd Hn Hnd) as (Ht' & Hd' & Hw').
    unfold next_try in *. cbv zeta in *. cbn [fst snd] in *. apply IH; auto using split_off_next. lia.
Qed.

Lemma product_odd l : Forall odd_radix l -> Z.odd (product l) = true.
Proof. unfold product. induction 1 as [|f l [_ Ho] _ IH]; cbn [foldr]; [done|]. by rewrite Z.odd_mul, Ho, IH. Qed.

(** After an odd factor there are only odd ones. *)
Lemma evens_first_after l k f :
  evens_first l -> l !! k = Some f -> odd_radix f -> Forall odd_radix (drop (S k) l).
Proof.
  intros (a & b & -> & Ha & Hb) E [_ Ho]. destruct (Nat.lt_ge_cases k (length a)) as [Hk|Hk].
  - rewrite lookup_app_l in E by done. destruct (proj1 (Forall_lookup _ _) Ha _ _ E) as [->| ->]; done.
  - rewrite drop_app, (drop_ge a) by lia. by apply Forall_drop.
Qed.

(** The table of factors of a transform of length [n]. *)
Record factored (n nf : Z) (ifac : list Z) : Prop := {
  fa_len : zlen ifac = 32;
  fa_n : at_index ifac 0 = Some n;
  fa_nf : at_index ifac 1 = Some nf;
  fa_count : 1 <= nf <= 30;
  fa_product : product (factors nf ifac) = n;
  fa_order : evens_first (factors nf ifac) }.

Lemma fa_radix n nf ifac : factored n nf ifac -> Forall radix (factors nf ifac).
Proof. intros Hf. apply evens_first_radix, Hf. Qed.

Lemma factors_insert n k l x : (k < 2)%nat -> factors n (<[k := x]> l) = factors n l.
Proof.
  intros Hk. unfold factors, rd. f_equal. change (Z.to_nat 2) with 2%nat. apply list_eq. intros i.
  rewrite !lookup_drop. apply list_lookup_insert_ne. lia.
Qed.

Lemma drft_factors_factored n ifac :
  2 <= n < 2 ^ 31 -> zlen ifac = 32 ->
  exists nf ifac', drft_factors n ifac = Some (nf, ifac') /\ factored n nf ifac'.
Proof.
  intros Hn Hl. unfold drft_factors. change (next_try (-1) 0) with (0, 4).
  destruct (factor_loop_spec n (factor_fuel n) 0 4 n 0 ifac) as (nf & l & j & -> & H1 & Hl' & H30 & Hp & HF & _); [lia|..].
  - left. done.
  - intros ?. lia.
  - lia.
  - split; [done|]. split; [lia|]. split; [change (product (factors 0 ifac)) with 1; lia|].
    split; [|intros _; apply Forall_nil_2]. exists [], []. split; [done|]. split; apply Forall_nil_2.
  - unfold work, factor_fuel. cbn. lia.
  - cbn [mbind option_bind]. rewrite set_index_some by lia. cbn [mbind option_bind].
    rewrite set_index_some by (rewrite zlen_insert; lia). cbn [mbind option_bind].
    eexists _, _. split; [done|]. unfold zlen in Hl'. split.
    + rewrite !zlen_insert. done.
    + unfold at_index. cbn. rewrite list_lookup_insert_ne by lia. apply list_lookup_insert_eq. lia.
    + unfold at_index. cbn. apply list_lookup_insert_eq. rewrite length_insert. lia.
    + lia.
    + rewrite !factors_insert by (cbn; lia). lia.
    + by rewrite !factors_insert by (cbn; lia).
Qed.
