(* ===== verification/SmallFtSafe.v ===== *)
(** * SpeexDSP: the passes of the transform stay in their arrays

    Every pass of [SmallFt] over data of [ip * l1 * ido] numbers, for every radix, reads and
    writes in range. *)
From Stdlib Require Import ZArith Lia Bool SpecFloat.
From stdpp Require Import base numbers list option.
From S2P Require Import Prelude CFloat Loops FloatBlocks SpeexArith SmallFt.

Local Open Scope Z_scope.

#[local] Abbreviation pointer := (ptr ft_block).

Lemma ft_names (b : ft_block) : (block_index b < 3)%nat.
Proof. destruct b; vm_compute; lia. Qed.

(** Row [k] of [n] rows of [a]. *)
Lemma row_in k n a : 0 <= k < n -> 0 <= a -> 0 <= k * a /\ k * a + a <= n * a.
Proof. intros. nia. Qed.

Lemma at_turn_in t ido : 0 <= t < turns ido -> 2 <= at_turn t < ido.
Proof.
  unfold turns, at_turn. intros Ht. pose proof (Z.mul_div_le (ido - 1) 2 ltac:(lia)). lia.
Qed.

Section rules.
Context (sz : nat -> Z).
#[local] Abbreviation fsafe := (@safe sz 3 _).
#[local] Abbreviation froom := (@room sz ft_block _).

Lemma f_ldp p i n : froom p n -> 0 <= i < n -> fsafe (ldp p i) (fun _ => True).
Proof. apply safe_ldp, ft_names. Qed.

Lemma f_stp p i x n : froom p n -> 0 <= i < n -> fsafe (stp p i x) (fun _ => True).
Proof. apply safe_stp, ft_names. Qed.
End rules.

Ltac ft_rule :=
  lazymatch goal with
  | |- safe _ _ (sig_ret _) _ => apply safe_ret; done
  | |- safe _ _ (sig_bind _ _) _ => apply (safe_bind _ _ _ _ (fun _ => True)); [|intros ? _]
  | |- safe _ _ (for_sig _ _ _) _ => apply safe_for_sig; intros ? ?
  | |- safe _ _ (ldp _ _) _ => eapply f_ldp; [eassumption|]
  | |- safe _ _ (stp _ _ _) _ => eapply f_stp; [eassumption|]
  | |- safe _ _ (copy_at _ _ _ _) _ => unfold copy_at
  | |- safe _ _ (sum_at _ _ _ _ _ _) _ => unfold sum_at
  | |- safe _ _ (diff_at _ _ _ _ _ _) _ => unfold diff_at
  | |- safe _ _ (twist_add _ _ _ _) _ => unfold twist_add
  | |- safe _ _ (twist_sub _ _ _ _) _ => unfold twist_sub
  end.
Ltac ft_safe := repeat (cbv beta zeta; ft_rule).

Section passes.
Context (sz : nat -> Z).
#[local] Abbreviation fsafe := (@safe sz 3 _).
#[local] Abbreviation froom := (@room sz ft_block _).
Context (ido l1 : Z) (Hido : 1 <= ido).

(** ** Radix 2, 3 and 4 *)

Lemma pass_parts_safe first pair last :
  (forall k, 0 <= k * ido -> k * ido + ido <= l1 * ido -> fsafe (first k) (fun _ => True)) ->
  (forall k i, 0 <= k * ido -> k * ido + ido <= l1 * ido -> 2 <= i < ido -> fsafe (pair k i) (fun _ => True)) ->
  (forall k, 0 <= k * ido -> k * ido + ido <= l1 * ido -> 2 <= ido -> fsafe (last k) (fun _ => True)) ->
  fsafe (pass_parts ido l1 first pair last) (fun _ => True).
Proof using Hido.
  intros Hf Hp Hl. unfold pass_parts.
  assert (Hrow : forall k, 0 <= k < l1 -> 0 <= k * ido /\ k * ido + ido <= l1 * ido) by (intros; apply row_in; lia).
  ft_safe; [destruct (Hrow k); auto|]. destruct (Z.ltb_spec ido 2); ft_safe.
  - destruct (ido =? 2); ft_safe. destruct (Hrow k) as [? ?]; [done|]. apply Hp; [done..|]. by apply at_turn_in.
  - destruct (Z.odd ido); ft_safe. destruct (Hrow k); auto.
Qed.

Ltac pass := intros; apply pass_parts_safe; intros; ft_safe; lia.

Section two.
Context (cc ch wa1 : pointer).
Context (Hcc : froom cc (2 * (l1 * ido))) (Hch : froom ch (2 * (l1 * ido))) (H1 : froom wa1 (ido - 1)).

Lemma dradf2_safe : fsafe (dradf2 ido l1 cc ch wa1) (fun _ => True).
Proof using Hido Hcc Hch H1. pass. Qed.

Lemma dradb2_safe : fsafe (dradb2 ido l1 cc ch wa1) (fun _ => True).
Proof using Hido Hcc Hch H1. pass. Qed.
End two.

Section three.
Context (cc ch wa1 wa2 : pointer).
Context (Hcc : froom cc (3 * (l1 * ido))) (Hch : froom ch (3 * (l1 * ido))).
Context (H1 : froom wa1 (ido - 1)) (H2 : froom wa2 (ido - 1)).

Lemma dradb3_safe : fsafe (dradb3 ido l1 cc ch wa1 wa2) (fun _ => True).
Proof using Hido Hcc Hch H1 H2.
  assert (Hrow : forall k, 0 <= k < l1 -> 0 <= k * ido /\ k * ido + ido <= l1 * ido) by (intros; apply row_in; lia).
  unfold dradb3. cbv zeta. apply (safe_bind _ _ _ _ (fun _ => True)); [|intros _ _].
  - apply safe_for_sig. intros k Hk. pose proof (Hrow k Hk). ft_safe; lia.
  - destruct (ido =? 1); ft_safe;
      match goal with Hk : 0 <= ?k < l1, Ht : 0 <= ?t < turns ido |- _ => pose proof (Hrow k Hk); pose proof (at_turn_in t ido Ht) end; lia.
Qed.
End three.

Section four.
Context (cc ch wa1 wa2 wa3 : pointer).
Context (Hcc : froom cc (4 * (l1 * ido))) (Hch : froom ch (4 * (l1 * ido))).
Context (H1 : froom wa1 (ido - 1)) (H2 : froom wa2 (ido - 1)) (H3 : froom wa3 (ido - 1)).

Lemma dradf4_safe : fsafe (dradf4 ido l1 cc ch wa1 wa2 wa3) (fun _ => True).
Proof using Hido Hcc Hch H1 H2 H3. pass. Qed.

Lemma dradb4_safe : fsafe (dradb4 ido l1 cc ch wa1 wa2 wa3) (fun _ => True).
Proof using Hido Hcc Hch H1 H2 H3. pass. Qed.
End four.

(** ** Any radix *)

Section general.
Context `{SpeexLibm} (ip : Z) (Hip : 2 <= ip) (Hl1 : 1 <= l1).
#[local] Abbreviation whole := (ip * (l1 * ido)).

(** Rows of [l1 * ido] and of [ip * ido] numbers. *)
Lemma block_in j : 0 <= j < ip -> 0 <= j * (l1 * ido) /\ j * (l1 * ido) + l1 * ido <= whole.
Proof using Hido Hip Hl1. intros. apply row_in; [lia|nia]. Qed.

Lemma wide_in k : 0 <= k < l1 -> 0 <= k * (ip * ido) /\ k * (ip * ido) + ip * ido <= whole.
Proof using Hido Hip Hl1.
  intros. replace whole with (l1 * (ip * ido)) by ring. apply row_in; [lia|nia].
Qed.

Lemma thin_in k : 0 <= k < l1 -> 0 <= k * ido /\ k * ido + ido <= l1 * ido.
Proof using Hido Hip Hl1. intros. apply row_in; lia. Qed.

Lemma half_in j : 1 <= j < Z.shiftr (ip + 1) 1 -> j < ip /\ ip - j < ip /\ ido <= j * ido /\ 2 * (j * ido) + ido <= ip * ido.
Proof using Hido Hip Hl1.
  rewrite Z.shiftr_div_pow2 by lia. change (2 ^ 1) with 2. intros Hj.
  pose proof (Z.mul_div_le (ip + 1) 2 ltac:(lia)). assert (2 * j + 1 <= ip) by lia. nia.
Qed.

Lemma twiddle_in j : 1 <= j < ip -> 0 <= (j - 1) * ido /\ (j - 1) * ido + ido <= (ip - 1) * ido.
Proof using Hido Hip Hl1. intros. apply row_in; lia. Qed.

Lemma pair_loop_safe k_first body :
  (forall k i, 0 <= k < l1 -> 2 <= i < ido -> fsafe (body k i) (fun _ => True)) ->
  fsafe (pair_loop ido l1 k_first body) (fun _ => True).
Proof.
  intros Hb. unfold pair_loop. destruct k_first; ft_safe; apply Hb; try done; by apply at_turn_in.
Qed.
Lemma copy_rows_safe to from a b :
  froom to whole -> froom from whole ->
  (forall k, 0 <= k < l1 -> 0 <= k * a /\ k * a + ido <= whole) ->
  (forall k, 0 <= k < l1 -> 0 <= k * b /\ k * b + ido <= whole) ->
  fsafe (copy_rows ido l1 to from a b) (fun _ => True).
Proof.
  intros Ht Hf Ha Hb. unfold copy_rows.
  destruct (ido <? l1); ft_safe;
    match goal with Hk : 0 <= ?k < l1 |- _ => pose proof (Ha k Hk); pose proof (Hb k Hk) end; lia.
Qed.

Context (idl1 : Z) (Hidl1 : idl1 = l1 * ido).

Lemma copy_block_safe b a : froom b whole -> froom a whole -> fsafe (copy_block idl1 b a) (fun _ => True).
Proof using Hido Hip Hl1 Hidl1. intros. pose proof (block_in 0). unfold copy_block. ft_safe; lia. Qed.

Lemma copy_heads_safe b a : froom b whole -> froom a whole -> fsafe (copy_heads ido ip l1 b a) (fun _ => True).
Proof using Hido Hip Hl1.
  intros. unfold copy_heads. ft_safe; pose proof (block_in k); pose proof (thin_in k0); lia.
Qed.

Lemma rotate_block_safe to from l ar ai :
  froom to whole -> froom from whole -> 1 <= l < Z.shiftr (ip + 1) 1 ->
  fsafe (rotate_block ip idl1 to from l ar ai) (fun _ => True).
Proof using Hido Hip Hl1 Hidl1.
  intros Ht Hf Hl. destruct (half_in l Hl) as (? & ? & _). unfold rotate_block. rewrite Hidl1.
  pose proof (block_in l ltac:(lia)). pose proof (block_in (ip - l) ltac:(lia)).
  pose proof (block_in 1 ltac:(lia)). pose proof (block_in (ip - 1) ltac:(lia)).
  ft_safe; try lia. apply safe_fold_sig; [done|]. intros j [ar2 ai2] Hj _.
  destruct (half_in j ltac:(lia)) as (? & ? & _).
  pose proof (block_in j ltac:(lia)). pose proof (block_in (ip - j) ltac:(lia)). ft_safe; lia.
Qed.

Lemma rotate_blocks_safe to from :
  froom to whole -> froom from whole -> fsafe (rotate_blocks ip idl1 to from) (fun _ => True).
Proof using Hido Hip Hl1 Hidl1.
  intros Ht Hf. unfold rotate_blocks. cbv zeta. ft_safe. apply safe_fold_sig; [done|].
  intros l [ar ai] Hl _. ft_safe. by apply rotate_block_safe.
Qed.

Lemma add_blocks_safe b a : froom b whole -> froom a whole -> fsafe (add_blocks ip idl1 b a) (fun _ => True).
Proof using Hido Hip Hl1 Hidl1.
  intros Hb Ha. unfold add_blocks. rewrite Hidl1. pose proof (block_in 0 ltac:(lia)).
  ft_safe; destruct (half_in k) as (? & _); try done; pose proof (block_in k); lia.
Qed.
Lemma wide_of k : 0 <= k < l1 -> 0 <= k * (ip * ido) /\ k * (ip * ido) + ido <= whole.
Proof using Hido Hip Hl1. intros Hk. pose proof (wide_in k Hk). nia. Qed.

Lemma thin_of k : 0 <= k < l1 -> 0 <= k * ido /\ k * ido + ido <= whole.
Proof using Hido Hip Hl1. intros Hk. pose proof (thin_in k Hk). pose proof (block_in 0). lia. Qed.

(** All that is known of the indices of a turn. *)
Ltac index_facts :=
  repeat match goal with
  | Hj : 1 <= ?j < Z.shiftr (ip + 1) 1 |- _ =>
      destruct (half_in j Hj) as (? & ? & ? & ?); pose proof (block_in j ltac:(lia));
      pose proof (block_in (ip - j) ltac:(lia)); clear Hj
  | Hj : 1 <= ?j < ip |- _ => pose proof (block_in j ltac:(lia)); pose proof (twiddle_in j Hj); clear Hj
  | Hk : 0 <= ?k < l1 |- _ => pose proof (thin_in k Hk); pose proof (wide_in k Hk); clear Hk
  end.

Ltac stage :=
  lazymatch goal with
  | |- safe _ _ (if ido =? 1 then _ else _) _ => destruct (ido =? 1)
  | |- safe _ _ (copy_block _ _ _) _ => apply copy_block_safe; assumption
  | |- safe _ _ (copy_heads _ _ _ _ _) _ => apply copy_heads_safe; assumption
  | |- safe _ _ (rotate_blocks _ _ _ _) _ => apply rotate_blocks_safe; assumption
  | |- safe _ _ (add_blocks _ _ _ _) _ => apply add_blocks_safe; assumption
  | |- safe _ _ (copy_rows _ _ _ _ _ _) _ => apply copy_rows_safe; auto using wide_of, thin_of
  | |- safe _ _ (pair_loop _ _ _ _) _ => apply pair_loop_safe; intros ? ? ? ?
  | |- _ => ft_rule
  end.

Context (cc c1 c2 ch ch2 wa : pointer).
Context (Hcc : froom cc whole) (Hc1 : froom c1 whole) (Hc2 : froom c2 whole).
Context (Hch : froom ch whole) (Hch2 : froom ch2 whole) (Hwa : froom wa ((ip - 1) * ido)).

Lemma dradfg_safe : fsafe (dradfg ido ip l1 idl1 cc c1 c2 ch ch2 wa) (fun _ => True).
Proof using Hido Hip Hl1 Hidl1 Hcc Hc1 Hc2 Hch Hch2 Hwa.
  unfold dradfg. repeat (cbv beta zeta; stage); index_facts; lia.
Qed.

Lemma dradbg_safe : fsafe (dradbg ido ip l1 idl1 cc c1 c2 ch ch2 wa) (fun _ => True).
Proof using Hido Hip Hl1 Hidl1 Hcc Hc1 Hc2 Hch Hch2 Hwa.
  unfold dradbg. repeat (cbv beta zeta; stage); index_facts; lia.
Qed.
End general.
End passes.
