(* ===== verification/SmallFtRun.v ===== *)
(** * SpeexDSP: the transforms are memory-safe

    The table that [spx_drft_init] makes for a length has the factors of the length, and
    every transform with it is defined: all of its passes together stay in the data, the
    scratch space and the twiddle factors. *)
From Stdlib Require Import ZArith Lia Bool SpecFloat.
From stdpp Require Import base numbers list option.
From S2P Require Import Prelude CFloat Loops FloatBlocks SpeexArith SmallFt SmallFtFactors SmallFtSafe.

Local Open Scope Z_scope.

(** ** The product of the first factors *)

Section prefix.
Context (n nf : Z) (ifac : list Z) (Hf : factored n nf ifac).

Definition prefix (k : Z) : Z := product (take (Z.to_nat k) (factors nf ifac)).

Lemma product_pos l : Forall radix l -> 1 <= product l.
Proof.
  intros HF. pose proof (product_pow l (radixes_two l HF)). pose proof (Z.pow_pos_nonneg 2 (zlen l) ltac:(lia) (zlen_nonneg l)). lia.
Qed.

Lemma prefix_0 : prefix 0 = 1.
Proof. done. Qed.

Lemma prefix_all : prefix nf = n.
Proof using Hf.
  unfold prefix. destruct Hf as [Hl _ _ Hn Hp _]. rewrite take_ge; [done|]. rewrite factors_length; lia.
Qed.

(** Factor [k] between the factors before it and the [r] after it. *)
Lemma prefix_step k :
  0 <= k < nf ->
  exists f r, at_index ifac (k + 2) = Some f /\ radix f /\ prefix (k + 1) = prefix k * f /\
    1 <= prefix k /\ 1 <= r /\ prefix k * f * r = n /\ (odd_radix f -> Z.odd r = true).
Proof using Hf.
  intros Hk. pose proof Hf as [Hl _ _ Hn Hp _]. pose proof (fa_radix _ _ _ Hf) as HF.
  assert (Hlen : length (factors nf ifac) = Z.to_nat nf) by (apply factors_length; lia).
  destruct (lookup_lt_is_Some_2 (factors nf ifac) (Z.to_nat k)) as [f E]; [lia|].
  exists f, (product (drop (S (Z.to_nat k)) (factors nf ifac))).
  pose proof (take_drop_middle _ _ _ E) as Em.
  assert (HFm := HF). rewrite <- Em in HFm. apply Forall_app in HFm as [HFt HFm]. inversion_clear HFm as [|? ? Hr HFd].
  split; [|split; [exact Hr|]].
  - unfold at_index. rewrite (proj2 (Z.leb_le _ _)) by lia. rewrite lookup_factors in E by lia. rewrite <- E. f_equal. lia.
  - split; [|split; [by apply product_pos|split; [by apply product_pos|split]]].
    + unfold prefix. replace (Z.to_nat (k + 1)) with (S (Z.to_nat k)) by lia.
      rewrite (take_S_r _ _ _ E), product_app. change (product [f]) with (f * 1). lia.
    + pose proof (product_app (take (Z.to_nat k) (factors nf ifac)) (f :: drop (S (Z.to_nat k)) (factors nf ifac))) as P.
      rewrite Em, Hp in P. rewrite P. unfold prefix.
      change (product (f :: drop (S (Z.to_nat k)) (factors nf ifac)))
        with (f * product (drop (S (Z.to_nat k)) (factors nf ifac))). lia.
    + intros Ho. apply product_odd. by eapply evens_first_after; [apply Hf| |].
Qed.
End prefix.

(** ** Setting up the table *)

(** The sizes of the arrays: [d] numbers of data, a table for transforms of [n]. *)
Definition ft_sz (d n : Z) (i : nat) : Z := match i with O => d | 1%nat => n | _ => 2 * n end.

Section setup.
Context `{SpeexLibm} (n : Z) (Hn : 2 <= n < 2 ^ 31).
#[local] Abbreviation wa := (f_wa, 0).

Lemma twiddles_of_safe d argh is_ l1 ip ido :
  0 <= is_ -> 1 <= ido -> 1 <= ip -> is_ + (ip - 1) * ido <= 2 * n ->
  safe (ft_sz d n) 3 (twiddles_of n wa argh is_ l1 ip ido) (fun _ => True).
Proof.
  intros Hi Hido Hip Hr. assert (Hwa : room (ft_sz d n) wa (2 * n)) by (unfold room, size_of; cbn; lia).
  unfold twiddles_of. ft_safe. apply safe_fold_sig; [done|]. intros t fi Ht _.
  pose proof (at_turn_in t ido Ht) as Ht'. unfold at_turn in Ht'. pose proof (row_in k (ip - 1) ido ltac:(lia) ltac:(lia)).
  ft_safe; lia.
Qed.

Lemma drfti1_safe d ifac :
  zlen ifac = 32 -> safe (ft_sz d n) 3 (drfti1 n wa ifac) (fun ifac' => exists nf, factored n nf ifac').
Proof using Hn.
  intros Hl. destruct (drft_factors_factored n ifac Hn Hl) as (nf & fac & E & Hf).
  unfold drfti1. cbv zeta. rewrite E. eapply (safe_bind _ _ _ _ (fun s => s = (nf, fac))); [apply safe_opt; eauto|].
  intros [? ?] [= -> ->]. cbn beta iota. pose proof (fa_count _ _ _ Hf) as Hc.
  pose (Q := fun k '(is_, l1) => l1 = prefix nf fac k /\ exists q, 1 <= q /\ l1 * q = n /\ is_ = n - q).
  eapply (safe_bind _ _ _ _ (Q (nf - 1))); [|intros [is_ l1] _; apply safe_ret; by exists nf].
  apply safe_fold_at; [lia| |].
  - split; [done|]. exists n. lia.
  - intros k [is_ l1] Hk (-> & q & Hq & Hpq & ->).
    destruct (prefix_step n nf fac Hf k) as (f & r & Ef & Hfr & Hp & Hp1 & Hr & Hfull & _); [lia|].
    pose proof (radix_two _ Hfr). rewrite Ef. assert (q = f * r) by nia. subst q.
    eapply (safe_bind _ _ _ _ (fun s => s = f)); [apply safe_opt; eauto|]. intros ? ->. cbv zeta.
    assert (Hido : Z.quot n (prefix nf fac k * f) = r).
    { rewrite <- Hfull at 1. rewrite Z.mul_comm. apply Z.quot_mul. nia. }
    rewrite Hido. eapply safe_bind; [apply twiddles_of_safe; nia|]. intros _ _. apply safe_ret. split; [lia|].
    exists r. split; [done|]. split; [lia|nia].
Qed.
End setup.

(** ** The passes in turn *)

Section turns.
Context `{SpeexLibm} (n nf : Z) (ifac : list Z) (Hf : factored n nf ifac) (Hn : 2 <= n).
#[local] Abbreviation fsafe := (@safe (ft_sz n n) 3 _).
#[local] Abbreviation froom := (@room (ft_sz n n) ft_block _).

(** The array the data is in, and the other. *)
Definition two_arrays (c ch : ptr ft_block) : Prop :=
  (c = (f_data, 0) /\ ch = (f_scratch, 0)) \/ (c = (f_scratch, 0) /\ ch = (f_data, 0)).

Lemma two_arrays_room c ch m : two_arrays c ch -> m = n -> froom c m /\ froom ch m.
Proof using Type. intros [[-> ->]|[-> ->]] ->; unfold room, size_of; cbn; lia. Qed.

(** What a pass needs: where it is among the factors, and its twiddle factors. *)
Record pass_at (ip ido l1 iw : Z) : Prop := {
  pa_ip : 2 <= ip;
  pa_ido : 1 <= ido;
  pa_l1 : 1 <= l1;
  pa_all : ip * (l1 * ido) = n;
  pa_iw : 1 <= iw;
  pa_end : iw + (ip - 1) * ido <= n }.

Lemma twiddles_room ip ido l1 iw k m :
  pass_at ip ido l1 iw -> 0 <= k < ip - 1 -> m <= (ip - 1 - k) * ido -> froom (padd (f_wa, 0) (iw + k * ido - 1)) m.
Proof using Type.
  clear Hn. intros [] Hk Hm. unfold room, size_of, padd. cbn. assert (0 <= k * ido) by nia. lia.
Qed.

#[local] Abbreviation w iw ido k := (padd (f_wa, 0) (iw + k * ido - 1)).

(** One lemma per radix, for either direction of the data. *)
Section one.
Context (ip ido l1 iw : Z) (Hpa : pass_at ip ido l1 iw) (c ch : ptr ft_block) (Hc : two_arrays c ch).

Lemma radix2_safe : ip = 2 ->
  fsafe (dradf2 ido l1 c ch (w iw ido 0)) (fun _ => True) /\ fsafe (dradb2 ido l1 c ch (w iw ido 0)) (fun _ => True).
Proof using Hpa Hc.
  intros ->. pose proof Hpa as []. destruct (two_arrays_room c ch _ Hc pa_all0).
  assert (froom (w iw ido 0) (ido - 1)) by (eapply twiddles_room; [done|lia..]).
  split; [apply dradf2_safe|apply dradb2_safe]; assumption.
Qed.

Lemma radix3_safe : ip = 3 -> fsafe (dradb3 ido l1 c ch (w iw ido 0) (w iw ido 1)) (fun _ => True).
Proof using Hpa Hc.
  intros ->. pose proof Hpa as []. destruct (two_arrays_room c ch _ Hc pa_all0).
  assert (forall k, 0 <= k < 2 -> froom (w iw ido k) (ido - 1)) by (intros; eapply twiddles_room; [done|lia|nia]).
  apply dradb3_safe; auto with lia.
Qed.

Lemma radix4_safe : ip = 4 ->
  fsafe (dradf4 ido l1 c ch (w iw ido 0) (w iw ido 1) (w iw ido 2)) (fun _ => True) /\
  fsafe (dradb4 ido l1 c ch (w iw ido 0) (w iw ido 1) (w iw ido 2)) (fun _ => True).
Proof using Hpa Hc.
  intros ->. pose proof Hpa as []. destruct (two_arrays_room c ch _ Hc pa_all0).
  assert (forall k, 0 <= k < 3 -> froom (w iw ido k) (ido - 1)) by (intros; eapply twiddles_room; [done|lia|nia]).
  split; [apply dradf4_safe|apply dradb4_safe]; auto with lia.
Qed.

Lemma radixg_safe :
  fsafe (dradfg ido ip l1 (ido * l1) c c c ch ch (w iw ido 0)) (fun _ => True) /\
  fsafe (dradbg ido ip l1 (ido * l1) c c c ch ch (w iw ido 0)) (fun _ => True).
Proof using Hpa Hc.
  pose proof Hpa as []. destruct (two_arrays_room c ch _ Hc pa_all0).
  assert (froom (w iw ido 0) ((ip - 1) * ido)) by (eapply twiddles_room; [done|lia|lia]).
  split; [apply dradfg_safe|apply dradbg_safe]; auto with lia.
Qed.
End one.

Lemma data_first : two_arrays (f_data, 0) (f_scratch, 0).
Proof. by left. Qed.
Lemma scratch_first : two_arrays (f_scratch, 0) (f_data, 0).
Proof. by right. Qed.

(** The case analysis on the radix and on where the data is. *)
Ltac radix_cases Hpa :=
  repeat match goal with
  | |- safe _ _ (sig_ret _) _ => by apply safe_ret
  | |- safe _ _ (sig_bind _ _) _ => apply (safe_bind _ _ _ _ (fun _ => True)); [|intros _ _]
  | |- safe _ _ (if ?x =? ?y then _ else _) _ => destruct (Z.eqb_spec x y)
  | |- safe _ _ (if negb ?x then _ else _) _ => destruct x; cbn [negb]
  end;
  first [apply (radix2_safe _ _ _ _ Hpa)|apply (radix3_safe _ _ _ _ Hpa)|apply (radix4_safe _ _ _ _ Hpa)|apply (radixg_safe _ _ _ _ Hpa)];
  auto using data_first, scratch_first.

(** Where the loops over the factors are: before turn [k1] of the forward transform, with
    [l2] the product of the factors that are left, and before turn [k1] of the backward one. *)
Definition forward_at (k1 l2 iw : Z) : Prop :=
  l2 = prefix nf ifac (nf - k1) /\ exists q, 1 <= q /\ l2 * q = n /\ iw = n - q + 1.
Definition backward_at (k1 l1 iw : Z) : Prop :=
  l1 = prefix nf ifac k1 /\ exists q, 1 <= q /\ l1 * q = n /\ iw = 1 + n - q.

Lemma forward_at_step k1 l2 iw :
  0 <= k1 < nf -> forward_at k1 l2 iw ->
  exists ip r p, at_index ifac (nf - k1 + 1) = Some ip /\ radix ip /\ (odd_radix ip -> Z.odd r = true) /\
    Z.quot l2 ip = p /\ Z.quot n l2 = r /\ pass_at ip r p (iw - (ip - 1) * r) /\ forward_at (k1 + 1) p (iw - (ip - 1) * r).
Proof using Hf.
  clear Hn. intros Hk (-> & q & Hq & Hlq & ->).
  destruct (prefix_step n nf ifac Hf (nf - (k1 + 1))) as (ip & r & Ef & Hfr & Hp & Hp1 & Hr & Hfull & Hodd); [lia|].
  replace (nf - (k1 + 1) + 1) with (nf - k1) in Hp by lia. replace (nf - (k1 + 1) + 2) with (nf - k1 + 1) in Ef by lia.
  pose proof (radix_two _ Hfr) as Hip. set (p := prefix nf ifac (nf - (k1 + 1))) in *. rewrite Hp in *.
  assert (q = r) by nia. subst q. exists ip, r, p. split; [done|]. split; [done|]. split; [done|].
  split; [apply Z.quot_mul; lia|]. split; [rewrite <- Hfull, Z.mul_comm; apply Z.quot_mul; nia|].
  split; [split; nia|]. split; [done|]. exists (ip * r). nia.
Qed.

Lemma backward_at_step k1 l1 iw :
  0 <= k1 < nf -> backward_at k1 l1 iw ->
  exists ip r, at_index ifac (k1 + 2) = Some ip /\ radix ip /\ (odd_radix ip -> Z.odd r = true) /\
    Z.quot n (ip * l1) = r /\ pass_at ip r l1 iw /\ backward_at (k1 + 1) (ip * l1) (iw + (ip - 1) * r).
Proof using Hf.
  clear Hn. intros Hk (-> & q & Hq & Hlq & ->).
  destruct (prefix_step n nf ifac Hf k1) as (ip & r & Ef & Hfr & Hp & Hp1 & Hr & Hfull & Hodd); [lia|].
  pose proof (radix_two _ Hfr) as Hip. unfold backward_at. rewrite Hp. set (p := prefix nf ifac k1) in *.
  assert (q = ip * r) by nia. subst q. exists ip, r. split; [done|]. split; [done|]. split; [done|].
  split; [rewrite <- Hfull, (Z.mul_comm p ip), Z.mul_comm; apply Z.quot_mul; nia|].
  split; [split; nia|]. split; [lia|]. exists r. nia.
Qed.

Lemma forward_pass_safe k1 na l2 iw :
  0 <= k1 < nf -> forward_at k1 l2 iw ->
  fsafe (forward_pass n nf (f_data, 0) (f_scratch, 0) (f_wa, 0) ifac k1 (na, l2, iw))
    (fun '(_, l1, iw') => forward_at (k1 + 1) l1 iw').
Proof using Hf Hn.
  intros Hk Hat. destruct (forward_at_step k1 l2 iw Hk Hat) as (ip & r & p & Ef & _ & _ & El1 & Eido & Hpa & Hnext).
  unfold forward_pass. cbv beta iota. rewrite Ef.
  eapply (safe_bind _ _ _ _ (fun s => s = ip)); [apply safe_opt; eauto|]. intros ? ->. cbv zeta. rewrite El1, Eido.
  eapply (safe_bind _ _ _ _ (fun _ => True)); [radix_cases Hpa|]. intros na' _. by apply safe_ret.
Qed.

Lemma backward_pass_safe k1 na l1 iw :
  0 <= k1 < nf -> backward_at k1 l1 iw ->
  fsafe (backward_pass n (f_data, 0) (f_scratch, 0) (f_wa, 0) ifac k1 (na, l1, iw))
    (fun '(_, l2, iw') => backward_at (k1 + 1) l2 iw').
Proof using Hf Hn.
  intros Hk Hat. destruct (backward_at_step k1 l1 iw Hk Hat) as (ip & r & Ef & _ & _ & Eido & Hpa & Hnext).
  unfold backward_pass. cbv beta iota. rewrite Ef.
  eapply (safe_bind _ _ _ _ (fun s => s = ip)); [apply safe_opt; eauto|]. intros ? ->. cbv zeta. rewrite Eido.
  eapply (safe_bind _ _ _ _ (fun _ => True)); [radix_cases Hpa|]. intros na' _. by apply safe_ret.
Qed.

Lemma forward_at_0 : forward_at 0 n n.
Proof using Hf. clear Hn. split; [by rewrite Z.sub_0_r, (prefix_all n nf ifac Hf)|]. exists 1. lia. Qed.

Lemma backward_at_0 : backward_at 0 1 1.
Proof using Hn. split; [done|]. exists n. lia. Qed.

Lemma copy_back_safe : fsafe (copy_back n (f_data, 0) (f_scratch, 0)) (fun _ => True).
Proof using Hn.
  destruct (two_arrays_room _ _ n data_first eq_refl). unfold copy_back. ft_safe; lia.
Qed.

Lemma drftf1_safe : fsafe (drftf1 n (f_data, 0) (f_scratch, 0) (f_wa, 0) ifac) (fun _ => True).
Proof using Hf Hn.
  unfold drftf1. pose proof (fa_count _ _ _ Hf).
  eapply (safe_bind _ _ _ _ (fun s => s = nf)); [apply safe_opt; exists nf; split; [apply Hf|done]|]. intros ? ->.
  eapply (safe_bind _ _ _ _ (fun '(na, l2, iw) => forward_at nf l2 iw)).
  - apply (safe_fold_at _ _ _ _ _ _ (fun k '(na, l2, iw) => forward_at k l2 iw)); [lia|apply forward_at_0|].
    intros k [[na l2] iw] Hk Hat. by apply forward_pass_safe.
  - intros [[na l2] iw] _. destruct (na =? 1); [by apply safe_ret|apply copy_back_safe].
Qed.

Lemma drftb1_safe : fsafe (drftb1 n (f_data, 0) (f_scratch, 0) (f_wa, 0) ifac) (fun _ => True).
Proof using Hf Hn.
  unfold drftb1. pose proof (fa_count _ _ _ Hf).
  eapply (safe_bind _ _ _ _ (fun s => s = nf)); [apply safe_opt; exists nf; split; [apply Hf|done]|]. intros ? ->.
  eapply (safe_bind _ _ _ _ (fun '(na, l1, iw) => backward_at nf l1 iw)).
  - apply (safe_fold_at _ _ _ _ _ _ (fun k '(na, l1, iw) => backward_at k l1 iw)); [lia|apply backward_at_0|].
    intros k [[na l1] iw] Hk Hat. by apply backward_pass_safe.
  - intros [[na l1] iw] _. destruct (na =? 0); [by apply safe_ret|apply copy_back_safe].
Qed.
End turns.

(** ** Tables *)

(** A table for transforms of [n] numbers. *)
Record table_for (n : Z) (l : drft_lookup) : Prop := {
  tf_n : dl_n l = n;
  tf_trig : zlen (trigcache l) = 3 * n;
  tf_split : n = 1 \/ exists nf, factored n nf (splitcache l) }.

Lemma shaped_three d n m :
  shaped (ft_sz d n) 3 m -> exists a b c, m = [a; b; c] /\ zlen a = d /\ zlen b = n /\ zlen c = 2 * n.
Proof.
  intros [Hl Hs]. destruct m as [|a [|b [|c [|? ?]]]]; try done. exists a, b, c.
  split; [done|]. split; [by apply (Hs 0%nat)|]. split; [by apply (Hs 1%nat)|by apply (Hs 2%nat)].
Qed.

Lemma three_shaped d n a b c :
  zlen a = d -> zlen b = n -> zlen c = 2 * n -> shaped (ft_sz d n) 3 [a; b; c].
Proof. intros Ha Hb Hc. split; [done|]. intros [|[|[|i]]] l E; cbn in E; simplify_eq; done. Qed.

Section tables.
Context `{SpeexLibm} (n : Z).

Lemma table_parts l : 1 <= n -> table_for n l ->
  zlen (take (Z.to_nat n) (trigcache l)) = n /\ zlen (drop (Z.to_nat n) (trigcache l)) = 2 * n.
Proof. intros Hn [_ Ht _]. rewrite zlen_take, zlen_drop by lia. lia. Qed.

(** What runs with a table keeps it one. *)
Lemma with_table_ok l data run :
  1 <= n -> table_for n l -> zlen data = n -> safe (ft_sz n n) 3 run (fun _ => True) ->
  exists l' data', with_table l data run = Some (l', data') /\ table_for n l' /\ zlen data' = n.
Proof.
  intros Hn Hl Hd Hs. destruct (table_parts l Hn Hl) as [H1 H2]. pose proof Hl as [El Et Esp].
  destruct (Hs _ (three_shaped _ _ _ _ _ Hd H1 H2)) as (x & m & E & Hm & _).
  destruct (shaped_three _ _ _ Hm) as (a & b & c & -> & Ha & Hb & Hc).
  eexists (mk_lookup n (b ++ c) (splitcache l)), a. unfold with_table. rewrite El, E.
  split; [done|]. split; [|done]. split; [done| |done]. cbn. rewrite zlen_app. lia.
Qed.

Lemma drft_forward_ok l data :
  1 <= n -> table_for n l -> zlen data = n ->
  exists l' data', drft_forward l data = Some (l', data') /\ table_for n l' /\ zlen data' = n.
Proof.
  intros Hn Hl Hd. unfold drft_forward. rewrite (tf_n _ _ Hl). destruct (Z.eqb_spec n 1); [by exists l, data|].
  destruct (tf_split _ _ Hl) as [?|[nf Hf]]; [done|]. apply with_table_ok; [done..|]. apply (drftf1_safe _ nf _ Hf). lia.
Qed.

Lemma drft_backward_ok l data :
  1 <= n -> table_for n l -> zlen data = n ->
  exists l' data', drft_backward l data = Some (l', data') /\ table_for n l' /\ zlen data' = n.
Proof.
  intros Hn Hl Hd. unfold drft_backward. rewrite (tf_n _ _ Hl). destruct (Z.eqb_spec n 1); [by exists l, data|].
  destruct (tf_split _ _ Hl) as [?|[nf Hf]]; [done|]. apply with_table_ok; [done..|]. apply (drftb1_safe _ nf _ Hf). lia.
Qed.

Lemma spx_drft_init_ok : 1 <= n < 2 ^ 31 -> exists l, spx_drft_init n = Some l /\ table_for n l.
Proof.
  intros Hn. assert (Hz : zlen (zrep 32 0) = 32) by (apply zlen_zrep; lia).
  assert (Hs : safe (ft_sz 0 n) 3 (fdrffti n (f_wa, 0) (zrep 32 0)) (fun ifac => n = 1 \/ exists nf, factored n nf ifac)).
  { unfold fdrffti. destruct (Z.eqb_spec n 1); [apply safe_ret; by left|].
    eapply safe_mono; [apply drfti1_safe; [lia|done]|]. eauto. }
  destruct (Hs [[]; zrep n f32_zero; zrep (2 * n) f32_zero]) as (ifac & m & E & Hm & Hf).
  { apply three_shaped; [done|apply zlen_zrep; lia..]. }
  destruct (shaped_three _ _ _ Hm) as (a & b & c & -> & Ha & Hb & Hc).
  exists (mk_lookup n (b ++ c) ifac). unfold spx_drft_init. rewrite E. split; [done|].
  split; [done| |done]. cbn. rewrite zlen_app. lia.
Qed.
End tables.
