(* ===== verification/SmallFtDeps.v ===== *)
(** * SpeexDSP: what the passes of the transform depend on

    Every pass fills the array it is to leave the data in, from the other array and the
    twiddle factors only, and changes no twiddle factor.  For radix 3 and for the odd
    radices in general this needs rows of odd length: no later factor is even. *)
From Stdlib Require Import ZArith Lia Bool SpecFloat.
From stdpp Require Import base numbers list option.
From S2P Require Import Prelude CFloat Loops FloatBlocks FloatDeps SpeexArith SmallFt SmallFtSafe.

Local Open Scope Z_scope.

#[local] Abbreviation pointer := (ptr ft_block).

(** The twiddle factors. *)
Definition twiddle (p : place (B := ft_block)) : Prop := p.1 = f_wa.
#[local] Abbreviation sets := (writes twiddle).

(** A pointer to data or scratch space. *)
Definition not_wa (p : pointer) : Prop := p.1 <> f_wa.

Lemma ft_block_inj (c b : ft_block) : block_index c = block_index b -> c = b.
Proof. by destruct c, b. Qed.

(** ** Rules *)

Lemma s_ldp D p i n : within (full p n) D -> 0 <= i < n -> sets D (ldp p i) none.
Proof. apply w_ldp. Qed.

Lemma s_stp_hit D p i x v : not_wa p -> i = x -> sets D (stp p i v) (spot p x).
Proof. intros Hp <-. apply w_stp; [exact Hp|]. intros c. apply ft_block_inj. Qed.

Lemma s_stp D p i v : not_wa p -> sets D (stp p i v) none.
Proof. intros Hp. eapply w_mono; [by apply (s_stp_hit _ _ _ i)|by intros q|by intros q []]. Qed.

Lemma s_full {A} D (c : sigM A) (p : pointer) n :
  sets D c none -> (forall x, 0 <= x < n -> sets D c (spot p x)) -> sets D c (full p n).
Proof.
  intros Hc Hx. apply w_all; [done|]. intros [b j] [E Hj]. cbn [fst snd] in *. subst b.
  replace j with (p.2 + (j - p.2)) by lia. apply Hx. lia.
Qed.

Ltac d_rule :=
  lazymatch goal with
  | |- writes _ _ (sig_ret _) _ => apply w_ret; by intros ?
  | |- writes _ _ (sig_bind _ _) _ => apply w_then; [|intros ?]
  | |- writes _ _ (for_sig _ _ _) _ => apply w_for_none; intros ? ?
  | |- writes _ _ (ldp _ _) _ => eapply s_ldp; [eassumption|]
  | |- writes _ _ (stp _ _ _) _ => apply s_stp; assumption
  | |- writes _ _ (copy_at _ _ _ _) _ => unfold copy_at
  | |- writes _ _ (sum_at _ _ _ _ _ _) _ => unfold sum_at
  | |- writes _ _ (diff_at _ _ _ _ _ _) _ => unfold diff_at
  | |- writes _ _ (twist_add _ _ _ _) _ => unfold twist_add
  | |- writes _ _ (twist_sub _ _ _ _) _ => unfold twist_sub
  end.
(** Nothing more is asked. *)
Ltac d_none := repeat (cbv beta zeta; d_rule).

(** The store that fills the place. *)
Ltac d_hit :=
  cbv beta zeta;
  lazymatch goal with
  | |- writes _ _ (copy_at _ _ _ _) _ => unfold copy_at; d_hit
  | |- writes _ _ (sum_at _ _ _ _ _ _) _ => unfold sum_at; d_hit
  | |- writes _ _ (diff_at _ _ _ _ _ _) _ => unfold diff_at; d_hit
  | |- writes _ _ (stp _ _ _) _ => apply s_stp_hit; [assumption|lia]
  | |- writes _ _ (sig_bind _ _) _ =>
      first [apply w_first; [progress d_hit|intros; d_none]|apply w_then; [d_none|intros ?; d_hit]]
  end.

(** ** Positions *)

Lemma split_index x a b : 0 <= x < a * b -> 0 < b -> exists k r, x = k * b + r /\ 0 <= k < a /\ 0 <= r < b.
Proof.
  intros Hx Hb. exists (x / b), (x mod b). pose proof (Z.div_mod x b). pose proof (Z.mod_pos_bound x b).
  pose proof (Z.div_lt_upper_bound x b a). pose proof (Z.div_pos x b). lia.
Qed.

(** Every place of a row is the first, in a pair, or the last of a row of even length. *)
Lemma row_pair r ido :
  0 <= r < ido ->
  r = 0 \/ (exists i, 2 <= i < ido /\ Z.even i = true /\ (r = i \/ r = i - 1)) \/
  r = ido - 1 /\ 2 <= ido /\ Z.odd ido = false.
Proof.
  intros Hr. destruct (decide (r = 0)); [by left|right]. destruct (Z.even r) eqn:E.
  - left. exists r. split; [|auto]. split; [|lia]. destruct (decide (r = 1)) as [->|]; [done|lia].
  - destruct (decide (r = ido - 1)) as [->|].
    + right. split; [done|]. split; [lia|]. rewrite Z.sub_1_r, Z.even_pred in E. done.
    + left. exists (r + 1). split; [lia|]. split; [|lia]. by rewrite Z.add_1_r, Z.even_succ, <- Z.negb_even, E.
Qed.

Lemma pair_turn i ido : 2 <= i < ido -> Z.even i = true -> exists t, 0 <= t < turns ido /\ at_turn t = i.
Proof.
  intros Hi [q ->]%Z.even_spec. exists (q - 1). unfold turns, at_turn. split; [|lia].
  split; [lia|]. apply Z.lt_le_trans with q; [lia|]. apply Z.div_le_lower_bound; lia.
Qed.

(** ** Radix 2, 3 and 4 *)

Section passes.
Context (D : place (B := ft_block) -> Prop) (ido l1 : Z) (Hido : 1 <= ido).
#[local] Abbreviation t0 := (l1 * ido).

Lemma pass_parts_none first pair last :
  (forall k, 0 <= k * ido -> k * ido + ido <= t0 -> sets D (first k) none) ->
  (forall k i, 0 <= k * ido -> k * ido + ido <= t0 -> 2 <= i < ido -> sets D (pair k i) none) ->
  (forall k, 0 <= k * ido -> k * ido + ido <= t0 -> 2 <= ido -> sets D (last k) none) ->
  sets D (pass_parts ido l1 first pair last) none.
Proof using Hido.
  intros Hf Hp Hl. unfold pass_parts.
  assert (Hrow : forall k, 0 <= k < l1 -> 0 <= k * ido /\ k * ido + ido <= t0) by (intros; apply row_in; lia).
  d_none; [destruct (Hrow k); auto|]. destruct (Z.ltb_spec ido 2); d_none.
  - destruct (ido =? 2); d_none. destruct (Hrow k) as [? ?]; [done|]. apply Hp; [done..|]. by apply at_turn_in.
  - destruct (Z.odd ido); d_none. destruct (Hrow k); auto.
Qed.

Lemma pass_parts_hit first pair last W :
  (forall k, 0 <= k * ido -> k * ido + ido <= t0 -> sets D (first k) none) ->
  (forall k i, 0 <= k * ido -> k * ido + ido <= t0 -> 2 <= i < ido -> sets D (pair k i) none) ->
  (forall k, 0 <= k * ido -> k * ido + ido <= t0 -> 2 <= ido -> sets D (last k) none) ->
  (exists k, 0 <= k < l1 /\ sets D (first k) W) \/
  (exists k i, 0 <= k < l1 /\ 2 <= i < ido /\ Z.even i = true /\ sets D (pair k i) W) \/
  (exists k, 0 <= k < l1 /\ 2 <= ido /\ Z.odd ido = false /\ sets D (last k) W) ->
  sets D (pass_parts ido l1 first pair last) W.
Proof using Hido.
  intros Hf Hp Hl HW. unfold pass_parts.
  assert (Hrow : forall k, 0 <= k < l1 -> 0 <= k * ido /\ k * ido + ido <= t0) by (intros; apply row_in; lia).
  assert (Nf : forall k, 0 <= k < l1 -> sets D (first k) none) by (intros k Hk; destruct (Hrow k Hk); auto).
  assert (Nl : 2 <= ido -> forall k, 0 <= k < l1 -> sets D (last k) none) by (intros ? k Hk; destruct (Hrow k Hk); auto).
  assert (Np : forall k t, 0 <= k < l1 -> 0 <= t < turns ido -> sets D (pair k (at_turn t)) none).
  { intros k t Hk Ht. destruct (Hrow k Hk). apply Hp; [done..|]. by apply at_turn_in. }
  destruct HW as [(k & Hk & Hw)|[(k & i & Hk & Hi & Hev & Hw)|(k & Hk & H2 & Hodd & Hw)]].
  - apply w_first; [by apply (w_for_hit _ _ _ _ _ _ k)|]. intros _. destruct (Z.ltb_spec ido 2); d_none.
    + destruct (ido =? 2); d_none. auto.
    + destruct (Z.odd ido); d_none. auto.
  - apply w_then; [by apply w_for_none|]. intros _. rewrite (proj2 (Z.ltb_ge _ _)), (proj2 (Z.eqb_neq _ _)) by lia.
    apply w_first; [|intros _; destruct (Z.odd ido); d_none; apply Nl; [lia|done]].
    apply (w_for_hit _ _ _ _ _ _ k); [intros; d_none; auto|done|].
    destruct (pair_turn i ido Hi Hev) as (t & Ht & <-). apply (w_for_hit _ _ _ _ _ _ t); auto.
  - apply w_then; [by apply w_for_none|]. intros _. rewrite (proj2 (Z.ltb_ge _ _)) by lia. rewrite Hodd.
    apply w_then; [destruct (ido =? 2); d_none; auto|]. intros _. apply (w_for_hit _ _ _ _ _ _ k); auto.
Qed.

Ltac none_pass := apply pass_parts_none; intros; d_none; lia.
(** The part of the pass that fills the place: [k], and by [Hs] the part of the row. *)
Ltac hit_pass k Hk Hs :=
  pose proof (row_in k l1 ido Hk ltac:(lia));
  apply pass_parts_hit; [intros; d_none; lia..|];
  destruct Hs as [?|[(?i & ? & ? & [?|?])|(? & ? & ?)]];
  [left; exists k; split; [exact Hk|]
  |right; left; eexists k, _; split; [exact Hk|]; split; [eassumption|]; split; [eassumption|]
  |right; left; eexists k, _; split; [exact Hk|]; split; [eassumption|]; split; [eassumption|]
  |right; right; exists k; split; [exact Hk|]; split; [assumption|]; split; [assumption|]];
  solve [d_hit; lia].

Section two.
Context (cc ch wa1 : pointer) (Nch : not_wa ch).
Context (Hcc : within (full cc (2 * t0)) D) (H1 : within (full wa1 (ido - 1)) D).

Lemma dradf2_none : sets D (dradf2 ido l1 cc ch wa1) none.
Proof using Hido Nch Hcc H1. none_pass. Qed.

Lemma dradf2_fills : sets D (dradf2 ido l1 cc ch wa1) (full ch (2 * t0)).
Proof using Hido Nch Hcc H1.
  apply s_full; [apply dradf2_none|]. intros x Hx.
  destruct (split_index x l1 (2 * ido)) as (k & r & -> & Hk & Hr); [lia|lia|].
  destruct (Z.lt_ge_cases r ido).
  - pose proof (row_pair r ido ltac:(lia)) as Hs. hit_pass k Hk Hs.
  - pose proof (row_pair (2 * ido - 1 - r) ido ltac:(lia)) as Hs. hit_pass k Hk Hs.
Qed.

Lemma dradb2_none : sets D (dradb2 ido l1 cc ch wa1) none.
Proof using Hido Nch Hcc H1. none_pass. Qed.

Lemma dradb2_fills : sets D (dradb2 ido l1 cc ch wa1) (full ch (2 * t0)).
Proof using Hido Nch Hcc H1.
  apply s_full; [apply dradb2_none|]. intros x Hx.
  destruct (split_index x 2 t0) as (j & y & -> & Hj & Hy); [lia|nia|].
  destruct (split_index y l1 ido) as (k & r & -> & Hk & Hr); [lia|lia|].
  pose proof (row_pair r ido Hr) as Hs. assert (j = 0 \/ j = 1) as [-> | ->] by lia; hit_pass k Hk Hs.
Qed.
End two.

Section four.
Context (cc ch wa1 wa2 wa3 : pointer) (Nch : not_wa ch).
Context (Hcc : within (full cc (4 * t0)) D) (H1 : within (full wa1 (ido - 1)) D).
Context (H2 : within (full wa2 (ido - 1)) D) (H3 : within (full wa3 (ido - 1)) D).

Lemma dradf4_none : sets D (dradf4 ido l1 cc ch wa1 wa2 wa3) none.
Proof using Hido Nch Hcc H1 H2 H3. none_pass. Qed.

Lemma dradf4_fills : sets D (dradf4 ido l1 cc ch wa1 wa2 wa3) (full ch (4 * t0)).
Proof using Hido Nch Hcc H1 H2 H3.
  apply s_full; [apply dradf4_none|]. intros x Hx.
  destruct (split_index x l1 (4 * ido)) as (k & y & -> & Hk & Hy); [lia|lia|].
  destruct (split_index y 4 ido) as (j & r & -> & Hj & Hr); [lia|lia|].
  assert (j = 0 \/ j = 1 \/ j = 2 \/ j = 3) as [-> |[-> |[-> | ->]]] by lia.
  - pose proof (row_pair r ido ltac:(lia)) as Hs. hit_pass k Hk Hs.
  - pose proof (row_pair (ido - 1 - r) ido ltac:(lia)) as Hs. hit_pass k Hk Hs.
  - pose proof (row_pair r ido ltac:(lia)) as Hs. hit_pass k Hk Hs.
  - pose proof (row_pair (ido - 1 - r) ido ltac:(lia)) as Hs. hit_pass k Hk Hs.
Qed.

Lemma dradb4_none : sets D (dradb4 ido l1 cc ch wa1 wa2 wa3) none.
Proof using Hido Nch Hcc H1 H2 H3. none_pass. Qed.

Lemma dradb4_fills : sets D (dradb4 ido l1 cc ch wa1 wa2 wa3) (full ch (4 * t0)).
Proof using Hido Nch Hcc H1 H2 H3.
  apply s_full; [apply dradb4_none|]. intros x Hx.
  destruct (split_index x 4 t0) as (j & y & -> & Hj & Hy); [lia|nia|].
  destruct (split_index y l1 ido) as (k & r & -> & Hk & Hr); [lia|lia|].
  pose proof (row_pair r ido Hr) as Hs.
  assert (j = 0 \/ j = 1 \/ j = 2 \/ j = 3) as [-> |[-> |[-> | ->]]] by lia; hit_pass k Hk Hs.
Qed.
End four.

Section three.
Context (cc ch wa1 wa2 : pointer) (Nch : not_wa ch).
Context (Hcc : within (full cc (3 * t0)) D) (H1 : within (full wa1 (ido - 1)) D) (H2 : within (full wa2 (ido - 1)) D).

Ltac rows k := match goal with
  | Hk : 0 <= k < l1, Ht : 0 <= ?t < turns ido |- _ => pose proof (row_in k l1 ido Hk ltac:(lia)); pose proof (at_turn_in t ido Ht)
  | Hk : 0 <= k < l1 |- _ => pose proof (row_in k l1 ido Hk ltac:(lia))
  end.

Lemma dradb3_none : sets D (dradb3 ido l1 cc ch wa1 wa2) none.
Proof using Hido Nch Hcc H1 H2.
  unfold dradb3. cbv zeta. apply w_then; [d_none; rows k; lia|]. intros _.
  destruct (ido =? 1); d_none; rows k; lia.
Qed.

(** There is no part for the last element of a row of even length. *)
Lemma dradb3_fills : Z.odd ido = true -> sets D (dradb3 ido l1 cc ch wa1 wa2) (full ch (3 * t0)).
Proof using Hido Nch Hcc H1 H2.
  intros Hodd. apply s_full; [apply dradb3_none|]. intros x Hx.
  destruct (split_index x 3 t0) as (j & y & -> & Hj & Hy); [lia|nia|].
  destruct (split_index y l1 ido) as (k & r & -> & Hk & Hr); [lia|lia|].
  unfold dradb3. cbv zeta.
  destruct (row_pair r ido Hr) as [-> |[(i & Hi & Hev & Hri)|(_ & _ & Ho)]]; [| |by rewrite Hodd in Ho].
  - apply w_first; [|intros _; destruct (ido =? 1); d_none; rows k0; lia].
    apply (w_for_hit _ _ _ _ _ _ k); [intros k' Hk'; d_none; rows k'; lia|done|]. rows k.
    assert (j = 0 \/ j = 1 \/ j = 2) as [-> |[-> | ->]] by lia; d_hit; lia.
  - apply w_then; [d_none; rows k0; lia|]. intros _. rewrite (proj2 (Z.eqb_neq _ _)) by lia.
    apply (w_for_hit _ _ _ _ _ _ k); [intros k' Hk'; d_none; rows k'; lia|done|].
    destruct (pair_turn i ido Hi Hev) as (t & Ht & <-).
    apply (w_for_hit _ _ _ _ _ _ t); [intros t' Ht'; d_none; rows k; lia|done|]. rows k.
    assert (j = 0 \/ j = 1 \/ j = 2) as [-> |[-> | ->]] by lia; destruct Hri as [-> | ->]; d_hit; lia.
Qed.
End three.

(** ** Any odd radix *)

Section general.
Context `{SpeexLibm} (ip : Z) (Hip : 2 <= ip) (Hl1 : 1 <= l1) (idl1 : Z) (Hidl1 : idl1 = t0).
#[local] Abbreviation whole := (ip * t0).

Ltac index_facts :=
  repeat match goal with
  | Hj : 1 <= ?j < Z.shiftr (ip + 1) 1 |- _ =>
      destruct (half_in ido l1 Hido ip Hip Hl1 j Hj) as (? & ? & ? & ?);
      pose proof (block_in ido l1 Hido ip Hip Hl1 j ltac:(lia));
      pose proof (block_in ido l1 Hido ip Hip Hl1 (ip - j) ltac:(lia)); clear Hj
  | Hj : 1 <= ?j < ip |- _ =>
      pose proof (block_in ido l1 Hido ip Hip Hl1 j ltac:(lia)); pose proof (twiddle_in ido l1 Hido ip Hip Hl1 j Hj); clear Hj
  | Hk : 0 <= ?k < l1 |- _ =>
      pose proof (thin_in ido l1 Hido ip Hip Hl1 k Hk); pose proof (wide_in ido l1 Hido ip Hip Hl1 k Hk); clear Hk
  end.

Section stages.
Context (E : place (B := ft_block) -> Prop) (to from : pointer) (Nto : not_wa to) (Hfrom : within (full from whole) E).

Lemma pair_loop_none k_first body :
  (forall k i, 0 <= k < l1 -> 2 <= i < ido -> sets E (body k i) none) ->
  sets E (pair_loop ido l1 k_first body) none.
Proof. intros Hb. unfold pair_loop. destruct k_first; d_none; apply Hb; try done; by apply at_turn_in. Qed.

Lemma pair_loop_hit k_first body k i W :
  (forall k i, 0 <= k < l1 -> 2 <= i < ido -> sets E (body k i) none) ->
  0 <= k < l1 -> 2 <= i < ido -> Z.even i = true -> sets E (body k i) W ->
  sets E (pair_loop ido l1 k_first body) W.
Proof.
  intros Hb Hk Hi Hev Hw. destruct (pair_turn i ido Hi Hev) as (t & Ht & <-). unfold pair_loop.
  assert (Hn : forall k t, 0 <= k < l1 -> 0 <= t < turns ido -> sets E (body k (at_turn t)) none).
  { intros k' t' ? ?. apply Hb; [done|]. by apply at_turn_in. }
  destruct k_first.
  - apply (w_for_hit _ _ _ _ _ _ k); [intros; d_none; auto|done|]. apply (w_for_hit _ _ _ _ _ _ t); auto.
  - apply (w_for_hit _ _ _ _ _ _ t); [intros; d_none; auto|done|]. apply (w_for_hit _ _ _ _ _ _ k); auto.
Qed.

Lemma copy_rows_none a b :
  (forall k, 0 <= k < l1 -> 0 <= k * b /\ k * b + ido <= whole) -> sets E (copy_rows ido l1 to from a b) none.
Proof using Nto Hfrom.
  intros Hb. unfold copy_rows.
  destruct (ido <? l1); d_none; match goal with Hk : 0 <= ?k < l1 |- _ => pose proof (Hb k Hk) end; lia.
Qed.

Lemma copy_rows_hit a b k i x :
  (forall k, 0 <= k < l1 -> 0 <= k * b /\ k * b + ido <= whole) ->
  0 <= k < l1 -> 0 <= i < ido -> x = k * a + i -> sets E (copy_rows ido l1 to from a b) (spot to x).
Proof using Nto Hfrom.
  intros Hb Hk Hi ->. unfold copy_rows. assert (Hn : forall k i, 0 <= k < l1 -> 0 <= i < ido -> sets E (copy_at to (k * a + i) from (k * b + i)) none).
  { intros k' i' Hk' Hi'. pose proof (Hb k' Hk'). d_none. lia. }
  assert (Hh : sets E (copy_at to (k * a + i) from (k * b + i)) (spot to (k * a + i))) by (pose proof (Hb k Hk); d_hit; lia).
  destruct (ido <? l1).
  - apply (w_for_hit _ _ _ _ _ _ i); [intros; apply w_for_none; auto|done|]. apply (w_for_hit _ _ _ _ _ _ k); auto.
  - apply (w_for_hit _ _ _ _ _ _ k); [intros; apply w_for_none; auto|done|]. apply (w_for_hit _ _ _ _ _ _ i); auto.
Qed.

Lemma first_block : t0 <= whole.
Proof using Hido Hip Hl1. pose proof (block_in ido l1 Hido ip Hip Hl1 0 ltac:(lia)). lia. Qed.

Lemma copy_block_none : sets E (copy_block idl1 to from) none.
Proof using Hido Hip Hl1 Hidl1 Nto Hfrom. pose proof first_block. unfold copy_block. d_none. lia. Qed.

Lemma copy_block_hit x : 0 <= x < t0 -> sets E (copy_block idl1 to from) (spot to x).
Proof using Hido Hip Hl1 Hidl1 Nto Hfrom.
  intros Hx. pose proof first_block. unfold copy_block. apply (w_for_hit _ _ _ _ _ _ x); [intros; d_none; lia|lia|]. d_hit. lia.
Qed.

Lemma copy_heads_none : sets E (copy_heads ido ip l1 to from) none.
Proof using Hido Hip Hl1 Nto Hfrom. unfold copy_heads. d_none; index_facts; lia. Qed.

Lemma copy_heads_hit j k x :
  1 <= j < ip -> 0 <= k < l1 -> x = j * t0 + k * ido -> sets E (copy_heads ido ip l1 to from) (spot to x).
Proof using Hido Hip Hl1 Nto Hfrom.
  intros Hj Hk ->. unfold copy_heads.
  apply (w_for_hit _ _ _ _ _ _ j); [intros; d_none; index_facts; lia|done|].
  apply (w_for_hit _ _ _ _ _ _ k); [intros; d_none; index_facts; lia|done|]. index_facts. d_hit. lia.
Qed.

Context (Hto : within (full to whole) E).

Lemma rotate_block_none l ar ai : 1 <= l < Z.shiftr (ip + 1) 1 -> sets E (rotate_block ip idl1 to from l ar ai) none.
Proof using Hido Hip Hl1 Hidl1 Nto Hfrom Hto.
  intros Hl. unfold rotate_block. rewrite Hidl1. pose proof first_block.
  pose proof (block_in ido l1 Hido ip Hip Hl1 1 ltac:(lia)). pose proof (block_in ido l1 Hido ip Hip Hl1 (ip - 1) ltac:(lia)).
  d_none; index_facts; try lia. apply w_fold. intros j [ar2 ai2] Hj.
  assert (Hj' : 1 <= j < Z.shiftr (ip + 1) 1) by lia. clear Hj. d_none; index_facts; lia.
Qed.

Lemma rotate_blocks_none : sets E (rotate_blocks ip idl1 to from) none.
Proof using Hido Hip Hl1 Hidl1 Nto Hfrom Hto.
  unfold rotate_blocks. cbv zeta. apply w_then; [|intros ?; d_none]. apply w_fold. intros l [ar ai] Hl.
  cbv zeta. d_none. by apply rotate_block_none.
Qed.

Lemma add_blocks_none : sets E (add_blocks ip idl1 to from) none.
Proof using Hido Hip Hl1 Hidl1 Nto Hfrom Hto.
  unfold add_blocks. rewrite Hidl1. pose proof first_block. d_none; index_facts; lia.
Qed.
End stages.

(** The parts of the other blocks. *)
Definition heads (p : pointer) : place -> Prop := fun q =>
  exists j k, 1 <= j < ip /\ 0 <= k < l1 /\ q = (p.1, p.2 + (j * t0 + k * ido)).
Definition pairs_of (p : pointer) : place -> Prop := fun q =>
  exists j k i x, 1 <= j < ip /\ 0 <= k < l1 /\ (2 <= i < ido /\ Z.even i = true) /\
    (x = j * t0 + k * ido + i \/ x = j * t0 + k * ido + i - 1) /\ q = (p.1, p.2 + x).

Lemma full_parts p q : Z.odd ido = true -> full p whole q -> full p t0 q \/ heads p q \/ pairs_of p q.
Proof using Hido Hip Hl1.
  intros Hodd. destruct q as [b x]. intros [Eb Hx]. cbn [fst snd] in Eb, Hx. subst b.
  destruct (split_index (x - p.2) ip t0) as (j & y & Ex & Hj & Hy); [lia|nia|].
  destruct (decide (j = 0)) as [->|Hj0]; [left; split; cbn; [done|lia]|]. right.
  destruct (split_index y l1 ido) as (k & r & -> & Hk & Hr); [lia|lia|].
  destruct (row_pair r ido Hr) as [-> |[(i & Hi & Hev & Hri)|(_ & _ & Ho)]]; [left|right|by rewrite Hodd in Ho].
  - exists j, k. split; [lia|]. split; [done|]. f_equal. lia.
  - exists j, k, i, (x - p.2). split; [lia|]. split; [done|]. split; [done|]. split; [lia|]. f_equal. lia.
Qed.

(** For odd [ip] the blocks are the first, [j] and [ip - j]. *)
Lemma half_or j : Z.odd ip = true -> 1 <= j < ip ->
  1 <= j < Z.shiftr (ip + 1) 1 \/ 1 <= ip - j < Z.shiftr (ip + 1) 1.
Proof.
  intros [q Hq]%Z.odd_spec Hj. rewrite Z.shiftr_div_pow2 by lia. change (2 ^ 1) with 2.
  replace ((ip + 1) / 2) with (q + 1); [lia|]. apply (Z.div_unique _ _ _ 0); lia.
Qed.

Context (c ch wa : pointer) (Nc : not_wa c) (Nch : not_wa ch).

Ltac d_stage :=
  lazymatch goal with
  | |- writes _ _ (if ido =? 1 then _ else _) _ => destruct (ido =? 1)
  | |- writes _ _ (copy_block _ _ _) _ => apply copy_block_none; assumption
  | |- writes _ _ (copy_heads _ _ _ _ _) _ => apply copy_heads_none; assumption
  | |- writes _ _ (rotate_blocks _ _ _ _) _ => apply rotate_blocks_none; assumption
  | |- writes _ _ (add_blocks _ _ _ _) _ => apply add_blocks_none; assumption
  | |- writes _ _ (copy_rows _ _ _ _ _ _) _ => 
      apply copy_rows_none; first [assumption|apply (wide_of ido l1 Hido ip Hip Hl1)|apply (thin_of ido l1 Hido ip Hip Hl1)]
  | |- writes _ _ (pair_loop _ _ _ _) _ => apply pair_loop_none; intros ? ? ? ?
  | |- _ => d_rule
  end.

Section known.
Context (E : place (B := ft_block) -> Prop).
Context (Ec : within (full c whole) E) (Ech : within (full ch whole) E) (Ewa : within (full wa ((ip - 1) * ido)) E).

(** With both arrays known. *)
Lemma dradfg_none : sets E (dradfg ido ip l1 idl1 c c c ch ch wa) none.
Proof using Hido Hip Hl1 Hidl1 Nc Nch Ec Ech Ewa.
  unfold dradfg. repeat (cbv beta zeta; d_stage); index_facts; lia.
Qed.

Lemma dradbg_none : sets E (dradbg ido ip l1 idl1 c c c ch ch wa) none.
Proof using Hido Hip Hl1 Hidl1 Nc Nch Ec Ech Ewa.
  unfold dradbg. repeat (cbv beta zeta; d_stage); index_facts; lia.
Qed.
End known.

Context (Hwa : within (full wa ((ip - 1) * ido)) D).

(** The stage that fills [pairs_of]. *)
Lemma pairs_filled E (p : pointer) (c0 : sigM unit) :
  sets E c0 none ->
  (forall j k i x, 1 <= j < ip -> 0 <= k < l1 -> 2 <= i < ido -> Z.even i = true ->
     x = j * t0 + k * ido + i \/ x = j * t0 + k * ido + i - 1 -> sets E c0 (spot p x)) ->
  sets E c0 (pairs_of p).
Proof.
  intros Hn Hh. apply w_all; [done|]. intros q (j & k & i & x & Hj & Hk & [Hi Hev] & Hx & ->). by apply (Hh j k i x).
Qed.

Lemma heads_filled E (p : pointer) (c0 : sigM unit) :
  sets E c0 none ->
  (forall j k, 1 <= j < ip -> 0 <= k < l1 -> sets E c0 (spot p (j * t0 + k * ido))) ->
  sets E c0 (heads p).
Proof. intros Hn Hh. apply w_all; [done|]. intros q (j & k & Hj & Hk & ->). by apply Hh. Qed.

Lemma dradfg_fills :
  ido <> 1 -> Z.odd ido = true -> within (full c whole) D ->
  sets D (dradfg ido ip l1 idl1 c c c ch ch wa) (full c whole).
Proof using Hido Hip Hl1 Hidl1 Nc Nch Hwa.
  intros H1 Hodd Hc. apply w_have; [|done]. unfold dradfg. cbv zeta. rewrite (proj2 (Z.eqb_neq ido 1)) by done.
  (* copy_block, copy_heads and the twiddle factors fill the scratch array *)
  apply (w_bind _ _ _ _ (full ch whole)).
  - apply (w_bind _ _ _ _ (full ch t0)).
    { apply s_full; [by apply copy_block_none|]. intros x Hx. by apply copy_block_hit. }
    intros _. apply (w_bind _ _ _ _ (heads ch)).
    { assert (within (full c whole) (either D (full ch t0))) by (intros p Hp%Hc; by left).
      apply heads_filled; [by apply copy_heads_none|]. intros j k Hj Hk. by apply (copy_heads_hit _ _ _ Nch H0 j k). }
    intros _. apply (w_bind _ _ _ _ (pairs_of ch)).
    { set (E := either _ _).
      assert (Ec : within (full c whole) E) by (intros p Hp%Hc; left; by left).
      assert (Ewa : within (full wa ((ip - 1) * ido)) E) by (intros p Hp%Hwa; left; by left). clearbody E.
      apply pairs_filled; [d_none; apply pair_loop_none; intros; d_none; index_facts; lia|].
      intros j k i x Hj Hk Hi Hev Hx.
      apply (w_for_hit _ _ _ _ _ _ j); [intros; apply pair_loop_none; intros; d_none; index_facts; lia|done|].
      apply (pair_loop_hit _ _ _ k i); [intros; d_none; index_facts; lia|done..|]. index_facts. destruct Hx as [-> | ->]; d_hit; lia. }
    intros _. set (E := either _ _).
    assert (Ech : within (full ch whole) E).
    { intros p Hp. unfold E, either. destruct (full_parts _ _ Hodd Hp) as [?|[?|?]]; tauto. }
    clearbody E. apply w_have; [|done]. d_none. apply pair_loop_none. intros. d_none; index_facts; lia.
  - intros _. set (E := either _ _).
    assert (Ech : within (full ch whole) E) by (intros p Hp; by right).
    assert (Ec : within (full c whole) E) by (intros p Hp%Hc; by left).
    assert (Ewa : within (full wa ((ip - 1) * ido)) E) by (intros p Hp%Hwa; by left). clearbody E.
    repeat (cbv beta iota zeta; d_stage); index_facts; lia.
Qed.

(** With rows of one element the data comes in the other array. *)
Lemma dradfg_fills_unit :
  ido = 1 -> Z.odd ip = true -> within (full ch whole) D ->
  sets D (dradfg ido ip l1 idl1 c c c ch ch wa) (full c whole).
Proof using Hido Hip Hl1 Hidl1 Nc Nch Hwa.
  intros H1 Hodd Hch. unfold dradfg. cbv zeta. rewrite (proj2 (Z.eqb_eq ido 1)) by done. cbv iota.
  apply w_then; [apply w_ret; by intros ?|]. intros _. apply (w_bind _ _ _ _ (full c t0)).
  { apply s_full; [by apply copy_block_none|]. intros x Hx. by apply copy_block_hit. }
  intros _. apply (w_bind _ _ _ _ (heads c)).
  { set (E := either _ _). assert (Ech : within (full ch whole) E) by (intros p Hp%Hch; by left). clearbody E.
    apply heads_filled; [d_none; index_facts; lia|]. intros j k Hj Hk.
    destruct (half_or j Hodd Hj) as [Hh|Hh].
    - apply (w_for_hit _ _ _ _ _ _ j); [intros; d_none; index_facts; lia|done|].
      apply (w_for_hit _ _ _ _ _ _ k); [intros; d_none; index_facts; lia|done|]. index_facts. d_hit; lia.
    - apply (w_for_hit _ _ _ _ _ _ (ip - j)); [intros; d_none; index_facts; lia|done|].
      apply (w_for_hit _ _ _ _ _ _ k); [intros; d_none; index_facts; lia|done|]. index_facts. d_hit; lia. }
  intros _. set (E := either _ _).
  assert (Ech : within (full ch whole) E) by (intros p Hp%Hch; left; by left).
  assert (Ec : within (full c whole) E).
  { intros p Hp. destruct (full_parts c p ltac:(by rewrite H1) Hp) as [?|[?|(j & k & i & x & _ & _ & [Hi _] & _)]]; [left; by right|by right|lia]. }
  assert (Ewa : within (full wa ((ip - 1) * ido)) E) by (intros p Hp%Hwa; left; by left). clearbody E.
  apply w_have; [|done]. repeat (cbv beta iota zeta; d_stage); index_facts; lia.
Qed.

(** The backward pass leaves the data in the other array when rows have one element. *)
Lemma dradbg_fills :
  Z.odd ip = true -> Z.odd ido = true -> within (full c whole) D ->
  sets D (dradbg ido ip l1 idl1 c c c ch ch wa) (full (if ido =? 1 then ch else c) whole).
Proof using Hido Hip Hl1 Hidl1 Nc Nch Hwa.
  intros Hip2 Hodd Hc. unfold dradbg. cbv zeta. apply (w_bind _ _ _ _ (full ch t0)).
  { pose proof (wide_of ido l1 Hido ip Hip Hl1) as Hw. apply s_full; [by apply copy_rows_none|]. intros x Hx.
    destruct (split_index x l1 ido) as (k & r & -> & Hk & Hr); [lia|lia|]. by apply (copy_rows_hit _ _ _ Nch Hc _ _ k r). }
  intros _. apply (w_bind _ _ _ _ (heads ch)).
  { set (E := either _ _). assert (Ec : within (full c whole) E) by (intros p Hp%Hc; by left). clearbody E.
    apply heads_filled; [d_none; index_facts; lia|]. intros j k Hj Hk.
    destruct (half_or j Hip2 Hj) as [Hh|Hh].
    - apply (w_for_hit _ _ _ _ _ _ j); [intros; d_none; index_facts; lia|done|].
      apply (w_for_hit _ _ _ _ _ _ k); [intros; d_none; index_facts; lia|done|]. index_facts. d_hit; lia.
    - apply (w_for_hit _ _ _ _ _ _ (ip - j)); [intros; d_none; index_facts; lia|done|].
      apply (w_for_hit _ _ _ _ _ _ k); [intros; d_none; index_facts; lia|done|]. index_facts. d_hit; lia. }
  intros _. apply (w_bind _ _ _ _ (pairs_of ch)).
  { set (E := either _ _). assert (Ec : within (full c whole) E) by (intros p Hp%Hc; left; by left). clearbody E.
    destruct (Z.eqb_spec ido 1) as [H1|H1].
    - apply w_all; [apply w_ret; by intros ?|]. intros q (j & k & i & x & _ & _ & [Hi _] & _). lia.
    - apply pairs_filled; [d_none; apply pair_loop_none; intros; d_none; index_facts; lia|].
      intros j k i x Hj Hk Hi Hev Hx. destruct (half_or j Hip2 Hj) as [Hh|Hh].
      + apply (w_for_hit _ _ _ _ _ _ j); [intros; apply pair_loop_none; intros; d_none; index_facts; lia|done|].
        apply (pair_loop_hit _ _ _ k i); [intros; d_none; index_facts; lia|done..|]. index_facts. destruct Hx as [-> | ->]; d_hit; lia.
      + apply (w_for_hit _ _ _ _ _ _ (ip - j)); [intros; apply pair_loop_none; intros; d_none; index_facts; lia|done|].
        apply (pair_loop_hit _ _ _ k i); [intros; d_none; index_facts; lia|done..|]. index_facts. destruct Hx as [-> | ->]; d_hit; lia. }
  intros _. set (E := either _ _).
  assert (Ec : within (full c whole) E) by (intros p Hp%Hc; left; left; by left).
  assert (Ech : within (full ch whole) E).
  { intros p Hp. unfold E, either. destruct (full_parts _ _ Hodd Hp) as [?|[?|?]]; tauto. }
  assert (Ewa : within (full wa ((ip - 1) * ido)) E) by (intros p Hp%Hwa; left; left; by left). clearbody E.
  apply w_have; [|by destruct (ido =? 1)]. repeat (cbv beta iota zeta; d_stage); index_facts; lia.
Qed.
End general.
End passes.
