(* ===== verification/SmallFtPure.v ===== *)
(** * SpeexDSP: a transform is a function of its data

    What a transform leaves depends on the data and the twiddle factors, not on the scratch
    space, and it leaves the twiddle factors as they are.  So every transform with a table
    gives what the first one with a fresh table would give, which makes the transforms an
    instance of [Drft]. *)
From Stdlib Require Import ZArith Lia Bool SpecFloat.
From stdpp Require Import base numbers list option.
From S2P Require Import Prelude CFloat Loops FloatBlocks FloatDeps SpeexArith SmallFt SmallFtFactors SmallFtSafe SmallFtRun SmallFtDeps.

Local Open Scope Z_scope.

#[local] Abbreviation sets := (writes twiddle).
#[local] Abbreviation fdata := (f_data, 0).
#[local] Abbreviation scratch := (f_scratch, 0).
#[local] Abbreviation w iw ido k := (padd (f_wa, 0) (iw + k * ido - 1)).

(** ** One pass *)

Section one.
Context `{SpeexLibm} (n ip ido l1 iw : Z) (Hpa : pass_at n ip ido l1 iw).
Context (c ch : ptr ft_block) (Hc : two_arrays c ch) (E : place (B := ft_block) -> Prop).
Context (HT : within (full (f_wa, 0) (2 * n)) E).

Lemma arrays_not_wa : not_wa c /\ not_wa ch.
Proof using Hc. unfold not_wa. destruct Hc as [[-> ->]|[-> ->]]; done. Qed.

Lemma twiddles_known k m : 0 <= k < ip - 1 -> m <= (ip - 1 - k) * ido -> within (full (w iw ido k) m) E.
Proof using Hpa HT.
  intros Hk Hm [b x] [Eb Hx]. apply HT. unfold padd in *. cbn [fst snd] in *.
  destruct Hpa. assert (0 <= k * ido) by nia. split; cbn [fst snd]; [done|lia].
Qed.

Lemma fills_all (p : ptr ft_block) (c0 : sigM unit) m : m = n -> sets E c0 (full p m) -> sets E c0 (full p n).
Proof. by intros ->. Qed.

Lemma radix2_fills : ip = 2 -> within (full c n) E ->
  sets E (dradf2 ido l1 c ch (w iw ido 0)) (full ch n) /\ sets E (dradb2 ido l1 c ch (w iw ido 0)) (full ch n).
Proof using Hpa Hc HT.
  intros Hip Hn. pose proof Hpa as [_ Hido Hl1 Hall _ _]. destruct arrays_not_wa.
  assert (within (full (w iw ido 0) (ido - 1)) E) by (apply twiddles_known; lia).
  rewrite Hip in Hall. rewrite <- Hall in Hn |- *. split; [by apply dradf2_fills|by apply dradb2_fills].
Qed.

Lemma radix3_fills : ip = 3 -> Z.odd ido = true -> within (full c n) E ->
  sets E (dradb3 ido l1 c ch (w iw ido 0) (w iw ido 1)) (full ch n).
Proof using Hpa Hc HT.
  intros Hip Hodd Hn. pose proof Hpa as [_ Hido Hl1 Hall _ _]. destruct arrays_not_wa.
  assert (forall k, 0 <= k < 2 -> within (full (w iw ido k) (ido - 1)) E) by (intros; apply twiddles_known; [lia|nia]).
  rewrite Hip in Hall. rewrite <- Hall in Hn |- *. apply dradb3_fills; auto with lia.
Qed.

Lemma radix4_fills : ip = 4 -> within (full c n) E ->
  sets E (dradf4 ido l1 c ch (w iw ido 0) (w iw ido 1) (w iw ido 2)) (full ch n) /\
  sets E (dradb4 ido l1 c ch (w iw ido 0) (w iw ido 1) (w iw ido 2)) (full ch n).
Proof using Hpa Hc HT.
  intros Hip Hn. pose proof Hpa as [_ Hido Hl1 Hall _ _]. destruct arrays_not_wa.
  assert (forall k, 0 <= k < 3 -> within (full (w iw ido k) (ido - 1)) E) by (intros; apply twiddles_known; [lia|nia]).
  rewrite Hip in Hall. rewrite <- Hall in Hn |- *. split; [apply dradf4_fills|apply dradb4_fills]; auto with lia.
Qed.

Lemma radixgf_fills : Z.odd ip = true -> Z.odd ido = true ->
  within (full (if ido =? 1 then ch else c) n) E ->
  sets E (dradfg ido ip l1 (ido * l1) c c c ch ch (w iw ido 0)) (full c n).
Proof using Hpa Hc HT.
  intros Hip Hodd Hn. pose proof Hpa as [? Hido Hl1 Hall _ _]. destruct arrays_not_wa.
  assert (within (full (w iw ido 0) ((ip - 1) * ido)) E) by (apply twiddles_known; lia).
  rewrite <- Hall in Hn |- *. destruct (Z.eqb_spec ido 1); [apply dradfg_fills_unit|apply dradfg_fills]; auto with lia.
Qed.

Lemma radixgb_fills : Z.odd ip = true -> Z.odd ido = true -> within (full c n) E ->
  sets E (dradbg ido ip l1 (ido * l1) c c c ch ch (w iw ido 0)) (full (if ido =? 1 then ch else c) n).
Proof using Hpa Hc HT.
  intros Hip Hodd Hn. pose proof Hpa as [? Hido Hl1 Hall _ _]. destruct arrays_not_wa.
  assert (within (full (w iw ido 0) ((ip - 1) * ido)) E) by (apply twiddles_known; lia).
  rewrite <- Hall in Hn |- *. apply dradbg_fills; auto with lia.
Qed.
End one.

(** ** All passes *)

(** The array with the data: [na] of the forward transform is 1 for [c], of the backward
    one 0. *)
Definition forward_array (na : Z) : ptr ft_block := if na =? 1 then fdata else scratch.
Definition backward_array (na : Z) : ptr ft_block := if na =? 0 then fdata else scratch.
Definition is_flag (na : Z) : Prop := na = 0 \/ na = 1.

Lemma forward_arrays na : is_flag na -> two_arrays (forward_array na) (forward_array (1 - na)).
Proof. intros [-> | ->]; [by right|by left]. Qed.

Lemma backward_arrays na : is_flag na -> two_arrays (backward_array na) (backward_array (1 - na)).
Proof. intros [-> | ->]; [by left|by right]. Qed.

Lemma flag_flip na : is_flag na -> is_flag (1 - na).
Proof. unfold is_flag. lia. Qed.

(** Filling an array and giving a flag. *)
Lemma pass_then (E : place -> Prop) (c0 : sigM unit) na (arr : Z -> ptr ft_block) n :
  is_flag na -> sets E c0 (full (arr na) n) ->
  deps twiddle E (sig_bind c0 (fun _ => sig_ret na)) is_flag (fun na' => full (arr na') n).
Proof. intros Hf Hc. eapply deps_bind; [exact Hc|]. intros [] _. apply deps_ret; [done|]. intros p Hp. by right. Qed.

Section turns.
Context `{SpeexLibm} (n nf : Z) (ifac : list Z) (Hf : factored n nf ifac) (Hn : 2 <= n).
Context (D : place (B := ft_block) -> Prop) (HT : within (full (f_wa, 0) (2 * n)) D).

Definition forward_state (k : Z) (s : Z * Z * Z) : Prop :=
  is_flag s.1.1 /\ forward_at n nf ifac k s.1.2 s.2.
Definition backward_state (k : Z) (s : Z * Z * Z) : Prop :=
  is_flag s.1.1 /\ backward_at n nf ifac k s.1.2 s.2.

Lemma radix_odd ip : radix ip -> ip <> 4 -> ip <> 2 -> odd_radix ip.
Proof. intros [[?|?]|?]; done. Qed.

Lemma forward_pass_deps k1 s :
  0 <= k1 < nf -> forward_state k1 s ->
  deps twiddle (either D (full (forward_array s.1.1) n)) (forward_pass n nf fdata scratch (f_wa, 0) ifac k1 s)
    (forward_state (k1 + 1)) (fun s' => full (forward_array s'.1.1) n).
Proof using Hf Hn HT.
  destruct s as [[na l2] iw]. cbn [fst snd]. intros Hk [Hna Hat]. cbn [fst snd] in *.
  destruct (forward_at_step n nf ifac Hf k1 l2 iw Hk Hat) as (ip & r & p & Ef & Hr & Ho & El1 & Eido & Hpa & Hnext).
  unfold forward_pass. rewrite Ef. eapply (deps_bind _ _ _ _ (fun s => s = ip)).
  { apply deps_opt. by intros ? [= ->]. }
  intros ? ->. cbv zeta. rewrite El1, Eido. set (E := either _ _).
  assert (ET : within (full (f_wa, 0) (2 * n)) E) by (intros q Hq%HT; left; by left).
  assert (Ed : within (full (forward_array na) n) E) by (intros q Hq; left; by right). clearbody E.
  pose proof (flag_flip na Hna) as Hflip. pose proof (forward_arrays na Hna) as Harr.
  eapply (deps_bind _ _ _ _ is_flag _ (fun na' => full (forward_array na') n)).
  - destruct (Z.eqb_spec ip 4) as [H4|H4]; [|destruct (Z.eqb_spec ip 2) as [H2|H2]].
    + apply pass_then; [done|].
      destruct Hna as [-> | ->]; cbn [Z.sub Z.opp Z.add Z.pos_sub Z.eqb negb]; eapply radix4_fills; eauto.
    + apply pass_then; [done|]. destruct Hna as [-> | ->]; eapply radix2_fills; eauto.
    + pose proof (radix_odd ip Hr H4 H2) as Hoi. assert (Hg : forall na', is_flag na' ->
        within (full (if r =? 1 then forward_array na' else forward_array (1 - na')) n) E ->
        deps twiddle E
          (if negb (na' =? 0)
           then dradfg r ip p (r * p) scratch scratch scratch fdata fdata (w (iw - (ip - 1) * r) r 0);; sig_ret 0
           else dradfg r ip p (r * p) fdata fdata fdata scratch scratch (w (iw - (ip - 1) * r) r 0);; sig_ret 1)%sig
          is_flag (fun na' => full (forward_array na') n)).
      { pose proof (Ho Hoi). destruct Hoi as [_ Hodd]. intros na' Hna' Hin. destruct Hna' as [-> | ->]; cbn [Z.eqb negb].
        - apply (pass_then _ _ 1 forward_array); [by right|]. eapply radixgf_fills; eauto using data_first.
        - apply (pass_then _ _ 0 forward_array); [by left|]. eapply radixgf_fills; eauto using scratch_first. }
      destruct (Z.eqb_spec r 1); apply Hg; try exact Hflip; by replace (1 - (1 - na)) with na by lia.
  - intros na' Hna'. apply deps_ret; [done|]. intros q Hq. by right.
Qed.
Lemma backward_pass_deps k1 s :
  0 <= k1 < nf -> backward_state k1 s ->
  deps twiddle (either D (full (backward_array s.1.1) n)) (backward_pass n fdata scratch (f_wa, 0) ifac k1 s)
    (backward_state (k1 + 1)) (fun s' => full (backward_array s'.1.1) n).
Proof using Hf Hn HT.
  destruct s as [[na l1] iw]. cbn [fst snd]. intros Hk [Hna Hat]. cbn [fst snd] in *.
  destruct (backward_at_step n nf ifac Hf k1 l1 iw Hk Hat) as (ip & r & Ef & Hr & Ho & Eido & Hpa & Hnext).
  unfold backward_pass. rewrite Ef. eapply (deps_bind _ _ _ _ (fun s => s = ip)).
  { apply deps_opt. by intros ? [= ->]. }
  intros ? ->. cbv zeta. rewrite Eido. set (E := either _ _).
  assert (ET : within (full (f_wa, 0) (2 * n)) E) by (intros q Hq%HT; left; by left).
  assert (Ed : within (full (backward_array na) n) E) by (intros q Hq; left; by right). clearbody E.
  pose proof (flag_flip na Hna) as Hflip.
  eapply (deps_bind _ _ _ _ is_flag _ (fun na' => full (backward_array na') n)).
  - destruct (Z.eqb_spec ip 4) as [H4|H4]; [|destruct (Z.eqb_spec ip 2) as [H2|H2]].
    + apply pass_then; [done|]. destruct Hna as [-> | ->]; eapply radix4_fills; eauto using data_first, scratch_first.
    + apply pass_then; [done|]. destruct Hna as [-> | ->]; eapply radix2_fills; eauto using data_first, scratch_first.
    + pose proof (radix_odd ip Hr H4 H2) as Hoi. pose proof (Ho Hoi) as Hor. destruct Hoi as [_ Hodd].
      destruct (Z.eqb_spec ip 3) as [H3|H3].
      * apply pass_then; [done|]. destruct Hna as [-> | ->]; eapply radix3_fills; eauto using data_first, scratch_first.
      * apply (pass_then _ _ _ backward_array); [by destruct (r =? 1)|].
        assert (Earr : (full (backward_array (if r =? 1 then 1 - na else na)) n : place -> Prop) =
          full (if r =? 1 then backward_array (1 - na) else backward_array na) n) by (by destruct (r =? 1)).
        rewrite Earr. destruct Hna as [-> | ->]; eapply radixgb_fills; eauto using data_first, scratch_first.
  - intros na' Hna'. apply deps_ret; [done|]. intros q Hq. by right.
Qed.

Lemma copy_back_fills E : within (full scratch n) E -> sets E (copy_back n fdata scratch) (full fdata n).
Proof using Hn.
  intros Hs. assert (not_wa fdata) by done. unfold copy_back. apply s_full; [d_none; lia|]. intros x Hx.
  apply (w_for_hit _ _ _ _ _ _ x); [intros; d_none; lia|done|]. d_hit. lia.
Qed.

Lemma drftf1_deps : within (full fdata n) D -> sets D (drftf1 n fdata scratch (f_wa, 0) ifac) (full fdata n).
Proof using Hf Hn HT.
  intros Hd. unfold drftf1. pose proof (fa_count _ _ _ Hf).
  eapply (deps_bind _ _ _ _ (fun s => s = nf)); [apply deps_opt; by rewrite (fa_nf _ _ _ Hf); intros ? [= ->]|]. intros ? ->.
  eapply (deps_bind _ _ _ _ (forward_state nf) _ (fun s => full (forward_array s.1.1) n)).
  - apply (deps_fold_at _ _ _ _ _ _ forward_state (fun _ s => full (forward_array s.1.1) n)).
    + lia.
    + split; [by right|]. by apply forward_at_0.
    + intros q Hq. left. by apply Hd.
    + intros k s Hk Hs. eapply deps_mono; [by apply (forward_pass_deps k s)| |done|].
      * intros q [Hq|Hq]; [left; by left|by right].
      * intros s' _ q Hq. by right.
  - intros [[na l2] iw] [Hna _]. cbn [fst snd] in *. destruct Hna as [-> | ->]; cbn [Z.eqb Pos.eqb].
    + apply copy_back_fills. intros q Hq. by right.
    + apply w_ret. intros q Hq. by right.
Qed.

Lemma drftb1_deps : within (full fdata n) D -> sets D (drftb1 n fdata scratch (f_wa, 0) ifac) (full fdata n).
Proof using Hf Hn HT.
  intros Hd. unfold drftb1. pose proof (fa_count _ _ _ Hf).
  eapply (deps_bind _ _ _ _ (fun s => s = nf)); [apply deps_opt; by rewrite (fa_nf _ _ _ Hf); intros ? [= ->]|]. intros ? ->.
  eapply (deps_bind _ _ _ _ (backward_state nf) _ (fun s => full (backward_array s.1.1) n)).
  - apply (deps_fold_at _ _ _ _ _ _ backward_state (fun _ s => full (backward_array s.1.1) n)).
    + lia.
    + split; [by left|]. by apply backward_at_0.
    + intros q Hq. left. by apply Hd.
    + intros k s Hk Hs. eapply deps_mono; [by apply (backward_pass_deps k s)| |done|].
      * intros q [Hq|Hq]; [left; by left|by right].
      * intros s' _ q Hq. by right.
  - intros [[na l1] iw] [Hna _]. cbn [fst snd] in *. destruct Hna as [-> | ->]; cbn [Z.eqb Pos.eqb].
    + apply w_ret. intros q Hq. by right.
    + apply copy_back_fills. intros q Hq. by right.
Qed.
End turns.

(** ** Tables *)

Lemma block_cells_eq (a b : list spec_float) n :
  zlen a = n -> zlen b = n -> (forall i, 0 <= i < n -> at_index a i = at_index b i) -> a = b.
Proof.
  intros Ha Hb Hi. apply list_eq. intros i. unfold zlen in *. destruct (decide (Z.of_nat i < n)).
  - specialize (Hi (Z.of_nat i) ltac:(lia)). unfold at_index in Hi.
    rewrite (proj2 (Z.leb_le 0 _)), Nat2Z.id in Hi by lia. done.
  - by rewrite !lookup_ge_None_2 by lia.
Qed.

(** Tables with the same twiddle factors. *)
Definition twiddles (l : drft_lookup) : list spec_float := drop (Z.to_nat (dl_n l)) (trigcache l).
Definition same_table (l1 l2 : drft_lookup) : Prop :=
  dl_n l1 = dl_n l2 /\ splitcache l1 = splitcache l2 /\ twiddles l1 = twiddles l2.

Section tables.
Context `{SpeexLibm} (n : Z) (Hn : 1 <= n).

Lemma with_table_pure l1 l2 data run :
  table_for n l1 -> table_for n l2 -> same_table l1 l2 -> zlen data = n ->
  safe (ft_sz n n) 3 run (fun _ => True) ->
  sets (either (full fdata n) (full (f_wa, 0) (2 * n))) run (full fdata n) ->
  exists l1' l2' out, with_table l1 data run = Some (l1', out) /\ with_table l2 data run = Some (l2', out) /\
    table_for n l1' /\ same_table l1' l1 /\ zlen out = n.
Proof using Hn.
  intros H1 H2 (_ & Es & Ew) Hd Hs Hw. unfold twiddles in Ew. unfold same_table, twiddles, with_table.
  destruct (table_parts n l1 Hn H1) as [S1 T1], (table_parts n l2 Hn H2) as [S2 T2].
  rewrite (tf_n _ _ H1), (tf_n _ _ H2) in *. rewrite <- Ew in *. set (wa := drop (Z.to_nat n) (trigcache l1)) in *.
  set (m1 := [data; take (Z.to_nat n) (trigcache l1); wa]). set (m2 := [data; take (Z.to_nat n) (trigcache l2); wa]).
  destruct (Hs m1) as ([] & k1 & E1 & Hk1 & _); [by apply three_shaped|].
  destruct (Hs m2) as ([] & k2 & E2 & Hk2 & _); [by apply three_shaped|].
  destruct (Hw m1 m2 tt tt k1 k2) as (_ & _ & Ha & Hk); [|done|done|].
  { intros [b i] [[E _]|[E _]]; cbn [fst] in E; subst b; done. }
  destruct (shaped_three _ _ _ Hk1) as (a1 & b1 & c1 & -> & A1 & B1 & C1).
  destruct (shaped_three _ _ _ Hk2) as (a2 & b2 & c2 & -> & A2 & B2 & C2).
  assert (a1 = a2) as <-.
  { apply (block_cells_eq _ _ n); [done..|]. intros i Hi. apply (Ha (f_data, i)). right. done. }
  assert (c1 = wa) as ->.
  { apply (block_cells_eq _ _ (2 * n)); [done..|]. intros i Hi. by apply (Hk (f_wa, i)). }
  rewrite E1, E2. eexists _, _, a1. split; [done|]. split; [done|]. split.
  - split; [done| |apply H1]. cbn. rewrite zlen_app. lia.
  - split; [|done]. split; [done|]. split; [done|]. cbn [dl_n trigcache]. unfold zlen in B1.
    rewrite drop_app_length' by lia. done.
Qed.

(** The two transforms. *)
Inductive direction := forward | backward.
Definition drft_call (d : direction) (l : drft_lookup) (data : list spec_float) : option (drft_lookup * list spec_float) :=
  match d with forward => drft_forward l data | backward => drft_backward l data end.

Lemma drft_call_pure d l1 l2 data :
  table_for n l1 -> table_for n l2 -> same_table l1 l2 -> zlen data = n ->
  exists l1' l2' out, drft_call d l1 data = Some (l1', out) /\ drft_call d l2 data = Some (l2', out) /\
    table_for n l1' /\ same_table l1' l1 /\ zlen out = n.
Proof using Hn.
  intros H1 H2 Hs Hd. assert (En1 := tf_n _ _ H1). assert (En2 := tf_n _ _ H2). assert (Es := proj1 (proj2 Hs)).
  unfold drft_call, drft_forward, drft_backward. rewrite En1, En2, <- Es. destruct (Z.eqb_spec n 1).
  { exists l1, l2, data. destruct d; done. }
  destruct (tf_split _ _ H1) as [?|[nf Hf]]; [done|].
  destruct d; (apply with_table_pure; [done..| |]).
  - apply (drftf1_safe n nf); [done|lia].
  - apply (drftf1_deps n nf _ Hf ltac:(lia)); intros q Hq; [by right|by left].
  - apply (drftb1_safe n nf); [done|lia].
  - apply (drftb1_deps n nf _ Hf ltac:(lia)); intros q Hq; [by right|by left].
Qed.
End tables.

(** ** Any number of calls *)

Section calls.
Context `{SpeexLibm}.

(** Calls with one table. *)
Fixpoint drft_calls (l : drft_lookup) (calls : list (direction * list spec_float)) : option (drft_lookup * list (list spec_float)) :=
  match calls with
  | [] => Some (l, [])
  | (d, data) :: calls =>
      '(l, out) ← drft_call d l data;
      '(l, outs) ← drft_calls l calls;
      Some (l, out :: outs)
  end.

(** The result of a transform with a fresh table. *)
Definition fresh_transform (d : direction) (n : Z) (data : list spec_float) : option (list spec_float) :=
  l ← spx_drft_init n; '(_, out) ← drft_call d l data; Some out.

Lemma drft_calls_pure n l0 l calls :
  1 <= n -> spx_drft_init n = Some l0 -> table_for n l0 -> table_for n l -> same_table l l0 ->
  Forall (fun c => zlen c.2 = n) calls ->
  exists l' outs, drft_calls l calls = Some (l', outs) /\ table_for n l' /\ same_table l' l0 /\
    Forall (fun o => zlen o = n) outs /\ map (fun c => fresh_transform c.1 n c.2) calls = map Some outs.
Proof.
  intros Hn Hi H0 Hl Hs Hc. revert l Hl Hs. induction Hc as [|[d data] calls Hd _ IH]; intros l Hl Hs.
  { exists l, []. split; [done|]. split; [done|]. split; [done|]. split; [apply Forall_nil_2|done]. }
  cbn [fst snd] in Hd. cbn [drft_calls map fst snd]. unfold fresh_transform at 1. rewrite Hi.
  destruct (drft_call_pure n Hn d l l0 data Hl H0 Hs Hd) as (l1 & l2 & out & E1 & E2 & Hl1 & Hs1 & Ho).
  rewrite E1. cbn [mbind option_bind]. rewrite E2. cbn [mbind option_bind].
  destruct (IH l1 Hl1) as (l' & outs & -> & Hl' & Hs' & Hos & Em).
  { destruct Hs1 as (? & ? & ?), Hs as (? & ? & ?). split; [congruence|]. split; congruence. }
  cbn [mbind option_bind]. exists l', (out :: outs). split; [done|]. split; [done|]. split; [done|].
  split; [by constructor|]. cbn [map]. by rewrite Em.
Qed.

Lemma fresh_transform_ok d n data :
  1 <= n < 2 ^ 31 -> zlen data = n -> exists out, fresh_transform d n data = Some out /\ zlen out = n.
Proof.
  intros Hn Hd. destruct (spx_drft_init_ok n Hn) as (l & E & Hl). unfold fresh_transform. rewrite E. cbn [mbind option_bind].
  destruct (drft_call_pure n ltac:(lia) d l l data Hl Hl ltac:(done) Hd) as (l1 & l2 & out & -> & _ & _ & _ & Ho).
  exists out. done.
Qed.

(** The transform as the components use it: of [n] numbers, with a length whose table can
    be indexed with an [int]. *)
Definition drft_of (d : direction) (n : Z) (data : list spec_float) : list spec_float :=
  if (1 <=? n) && (n <? 2 ^ 29) && (zlen data =? n)
  then match fresh_transform d n data with Some out => out | None => data end
  else data.

Lemma drft_of_length d n data : zlen (drft_of d n data) = zlen data.
Proof.
  unfold drft_of. destruct ((1 <=? n) && (n <? 2 ^ 29) && (zlen data =? n)) eqn:E; [|done].
  apply andb_true_iff in E as [[H1%Z.leb_le H2%Z.ltb_lt]%andb_true_iff H3%Z.eqb_eq].
  destruct (fresh_transform_ok d n data) as (out & -> & Ho); [lia|done|]. lia.
Qed.

Definition smallft : Drft := {|
  spx_drft_forward := drft_of forward;
  spx_drft_backward := drft_of backward;
  drft_forward_length := drft_of_length forward;
  drft_backward_length := drft_of_length backward |}.
End calls.

(** ** Properties *)

(** C38. The factors of the length of a transform: for every [int] from 2 on the trial
    divisions of [drfti1] stop, with at most 30 factors, which fit in [splitcache]; their
    product is the length, and 4s and 2s come before the odd factors. *)
Theorem drft_factors_terminate n ifac :
  2 <= n < 2 ^ 31 -> zlen ifac = 32 ->
  exists nf ifac', drft_factors n ifac = Some (nf, ifac') /\ zlen ifac' = 32 /\
    at_index ifac' 0 = Some n /\ at_index ifac' 1 = Some nf /\ 1 <= nf <= 30 /\
    product (factors nf ifac') = n /\ evens_first (factors nf ifac').
Proof.
  intros Hn Hl. destruct (drft_factors_factored n ifac Hn Hl) as (nf & l & E & []). by exists nf, l.
Qed.

