(* ===== verification/EchoState.v ===== *)
(** * SpeexDSP: the state of the echo canceller (mdf.c)

    [SpeexEchoState] with its creation, reset, release and the requests of
    [speex_echo_ctl].  The integer and [float] members are members of a record; what the
    pointer members point to are the arrays of a memory, named by [echo_block].  C and K
    are the numbers of microphones and loudspeakers, M the number of blocks of the adaptive
    filter. *)
From Stdlib Require Import ZArith Lia Bool SpecFloat.
From stdpp Require Import base numbers list option.
From coqutil Require Import Datatypes.RecordSetters.
From S2P Require Import Prelude CFloat Loops FloatBlocks SpeexArith.
Import DoubleBraceUpdate.

Local Open Scope Z_scope.
Local Open Scope cfloat_scope.

(** ** The state *)

Definition PLAYBACK_DELAY : Z := 2.

Inductive echo_block :=
| b_e | b_x | b_X | b_input | b_y | b_last_y | b_Y | b_E | b_PHI | b_W | b_foreground
| b_power | b_power_1 | b_wtmp | b_Rf | b_Yf | b_Xf | b_Eh | b_Yh | b_window | b_prop
| b_memX | b_memD | b_memE | b_notch_mem.

Definition echo_blocks : list echo_block :=
  [b_e; b_x; b_X; b_input; b_y; b_last_y; b_Y; b_E; b_PHI; b_W; b_foreground;
   b_power; b_power_1; b_wtmp; b_Rf; b_Yf; b_Xf; b_Eh; b_Yh; b_window; b_prop;
   b_memX; b_memD; b_memE; b_notch_mem].

#[export] Instance echo_block_name : BlockName echo_block := fun b =>
  match b with
  | b_e => 0 | b_x => 1 | b_X => 2 | b_input => 3 | b_y => 4 | b_last_y => 5 | b_Y => 6 | b_E => 7
  | b_PHI => 8 | b_W => 9 | b_foreground => 10 | b_power => 11 | b_power_1 => 12 | b_wtmp => 13
  | b_Rf => 14 | b_Yf => 15 | b_Xf => 16 | b_Eh => 17 | b_Yh => 18 | b_window => 19 | b_prop => 20
  | b_memX => 21 | b_memD => 22 | b_memE => 23 | b_notch_mem => 24
  end%nat.

(** The sizes given to [speex_alloc]. *)
Definition echo_size (frame_size M C K : Z) (b : echo_block) : Z :=
  let N := 2 * frame_size in
  match b with
  | b_e | b_y | b_last_y | b_Y | b_E => C * N
  | b_x => K * N
  | b_X => K * (M + 1) * N
  | b_input => C * frame_size
  | b_PHI | b_window | b_wtmp => N
  | b_W => C * K * M * N
  | b_foreground => M * N * C * K
  | b_power | b_power_1 | b_Rf | b_Yf | b_Xf | b_Eh | b_Yh => frame_size + 1
  | b_prop => M
  | b_memX => K
  | b_memD | b_memE => C
  | b_notch_mem => 2 * C
  end.

Record SpeexEchoState := mk_echo {
  frame_size : Z;
  window_size : Z;
  ec_M : Z;
  cancel_count : Z;
  adapted : Z;
  saturated : Z;
  screwed_up : Z;
  ec_C : Z;
  ec_K : Z;
  sampling_rate : Z;
  spec_average : spec_float;
  beta0 : spec_float;
  beta_max : spec_float;
  sum_adapt : spec_float;
  leak_estimate : spec_float;
  ec_mem : list (list spec_float);
  Davg1 : spec_float;
  Davg2 : spec_float;
  Dvar1 : spec_float;
  Dvar2 : spec_float;
  Pey : spec_float;
  Pyy : spec_float;
  preemph : spec_float;
  notch_radius : spec_float;
  play_buf : list Z;
  play_buf_pos : Z;
  play_buf_started : Z }.

Section echo.
Context `{SpeexLibm, Drft}.

(** [speex_alloc] of [n] numbers of [width] bytes: its argument is an [int]; the
    allocation succeeds and the memory is cleared. *)
Definition speex_alloc {A} (zero : A) (width n : Z) : option (list A) :=
  if (0 <=? n) && in_sb 32 (n * width) then Some (zrep n zero) else None.

(** [for (i = 0; i < n; i++) b[i] = x;] *)
Definition fill (b : echo_block) (n : Z) (x : spec_float) : sigM unit :=
  for_sig 0 n (fun i => st_f b i x).

(** The rate-dependent members. *)
Definition set_rate (st : SpeexEchoState) (rate : Z) : SpeexEchoState :=
  let fs := f32_of_Z (frame_size st) in
  let r := f32_of_Z rate in
  st {{ sampling_rate := rate; spec_average := fs /f r;
        beta0 := f32_lit 2 1 *f fs /f r; beta_max := f32_lit 1 2 *f fs /f r }}.

Definition set_notch (st : SpeexEchoState) : SpeexEchoState :=
  st {{ notch_radius :=
          if sampling_rate st <? 12000 then flt (f64_lit 9 10)
          else if sampling_rate st <? 24000 then flt (f64_lit 982 1000)
          else flt (f64_lit 992 1000) }}.

(** The initial adaptation rates of the blocks: first their decay, then their sum is
    made 0.8. *)
Definition init_prop (M : Z) : sigM unit :=
  (let decay := flt (c_exp (dbl (SFopp (flt (f64_lit 24 10) /f f32_of_Z M)))) in
   st_f b_prop 0 (flt (f64_lit 7 10));;
   let* first := ld_f b_prop 0 in
   let* sum := fold_sig 1 M (fun i sum =>
     let* previous := ld_f b_prop (i - 1) in
     st_f b_prop i (previous *f decay);;
     let* p := ld_f b_prop i in
     sig_ret (sum +f p)) first in
   for_sig 0 M (fun k =>
     let i := M - 1 - k in
     let* p := ld_f b_prop i in
     st_f b_prop i (f32_lit 8 10 *f p /f sum)))%sig.

Definition init_arrays (frame_size M C K : Z) : sigM unit :=
  (let N := 2 * frame_size in
   for_sig 0 N (fun i =>
     st_f b_window i
       (flt (f64_lit 1 2 -d f64_lit 1 2 *d c_cos (f64_of_Z 2 *d M_PI *d f64_of_Z i /d f64_of_Z N))));;
   fill b_power_1 (frame_size + 1) f32_one;;
   fill b_W (N * M * K * C) f32_zero;;
   init_prop M)%sig.

Definition speex_echo_state_init_mc (size filter_length nb_mic nb_speakers : Z) : option SpeexEchoState :=
  if size =? 0 then None
  else
    let K := nb_speakers in
    let C := nb_mic in
    let M := Z.quot (filter_length + size - 1) size in
    blocks ← mapM (fun b => speex_alloc f32_zero 4 (echo_size size M C K b)) echo_blocks;
    '(_, mem) ← init_arrays size M C K blocks;
    buf ← speex_alloc 0 2 (K * (PLAYBACK_DELAY + 1) * size);
    Some (set_notch (set_rate
      (mk_echo size (2 * size) M 0 0 0 0 C K 0 f32_zero f32_zero f32_zero f32_zero f32_zero mem
         f32_zero f32_zero f32_zero f32_zero f32_one f32_one (flt (f64_lit 9 10)) f32_zero
         buf (PLAYBACK_DELAY * size) 0) 8000)).

Definition speex_echo_state_init (size filter_length : Z) : option SpeexEchoState :=
  speex_echo_state_init_mc size filter_length 1 1.

(** ** Reset *)

Definition reset_arrays (st : SpeexEchoState) : sigM unit :=
  (let N := window_size st in
   let M := ec_M st in
   let C := ec_C st in
   let K := ec_K st in
   fill b_W (N * M) f32_zero;;
   fill b_foreground (N * M) f32_zero;;
   fill b_X (N * (M + 1)) f32_zero;;
   for_sig 0 (frame_size st + 1) (fun i =>
     st_f b_power i f32_zero;; st_f b_power_1 i f32_one;; st_f b_Eh i f32_zero;; st_f b_Yh i f32_zero);;
   fill b_last_y (frame_size st) f32_zero;;
   fill b_E (N * C) f32_zero;;
   fill b_x (N * K) f32_zero;;
   fill b_notch_mem (2 * C) f32_zero;;
   for_sig 0 C (fun i => st_f b_memE i f32_zero;; st_f b_memD i f32_zero);;
   fill b_memX K f32_zero)%sig.

Definition clear_play (st : SpeexEchoState) : option (list Z) :=
  for_opt (Z.to_nat (3 * frame_size st)) 0 (fun i l => set_index l i 0) (play_buf st).

Definition speex_echo_state_reset (st : SpeexEchoState) : option SpeexEchoState :=
  '(_, mem) ← reset_arrays st (ec_mem st);
  buf ← clear_play st;
  Some (st {{ cancel_count := 0; screwed_up := 0; ec_mem := mem; saturated := 0; adapted := 0;
              sum_adapt := f32_zero; Pey := f32_one; Pyy := f32_one; Davg1 := f32_zero;
              Davg2 := f32_zero; Dvar1 := f32_zero; Dvar2 := f32_zero; play_buf := buf;
              play_buf_pos := PLAYBACK_DELAY * frame_size st; play_buf_started := 0 }}).

(** ** Requests *)

Definition SPEEX_ECHO_GET_FRAME_SIZE : Z := 3.
Definition SPEEX_ECHO_SET_SAMPLING_RATE : Z := 24.
Definition SPEEX_ECHO_GET_SAMPLING_RATE : Z := 25.
Definition SPEEX_ECHO_GET_IMPULSE_RESPONSE_SIZE : Z := 27.
Definition SPEEX_ECHO_GET_IMPULSE_RESPONSE : Z := 29.

(** [st->W[j * N + i]] back in the time domain, as 32-bit integers. *)
Definition impulse_block (st : SpeexEchoState) (j : Z) : sigM (list Z) :=
  (let N := window_size st in
   let* w := read_p (b_W, j * N) N in
   write_p (b_wtmp, 0) (spx_ifft N w);;
   let* t := read_p (b_wtmp, 0) (frame_size st) in
   sig_opt (mapM (fun x => sf_to_s 32 (f32_of_Z 32767 *f x)) t))%sig.

Definition impulse_response (st : SpeexEchoState) : sigM (list Z) :=
  fold_sig 0 (ec_M st) (fun j filt =>
    (let* l := impulse_block st j in sig_ret (filt ++ l))%sig) [].

(** [ptr] points to the numbers [arg], and to the list returned after a request that gets
    something; -1 is an unknown request. *)
Definition speex_echo_ctl (st : SpeexEchoState) (request : Z) (arg : list Z)
    : option (Z * SpeexEchoState * list Z) :=
  if request =? SPEEX_ECHO_GET_FRAME_SIZE then Some (0, st, [frame_size st])
  else if request =? SPEEX_ECHO_SET_SAMPLING_RATE then
    rate ← at_index arg 0; Some (0, set_notch (set_rate st rate), arg)
  else if request =? SPEEX_ECHO_GET_SAMPLING_RATE then Some (0, st, [sampling_rate st])
  else if request =? SPEEX_ECHO_GET_IMPULSE_RESPONSE_SIZE then Some (0, st, [ec_M st * frame_size st])
  else if request =? SPEEX_ECHO_GET_IMPULSE_RESPONSE then
    '(filt, mem) ← impulse_response st (ec_mem st); Some (0, st {{ ec_mem := mem }}, filt)
  else Some (-1, st, arg).
End echo.
