(* ===== verification/EchoCancel.v ===== *)
(** * SpeexDSP: echo cancellation (mdf.c)

    [speex_echo_cancellation] in the order of the code: the microphone and the far end are
    filtered and transformed, the foreground filter gives a first residual, the background
    filter is adapted and constrained, the better of the two filters is kept, the output is
    computed, and the adaptation rates for the next frame.  The buffers of the caller do
    not overlap. *)
From Stdlib Require Import ZArith Lia Bool SpecFloat.
From stdpp Require Import base numbers list option.
From coqutil Require Import Datatypes.RecordSetters.
From S2P Require Import Prelude CFloat Loops FloatBlocks SpeexArith EchoState.
Import DoubleBraceUpdate.

Local Open Scope Z_scope.
Local Open Scope cfloat_scope.

Definition MIN_LEAK : spec_float := f32_lit 5 1000.
Definition VAR1_SMOOTH : spec_float := f32_lit 36 100.
Definition VAR2_SMOOTH : spec_float := f32_lit 7225 10000.
Definition VAR1_UPDATE : spec_float := f32_lit 1 2.
Definition VAR2_UPDATE : spec_float := f32_lit 1 4.
Definition VAR_BACKTRACK : spec_float := f32_lit 4 1.

Section cancel.
Context `{SpeexLibm, Drft}.
#[local] Abbreviation int := f32_of_Z.
#[local] Abbreviation pointer := (ptr echo_block).

(** ** Helpers on arrays *)

(** [in_ + base] is the first sample, the samples are [stride] apart. *)
Definition filter_dc_notch16 (in_ : list Z) (base stride : Z) (radius : spec_float) (out : pointer)
    (len : Z) (mem : pointer) : sigM unit :=
  (let one_r := int 1 -f radius in
   let den2 := flt (dbl (radius *f radius) +d f64_lit 7 10 *d dbl one_r *d dbl one_r) in
   for_sig 0 len (fun i =>
     let* sample := sig_opt (at_index in_ (base + i * stride)) in
     let vin := int sample in
     let* m0 := ldp mem 0 in
     let vout := m0 +f vin in
     let* m1 := ldp mem 1 in
     stp mem 0 (m1 +f int 2 *f (SFopp vin +f radius *f vout));;
     stp mem 1 (vin -f den2 *f vout);;
     stp out i (radius *f vout)))%sig.

Definition mdf_inner_prod (x y : pointer) (len : Z) : sigM spec_float :=
  fold_sig 0 (Z.shiftr len 1) (fun i sum =>
    (let* x0 := ldp x (2 * i) in let* y0 := ldp y (2 * i) in
     let* x1 := ldp x (2 * i + 1) in let* y1 := ldp y (2 * i + 1) in
     sig_ret (sum +f ((int 0 +f x0 *f y0) +f x1 *f y1)))%sig) (int 0).

(** The packed spectrum [X] has [N] numbers: [X[0]], pairs, and [X[N-1]].  The loops
    over the pairs [i = 1, 3, ..] have this many turns. *)
Definition pairs (N : Z) : Z := (N - 1) / 2.

Definition sqr (p : pointer) (i : Z) : sigM spec_float :=
  (let* a := ldp p i in sig_ret (a *f a))%sig.

(** [*p += v] *)
Definition add_to (p : pointer) (i : Z) (v : spec_float) : sigM unit :=
  (let* old := ldp p i in stp p i (old +f v))%sig.

(** What is written to [ps]. *)
Definition power_spectrum (X : list spec_float) (N : Z) : option (list spec_float) :=
  let sqr i := x ← at_index X i; Some (x *f x) in
  first ← sqr 0;
  middle ← mapM (fun t => a ← sqr (1 + 2 * t); b ← sqr (1 + 2 * t + 1); Some (a +f b)) (seqZ 0 (pairs N));
  last ← sqr (1 + 2 * pairs N);
  Some (first :: middle ++ [last]).

Definition power_spectrum_accum (X ps : pointer) (N : Z) : sigM unit :=
  (let* v := sqr X 0 in
   add_to ps 0 v;;
   for_sig 0 (pairs N) (fun t =>
     let i := 1 + 2 * t in
     let* a := sqr X i in let* b := sqr X (i + 1) in add_to ps (1 + t) (a +f b));;
   let* v := sqr X (1 + 2 * pairs N) in
   add_to ps (1 + pairs N) v)%sig.

(** One block of the filter: the product of two packed spectra is added to [acc]. *)
Definition spectral_mul_block (X Y acc : pointer) (N : Z) : sigM unit :=
  (let* x := ldp X 0 in let* y := ldp Y 0 in
   add_to acc 0 (x *f y);;
   for_sig 0 (pairs N) (fun t =>
     let i := 1 + 2 * t in
     let* xr := ldp X i in let* xi := ldp X (i + 1) in
     let* yr := ldp Y i in let* yi := ldp Y (i + 1) in
     add_to acc i (xr *f yr -f xi *f yi);;
     add_to acc (i + 1) (xi *f yr +f xr *f yi));;
   let i := 1 + 2 * pairs N in
   let* x := ldp X i in let* y := ldp Y i in
   add_to acc i (x *f y))%sig.

Definition spectral_mul_accum (X Y acc : pointer) (N M : Z) : sigM unit :=
  (for_sig 0 N (fun i => stp acc i (int 0));;
   for_sig 0 M (fun j => spectral_mul_block (padd X (j * N)) (padd Y (j * N)) acc N))%sig.

Definition weighted_spectral_mul_conj (w : pointer) (p : spec_float) (X Y prod : pointer) (N : Z) : sigM unit :=
  (let* w0 := ldp w 0 in let* x := ldp X 0 in let* y := ldp Y 0 in
   stp prod 0 (p *f w0 *f (x *f y));;
   for_sig 0 (pairs N) (fun t =>
     let i := 1 + 2 * t in
     let* wj := ldp w (1 + t) in
     let W := p *f wj in
     let* xr := ldp X i in let* xi := ldp X (i + 1) in
     let* yr := ldp Y i in let* yi := ldp Y (i + 1) in
     stp prod i (W *f (xr *f yr +f xi *f yi));;
     stp prod (i + 1) (W *f (SFopp xi *f yr +f xr *f yi)));;
   let i := 1 + 2 * pairs N in
   let* wj := ldp w (1 + pairs N) in let* x := ldp X i in let* y := ldp Y i in
   stp prod i (p *f wj *f (x *f y)))%sig.

Definition mdf_adjust_prop (W : pointer) (N M P : Z) (prop : pointer) : sigM unit :=
  (let* max_sum := fold_sig 0 M (fun i max_sum =>
     let* tmp := fold_sig 0 P (fun p tmp => fold_sig 0 N (fun j tmp =>
       let* v := sqr W (p * N * M + i * N + j) in sig_ret (tmp +f v)) tmp) (int 1) in
     let v := flt (spx_sqrt (dbl tmp)) in
     stp prop i v;;
     sig_ret (if max_sum <. v then v else max_sum)) (int 1) in
   let* prop_sum := fold_sig 0 M (fun i prop_sum =>
     add_to prop i (f32_lit 1 10 *f max_sum);;
     let* v := ldp prop i in sig_ret (prop_sum +f v)) (int 1) in
   for_sig 0 M (fun i =>
     let* v := ldp prop i in stp prop i (f32_lit 99 100 *f v /f prop_sum)))%sig.

(** ** The stages of [speex_echo_cancellation] *)

Section stages.
Context (st : SpeexEchoState).
#[local] Abbreviation N := (window_size st).
#[local] Abbreviation fs := (frame_size st).
#[local] Abbreviation M := (ec_M st).
#[local] Abbreviation C := (ec_C st).
#[local] Abbreviation K := (ec_K st).

(** The index of a block of the filter, and of a block of the far end's history. *)
Definition w_index (chan j speak : Z) : Z := chan * N * K * M + j * N * K + speak * N.
Definition x_index (j speak : Z) : Z := j * N * K + speak * N.

(** Notch filter and pre-emphasis of the microphones. *)
Definition load_input (in_ : list Z) : sigM unit :=
  for_sig 0 C (fun chan =>
    (filter_dc_notch16 in_ chan C (notch_radius st) (b_input, chan * fs) fs (b_notch_mem, 2 * chan);;
     for_sig 0 fs (fun i =>
       let* v := ld_f b_input (chan * fs + i) in
       let* d := ld_f b_memD chan in
       st_f b_memD chan v;;
       st_f b_input (chan * fs + i) (v -f preemph st *f d)))%sig).

Definition load_far_end (far_end : list Z) : sigM unit :=
  for_sig 0 K (fun speak => for_sig 0 fs (fun i =>
    (let* v := ld_f b_x (speak * N + i + fs) in
     st_f b_x (speak * N + i) v;;
     let* sample := sig_opt (at_index far_end (i * K + speak)) in
     let* d := ld_f b_memX speak in
     st_f b_x (speak * N + i + fs) (int sample -f preemph st *f d);;
     st_f b_memX speak (int sample))%sig)).

(** [spx_fft(in, out)] and [spx_ifft(in, out)] *)
Definition fft_to (p q : pointer) : sigM unit :=
  (let* l := read_p p N in write_p q (spx_fft N l))%sig.
Definition ifft_to (p q : pointer) : sigM unit :=
  (let* l := read_p p N in write_p q (spx_ifft N l))%sig.

Definition shift_far_end : sigM unit :=
  for_sig 0 K (fun speak =>
    (for_sig 0 M (fun k =>
       let j := M - 1 - k in
       for_sig 0 N (fun i =>
         let* v := ld_f b_X (x_index j speak + i) in st_f b_X (x_index (j + 1) speak + i) v));;
     fft_to (b_x, speak * N) (b_X, speak * N))%sig).

(** The energy of the far end, added to [Sxx], and its spectrum, added to [Xf]. *)
Definition far_end_energy (Sxx : spec_float) : sigM spec_float :=
  fold_sig 0 K (fun speak Sxx =>
    (let* v := mdf_inner_prod (b_x, speak * N + fs) (b_x, speak * N + fs) fs in
     power_spectrum_accum (b_X, speak * N) (b_Xf, 0) N;;
     sig_ret (Sxx +f v))%sig) Sxx.

(** [e[chan * N + i] = input[chan * fs + i] - b[chan * N + i + fs]] *)
Definition residual_of (b : echo_block) (chan : Z) : sigM unit :=
  for_sig 0 fs (fun i =>
    (let* d := ld_f b_input (chan * fs + i) in
     let* v := ld_f b (chan * N + i + fs) in
     st_f b_e (chan * N + i) (d -f v))%sig).

Definition run_foreground : sigM spec_float :=
  fold_sig 0 C (fun chan Sff =>
    (spectral_mul_accum (b_X, 0) (b_foreground, chan * N * K * M) (b_Y, chan * N) N (M * K);;
     ifft_to (b_Y, chan * N) (b_e, chan * N);;
     residual_of b_e chan;;
     let* v := mdf_inner_prod (b_e, chan * N) (b_e, chan * N) fs in
     sig_ret (Sff +f v))%sig) (int 0).

(** The gradient step of the background filter. *)
Definition adapt_weights : sigM unit :=
  for_sig 0 C (fun chan => for_sig 0 K (fun speak => for_sig 0 M (fun k =>
    (let j := M - 1 - k in
     let* p := ld_f b_prop j in
     weighted_spectral_mul_conj (b_power_1, 0) p (b_X, x_index (j + 1) speak) (b_E, chan * N) (b_PHI, 0) N;;
     for_sig 0 N (fun i =>
       let* phi := ld_f b_PHI i in add_to (b_W, w_index chan j speak) i phi))%sig))).

(** Whether block [j] of the filter is constrained in frame number [count]. *)
Definition constrained (count j : Z) : bool := (j =? 0) || (Z.rem count (M - 1) =? j - 1).

Definition constrain_weights (count : Z) : sigM unit :=
  for_sig 0 C (fun chan => for_sig 0 K (fun speak => for_sig 0 M (fun j =>
    if constrained count j
    then
      (ifft_to (b_W, w_index chan j speak) (b_wtmp, 0);;
       for_sig fs N (fun i => st_f b_wtmp i (int 0));;
       fft_to (b_wtmp, 0) (b_W, w_index chan j speak))%sig
    else sig_ret tt))).

Definition clear_spectra : sigM unit :=
  for_sig 0 (fs + 1) (fun i =>
    (st_f b_Xf i (int 0);; st_f b_Yf i (int 0);; st_f b_Rf i (int 0))%sig).

(** The energies of the difference of the filters' responses and of the background's residual. *)
Definition run_background : sigM (spec_float * spec_float) :=
  fold_sig 0 C (fun chan '(Dbf, See) =>
    (spectral_mul_accum (b_X, 0) (b_W, chan * N * K * M) (b_Y, chan * N) N (M * K);;
     ifft_to (b_Y, chan * N) (b_y, chan * N);;
     for_sig 0 fs (fun i =>
       let* v := ld_f b_e (chan * N + i + fs) in
       let* w := ld_f b_y (chan * N + i + fs) in
       st_f b_e (chan * N + i) (v -f w));;
     let* d := mdf_inner_prod (b_e, chan * N) (b_e, chan * N) fs in
     residual_of b_y chan;;
     let* v := mdf_inner_prod (b_e, chan * N) (b_e, chan * N) fs in
     sig_ret (Dbf +f (int 10 +f d), See +f v))%sig) (int 0, int 0).

(** ** The choice of the filter *)

(** The averages of the difference of the two residuals, over two windows. *)
Definition filter_averages (Sff See Dbf : spec_float) : SpeexEchoState :=
  let d := Sff -f See in
  let var c := (c *f Sff) *f (c *f Dbf) in
  st {{ Davg1 := f32_lit 6 10 *f Davg1 st +f f32_lit 4 10 *f d;
        Davg2 := f32_lit 85 100 *f Davg2 st +f f32_lit 15 100 *f d;
        Dvar1 := VAR1_SMOOTH *f Dvar1 st +f var (f32_lit 4 10);
        Dvar2 := VAR2_SMOOTH *f Dvar2 st +f var (f32_lit 15 100) }}.

Definition clear_averages : SpeexEchoState :=
  st {{ Davg1 := int 0; Davg2 := int 0; Dvar1 := int 0; Dvar2 := int 0 }}.

(** The background filter is significantly better, or significantly worse. *)
Definition update_foreground (Sff See Dbf : spec_float) : bool :=
  let d := Sff -f See in
  if Sff *f Dbf <. d *f ABS32 d then true
  else if VAR1_UPDATE *f Dvar1 st <. Davg1 st *f ABS32 (Davg1 st) then true
  else VAR2_UPDATE *f Dvar2 st <. Davg2 st *f ABS32 (Davg2 st).

Definition reset_background (Sff See Dbf : spec_float) : bool :=
  let d := Sff -f See in
  (VAR_BACKTRACK *f (Sff *f Dbf) <. SFopp d *f ABS32 d)
  || (VAR_BACKTRACK *f Dvar1 st <. SFopp (Davg1 st) *f ABS32 (Davg1 st))
  || (VAR_BACKTRACK *f Dvar2 st <. SFopp (Davg2 st) *f ABS32 (Davg2 st)).

(** [to[i] = from[i]] for the weights of a filter. *)
Definition copy_weights (from to : echo_block) : sigM unit :=
  for_sig 0 (N * M * C * K) (fun i => (let* v := ld_f from i in st_f to i v)%sig).

(** The background filter becomes the foreground; the output goes over smoothly. *)
Definition promote_background : sigM unit :=
  (copy_weights b_W b_foreground;;
   for_sig 0 C (fun chan => for_sig 0 fs (fun i =>
     let* w1 := ld_f b_window (i + fs) in
     let* e := ld_f b_e (chan * N + i + fs) in
     let* w0 := ld_f b_window i in
     let* y := ld_f b_y (chan * N + i + fs) in
     st_f b_e (chan * N + i + fs) (w1 *f e +f w0 *f y))))%sig.

(** The background filter starts again from the foreground. *)
Definition restore_background : sigM unit :=
  (copy_weights b_foreground b_W;;
   for_sig 0 C (fun chan =>
     for_sig 0 fs (fun i =>
       let* v := ld_f b_e (chan * N + i + fs) in st_f b_y (chan * N + i + fs) v);;
     residual_of b_y chan))%sig.
End stages.

(** With the state after [filter_averages]; gives [See] too. *)
Definition choose_filter (st : SpeexEchoState) (Sff See Dbf : spec_float) : sigM (SpeexEchoState * spec_float) :=
  (if update_foreground st Sff See Dbf
   then promote_background st;; sig_ret (clear_averages st, See)
   else if reset_background st Sff See Dbf
   then restore_background st;; sig_ret (clear_averages st, Sff)
   else sig_ret (st, See))%sig.

(** ** The output *)

Record output := mk_output {
  o_saturated : Z;
  o_out : list Z;
  o_Sey : spec_float;
  o_Syy : spec_float;
  o_Sdd : spec_float }.

Section out_stages.
Context (st : SpeexEchoState).
#[local] Abbreviation N := (window_size st).
#[local] Abbreviation fs := (frame_size st).
#[local] Abbreviation M := (ec_M st).
#[local] Abbreviation C := (ec_C st).
#[local] Abbreviation K := (ec_K st).

(** One output sample, with de-emphasis; a microphone sample near the limits marks the
    frame as saturated. *)
Definition output_sample (in_ : list Z) (chan i : Z) (o : output) : sigM output :=
  (let* d := ld_f b_input (chan * fs + i) in
   let* e := ld_f b_e (chan * N + i + fs) in
   let* m := ld_f b_memE chan in
   let tmp_out := (d -f e) +f preemph st *f m in
   let* sample := sig_opt (at_index in_ (i * C + chan)) in
   let saturated :=
     if ((sample <=? -32000) || (sample >=? 32000)) && (o_saturated o =? 0) then 1 else o_saturated o in
   let* out := sig_opt (set_index (o_out o) (i * C + chan) (WORD2INT tmp_out)) in
   st_f b_memE chan tmp_out;;
   sig_ret (mk_output saturated out (o_Sey o) (o_Syy o) (o_Sdd o)))%sig.

Definition output_channel (in_ : list Z) (chan : Z) (o : output) : sigM output :=
  (let* o := fold_sig 0 fs (output_sample in_ chan) o in
   for_sig 0 fs (fun i =>
     let* v := ld_f b_e (chan * N + i) in
     st_f b_e (chan * N + i + fs) v;;
     st_f b_e (chan * N + i) (int 0));;
   let* ey := mdf_inner_prod (b_e, chan * N + fs) (b_y, chan * N + fs) fs in
   let* yy := mdf_inner_prod (b_y, chan * N + fs) (b_y, chan * N + fs) fs in
   let* dd := mdf_inner_prod (b_input, chan * fs) (b_input, chan * fs) fs in
   fft_to st (b_e, chan * N) (b_E, chan * N);;
   for_sig 0 fs (fun i => st_f b_y (i + chan * N) (int 0));;
   fft_to st (b_y, chan * N) (b_Y, chan * N);;
   power_spectrum_accum (b_E, chan * N) (b_Rf, 0) N;;
   power_spectrum_accum (b_Y, chan * N) (b_Yf, 0) N;;
   sig_ret (mk_output (o_saturated o) (o_out o) (o_Sey o +f ey) (o_Syy o +f yy) (o_Sdd o +f dd)))%sig.

Definition compute_output (in_ out : list Z) : sigM output :=
  fold_sig 0 C (output_channel in_) (mk_output (saturated st) out (int 0) (int 0) (int 0)).

(** ** The sanity check *)

Definition energies_sane (Sxx Sff See Syy : spec_float) : bool :=
  let limit := f64_of_Z N *d f64_lit (10 ^ 9) 1 in
  (int 0 <=. Syy) && (int 0 <=. Sxx) && (int 0 <=. See)
  && (dbl Sff <. limit) && (dbl Syy <. limit) && (dbl Sxx <. limit).

(** The new [screwed_up], and whether the output is cleared. *)
Definition check_energies (Sxx Sff See Syy Sdd : spec_float) : Z * bool :=
  if negb (energies_sane Sxx Sff See Syy) then (screwed_up st + 50, true)
  else if Sdd +f int N *f int 10000 <. Sff then (screwed_up st + 1, false)
  else (0, false).

Definition clear_out (out : list Z) : option (list Z) :=
  for_opt (Z.to_nat (fs * C)) 0 (fun i l => set_index l i 0) out.

(** ** Adaptation rates *)

Definition smooth_power (ss ss_1 : spec_float) : sigM unit :=
  for_sig 0 (fs + 1) (fun j =>
    (let* p := ld_f b_power j in
     let* x := ld_f b_Xf j in
     st_f b_power j (ss_1 *f p +f int 1 +f ss *f x))%sig).

(** The correlations of this frame: of the error with the response, and of the response. *)
Definition correlations : sigM (spec_float * spec_float) :=
  fold_sig 0 (fs + 1) (fun k '(Pey, Pyy) =>
    (let j := fs - k in
     let a := spec_average st in
     let* rf := ld_f b_Rf j in let* eh := ld_f b_Eh j in
     let* yf := ld_f b_Yf j in let* yh := ld_f b_Yh j in
     let Eh := rf -f eh in
     let Yh := yf -f yh in
     st_f b_Eh j ((int 1 -f a) *f eh +f a *f rf);;
     st_f b_Yh j ((int 1 -f a) *f yh +f a *f yf);;
     sig_ret (Pey +f Eh *f Yh, Pyy +f Yh *f Yh))%sig) (int 1, int 1).

(** The leak estimate, the regression of the error on the response. *)
Definition update_leak (Pey' Pyy' Syy See : spec_float) : SpeexEchoState :=
  let Pyy' := flt (spx_sqrt (dbl Pyy')) in
  let Pey' := Pey' /f Pyy' in
  let tmp32 := beta0 st *f Syy in
  let tmp32 := if beta_max st *f See <. tmp32 then beta_max st *f See else tmp32 in
  let alpha := tmp32 /f See in
  let alpha_1 := int 1 -f alpha in
  let pey := alpha_1 *f Pey st +f alpha *f Pey' in
  let pyy := alpha_1 *f Pyy st +f alpha *f Pyy' in
  let pyy := if pyy <. int 1 then int 1 else pyy in
  let pey := if pey <. MIN_LEAK *f pyy then MIN_LEAK *f pyy else pey in
  let pey := if pyy <. pey then pyy else pey in
  let leak := pey /f pyy in
  st {{ Pey := pey; Pyy := pyy; leak_estimate := if int 16383 <. leak then int 32767 else leak }}.

(** The residual to error ratio. *)
Definition residual_ratio (Sxx Syy See Sey : spec_float) : spec_float :=
  let RER := flt ((f64_lit 1 10000 *d dbl Sxx +d f64_of_Z 3 *d dbl (leak_estimate st *f Syy)) /d dbl See) in
  let bound := Sey *f Sey /f (int 1 +f See *f Syy) in
  let RER := if RER <. bound then bound else RER in
  if f64_lit 1 2 <. dbl RER then flt (f64_lit 1 2) else RER.

Definition has_adapted (Syy : spec_float) : bool :=
  (adapted st =? 0) && (int M <. sum_adapt st)
  && (f32_lit 3 100 *f Syy <. leak_estimate st *f Syy).

(** The rates per frequency once the filter has adapted. *)
Definition learning_rates (RER : spec_float) : sigM unit :=
  for_sig 0 (fs + 1) (fun i =>
    (let* yf := ld_f b_Yf i in let* rf := ld_f b_Rf i in let* p := ld_f b_power i in
     let r := leak_estimate st *f yf in
     let e := rf +f int 1 in
     let half := f64_lit 1 2 *d dbl e in
     let r := if half <. dbl r then flt half else r in
     let r := flt (f64_lit 7 10 *d dbl r +d f64_lit 3 10 *d dbl (RER *f e)) in
     st_f b_power_1 i (r /f (e *f (p +f int 10))))%sig).

(** The rate before that. *)
Definition temporary_rate (Sxx See : spec_float) : spec_float :=
  if int N *f int 1000 <. Sxx
  then
    let tmp32 := f32_lit 1 4 *f Sxx in
    let limit := f64_lit 1 4 *d dbl See in
    (if limit <. dbl tmp32 then flt limit else tmp32) /f See
  else int 0.

Definition temporary_rates (adapt_rate : spec_float) : sigM unit :=
  for_sig 0 (fs + 1) (fun i =>
    (let* p := ld_f b_power i in st_f b_power_1 i (adapt_rate /f (p +f int 10)))%sig).

Definition save_last_y (in_ out : list Z) : sigM unit :=
  (for_sig 0 fs (fun i => let* v := ld_f b_last_y (fs + i) in st_f b_last_y i v);;
   if adapted st =? 0 then sig_ret tt
   else for_sig 0 fs (fun i =>
     let* a := sig_opt (at_index in_ i) in
     let* b := sig_opt (at_index out i) in
     st_f b_last_y (fs + i) (int (a - b))))%sig.
End out_stages.

(** From the smoothing of the far end's power to the end. *)
Definition finish_frame (st : SpeexEchoState) (in_ out : list Z) (ss ss_1 Sxx See : spec_float) (o : output)
    : sigM SpeexEchoState :=
  (let N := window_size st in
   let Syy := o_Syy o in
   let See := MAX32 See (int N *f int 100) in
   let* Sxx := far_end_energy st Sxx in
   smooth_power st ss ss_1;;
   let* (pey, pyy) := correlations st in
   let st := update_leak st pey pyy Syy See in
   let RER := residual_ratio st Sxx Syy See (o_Sey o) in
   let st := if has_adapted st Syy then st {{ adapted := 1 }} else st in
   let* st :=
     if adapted st =? 0
     then
       let rate := temporary_rate st Sxx See in
       temporary_rates st rate;;
       sig_ret (st {{ sum_adapt := sum_adapt st +f rate }})
     else learning_rates st RER;; sig_ret st in
   save_last_y st in_ out;;
   sig_ret st)%sig.

(** ** The whole frame *)

(** Up to the sanity check: the state, the energies and the output. *)
Definition cancel_frame (st : SpeexEchoState) (in_ far_end out : list Z)
    : sigM (SpeexEchoState * spec_float * spec_float * spec_float * output) :=
  (let st := st {{ cancel_count := s32 (cancel_count st + 1) }} in
   load_input st in_;;
   load_far_end st far_end;;
   shift_far_end st;;
   let* Sxx := far_end_energy st (int 0) in
   let* Sff := run_foreground st in
   (if adapted st =? 0 then sig_ret tt
    else mdf_adjust_prop (b_W, 0) (window_size st) (ec_M st) (ec_C st * ec_K st) (b_prop, 0));;
   let* st :=
     if saturated st =? 0 then adapt_weights st;; sig_ret st
     else sig_ret (st {{ saturated := saturated st - 1 }}) in
   constrain_weights st (cancel_count st);;
   clear_spectra st;;
   let* (Dbf, See) := run_background st in
   let* (st, See) := choose_filter (filter_averages st Sff See Dbf) Sff See Dbf in
   let* o := compute_output st in_ out in
   sig_ret (st {{ saturated := o_saturated o }}, Sxx, Sff, See, o))%sig.

Definition speex_echo_cancellation (st : SpeexEchoState) (in_ far_end out : list Z)
    : option (SpeexEchoState * list Z) :=
  let ss := flt (f64_lit 35 100 /d f64_of_Z (ec_M st)) in
  let ss_1 := int 1 -f ss in
  '(st, Sxx, Sff, See, o, mem) ← cancel_frame st in_ far_end out (ec_mem st);
  let '(screwed, clear) := check_energies st Sxx Sff See (o_Syy o) (o_Sdd o) in
  out ← (if clear then clear_out st (o_out o) else Some (o_out o));
  let st := st {{ screwed_up := screwed; ec_mem := mem }} in
  if screwed >=? 50 then
    st ← speex_echo_state_reset st; Some (st, out)
  else
    '(st, mem) ← finish_frame st in_ out ss ss_1 Sxx See o mem;
    Some (st {{ ec_mem := mem }}, out).

Definition speex_echo_cancel := speex_echo_cancellation.

(** The spectrum of the estimated echo, written to [residual_echo], an array of
    [speex_preprocess_run]. *)
Definition speex_echo_get_residual (st : SpeexEchoState) (residual_echo : list spec_float)
    : option (SpeexEchoState * list spec_float) :=
  let N := window_size st in
  let leak2 :=
    if f64_lit 1 2 <. dbl (leak_estimate st) then int 1 else int 2 *f leak_estimate st in
  '(Y, mem) ←
    (for_sig 0 N (fun i =>
       let* w := ld_f b_window i in let* v := ld_f b_last_y i in st_f b_y i (w *f v));;
     fft_to st (b_y, 0) (b_Y, 0);;
     read_p (b_Y, 0) N)%sig (ec_mem st);
  ps ← power_spectrum Y N;
  _ ← part residual_echo 0 (zlen ps);
  let residual := map (fun x => int (int32_of_f32 (leak2 *f x))) ps in
  Some (st {{ ec_mem := mem }}, wr residual_echo 0 residual).

(** ** Playing and capturing through the state's own buffer *)

Definition speex_echo_capture (st : SpeexEchoState) (rec out : list Z) : option (SpeexEchoState * list Z) :=
  let st := st {{ play_buf_started := 1 }} in
  let fs := frame_size st in
  if play_buf_pos st >=? fs
  then
    '(st, out) ← speex_echo_cancellation st rec (play_buf st) out;
    let pos := play_buf_pos st - fs in
    buf ← for_opt (Z.to_nat pos) 0 (fun i l => v ← at_index l (i + fs); set_index l i v) (play_buf st);
    Some (st {{ play_buf := buf; play_buf_pos := pos }}, out)
  else
    out ← for_opt (Z.to_nat fs) 0 (fun i l => v ← at_index rec i; set_index l i v) out;
    Some (st {{ play_buf_pos := 0 }}, out).

(** [for (i = 0; i < st->frame_size; i++) st->play_buf[st->play_buf_pos + i] = play[i];] and
    the advance of the position. *)
Definition store_play (st : SpeexEchoState) (play : list Z) : option SpeexEchoState :=
  buf ← for_opt (Z.to_nat (frame_size st)) 0
          (fun i l => v ← at_index play i; set_index l (play_buf_pos st + i) v) (play_buf st);
  Some (st {{ play_buf := buf; play_buf_pos := play_buf_pos st + frame_size st }}).

Definition speex_echo_playback (st : SpeexEchoState) (play : list Z) : option SpeexEchoState :=
  let fs := frame_size st in
  if play_buf_started st =? 0 then Some st
  else if play_buf_pos st <=? PLAYBACK_DELAY * fs
  then
    st ← store_play st play;
    if play_buf_pos st <=? (PLAYBACK_DELAY - 1) * fs then store_play st play else Some st
  else Some st.
End cancel.
