(* ===== verification/EchoProps.v ===== *)
(** * SpeexDSP: the echo canceller is memory-safe

    Every stage of [EchoCancel] reads and writes its arrays in range, whatever the numbers
    in them are, and keeps their sizes. *)
From Stdlib Require Import ZArith Lia Bool SpecFloat.
From stdpp Require Import base numbers list option.
From coqutil Require Import Datatypes.RecordSetters.
From S2P Require Import Prelude CFloat Loops FloatBlocks SpeexArith EchoState EchoCancel.
Import DoubleBraceUpdate.

Local Open Scope Z_scope.

(** ** Shapes *)

Definition echo_sz (fs M C K : Z) (i : nat) : Z :=
  match echo_blocks !! i with Some b => echo_size fs M C K b | None => 0 end.

Lemma echo_sz_of fs M C K b : size_of (echo_sz fs M C K) b = echo_size fs M C K b.
Proof. by destruct b. Qed.

Lemma echo_names (b : echo_block) : (block_index b < 25)%nat.
Proof. destruct b; vm_compute; lia. Qed.

(** A state as [speex_echo_state_init_mc] makes it. *)
Record echo_shape (st : SpeexEchoState) : Prop := {
  es_fs : 1 <= frame_size st;
  es_window : window_size st = 2 * frame_size st;
  es_M : 1 <= ec_M st;
  es_C : 1 <= ec_C st;
  es_K : 1 <= ec_K st }.

Definition echo_mem_ok (st : SpeexEchoState) (m : list (list spec_float)) : Prop :=
  shaped (echo_sz (frame_size st) (ec_M st) (ec_C st) (ec_K st)) 25 m.

(** The element of row [i] of [n] rows of [a]. *)
Lemma row_range i n a : 0 <= i < n -> 0 <= a -> 0 <= i * a /\ i * a + a <= n * a.
Proof. intros. nia. Qed.

Section stages.
Context `{SpeexLibm, Drft}.
Context (st : SpeexEchoState) (Hst : echo_shape st).
#[local] Abbreviation N := (window_size st).
#[local] Abbreviation fs := (frame_size st).
#[local] Abbreviation M := (ec_M st).
#[local] Abbreviation C := (ec_C st).
#[local] Abbreviation K := (ec_K st).
#[local] Abbreviation esize := (echo_sz fs M C K).
#[local] Abbreviation esafe := (@safe (echo_sz fs M C K) 25 _).
#[local] Abbreviation eroom := (@room (echo_sz fs M C K) _ _).

(** The rules with the names of this component. *)
Lemma e_ld b i : 0 <= i < echo_size fs M C K b -> esafe (ld_f b i) (fun _ => True).
Proof. intros Hi. apply safe_ld; [exact echo_names|]. by rewrite echo_sz_of. Qed.

Lemma e_st b i x : 0 <= i < echo_size fs M C K b -> esafe (st_f b i x) (fun _ => True).
Proof. intros Hi. apply safe_st; [exact echo_names|]. by rewrite echo_sz_of. Qed.

Definition e_room (p : ptr echo_block) (n : Z) : Prop := 0 <= p.2 /\ p.2 + n <= echo_size fs M C K p.1.

Lemma e_room_of p n : e_room p n -> eroom p n.
Proof. unfold e_room, room. by rewrite echo_sz_of. Qed.

Lemma e_ldp p i n : e_room p n -> 0 <= i < n -> esafe (ldp p i) (fun _ => True).
Proof. intros Hp%e_room_of Hi. by apply (safe_ldp _ _ echo_names _ _ n). Qed.

Lemma e_stp p i x n : e_room p n -> 0 <= i < n -> esafe (stp p i x) (fun _ => True).
Proof. intros Hp%e_room_of Hi. by apply (safe_stp _ _ echo_names _ _ _ n). Qed.

Lemma e_add_to p i v n : e_room p n -> 0 <= i < n -> esafe (add_to p i v) (fun _ => True).
Proof.
  intros Hp Hi. eapply safe_bind; [by eapply e_ldp|]. intros. by eapply e_stp.
Qed.

Lemma e_read p n : e_room p n -> 0 <= n -> esafe (read_p p n) (fun l => zlen l = n).
Proof. intros Hp%e_room_of Hn. apply safe_read_p; [exact echo_names|done..]. Qed.

Lemma e_write p d : e_room p (zlen d) -> esafe (write_p p d) (fun _ => True).
Proof. intros Hp%e_room_of. apply safe_write_p; [exact echo_names|done]. Qed.

Lemma e_index {A} (l : list A) i : 0 <= i < zlen l -> esafe (sig_opt (at_index l i)) (fun _ => True).
Proof. intros Hi. apply safe_opt. destruct (at_index_some l i Hi) as [x ->]. eauto. Qed.

(** One step of the code: a rule for each construct; the ranges remain. *)
Ltac e_rule :=
  lazymatch goal with
  | |- safe _ _ (sig_ret _) _ => apply safe_ret; done
  | |- safe _ _ (sig_bind (sig_opt (set_index _ _ _)) _) _ => fail
  | |- safe _ _ (sig_bind (read_p _ _) _) _ =>
      eapply safe_bind; [apply e_read|let x := fresh "l" in let Hx := fresh "Hl" in intros x Hx; cbv beta in Hx]
  | |- safe _ _ (sig_bind _ _) _ => apply (safe_bind _ _ _ _ (fun _ => True)); [|let x := fresh "v" in let Hx := fresh "Hv" in intros x Hx; cbv beta in Hx]
  | |- safe _ _ (for_sig _ _ _) _ => apply safe_for_sig; intros ? ?
  | |- safe _ _ (ld_f _ _) _ => apply e_ld
  | |- safe _ _ (st_f _ _ _) _ => apply e_st
  | |- safe _ _ (ldp _ _) _ => eapply e_ldp; [eassumption|]
  | |- safe _ _ (stp _ _ _) _ => eapply e_stp; [eassumption|]
  | |- safe _ _ (add_to _ _ _) _ => eapply e_add_to; [eassumption|]
  | |- safe _ _ (sig_opt (at_index _ _)) _ => apply e_index
  end.
Ltac e_safe := repeat (cbv zeta; e_rule).

(** ** Helpers *)

Lemma pairs_even n : 1 <= n -> pairs (2 * n) = n - 1.
Proof. intros. unfold pairs. symmetry. apply (Z.div_unique _ _ _ 1); lia. Qed.

Lemma e_inner_prod p q n : 0 <= n -> e_room p n -> e_room q n -> esafe (mdf_inner_prod p q n) (fun _ => True).
Proof.
  intros Hn Hp Hq. unfold mdf_inner_prod. rewrite Z.shiftr_div_pow2 by lia. change (2 ^ 1) with 2.
  apply safe_fold_sig; [done|]. intros k y Hk _.
  assert (2 * k + 1 < n) by (pose proof (Z.mul_div_le n 2); lia).
  e_safe; lia.
Qed.

Lemma e_power_accum p q : e_room p N -> e_room q (fs + 1) -> esafe (power_spectrum_accum p q N) (fun _ => True).
Proof using Hst.
  intros Hp Hq. pose proof Hst as [Hf HN _ _ _]. unfold power_spectrum_accum, sqr.
  rewrite HN in Hp |- *. rewrite pairs_even by done. e_safe; lia.
Qed.

Lemma e_spectral_block p q r : e_room p N -> e_room q N -> e_room r N -> esafe (spectral_mul_block p q r N) (fun _ => True).
Proof using Hst.
  intros Hp Hq Hr. pose proof Hst as [Hf HN _ _ _]. unfold spectral_mul_block.
  rewrite HN in Hp, Hq, Hr |- *. rewrite pairs_even by done. e_safe; lia.
Qed.

Lemma e_spectral_accum p q r n :
  0 <= n -> e_room p (n * N) -> e_room q (n * N) -> e_room r N ->
  esafe (spectral_mul_accum p q r N n) (fun _ => True).
Proof using Hst.
  intros Hn Hp Hq Hr. assert (0 <= N) by (destruct Hst; lia). unfold spectral_mul_accum. e_safe; [lia|].
  pose proof (row_range k n N ltac:(lia) ltac:(lia)).
  apply e_spectral_block; [..|done]; unfold e_room, padd in *; cbn [fst snd]; lia.
Qed.

Lemma e_weighted w p X Y prod :
  e_room w (fs + 1) -> e_room X N -> e_room Y N -> e_room prod N ->
  esafe (weighted_spectral_mul_conj w p X Y prod N) (fun _ => True).
Proof using Hst.
  intros Hw HX HY Hp. pose proof Hst as [Hf HN _ _ _]. unfold weighted_spectral_mul_conj.
  rewrite HN in HX, HY, Hp |- *. rewrite pairs_even by done. e_safe; lia.
Qed.

Lemma e_adjust_prop :
  esafe (mdf_adjust_prop (b_W, 0) N M (C * K) (b_prop, 0)) (fun _ => True).
Proof using Hst.
  pose proof Hst as [Hf HN HM HC HK]. assert (0 <= C * K) by nia.
  assert (HW : e_room (b_W, 0) (C * K * M * N)) by (unfold e_room; cbn; lia).
  assert (HP : e_room (b_prop, 0) M) by (unfold e_room; cbn; lia).
  unfold mdf_adjust_prop, sqr. set (n := N) in *.
  apply (safe_bind _ _ _ _ (fun _ => True)); [|intros max_sum _; cbv beta].
  - apply safe_fold_sig; [done|]. intros i y Hi _.
    apply (safe_bind _ _ _ _ (fun _ => True)); [|intros tmp _; e_safe; lia].
    apply safe_fold_sig; [done|]. intros q z Hq _. apply safe_fold_sig; [done|]. intros j u Hj _.
    pose proof (row_range i M n ltac:(lia) ltac:(lia)).
    pose proof (row_range q (C * K) (n * M) ltac:(lia) ltac:(nia)). e_safe; lia.
  - apply (safe_bind _ _ _ _ (fun _ => True)); [|intros prop_sum _; e_safe; lia].
    apply safe_fold_sig; [done|]. intros i y Hi _. e_safe; lia.
Qed.

(** ** Stages *)

Lemma e_products : 0 <= M * K /\ 0 <= K * N /\ 0 <= M * K * N.
Proof using Hst. pose proof Hst as [Hf HN HM _ HK]. assert (0 <= M * K) by nia. assert (0 <= N) by lia. nia. Qed.

(** The rooms of channel [chan], of loudspeaker [speak] and of block [j] of the filter. *)
Lemma e_room_chan chan b :
  0 <= chan < C -> echo_size fs M C K b = C * N -> e_room (b, chan * N) N /\ e_room (b, chan * N + fs) fs.
Proof using Hst.
  intros Hc Hb. pose proof Hst as [Hf HN _ _ _]. unfold e_room. cbn [fst snd]. rewrite Hb, HN.
  pose proof (row_range chan C (2 * fs) Hc). lia.
Qed.

Lemma e_chan_N : echo_size fs M C K b_e = C * N /\ echo_size fs M C K b_y = C * N
  /\ echo_size fs M C K b_Y = C * N /\ echo_size fs M C K b_E = C * N.
Proof using Hst. pose proof Hst as [_ HN _ _ _]. cbn. rewrite HN. lia. Qed.

Lemma e_room_weights chan b :
  0 <= chan < C -> b = b_W \/ b = b_foreground -> e_room (b, chan * N * K * M) (M * K * N).
Proof using Hst.
  intros Hc Hb. destruct e_products as (_ & _ & HP). pose proof Hst as [Hf HN HM _ HK].
  unfold e_room. cbn [fst snd]. pose proof (row_range chan C (M * K * N) Hc HP). rewrite HN in *.
  destruct Hb as [-> | ->]; cbn [echo_size]; lia.
Qed.

Lemma e_room_block chan j speak :
  0 <= chan < C -> 0 <= j < M -> 0 <= speak < K -> e_room (b_W, w_index st chan j speak) N.
Proof using Hst.
  intros Hc Hj Hs. destruct e_products as (_ & HKN & HP). pose proof Hst as [Hf HN _ _ _].
  unfold e_room, w_index. cbn [fst snd echo_size].
  pose proof (row_range speak K N Hs ltac:(lia)). pose proof (row_range j M (K * N) Hj HKN).
  pose proof (row_range chan C (M * K * N) Hc HP). rewrite HN in *. lia.
Qed.

Lemma e_room_history j speak :
  0 <= j <= M -> 0 <= speak < K -> e_room (b_X, x_index st j speak) N.
Proof using Hst.
  intros Hj Hs. destruct e_products as (_ & HKN & _). pose proof Hst as [Hf HN _ _ _].
  unfold e_room, x_index. cbn [fst snd echo_size].
  pose proof (row_range speak K N Hs ltac:(lia)). pose proof (row_range j (M + 1) (K * N) ltac:(lia) HKN). rewrite HN in *. lia.
Qed.

Lemma e_fft_to p q : e_room p N -> e_room q N -> esafe (fft_to st p q) (fun _ => True).
Proof using Hst.
  intros Hp Hq. pose proof Hst as [Hf HN _ _ _]. unfold fft_to. e_safe; [done|lia|].
  apply e_write. by rewrite zlen_fft, Hl.
Qed.

Lemma e_ifft_to p q : e_room p N -> e_room q N -> esafe (ifft_to st p q) (fun _ => True).
Proof using Hst.
  intros Hp Hq. pose proof Hst as [Hf HN _ _ _]. unfold ifft_to. e_safe; [done|lia|].
  apply e_write. by rewrite zlen_ifft, Hl.
Qed.

Lemma e_notch in_ chan :
  0 <= chan < C -> zlen in_ = C * fs ->
  esafe (filter_dc_notch16 in_ chan C (notch_radius st) (b_input, chan * fs) fs (b_notch_mem, 2 * chan))
    (fun _ => True).
Proof using Hst.
  intros Hc Hin. pose proof Hst as [Hf HN _ HC _]. pose proof (row_range chan C fs Hc ltac:(lia)).
  assert (e_room (b_input, chan * fs) fs) by (unfold e_room; cbn; lia).
  assert (e_room (b_notch_mem, 2 * chan) 2) by (unfold e_room; cbn; lia).
  unfold filter_dc_notch16. e_safe; [nia|lia..].
Qed.

Lemma e_load_input in_ : zlen in_ = C * fs -> esafe (load_input st in_) (fun _ => True).
Proof using Hst.
  intros Hin. unfold load_input. apply safe_for_sig. intros chan Hc.
  apply (safe_bind _ _ _ _ (fun _ => True)); [by apply e_notch|]. intros _ _.
  pose proof Hst as [Hf HN _ HC _]. pose proof (row_range chan C fs Hc ltac:(lia)).
  e_safe; cbn [echo_size]; lia.
Qed.

Lemma e_load_far_end far : K * fs <= zlen far -> esafe (load_far_end st far) (fun _ => True).
Proof using Hst.
  intros Hfar. unfold load_far_end. pose proof Hst as [Hf HN _ _ HK].
  apply safe_for_sig. intros speak Hs. apply safe_for_sig. intros i Hi.
  pose proof (row_range speak K N Hs ltac:(lia)). pose proof (row_range i fs K Hi ltac:(lia)).
  rewrite HN in *. e_safe; cbn [echo_size]; lia.
Qed.

Lemma e_shift_far_end : esafe (shift_far_end st) (fun _ => True).
Proof using Hst.
  unfold shift_far_end. apply safe_for_sig. intros speak Hs.
  assert (HX : forall j, 0 <= j <= M -> e_room (b_X, x_index st j speak) N)
    by (intros; by apply e_room_history).
  pose proof (HX 0) as HX0. unfold x_index at 1 in HX0. rewrite !Z.mul_0_l, Z.add_0_l in HX0.
  pose proof Hst as [Hf HN HM _ HK]. pose proof (row_range speak K N Hs ltac:(lia)).
  apply (safe_bind _ _ _ _ (fun _ => True)); [|intros _ _; apply e_fft_to; [|apply HX0; lia]].
  - apply safe_for_sig. intros k Hk. cbv zeta.
    pose proof (HX (M - 1 - k) ltac:(lia)) as [Ha Hb].
    pose proof (HX (M - 1 - k + 1) ltac:(lia)) as [Hc Hd]. cbn [fst snd] in *. e_safe; lia.
  - unfold e_room. cbn [fst snd echo_size]. rewrite HN in *. lia.
Qed.

Lemma e_far_end_energy x : esafe (far_end_energy st x) (fun _ => True).
Proof using Hst.
  unfold far_end_energy. apply safe_fold_sig; [done|]. intros speak y Hs _.
  pose proof (e_room_history 0 speak) as HX. unfold x_index in HX. rewrite !Z.mul_0_l, Z.add_0_l in HX.
  pose proof Hst as [Hf HN HM _ HK]. pose proof (row_range speak K N Hs ltac:(lia)).
  e_safe.
  - apply e_inner_prod; [lia|..]; unfold e_room; cbn [fst snd echo_size]; rewrite HN in *; lia.
  - apply e_power_accum; [apply HX; lia|]. unfold e_room. cbn. lia.
Qed.

Lemma e_residual_of b chan :
  0 <= chan < C -> echo_size fs M C K b = C * N -> esafe (residual_of st b chan) (fun _ => True).
Proof using Hst.
  intros Hc Hb. pose proof e_chan_N as (He & _). pose proof Hst as [Hf HN _ HC _].
  pose proof (row_range chan C fs Hc ltac:(lia)). pose proof (row_range chan C N Hc ltac:(lia)).
  unfold residual_of. e_safe; rewrite ?Hb, ?He; cbn [echo_size]; lia.
Qed.

Lemma e_run_foreground : esafe (run_foreground st) (fun _ => True).
Proof using Hst.
  unfold run_foreground. apply safe_fold_sig; [done|]. intros chan y Hc _.
  destruct e_chan_N as (He & _ & HY & _).
  destruct (e_room_chan chan b_e Hc He), (e_room_chan chan b_Y Hc HY).
  destruct e_products as (HMK & HKN & _).
  assert (HX : e_room (b_X, 0) (M * K * N)).
  { pose proof Hst as [Hf HN HM _ HK]. unfold e_room. cbn [fst snd echo_size]. rewrite HN. nia. }
  e_safe.
  - apply e_spectral_accum; [done..| |done]. apply e_room_weights; auto.
  - by apply e_ifft_to.
  - by apply e_residual_of.
  - pose proof Hst as [Hf HN _ _ _]. unfold e_room in *. cbn [fst snd] in *.
    apply e_inner_prod; [lia|..]; unfold e_room; cbn [fst snd]; lia.
Qed.

Lemma e_adapt_weights : esafe (adapt_weights st) (fun _ => True).
Proof using Hst.
  unfold adapt_weights. apply safe_for_sig. intros chan Hc. apply safe_for_sig. intros speak Hs.
  apply safe_for_sig. intros k Hk. cbv zeta. set (j := M - 1 - k).
  assert (HX : e_room (b_X, x_index st (j + 1) speak) N) by (apply e_room_history; lia).
  assert (HW : e_room (b_W, w_index st chan j speak) N) by (apply e_room_block; lia).
  destruct e_chan_N as (_ & _ & _ & HE). destruct (e_room_chan chan b_E Hc HE) as [HE' _].
  pose proof Hst as [Hf HN HM _ HK].
  assert (e_room (b_PHI, 0) N) by (unfold e_room; cbn; lia).
  assert (e_room (b_power_1, 0) (fs + 1)) by (unfold e_room; cbn; lia).
  e_safe; [cbn [echo_size]; lia|by apply e_weighted|cbn [echo_size]; lia|lia].
Qed.

Lemma e_constrain count : esafe (constrain_weights st count) (fun _ => True).
Proof using Hst.
  unfold constrain_weights. apply safe_for_sig. intros chan Hc. apply safe_for_sig. intros speak Hs.
  apply safe_for_sig. intros j Hj. destruct (constrained st count j); [|by apply safe_ret].
  assert (HW : e_room (b_W, w_index st chan j speak) N) by (apply e_room_block; lia).
  pose proof Hst as [Hf HN HM _ HK].
  assert (e_room (b_wtmp, 0) N) by (unfold e_room; cbn; lia).
  e_safe; [by apply e_ifft_to|cbn [echo_size]; lia|by apply e_fft_to].
Qed.

Lemma e_clear_spectra : esafe (clear_spectra st) (fun _ => True).
Proof using Hst. pose proof Hst as [Hf _ _ _ _]. unfold clear_spectra. e_safe; cbn [echo_size]; lia. Qed.

(** The energy of the first half of a channel. *)
Lemma e_chan_energy chan b :
  0 <= chan < C -> echo_size fs M C K b = C * N ->
  esafe (mdf_inner_prod (b, chan * N) (b, chan * N) fs) (fun _ => True).
Proof using Hst.
  intros Hc Hb. destruct (e_room_chan chan b Hc Hb) as [Hr _]. pose proof Hst as [Hf HN _ _ _].
  unfold e_room in *. cbn [fst snd] in *. apply e_inner_prod; [lia|..]; unfold e_room; cbn [fst snd]; lia.
Qed.

Lemma e_run_background : esafe (run_background st) (fun _ => True).
Proof using Hst.
  unfold run_background. apply safe_fold_sig; [done|]. intros chan [Dbf See] Hc _.
  destruct e_chan_N as (He & Hy & HY & _).
  destruct (e_room_chan chan b_y Hc Hy) as [Hy' _], (e_room_chan chan b_Y Hc HY) as [HY' _].
  destruct e_products as (HMK & HKN & _).
  assert (HX : e_room (b_X, 0) (M * K * N)).
  { pose proof Hst as [Hf HN HM _ HK]. unfold e_room. cbn [fst snd echo_size]. rewrite HN. nia. }
  pose proof Hst as [Hf HN _ _ _]. pose proof (row_range chan C N Hc ltac:(lia)).
  e_safe.
  - apply e_spectral_accum; [done..| |done]. apply e_room_weights; auto.
  - by apply e_ifft_to.
  - rewrite He. lia.
  - rewrite Hy. lia.
  - rewrite He. lia.
  - by apply e_chan_energy.
  - by apply e_residual_of.
  - by apply e_chan_energy.
Qed.

Lemma e_copy_weights from to :
  (from, to) = (b_W, b_foreground) \/ (from, to) = (b_foreground, b_W) -> esafe (copy_weights st from to) (fun _ => True).
Proof using Hst.
  pose proof Hst as [Hf HN _ _ _]. unfold copy_weights. rewrite HN.
  intros [E | E]; injection E as -> ->; e_safe; cbn [echo_size]; lia.
Qed.

Lemma e_promote : esafe (promote_background st) (fun _ => True).
Proof using Hst.
  unfold promote_background. destruct e_chan_N as (He & Hy & _).
  apply (safe_bind _ _ _ _ (fun _ => True)); [apply e_copy_weights; auto|]. intros _ _.
  pose proof Hst as [Hf HN _ _ _].
  apply safe_for_sig. intros chan Hc. pose proof (row_range chan C N Hc ltac:(lia)).
  e_safe; rewrite ?He, ?Hy; cbn [echo_size]; lia.
Qed.

Lemma e_restore : esafe (restore_background st) (fun _ => True).
Proof using Hst.
  unfold restore_background. destruct e_chan_N as (He & Hy & _).
  apply (safe_bind _ _ _ _ (fun _ => True)); [apply e_copy_weights; auto|]. intros _ _.
  pose proof Hst as [Hf HN _ _ _].
  apply safe_for_sig. intros chan Hc. pose proof (row_range chan C N Hc ltac:(lia)).
  e_safe; [rewrite He; lia|rewrite Hy; lia|]. by apply e_residual_of.
Qed.

(** ** The output *)

Definition out_ok (in_ : list Z) (o : output) : Prop :=
  zlen (o_out o) = C * fs /\ Forall (in_s 16) (o_out o) /\ (o_saturated o = saturated st \/ o_saturated o = 1).

Lemma e_output_sample in_ chan i o :
  0 <= chan < C -> 0 <= i < fs -> zlen in_ = C * fs -> out_ok in_ o ->
  esafe (output_sample st in_ chan i o) (out_ok in_).
Proof using Hst.
  intros Hc Hi Hin (Ho & Hr & Hs). destruct e_chan_N as (He & _). pose proof Hst as [Hf HN _ _ _].
  pose proof (row_range chan C N Hc ltac:(lia)). pose proof (row_range chan C fs Hc ltac:(lia)).
  pose proof (row_range i fs C Hi ltac:(lia)).
  unfold output_sample. e_safe; [rewrite ?He; cbn [echo_size]; lia..|].
  eapply safe_bind.
  { apply safe_opt. rewrite set_index_some by lia. eexists. split; [done|].
    instantiate (1 := fun l => zlen l = C * fs /\ Forall (in_s 16) l). cbv beta.
    rewrite zlen_insert. split; [done|]. apply Forall_insert; [done|apply word2int_range]. }
  intros out [Hl Hr']. e_safe; [cbn [echo_size]; lia|]. apply safe_ret. split; [done|]. split; [done|].
  cbn [o_saturated]. case_match; auto.
Qed.

Lemma e_output_channel in_ chan o :
  0 <= chan < C -> zlen in_ = C * fs -> out_ok in_ o -> esafe (output_channel st in_ chan o) (out_ok in_).
Proof using Hst.
  intros Hc Hin Ho. destruct e_chan_N as (He & Hy & HY & HE). unfold output_channel.
  eapply safe_bind.
  { apply (safe_fold_sig _ _ 0 fs _ o (out_ok in_)); [done|]. intros i o' Hi Ho'. by apply e_output_sample. }
  clear o Ho. intros o Ho. destruct (e_room_chan chan b_e Hc He) as [He1 He2],
    (e_room_chan chan b_y Hc Hy) as [Hy1 Hy2], (e_room_chan chan b_Y Hc HY) as [HY1 _],
    (e_room_chan chan b_E Hc HE) as [HE1 _].
  pose proof Hst as [Hf HN _ _ _].
  pose proof (row_range chan C N Hc ltac:(lia)). pose proof (row_range chan C fs Hc ltac:(lia)).
  assert (e_room (b_input, chan * fs) fs) by (unfold e_room; cbn [fst snd echo_size]; lia).
  assert (e_room (b_Rf, 0) (fs + 1)) by (unfold e_room; cbn; lia).
  assert (e_room (b_Yf, 0) (fs + 1)) by (unfold e_room; cbn; lia).
  e_safe; try first
    [ by apply e_fft_to | by apply e_power_accum | apply e_inner_prod; (done || lia)
    | rewrite ?He, ?Hy; cbn [echo_size]; lia ].
Qed.

Lemma e_compute_output in_ out :
  zlen in_ = C * fs -> zlen out = C * fs -> Forall (in_s 16) out -> esafe (compute_output st in_ out) (out_ok in_).
Proof using Hst.
  intros Hin Hout Hr. apply safe_fold_sig; [split; [done|]; split; [done|by left]|].
  intros chan o Hc Ho. by apply e_output_channel.
Qed.

(** ** The end of the frame *)

Lemma e_smooth_power a b : esafe (smooth_power st a b) (fun _ => True).
Proof using Hst. pose proof Hst as [Hf _ _ _ _]. unfold smooth_power. e_safe; cbn [echo_size]; lia. Qed.

Lemma e_correlations : esafe (correlations st) (fun _ => True).
Proof using Hst.
  pose proof Hst as [Hf _ _ _ _]. unfold correlations. apply safe_fold_sig; [done|].
  intros k [x y] Hk _. e_safe; cbn [echo_size]; lia.
Qed.

Lemma e_learning_rates r : esafe (learning_rates st r) (fun _ => True).
Proof using Hst. pose proof Hst as [Hf _ _ _ _]. unfold learning_rates. e_safe; cbn [echo_size]; lia. Qed.

Lemma e_temporary_rates r : esafe (temporary_rates st r) (fun _ => True).
Proof using Hst. pose proof Hst as [Hf _ _ _ _]. unfold temporary_rates. e_safe; cbn [echo_size]; lia. Qed.

Lemma e_save_last_y in_ out :
  zlen in_ = C * fs -> zlen out = C * fs -> esafe (save_last_y st in_ out) (fun _ => True).
Proof using Hst.
  intros Hin Hout. pose proof Hst as [Hf HN _ HC _]. unfold save_last_y.
  assert (fs <= C * fs) by nia.
  apply (safe_bind _ _ _ _ (fun _ => True)); [e_safe; cbn [echo_size]; lia|]. intros _ _.
  destruct (adapted st =? 0); [by apply safe_ret|]. e_safe; cbn [echo_size]; lia.
Qed.
End stages.

(** ** The whole frame *)

Record same_setup (st st' : SpeexEchoState) : Prop := {
  ss_fs : frame_size st' = frame_size st;
  ss_window : window_size st' = window_size st;
  ss_M : ec_M st' = ec_M st;
  ss_C : ec_C st' = ec_C st;
  ss_K : ec_K st' = ec_K st;
  ss_buf : play_buf st' = play_buf st;
  ss_pos : play_buf_pos st' = play_buf_pos st;
  ss_started : play_buf_started st' = play_buf_started st }.

Lemma same_setup_trans a b c : same_setup a b -> same_setup b c -> same_setup a c.
Proof. intros [] []. split; congruence. Qed.

Lemma same_setup_shape a b : same_setup a b -> echo_shape a -> echo_shape b.
Proof. intros [] []. split; congruence. Qed.

(** A state between two calls. *)
Record echo_ok (st : SpeexEchoState) : Prop := {
  eo_shape : echo_shape st;
  eo_mem : echo_mem_ok st (ec_mem st);
  eo_buf : zlen (play_buf st) = ec_K st * 3 * frame_size st;
  eo_screwed : 0 <= screwed_up st < 50;
  eo_saturated : 0 <= saturated st }.

Section frame.
Context `{SpeexLibm, Drft}.

Lemma e_choose st Sff See Dbf :
  echo_shape st ->
  safe (echo_sz (frame_size st) (ec_M st) (ec_C st) (ec_K st)) 25 (choose_filter st Sff See Dbf)
    (fun '(st', _) => same_setup st st' /\ saturated st' = saturated st /\ screwed_up st' = screwed_up st).
Proof.
  intros Hst. unfold choose_filter. destruct update_foreground; [|destruct reset_background].
  - eapply safe_bind; [by apply e_promote|]. intros _ _. apply safe_ret. by repeat split.
  - eapply safe_bind; [by apply e_restore|]. intros _ _. apply safe_ret. by repeat split.
  - apply safe_ret. by repeat split.
Qed.

(** What [cancel_frame] gives. *)
Definition frame_post (st : SpeexEchoState)
    (r : SpeexEchoState * spec_float * spec_float * spec_float * output) : Prop :=
  let '(st', _, _, _, o) := r in
  same_setup st st' /\ 0 <= saturated st' /\ screwed_up st' = screwed_up st
  /\ zlen (o_out o) = ec_C st * frame_size st /\ Forall (in_s 16) (o_out o).

(** The gradient step is left out in a saturated frame. *)
Lemma e_adapt_or_wait st :
  echo_shape st -> 0 <= saturated st ->
  safe (echo_sz (frame_size st) (ec_M st) (ec_C st) (ec_K st)) 25
    (if saturated st =? 0 then (adapt_weights st;; sig_ret st)%sig
     else sig_ret (st {{ saturated := (saturated st - 1)%Z }}))
    (fun st' => same_setup st st' /\ 0 <= saturated st' /\ screwed_up st' = screwed_up st).
Proof.
  intros Hst H0'. destruct (Z.eqb_spec (saturated st) 0).
  - eapply safe_bind; [by apply e_adapt_weights|]. intros _ _. apply safe_ret. by repeat split.
  - apply safe_ret. split; [by split|]. cbn. unfold constant. split; [lia|done].
Qed.

Lemma e_cancel_frame st in_ far out :
  echo_shape st -> 0 <= saturated st ->
  zlen in_ = ec_C st * frame_size st -> ec_K st * frame_size st <= zlen far ->
  zlen out = ec_C st * frame_size st -> Forall (in_s 16) out ->
  safe (echo_sz (frame_size st) (ec_M st) (ec_C st) (ec_K st)) 25 (cancel_frame st in_ far out) (frame_post st).
Proof.
  intros Hst Hsat Hin Hfar Hout Hr. unfold cancel_frame. cbv zeta.
  set (st1 := st {{ cancel_count := _ }}).
  assert (S1 : same_setup st st1) by by split. assert (Hst1 := same_setup_shape _ _ S1 Hst).
  assert (Hsat1 : 0 <= saturated st1) by done. assert (Hscr : screwed_up st1 = screwed_up st) by done.
  clearbody st1. pose proof S1 as [Ef _ EM EC EK _ _ _]. rewrite <- Ef, <- EM, <- EC, <- EK in *.
  eapply safe_bind; [by apply e_load_input|intros _ _].
  eapply safe_bind; [by apply e_load_far_end|intros _ _].
  eapply safe_bind; [by apply e_shift_far_end|intros _ _].
  eapply safe_bind; [by apply e_far_end_energy|intros Sxx _].
  eapply safe_bind; [by apply e_run_foreground|intros Sff _].
  apply (safe_bind _ _ _ _ (fun _ => True)); [case_match; [by apply safe_ret|by apply e_adjust_prop]|intros _ _].
  eapply safe_bind; [by apply e_adapt_or_wait|]. intros st2 (S2 & Hsat2 & Hscr2).
  assert (Hst2 := same_setup_shape _ _ S2 Hst1). pose proof S2 as [Ef2 _ EM2 EC2 EK2 _ _ _].
  rewrite <- Ef2, <- EM2, <- EC2, <- EK2 in *.
  eapply safe_bind; [by apply e_constrain|intros _ _].
  eapply safe_bind; [by apply e_clear_spectra|intros _ _].
  eapply safe_bind; [by apply e_run_background|intros [Dbf See] _].
  eapply safe_bind; [apply (e_choose (filter_averages st2 Sff See Dbf)); destruct Hst2; by split|].
  intros [st3 See3] (S3 & Hsat3 & Hscr3).
  assert (S23 : same_setup st2 st3) by (destruct S3; by split).
  assert (Hst3 := same_setup_shape _ _ S23 Hst2). pose proof S23 as [Ef3 _ EM3 EC3 EK3 _ _ _].
  rewrite <- Ef3, <- EM3, <- EC3, <- EK3 in *.
  eapply safe_bind; [by apply e_compute_output|]. intros o (Ho & Hro & Hso).
  apply safe_ret. unfold frame_post.
  pose proof (same_setup_trans _ _ _ S1 (same_setup_trans _ _ _ S2 S23)) as S.
  change (screwed_up (filter_averages st2 Sff See Dbf)) with (screwed_up st2) in Hscr3.
  rewrite <- EC, <- Ef. split; [destruct S; by split|]. split; [|split; [|done]];
    [change (0 <= o_saturated o)|change (screwed_up st3 = screwed_up st); congruence].
  change (saturated (filter_averages st2 Sff See Dbf)) with (saturated st2) in Hsat3.
  destruct Hso; lia.
Qed.

(** The sample loops over caller's lists. *)
Lemma set_loop_ok n (f : Z -> list Z -> option Z) (off : Z) l :
  0 <= n -> 0 <= off -> off + n <= zlen l ->
  (forall i l', 0 <= i < n -> zlen l' = zlen l -> exists v, f i l' = Some v /\ in_s 16 v) ->
  Forall (in_s 16) l ->
  exists l', for_opt (Z.to_nat n) 0 (fun i l => v ← f i l; set_index l (off + i) v) l = Some l'
    /\ zlen l' = zlen l /\ Forall (in_s 16) l'.
Proof.
  intros Hn Hoff Hl Hf Hr.
  destruct (for_opt_inv (fun _ l' => zlen l' = zlen l /\ Forall (in_s 16) l') n
    (fun i l => v ← f i l; set_index l (off + i) v) l Hn) as (l' & E & HP); eauto.
  intros k m Hk [Hm Hrm]. destruct (Hf k m Hk Hm) as (v & -> & Hv). cbn.
  rewrite set_index_some by lia. eexists. split; [done|]. rewrite zlen_insert.
  split; [done|]. by apply Forall_insert.
Qed.

Lemma e_clear_out st out :
  echo_shape st -> zlen out = ec_C st * frame_size st -> Forall (in_s 16) out ->
  exists out', clear_out st out = Some out' /\ zlen out' = zlen out /\ Forall (in_s 16) out'.
Proof.
  intros [Hf _ _ HC _] Hl Hr. destruct (set_loop_ok (frame_size st * ec_C st) (fun _ _ => Some 0) 0 out)
    as (l' & E & Hl' & Hr'); [nia|lia|lia| |done|].
  - intros. exists 0. split; [done|vm_compute; split; congruence].
  - exists l'. done.
Qed.

(** ** Reset *)

(** [for (i = 0; i < n; i++) l[i] = x;] *)
Lemma set_all_eq {A} (x : A) n l :
  0 <= n <= zlen l ->
  for_opt (Z.to_nat n) 0 (fun i l => set_index l i x) l = Some (zrep n x ++ drop (Z.to_nat n) l).
Proof.
  intros Hn. destruct (for_opt_inv (fun k l' => l' = zrep k x ++ drop (Z.to_nat k) l) n
    (fun i l => set_index l i x) l) as (l' & E & ->); [lia|done| |done].
  intros k l' Hk ->. assert (Hz : zlen (zrep k x) = k) by (apply zlen_zrep; lia).
  rewrite set_index_some by (rewrite zlen_app, zlen_drop, Hz; lia).
  eexists. split; [done|]. unfold zlen, zrep in *.
  rewrite insert_app_r_alt by (rewrite length_replicate; lia).
  rewrite length_replicate, Nat.sub_diag.
  destruct (drop (Z.to_nat k) l) as [|y r] eqn:Ed.
  { apply (f_equal length) in Ed. rewrite length_drop in Ed. simpl in Ed. lia. }
  cbn [list_insert insert]. rewrite (Z2Nat.inj_add k 1) by lia. rewrite replicate_add, <- app_assoc.
  f_equal. cbn. f_equal. rewrite <- drop_drop, Ed. done.
Qed.

Lemma e_reset st mem :
  echo_shape st -> echo_mem_ok st mem ->
  exists mem', reset_arrays st mem = Some (tt, mem') /\ echo_mem_ok st mem'.
Proof.
  intros Hst Hm. pose proof Hst as [Hf HN HM HC HK].
  assert (Hs : safe (echo_sz (frame_size st) (ec_M st) (ec_C st) (ec_K st)) 25 (reset_arrays st) (fun _ => True)).
  { assert (fill_ok : forall b n x, n <= echo_size (frame_size st) (ec_M st) (ec_C st) (ec_K st) b ->
      safe (echo_sz (frame_size st) (ec_M st) (ec_C st) (ec_K st)) 25 (fill b n x) (fun _ => True)).
    { intros b n x Hn. apply safe_for_sig. intros k Hk. apply e_st. lia. }
    unfold reset_arrays. cbv zeta. rewrite HN.
    assert (1 <= ec_K st * ec_C st) by nia. assert (0 <= frame_size st * ec_M st) by nia.
    repeat (eapply safe_bind; [|intros _ _]);
      try (apply fill_ok; cbn [echo_size]; nia);
      apply safe_for_sig; intros k Hk;
      repeat (eapply safe_bind; [|intros _ _]); apply e_st; cbn [echo_size]; lia. }
  destruct (Hs mem Hm) as ([] & mem' & E & Hm' & _). eauto.
Qed.

(** The state [speex_echo_state_reset] leaves. *)
Definition reset_state (st : SpeexEchoState) (mem : list (list spec_float)) : SpeexEchoState :=
  let n := 3 * frame_size st in
  st {{ cancel_count := 0; screwed_up := 0; ec_mem := mem; saturated := 0; adapted := 0;
        sum_adapt := f32_zero; Pey := f32_one; Pyy := f32_one; Davg1 := f32_zero;
        Davg2 := f32_zero; Dvar1 := f32_zero; Dvar2 := f32_zero;
        play_buf := zrep n 0 ++ drop (Z.to_nat n) (play_buf st);
        play_buf_pos := PLAYBACK_DELAY * frame_size st; play_buf_started := 0 }}.

Lemma reset_eq st :
  echo_shape st -> echo_mem_ok st (ec_mem st) -> zlen (play_buf st) = ec_K st * 3 * frame_size st ->
  exists mem, reset_arrays st (ec_mem st) = Some (tt, mem) /\ speex_echo_state_reset st = Some (reset_state st mem)
    /\ echo_ok (reset_state st mem).
Proof.
  intros Hst Hm Hb. pose proof Hst as [Hf HN HM HC HK].
  destruct (e_reset st (ec_mem st) Hst Hm) as (mem & E & Hm').
  assert (Hn : 0 <= 3 * frame_size st <= zlen (play_buf st)) by nia.
  exists mem. split; [done|]. split.
  - unfold speex_echo_state_reset, clear_play. rewrite E. cbn [mbind option_bind].
    by rewrite set_all_eq.
  - split; [by split|exact Hm'| |change (0 <= 0 < 50); lia|change (0 <= 0); lia].
    change (zlen (zrep (3 * frame_size st) 0 ++ drop (Z.to_nat (3 * frame_size st)) (play_buf st))
            = ec_K st * 3 * frame_size st).
    rewrite zlen_app, zlen_zrep, zlen_drop by lia. lia.
Qed.

(** ** Safety of [speex_echo_cancellation] *)

Lemma e_finish st in_ out ss ss_1 Sxx See o :
  echo_shape st -> zlen in_ = ec_C st * frame_size st -> zlen out = ec_C st * frame_size st ->
  safe (echo_sz (frame_size st) (ec_M st) (ec_C st) (ec_K st)) 25 (finish_frame st in_ out ss ss_1 Sxx See o)
    (fun st' => same_setup st st' /\ saturated st' = saturated st /\ screwed_up st' = screwed_up st).
Proof.
  intros Hst Hin Hout. unfold finish_frame. cbv zeta.
  eapply safe_bind; [by apply e_far_end_energy|intros Sxx' _].
  eapply safe_bind; [by apply e_smooth_power|intros _ _].
  eapply safe_bind; [by apply e_correlations|intros [pey pyy] _].
  set (st1 := update_leak _ _ _ _ _).
  set (st2 := if has_adapted st1 (o_Syy o) then _ else _).
  assert (S2 : same_setup st st2 /\ saturated st2 = saturated st /\ screwed_up st2 = screwed_up st)
    by (subst st2; case_match; by repeat split).
  clearbody st1 st2. destruct S2 as (S2 & Hsat & Hscr).
  assert (Hst2 := same_setup_shape _ _ S2 Hst). pose proof S2 as [Ef _ EM EC EK _ _ _].
  rewrite <- Ef, <- EM, <- EC, <- EK in *.
  eapply (safe_bind _ _ _ _ (fun st3 => same_setup st2 st3 /\ saturated st3 = saturated st2 /\ screwed_up st3 = screwed_up st2)).
  - destruct (adapted st2 =? 0).
    + eapply safe_bind; [by apply e_temporary_rates|intros _ _]. apply safe_ret. by repeat split.
    + eapply safe_bind; [by apply e_learning_rates|intros _ _]. apply safe_ret. by repeat split.
  - intros st3 (S3 & Hsat3 & Hscr3). assert (Hst3 := same_setup_shape _ _ S3 Hst2).
    pose proof S3 as [Ef3 _ EM3 EC3 EK3 _ _ _]. rewrite <- Ef3, <- EM3, <- EC3, <- EK3 in *.
    eapply safe_bind; [by apply e_save_last_y|intros _ _]. apply safe_ret.
    split; [by eapply same_setup_trans|]. split; congruence.
Qed.
End frame.
