(* ===== verification/EchoRuns.v ===== *)
(** * SpeexDSP: what the echo canceller guarantees from call to call

    [speex_echo_cancellation] is defined in every consistent state and for every input; a
    frame with impossible energies is silenced and resets the canceller; what a reset
    restores; the schedule of the constraints; playing and capturing through the state's
    buffer, which is a queue of frames. *)
From Stdlib Require Import ZArith Lia Bool SpecFloat.
From stdpp Require Import base numbers list option.
From coqutil Require Import Datatypes.RecordSetters.
From S2P Require Import Prelude CFloat Loops FloatBlocks SpeexArith EchoState EchoCancel EchoProps.
Import DoubleBraceUpdate.

Local Open Scope Z_scope.

(** The sizes and the play buffer of two states agree. *)
Definition same_dims (st st' : SpeexEchoState) : Prop :=
  frame_size st' = frame_size st /\ ec_C st' = ec_C st /\ ec_K st' = ec_K st /\ ec_M st' = ec_M st.

(** What a caller gives: [C] and [K] interleaved signals of one frame. *)
Definition echo_input (st : SpeexEchoState) (in_ far out : list Z) : Prop :=
  zlen in_ = ec_C st * frame_size st /\ ec_K st * frame_size st <= zlen far
  /\ zlen out = ec_C st * frame_size st /\ Forall (in_s 16) out.

Section runs.
Context `{SpeexLibm, Drft}.

Lemma check_energies_range st Sxx Sff See Syy Sdd :
  0 <= screwed_up st -> 0 <= (check_energies st Sxx Sff See Syy Sdd).1.
Proof. unfold check_energies. repeat case_match; cbn; lia. Qed.

Lemma same_setup_ok st st' mem :
  echo_ok st -> same_setup st st' -> echo_mem_ok st mem -> 0 <= saturated st' -> 0 <= screwed_up st' < 50 ->
  echo_ok (st' {{ ec_mem := mem }}).
Proof.
  intros [Hst _ Hb _ _] S Hm Hsat Hscr. pose proof (same_setup_shape _ _ S Hst) as [].
  destruct S as [Ef _ EM EC EK Eb _ _]. split; [by split| | |done..].
  - unfold echo_mem_ok in *. cbn. unfold constant. cbn in *. rewrite <- Ef, <- EM, <- EC, <- EK in Hm. exact Hm.
  - change (zlen (play_buf st') = ec_K st' * 3 * frame_size st'). congruence.
Qed.

(** The play buffer is left alone, or it is that of a reset. *)
Definition play_kept (st st' : SpeexEchoState) : Prop :=
  play_buf st' = play_buf st /\ play_buf_pos st' = play_buf_pos st /\ play_buf_started st' = play_buf_started st.
Definition play_reset (st st' : SpeexEchoState) : Prop :=
  let n := 3 * frame_size st in
  play_buf st' = zrep n 0 ++ drop (Z.to_nat n) (play_buf st)
  /\ play_buf_pos st' = PLAYBACK_DELAY * frame_size st /\ play_buf_started st' = 0.

(** The two ends of a call. *)
Lemma reset_end st st1 mem screwed (out : list Z) :
  echo_ok st -> same_setup st st1 -> echo_mem_ok st mem ->
  let st2 := st1 {{ screwed_up := screwed; ec_mem := mem }} in
  exists mem', reset_arrays st2 mem = Some (tt, mem') /\ speex_echo_state_reset st2 = Some (reset_state st2 mem')
    /\ echo_ok (reset_state st2 mem') /\ same_dims st (reset_state st2 mem') /\ play_reset st (reset_state st2 mem').
Proof.
  intros [Hst Hm Hb _ _] S Hmem st2.
  assert (S2 : same_setup st st2) by (destruct S; by split).
  assert (Hst2 := same_setup_shape _ _ S2 Hst).
  assert (Hm2 : echo_mem_ok st2 (ec_mem st2)).
  { unfold echo_mem_ok. pose proof S2 as [-> _ -> -> -> _ _ _]. exact Hmem. }
  pose proof S2 as [Ef _ EM EC EK Eb _ _].
  destruct (reset_eq st2 Hst2 Hm2) as (mem' & Er & E & Hok); [by rewrite Ef, EK, Eb|].
  exists mem'. split; [exact Er|]. split; [exact E|]. split; [done|].
  split; [by split_and!|]. unfold play_reset. rewrite <- Eb, <- Ef. done.
Qed.

Lemma cancellation_spec st in_ far out :
  echo_ok st -> echo_input st in_ far out ->
  exists st1 Sxx Sff See o mem st' out',
    cancel_frame st in_ far out (ec_mem st) = Some (st1, Sxx, Sff, See, o, mem)
    /\ frame_post st (st1, Sxx, Sff, See, o) /\ echo_mem_ok st mem
    /\ speex_echo_cancellation st in_ far out = Some (st', out')
    /\ echo_ok st' /\ same_dims st st' /\ zlen out' = zlen out /\ Forall (in_s 16) out'
    /\ (play_kept st st' \/ play_reset st st')
    /\ (energies_sane st1 Sxx Sff See (o_Syy o) = false ->
         out' = zrep (zlen out) 0
         /\ exists mem', st' = reset_state (st1 {{ screwed_up := screwed_up st + 50; ec_mem := mem }}) mem'
              /\ reset_arrays st1 mem = Some (tt, mem')).
Proof.
  intros Hok (Hin & Hfar & Hout & Hr). pose proof Hok as [Hst Hm Hb Hscr Hsat].
  destruct (e_cancel_frame st in_ far out Hst Hsat Hin Hfar Hout Hr (ec_mem st) Hm)
    as ([[[[st1 Sxx] Sff] See] o] & mem & E & Hm1 & Hpost).
  exists st1, Sxx, Sff, See, o, mem. pose proof Hpost as (S1 & Hsat1 & Hscr1 & Ho & Hro).
  unfold speex_echo_cancellation. rewrite E. cbn [mbind option_bind].
  pose proof (check_energies_range st1 Sxx Sff See (o_Syy o) (o_Sdd o)) as Hck.
  destruct (check_energies st1 Sxx Sff See (o_Syy o) (o_Sdd o)) as [screwed clear] eqn:Ec.
  cbn [fst] in Hck. assert (Hst1 := same_setup_shape _ _ S1 Hst). pose proof S1 as [Ef _ EM EC EK _ _ _].
  assert (Hclear : exists out', (if clear then clear_out st1 (o_out o) else Some (o_out o)) = Some out'
    /\ zlen out' = zlen out /\ Forall (in_s 16) out' /\ (clear = true -> out' = zrep (zlen out) 0)).
  { destruct clear; [|exists (o_out o); rewrite Ho, Hout; done].
    exists (zrep (zlen out) 0). unfold clear_out.
    assert (Hz : 0 <= zlen (o_out o) <= zlen (o_out o)) by (pose proof (zlen_nonneg (o_out o)); lia).
    assert (En : frame_size st1 * ec_C st1 = zlen (o_out o)) by (rewrite Ho, Ef, EC; lia).
    rewrite En, set_all_eq by done. rewrite drop_ge by (unfold zlen; lia). rewrite app_nil_r.
    rewrite Ho, <- Hout. split; [done|]. split; [apply zlen_zrep, zlen_nonneg|]. split; [|done].
    apply Forall_replicate. vm_compute. split; congruence. }
  destruct Hclear as (out' & -> & Hl' & Hr' & Hz'). cbn [mbind option_bind].
  assert (Hbad : energies_sane st1 Sxx Sff See (o_Syy o) = false -> clear = true /\ screwed = screwed_up st + 50).
  { intros Hs. unfold check_energies in Ec. rewrite Hs in Ec. cbn in Ec. split; congruence. }
  destruct (screwed >=? 50) eqn:E50.
  - destruct (reset_end st st1 mem screwed out Hok S1 Hm1) as (mem' & Er & -> & Hok' & Hd & Hp).
    eexists _, out'. cbn [mbind option_bind]. do 4 (split; [done|]). split; [done|]. split; [done|].
    do 2 (split; [done|]). split; [by right|]. intros Hs. destruct (Hbad Hs) as [Hc ->].
    split; [by apply Hz'|]. exists mem'. split; [done|]. exact Er.
  - set (st2 := st1 {{ screwed_up := screwed; ec_mem := mem }}).
    assert (S2 : same_setup st st2) by (destruct S1; by split). assert (Hst2 := same_setup_shape _ _ S2 Hst).
    destruct (e_finish st2 in_ out' (flt (f64_lit 35 100 /d f64_of_Z (ec_M st))%cfloat)
      (f32_of_Z 1 -f flt (f64_lit 35 100 /d f64_of_Z (ec_M st)))%cfloat Sxx See o Hst2)
      with (m := mem) as (st3 & mem3 & E3 & Hm3 & S3 & Hsat3 & Hscr3).
    { pose proof S2 as [-> _ _ -> _ _ _ _]. done. }
    { pose proof S2 as [-> _ _ -> _ _ _ _]. by rewrite Hl'. }
    { pose proof S2 as [-> _ -> -> -> _ _ _]. exact Hm1. }
    rewrite E3. cbn [mbind option_bind]. exists (st3 {{ ec_mem := mem3 }}), out'.
    assert (S : same_setup st st3) by by eapply same_setup_trans.
    assert (Hm3' : echo_mem_ok st mem3).
    { unfold echo_mem_ok. pose proof S2 as [Ef2 _ EM2 EC2 EK2 _ _ _]. by rewrite <- Ef2, <- EM2, <- EC2, <- EK2. }
    rewrite Z.geb_leb in E50. apply Z.leb_gt in E50.
    change (screwed_up st2) with screwed in Hscr3. change (saturated st2) with (saturated st1) in Hsat3.
    do 4 (split; [done|]). split.
    { apply (same_setup_ok st st3 mem3); (done || lia). }
    destruct S. split; [by split_and!|]. split; [done|]. split; [done|]. split; [left; by split_and!|].
    intros Hs. destruct (Hbad Hs) as [_ ->]. lia.
Qed.

(** C6. [speex_echo_cancellation] is memory-safe and total: in every state as
    [speex_echo_state_init_mc] makes it and previous calls leave it, for every number of
    microphones and loudspeakers and whatever samples it gets (and whatever infinities and
    NaNs have got into the filters), it accesses its arrays in range, returns one frame of
    16-bit samples, and leaves such a state again; the count of bad frames stays below the
    50 that cause a reset. *)
Theorem echo_cancellation_safe st in_ far out :
  echo_ok st -> echo_input st in_ far out ->
  exists st' out', speex_echo_cancellation st in_ far out = Some (st', out')
    /\ echo_ok st' /\ same_dims st st' /\ zlen out' = zlen out /\ Forall (in_s 16) out'.
Proof.
  intros Hok Hi. destruct (cancellation_spec st in_ far out Hok Hi)
    as (st1 & Sxx & Sff & See & o & mem & st' & out' & _ & _ & _ & E & H1 & H2 & H3 & H4 & _). eauto 10.
Qed.

End runs.
