(* ===== verification/EchoReset.v ===== *)
(** * SpeexDSP: the arrays of the echo canceller after a reset

    Memories by the contents of their arrays, and the contents of every array after
    [speex_echo_state_reset]. *)
From Stdlib Require Import ZArith Lia Bool SpecFloat.
From stdpp Require Import base numbers list option.
From coqutil Require Import Datatypes.RecordSetters.
From S2P Require Import Prelude CFloat Loops FloatBlocks SpeexArith EchoState EchoCancel EchoProps.
Import DoubleBraceUpdate.

Local Open Scope Z_scope.

#[export] Instance echo_block_eq_dec : EqDecision echo_block.
Proof. solve_decision. Defined.

Lemma block_index_inj (a b : echo_block) : block_index a = block_index b -> a = b.
Proof. by destruct a, b. Qed.

Lemma echo_blocks_index (b : echo_block) : echo_blocks !! block_index b = Some b.
Proof. by destruct b. Qed.

(** ** Memories by the contents of their arrays *)

Section contents.
Implicit Types (old : echo_block -> list spec_float) (b : echo_block).

Definition mem_is (m : list (list spec_float)) old : Prop :=
  length m = 25%nat /\ forall b, m !! block_index b = Some (old b).

Definition upd old b (l : list spec_float) : echo_block -> list spec_float :=
  fun b' => if decide (b' = b) then l else old b'.

Lemma mem_is_ext m old old' : (forall b, old b = old' b) -> mem_is m old -> mem_is m old'.
Proof. intros E [Hl Hm]. split; [done|]. intros b. by rewrite Hm, E. Qed.

Lemma mem_is_set m old b l : mem_is m old -> mem_is (<[block_index b := l]> m) (upd old b l).
Proof.
  intros [Hl Hm]. split; [by rewrite length_insert|]. intros b'. unfold upd. case_decide as E.
  - subst. apply list_lookup_insert_eq. rewrite Hl. apply echo_names.
  - rewrite list_lookup_insert_ne; [apply Hm|]. by intros E'%block_index_inj.
Qed.

Lemma st_f_is m old b i x :
  mem_is m old -> 0 <= i < zlen (old b) ->
  exists m', st_f b i x m = Some (tt, m') /\ mem_is m' (upd old b (<[Z.to_nat i := x]> (old b))).
Proof.
  intros Hm Hi. pose proof Hm as [_ Hb]. eexists. unfold st_f, sig_bind, get_block, sig_opt.
  rewrite Hb, set_index_some by done. split; [done|]. by apply mem_is_set.
Qed.

Lemma ld_f_is m old b i :
  mem_is m old -> 0 <= i < zlen (old b) ->
  exists x, ld_f b i m = Some (x, m) /\ at_index (old b) i = Some x.
Proof.
  intros [_ Hb] Hi. destruct (at_index_some (old b) i Hi) as [x E]. exists x.
  unfold ld_f, sig_bind, get_block, sig_opt. by rewrite Hb, E.
Qed.

(** The rule for loops over memories. *)
Lemma for_sig_run (P : Z -> list (list spec_float) -> Prop) n body m :
  0 <= n -> P 0 m ->
  (forall k m, 0 <= k < n -> P k m -> exists m', body k m = Some (tt, m') /\ P (k + 1) m') ->
  exists m', for_sig 0 n body m = Some (tt, m') /\ P n m'.
Proof.
  intros Hn H0 HS. unfold for_sig. rewrite Z.sub_0_r.
  assert (G : forall k i m, i + Z.of_nat k = n -> 0 <= i -> P i m ->
    exists m', sig_for k i body m = Some (tt, m') /\ P n m').
  { induction k as [|k IH]; intros i m1 Hk Hi Hm1; cbn [sig_for].
    - exists m1. split; [done|]. by replace n with i by lia.
    - destruct (HS i m1) as (m2 & E & Hm2); [lia|done|]. unfold sig_bind. rewrite E.
      apply IH; [lia|lia|done]. }
  apply G; [lia|lia|done].
Qed.

(** The first [k] elements are [x]. *)
Definition filled (x : spec_float) (l : list spec_float) (k : Z) : list spec_float :=
  zrep k x ++ drop (Z.to_nat k) l.

Lemma filled_next x l k :
  0 <= k < zlen l -> <[Z.to_nat k := x]> (filled x l k) = filled x l (k + 1).
Proof.
  intros Hk. unfold filled, zrep. rewrite insert_app_r_alt by (rewrite length_replicate; lia).
  rewrite length_replicate, Nat.sub_diag, (Z2Nat.inj_add k 1), replicate_add, <- app_assoc by lia.
  f_equal. destruct (drop (Z.to_nat k) l) as [|y r] eqn:E.
  { apply (f_equal length) in E. rewrite length_drop in E. unfold zlen in Hk. simpl in E. lia. }
  cbn. f_equal. by rewrite <- drop_drop, E.
Qed.

Lemma zlen_filled x l k : 0 <= k <= zlen l -> zlen (filled x l k) = zlen l.
Proof. intros. unfold filled. rewrite zlen_app, zlen_zrep, zlen_drop by lia. lia. Qed.

Lemma filled_0 x l : filled x l 0 = l.
Proof. done. Qed.

Lemma filled_all x l k : k = zlen l -> filled x l k = zrep k x.
Proof. intros ->. unfold filled. rewrite drop_ge, app_nil_r; [done|unfold zlen; lia]. Qed.

Lemma upd_upd old b l l' b' : upd (upd old b l) b l' b' = upd old b l' b'.
Proof. unfold upd. by case_decide. Qed.

Lemma fill_is m old b n x :
  mem_is m old -> 0 <= n <= zlen (old b) ->
  exists m', fill b n x m = Some (tt, m') /\ mem_is m' (upd old b (filled x (old b) n)).
Proof.
  intros Hm Hn. apply (for_sig_run (fun k m => mem_is m (upd old b (filled x (old b) k)))); [lia| |].
  - eapply mem_is_ext; [|exact Hm]. intros b'. unfold upd. case_decide; by subst.
  - intros k m1 Hk Hm1. assert (Eb : upd old b (filled x (old b) k) b = filled x (old b) k)
      by (unfold upd; by rewrite decide_True).
    destruct (st_f_is m1 _ b k x Hm1) as (m2 & E & Hm2); [rewrite Eb, zlen_filled; lia|].
    exists m2. split; [done|]. eapply mem_is_ext; [|exact Hm2]. intros b'.
    by rewrite upd_upd, Eb, filled_next by lia.
Qed.
End contents.

Ltac upd_cases := unfold upd; repeat (case_decide; try discriminate; simplify_eq).

(** ** The contents after a reset *)

Section reset.
Context `{SpeexLibm, Drft}.

Definition reset_content (st : SpeexEchoState) (old : echo_block -> list spec_float) (b : echo_block)
    : list spec_float :=
  let N := window_size st in
  let fs := frame_size st in
  let zero n := filled f32_zero (old b) n in
  match b with
  | b_W | b_foreground => zero (N * ec_M st)
  | b_X => zero (N * (ec_M st + 1))
  | b_power | b_Eh | b_Yh => zero (fs + 1)
  | b_power_1 => filled f32_one (old b) (fs + 1)
  | b_last_y => zero fs
  | b_E => zero (N * ec_C st)
  | b_x => zero (N * ec_K st)
  | b_notch_mem => zero (2 * ec_C st)
  | b_memE | b_memD => zero (ec_C st)
  | b_memX => zero (ec_K st)
  | _ => old b
  end.

(** The two loops that fill several arrays. *)
Definition powers_content (old : echo_block -> list spec_float) (k : Z) (b : echo_block) : list spec_float :=
  match b with
  | b_power | b_Eh | b_Yh => filled f32_zero (old b) k
  | b_power_1 => filled f32_one (old b) k
  | _ => old b
  end.

Definition memories_content (old : echo_block -> list spec_float) (k : Z) (b : echo_block) : list spec_float :=
  match b with
  | b_memE | b_memD => filled f32_zero (old b) k
  | _ => old b
  end.

Lemma powers_loop m old n :
  mem_is m old -> 0 <= n -> (forall b, b = b_power \/ b = b_power_1 \/ b = b_Eh \/ b = b_Yh -> zlen (old b) = n) ->
  exists m', for_sig 0 n (fun i =>
      (st_f b_power i f32_zero;; st_f b_power_1 i f32_one;; st_f b_Eh i f32_zero;; st_f b_Yh i f32_zero)%sig) m
    = Some (tt, m') /\ mem_is m' (powers_content old n).
Proof.
  intros Hm Hn Hl. apply (for_sig_run (fun k m => mem_is m (powers_content old k))); [done| |].
  { eapply mem_is_ext; [|exact Hm]. by intros []. }
  intros k m1 Hk Hm1.
  pose proof (Hl b_power ltac:(tauto)) as L1. pose proof (Hl b_power_1 ltac:(tauto)) as L2.
  pose proof (Hl b_Eh ltac:(tauto)) as L3. pose proof (Hl b_Yh ltac:(tauto)) as L4. clear Hl.
  destruct (st_f_is m1 _ b_power k f32_zero Hm1) as (m2 & E2 & Hm2); [upd_cases; cbn; rewrite zlen_filled; lia|].
  destruct (st_f_is m2 _ b_power_1 k f32_one Hm2) as (m3 & E3 & Hm3); [upd_cases; cbn; rewrite zlen_filled; lia|].
  destruct (st_f_is m3 _ b_Eh k f32_zero Hm3) as (m4 & E4 & Hm4); [upd_cases; cbn; rewrite zlen_filled; lia|].
  destruct (st_f_is m4 _ b_Yh k f32_zero Hm4) as (m5 & E5 & Hm5); [upd_cases; cbn; rewrite zlen_filled; lia|].
  exists m5. unfold sig_bind. rewrite E2, E3, E4, E5. split; [done|].
  eapply mem_is_ext; [|exact Hm5]. intros []; upd_cases; cbn; rewrite ?filled_next by lia; done.
Qed.

Lemma memories_loop m old n :
  mem_is m old -> 0 <= n -> zlen (old b_memE) = n -> zlen (old b_memD) = n ->
  exists m', for_sig 0 n (fun i => (st_f b_memE i f32_zero;; st_f b_memD i f32_zero)%sig) m
    = Some (tt, m') /\ mem_is m' (memories_content old n).
Proof.
  intros Hm Hn L1 L2. apply (for_sig_run (fun k m => mem_is m (memories_content old k))); [done| |].
  { eapply mem_is_ext; [|exact Hm]. by intros []. }
  intros k m1 Hk Hm1.
  destruct (st_f_is m1 _ b_memE k f32_zero Hm1) as (m2 & E2 & Hm2); [upd_cases; cbn; rewrite zlen_filled; lia|].
  destruct (st_f_is m2 _ b_memD k f32_zero Hm2) as (m3 & E3 & Hm3); [upd_cases; cbn; rewrite zlen_filled; lia|].
  exists m3. unfold sig_bind. rewrite E2, E3. split; [done|].
  eapply mem_is_ext; [|exact Hm3]. intros []; upd_cases; cbn; rewrite ?filled_next by lia; done.
Qed.

(** The size of an array that is still as it was. *)
Ltac contents Hl :=
  upd_cases; cbn [powers_content memories_content]; upd_cases; rewrite Hl; cbn [echo_size]; nia.

(** [fill] as the next step of a sequence. *)
Lemma fill_then b n x (c : sigM unit) m old f :
  mem_is m old -> 0 <= n <= zlen (old b) ->
  (forall m', mem_is m' (upd old b (filled x (old b) n)) -> exists m2, c m' = Some (tt, m2) /\ mem_is m2 f) ->
  exists m2, sig_bind (fill b n x) (fun _ => c) m = Some (tt, m2) /\ mem_is m2 f.
Proof.
  intros Hm Hn Hc. destruct (fill_is m old b n x Hm Hn) as (m1 & E & Hm1).
  unfold sig_bind. rewrite E. by apply Hc.
Qed.

Lemma reset_arrays_content st m old :
  echo_shape st -> mem_is m old ->
  (forall b, zlen (old b) = echo_size (frame_size st) (ec_M st) (ec_C st) (ec_K st) b) ->
  exists m', reset_arrays st m = Some (tt, m') /\ mem_is m' (reset_content st old).
Proof.
  intros [Hf HN HM HC HK] Hm Hl. unfold reset_arrays, reset_content. cbv zeta. rewrite HN.
  assert (1 <= ec_K st * ec_C st) by nia. assert (0 <= frame_size st * ec_M st) by nia.
  apply (fill_then _ _ _ _ _ old); [done|contents Hl|]. clear m Hm. intros m Hm.
  eapply fill_then; [exact Hm|contents Hl|]. clear m Hm. intros m Hm.
  eapply fill_then; [exact Hm|contents Hl|]. clear m Hm. intros m Hm.
  destruct (powers_loop m _ (frame_size st + 1) Hm) as (m1 & E1 & Hm1); [lia| |].
  { intros b [-> |[-> |[-> | ->]]]; upd_cases; by rewrite Hl. }
  unfold sig_bind at 1. rewrite E1. clear m Hm E1.
  eapply fill_then; [exact Hm1|contents Hl|]. clear m1 Hm1. intros m Hm.
  eapply fill_then; [exact Hm|contents Hl|]. clear m Hm. intros m Hm.
  eapply fill_then; [exact Hm|contents Hl|]. clear m Hm. intros m Hm.
  eapply fill_then; [exact Hm|contents Hl|]. clear m Hm. intros m Hm.
  destruct (memories_loop m _ (ec_C st) Hm) as (m1 & E1 & Hm1); [lia|contents Hl..|].
  unfold sig_bind at 1. rewrite E1. clear m Hm E1.
  destruct (fill_is m1 _ b_memX (ec_K st) f32_zero Hm1) as (m2 & E2 & Hm2); [contents Hl|].
  exists m2. split; [done|]. eapply mem_is_ext; [|exact Hm2]. intros []; by upd_cases.
Qed.
End reset.
