(* ===== verification/EchoInit.v ===== *)
(** * SpeexDSP: creation and reset of the echo canceller

    The contents of every array of a new state, compared with those after a reset: with one
    microphone and one loudspeaker a reset forgets what was learned; with more it leaves
    filters of the other channels as they were. *)
From Stdlib Require Import ZArith Lia Bool SpecFloat.
From stdpp Require Import base numbers list option.
From coqutil Require Import Datatypes.RecordSetters.
From S2P Require Import Prelude CFloat Loops FloatBlocks SpeexArith EchoState EchoCancel EchoProps EchoReset.
Import DoubleBraceUpdate.

Local Open Scope Z_scope.

Section init.
Context `{SpeexLibm, Drft}.

(** ** Creation *)

(** Code that changes the array [b] only. *)
Definition only {A} (b : echo_block) (n : Z) (c : sigM A) : Prop :=
  forall m old, mem_is m old -> zlen (old b) = n ->
  exists x m' l, c m = Some (x, m') /\ mem_is m' (upd old b l) /\ zlen l = n.

Lemma only_ret {A} b n (x : A) : only b n (sig_ret x).
Proof.
  intros m old Hm Hl. exists x, m, (old b). split; [done|]. split; [|done].
  eapply mem_is_ext; [|exact Hm]. intros b'. by upd_cases.
Qed.

Lemma only_bind {A B} b n (c : sigM A) (f : A -> sigM B) :
  only b n c -> (forall x, only b n (f x)) -> only b n (sig_bind c f).
Proof.
  intros Hc Hf m old Hm Hl. destruct (Hc m old Hm Hl) as (x & m1 & l1 & E & Hm1 & Hl1).
  destruct (Hf x m1 _ Hm1) as (y & m2 & l2 & E2 & Hm2 & Hl2); [by upd_cases|].
  exists y, m2, l2. unfold sig_bind. rewrite E. split; [done|]. split; [|done].
  eapply mem_is_ext; [|exact Hm2]. intros b'. apply upd_upd.
Qed.

Lemma only_ld b n i : 0 <= i < n -> only b n (ld_f b i).
Proof.
  intros Hi m old Hm Hl. destruct (ld_f_is m old b i Hm) as (x & E & _); [lia|].
  exists x, m, (old b). split; [done|]. split; [|done].
  eapply mem_is_ext; [|exact Hm]. intros b'. by upd_cases.
Qed.

Lemma only_st b n i x : 0 <= i < n -> only b n (st_f b i x).
Proof.
  intros Hi m old Hm Hl. destruct (st_f_is m old b i x Hm) as (m' & E & Hm'); [lia|].
  exists tt, m', (<[Z.to_nat i := x]> (old b)). split; [done|]. split; [done|]. by rewrite zlen_insert.
Qed.

Lemma only_fold {A} b n k i body (x : A) :
  (forall j y, i <= j < i + Z.of_nat k -> only b n (body j y)) -> only b n (sig_fold k i body x).
Proof.
  revert i x. induction k as [|k IH]; intros i x Hb; cbn [sig_fold]; [apply only_ret|].
  apply only_bind; [apply Hb; lia|]. intros y. apply IH. intros j z Hj. apply Hb. lia.
Qed.

Lemma only_for b n i0 i1 body :
  (forall j, i0 <= j < i1 -> only b n (body j)) -> only b n (for_sig i0 i1 body).
Proof.
  unfold for_sig. intros Hb.
  assert (G : forall k i, (forall j, i <= j < i + Z.of_nat k -> only b n (body j)) -> only b n (sig_for k i body)).
  { induction k as [|k IH]; intros i Hi; cbn [sig_for]; [apply only_ret|].
    apply only_bind; [apply Hi; lia|]. intros _. apply IH. intros j Hj. apply Hi. lia. }
  apply G. intros j Hj. apply Hb. lia.
Qed.

Lemma init_prop_only M : 1 <= M -> only b_prop M (init_prop M).
Proof.
  intros HM. unfold init_prop. cbv zeta.
  apply only_bind; [apply only_st; lia|]. intros _. apply only_bind; [apply only_ld; lia|]. intros first.
  apply only_bind.
  - apply only_fold. intros j y Hj.
    apply only_bind; [apply only_ld; lia|]. intros p. apply only_bind; [apply only_st; lia|]. intros _.
    apply only_bind; [apply only_ld; lia|]. intros q. apply only_ret.
  - intros sum. apply only_for. intros k Hk. cbv zeta.
    apply only_bind; [apply only_ld; lia|]. intros p. apply only_st. lia.
Qed.

(** The arrays of a new state: cleared, but for these. *)
Definition init_content (fs M C K : Z) (w p : list spec_float) (b : echo_block) : list spec_float :=
  match b with
  | b_window => w
  | b_prop => p
  | b_power_1 => zrep (fs + 1) f32_one
  | _ => zrep (echo_size fs M C K b) f32_zero
  end.

Lemma echo_size_nonneg fs M C K b : 1 <= fs -> 1 <= M -> 1 <= C -> 1 <= K -> 0 <= echo_size fs M C K b.
Proof.
  intros. assert (1 <= C * K) by nia. assert (1 <= M * fs) by nia. assert (0 <= K * (M * fs)) by nia.
  assert (0 <= C * K * (M * fs)) by nia.
  destruct b; cbn [echo_size]; try lia; nia.
Qed.

Lemma init_arrays_content fs M C K m :
  1 <= fs -> 1 <= M -> 1 <= C -> 1 <= K ->
  mem_is m (fun b => zrep (echo_size fs M C K b) f32_zero) ->
  exists m' w p, init_arrays fs M C K m = Some (tt, m') /\ mem_is m' (init_content fs M C K w p)
    /\ zlen w = 2 * fs /\ zlen p = M.
Proof.
  intros Hf HM HC HK Hm. unfold init_arrays. cbv zeta.
  assert (Hz : forall b, zlen (zrep (echo_size fs M C K b) f32_zero) = echo_size fs M C K b)
    by (intros; by apply zlen_zrep, echo_size_nonneg).
  match goal with |- context [for_sig 0 (2 * fs) ?body] =>
    destruct (only_for b_window (2 * fs) 0 (2 * fs) body) with (m := m) (old := fun b => zrep (echo_size fs M C K b) f32_zero)
      as ([] & m1 & w & E1 & Hm1 & Hw) end.
  { intros j Hj. by apply only_st. } { done. } { by rewrite Hz. }
  unfold sig_bind at 1. rewrite E1. clear Hm E1.
  destruct (fill_is m1 _ b_power_1 (fs + 1) f32_one Hm1) as (m2 & E2 & Hm2); [upd_cases; rewrite Hz; cbn; lia|].
  unfold sig_bind at 1. rewrite E2. clear Hm1 E2.
  destruct (fill_is m2 _ b_W (2 * fs * M * K * C) f32_zero Hm2) as (m3 & E3 & Hm3).
  { upd_cases. rewrite Hz. pose proof (echo_size_nonneg fs M C K b_W). cbn [echo_size] in *. lia. }
  unfold sig_bind at 1. rewrite E3. clear Hm2 E3.
  destruct (init_prop_only M HM m3 _ Hm3) as ([] & m4 & p & E4 & Hm4 & Hp); [upd_cases; by rewrite Hz|].
  exists m4, w, p. split; [done|]. split; [|done]. eapply mem_is_ext; [|exact Hm4].
  clear Hw Hp Hm3 Hm4. intros []; upd_cases; cbn [init_content]; try done;
    (rewrite filled_all; [f_equal; cbn [echo_size]; lia|rewrite Hz; cbn [echo_size]; lia]).
Qed.

(** The memory fits in what [int] can count. *)
Definition echo_fits (fs M C K : Z) : Prop := forall b, 4 * echo_size fs M C K b < 2 ^ 31.

Lemma alloc_ok {A} (x : A) w n : 0 <= n -> 0 < w -> n * w < 2 ^ 31 -> speex_alloc x w n = Some (zrep n x).
Proof.
  intros Hn Hw Hb. unfold speex_alloc. rewrite (proj2 (Z.leb_le 0 n)) by done.
  unfold in_sb. change (- 2 ^ (32 - 1)) with (- 2 ^ 31). change (2 ^ (32 - 1)) with (2 ^ 31).
  rewrite (proj2 (Z.leb_le _ _)) by nia. by rewrite (proj2 (Z.ltb_lt _ _)) by lia.
Qed.

Lemma mem_is_blocks (f : echo_block -> list spec_float) : mem_is (map f echo_blocks) f.
Proof. split; [done|]. intros b. by rewrite list_lookup_fmap, echo_blocks_index. Qed.

Lemma mem_is_ok fs M C K m old :
  mem_is m old -> (forall b, zlen (old b) = echo_size fs M C K b) -> shaped (echo_sz fs M C K) 25 m.
Proof.
  intros [Hl Hm] Ho. split; [done|]. intros i l E. unfold echo_sz.
  destruct (echo_blocks !! i) as [b|] eqn:Eb.
  - assert (Ei : i = block_index b).
    { revert Eb. do 25 (destruct i as [|i]; [by intros [= <-]|]). by destruct i. }
    subst i. rewrite Hm in E. injection E as <-. apply Ho.
  - apply lookup_ge_None in Eb. apply lookup_lt_Some in E. rewrite Hl in E. cbn in Eb. lia.
Qed.

Lemma mem_ok_is fs M C K m :
  shaped (echo_sz fs M C K) 25 m ->
  exists old, mem_is m old /\ forall b, zlen (old b) = echo_size fs M C K b.
Proof.
  intros [Hl Hm]. exists (fun b => default [] (m !! block_index b)).
  assert (G : forall b, exists l, m !! block_index b = Some l).
  { intros b. apply lookup_lt_is_Some_2. rewrite Hl. apply echo_names. }
  split; [split; [done|]|]; intros b; destruct (G b) as [l E]; rewrite E; cbn; [done|].
  rewrite (Hm _ _ E). apply echo_sz_of.
Qed.

Lemma init_spec fs filter_length C K :
  1 <= fs -> 1 <= filter_length -> 1 <= C -> 1 <= K ->
  let M := (filter_length + fs - 1) / fs in
  echo_fits fs M C K ->
  exists st w p, speex_echo_state_init_mc fs filter_length C K = Some st /\ echo_ok st
    /\ frame_size st = fs /\ ec_M st = M /\ ec_C st = C /\ ec_K st = K
    /\ mem_is (ec_mem st) (init_content fs M C K w p)
    /\ play_buf st = zrep (K * 3 * fs) 0 /\ play_buf_pos st = 2 * fs /\ play_buf_started st = 0
    /\ cancel_count st = 0 /\ adapted st = 0 /\ saturated st = 0 /\ screwed_up st = 0
    /\ sum_adapt st = f32_zero /\ Davg1 st = f32_zero /\ Davg2 st = f32_zero /\ Dvar1 st = f32_zero
    /\ Dvar2 st = f32_zero /\ Pey st = f32_one /\ Pyy st = f32_one.
Proof.
  intros Hf HL HC HK M Hfits. assert (HM : 1 <= M) by (apply Z.div_le_lower_bound; lia).
  unfold speex_echo_state_init_mc. rewrite (proj2 (Z.eqb_neq fs 0)) by lia. cbv zeta.
  rewrite Z.quot_div_nonneg by lia. fold M.
  assert (Ha : mapM (fun b => speex_alloc f32_zero 4 (echo_size fs M C K b)) echo_blocks
    = Some (map (fun b => zrep (echo_size fs M C K b) f32_zero) echo_blocks)).
  { apply mapM_Some. apply Forall2_fmap_r. apply Forall_Forall2_diag, Forall_forall. intros b _.
    apply alloc_ok; [by apply echo_size_nonneg|lia|]. pose proof (Hfits b). lia. }
  rewrite Ha. cbn [mbind option_bind].
  destruct (init_arrays_content fs M C K _ Hf HM HC HK (mem_is_blocks _)) as (m & w & p & -> & Hm & Hw & Hp).
  cbn [mbind option_bind].
  assert (Hbuf : speex_alloc 0 2 (K * (PLAYBACK_DELAY + 1) * fs) = Some (zrep (K * 3 * fs) 0)).
  { change (PLAYBACK_DELAY + 1) with 3. pose proof (Hfits b_x) as Hx. cbn [echo_size] in Hx.
    apply alloc_ok; nia. }
  rewrite Hbuf.
  cbn [mbind option_bind]. eexists _, w, p. split; [done|]. split; [|by split_and!].
  split.
  - by split.
  - eapply mem_is_ok; [exact Hm|]. intros b.
    change (zlen (init_content fs M C K w p b) = echo_size fs M C K b).
    destruct b; cbn [init_content]; first [done|apply zlen_zrep; by apply echo_size_nonneg|apply zlen_zrep; lia].
  - change (zlen (zrep (K * 3 * fs) 0) = K * 3 * fs). apply zlen_zrep. nia.
  - change (0 <= 0 < 50). lia.
  - change (0 <= 0). lia.
Qed.

(** C21. [speex_echo_state_init_mc] makes a consistent state: for every frame size, filter
    length and number of channels whose arrays fit in an [int], creation is defined, the
    filter has as many blocks as the length needs (rounded up), every array has the size
    that the other functions assume, and the play buffer holds two frames of silence. *)
Theorem echo_init_consistent fs filter_length C K :
  1 <= fs -> 1 <= filter_length -> 1 <= C -> 1 <= K -> echo_fits fs ((filter_length + fs - 1) / fs) C K ->
  exists st, speex_echo_state_init_mc fs filter_length C K = Some st /\ echo_ok st
    /\ (ec_M st - 1) * fs < filter_length <= ec_M st * fs
    /\ play_buf_pos st = 2 * fs /\ rd (play_buf st) 0 (2 * fs) = zrep (2 * fs) 0.
Proof.
  intros Hf HL HC HK Hfits.
  destruct (init_spec fs filter_length C K Hf HL HC HK Hfits)
    as (st & w & p & E & Hok & _ & EM & _ & _ & _ & Eb & Ep & _).
  exists st. split; [done|]. split; [done|]. split.
  - rewrite EM. pose proof (Z.div_mod (filter_length + fs - 1) fs ltac:(lia)).
    pose proof (Z.mod_pos_bound (filter_length + fs - 1) fs ltac:(lia)). nia.
  - split; [done|]. rewrite Eb. unfold rd, zrep. rewrite drop_0, take_replicate. f_equal. nia.
Qed.

(** ** Reset against creation *)

(** The members that hold what was learned from the signals, and such arrays. *)
Definition learned (st : SpeexEchoState) :=
  (cancel_count st, adapted st, saturated st, screwed_up st, sum_adapt st,
   (Davg1 st, Davg2 st, Dvar1 st, Dvar2 st), (Pey st, Pyy st),
   (play_buf st, play_buf_pos st, play_buf_started st)).

Definition learned_blocks : list echo_block :=
  [b_W; b_foreground; b_X; b_power; b_power_1; b_Eh; b_Yh; b_E; b_x; b_notch_mem; b_memE; b_memD; b_memX].

Lemma reset_spec st :
  echo_ok st ->
  exists mem old, reset_arrays st (ec_mem st) = Some (tt, mem) /\ speex_echo_state_reset st = Some (reset_state st mem)
    /\ mem_is (ec_mem st) old /\ mem_is mem (reset_content st old)
    /\ forall b, zlen (old b) = echo_size (frame_size st) (ec_M st) (ec_C st) (ec_K st) b.
Proof.
  intros [Hst Hm Hb _ _]. destruct (mem_ok_is _ _ _ _ _ Hm) as (old & Ho & Hl).
  destruct (reset_eq st Hst Hm Hb) as (mem & Er & E & _).
  destruct (reset_arrays_content st _ old Hst Ho Hl) as (mem' & Er' & Hm').
  rewrite Er in Er'. injection Er' as <-. exists mem, old. done.
Qed.

(** C11. With one microphone and one loudspeaker, [speex_echo_state_reset] forgets what the
    canceller has learned: the two filters, the history of the far end, the spectra, powers,
    averages, filter memories, counters and the play buffer are those of a new state of the
    same size.  (The rates per block, the leak estimate and the second half of the last
    response are not reset.) *)
Theorem echo_reset_like_new st st0 filter_length :
  echo_ok st -> ec_C st = 1 -> ec_K st = 1 -> 1 <= filter_length ->
  ec_M st = (filter_length + frame_size st - 1) / frame_size st ->
  echo_fits (frame_size st) (ec_M st) 1 1 ->
  speex_echo_state_init (frame_size st) filter_length = Some st0 ->
  exists st', speex_echo_state_reset st = Some st' /\ learned st' = learned st0
    /\ Forall (fun b => ec_mem st' !! block_index b = ec_mem st0 !! block_index b) learned_blocks.
Proof.
  intros Hok HC HK HL HM Hfits E0. pose proof Hok as [[Hf HN _ _ _] _ Hb _ _].
  rewrite HM in Hfits.
  destruct (init_spec (frame_size st) filter_length 1 1 Hf HL ltac:(lia) ltac:(lia) Hfits)
    as (st1 & w & p & E1 & _ & Ef & EM & EC & EK & H0m & Heq).
  unfold speex_echo_state_init in E0. rewrite E1 in E0. injection E0 as ->.
  destruct (reset_spec st Hok) as (mem & old & _ & E & _ & Hmem & Hl).
  exists (reset_state st mem). split; [done|]. rewrite <- HM in *. split.
  - destruct Heq as (Eb & Ep & Es & E2 & E3 & E4 & E5 & E6 & E7 & E8 & E9 & E10 & E11 & E12).
    unfold learned. rewrite Eb, Ep, Es, E2, E3, E4, E5, E6, E7, E8, E9, E10, E11, E12.
    assert (Hd : drop (Z.to_nat (3 * frame_size st)) (play_buf st) = [])
      by (apply drop_ge; unfold zlen in Hb; rewrite HK in Hb; lia).
    change (play_buf (reset_state st mem))
      with (zrep (3 * frame_size st) 0 ++ drop (Z.to_nat (3 * frame_size st)) (play_buf st)).
    rewrite Hd, app_nil_r. by rewrite Z.mul_1_l.
  - apply Forall_forall. intros b Hb'. change (ec_mem (reset_state st mem)) with mem.
    rewrite (proj2 Hmem), (proj2 H0m). f_equal. rewrite HC, HK in *.
    assert (Hz : forall x n, n = echo_size (frame_size st) (ec_M st) 1 1 b ->
      filled x (old b) n = zrep (echo_size (frame_size st) (ec_M st) 1 1 b) x).
    { intros x n ->. apply filled_all. by rewrite Hl. }
    repeat (destruct Hb' as [<- |Hb']; [
      cbn [reset_content init_content]; rewrite ?HC, ?HK, ?HN; apply Hz; cbn [echo_size]; lia|]).
    destruct Hb'.
Qed.

(** With several microphones or loudspeakers, [speex_echo_state_reset] leaves the
    filters of all channels but the first pair as they were (it clears [N * M] of their
    [N * M * K * C] weights), so NaNs in them survive the reset that is meant to remove
    them; a new state has only zeros there. *)
Theorem echo_reset_keeps_channels st b i :
  echo_ok st -> b = b_W \/ b = b_foreground -> window_size st * ec_M st <= i ->
  exists st', speex_echo_state_reset st = Some st'
    /\ forall l l', ec_mem st !! block_index b = Some l -> ec_mem st' !! block_index b = Some l' ->
       at_index l' i = at_index l i.
Proof.
  intros Hok Hbb Hi. destruct (reset_spec st Hok) as (mem & old & _ & E & Ho & Hmem & Hl).
  exists (reset_state st mem). split; [done|]. intros l l' El El'.
  change (ec_mem (reset_state st mem)) with mem in El'.
  rewrite (proj2 Hmem) in El'. rewrite (proj2 Ho) in El. injection El as <-. injection El' as <-.
  pose proof Hok as [[Hf HN HM HC HK] _ _ _ _].
  assert (Ec : reset_content st old b = filled f32_zero (old b) (window_size st * ec_M st))
    by (destruct Hbb as [-> | ->]; done).
  rewrite Ec. unfold at_index, filled. rewrite (proj2 (Z.leb_le 0 i)) by nia.
  assert (Hn : 0 <= window_size st * ec_M st) by nia.
  unfold zrep. rewrite lookup_app_r by (rewrite length_replicate; lia).
  rewrite length_replicate, lookup_drop. f_equal. lia.
Qed.
End init.
