(* ===== verification/EchoFifo.v ===== *)
(** * SpeexDSP: playing and capturing through the canceller's buffer

    [speex_echo_playback] and [speex_echo_capture] exchange the frames that are played
    through [play_buf].  Abstractly it is a queue of at most three frames; the calls refine
    the steps of that queue. *)
From Stdlib Require Import ZArith Lia Bool SpecFloat.
From stdpp Require Import base numbers list option.
From coqutil Require Import Datatypes.RecordSetters.
From S2P Require Import Prelude CFloat Loops FloatBlocks SpeexArith EchoState EchoCancel EchoProps EchoRuns EchoInit.
Import DoubleBraceUpdate.

Local Open Scope Z_scope.

(** ** The queue *)

Record play_queue := mk_queue { q_started : bool; q_frames : list (list Z) }.

Inductive play_call :=
| Playback (play : list Z)
| Capture (rec out : list Z).

(** One call: the frame the microphone's frame is cancelled against, if any. *)
Inductive queue_step (fs : Z) : play_queue -> play_call -> option (list Z) -> play_queue -> Prop :=
| step_ignored q f : queue_step fs (mk_queue false q) (Playback f) None (mk_queue false q)
| step_push q f : 1 <= zlen q <= 2 -> queue_step fs (mk_queue true q) (Playback f) None (mk_queue true (q ++ [f]))
| step_twice f : queue_step fs (mk_queue true []) (Playback f) None (mk_queue true [f; f])
| step_full q f : zlen q = 3 -> queue_step fs (mk_queue true q) (Playback f) None (mk_queue true q)
| step_cancel b f q rec out : queue_step fs (mk_queue b (f :: q)) (Capture rec out) (Some f) (mk_queue true q)
| step_reset b f q rec out :
    queue_step fs (mk_queue b (f :: q)) (Capture rec out) (Some f) (mk_queue false [zrep fs 0])
| step_underrun b rec out : queue_step fs (mk_queue b []) (Capture rec out) None (mk_queue true []).

(** Sequences of calls with the frames used. *)
Inductive queue_run (fs : Z) : play_queue -> list play_call -> list (option (list Z)) -> play_queue -> Prop :=
| run_done q : queue_run fs q [] [] q
| run_call q c far q1 cs fars q2 :
    queue_step fs q c far q1 -> queue_run fs q1 cs fars q2 -> queue_run fs q (c :: cs) (far :: fars) q2.

(** The buffer holds the frames of [q]. *)
Record holds (st : SpeexEchoState) (q : play_queue) : Prop := {
  h_started : play_buf_started st = (if q_started q then 1 else 0);
  h_pos : play_buf_pos st = frame_size st * zlen (q_frames q);
  h_data : rd (play_buf st) 0 (play_buf_pos st) = concat (q_frames q);
  h_frames : Forall (fun f => zlen f = frame_size st) (q_frames q);
  h_bound : zlen (q_frames q) <= 3 }.

(** What the caller gives. *)
Definition call_fits (st : SpeexEchoState) (c : play_call) : Prop :=
  match c with
  | Playback play => zlen play = frame_size st
  | Capture rec out => zlen rec = ec_C st * frame_size st /\ zlen out = zlen rec /\ Forall (in_s 16) out
  end.

Lemma same_dims_trans st st1 st2 : same_dims st st1 -> same_dims st1 st2 -> same_dims st st2.
Proof. intros (? & ? & ? & ?) (? & ? & ? & ?). split_and!; congruence. Qed.

Section fifo.
Context `{SpeexLibm, Drft}.

(** One call of the code, with the frame it captures. *)
Definition exec_call (st : SpeexEchoState) (c : play_call) : option (SpeexEchoState * list Z) :=
  match c with
  | Playback play => st ← speex_echo_playback st play; Some (st, [])
  | Capture rec out => speex_echo_capture st rec out
  end.

Fixpoint exec_calls (st : SpeexEchoState) (cs : list play_call) : option (SpeexEchoState * list (list Z)) :=
  match cs with
  | [] => Some (st, [])
  | c :: cs => '(st, out) ← exec_call st c; '(st, outs) ← exec_calls st cs; Some (st, out :: outs)
  end.

(** What a captured frame becomes: it is cancelled against the frame at the head of the queue,
    or passed through where there is none. *)
Definition captured (st : SpeexEchoState) (rec out : list Z) (far : option (list Z)) (out' : list Z) : Prop :=
  match far with
  | Some f =>
      exists buf st', rd buf 0 (frame_size st) = f
        /\ speex_echo_cancellation (st {{ play_buf_started := 1 }}) rec buf out = Some (st', out')
  | None => out' = wr out 0 (rd rec 0 (frame_size st))
  end.

(** What a call gives, by the frame the queue's step uses. *)
Definition call_gives (st : SpeexEchoState) (c : play_call) (far : option (list Z)) (out' : list Z) : Prop :=
  match c with Playback _ => out' = [] | Capture rec out => captured st rec out far out' end.

(** ** Loops over the buffer *)

Lemma insert_wr (l : list Z) i v : 0 <= i < zlen l -> <[Z.to_nat i := v]> l = wr l i [v].
Proof.
  unfold zlen, wr. intros Hi. rewrite insert_take_drop by lia. cbn [length app].
  by rewrite Nat.add_1_r.
Qed.

Lemma rd_snoc (l : list Z) off k v :
  0 <= off -> 0 <= k -> at_index l (off + k) = Some v -> rd l off (k + 1) = rd l off k ++ [v].
Proof.
  intros Hoff Hk Ev. rewrite rd_split by lia. f_equal. unfold rd.
  unfold at_index in Ev. rewrite (proj2 (Z.leb_le 0 _)) in Ev by lia.
  change (Z.to_nat 1) with 1%nat.
  rewrite <- (Nat.add_0_r (Z.to_nat (off + k))), <- lookup_drop in Ev.
  destruct (drop (Z.to_nat (off + k)) l) as [|y r]; cbn in Ev; [done|]. by injection Ev as ->.
Qed.

(** Loops [l[off + i] = v(i)] whose values are the cells of [d]. *)
Lemma copy_loop (f : Z -> list Z -> option Z) off n d l :
  0 <= off -> 0 <= n -> off + n <= zlen l -> zlen d = n ->
  (forall k, 0 <= k < n -> f k (wr l off (rd d 0 k)) = at_index d k) ->
  for_opt (Z.to_nat n) 0 (fun i l => v ← f i l; set_index l (off + i) v) l = Some (wr l off d).
Proof.
  intros Hoff Hn Hl Hd Hf.
  destruct (for_opt_inv (fun k m => m = wr l off (rd d 0 k)) n
    (fun i l => v ← f i l; set_index l (off + i) v) l) as (m & E & ->); [done| | |].
  - by rewrite rd_0, wr_nil.
  - intros k m Hk ->. rewrite Hf by done. destruct (at_index_some d k ltac:(lia)) as [v Ev].
    rewrite Ev. cbn [mbind option_bind].
    assert (Hz : zlen (rd d 0 k) = k) by (apply zlen_rd; lia).
    assert (Hw : zlen (wr l off (rd d 0 k)) = zlen l) by (apply zlen_wr; lia).
    rewrite set_index_some by lia. eexists. split; [done|].
    rewrite insert_wr by lia. rewrite (rd_snoc d 0 k v) by (done || lia).
    replace (off + k) with (off + zlen (rd d 0 k)) by lia.
    apply wr_wr_adj; [done|]. rewrite Hz. change (zlen [v]) with 1. lia.
  - rewrite E. by rewrite <- Hd, rd_all.
Qed.

Lemma at_index_rd (l : list Z) off n k : 0 <= off -> 0 <= k < n -> at_index (rd l off n) k = at_index l (off + k).
Proof.
  intros Hoff Hk. unfold at_index, rd. rewrite !(proj2 (Z.leb_le 0 _)) by lia.
  rewrite lookup_take_lt, lookup_drop by lia. f_equal. lia.
Qed.

Lemma at_index_wr_after (l d : list Z) off k :
  0 <= off -> off + zlen d <= k -> off <= zlen l -> at_index (wr l off d) k = at_index l k.
Proof.
  unfold zlen. intros Hoff Hk Hl. unfold at_index, wr. pose proof (length_take l (Z.to_nat off)) as Ht.
  rewrite (proj2 (Z.leb_le 0 _)) by lia.
  rewrite lookup_app_r, lookup_app_r, lookup_drop by lia. f_equal. lia.
Qed.

Lemma store_play_eq st play :
  zlen play = frame_size st -> 0 <= play_buf_pos st -> play_buf_pos st + frame_size st <= zlen (play_buf st) ->
  store_play st play
  = Some (st {{ play_buf := wr (play_buf st) (play_buf_pos st) play;
                play_buf_pos := (play_buf_pos st + frame_size st)%Z }}).
Proof.
  intros Hp Hpos Hl. unfold store_play. pose proof (zlen_nonneg play).
  rewrite (copy_loop (fun i _ => at_index play i) _ _ play) by (done || lia). done.
Qed.

Lemma shift_play pos fs (l : list Z) :
  0 <= pos -> 0 <= fs -> pos + fs <= zlen l ->
  for_opt (Z.to_nat pos) 0 (fun i l => v ← at_index l (i + fs); set_index l i v) l = Some (wr l 0 (rd l fs pos)).
Proof.
  intros Hpos Hfs Hl.
  apply (copy_loop (fun i l => at_index l (i + fs)) 0 pos (rd l fs pos) l); [lia..|apply zlen_rd; lia|].
  intros k Hk. assert (Hz : zlen (rd (rd l fs pos) 0 k) = k).
  { rewrite rd_rd by lia. apply zlen_rd; lia. }
  rewrite at_index_wr_after by (rewrite ?Hz; lia). rewrite at_index_rd by lia. f_equal. lia.
Qed.

Lemma copy_frame rec n (out : list Z) :
  0 <= n <= zlen rec -> n <= zlen out ->
  for_opt (Z.to_nat n) 0 (fun i l => v ← at_index rec i; set_index l i v) out = Some (wr out 0 (rd rec 0 n)).
Proof.
  intros Hn Ho. apply (copy_loop (fun i _ => at_index rec i) 0 n (rd rec 0 n) out); [lia..|apply zlen_rd; lia|].
  intros k Hk. by rewrite at_index_rd by lia.
Qed.

(** ** The calls *)

Lemma zlen_0 {A} (l : list A) : zlen l <= 0 -> l = [].
Proof. unfold zlen. destruct l; cbn; [done|lia]. Qed.

Lemma concat_frames fs (q : list (list Z)) : Forall (fun f => zlen f = fs) q -> zlen (concat q) = fs * zlen q.
Proof.
  induction 1 as [|f q Hf _ IH]; cbn [concat]; [change (0 = fs * 0); lia|].
  rewrite zlen_app, (zlen_cons f q), IH, Hf. lia.
Qed.

(** One more frame behind those in the buffer. *)
Lemma store_holds st q play :
  echo_ok st -> holds st q -> zlen play = frame_size st -> zlen (q_frames q) <= 2 ->
  exists st', store_play st play = Some st' /\ echo_ok st' /\ holds st' (mk_queue (q_started q) (q_frames q ++ [play]))
    /\ same_dims st st' /\ play_buf_pos st' = play_buf_pos st + frame_size st.
Proof.
  intros Hok [Hs Hp Hd Hf Hq] Hplay H2. pose proof Hok as [[Hfs HN HM HC HK] Hm Hb Hscr Hsat].
  pose proof (zlen_nonneg (q_frames q)) as Hq0.
  assert (Hpos : 0 <= play_buf_pos st /\ play_buf_pos st + frame_size st <= zlen (play_buf st)) by (rewrite Hp, Hb; nia).
  eexists. rewrite store_play_eq by (done || lia). split; [done|]. split; [|split; [|done]].
  - split; [by split|exact Hm| |exact Hscr|exact Hsat].
    change (zlen (wr (play_buf st) (play_buf_pos st) play) = ec_K st * 3 * frame_size st).
    rewrite zlen_wr by lia. done.
  - split.
    + exact Hs.
    + change (play_buf_pos st + frame_size st = frame_size st * zlen (q_frames q ++ [play])).
      rewrite zlen_app, Hp. change (zlen [play]) with 1. lia.
    + change (rd (wr (play_buf st) (play_buf_pos st) play) 0 (play_buf_pos st + frame_size st)
              = concat (q_frames q ++ [play])).
      rewrite rd_split, Z.add_0_l by lia. rewrite <- Hplay, rd_wr_same by lia.
      rewrite rd_wr_before by lia. rewrite Hd, concat_app. cbn. by rewrite app_nil_r.
    + change (Forall (fun f => zlen f = frame_size st) (q_frames q ++ [play])). apply Forall_app; auto.
    + cbn [q_frames]. rewrite zlen_app. change (zlen [play]) with 1. lia.
Qed.

Lemma playback_refines st q play :
  echo_ok st -> holds st q -> zlen play = frame_size st ->
  exists st' q', speex_echo_playback st play = Some st' /\ queue_step (frame_size st) q (Playback play) None q'
    /\ echo_ok st' /\ holds st' q' /\ same_dims st st'.
Proof.
  intros Hok Hh Hplay. pose proof Hh as [Hs Hp Hd Hf Hq]. pose proof Hok as [[Hfs _ _ _ _] _ _ _ _].
  pose proof (zlen_nonneg (q_frames q)). unfold speex_echo_playback, PLAYBACK_DELAY.
  destruct q as [[] fr]; cbn [q_started q_frames] in *; rewrite Hs; cbn [Z.eqb].
  - destruct (Z.leb_spec (play_buf_pos st) (2 * frame_size st)).
    + destruct (store_holds st _ play Hok Hh Hplay) as (st1 & -> & Hok1 & Hh1 & Ef1 & Ep1); [cbn; nia|].
      cbn [mbind option_bind q_started q_frames] in *. change (2 - 1) with 1.
      destruct (Z.leb_spec (play_buf_pos st1) (1 * frame_size st)).
      * assert (fr = []) as -> by (apply zlen_0; nia).
        destruct (store_holds st1 _ play Hok1 Hh1) as (st2 & -> & Hok2 & Hh2 & Ef2 & _);
          [by rewrite Hplay; destruct Ef1|by vm_compute|].
        exists st2, (mk_queue true [play; play]). split; [done|]. split; [constructor|].
        split; [done|]. split; [done|]. by eapply same_dims_trans.
      * exists st1, (mk_queue true (fr ++ [play])). split; [done|]. split; [constructor; nia|]. done.
    + exists st, (mk_queue true fr). split; [done|]. split; [constructor; nia|]. done.
  - exists st, (mk_queue false fr). split; [done|]. split; [constructor|]. done.
Qed.

Lemma capture_ok st : echo_ok st -> echo_ok (st {{ play_buf_started := 1 }}).
Proof. intros [[] ? ? ? ?]. by split. Qed.

(** Dropping the first frame of the buffer. *)
Lemma drop_frame fs f q (l : list Z) :
  0 <= fs -> zlen f = fs -> Forall (fun f => zlen f = fs) q -> fs * (1 + zlen q) <= zlen l ->
  rd l 0 (fs * (1 + zlen q)) = f ++ concat q ->
  rd (wr l 0 (rd l fs (fs * zlen q))) 0 (fs * zlen q) = concat q.
Proof.
  intros Hfs Hf Hq Hl E. pose proof (zlen_nonneg q).
  assert (Hz : zlen (rd l fs (fs * zlen q)) = fs * zlen q) by (apply zlen_rd; nia).
  rewrite <- Hz at 2. rewrite rd_wr_same by (rewrite ?Hz; nia).
  replace (fs * (1 + zlen q)) with (fs + fs * zlen q) in E by lia.
  rewrite rd_split, Z.add_0_l in E by nia. apply app_inj_1 in E as [_ E]; [done|].
  apply Nat2Z.inj. fold (zlen (rd l 0 fs)) (zlen f). rewrite Hf. apply zlen_rd; nia.
Qed.

(** Shifting the buffer drops the first frame. *)
Lemma shift_holds st b f fr :
  echo_ok st -> holds st (mk_queue b (f :: fr)) ->
  let pos := play_buf_pos st - frame_size st in
  let st' := st {{ play_buf := wr (play_buf st) 0 (rd (play_buf st) (frame_size st) pos); play_buf_pos := pos }} in
  echo_ok st' /\ holds st' (mk_queue b fr).
Proof.
  intros [[Hfs HN HM HC HK] Hm Hb Hscr Hsat] [Hs Hp Hd Hf Hq] pos st'. cbn [q_started q_frames] in *.
  assert (Hz : zlen (f :: fr) = 1 + zlen fr) by apply zlen_cons. rewrite Hz in *.
  pose proof (zlen_nonneg fr). assert (Epos : pos = frame_size st * zlen fr) by (unfold pos; lia).
  assert (Hl : frame_size st * (1 + zlen fr) <= zlen (play_buf st)) by nia.
  assert (Hr : zlen (rd (play_buf st) (frame_size st) pos) = pos) by (rewrite Epos; apply zlen_rd; nia).
  pose proof (Forall_inv Hf) as Hf1. pose proof (Forall_inv_tail Hf) as Hfr.
  split.
  - split; [by split|exact Hm| |exact Hscr|exact Hsat].
    change (zlen (wr (play_buf st) 0 (rd (play_buf st) (frame_size st) pos)) = ec_K st * 3 * frame_size st).
    rewrite zlen_wr; [done|lia|]. rewrite Hr, Epos. nia.
  - split; [exact Hs|exact Epos| |exact Hfr|cbn; lia].
    change (rd (wr (play_buf st) 0 (rd (play_buf st) (frame_size st) pos)) 0 pos = concat fr).
    rewrite Epos. apply drop_frame with f; [lia|done..|]. by rewrite <- Hp, Hd.
Qed.

(** The buffer of a reset canceller: two frames of silence. *)
Lemma holds_reset st (rest : list Z) :
  1 <= frame_size st -> play_buf_started st = 0 -> play_buf_pos st = PLAYBACK_DELAY * frame_size st ->
  play_buf st = zrep (3 * frame_size st) 0 ++ rest ->
  holds st (mk_queue false [zrep (frame_size st) 0; zrep (frame_size st) 0]).
Proof.
  unfold PLAYBACK_DELAY. intros Hf Hs Hp Hb. assert (zlen (zrep (frame_size st) 0) = frame_size st) by (apply zlen_zrep; lia).
  split; cbn [q_started q_frames]; [done| | |by repeat constructor|by vm_compute].
  - rewrite Hp. change (2 * frame_size st = frame_size st * 2). lia.
  - rewrite Hp, Hb, rd_app_l by (rewrite ?zlen_zrep by lia; lia). rewrite rd_zrep by lia. cbn [concat].
    rewrite app_nil_r. unfold zrep. rewrite <- replicate_add. f_equal. lia.
Qed.

Lemma holds_empty st : play_buf_started st = 1 -> play_buf_pos st = 0 -> holds st (mk_queue true []).
Proof.
  intros Hs Hp. split; [done| |by rewrite Hp, rd_0|constructor|by vm_compute].
  rewrite Hp. change (0 = frame_size st * 0). lia.
Qed.

Lemma capture_refines st q rec out :
  echo_ok st -> holds st q -> echo_input st rec (play_buf st) out ->
  exists st' out' far q', speex_echo_capture st rec out = Some (st', out')
    /\ queue_step (frame_size st) q (Capture rec out) far q'
    /\ captured st rec out far out' /\ echo_ok st' /\ holds st' q' /\ same_dims st st' /\ zlen out' = zlen out.
Proof.
  intros Hok Hh Hi. pose proof Hh as [Hs Hp Hd Hf Hq]. pose proof Hok as [[Hfs HN HM HC HK] Hm Hb Hscr Hsat].
  pose proof (zlen_nonneg (q_frames q)). unfold speex_echo_capture.
  set (st0 := st {{ play_buf_started := 1 }}). assert (Hok0 : echo_ok st0) by by apply capture_ok.
  change (play_buf_pos st0) with (play_buf_pos st). change (frame_size st0) with (frame_size st).
  change (play_buf st0) with (play_buf st). rewrite Z.geb_leb.
  destruct q as [b [|f fr]]; cbn [q_started q_frames] in *.
  - change (zlen (@nil (list Z))) with 0 in *. rewrite Z.mul_0_r in Hp.
    rewrite Hp, (proj2 (Z.leb_gt _ _)) by lia. destruct Hi as (Hr & _ & Ho & _).
    assert (Hz : zlen (rd rec 0 (frame_size st)) = frame_size st) by (apply zlen_rd; nia).
    rewrite copy_frame by (lia || nia).
    eexists _, _, None, (mk_queue true []). split; [done|]. split; [constructor|]. split; [done|]. split; [destruct Hok0 as [[] ? ? ? ?]; by split|].
    split; [apply holds_empty; done|]. split; [by split_and!|]. apply zlen_wr; nia.
  - assert (Hz : zlen (f :: fr) = 1 + zlen fr) by apply zlen_cons. rewrite Hz in *.
    pose proof (zlen_nonneg fr). pose proof (Forall_inv Hf) as Hf1. pose proof (Forall_inv_tail Hf) as Hfr. clear Hf.
    rewrite (proj2 (Z.leb_le _ _)) by nia.
    destruct (cancellation_spec st0 rec (play_buf st) out Hok0 Hi)
      as (_ & _ & _ & _ & _ & _ & st' & out' & _ & _ & _ & Ecan & Hok' & Hd' & Hl & _ & Hbuf & _).
    cbn beta in Hf1. assert (Hcap : captured st rec out (Some f) out').
    { exists (play_buf st), st'. split; [|done]. rewrite <- (rd_rd _ 0 (play_buf_pos st) 0) by nia.
      rewrite Hd. cbn [concat]. rewrite rd_app_l by lia. rewrite <- Hf1. apply rd_all. }
    rewrite Ecan. cbn [mbind option_bind].
    assert (Hpos : 0 <= play_buf_pos st' - frame_size st
      /\ play_buf_pos st' - frame_size st + frame_size st <= zlen (play_buf st')).
    { pose proof Hok' as [_ _ Hb' _ _]. pose proof Hd' as (Ef & _ & EK & _). rewrite Hb', Ef, EK.
      change (frame_size st0) with (frame_size st). change (ec_K st0) with (ec_K st).
      destruct Hbuf as [(_ & -> & _)|(_ & -> & _)].
      - change (play_buf_pos st0) with (play_buf_pos st). nia.
      - change (frame_size st0) with (frame_size st). unfold PLAYBACK_DELAY. nia. }
    rewrite shift_play by lia. cbn [mbind option_bind].
    assert (Efs : frame_size st = frame_size st') by by destruct Hd'.
    rewrite Efs. eexists _, _, (Some f). destruct Hbuf as [(Eb & Ep & Es)|(Eb & Ep & Es)].
    + destruct (shift_holds st' true f fr Hok') as [Hok2 Hh2].
      { split; cbn [q_started q_frames]; rewrite ?Eb, ?Ep;
          [exact Es|by rewrite Hz, <- Efs|exact Hd|rewrite <- Efs; by constructor|lia]. }
      exists (mk_queue true fr). split; [done|]. split; [constructor|]. split; [done|]. done.
    + destruct (shift_holds st' false (zrep (frame_size st) 0) [zrep (frame_size st) 0] Hok') as [Hok2 Hh2].
      { rewrite Efs. change (frame_size st0) with (frame_size st) in *. rewrite Efs in *.
        by eapply holds_reset; [lia|..]. }
      exists (mk_queue false [zrep (frame_size st) 0]). split; [done|]. split; [rewrite <- Efs; constructor|]. done.
Qed.


Lemma call_refines st q c :
  echo_ok st -> holds st q -> call_fits st c ->
  exists st' out' far q', exec_call st c = Some (st', out')
    /\ queue_step (frame_size st) q c far q' /\ call_gives st c far out'
    /\ echo_ok st' /\ holds st' q' /\ same_dims st st'.
Proof.
  intros Hok Hh Hc. destruct c as [play|rec out]; cbn [exec_call call_fits call_gives] in *.
  - destruct (playback_refines st q play Hok Hh Hc) as (st' & q' & -> & Hq & Hok' & Hh' & Hd). cbn. eauto 10.
  - destruct Hc as (Hr & Ho & Hi). destruct (capture_refines st q rec out Hok Hh) as (st' & out' & far & q' & E).
    2: { exists st', out', far, q'. tauto. }
    pose proof Hok as [[] _ Hb _ _]. split; [done|]. rewrite Hb, Ho. split; [nia|done].
Qed.


(** Any sequence of calls runs, and its states follow a run of the queue. *)
Theorem echo_calls_follow_queue st q cs :
  echo_ok st -> holds st q -> Forall (call_fits st) cs ->
  exists st' outs fars q', exec_calls st cs = Some (st', outs)
    /\ queue_run (frame_size st) q cs fars q' /\ echo_ok st' /\ holds st' q'.
Proof.
  intros Hok Hh Hcs. revert st q Hok Hh Hcs.
  induction cs as [|c cs IH]; intros st q Hok Hh Hcs; cbn [exec_calls].
  { exists st, [], [], q. split; [done|]. split; [constructor|]. done. }
  destruct (call_refines st q c Hok Hh (Forall_inv Hcs)) as (st1 & out & far & q1 & -> & Hq & _ & Hok1 & Hh1 & Hd).
  cbn [mbind option_bind]. pose proof Hd as (Ef & EC & _).
  destruct (IH st1 q1 Hok1 Hh1) as (st' & outs & fars & q' & E & Hr & H').
  { refine (Forall_impl _ _ (Forall_inv_tail Hcs)). intros []; cbn; by rewrite ?Ef, ?EC. }
  rewrite E. exists st', (out :: outs), (far :: fars), q'. split; [done|]. split; [|exact H'].
  rewrite Ef in Hr. econstructor; [exact Hq|exact Hr].
Qed.
End fifo.
