(* ===== verification/Filterbank.v ===== *)
(** * SpeexDSP: the filter bank (filterbank.c)

    Triangular filters on the Bark scale: every frequency bin belongs to two neighbouring
    bands.  The arrays of the bank do not change after its creation and are lists; the
    spectra are arrays of the caller's memory. *)
From Stdlib Require Import ZArith Lia Bool SpecFloat.
From stdpp Require Import base numbers list option.
From S2P Require Import Prelude CFloat Loops FloatBlocks SpeexArith.

Local Open Scope Z_scope.
Local Open Scope cfloat_scope.

Record FilterBank := mk_bank {
  bank_left : list Z;
  bank_right : list Z;
  filter_left : list spec_float;
  filter_right : list spec_float;
  scaling : list spec_float;
  nb_banks : Z;
  bank_len : Z }.

#[local] Abbreviation int := f32_of_Z.

(** ** Creation *)

(** The four arrays indexed by bin, and the scaling: [(id1, id2, 1 - val, val)]. *)
Definition bin : Type := Z * Z * spec_float * spec_float.

Section new.
Context `{SpeexLibm}.

(** [toBARK]: a [double], stored in a [float] by every use. *)
Definition toBARK (n : spec_float) : spec_float :=
  flt (dbl (f32_lit 131 10) *d c_atan (dbl (f32_lit 74 100000 *f n))
       +d dbl (f32_lit 224 100) *d c_atan (dbl (n *f n *f f32_lit 185 (10 ^ 10)))
       +d dbl (f32_lit 1 10000 *f n)).

(** The turn for bin [i]; [None] is the [break]. *)
Definition bark_bin (banks : Z) (df max_mel mel_interval : spec_float) (i : Z) : option bin :=
  let curr_freq := int i *f df in
  let mel := toBARK curr_freq in
  if max_mel <. mel then None
  else
    let id := int32_of_f32 (f64_floor (dbl (mel /f mel_interval))) in
    let '(id1, v) :=
      if id >? banks - 2 then (banks - 2, int 1)
      else (id, (mel -f int id *f mel_interval) /f mel_interval) in
    Some (id1, id1 + 1, int 1 -f v, v).

(** The bins that come after a [break] keep the zeros of the allocation. *)
Fixpoint bark_bins (n : nat) (i banks : Z) (df max_mel mel_interval : spec_float) : list bin :=
  match n with
  | O => []
  | S n' =>
      match bark_bin banks df max_mel mel_interval i with
      | None => replicate n (0, 0, f32_zero, f32_zero)
      | Some b => b :: bark_bins n' (i + 1) banks df max_mel mel_interval
      end
  end.

(** [l[i] += x] *)
Definition add_at (l : list spec_float) (i : Z) (x : spec_float) : option (list spec_float) :=
  v ← at_index l i; set_index l i (v +f x).

Definition bank_scaling (banks : Z) (bins : list bin) : option (list spec_float) :=
  sums ← fold_left (fun s '(id1, id2, wl, wr) =>
      sc ← s; sc ← add_at sc id1 wl; add_at sc id2 wr)
    bins (Some (zrep banks f32_zero));
  Some (map (fun s => int 1 /f s) sums).

(** [type] is not used. *)
Definition filterbank_new (banks : Z) (sampling : spec_float) (len : Z) : option FilterBank :=
  let df := sampling /f (int 2 *f int len) in
  let max_mel := toBARK (sampling /f int 2) in
  let mel_interval := max_mel /f int (banks - 1) in
  let bins := bark_bins (Z.to_nat len) 0 banks df max_mel mel_interval in
  sc ← bank_scaling banks bins;
  Some (mk_bank (map (fun b => b.1.1.1) bins) (map (fun b => b.1.1.2) bins)
                (map (fun b => b.1.2) bins) (map snd bins) sc banks len).
End new.

(** ** From bins to bands and back *)

Section compute.
Context {B : Type} `{BlockName B} (bank : FilterBank).
#[local] Abbreviation pointer := (ptr B).

(** The two bands of a bin, with their weights. *)
Definition left_of (i : Z) : sigM (Z * spec_float) :=
  sig_opt (id ← at_index (bank_left bank) i; w ← at_index (filter_left bank) i; Some (id, w)).
Definition right_of (i : Z) : sigM (Z * spec_float) :=
  sig_opt (id ← at_index (bank_right bank) i; w ← at_index (filter_right bank) i; Some (id, w)).

Definition accumulate_bank (ps mel : pointer) : sigM unit :=
  (for_sig 0 (nb_banks bank) (fun i => stp mel i (int 0));;
   for_sig 0 (bank_len bank) (fun i =>
     let* (id, w) := left_of i in
     let* p := ldp ps i in let* m := ldp mel id in
     stp mel id (m +f w *f p);;
     let* (id, w) := right_of i in
     let* p := ldp ps i in let* m := ldp mel id in
     stp mel id (m +f w *f p)))%sig.

Definition filterbank_compute_bank32 (ps mel : pointer) : sigM unit := accumulate_bank ps mel.

Definition filterbank_compute_psd16 (mel ps : pointer) : sigM unit :=
  for_sig 0 (bank_len bank) (fun i =>
    (let* (id1, w1) := left_of i in
     let* (id2, w2) := right_of i in
     let* m1 := ldp mel id1 in let* m2 := ldp mel id2 in
     stp ps i (m1 *f w1 +f m2 *f w2))%sig).

Definition filterbank_compute_bank (ps mel : pointer) : sigM unit :=
  (accumulate_bank ps mel;;
   for_sig 0 (nb_banks bank) (fun i =>
     let* s := sig_opt (at_index (scaling bank) i) in
     let* m := ldp mel i in stp mel i (m *f s)))%sig.

Definition filterbank_compute_psd (mel ps : pointer) : sigM unit :=
  for_sig 0 (bank_len bank) (fun i =>
    (let* (id, w) := left_of i in
     let* m := ldp mel id in
     stp ps i (m *f w);;
     let* (id, w) := right_of i in
     let* p := ldp ps i in let* m := ldp mel id in
     stp ps i (p +f m *f w))%sig).

(** [bark] is the local array [float bark[100]]. *)
Definition filterbank_psy_smooth (bark ps mask : pointer) : sigM unit :=
  (let decay_low := f32_lit 34145 100000 in
   let decay_high := f32_lit 50119 100000 in
   filterbank_compute_bank ps bark;;
   for_sig 1 (nb_banks bank) (fun i =>
     let* b := ldp bark i in let* b1 := ldp bark (i - 1) in
     stp bark i (b +f decay_high *f b1));;
   for_sig 0 (nb_banks bank - 1) (fun k =>
     let i := nb_banks bank - 2 - k in
     let* b := ldp bark i in let* b1 := ldp bark (i + 1) in
     stp bark i (b +f decay_low *f b1));;
   filterbank_compute_psd bark mask)%sig.
End compute.

(** ** Consistency *)

(** One weight per bin; the bands exist. *)
Record bank_ok (bank : FilterBank) (banks len : Z) : Prop := {
  bk_nb : nb_banks bank = banks;
  bk_len : bank_len bank = len;
  bk_pos : 0 <= len;
  bk_left : zlen (bank_left bank) = len;
  bk_right : zlen (bank_right bank) = len;
  bk_fleft : zlen (filter_left bank) = len;
  bk_fright : zlen (filter_right bank) = len;
  bk_scaling : zlen (scaling bank) = banks;
  bk_ids : Forall (fun id => 0 <= id < banks) (bank_left bank);
  bk_ids' : Forall (fun id => 0 <= id < banks) (bank_right bank) }.

Lemma length_bark_bins `{SpeexLibm} n i banks df mm mi : length (bark_bins n i banks df mm mi) = n.
Proof.
  revert i. induction n as [|n IH]; intros i; cbn [bark_bins]; [done|].
  destruct (bark_bin _ _ _ _ _); [|apply length_replicate]. cbn [length]. by rewrite IH.
Qed.

Lemma add_at_spec l i x l' : add_at l i x = Some l' -> 0 <= i < zlen l /\ zlen l' = zlen l.
Proof.
  unfold add_at. destruct (at_index l i) as [v|] eqn:E; [|done]. apply at_index_range in E.
  cbn. rewrite set_index_some by done. intros [= <-]. split; [done|]. apply zlen_insert.
Qed.

Lemma fold_left_none {A C} (f : A -> C -> option A) l : fold_left (fun s c => a ← s; f a c) l None = None.
Proof. by induction l. Qed.

(** Computing the scaling visits the bands of every bin. *)
Lemma scaling_ids bins : forall sc sc',
  fold_left (fun s '(id1, id2, wl, wr) => sc ← s; sc ← add_at sc id1 wl; add_at sc id2 wr)
    bins (Some sc) = Some sc' ->
  zlen sc' = zlen sc /\ Forall (fun b : bin => 0 <= b.1.1.1 < zlen sc /\ 0 <= b.1.1.2 < zlen sc) bins.
Proof.
  induction bins as [|[[[id1 id2] wl] wr'] bins IH]; intros sc sc'; cbn [fold_left].
  { intros [= <-]. split; [done|constructor]. }
  cbn [mbind option_bind]. intros E.
  destruct (add_at sc id1 wl) as [sc1|] eqn:E1; cbn [mbind option_bind] in E.
  - destruct (add_at sc1 id2 wr') as [sc2|] eqn:E2.
    + apply IH in E as [E F]. apply add_at_spec in E1 as [H1 L1]. apply add_at_spec in E2 as [H2 L2].
      split; [congruence|]. constructor; [cbn; lia|]. by rewrite <- L1, <- L2.
    + exfalso. clear -E. induction bins as [|[[[? ?] ?] ?] bins IH]; [done|by apply IH].
  - exfalso. clear -E. induction bins as [|[[[? ?] ?] ?] bins IH]; [done|by apply IH].
Qed.

Lemma filterbank_new_ok `{SpeexLibm} banks sampling len bank :
  0 <= banks -> 0 <= len -> filterbank_new banks sampling len = Some bank -> bank_ok bank banks len.
Proof.
  intros Hb Hl. unfold filterbank_new, bank_scaling.
  set (bins := bark_bins _ _ _ _ _ _).
  assert (Hn : zlen bins = len) by (unfold zlen, bins; rewrite length_bark_bins; lia). clearbody bins.
  destruct (fold_left _ _ _) as [sums|] eqn:E; [|done]. cbn. intros [= <-].
  apply scaling_ids in E as [Es F]. rewrite zlen_zrep in Es, F by done.
  split; cbn; rewrite ?zlen_map; try done; apply Forall_map; eapply List.Forall_impl; [|exact F| |exact F]; by intros ? [].
Qed.

(** ** Safety *)

Section safety.
Context {B : Type} `{BlockName B} (sz : nat -> Z) (blocks : nat).
Context (Hnames : forall b : B, (block_index b < blocks)%nat).
Context (bank : FilterBank) (banks len : Z) (Hbank : bank_ok bank banks len).
#[local] Abbreviation safe := (FloatBlocks.safe sz blocks).
#[local] Abbreviation room := (FloatBlocks.room sz).

Lemma left_spec i : 0 <= i < len -> safe (left_of bank i) (fun p => 0 <= p.1 < banks).
Proof using Hbank.
  intros Hi. pose proof Hbank as [_ _ _ Hl _ Hf _ _ Hids _]. apply safe_opt.
  destruct (at_index_some (bank_left bank) i) as [id E]; [lia|].
  destruct (at_index_some (filter_left bank) i) as [w Ew]; [lia|].
  exists (id, w). rewrite E, Ew. split; [done|]. unfold at_index in E. case_match; [|done].
  eapply Forall_lookup_1 in E; [|exact Hids]. exact E.
Qed.

Lemma right_spec i : 0 <= i < len -> safe (right_of bank i) (fun p => 0 <= p.1 < banks).
Proof using Hbank.
  intros Hi. pose proof Hbank as [_ _ _ _ Hl _ Hf _ _ Hids]. apply safe_opt.
  destruct (at_index_some (bank_right bank) i) as [id E]; [lia|].
  destruct (at_index_some (filter_right bank) i) as [w Ew]; [lia|].
  exists (id, w). rewrite E, Ew. split; [done|]. unfold at_index in E. case_match; [|done].
  eapply Forall_lookup_1 in E; [|exact Hids]. exact E.
Qed.

(** Loads and stores of the band arrays and of the spectra. *)
Ltac step_left i := eapply safe_bind; [apply (left_spec i); lia|]; intros [?id ?w] ?Hid; cbn [fst] in *.
Ltac step_right i := eapply safe_bind; [apply (right_spec i); lia|]; intros [?id ?w] ?Hid; cbn [fst] in *.
Ltac step_ld := eapply safe_bind; [eapply safe_ldp; [done|done|lia]|]; intros ? _; cbv beta.
Ltac step_st := eapply safe_bind; [eapply safe_stp; [done|done|lia]|]; intros _ _; cbv beta.
Ltac last_st := eapply safe_stp; [done|done|lia].

Lemma safe_accumulate ps mel : room ps len -> room mel banks -> safe (accumulate_bank bank ps mel) (fun _ => True).
Proof using Hbank Hnames.
  intros Hps Hmel. pose proof Hbank as [Hnb Hlen Hpos _ _ _ _ _ _ _].
  unfold accumulate_bank. rewrite Hnb, Hlen. eapply safe_bind; [apply safe_for_sig; intros k Hk; last_st|].
  intros _ _. apply safe_for_sig. intros k Hk. step_left k. step_ld. step_ld. step_st.
  step_right k. step_ld. step_ld. last_st.
Qed.

Lemma safe_psd16 mel ps : room mel banks -> room ps len -> safe (filterbank_compute_psd16 bank mel ps) (fun _ => True).
Proof using Hbank Hnames.
  intros Hmel Hps. pose proof Hbank as [Hnb Hlen Hpos _ _ _ _ _ _ _].
  unfold filterbank_compute_psd16. rewrite Hlen. apply safe_for_sig. intros k Hk.
  step_left k. step_right k. step_ld. step_ld. last_st.
Qed.
End safety.
