(* ===== verification/Preprocess.v ===== *)
(** * SpeexDSP: the state of the preprocessor (preprocess.c)

    [SpeexPreprocessState] with its creation and the requests of [speex_preprocess_ctl], and
    the helpers that compute one number.  As for the echo canceller, the [int] and [float]
    members are members of a record and the arrays of [float] are the arrays of a memory,
    named by [pre_block]; [update_prob] is an array of [int]. *)
From Stdlib Require Import ZArith Lia Bool SpecFloat.
From stdpp Require Import base numbers list option.
From coqutil Require Import Datatypes.RecordSetters.
From S2P Require Import Prelude CFloat Loops FloatBlocks SpeexArith Filterbank EchoState.
Import DoubleBraceUpdate.

Local Open Scope Z_scope.
Local Open Scope cfloat_scope.

#[local] Abbreviation int := f32_of_Z.

Definition LOUDNESS_EXP : spec_float := f32_of_Z 5.
Definition AMP_SCALE : spec_float := f32_lit 1 1000.
Definition NB_BANDS : Z := 24.
Definition SPEECH_PROB_START_DEFAULT : spec_float := f32_lit 35 100.
Definition SPEECH_PROB_CONTINUE_DEFAULT : spec_float := f32_lit 20 100.
Definition NOISE_SUPPRESS_DEFAULT : Z := -15.
Definition ECHO_SUPPRESS_DEFAULT : Z := -40.
Definition ECHO_SUPPRESS_ACTIVE_DEFAULT : Z := -15.

(** ** The state *)

Inductive pre_block :=
| p_frame | p_ft | p_ps | p_gain2 | p_gain_floor | p_window | p_noise | p_reverb_estimate
| p_old_ps | p_gain | p_prior | p_post | p_S | p_Smin | p_Stmp | p_zeta | p_echo_noise
| p_residual_echo | p_inbuf | p_outbuf | p_loudness_weight.

Definition pre_blocks : list pre_block :=
  [p_frame; p_ft; p_ps; p_gain2; p_gain_floor; p_window; p_noise; p_reverb_estimate;
   p_old_ps; p_gain; p_prior; p_post; p_S; p_Smin; p_Stmp; p_zeta; p_echo_noise;
   p_residual_echo; p_inbuf; p_outbuf; p_loudness_weight].

#[export] Instance pre_block_name : BlockName pre_block := fun b =>
  match b with
  | p_frame => 0 | p_ft => 1 | p_ps => 2 | p_gain2 => 3 | p_gain_floor => 4 | p_window => 5
  | p_noise => 6 | p_reverb_estimate => 7 | p_old_ps => 8 | p_gain => 9 | p_prior => 10
  | p_post => 11 | p_S => 12 | p_Smin => 13 | p_Stmp => 14 | p_zeta => 15 | p_echo_noise => 16
  | p_residual_echo => 17 | p_inbuf => 18 | p_outbuf => 19 | p_loudness_weight => 20
  end%nat.

(** The sizes given to [speex_alloc]. *)
Definition pre_size (N N3 M : Z) (b : pre_block) : Z :=
  match b with
  | p_frame | p_ft | p_window => 2 * N
  | p_S | p_Smin | p_Stmp | p_loudness_weight => N
  | p_inbuf | p_outbuf => N3
  | _ => N + M
  end.

(** [echo_state] tells whether the pointer is set; what it points to is an argument of the
    functions that use it. *)
Record SpeexPreprocessState := mk_pre {
  pp_frame_size : Z;
  ps_size : Z;
  pp_sampling_rate : Z;
  nbands : Z;
  bank : FilterBank;
  denoise_enabled : Z;
  vad_enabled : Z;
  dereverb_enabled : Z;
  reverb_decay : spec_float;
  reverb_level : spec_float;
  speech_prob_start : spec_float;
  speech_prob_continue : spec_float;
  noise_suppress : Z;
  echo_suppress : Z;
  echo_suppress_active : Z;
  echo_state : bool;
  speech_prob : spec_float;
  pp_mem : list (list spec_float);
  update_prob : list Z;
  agc_enabled : Z;
  agc_level : spec_float;
  loudness_accum : spec_float;
  loudness : spec_float;
  agc_gain : spec_float;
  max_gain : spec_float;
  max_increase_step : spec_float;
  max_decrease_step : spec_float;
  prev_loudness : spec_float;
  init_max : spec_float;
  nb_adapt : Z;
  was_speech : Z;
  min_count : Z }.

Definition pp_N3 (st : SpeexPreprocessState) : Z := 2 * ps_size st - pp_frame_size st.
Definition pp_N4 (st : SpeexPreprocessState) : Z := pp_frame_size st - pp_N3 st.

Section preprocess.
Context `{SpeexLibm}.

(** [(int)x], [(spx_int32_t)x] of a [double]. *)
Definition int32_of_f64 (x : spec_float) : Z := int32_of_f32 x.

(** ** Numbers *)

Definition hypergeom_table : list spec_float :=
  map (fun v => f32_lit v 100000)
    [82157; 102017; 120461; 137534; 153363; 168092; 181865; 194811; 207038; 218638; 229688;
     240255; 250391; 260144; 269551; 278647; 287458; 296015; 304333; 312431; 320326].

Definition hypergeom_gain (xx : spec_float) : option spec_float :=
  let x := int 1 *f xx in
  let integer := flt (f64_floor (dbl (int 2 *f x))) in
  let ind := int32_of_f32 integer in
  if ind <? 0 then Some (int 1)
  else if ind >? 19
  then Some (flt (f64_of_Z 1 *d (f64_of_Z 1 +d f64_lit 1296 10000 /d dbl x)))
  else
    let frac := int 2 *f x -f integer in
    t0 ← at_index hypergeom_table ind;
    t1 ← at_index hypergeom_table (ind + 1);
    Some (flt (dbl (int 1 *f ((int 1 -f frac) *f t0 +f frac *f t1))
               /d spx_sqrt (dbl (x +f f32_lit 1 10000)))).

Definition qcurve (x : spec_float) : spec_float :=
  int 1 /f (int 1 +f f32_lit 15 100 /f (int 1 *f x)).

(** One turn of the loop of [conj_window]. *)
Definition conj_window_at (len i : Z) : spec_float :=
  let x := (int 4 *f int i) /f int len in
  let '(x, inv) :=
    if x <. int 1 then (x, false)
    else if x <. int 2 then (int 2 -f x, true)
    else if x <. int 3 then (x -f int 2, true)
    else (int 2 -f x +f int 2, false) in
  let x := f32_lit 1271903 1000000 *f x in
  let half := dbl (f32_lit 1 2) in
  let c := half -d half *d c_cos ((half *d M_PI) *d dbl x) in
  let tmp := flt (c *d c) in
  let tmp := if inv then int 1 -f tmp else tmp in
  flt (spx_sqrt (dbl tmp)).

Definition conj_window (len : Z) : sigM unit :=
  for_sig 0 len (fun i => st_f p_window i (conj_window_at len i)).

(** [noise], [echo] and [gain_floor] are the parts of the arrays from [off] on. *)
Definition compute_gain_floor (noise_suppress effective_echo_suppress off len : Z) : sigM unit :=
  (let noise_floor := flt (c_exp (dbl (f32_lit 2302585 10000000 *f int noise_suppress))) in
   let echo_floor := flt (c_exp (dbl (f32_lit 2302585 10000000 *f int effective_echo_suppress))) in
   for_sig 0 len (fun i =>
     let* n := ld_f p_noise (off + i) in let* e := ld_f p_echo_noise (off + i) in
     st_f p_gain_floor (off + i)
       (flt (dbl (int 1) *d spx_sqrt (dbl (noise_floor *f n +f echo_floor *f e))
             /d spx_sqrt (dbl (int 1 +f n +f e))))))%sig.

(** ** Creation *)

(** [b[i] = x] for the first [n] elements. *)
Definition pre_fill (b : pre_block) (n : Z) (x : spec_float) : sigM unit :=
  for_sig 0 n (fun i => st_f b i x).

Definition loudness_weight_at (N sampling_rate i : Z) : spec_float :=
  let ff := flt (dbl (int i) *d f64_lit 1 2 *d f64_of_Z sampling_rate /d dbl (int N)) in
  let d := ff -f int 3800 in
  let w := flt (dbl (f32_lit 35 100 -f f32_lit 35 100 *f ff /f int 16000)
                +d dbl (f32_lit 73 100)
                   *d c_exp (dbl (SFopp (f32_lit 1 2) *f d *f d /f int 900000))) in
  let w := if w <. f32_lit 1 100 then f32_lit 1 100 else w in
  w *f w.

Definition pre_init_arrays (fs N M sampling_rate : Z) : sigM unit :=
  (let N3 := 2 * N - fs in
   let N4 := fs - N3 in
   conj_window (2 * N3);;
   for_sig (2 * N3) (2 * N) (fun i => st_f p_window i (int 1));;
   (if N4 >? 0 then
      for_sig 0 N3 (fun k =>
        let i := N3 - 1 - k in
        let* w := ld_f p_window (i + N3) in
        st_f p_window (i + N3 + N4) w;;
        st_f p_window (i + N3) (int 1))
    else sig_ret tt);;
   for_sig 0 (N + M) (fun i =>
     st_f p_noise i (int 1);;
     st_f p_reverb_estimate i (int 0);;
     st_f p_old_ps i (int 1);;
     st_f p_gain i (int 1);;
     st_f p_post i (int 1);;
     st_f p_prior i (int 1));;
   for_sig 0 N3 (fun i => st_f p_inbuf i (int 0);; st_f p_outbuf i (int 0));;
   for_sig 0 N (fun i => st_f p_loudness_weight i (loudness_weight_at N sampling_rate i)))%sig.

(** [exp(0.11513f * 12. * frame_size / sampling_rate)], in [double]. *)
Definition default_step (factor : spec_float) (db frame_size sampling_rate : Z) : spec_float :=
  flt (c_exp (dbl factor *d f64_of_Z db *d f64_of_Z frame_size /d f64_of_Z sampling_rate)).

Definition set_ones (n : Z) (l : list Z) : option (list Z) :=
  for_opt (Z.to_nat n) 0 (fun i l => set_index l i 1) l.

Definition speex_preprocess_state_init (frame_size sampling_rate : Z) : option SpeexPreprocessState :=
  let N := frame_size in
  let N3 := 2 * N - frame_size in
  let M := NB_BANDS in
  bank ← filterbank_new M (int sampling_rate) N;
  blocks ← mapM (fun b => speex_alloc f32_zero 4 (pre_size N N3 M b)) pre_blocks;
  prob ← speex_alloc 0 4 N;
  '(_, mem) ← pre_init_arrays frame_size N M sampling_rate blocks;
  prob ← set_ones N prob;
  Some {| pp_frame_size := frame_size; ps_size := N; pp_sampling_rate := sampling_rate; nbands := M;
          bank := bank; denoise_enabled := 1; vad_enabled := 0; dereverb_enabled := 0;
          reverb_decay := int 0; reverb_level := int 0;
          speech_prob_start := SPEECH_PROB_START_DEFAULT;
          speech_prob_continue := SPEECH_PROB_CONTINUE_DEFAULT;
          noise_suppress := NOISE_SUPPRESS_DEFAULT; echo_suppress := ECHO_SUPPRESS_DEFAULT;
          echo_suppress_active := ECHO_SUPPRESS_ACTIVE_DEFAULT; echo_state := false;
          speech_prob := f32_zero; pp_mem := mem; update_prob := prob;
          agc_enabled := 0; agc_level := int 8000; loudness_accum := f32_zero;
          loudness := flt (f64_lit 1 (10 ^ 15)); agc_gain := int 1; max_gain := int 30;
          max_increase_step := default_step (f32_lit 11513 100000) 12 frame_size sampling_rate;
          max_decrease_step := default_step (SFopp (f32_lit 11513 100000)) 40 frame_size sampling_rate;
          prev_loudness := int 1; init_max := int 1; nb_adapt := 0; was_speech := 0; min_count := 0 |}.

(** ** Requests *)

Inductive pre_request :=
| SET_DENOISE | GET_DENOISE | SET_AGC | GET_AGC | SET_VAD | GET_VAD | SET_AGC_LEVEL | GET_AGC_LEVEL
| SET_DEREVERB | GET_DEREVERB | SET_DEREVERB_LEVEL | GET_DEREVERB_LEVEL | SET_DEREVERB_DECAY
| GET_DEREVERB_DECAY | SET_PROB_START | GET_PROB_START | SET_PROB_CONTINUE | GET_PROB_CONTINUE
| SET_NOISE_SUPPRESS | GET_NOISE_SUPPRESS | SET_ECHO_SUPPRESS | GET_ECHO_SUPPRESS
| SET_ECHO_SUPPRESS_ACTIVE | GET_ECHO_SUPPRESS_ACTIVE | SET_ECHO_STATE | GET_ECHO_STATE
| SET_AGC_INCREMENT | GET_AGC_INCREMENT | SET_AGC_DECREMENT | GET_AGC_DECREMENT | SET_AGC_MAX_GAIN
| GET_AGC_MAX_GAIN | GET_AGC_LOUDNESS | GET_AGC_GAIN | GET_PSD_SIZE | GET_PSD | GET_NOISE_PSD_SIZE
| GET_NOISE_PSD | GET_PROB | SET_AGC_TARGET | GET_AGC_TARGET.

(** The numbers of [speex_preprocess.h]. *)
Definition pre_request_code (r : pre_request) : Z :=
  match r with
  | SET_DENOISE => 0 | GET_DENOISE => 1 | SET_AGC => 2 | GET_AGC => 3 | SET_VAD => 4 | GET_VAD => 5
  | SET_AGC_LEVEL => 6 | GET_AGC_LEVEL => 7 | SET_DEREVERB => 8 | GET_DEREVERB => 9
  | SET_DEREVERB_LEVEL => 10 | GET_DEREVERB_LEVEL => 11 | SET_DEREVERB_DECAY => 12
  | GET_DEREVERB_DECAY => 13 | SET_PROB_START => 14 | GET_PROB_START => 15 | SET_PROB_CONTINUE => 16
  | GET_PROB_CONTINUE => 17 | SET_NOISE_SUPPRESS => 18 | GET_NOISE_SUPPRESS => 19
  | SET_ECHO_SUPPRESS => 20 | GET_ECHO_SUPPRESS => 21 | SET_ECHO_SUPPRESS_ACTIVE => 22
  | GET_ECHO_SUPPRESS_ACTIVE => 23 | SET_ECHO_STATE => 24 | GET_ECHO_STATE => 25
  | SET_AGC_INCREMENT => 26 | GET_AGC_INCREMENT => 27 | SET_AGC_DECREMENT => 28
  | GET_AGC_DECREMENT => 29 | SET_AGC_MAX_GAIN => 30 | GET_AGC_MAX_GAIN => 31
  | GET_AGC_LOUDNESS => 33 | GET_AGC_GAIN => 35 | GET_PSD_SIZE => 37 | GET_PSD => 39
  | GET_NOISE_PSD_SIZE => 41 | GET_NOISE_PSD => 43 | GET_PROB => 45 | SET_AGC_TARGET => 46
  | GET_AGC_TARGET => 47
  end.

Definition pre_requests : list pre_request :=
  [SET_DENOISE; GET_DENOISE; SET_AGC; GET_AGC; SET_VAD; GET_VAD; SET_AGC_LEVEL; GET_AGC_LEVEL;
   SET_DEREVERB; GET_DEREVERB; SET_DEREVERB_LEVEL; GET_DEREVERB_LEVEL; SET_DEREVERB_DECAY;
   GET_DEREVERB_DECAY; SET_PROB_START; GET_PROB_START; SET_PROB_CONTINUE; GET_PROB_CONTINUE;
   SET_NOISE_SUPPRESS; GET_NOISE_SUPPRESS; SET_ECHO_SUPPRESS; GET_ECHO_SUPPRESS;
   SET_ECHO_SUPPRESS_ACTIVE; GET_ECHO_SUPPRESS_ACTIVE; SET_ECHO_STATE; GET_ECHO_STATE;
   SET_AGC_INCREMENT; GET_AGC_INCREMENT; SET_AGC_DECREMENT; GET_AGC_DECREMENT; SET_AGC_MAX_GAIN;
   GET_AGC_MAX_GAIN; GET_AGC_LOUDNESS; GET_AGC_GAIN; GET_PSD_SIZE; GET_PSD; GET_NOISE_PSD_SIZE;
   GET_NOISE_PSD; GET_PROB; SET_AGC_TARGET; GET_AGC_TARGET].

Definition pre_request_of (code : Z) : option pre_request :=
  List.find (fun r => pre_request_code r =? code) pre_requests.

(** What [ptr] points to. *)
Inductive pre_arg :=
| arg_int (v : Z)
| arg_float (v : spec_float)
| arg_echo (set : bool)
| arg_psd (l : list Z).

(** [-ABS(v)] of an [int]: the negation of the smallest [int] is undefined. *)
Definition neg_abs (v : Z) : option Z := if v =? - 2 ^ 31 then None else Some (- Z.abs v).

(** [exp(0.11513f * v * frame_size / sampling_rate)], in [float]. *)
Definition step_of (st : SpeexPreprocessState) (v : Z) : spec_float :=
  flt (c_exp (dbl (f32_lit 11513 100000 *f int v *f int (pp_frame_size st) /f int (pp_sampling_rate st)))).

(** [floor(.5 + 8.6858 * log(step) * sampling_rate / frame_size)] *)
Definition db_of_step (st : SpeexPreprocessState) (step : spec_float) : Z :=
  int32_of_f64 (f64_floor (f64_lit 1 2 +d f64_lit 86858 10000 *d c_log (dbl step)
    *d f64_of_Z (pp_sampling_rate st) /d f64_of_Z (pp_frame_size st))).

Definition db_of_gain (gain : spec_float) : Z :=
  int32_of_f64 (f64_floor (f64_lit 1 2 +d f64_lit 86858 10000 *d c_log (dbl gain))).

(** [st->agc_level = v] with its limits. *)
Definition clamp_level (v : spec_float) : spec_float :=
  let v := if v <. int 1 then int 1 else v in
  if int 32768 <. v then int 32768 else v.

Definition percent (v : Z) : Z := Z.min 100 (Z.max 0 v).
Definition prob_of (v : Z) : spec_float := (int 1 *f int v) /f int 100.
Definition percent_of (p : spec_float) : Z := int32_of_f32 (p *f int 100).

(** [(spx_int32_t)b[i]] for the bins of the spectrum. *)
Definition psd_of (st : SpeexPreprocessState) (b : pre_block) : option (list Z) :=
  l ← pp_mem st !! block_index b;
  l ← part l 0 (ps_size st);
  Some (map int32_of_f32 l).

(** A request on [st] with what [ptr] points to: the state and what [ptr] points to after
    it. *)
Definition pre_handle (st : SpeexPreprocessState) (r : pre_request) (a : pre_arg)
    : option (SpeexPreprocessState * pre_arg) :=
  match r, a with
  | SET_DENOISE, arg_int v => Some (st {{ denoise_enabled := v }}, a)
  | GET_DENOISE, _ => Some (st, arg_int (denoise_enabled st))
  | SET_AGC, arg_int v => Some (st {{ agc_enabled := v }}, a)
  | GET_AGC, _ => Some (st, arg_int (agc_enabled st))
  | SET_AGC_LEVEL, arg_float v => Some (st {{ agc_level := clamp_level v }}, a)
  | GET_AGC_LEVEL, _ => Some (st, arg_float (agc_level st))
  | SET_AGC_INCREMENT, arg_int v => Some (st {{ max_increase_step := step_of st v }}, a)
  | GET_AGC_INCREMENT, _ => Some (st, arg_int (db_of_step st (max_increase_step st)))
  | SET_AGC_DECREMENT, arg_int v => Some (st {{ max_decrease_step := step_of st v }}, a)
  | GET_AGC_DECREMENT, _ => Some (st, arg_int (db_of_step st (max_decrease_step st)))
  | SET_AGC_MAX_GAIN, arg_int v =>
      Some (st {{ max_gain := flt (c_exp (dbl (f32_lit 11513 100000 *f int v))) }}, a)
  | GET_AGC_MAX_GAIN, _ => Some (st, arg_int (db_of_gain (max_gain st)))
  | SET_VAD, arg_int v => Some (st {{ vad_enabled := v }}, a)
  | GET_VAD, _ => Some (st, arg_int (vad_enabled st))
  | SET_DEREVERB, arg_int v =>
      '(_, mem) ← pre_fill p_reverb_estimate (ps_size st) (int 0) (pp_mem st);
      Some (st {{ dereverb_enabled := v; pp_mem := mem }}, a)
  | GET_DEREVERB, _ => Some (st, arg_int (dereverb_enabled st))
  | (SET_DEREVERB_LEVEL | GET_DEREVERB_LEVEL | SET_DEREVERB_DECAY | GET_DEREVERB_DECAY), _ => Some (st, a)
  | SET_PROB_START, arg_int v =>
      Some (st {{ speech_prob_start := prob_of (percent v) }}, arg_int (percent v))
  | GET_PROB_START, _ => Some (st, arg_int (percent_of (speech_prob_start st)))
  | SET_PROB_CONTINUE, arg_int v =>
      Some (st {{ speech_prob_continue := prob_of (percent v) }}, arg_int (percent v))
  | GET_PROB_CONTINUE, _ => Some (st, arg_int (percent_of (speech_prob_continue st)))
  | SET_NOISE_SUPPRESS, arg_int v => v ← neg_abs v; Some (st {{ noise_suppress := v }}, a)
  | GET_NOISE_SUPPRESS, _ => Some (st, arg_int (noise_suppress st))
  | SET_ECHO_SUPPRESS, arg_int v => v ← neg_abs v; Some (st {{ echo_suppress := v }}, a)
  | GET_ECHO_SUPPRESS, _ => Some (st, arg_int (echo_suppress st))
  | SET_ECHO_SUPPRESS_ACTIVE, arg_int v => v ← neg_abs v; Some (st {{ echo_suppress_active := v }}, a)
  | GET_ECHO_SUPPRESS_ACTIVE, _ => Some (st, arg_int (echo_suppress_active st))
  | SET_ECHO_STATE, arg_echo b => Some (st {{ echo_state := b }}, a)
  | GET_ECHO_STATE, _ => Some (st, arg_echo (echo_state st))
  | GET_AGC_LOUDNESS, _ =>
      Some (st, arg_int (int32_of_f64 (c_pow (dbl (loudness st)) (f64_of_Z 1 /d dbl LOUDNESS_EXP))))
  | GET_AGC_GAIN, _ => Some (st, arg_int (db_of_gain (agc_gain st)))
  | (GET_PSD_SIZE | GET_NOISE_PSD_SIZE), _ => Some (st, arg_int (ps_size st))
  | GET_PSD, _ => l ← psd_of st p_ps; Some (st, arg_psd l)
  | GET_NOISE_PSD, _ => l ← psd_of st p_noise; Some (st, arg_psd l)
  | GET_PROB, _ => Some (st, arg_int (percent_of (speech_prob st)))
  | SET_AGC_TARGET, arg_int v => Some (st {{ agc_level := clamp_level (int v) }}, a)
  | GET_AGC_TARGET, _ => Some (st, arg_int (int32_of_f32 (agc_level st)))
  | _, _ => None
  end.

Definition speex_preprocess_ctl (st : SpeexPreprocessState) (request : Z) (a : pre_arg)
    : option (Z * SpeexPreprocessState * pre_arg) :=
  match pre_request_of request with
  | None => Some (-1, st, a)
  | Some r => '(st, a) ← pre_handle st r a; Some (0, st, a)
  end.
End preprocess.
