(* ===== verification/PreprocessRun.v ===== *)
(** * SpeexDSP: one frame through the preprocessor (preprocess.c)

    [speex_preprocess_run] in the order of the code: the echo that is left, the spectrum of
    the frame, the noise estimate, the signal-to-noise ratios, the gains of the bands and of
    the bins, the automatic gain control, the synthesis and the voice detection. *)
From Stdlib Require Import ZArith Lia Bool SpecFloat.
From stdpp Require Import base numbers list option.
From coqutil Require Import Datatypes.RecordSetters.
From S2P Require Import Prelude CFloat Loops FloatBlocks SpeexArith Filterbank EchoState EchoCancel Preprocess.
Import DoubleBraceUpdate.

Local Open Scope Z_scope.
Local Open Scope cfloat_scope.

#[local] Abbreviation int := f32_of_Z.

Section run.
Context `{SpeexLibm, Drft}.

Section stages.
Context (st : SpeexPreprocessState).
#[local] Abbreviation N := (ps_size st).
#[local] Abbreviation M := (nbands st).
#[local] Abbreviation fs := (pp_frame_size st).
#[local] Abbreviation N3 := (pp_N3 st).
#[local] Abbreviation N4 := (pp_N4 st).

(** The bands of an array of bins and bands, and the bins of the bands. *)
Definition to_bands (b : pre_block) : sigM unit := filterbank_compute_bank32 (bank st) (b, 0) (b, N).
Definition to_bins (b : pre_block) : sigM unit := filterbank_compute_psd16 (bank st) (b, N) (b, 0).

(** ** Analysis *)

Definition preprocess_analysis (x : list Z) : sigM unit :=
  (for_sig 0 N3 (fun i => let* v := ld_f p_inbuf i in st_f p_frame i v);;
   for_sig 0 fs (fun i => let* v := sig_opt (at_index x i) in st_f p_frame (N3 + i) (int v));;
   for_sig 0 N3 (fun i => let* v := sig_opt (at_index x (N4 + i)) in st_f p_inbuf i (int v));;
   for_sig 0 (2 * N) (fun i =>
     let* f := ld_f p_frame i in let* w := ld_f p_window i in st_f p_frame i (f *f w));;
   let* f := read_p (p_frame, 0) (2 * N) in
   write_p (p_ft, 0) (spx_fft (2 * N) f);;
   let* f0 := ld_f p_ft 0 in
   st_f p_ps 0 (f0 *f f0);;
   for_sig 1 N (fun i =>
     let* a := ld_f p_ft (2 * i - 1) in let* b := ld_f p_ft (2 * i) in
     st_f p_ps i (a *f a +f b *f b));;
   to_bands p_ps)%sig.

(** ** The noise estimate *)

Definition smooth_S : sigM unit :=
  (let c n := f32_lit n 100 in
   for_sig 1 (N - 1) (fun i =>
     let* s := ld_f p_S i in
     let* a := ld_f p_ps (i - 1) in let* b := ld_f p_ps i in let* d := ld_f p_ps (i + 1) in
     st_f p_S i (c 80 *f s +f c 5 *f a +f c 10 *f b +f c 5 *f d));;
   let* s := ld_f p_S 0 in let* p := ld_f p_ps 0 in
   st_f p_S 0 (c 80 *f s +f c 20 *f p);;
   let* s := ld_f p_S (N - 1) in let* p := ld_f p_ps (N - 1) in
   st_f p_S (N - 1) (c 80 *f s +f c 20 *f p))%sig.

(** The number of frames the minimum is taken over. *)
Definition min_range : Z :=
  if nb_adapt st <? 100 then 15
  else if nb_adapt st <? 1000 then 50
  else if nb_adapt st <? 10000 then 150
  else 300.

Definition track_minimum (restart : bool) : sigM unit :=
  (for_sig 0 N (fun i =>
     let* s := ld_f p_S i in
     if restart then
       let* t := ld_f p_Stmp i in
       st_f p_Smin i (MIN32 t s);; st_f p_Stmp i s
     else
       let* m := ld_f p_Smin i in
       st_f p_Smin i (MIN32 m s);;
       let* t := ld_f p_Stmp i in
       st_f p_Stmp i (MIN32 t s)))%sig.

(** [update_prob[i]] for the bins: 1 where speech is likely. *)
Definition speech_bins (prob : list Z) : sigM (list Z) :=
  fold_sig 0 N (fun i prob =>
    (let* s := ld_f p_S i in let* m := ld_f p_Smin i in
     sig_opt (set_index prob i (if m <. f32_lit 4 10 *f s then 1 else 0)))%sig) prob.

(** Gives the state's new [min_count] and [update_prob]. *)
Definition update_noise_prob : sigM SpeexPreprocessState :=
  (smooth_S;;
   (if nb_adapt st =? 1
    then for_sig 0 N (fun i => st_f p_Stmp i (int 0);; st_f p_Smin i (int 0))
    else sig_ret tt);;
   let restart := min_count st >? min_range in
   track_minimum restart;;
   let* prob := speech_bins (update_prob st) in
   sig_ret (st {{ min_count := if restart then 0 else min_count st; update_prob := prob }}))%sig.

(** Every bin that has no speech, or less power than the noise. *)
Definition update_noise (beta beta_1 : spec_float) : sigM unit :=
  (for_sig 0 N (fun i =>
     let* u := sig_opt (at_index (update_prob st) i) in
     let* p := ld_f p_ps i in let* n := ld_f p_noise i in
     if (u =? 0) || (p <. n)
     then st_f p_noise i (MAX32 (int 0) (beta_1 *f n +f beta *f p))
     else sig_ret tt);;
   to_bands p_noise)%sig.

(** ** Residual echo *)

(** A NaN or a ridiculous value shows up in the first element. *)
Definition residual_sane (r : spec_float) : bool := (int 0 <=. r) && (r <. int N *f f32_of_Z (10 ^ 9)).

Definition residual_echo_noise (echo : SpeexEchoState) : sigM SpeexEchoState :=
  (if echo_state st then
     let* r := get_block p_residual_echo in
     let* (echo, r) := sig_opt (speex_echo_get_residual echo r) in
     set_block p_residual_echo r;;
     let* r0 := ld_f p_residual_echo 0 in
     (if residual_sane r0 then sig_ret tt
      else for_sig 0 N (fun i => st_f p_residual_echo i (int 0)));;
     for_sig 0 N (fun i =>
       let* e := ld_f p_echo_noise i in let* r := ld_f p_residual_echo i in
       st_f p_echo_noise i (MAX32 (f32_lit 6 10 *f e) r));;
     to_bands p_echo_noise;;
     sig_ret echo
   else
     for_sig 0 (N + M) (fun i => st_f p_echo_noise i (int 0));;
     sig_ret echo)%sig.

(** ** Signal-to-noise ratios *)

Definition first_old_ps : sigM unit :=
  (if nb_adapt st =? 1
   then for_sig 0 (N + M) (fun i => let* v := ld_f p_ps i in st_f p_old_ps i v)
   else sig_ret tt)%sig.

Definition compute_snr : sigM unit :=
  for_sig 0 (N + M) (fun i =>
    (let* n := ld_f p_noise i in let* e := ld_f p_echo_noise i in let* r := ld_f p_reverb_estimate i in
     let tot_noise := int 1 +f n +f e +f r in
     let* p := ld_f p_ps i in
     st_f p_post i (p /f tot_noise -f int 1);;
     let* v := ld_f p_post i in
     st_f p_post i (MIN32 v (int 100));;
     let* old := ld_f p_old_ps i in
     let ratio := old /f (old +f tot_noise) in
     let gamma := f32_lit 1 10 +f f32_lit 89 100 *f (ratio *f ratio) in
     let* post := ld_f p_post i in
     st_f p_prior i (gamma *f MAX32 (int 0) post +f (int 1 -f gamma) *f (old /f tot_noise));;
     let* v := ld_f p_prior i in
     st_f p_prior i (MIN32 v (int 100)))%sig).

Definition smooth_zeta : sigM unit :=
  (let c n := f32_lit n 1000 in
   let* z := ld_f p_zeta 0 in let* p := ld_f p_prior 0 in
   st_f p_zeta 0 (c 700 *f z +f c 300 *f p);;
   for_sig 1 (N - 1) (fun i =>
     let* z := ld_f p_zeta i in let* p := ld_f p_prior i in
     let* a := ld_f p_prior (i - 1) in let* b := ld_f p_prior (i + 1) in
     st_f p_zeta i (c 700 *f z +f c 150 *f p +f c 75 *f a +f c 75 *f b));;
   for_sig (N - 1) (N + M) (fun i =>
     let* z := ld_f p_zeta i in let* p := ld_f p_prior i in
     st_f p_zeta i (c 700 *f z +f c 300 *f p)))%sig.

(** [Pframe]: the probability of speech in the frame. *)
Definition frame_probability : sigM spec_float :=
  (let* Zframe := fold_sig N (N + M) (fun i z =>
     let* v := ld_f p_zeta i in sig_ret (z +f v)) (int 0) in
   sig_ret (f32_lit 1 10 +f f32_lit 899 1000 *f qcurve (Zframe /f int M)))%sig.

Definition effective_echo (Pframe : spec_float) : spec_float :=
  (int 1 -f Pframe) *f int (echo_suppress st) +f Pframe *f int (echo_suppress_active st).

(** ** Gains *)

(** [prior_ratio] and [theta] of bin or band [i], and the gain bounded by 1. *)
Definition em_gain (i : Z) : sigM (spec_float * spec_float) :=
  (let* prior := ld_f p_prior i in
   let prior_ratio := prior /f (prior +f int 1) in
   let* post := ld_f p_post i in
   let theta := prior_ratio *f (int 1 +f post) in
   let* MM := sig_opt (hypergeom_gain theta) in
   sig_ret (theta, MIN32 (int 1) (prior_ratio *f MM)))%sig.

(** [old_ps[i] = .2 * old_ps[i] + .8 * gain[i]^2 * ps[i]] *)
Definition save_old_ps (i : Z) : sigM unit :=
  (let* old := ld_f p_old_ps i in let* g := ld_f p_gain i in let* p := ld_f p_ps i in
   st_f p_old_ps i (f32_lit 2 10 *f old +f f32_lit 8 10 *f (g *f g) *f p))%sig.

Definition band_gains (Pframe : spec_float) : sigM unit :=
  for_sig N (N + M) (fun i =>
    (let* (theta, g) := em_gain i in
     st_f p_gain i g;;
     save_old_ps i;;
     let* zeta := ld_f p_zeta i in
     let P1 := f32_lit 199 1000 +f f32_lit 8 10 *f qcurve zeta in
     let q := int 1 -f Pframe *f P1 in
     let* prior := ld_f p_prior i in
     st_f p_gain2 i
       (flt (f64_of_Z 1 /d (dbl (int 1) +d dbl (q /f (int 1 -f q) *f (int 1 +f prior))
                                          *d c_exp (dbl (SFopp theta))))))%sig).

Definition sqrt_f (x : spec_float) : spec_float := spx_sqrt (dbl x).

Definition bin_gains : sigM unit :=
  for_sig 0 N (fun i =>
    (let* (_, g) := em_gain i in
     let* p := ld_f p_gain2 i in
     let* band := ld_f p_gain i in
     let g := if band <. f32_lit 333 1000 *f g then int 3 *f band else g in
     st_f p_gain i g;;
     save_old_ps i;;
     let* g := ld_f p_gain i in let* floor := ld_f p_gain_floor i in
     (if g <. floor then st_f p_gain i floor else sig_ret tt);;
     let* g := ld_f p_gain i in
     let tmp := flt (dbl p *d sqrt_f g +d dbl (int 1 -f p) *d sqrt_f floor) in
     st_f p_gain2 i (tmp *f tmp))%sig).

Definition compute_gains (Pframe : spec_float) : sigM unit :=
  (compute_gain_floor (noise_suppress st) (int32_of_f32 (effective_echo Pframe)) N M;;
   band_gains Pframe;;
   to_bins p_gain2;;
   to_bins p_gain;;
   to_bins p_gain_floor;;
   bin_gains;;
   (if denoise_enabled st =? 0 then for_sig 0 (N + M) (fun i => st_f p_gain2 i (int 1)) else sig_ret tt))%sig.

Definition apply_gains : sigM unit :=
  (for_sig 1 N (fun i =>
     let* g := ld_f p_gain2 i in
     let* a := ld_f p_ft (2 * i - 1) in st_f p_ft (2 * i - 1) (g *f a);;
     let* b := ld_f p_ft (2 * i) in st_f p_ft (2 * i) (g *f b));;
   let* g := ld_f p_gain2 0 in let* a := ld_f p_ft 0 in st_f p_ft 0 (g *f a);;
   let* g := ld_f p_gain2 (N - 1) in let* a := ld_f p_ft (2 * N - 1) in st_f p_ft (2 * N - 1) (g *f a))%sig.

(** ** Automatic gain control *)

Definition frame_loudness : sigM spec_float :=
  (let* sum := fold_sig 2 N (fun i sum =>
     let* p := ld_f p_ps i in let* w := ld_f p_loudness_weight i in
     sig_ret (sum +f int 2 *f int N *f p *f w)) (int 1) in
   sig_ret (flt (sqrt_f sum)))%sig.

(** The long-term loudness, updated in frames with speech. *)
Definition track_loudness (Pframe frame : spec_float) : SpeexPreprocessState :=
  if f32_lit 3 10 <. Pframe then
    let rate := flt (f64_lit 3 100 *d dbl Pframe *d dbl Pframe) in
    st {{ loudness :=
            flt (dbl ((int 1 -f rate) *f loudness st)
                 +d dbl rate *d c_pow (dbl (AMP_SCALE *f frame)) (dbl LOUDNESS_EXP));
          loudness_accum := (int 1 -f rate) *f loudness_accum st +f rate;
          init_max :=
            if (init_max st <. max_gain st) && (nb_adapt st >? 20)
            then init_max st *f (int 1 +f f32_lit 1 10 *f Pframe *f Pframe) else init_max st }}
  else st.

Definition agc_target : spec_float :=
  flt (dbl (AMP_SCALE *f agc_level st)
       *d c_pow (dbl (loudness st) /d (f64_lit 1 10000 +d dbl (loudness_accum st)))
                (dbl (SFopp (int 1) /f LOUDNESS_EXP))).

(** The limits on [target_gain]. *)
Definition limit_gain (target frame : spec_float) : spec_float :=
  let t := target in
  let t := if max_increase_step st *f agc_gain st <. t then max_increase_step st *f agc_gain st else t in
  let t := if (t <. max_decrease_step st *f agc_gain st) && (frame <. int 10 *f prev_loudness st)
           then max_decrease_step st *f agc_gain st else t in
  let t := if max_gain st <. t then max_gain st else t in
  if init_max st <. t then init_max st else t.

Definition update_gain (Pframe frame : spec_float) : SpeexPreprocessState :=
  if ((f64_lit 1 2 <. dbl Pframe) && (nb_adapt st >? 20)) || (agc_target <. agc_gain st)
  then st {{ agc_gain := limit_gain agc_target frame }} else st.
End stages.

Definition speex_compute_agc (st : SpeexPreprocessState) (Pframe : spec_float) : sigM SpeexPreprocessState :=
  (let* frame := frame_loudness st in
   let st := track_loudness st Pframe frame in
   let st := update_gain st Pframe frame in
   for_sig 0 (2 * ps_size st) (fun i => let* v := ld_f p_ft i in st_f p_ft i (v *f agc_gain st));;
   sig_ret (st {{ prev_loudness := frame }}))%sig.

(** ** Synthesis *)

Section synthesis.
Context (st : SpeexPreprocessState).
#[local] Abbreviation N := (ps_size st).
#[local] Abbreviation N3 := (pp_N3 st).
#[local] Abbreviation N4 := (pp_N4 st).

(** [fabs(x) > max ? fabs(x) : max] *)
Definition max_abs (max x : spec_float) : spec_float :=
  let a := if SFltb x f32_zero then SFopp x else x in if max <. a then a else max.

Definition limit_frame : sigM unit :=
  (let* max_sample := fold_sig 0 (2 * N) (fun i m => let* v := ld_f p_frame i in sig_ret (max_abs m v)) (int 0) in
   if int 28000 <. max_sample
   then
     let damp := int 28000 /f max_sample in
     for_sig 0 (2 * N) (fun i => let* v := ld_f p_frame i in st_f p_frame i (v *f damp))
   else sig_ret tt)%sig.

(** Overlap and add: the frame given back. *)
Definition overlap_add (x : list Z) : sigM (list Z) :=
  (let* x := fold_sig 0 N3 (fun i x =>
     let* o := ld_f p_outbuf i in let* f := ld_f p_frame i in
     sig_opt (set_index x i (WORD2INT (o +f f)))) x in
   fold_sig 0 N4 (fun i x =>
     let* f := ld_f p_frame (N3 + i) in
     sig_opt (set_index x (N3 + i) (int16_of_f64 f))) x)%sig.

Definition synthesis (x : list Z) : sigM (list Z) :=
  (let* t := read_p (p_ft, 0) (2 * N) in
   write_p (p_frame, 0) (spx_ifft (2 * N) t);;
   (if agc_enabled st =? 0 then sig_ret tt else limit_frame);;
   for_sig 0 (2 * N) (fun i =>
     let* f := ld_f p_frame i in let* w := ld_f p_window i in st_f p_frame i (f *f w));;
   let* x := overlap_add x in
   for_sig 0 N3 (fun i => let* f := ld_f p_frame (pp_frame_size st + i) in st_f p_outbuf i f);;
   sig_ret x)%sig.
End synthesis.

(** ** Voice detection *)

(** The result, and the state with the frame's decision. *)
Definition voice_decision (st : SpeexPreprocessState) (Pframe : spec_float) : Z * SpeexPreprocessState :=
  let st := st {{ speech_prob := Pframe }} in
  if vad_enabled st =? 0 then (1, st)
  else if (speech_prob_start st <. speech_prob st)
          || (negb (was_speech st =? 0) && (speech_prob_continue st <. speech_prob st))
  then (1, st {{ was_speech := 1 }})
  else (0, st {{ was_speech := 0 }}).

(** ** The frame *)

Definition count_frame (st : SpeexPreprocessState) : SpeexPreprocessState :=
  let n := nb_adapt st + 1 in
  st {{ nb_adapt := if n >? 20000 then 20000 else n; min_count := min_count st + 1 }}.

(** [MAX16(.03, 1.f / nb_adapt)]: the first operand is a [double]. *)
Definition adapt_rate (nb : Z) : spec_float :=
  let r := int 1 /f int nb in
  flt (if dbl r <. f64_lit 3 100 then f64_lit 3 100 else dbl r).

Definition preprocess_frame (st : SpeexPreprocessState) (echo : SpeexEchoState) (x : list Z)
    : sigM (SpeexPreprocessState * SpeexEchoState * spec_float * list Z) :=
  (let st := count_frame st in
   let beta := adapt_rate (nb_adapt st) in
   let beta_1 := int 1 -f beta in
   let* echo := residual_echo_noise st echo in
   preprocess_analysis st x;;
   let* st := update_noise_prob st in
   update_noise st beta beta_1;;
   first_old_ps st;;
   compute_snr st;;
   smooth_zeta st;;
   let* Pframe := frame_probability st in
   compute_gains st Pframe;;
   apply_gains st;;
   let* st := (if agc_enabled st =? 0 then sig_ret st else speex_compute_agc st Pframe) in
   let* x := synthesis st x in
   sig_ret (st, echo, Pframe, x))%sig.

(** The result, the states of the preprocessor and of the echo canceller, and the frame. *)
Definition speex_preprocess_run (st : SpeexPreprocessState) (echo : SpeexEchoState) (x : list Z)
    : option (Z * SpeexPreprocessState * SpeexEchoState * list Z) :=
  '(st, echo, Pframe, x, mem) ← preprocess_frame st echo x (pp_mem st);
  let '(r, st) := voice_decision st Pframe in
  Some (r, st {{ pp_mem := mem }}, echo, x).

(** [echo] is not used. *)
Definition speex_preprocess := speex_preprocess_run.

(** ** Updating the estimates without processing *)

Definition speex_preprocess_estimate_update (st : SpeexPreprocessState) (x : list Z)
    : option SpeexPreprocessState :=
  let N := ps_size st in
  let N3 := pp_N3 st in
  let fs := pp_frame_size st in
  let st := st {{ min_count := min_count st + 1 }} in
  '(st, mem) ←
    (preprocess_analysis st x;;
     let* st := update_noise_prob st in
     for_sig 1 (N - 1) (fun i =>
       let* u := sig_opt (at_index (update_prob st) i) in
       let* p := ld_f p_ps i in let* n := ld_f p_noise i in
       if (u =? 0) || (p <. n)
       then st_f p_noise i (f32_lit 95 100 *f n +f f32_lit 5 100 *f p)
       else sig_ret tt);;
     for_sig 0 N3 (fun i =>
       let* v := sig_opt (at_index x (fs - N3 + i)) in let* w := ld_f p_window (fs + i) in
       st_f p_outbuf i (int v *f w));;
     for_sig 0 (N + nbands st) (fun i => let* v := ld_f p_ps i in st_f p_old_ps i v);;
     for_sig 0 N (fun i =>
       let* r := ld_f p_reverb_estimate i in st_f p_reverb_estimate i (reverb_decay st *f r));;
     sig_ret st)%sig (pp_mem st);
  Some (st {{ pp_mem := mem }}).
End run.
