(* ===== verification/PreprocessProps.v ===== *)
(** * SpeexDSP: the preprocessor is memory-safe

    Every stage of [PreprocessRun] reads and writes its arrays in range, whatever the numbers
    in them are, and keeps their sizes; so does the part of the echo canceller that it
    calls. *)
From Stdlib Require Import ZArith Lia Bool SpecFloat.
From stdpp Require Import base numbers list option.
From coqutil Require Import Datatypes.RecordSetters.
From S2P Require Import Prelude CFloat Loops FloatBlocks SpeexArith Filterbank EchoState EchoCancel EchoProps Preprocess PreprocessRun.
Import DoubleBraceUpdate.

Local Open Scope Z_scope.

Definition pre_sz (N M : Z) (i : nat) : Z :=
  match pre_blocks !! i with Some b => pre_size N N M b | None => 0 end.

Lemma pre_sz_of N M b : size_of (pre_sz N M) b = pre_size N N M b.
Proof. by destruct b. Qed.

Lemma pre_names (b : pre_block) : (block_index b < 21)%nat.
Proof. destruct b; vm_compute; lia. Qed.

(** The sizes and the bank of a state, and the bounds of its counters: [top] is that of
    [min_count]. *)
Record pre_shape (N M : Z) (bk : FilterBank) (top : Z) (st : SpeexPreprocessState) : Prop := {
  ps_N : ps_size st = N;
  ps_fs : pp_frame_size st = N;
  ps_M : nbands st = M;
  ps_bank : bank st = bk;
  ps_prob : zlen (update_prob st) = N;
  ps_adapt : 0 <= nb_adapt st <= 20000;
  ps_count : 0 <= min_count st <= top }.

(** A state as [speex_preprocess_state_init] makes it. *)
Record pre_ok (st : SpeexPreprocessState) : Prop := {
  po_N : 1 <= ps_size st;
  po_M : 0 <= nbands st;
  po_bank : bank_ok (bank st) (nbands st) (ps_size st);
  po_shape : pre_shape (ps_size st) (nbands st) (bank st) 300 st;
  po_mem : shaped (pre_sz (ps_size st) (nbands st)) 21 (pp_mem st) }.

Section stages.
Context `{SpeexLibm, Drft}.
Context (N M : Z) (bk : FilterBank) (HN : 1 <= N) (HM : 0 <= M) (Hbk : bank_ok bk M N).
#[local] Abbreviation psafe := (@safe (pre_sz N M) 21 _).
#[local] Abbreviation proom := (@room (pre_sz N M) _ _).

Lemma p_ld b i : 0 <= i < pre_size N N M b -> psafe (ld_f b i) (fun _ => True).
Proof. intros Hi. apply safe_ld; [exact pre_names|]. by rewrite pre_sz_of. Qed.

Lemma p_st b i x : 0 <= i < pre_size N N M b -> psafe (st_f b i x) (fun _ => True).
Proof. intros Hi. apply safe_st; [exact pre_names|]. by rewrite pre_sz_of. Qed.

Lemma p_room b off n : 0 <= off -> off + n <= pre_size N N M b -> proom (b, off) n.
Proof. intros Ho Hn. unfold room. rewrite pre_sz_of. done. Qed.

Lemma p_read b off n : 0 <= off -> 0 <= n -> off + n <= pre_size N N M b -> psafe (read_p (b, off) n) (fun l => zlen l = n).
Proof. intros. apply safe_read_p; [exact pre_names|by apply p_room|done]. Qed.

Lemma p_write b off d : 0 <= off -> off + zlen d <= pre_size N N M b -> psafe (write_p (b, off) d) (fun _ => True).
Proof. intros. apply safe_write_p; [exact pre_names|by apply p_room]. Qed.

Lemma p_index {A} (l : list A) i : 0 <= i < zlen l -> psafe (sig_opt (at_index l i)) (fun _ => True).
Proof. intros Hi. apply safe_opt. destruct (at_index_some l i Hi) as [x ->]. eauto. Qed.

Lemma p_set {A} (l : list A) i x : 0 <= i < zlen l -> psafe (sig_opt (set_index l i x)) (fun l' => zlen l' = zlen l).
Proof.
  intros Hi. apply safe_opt. rewrite set_index_some by done. eexists. split; [done|]. apply zlen_insert.
Qed.

Ltac p_rule :=
  lazymatch goal with
  | |- safe _ _ (sig_ret _) _ => apply safe_ret; done
  | |- safe _ _ (sig_bind _ _) _ => apply (safe_bind _ _ _ _ (fun _ => True)); [|let x := fresh "v" in intros x _; cbv beta]
  | |- safe _ _ (for_sig _ _ _) _ => apply safe_for_sig; intros ? ?
  | |- safe _ _ (fold_sig _ _ _ _) _ => apply safe_fold_sig; [done|intros ? ? ? _]
  | |- safe _ _ (ld_f _ _) _ => apply p_ld
  | |- safe _ _ (st_f _ _ _) _ => apply p_st
  | |- safe _ _ (sig_opt (at_index _ _)) _ => apply p_index
  | |- safe _ _ (if ?c then _ else _) _ => destruct c
  end.
Ltac p_safe := repeat (cbv zeta; p_rule).
Ltac p_done := p_safe; cbn [pre_size]; lia.

Lemma p_init_arrays rate : psafe (pre_init_arrays N N M rate) (fun _ => True).
Proof using HN HM.
  unfold pre_init_arrays, conj_window. replace (2 * N - N) with N by lia. rewrite Z.sub_diag. cbn [Z.gtb Z.compare].
  p_done.
Qed.

Lemma p_fill b n x : n <= pre_size N N M b -> psafe (pre_fill b n x) (fun _ => True).
Proof. intros Hn. unfold pre_fill. p_done. Qed.

Context (top : Z) (st : SpeexPreprocessState) (Hst : pre_shape N M bk top st).

Lemma p_N3 : pp_N3 st = N /\ pp_N4 st = 0.
Proof using Hst. destruct Hst. unfold pp_N3, pp_N4, pp_N3. lia. Qed.

Ltac p_start := pose proof Hst as [EN Ef EM EB EP _ _]; pose proof p_N3 as [E3 E4];
  rewrite ?E3, ?E4, ?EN, ?Ef, ?EM, ?EB.

(** Arrays of bins and bands. *)
Definition banded (b : pre_block) : Prop := pre_size N N M b = N + M.

Lemma p_to_bands b : banded b -> psafe (to_bands st b) (fun _ => True).
Proof using HN HM Hbk Hst.
  intros Hb. unfold to_bands. p_start. unfold banded in Hb.
  apply (safe_accumulate _ _ pre_names _ _ _ Hbk); apply p_room; lia.
Qed.

Lemma p_to_bins b : banded b -> psafe (to_bins st b) (fun _ => True).
Proof using HN HM Hbk Hst.
  intros Hb. unfold to_bins. p_start. unfold banded in Hb.
  apply (safe_psd16 _ _ pre_names _ _ _ Hbk); apply p_room; lia.
Qed.

Lemma p_analysis x : zlen x = N -> psafe (preprocess_analysis st x) (fun _ => True).
Proof using HN HM Hbk Hst.
  intros Hx. unfold preprocess_analysis. p_start.
  p_rule; [p_done|]. p_rule; [p_done|]. p_rule; [p_done|]. p_rule; [p_done|].
  eapply safe_bind; [apply p_read; cbn [pre_size]; lia|]. intros l Hl. cbv beta in Hl.
  eapply safe_bind; [apply p_write; rewrite ?zlen_fft; cbn [pre_size]; lia|]. intros _ _.
  p_rule; [p_done|]. p_rule; [p_done|]. p_rule; [p_done|]. by apply p_to_bands.
Qed.

Lemma p_speech_bins prob : zlen prob = N -> psafe (speech_bins st prob) (fun l => zlen l = N).
Proof using HN HM Hst.
  intros Hp. unfold speech_bins. p_start. apply safe_fold_sig; [done|]. intros k l Hk Hl.
  p_rule; [p_done|]. p_rule; [p_done|]. eapply safe_mono; [apply p_set; lia|]. intros l' ->. done.
Qed.

Lemma p_update_prob : psafe (update_noise_prob st) (fun st' => pre_shape N M bk 300 st').
Proof using HN HM Hst.
  unfold update_noise_prob, smooth_S, track_minimum. p_start.
  p_rule; [p_done|]. p_rule; [p_done|]. p_rule; [p_done|].
  eapply safe_bind; [by apply p_speech_bins|]. intros l Hl. apply safe_ret.
  destruct Hst as [_ _ _ _ _ Ha Hc]. split; [done..|].
  change (0 <= (if min_count st >? min_range st then 0 else min_count st) <= 300).
  rewrite Z.gtb_ltb. destruct (Z.ltb_spec (min_range st) (min_count st)); [lia|].
  split; [lia|]. assert (min_range st <= 300) by (unfold min_range; repeat case_match; lia). lia.
Qed.

Lemma p_update_noise a b : psafe (update_noise st a b) (fun _ => True).
Proof using HN HM Hbk Hst.
  unfold update_noise. p_start. p_rule; [p_done|]. by apply p_to_bands.
Qed.

Lemma p_first_old : psafe (first_old_ps st) (fun _ => True).
Proof using HN HM Hst. unfold first_old_ps. p_start. p_done. Qed.

Lemma p_snr : psafe (compute_snr st) (fun _ => True).
Proof using HN HM Hst. unfold compute_snr. p_start. p_done. Qed.

Lemma p_zeta : psafe (smooth_zeta st) (fun _ => True).
Proof using HN HM Hst. unfold smooth_zeta. p_start. p_done. Qed.

Lemma p_probability : psafe (frame_probability st) (fun _ => True).
Proof using HN HM Hst. unfold frame_probability. p_start. p_done. Qed.

Lemma hypergeom_defined x : exists y, hypergeom_gain x = Some y.
Proof.
  unfold hypergeom_gain. cbv zeta. set (ind := int32_of_f32 _).
  destruct (Z.ltb_spec ind 0); [eauto|]. rewrite Z.gtb_ltb. destruct (Z.ltb_spec 19 ind); [eauto|].
  assert (Hz : zlen hypergeom_table = 21) by done.
  destruct (at_index_some hypergeom_table ind ltac:(lia)) as [t0 ->].
  destruct (at_index_some hypergeom_table (ind + 1) ltac:(lia)) as [t1 ->]. cbn. eauto.
Qed.

Lemma p_em_gain i : 0 <= i < N + M -> psafe (em_gain i) (fun _ => True).
Proof.
  intros Hi. unfold em_gain. p_rule; [p_done|]. p_rule; [p_done|].
  p_rule; [|p_done]. apply safe_opt. edestruct hypergeom_defined as [y ->]. eauto.
Qed.

Lemma p_save_old i : 0 <= i < N + M -> psafe (save_old_ps i) (fun _ => True).
Proof. intros Hi. unfold save_old_ps. p_done. Qed.

Lemma p_band_gains P : psafe (band_gains st P) (fun _ => True).
Proof using HN HM Hst.
  unfold band_gains. p_start. p_rule. p_rule; [apply p_em_gain; lia|]. destruct v as [theta g].
  p_rule; [p_done|]. p_rule; [apply p_save_old; lia|]. p_done.
Qed.

Lemma p_bin_gains : psafe (bin_gains st) (fun _ => True).
Proof using HN HM Hst.
  unfold bin_gains. p_start. p_rule. p_rule; [apply p_em_gain; lia|]. destruct v as [theta g].
  p_rule; [p_done|]. p_rule; [p_done|]. cbv zeta. p_rule; [p_done|]. p_rule; [apply p_save_old; lia|]. p_done.
Qed.

Lemma p_gains P : psafe (compute_gains st P) (fun _ => True).
Proof using HN HM Hbk Hst.
  unfold compute_gains, compute_gain_floor. p_start.
  p_rule; [p_done|]. p_rule; [apply p_band_gains|].
  p_rule; [by apply p_to_bins|]. p_rule; [by apply p_to_bins|]. p_rule; [by apply p_to_bins|].
  p_rule; [apply p_bin_gains|]. p_done.
Qed.

Lemma p_apply_gains : psafe (apply_gains st) (fun _ => True).
Proof using HN HM Hst. unfold apply_gains. p_start. p_done. Qed.

Lemma p_agc P : psafe (speex_compute_agc st P) (fun st' => pre_shape N M bk top st').
Proof using HN HM Hst.
  unfold speex_compute_agc, frame_loudness. p_start. p_rule; [p_done|].
  cbv zeta. set (st1 := track_loudness st P v). assert (S1 : pre_shape N M bk top st1).
  { unfold st1, track_loudness. destruct Hst. case_match; by split. }
  set (st2 := update_gain st1 P v). assert (S2 : pre_shape N M bk top st2).
  { unfold st2, update_gain. destruct S1. case_match; by split. }
  p_rule; [|apply safe_ret; destruct S2; by split]. rewrite (ps_N _ _ _ _ _ S2). p_done.
Qed.

Lemma p_limit_frame : psafe (limit_frame st) (fun _ => True).
Proof using HN HM Hst. unfold limit_frame. p_start. p_done. Qed.

Lemma p_overlap x :
  zlen x = N -> Forall (in_s 16) x -> psafe (overlap_add st x) (fun y => zlen y = N /\ Forall (in_s 16) y).
Proof using HN HM Hst.
  intros Hx Hr. unfold overlap_add. p_start.
  eapply (safe_bind _ _ _ _ (fun y => zlen y = N /\ Forall (in_s 16) y)).
  - apply safe_fold_sig; [done|]. intros k y Hk [Hy Hry]. p_rule; [p_done|]. p_rule; [p_done|].
    apply safe_opt. rewrite set_index_some by lia. eexists. split; [done|].
    rewrite zlen_insert. split; [done|]. apply Forall_insert; [done|]. apply word2int_range.
  - intros y Hy. by apply safe_ret.
Qed.

Lemma p_synthesis x :
  zlen x = N -> Forall (in_s 16) x -> psafe (synthesis st x) (fun y => zlen y = N /\ Forall (in_s 16) y).
Proof using HN HM Hst.
  intros Hx Hr. unfold synthesis. p_start.
  eapply safe_bind; [apply p_read; cbn [pre_size]; lia|]. intros l Hl. cbv beta in Hl.
  p_rule; [eapply safe_mono; [apply p_write; rewrite ?zlen_ifft; cbn [pre_size]; lia|done]|].
  p_rule; [destruct (_ =? _); [p_done|apply p_limit_frame]|]. p_rule; [p_done|].
  eapply safe_bind; [by apply p_overlap|]. intros y Hy. p_rule; [p_done|]. by apply safe_ret.
Qed.
End stages.

(** ** The residual echo *)

Lemma power_spectrum_defined X fs :
  1 <= fs -> zlen X = 2 * fs -> exists ps, power_spectrum X (2 * fs) = Some ps /\ zlen ps = fs + 1.
Proof.
  intros Hf HX. unfold power_spectrum. rewrite pairs_even by done.
  assert (G : forall i, 0 <= i < 2 * fs -> exists x, at_index X i = Some x) by (intros; apply at_index_some; lia).
  destruct (G 0 ltac:(lia)) as [x0 ->]. destruct (G (1 + 2 * (fs - 1)) ltac:(lia)) as [x1 ->].
  cbn [mbind option_bind].
  destruct (mapM (fun t => a ← (x ← at_index X (1 + 2 * t); Some (f32_mul x x));
    b ← (x ← at_index X (1 + 2 * t + 1); Some (f32_mul x x)); Some (f32_add a b)) (seqZ 0 (fs - 1))) as [l|] eqn:E.
  - cbn. eexists. split; [done|]. apply length_mapM in E.
    unfold zlen. cbn [length]. rewrite length_app. cbn [length]. rewrite <- E, length_seqZ. lia.
  - apply mapM_None in E. apply Exists_exists in E as (t & Ht & E). apply list_elem_of_In, elem_of_seqZ in Ht.
    destruct (G (1 + 2 * t) ltac:(lia)) as [a Ea], (G (1 + 2 * t + 1) ltac:(lia)) as [b Eb].
    rewrite Ea, Eb in E. done.
Qed.

Ltac binds := repeat lazymatch goal with
  | |- safe _ _ (sig_bind _ _) _ => apply (safe_bind _ _ _ _ (fun _ => True)); [|intros ? _] end.

Section frame.
Context `{SpeexLibm, Drft}.

(** The echo canceller's part writes one number more than a frame has. *)
Lemma e_get_residual echo r :
  echo_ok echo -> frame_size echo + 1 <= zlen r ->
  exists echo' r', speex_echo_get_residual echo r = Some (echo', r') /\ echo_ok echo'
    /\ frame_size echo' = frame_size echo /\ zlen r' = zlen r.
Proof.
  intros [Hst Hm Hb Hscr Hsat] Hr. pose proof Hst as [Hf HN HM HC HK]. unfold speex_echo_get_residual.
  assert (Hy : e_room echo (b_y, 0) (window_size echo) /\ e_room echo (b_Y, 0) (window_size echo)).
  { unfold e_room. cbn. nia. }
  assert (S : safe (echo_sz (frame_size echo) (ec_M echo) (ec_C echo) (ec_K echo)) 25
    (for_sig 0 (window_size echo) (fun i =>
       let* w := ld_f b_window i in let* v := ld_f b_last_y i in st_f b_y i (f32_mul w v));;
     fft_to echo (b_y, 0) (b_Y, 0);; read_p (b_Y, 0) (window_size echo))%sig (fun l => zlen l = window_size echo)).
  { apply (safe_bind _ _ _ _ (fun _ => True)); [|intros _ _].
    { apply safe_for_sig. intros k Hk. binds; first [apply e_ld|apply e_st]; cbn [echo_size]; nia. }
    apply (safe_bind _ _ _ _ (fun _ => True)); [apply e_fft_to; [done|apply Hy..]|intros _ _].
    apply e_read; [apply Hy|lia]. }
  destruct (S _ Hm) as (Y & mem & E & Hm' & HY). rewrite E. cbn [mbind option_bind].
  destruct (power_spectrum_defined Y (frame_size echo) Hf) as (ps & Eps & Hps); [by rewrite HY, HN|].
  rewrite HN, Eps. cbn [mbind option_bind]. rewrite part_some by (rewrite ?Hps; lia). cbn [mbind option_bind].
  eexists _, _. split; [done|]. split; [by split|]. split; [done|]. apply zlen_wr; [lia|].
  unfold zlen. rewrite length_map. fold (zlen ps). unfold zlen in *. lia.
Qed.

Definition echo_fits_pre (st : SpeexPreprocessState) (echo : SpeexEchoState) : Prop :=
  echo_state st = true -> echo_ok echo /\ frame_size echo + 1 <= ps_size st + nbands st.

Lemma p_residual N M bk top st echo :
  1 <= N -> 0 <= M -> bank_ok bk M N -> pre_shape N M bk top st -> echo_fits_pre st echo ->
  safe (pre_sz N M) 21 (residual_echo_noise st echo)
    (fun echo' => echo_state st = true -> echo_ok echo' /\ frame_size echo' = frame_size echo).
Proof.
  intros HN HM Hbk Hst Hfit. unfold residual_echo_noise. pose proof Hst as [EN Ef EM EB EP _ _].
  destruct (echo_state st) eqn:Es.
  - destruct Hfit as [Hok Hsz]; [done|].
    eapply safe_bind; [apply safe_get_block; exact pre_names|]. intros r Hr. cbv beta in Hr.
    rewrite pre_sz_of in Hr. cbn [pre_size] in Hr.
    eapply (safe_bind _ _ _ _ (fun p => echo_ok p.1 /\ frame_size p.1 = frame_size echo /\ zlen p.2 = zlen r)).
    { apply safe_opt. destruct (e_get_residual echo r) as (echo' & r' & E & ? & ? & ?); [done|lia|].
      exists (echo', r'). rewrite E. done. }
    intros [echo' r'] (Hok' & Hf' & Hr'). cbn [fst snd] in *.
    eapply safe_bind; [apply safe_set_block; rewrite pre_sz_of; cbn [pre_size]; lia|].
    intros _ _. rewrite EN.
    apply (safe_bind _ _ _ _ (fun _ => True)); [apply p_ld; cbn [pre_size]; lia|intros r0 _].
    apply (safe_bind _ _ _ _ (fun _ => True)).
    { destruct (residual_sane _ _); [by apply safe_ret|]. apply safe_for_sig. intros. apply p_st. cbn [pre_size]. lia. }
    intros _ _. apply (safe_bind _ _ _ _ (fun _ => True)).
    { apply safe_for_sig. intros k Hk. binds; first [apply p_ld|apply p_st]; cbn [pre_size]; lia. }
    intros _ _. apply (safe_bind _ _ _ _ (fun _ => True)); [by eapply p_to_bands|]. intros _ _.
    apply safe_ret. done.
  - apply (safe_bind _ _ _ _ (fun _ => True)); [|intros _ _; by apply safe_ret].
    rewrite EN, EM. apply safe_for_sig. intros. apply p_st. cbn [pre_size]. lia.
Qed.

Lemma p_frame_safe N M bk st echo x :
  1 <= N -> 0 <= M -> bank_ok bk M N -> pre_shape N M bk 300 st -> echo_fits_pre st echo ->
  zlen x = N -> Forall (in_s 16) x ->
  safe (pre_sz N M) 21 (preprocess_frame st echo x) (fun '(st', echo', P, x') =>
    pre_shape N M bk 300 st' /\ (echo_state st = true -> echo_ok echo' /\ frame_size echo' = frame_size echo)
    /\ zlen x' = N /\ Forall (in_s 16) x').
Proof.
  intros HN HM Hbk Hst Hfit Hx Hr. unfold preprocess_frame. cbv zeta.
  assert (S0 : pre_shape N M bk 301 (count_frame st)).
  { destruct Hst as [? ? ? ? ? Ha Hc]. split; [done..| |].
    - change (0 <= (if nb_adapt st + 1 >? 20000 then 20000 else nb_adapt st + 1) <= 20000).
      rewrite Z.gtb_ltb. destruct (Z.ltb_spec 20000 (nb_adapt st + 1)); lia.
    - change (0 <= min_count st + 1 <= 301). lia. }
  eapply safe_bind; [eapply (p_residual N M bk); done|]. intros echo' He.
  change (echo_state (count_frame st)) with (echo_state st) in He.
  apply (safe_bind _ _ _ _ (fun _ => True)); [by eapply (p_analysis N M bk)|intros _ _].
  eapply safe_bind; [by eapply (p_update_prob N M bk)|]. intros st1 S1. cbv beta in S1.
  apply (safe_bind _ _ _ _ (fun _ => True)); [by eapply (p_update_noise N M bk)|intros _ _].
  apply (safe_bind _ _ _ _ (fun _ => True)); [by eapply (p_first_old N M bk)|intros _ _].
  apply (safe_bind _ _ _ _ (fun _ => True)); [by eapply (p_snr N M bk)|intros _ _].
  apply (safe_bind _ _ _ _ (fun _ => True)); [by eapply (p_zeta N M bk)|intros _ _].
  apply (safe_bind _ _ _ _ (fun _ => True)); [by eapply (p_probability N M bk)|intros P _].
  apply (safe_bind _ _ _ _ (fun _ => True)); [by eapply (p_gains N M bk)|intros _ _].
  apply (safe_bind _ _ _ _ (fun _ => True)); [by eapply (p_apply_gains N M bk)|intros _ _].
  eapply (safe_bind _ _ _ _ (fun st2 => pre_shape N M bk 300 st2)).
  { destruct (_ =? _); [by apply safe_ret|by eapply (p_agc N M bk)]. }
  intros st2 S2. eapply safe_bind; [by eapply (p_synthesis N M bk)|]. intros x' [Hx' Hr']. by apply safe_ret.
Qed.

(** C7. [speex_preprocess_run] is memory-safe and total: in every state as
    [speex_preprocess_state_init] makes it and requests and earlier frames leave it, with
    an echo canceller attached or not, and whatever samples it gets, every access is in range,
    the frame given back has as many 16-bit samples as the frame given, the result is 0 or
    1, and the two states are consistent again; the counters of frames stay bounded, so a
    session of any length does not overflow them. *)
Theorem preprocess_run_safe st echo x :
  pre_ok st -> echo_fits_pre st echo -> zlen x = pp_frame_size st -> Forall (in_s 16) x ->
  exists r st' echo' x', speex_preprocess_run st echo x = Some (r, st', echo', x')
    /\ (r = 0 \/ r = 1) /\ pre_ok st' /\ zlen x' = zlen x /\ Forall (in_s 16) x'
    /\ (echo_state st = true -> echo_ok echo' /\ frame_size echo' = frame_size echo).
Proof.
  intros [HN HM Hbk Hst Hm] Hfit Hx Hr. pose proof Hst as [_ Ef _ _ _ _ _]. rewrite Ef in Hx.
  destruct (p_frame_safe _ _ _ st echo x HN HM Hbk Hst Hfit Hx Hr _ Hm)
    as ([[[st1 echo'] P] x'] & mem & E & Hm' & S1 & He & Hx' & Hr').
  unfold speex_preprocess_run. rewrite E. cbn [mbind option_bind].
  destruct (voice_decision st1 P) as [r st2] eqn:Ev.
  assert (S2 : (r = 0 \/ r = 1) /\ pre_shape (ps_size st) (nbands st) (bank st) 300 st2).
  { unfold voice_decision in Ev. repeat case_match; simplify_eq; destruct S1; (split; [auto|by split]). }
  destruct S2 as [Hr2 S2]. exists r, (st2 {{ pp_mem := mem }}), echo', x'. split; [done|]. split; [done|].
  split; [|split; [congruence|split; done]]. pose proof S2 as [EN Ef2 EM EB EP _ _].
  split; change (ps_size (st2 {{ pp_mem := mem }})) with (ps_size st2);
    change (nbands (st2 {{ pp_mem := mem }})) with (nbands st2);
    change (bank (st2 {{ pp_mem := mem }})) with (bank st2); rewrite ?EN, ?EM, ?EB; try done.
  by destruct S2.
Qed.
End frame.
