(* ===== verification/PreprocessLaws.v ===== *)
(** * SpeexDSP: creation, requests, gain control and voice detection of the preprocessor *)
From Stdlib Require Import ZArith Lia Bool SpecFloat.
From stdpp Require Import base numbers list option.
From coqutil Require Import Datatypes.RecordSetters.
From S2P Require Import Prelude CFloat Loops FloatBlocks SpeexArith Filterbank EchoState EchoProps EchoInit Preprocess PreprocessRun PreprocessProps.
Import DoubleBraceUpdate.

Local Open Scope Z_scope.

#[local] Instance pre_request_dec : EqDecision pre_request.
Proof. solve_decision. Defined.

Section laws.
Context `{SpeexLibm}.

(** ** Creation *)

Lemma pre_size_bound N M b : 1 <= N -> 0 <= M -> 0 <= pre_size N N M b <= 2 * (N + M).
Proof. intros. destruct b; cbn; lia. Qed.

Lemma pre_alloc N M :
  1 <= N -> 0 <= M -> 8 * (N + M) < 2 ^ 31 ->
  exists blocks, mapM (fun b => speex_alloc f32_zero 4 (pre_size N N M b)) pre_blocks = Some blocks
    /\ shaped (pre_sz N M) 21 blocks.
Proof.
  intros HN HM Hfits. exists (map (fun b => zrep (pre_size N N M b) f32_zero) pre_blocks). split.
  - apply mapM_Some. apply Forall2_fmap_r. apply Forall_Forall2_diag, Forall_forall. intros b _.
    pose proof (pre_size_bound N M b HN HM). apply alloc_ok; lia.
  - split; [done|]. intros i l E. unfold pre_sz. rewrite list_lookup_fmap in E.
    destruct (pre_blocks !! i) as [b|]; [|done]. injection E as <-. pose proof (pre_size_bound N M b HN HM). apply zlen_zrep. lia.
Qed.

(** [speex_preprocess_state_init] makes a consistent state for every frame size that
    fits in memory, provided the filter bank for the rate is defined (its bands exist): all
    arrays have the sizes that the other functions assume, the bank has one pair of weights
    per bin, and the noise may be updated in every bin. *)
Theorem preprocess_init_consistent frame_size sampling_rate bank0 :
  1 <= frame_size -> 8 * (frame_size + NB_BANDS) < 2 ^ 31 ->
  filterbank_new NB_BANDS (f32_of_Z sampling_rate) frame_size = Some bank0 ->
  exists st, speex_preprocess_state_init frame_size sampling_rate = Some st /\ pre_ok st
    /\ bank st = bank0 /\ pp_frame_size st = frame_size /\ update_prob st = zrep frame_size 1.
Proof.
  intros Hf Hfits Hbank. unfold speex_preprocess_state_init. rewrite Hbank. cbn [mbind option_bind].
  replace (2 * frame_size - frame_size) with frame_size by lia.
  assert (HM : 0 <= NB_BANDS) by (vm_compute; congruence).
  assert (Hf0 : 0 <= frame_size) by lia.
  assert (Hbk := filterbank_new_ok _ _ _ _ HM Hf0 Hbank).
  destruct (pre_alloc frame_size NB_BANDS Hf HM Hfits) as (blocks & -> & Hb). cbn [mbind option_bind].
  rewrite alloc_ok by (unfold NB_BANDS in *; lia). cbn [mbind option_bind].
  destruct (p_init_arrays frame_size NB_BANDS Hf HM sampling_rate _ Hb) as ([] & mem & -> & Hm & _).
  cbn [mbind option_bind]. unfold set_ones.
  rewrite set_all_eq by (rewrite zlen_zrep by lia; lia). cbn [mbind option_bind].
  rewrite drop_ge by (unfold zrep; rewrite length_replicate; lia). rewrite app_nil_r.
  eexists. split; [done|]. split; [|done]. split; [done|done|done| |done].
  split; [done|done|done|done|exact (zlen_zrep frame_size 1 Hf0)|by vm_compute|by vm_compute].
Qed.

(** ** Requests *)

Lemma pre_ok_mem st mem :
  pre_ok st -> shaped (pre_sz (ps_size st) (nbands st)) 21 mem -> pre_ok (st {{ pp_mem := mem }}).
Proof. intros [? ? ? [] ?] Hm. by split. Qed.

Lemma pre_handle_ok st r a st' a' :
  pre_ok st -> pre_handle st r a = Some (st', a') ->
  pre_ok st' /\ (pre_request_code r <> 8 -> pp_mem st' = pp_mem st).
Proof.
  intros Hok E. destruct (decide (r = SET_DEREVERB)) as [-> |Hr].
  - destruct a; try done. cbn [pre_handle] in E. pose proof Hok as [HN HM _ _ Hm].
    destruct (p_fill (ps_size st) (nbands st) p_reverb_estimate (ps_size st) (f32_of_Z 0)) with (m := pp_mem st)
      as ([] & mem & Em & Hm' & _); [cbn; lia|done|].
    rewrite Em in E. injection E as <- _. split; [|done].
    apply (pre_ok_mem _ mem) in Hm'; [|done]. destruct Hm' as [? ? ? [] ?]. by split.
  - assert (G : exists d v ps pc ns es ea ech al mg mi md ag,
      st' = st {{ denoise_enabled := d; vad_enabled := v; speech_prob_start := ps; speech_prob_continue := pc;
                  noise_suppress := ns; echo_suppress := es; echo_suppress_active := ea; echo_state := ech;
                  agc_level := al; max_gain := mg; max_increase_step := mi; max_decrease_step := md; agc_enabled := ag }}).
    { unfold pre_handle, neg_abs, psd_of in E.
      destruct st, r, a; try done; cbn in E; repeat case_match; simplify_option_eq; by repeat eexists. }
    destruct G as (d & v & ps & pc & ns & es & ea & ech & al & mg & mi & md & ag & ->).
    split; [|done]. destruct Hok as [? ? ? [] ?]. by split.
Qed.


(** The requests that set a member come with one that gets it. *)
Inductive paired : pre_request -> pre_request -> Prop :=
| pair_denoise : paired SET_DENOISE GET_DENOISE
| pair_agc : paired SET_AGC GET_AGC
| pair_vad : paired SET_VAD GET_VAD
| pair_dereverb : paired SET_DEREVERB GET_DEREVERB
| pair_level : paired SET_AGC_LEVEL GET_AGC_LEVEL
| pair_start : paired SET_PROB_START GET_PROB_START
| pair_continue : paired SET_PROB_CONTINUE GET_PROB_CONTINUE
| pair_noise : paired SET_NOISE_SUPPRESS GET_NOISE_SUPPRESS
| pair_echo : paired SET_ECHO_SUPPRESS GET_ECHO_SUPPRESS
| pair_active : paired SET_ECHO_SUPPRESS_ACTIVE GET_ECHO_SUPPRESS_ACTIVE
| pair_state : paired SET_ECHO_STATE GET_ECHO_STATE.

(** What is got after [a] has been set: suppression is in negative decibels, probabilities
    are percentages, and two of them lose one percent to rounding. *)
Definition as_got (r : pre_request) (a : pre_arg) : pre_arg :=
  match r, a with
  | (SET_PROB_START | SET_PROB_CONTINUE), arg_int v =>
      let p := percent v in arg_int (if (p =? 53) || (p =? 59) then p - 1 else p)
  | (SET_NOISE_SUPPRESS | SET_ECHO_SUPPRESS | SET_ECHO_SUPPRESS_ACTIVE), arg_int v => arg_int (- Z.abs v)
  | SET_AGC_LEVEL, arg_float v => arg_float (clamp_level v)
  | _, _ => a
  end.

Lemma percent_got v : 0 <= v <= 100 -> percent_of (prob_of v) = if (v =? 53) || (v =? 59) then v - 1 else v.
Proof.
  intros Hv. unfold percent_of, int32_of_f32.
  assert (G : Forall (fun v => sf_to_s 32 (f32_mul (prob_of v) (f32_of_Z 100))
    = Some (if (v =? 53) || (v =? 59) then v - 1 else v)) (seqZ 0 101)).
  { apply (bool_decide_unpack _). by vm_compute. }
  rewrite Forall_forall in G. rewrite (G v); [done|]. apply list_elem_of_In, elem_of_seqZ. lia.
Qed.

End laws.
