(* ===== verification/PreprocessGain.v ===== *)
(** * SpeexDSP: gain control and voice detection of the preprocessor *)
From Stdlib Require Import ZArith Lia Bool SpecFloat.
From stdpp Require Import base numbers list option.
From coqutil Require Import Datatypes.RecordSetters.
From S2P Require Import Prelude CFloat Loops FloatBlocks SpeexArith Filterbank EchoState Preprocess PreprocessRun.
Import DoubleBraceUpdate.

Local Open Scope Z_scope.
Local Open Scope cfloat_scope.

(** ** The order of floats *)

Lemma SFltb_irrefl x : (x <. x) = false.
Proof.
  unfold SFltb. destruct x as [s|s| |s m e]; try (by destruct s); [done|]. cbn.
  rewrite Z.compare_refl. change (Pos.compare_cont Eq m m) with (m ?= m)%positive.
  rewrite Pos.compare_refl. by destruct s.
Qed.

(** The comparison of finite numbers: by the exponent, then by the significand. *)
Lemma lex_spec m1 e1 m2 e2 :
  (match e1 ?= e2 with Lt => Lt | Gt => Gt | Eq => Pos.compare_cont Eq m1 m2 end = Lt
   <-> (e1 < e2 \/ (e1 = e2 /\ (Z.pos m1 < Z.pos m2)%Z))%Z)
  /\ (match e1 ?= e2 with Lt => Gt | Gt => Lt | Eq => CompOpp (Pos.compare_cont Eq m1 m2) end = Lt
   <-> (e2 < e1 \/ (e1 = e2 /\ (Z.pos m2 < Z.pos m1)%Z))%Z).
Proof.
  change (Pos.compare_cont Eq m1 m2) with (m1 ?= m2)%positive.
  destruct (Z.compare_spec e1 e2); [|split; split; (done || lia)..].
  destruct (Pos.compare_spec m1 m2); cbn; split; split; (done || lia).
Qed.

Lemma SFltb_lt x y : (x <. y) = true <-> SFcompare x y = Some Lt.
Proof. unfold SFltb. destruct (SFcompare x y) as [[]|]; done. Qed.

Lemma SFltb_trans x y z : (x <. y) = true -> (y <. z) = true -> (x <. z) = true.
Proof.
  rewrite !SFltb_lt. destruct x as [sx|sx| |sx mx ex], y as [sy|sy| |sy my ey], z as [sz|sz| |sz mz ez];
    cbn; try destruct sx; try destruct sy; try destruct sz; try done.
  - intros [= H1%lex_spec] [= H2%lex_spec]. f_equal. apply lex_spec. lia.
  - intros [= H1%lex_spec] [= H2%lex_spec]. f_equal. apply lex_spec. lia.
Qed.

(** A number below one that [b] is not below. *)
Lemma not_above b c t : (b <. t) = false -> (c <. t) = true -> (b <. c) = false.
Proof.
  intros Hb Hc. destruct (b <. c) eqn:E; [|done]. pose proof (SFltb_trans _ _ _ E Hc). congruence.
Qed.

Section gain.
Context `{SpeexLibm}.
#[local] Abbreviation int := f32_of_Z.

(** ** Automatic gain control *)

(** [if (t > b) t = b;] *)
Lemma cap_spec b t : (b <. (if b <. t then b else t)) = false.
Proof. destruct (b <. t) eqn:E; [apply SFltb_irrefl|done]. Qed.

Lemma cap_keeps a b t : (a <. t) = false -> (a <. (if b <. t then b else t)) = false.
Proof. intros Ha. destruct (b <. t) eqn:E; [by apply not_above with t|done]. Qed.

(** C25. The gain control never amplifies beyond its limits: whatever the loudness of the
    frame (also where it is infinite or NaN), the gain after a frame is the one before it,
    or it exceeds neither the maximal gain, nor the limit for the start, nor, where the
    limit of the decrease is not above it, the maximal increase of the gain before. *)
Theorem agc_gain_limited st Pframe m st' m' :
  speex_compute_agc st Pframe m = Some (st', m') ->
  agc_gain st' = agc_gain st
  \/ (max_gain st' <. agc_gain st') = false /\ (init_max st' <. agc_gain st') = false
     /\ ((max_increase_step st *f agc_gain st <. max_decrease_step st *f agc_gain st) = false ->
         (max_increase_step st *f agc_gain st <. agc_gain st') = false).
Proof.
  unfold speex_compute_agc, sig_bind at 1. destruct (frame_loudness st m) as [[frame m1]|]; [|done].
  cbv zeta. set (st1 := track_loudness st Pframe frame).
  assert (E1 : agc_gain st1 = agc_gain st /\ max_increase_step st1 = max_increase_step st
    /\ max_decrease_step st1 = max_decrease_step st) by (unfold st1, track_loudness; by case_match).
  clearbody st1. destruct E1 as (Eg & Ei & Ed). rewrite <- Eg, <- Ei, <- Ed. clear Eg Ei Ed st.
  unfold sig_bind. destruct (for_sig _ _ _ _) as [[u m2]|]; [|done]. unfold sig_ret. intros [= <- <-].
  unfold update_gain. destruct (_ || _); [|by left]. right.
  change (let t := limit_gain st1 (agc_target st1) frame in
    (max_gain st1 <. t) = false /\ (init_max st1 <. t) = false
     /\ ((max_increase_step st1 *f agc_gain st1 <. max_decrease_step st1 *f agc_gain st1) = false ->
         (max_increase_step st1 *f agc_gain st1 <. t) = false)).
  unfold limit_gain. cbv zeta. split; [apply cap_keeps, cap_spec|]. split; [apply cap_spec|].
  intros Hd. apply cap_keeps, cap_keeps. case_match; [done|apply cap_spec].
Qed.


(** ** Voice detection *)

(** The decisions over a sequence of frames, from what the last frame was. *)
Definition voice_after (st : SpeexPreprocessState) (probabilities : list spec_float) : Z * SpeexPreprocessState :=
  fold_left (fun s P => voice_decision s.2 P) probabilities (if was_speech st =? 0 then 0 else 1, st).

Lemma voice_step st P :
  vad_enabled st <> 0 ->
  let (r, st') := voice_decision st P in
  (r = 1 <-> (speech_prob_start st <. P) = true \/ was_speech st <> 0 /\ (speech_prob_continue st <. P) = true)
  /\ (r = 1 <-> was_speech st' <> 0)
  /\ vad_enabled st' = vad_enabled st /\ speech_prob_start st' = speech_prob_start st
  /\ speech_prob_continue st' = speech_prob_continue st.
Proof.
  intros Hv. unfold voice_decision. change (vad_enabled (st {{ speech_prob := P }})) with (vad_enabled st).
  rewrite (proj2 (Z.eqb_neq _ _) Hv). cbn [speech_prob speech_prob_start speech_prob_continue was_speech].
  change (speech_prob (st {{ speech_prob := P }})) with P.
  change (speech_prob_start (st {{ speech_prob := P }})) with (speech_prob_start st).
  change (speech_prob_continue (st {{ speech_prob := P }})) with (speech_prob_continue st).
  change (was_speech (st {{ speech_prob := P }})) with (was_speech st).
  destruct (speech_prob_start st <. P), (speech_prob_continue st <. P), (Z.eqb_spec (was_speech st) 0);
    cbn; split_and!; try done; intuition congruence.
Qed.

(** One more frame. *)
Lemma hysteresis_snoc (start cont : spec_float -> Prop) (w : Prop) Ps P :
  start P \/ ((w /\ Forall cont Ps) \/ exists l Q r, Ps = l ++ Q :: r /\ start Q /\ Forall cont r) /\ cont P
  <-> (w /\ Forall cont (Ps ++ [P])) \/ exists l Q r, Ps ++ [P] = l ++ Q :: r /\ start Q /\ Forall cont r.
Proof.
  split.
  - intros [Hs|[[[Hw HP]|(l & Q & r & -> & HQ & Hr)] Hc]].
    + right. exists Ps, P, []. by split_and!.
    + left. split; [done|]. apply Forall_app. auto.
    + right. exists l, Q, (r ++ [P]). split; [by rewrite <- app_assoc|]. split; [done|]. apply Forall_app. auto.
  - intros [[Hw HP]|(l & Q & r & E & HQ & Hr)].
    + apply Forall_app in HP as [HP Hc]. right. split; [by left|]. by apply Forall_inv in Hc.
    + destruct r as [|x r _] using rev_ind.
      * apply app_inj_tail in E as [_ ->]. by left.
      * rewrite app_comm_cons, app_assoc in E. apply app_inj_tail in E as [-> ->].
        apply Forall_app in Hr as [Hr Hc]. right. split; [|by apply Forall_inv in Hc].
        right. exists l, Q, r. done.
Qed.

(** The voice detection is a hysteresis: after any sequence of frames it reports
    speech exactly where some frame's probability exceeded the threshold for a start, or
    there was speech before, and the probability of every frame since has exceeded the
    threshold for a continuation. *)
Theorem vad_is_hysteresis st Ps :
  vad_enabled st <> 0 ->
  (voice_after st Ps).1 = 1
  <-> (was_speech st <> 0 /\ Forall (fun P => (speech_prob_continue st <. P) = true) Ps)
      \/ exists before P since, Ps = before ++ P :: since /\ (speech_prob_start st <. P) = true
         /\ Forall (fun P => (speech_prob_continue st <. P) = true) since.
Proof.
  intros Hv. set (cont := fun P => (speech_prob_continue st <. P) = true).
  assert (G : ((voice_after st Ps).1 = 1 <-> was_speech (voice_after st Ps).2 <> 0)
    /\ vad_enabled (voice_after st Ps).2 = vad_enabled st
    /\ speech_prob_start (voice_after st Ps).2 = speech_prob_start st
    /\ speech_prob_continue (voice_after st Ps).2 = speech_prob_continue st
    /\ ((voice_after st Ps).1 = 1 <-> (was_speech st <> 0 /\ Forall cont Ps)
      \/ exists l P r, Ps = l ++ P :: r /\ (speech_prob_start st <. P) = true /\ Forall cont r));
    [|by destruct G as (_ & _ & _ & _ & ?)].
  induction Ps as [|P Ps (Ew & Ev & Es & Ec & IH)] using rev_ind.
  - cbn. destruct (Z.eqb_spec (was_speech st) 0); (split_and!; [done|done|done|done|]).
    + split; [done|]. intros [[? _]|(l & P & r & E & _)]; [done|by destruct l].
    + split; [|done]. intros _. left. split; [done|constructor].
  - unfold voice_after in *. rewrite fold_left_app. cbn [fold_left].
    set (s := fold_left _ Ps _) in *. pose proof (voice_step s.2 P) as V.
    destruct (voice_decision s.2 P) as [r st']. destruct V as (V1 & V2 & V3 & V4 & V5); [congruence|].
    cbn [fst snd]. split_and!; [exact V2|congruence..|]. rewrite V1, Es, Ec, <- Ew, IH. apply (hysteresis_snoc (fun P => (speech_prob_start st <. P) = true)).
Qed.
End gain.
