(* ===== verification/SpeexWitness.v ===== *)
(** * SpeexDSP: the theorems at concrete inputs

    A library of constant functions, the transform of [smallft.c], a small canceller
    as it is created, one whose filter has got a NaN, and a small preprocessor. *)
From Stdlib Require Import ZArith Lia Bool SpecFloat.
From stdpp Require Import base numbers list option.
From coqutil Require Import Datatypes.RecordSetters.
From S2P Require Import Prelude CFloat Loops FloatBlocks SpeexArith SmallFt SmallFtFactors SmallFtPure EchoState EchoCancel EchoProps EchoRuns EchoInit EchoFifo Filterbank Preprocess PreprocessRun PreprocessProps PreprocessLaws PreprocessGain.
Import DoubleBraceUpdate.

Local Open Scope Z_scope.

Lemma demo_range w : 0 < w -> in_s w 0.
Proof. intros Hw. unfold in_s. assert (0 < 2 ^ (w - 1)) by (apply Z.pow_pos_nonneg; lia). lia. Qed.

#[local] Instance demo_libm : SpeexLibm := {|
  c_exp _ := f64_of_Z 2; c_cos _ := f64_of_Z 0; c_sin _ := f64_of_Z 1; c_atan _ := f64_of_Z 0; c_log _ := f64_of_Z 0;
  c_pow _ _ := f64_of_Z 1; int16_undefined := 0; int16_undefined_range := demo_range 16 eq_refl;
  int32_undefined := 0; int32_undefined_range := demo_range 32 eq_refl |}.

#[local] Instance demo_drft : Drft := smallft.

(** The value that a computation gives. *)
Ltac computed t := let x := eval vm_compute in t in match x with Some ?y => exact y end.

Definition demo_echo : SpeexEchoState.
Proof. computed (speex_echo_state_init_mc 2 4 1 2). Defined.

Definition demo_mono : SpeexEchoState.
Proof. computed (speex_echo_state_init_mc 2 4 1 1). Defined.

(** A NaN among the weights of the foreground filter. *)
Definition demo_nan : SpeexEchoState :=
  demo_mono {{ ec_mem := <[block_index b_foreground := <[3%nat := S754_nan]> (default [] (ec_mem demo_mono !! block_index b_foreground))]>
                           (ec_mem demo_mono) }}.

Lemma shaped_sizes sz n m : length m = n -> map zlen m = map sz (seq 0 n) -> shaped sz n m.
Proof.
  intros Hl E. split; [done|]. intros i l Hi. pose proof (lookup_lt_Some _ _ _ Hi).
  apply (f_equal (.!! i)) in E. rewrite !list_lookup_fmap, Hi, lookup_seq_lt in E by lia. by injection E.
Qed.

Ltac demo_ok := split; [split; by vm_compute|by apply shaped_sizes; vm_compute|by vm_compute|by vm_compute|by vm_compute].

Lemma demo_echo_ok : echo_ok demo_echo.
Proof. demo_ok. Qed.
Lemma demo_mono_ok : echo_ok demo_mono.
Proof. demo_ok. Qed.
Lemma demo_nan_ok : echo_ok demo_nan.
Proof. demo_ok. Qed.

(** ** The transform *)

Definition demo_calls : list (direction * list spec_float) :=
  [(forward, map f32_of_Z [1; 5; 2; 7; -3; 4]); (backward, map f32_of_Z [3; 0; 1; 1; 2; 8]); (forward, map f32_of_Z [1; 5; 2; 7; -3; 4])].

Lemma drft_factors_terminate_witness :
  exists nf ifac', drft_factors 360 (zrep 32 0) = Some (nf, ifac') /\ zlen ifac' = 32 /\
    at_index ifac' 0 = Some 360 /\ at_index ifac' 1 = Some nf /\ 1 <= nf <= 30 /\
    product (factors nf ifac') = 360 /\ evens_first (factors nf ifac').
Proof. apply (drft_factors_terminate 360 (zrep 32 0)); [lia|reflexivity]. Defined.


(** ** The echo canceller *)

(** A canceller that has cancelled a frame, and what it does with the frame of the NaN. *)
Definition demo_used : SpeexEchoState.
Proof. computed (option_map fst (speex_echo_cancellation demo_mono [1000; -3000] [500; 700] [0; 0])). Defined.

Definition demo_frame : SpeexEchoState * spec_float * spec_float * spec_float * output * memory.
Proof. computed (cancel_frame demo_nan [1000; -3000] [500; 700] [0; 0] (ec_mem demo_nan)). Defined.

Lemma demo_used_ok : echo_ok demo_used.
Proof. demo_ok. Qed.

Lemma demo_fits : echo_fits 2 2 1 2 /\ echo_fits 2 2 1 1.
Proof. split; intros []; by vm_compute. Qed.

Lemma demo_input st : frame_size st = 2 -> ec_C st = 1 -> ec_K st <= 2 ->
  echo_input st [1000; -3000] [500; 700; 1; 2] [0; 0].
Proof.
  unfold echo_input. intros -> -> HK. change (zlen [500; 700; 1; 2]) with 4.
  split; [done|]. split; [lia|]. split; [done|]. repeat constructor; by vm_compute.
Qed.

Lemma echo_cancellation_safe_witness :
  exists st' out', speex_echo_cancellation demo_echo [1000; -3000] [500; 700; 1; 2] [0; 0] = Some (st', out')
    /\ echo_ok st' /\ zlen out' = 2.
Proof.
  destruct (echo_cancellation_safe demo_echo [1000; -3000] [500; 700; 1; 2] [0; 0] demo_echo_ok
    (demo_input demo_echo eq_refl eq_refl ltac:(by vm_compute))) as (st' & out' & E & Hok & _ & Hl & _).
  exists st', out'. exact (conj E (conj Hok Hl)).
Defined.


Lemma echo_init_consistent_witness :
  exists st, speex_echo_state_init_mc 2 4 1 2 = Some st /\ echo_ok st /\ play_buf_pos st = 4.
Proof.
  destruct (echo_init_consistent 2 4 1 2) as (st & E & Hok & _ & Hp & _); [lia..|exact (proj1 demo_fits)|].
  exists st. exact (conj E (conj Hok Hp)).
Defined.

Lemma echo_reset_like_new_witness :
  exists st', speex_echo_state_reset demo_used = Some st' /\ learned st' = learned demo_mono.
Proof.
  destruct (echo_reset_like_new demo_used demo_mono 4 demo_used_ok) as (st' & E & El & _);
    [by vm_compute|by vm_compute|lia|by vm_compute|exact (proj2 demo_fits)|by vm_compute|].
  exists st'. exact (conj E El).
Defined.

Lemma echo_reset_keeps_channels_witness :
  exists st', speex_echo_state_reset demo_echo = Some st'.
Proof.
  destruct (echo_reset_keeps_channels demo_echo b_W 8 demo_echo_ok) as (st' & E & _);
    [by left|by vm_compute|]. exists st'. exact E.
Defined.

Lemma demo_holds : holds demo_mono (mk_queue false [[0; 0]; [0; 0]]).
Proof. split; [done|done|done|by repeat constructor|by vm_compute]. Qed.


(** ** The preprocessor *)

Definition demo_bank : FilterBank.
Proof. computed (filterbank_new NB_BANDS (f32_of_Z 16000) 4). Defined.

Definition demo_pre : SpeexPreprocessState.
Proof. computed (speex_preprocess_state_init 4 16000). Defined.

(** With the canceller attached and every stage enabled. *)
Definition demo_full : SpeexPreprocessState :=
  demo_pre {{ echo_state := true; vad_enabled := 1; agc_enabled := 1 }}.

Lemma demo_pre_ok : pre_ok demo_pre.
Proof.
  split; [by vm_compute|by vm_compute| | |by apply shaped_sizes; vm_compute].
  - split; [done|done|by vm_compute|done|done|done|done|done|..]; repeat constructor; by vm_compute.
  - split; [done|done|done|done|done|by vm_compute|by vm_compute].
Qed.

Lemma demo_full_ok : pre_ok demo_full.
Proof. destruct demo_pre_ok as [? ? ? [] ?]. by split. Qed.

Lemma preprocess_init_consistent_witness :
  exists st, speex_preprocess_state_init 4 16000 = Some st /\ pre_ok st.
Proof.
  destruct (preprocess_init_consistent 4 16000 demo_bank) as (st & E & Hok & _);
    [by vm_compute|by vm_compute|by vm_compute|]. exists st. exact (conj E Hok).
Defined.

Lemma preprocess_run_safe_witness :
  exists r st' echo' x', speex_preprocess_run demo_full demo_mono [1000; -3000; 20; 5] = Some (r, st', echo', x')
    /\ pre_ok st'.
Proof.
  destruct (preprocess_run_safe demo_full demo_mono [1000; -3000; 20; 5] demo_full_ok)
    as (r & st' & echo' & x' & E & _ & Hok & _).
  - intros _. split; [exact demo_mono_ok|by vm_compute].
  - by vm_compute.
  - repeat constructor; by vm_compute.
  - exists r, st', echo', x'. exact (conj E Hok).
Defined.



(** The gain control after one frame. *)
Definition demo_agc : SpeexPreprocessState * memory.
Proof. computed (speex_compute_agc demo_full (f32_lit 9 10) (pp_mem demo_full)). Defined.

Lemma agc_gain_limited_witness :
  agc_gain demo_agc.1 = agc_gain demo_full \/ SFltb (max_gain demo_agc.1) (agc_gain demo_agc.1) = false.
Proof.
  destruct (agc_gain_limited demo_full (f32_lit 9 10) (pp_mem demo_full) demo_agc.1 demo_agc.2) as [E|(E & _)];
    [by vm_compute|by left|by right].
Defined.

(** A gain far above its target. *)
Definition demo_loud : SpeexPreprocessState := demo_pre {{ agc_level := f32_of_Z 1; init_max := f32_of_Z 30 }}.


Lemma vad_is_hysteresis_witness :
  (voice_after demo_full [f32_lit 1 10; f32_lit 4 10; f32_lit 3 10]).1 = 1.
Proof.
  apply (proj2 (vad_is_hysteresis demo_full [f32_lit 1 10; f32_lit 4 10; f32_lit 3 10] ltac:(by vm_compute))).
  right. exists [f32_lit 1 10], (f32_lit 4 10), [f32_lit 3 10]. split; [reflexivity|].
  split; [by vm_compute|]. repeat constructor.
Defined.
